(* ===== verification/_CoqProject ===== *)
-Q . S2P
Prelude.v
Kstring.v
Layout.v
Bio.v
BioSpec.v
BlockStore.v
Log.v
LogSpec.v
Commit.v
Crash.v
Fs.v
FsTx.v
FsBlocks.v
FsInode.v
FsBmap.v
FsRead.v
FsWrite.v
FsExample.v
FsTheorems.v
FsDir.v
Kalloc.v
Pipe.v
File.v
FileSpec.v
FsPath.v
Ulib.v
Grep.v
Posix.v
Uprogs.v
Sh.v
ShRound.v
ShRun.v
Vm.v
VmSpec.v
VmUser.v
VmCopy.v
Proc.v
ProcSpec.v
ProcInv.v
Syscall.v
Exec.v
Sysfile.v
Trap.v
TrapSpec.v
SyscallSpec.v
ExecSpec.v
Spinlock.v
Console.v
Kbd.v
ConsoleSpec.v
ConsoleLine.v
Mkfs.v
MkfsSpec.v
MkfsFiles.v
MkfsMain.v
MkfsBoot.v
Umalloc.v
UmallocSpec.v
Ide.v
IdeSpec.v
Pmem.v
Mp.v
MpSpec.v
Boot.v
Intr.v
IntrSpec.v
Segment.v
SegmentSpec.v
Lapic.v
Smp.v
SmpSpec.v
