(* ===== verification/Prelude.v ===== *)
(** * Verification of an xv6 kernel with its user programs

    The program under src/ is a teaching kernel for the x86 (xv6) to which the
    programs truncate, vim and less were added.  This library translates it into
    Rocq functions and proves what they do.  Nothing is
    assumed beyond the hypotheses of each theorem.

    ** How code becomes definitions

    A C function that changes state is a function of type [M S A], from a state to
    one of four results: [Ok], [Panic] with the message given to panic(), [Blocked]
    where the code sleeps or a loop is still running, and [Ub] for an access that C
    leaves undefined.  [wp m Q s] says that [m] started in [s] returns and the result
    satisfies [Q]: it is total, so every theorem stated with it includes termination
    and the absence of panics, sleeps and stray accesses.  Machine integers are
    numbers of type [Z]; [u8], [u16], [u32] and [s32] are written where C wraps around
    (signed overflow too, as the compiler's two's complement).  Loops that are not
    structural take fuel, computed from the data (the length of a list, the size of a
    file, the delay of a device) so that it is never used up; the lemma about each
    loop proves this.  Where it is a real question whether a loop ends, the fuel is
    an argument of the theorem.

    ** The parts

    - The disk, from below: the block formats (Layout.v: fs.h, log.c, fcntl.h), the
      memory disk and the buffer cache (Bio.v, BioSpec.v: memide.c, bio.c), the
      write-ahead log (Log.v, LogSpec.v, Commit.v, Crash.v: log.c), the class that the
      log provides to the file system (BlockStore.v), the file system (Fs.v: fs.c;
      proofs in FsTx.v to FsDir.v, paths in FsPath.v), open files and pipes (File.v,
      FileSpec.v, Pipe.v: file.c, pipe.c).  The driver of the real disk is Ide.v and
      IdeSpec.v (ide.c); IdeSpec.v shows that it and the memory disk agree.
    - Memory: string functions (Kstring.v: string.c), the page allocator (Kalloc.v:
      kalloc.c), page tables and user memory (Vm.v, VmSpec.v, VmUser.v, VmCopy.v: vm.c),
      segments, gates and the task state (Segment.v, SegmentSpec.v: mmu.h, vm.c, trap.c).
    - Processes: the process table and the scheduler (Proc.v, ProcSpec.v, ProcInv.v:
      proc.c), system calls (Syscall.v, Sysfile.v, SyscallSpec.v: syscall.c, sysfile.c),
      exec (Exec.v, ExecSpec.v: exec.c), traps (Trap.v, TrapSpec.v: trap.c, sysproc.c),
      spin locks (Spinlock.v: spinlock.c).
    - Devices and the start of the machine: the console (Console.v, Kbd.v,
      ConsoleSpec.v, ConsoleLine.v: console.c, kbd.c, uart.c), the boot loader (Boot.v:
      bootmain.c), the processor table (Mp.v, MpSpec.v: mp.c), interrupt controllers
      (Intr.v, IntrSpec.v: picirq.c, ioapic.c, timer.c; Lapic.v: lapic.c) and the start
      of the other processors (Smp.v, SmpSpec.v: main.c, entryother.S).
    - The image builder (Mkfs.v to MkfsBoot.v: mkfs.c).
    - User programs: the library (Ulib.v: ulib.c, printf.c), malloc (Umalloc.v,
      UmallocSpec.v: umalloc.c), the shell (Sh.v, ShRound.v, ShRun.v: sh.c), grep
      (Grep.v) and truncate, vim, less, cat, wc and echo (Uprogs.v), over Posix.v, which
      states what the system calls do for a user program.

    A component keeps its own state record; [zoom] runs an operation of one component
    inside the state of another, as the code composes them.  Hardware is a class with
    what its manual says as laws (the drive in Ide.v, the controllers in Intr.v and
    Lapic.v), each with an instance, so that the laws are known to be satisfiable.

    ** What is proved

    - Crash safety: a crash at any write leaves the disk before or after the whole
      transaction, and booting recovers it (Crash.v).
    - Files: write, read, directories and path names against their contents
      (FsTheorems.v, FsDir.v, FsPath.v), and the read and write system calls down to the
      user's memory (SyscallSpec.v).  mkfs builds a well-formed image with the given
      files, and the booted kernel reads each of them back (MkfsMain.v, MkfsBoot.v).
    - Refinement of an abstract specification: the page allocator, the user heap, the
      console's line editor, the disk driver, path lookup.
    - Concurrency, over all interleavings of steps: spin locks exclude each other, pipes
      are queues and lose no wakeup, the process table keeps its invariant, the other
      processors start on stacks of their own.
    - Protection: arguments of system calls, what user code can load and enter, a
      killed process does not return to user code, fork copies memory.
    - User programs against what they are meant to compute; the shell's parser reads
      back what is printed, and running a command gives the right tree of calls.
    - Defects, as theorems that exhibit them: read with a negative size, kill of a free
      slot, a killed writer of a pipe, ports open to user code, a table with too many
      processors.  Further ones are plain lemmas, named where they occur.

    ** Bounds and simplifications

    - Except in Spinlock.v, a critical section is one step, and a sleep inside it ends
      the step with [Blocked]; the nesting counter of pushcli is unbounded there.
    - fork is one step.  The buffers of a system call are read before and written after
      the call.  The output of cprintf is modelled in Console.v only; a printf of a user
      program is one write.
    - Posix.v is a specification; that sysfile.c implements it is not proved as one
      refinement, only through the theorems on the single calls.
    - In Smp.v the steps of mpenter before it sets its flag are one step.

    ** Not modelled

    - Assembly other than the path of entryother.S in Smp.v (bootasm.S, entry.S, swtch.S,
      trapasm.S, usys.S, initcode.S, vectors.pl): there is no model of the instructions.
    - kvmalloc, entrypgdir and the order of the calls in main, apart from the
      interrupts: they only call initialisations that are modelled one by one.
    - getcallerpcs, which walks the stack for a debugging message.
    - rm, ln, mkdir, kill, ls, init, zombie, and the tests stressfs, forktest and
      usertests: they call the system calls in turn and print messages.
    - Declarations (defs.h, user.h, types.h) and the build files. *)
From stdpp Require Import base list gmap strings numbers option.
From Stdlib Require Import ZArith Lia.

(** ** Results of kernel code

    A C function that touches kernel state is a function from the state to one
    of four results.  [Panic] carries the string given to panic(), which never
    returns.  [Blocked] is a call of sleep(): the sequential execution cannot
    go on until another process runs.  [Ub] is an access the C language leaves
    undefined (an index outside an array, a null pointer followed). *)
Inductive res (S A : Type) : Type :=
| Ok (a : A) (s : S)
| Panic (msg : string)
| Blocked (s : S)
| Ub.
Arguments Ok {S A} a s.
Arguments Panic {S A} msg.
Arguments Blocked {S A} s.
Arguments Ub {S A}.

Definition M (S A : Type) : Type := S → res S A.

Definition ret {S A} (a : A) : M S A := λ s, Ok a s.
Definition bind {S A B} (m : M S A) (k : A → M S B) : M S B :=
  λ s, match m s with
       | Ok a s' => k a s'
       | Panic msg => Panic msg
       | Blocked s' => Blocked s'
       | Ub => Ub
       end.
Definition gets {S A} (f : S → A) : M S A := λ s, Ok (f s) s.
Definition modify {S} (f : S → S) : M S unit := λ s, Ok tt (f s).
Definition panic {S A} (msg : string) : M S A := λ _, Panic msg.
Definition sleep_on {S A} : M S A := λ s, Blocked s.
Definition undefined {S A} : M S A := λ _, Ub.
(** [lift_opt o] is undefined behaviour where an access is out of range. *)
Definition lift_opt {S A} (o : option A) : M S A :=
  match o with Some a => ret a | None => undefined end.

(** A for loop whose body has no early exit. *)
Fixpoint mfor {S A} (l : list A) (body : A → M S unit) : M S unit :=
  match l with
  | [] => ret tt
  | x :: l => bind (body x) (λ _, mfor l body)
  end.

(** [zoom get put m] runs [m] on the part of the state [get] selects. *)
Definition zoom {S T A} (get : S → T) (put : T → S → S) (m : M T A) : M S A :=
  λ s, match m (get s) with
       | Ok a t => Ok a (put t s)
       | Panic msg => Panic msg
       | Blocked t => Blocked (put t s)
       | Ub => Ub
       end.

Declare Scope kernel_scope.
Delimit Scope kernel_scope with kernel.
Notation "x <- m ;; k" := (bind m (λ x, k))
  (at level 100, m at next level, right associativity) : kernel_scope.
Notation "m ;;; k" := (bind m (λ _, k))
  (at level 100, right associativity) : kernel_scope.
Open Scope kernel_scope.

(** ** Weakest preconditions: total correctness

    [wp m Q s]: run from [s], [m] returns normally and [Q] holds of the value
    and the final state; in particular it neither panics, sleeps nor runs into
    undefined behaviour. *)
Definition wp {S A} (m : M S A) (Q : A → S → Prop) (s : S) : Prop :=
  match m s with Ok a s' => Q a s' | _ => False end.

Section wp_rules.
Context {S : Type}.

Lemma wp_iff {A} (m : M S A) Q s :
  wp m Q s ↔ ∃ a s', m s = Ok a s' ∧ Q a s'.
Proof.
  unfold wp. split.
  - destruct (m s); [by eauto | done..].
  - by intros (a & s' & -> & HQ).
Qed.
Lemma wp_run {A} (m : M S A) Q s : wp m Q s → ∃ a s', m s = Ok a s' ∧ Q a s'.
Proof. apply wp_iff. Qed.

Lemma wp_Ok {A} (m : M S A) Q s a s' : m s = Ok a s' → wp m Q s → Q a s'.
Proof. unfold wp. by intros ->. Qed.

Lemma wp_ret {A} (a : A) Q (s : S) : Q a s → wp (ret a) Q s.
Proof. done. Qed.

Lemma wp_gets {A} (f : S → A) Q s : Q (f s) s → wp (gets f) Q s.
Proof. done. Qed.

Lemma wp_modify f Q (s : S) : Q tt (f s) → wp (modify f) Q s.
Proof. done. Qed.

Lemma wp_bind {A B} (m : M S A) (k : A → M S B) Q s :
  wp m (λ a s', wp (k a) Q s') s → wp (bind m k) Q s.
Proof. unfold wp, bind. by destruct (m s). Qed.

Lemma wp_bind_assoc {A B C} (m : M S A) (k : A → M S B) (k' : B → M S C) Q s :
  wp (bind (bind m k) k') Q s → wp (bind m (λ a, bind (k a) k')) Q s.
Proof. unfold wp, bind. by destruct (m s). Qed.

Lemma wp_bind_inv {A B} (m : M S A) (k : A → M S B) Q s :
  wp (bind m k) Q s → wp m (λ a s', wp (k a) Q s') s.
Proof. unfold wp, bind. by destruct (m s). Qed.

Lemma wp_mono {A} (m : M S A) (Q Q' : A → S → Prop) s :
  wp m Q s → (∀ a s', Q a s' → Q' a s') → wp m Q' s.
Proof. unfold wp. destruct (m s); auto. Qed.

Lemma wp_conj {A} (m : M S A) (Q Q' : A → S → Prop) s :
  wp m Q s → wp m Q' s → wp m (λ a s', Q a s' ∧ Q' a s') s.
Proof. unfold wp. destruct (m s); auto. Qed.

Lemma wp_zoom {T A} (get : S → T) put (m : M T A) Q s :
  wp m (λ a t, Q a (put t s)) (get s) → wp (zoom get put m) Q s.
Proof. unfold wp, zoom. by destruct (m (get s)). Qed.

(** A counting loop, with an invariant indexed by the counter. *)
Lemma wp_mfor (I : nat → S → Prop) k m (body : nat → M S unit) Q s :
  I k s →
  (∀ j s, k ≤ j < k + m → I j s → wp (body j) (λ _ s', I (1 + j) s') s) →
  (∀ s, I (k + m) s → Q tt s) →
  wp (mfor (seq k m) body) Q s.
Proof.
  revert k s. induction m as [|m IH]; intros k s HI Hbody HQ; simpl.
  - apply HQ. by rewrite Nat.add_0_r.
  - apply wp_bind. eapply wp_mono; [by apply Hbody; [lia|]|]. intros [] s' HI'.
    apply IH; [done| |].
    + intros j s0 Hj. apply Hbody. lia.
    + intros s0. rewrite Nat.add_succ_r in HQ. apply HQ.
Qed.

(** The way to a panic: what runs before it returns. *)
Lemma wp_panic {A B} (m : M S A) (k : A → M S B) msg s :
  wp m (λ a s', k a s' = Panic msg) s → bind m k s = Panic msg.
Proof. unfold wp, bind. by destruct (m s). Qed.

Lemma wp_det {A} (m : M S A) Q s a s' : wp m Q s → m s = Ok a s' → Q a s'.
Proof. unfold wp. intros H E. by rewrite E in H. Qed.

Lemma bind_Ok {A B} (m : M S A) (k : A → M S B) s a s' :
  m s = Ok a s' → bind m k s = k a s'.
Proof. unfold bind. by intros ->. Qed.
End wp_rules.

(** One symbolic step of a wp goal; [wstep] repeats it. *)
Ltac wstep1 :=
  lazymatch goal with
  | |- wp (bind _ _) _ _ => apply wp_bind
  | |- wp (ret _) _ _ => apply wp_ret; cbv beta
  | |- wp (lift_opt (Some _)) _ _ => apply wp_ret; cbv beta
  | |- wp (gets _) _ _ => apply wp_gets; cbv beta
  | |- wp (modify _) _ _ => apply wp_modify; cbv beta
  | |- wp (zoom _ _ _) _ _ => apply wp_zoom
  end.
Ltac wstep := repeat wstep1.

(** ** Machine integers: a w-bit integer is a Z kept in range by wrapping *)
Definition u8 (z : Z) : Z := (z mod 2 ^ 8)%Z.
Definition u16 (z : Z) : Z := (z mod 2 ^ 16)%Z.
Definition u32 (z : Z) : Z := (z mod 2 ^ 32)%Z.
Definition s8 (z : Z) : Z := ((z + 2 ^ 7) mod 2 ^ 8 - 2 ^ 7)%Z.
Definition s16 (z : Z) : Z := ((z + 2 ^ 15) mod 2 ^ 16 - 2 ^ 15)%Z.
Definition s32 (z : Z) : Z := ((z + 2 ^ 31) mod 2 ^ 32 - 2 ^ 31)%Z.

Definition is_u8 (z : Z) : Prop := (0 ≤ z < 2 ^ 8)%Z.
Definition is_u16 (z : Z) : Prop := (0 ≤ z < 2 ^ 16)%Z.
Definition is_u32 (z : Z) : Prop := (0 ≤ z < 2 ^ 32)%Z.
Definition is_s16 (z : Z) : Prop := (- 2 ^ 15 ≤ z < 2 ^ 15)%Z.
Definition is_s32 (z : Z) : Prop := (- 2 ^ 31 ≤ z < 2 ^ 31)%Z.

(** lia with division and remainder by constants turned into equations. *)
Ltac zlia := Z.to_euclidean_division_equations; lia.

Section ints.
Open Scope Z_scope.
Lemma u8_small z : 0 ≤ z < 256 → u8 z = z.
Proof. unfold u8. intros. apply Z.mod_small. lia. Qed.
Lemma u16_small z : 0 ≤ z < 65536 → u16 z = z.
Proof. unfold u16. intros. apply Z.mod_small. lia. Qed.
Lemma u32_small z : 0 ≤ z < 4294967296 → u32 z = z.
Proof. unfold u32. intros. apply Z.mod_small. lia. Qed.
Lemma s32_small z : -2147483648 ≤ z < 2147483648 → s32 z = z.
Proof. unfold s32. intros. rewrite Z.mod_small; lia. Qed.
Lemma s16_small z : -32768 ≤ z < 32768 → s16 z = z.
Proof. unfold s16. intros. rewrite Z.mod_small; lia. Qed.
Lemma u32_range z : 0 ≤ u32 z < 4294967296.
Proof. unfold u32. change 4294967296 with (2 ^ 32). apply Z.mod_pos_bound. lia. Qed.
Lemma u8_range z : 0 ≤ u8 z < 256.
Proof. unfold u8. change 256 with (2 ^ 8). apply Z.mod_pos_bound. lia. Qed.
Lemma u16_range z : 0 ≤ u16 z < 65536.
Proof. unfold u16. change 65536 with (2 ^ 16). apply Z.mod_pos_bound. lia. Qed.
Lemma s32_range z : -2147483648 ≤ s32 z < 2147483648.
Proof.
  unfold s32. pose proof (Z.mod_pos_bound (z + 2 ^ 31) (2 ^ 32)). lia.
Qed.
Lemma s16_range z : -32768 ≤ s16 z < 32768.
Proof.
  unfold s16. pose proof (Z.mod_pos_bound (z + 2 ^ 15) (2 ^ 16)). lia.
Qed.
(** Numbers that share no bit: one is a multiple of 2^k, the other below it. *)
Lemma land_disjoint k a b : 0 ≤ k → a mod 2 ^ k = 0 → 0 ≤ b < 2 ^ k → Z.land a b = 0.
Proof.
  intros Hk Ha Hb. apply Z.bits_inj'. intros n Hn. rewrite Z.land_spec, Z.bits_0.
  destruct (Z.ltb_spec n k).
  - pose proof (Z_div_mod_eq_full a (2 ^ k)) as Hd.
    replace a with (a / 2 ^ k * 2 ^ k) by lia. by rewrite Z.mul_pow2_bits_low by lia.
  - destruct (Z.eq_dec b 0) as [->|]; [by rewrite Z.bits_0, andb_false_r|].
    rewrite (Z.bits_above_log2 b n), andb_false_r; [done|lia|]. apply Z.log2_lt_pow2; [lia|].
    eapply Z.lt_le_trans; [apply Hb|]. apply Z.pow_le_mono_r; lia.
Qed.
Lemma lor_disjoint k a b : 0 ≤ k → a mod 2 ^ k = 0 → 0 ≤ b < 2 ^ k → Z.lor a b = a + b.
Proof. intros. rewrite <- Z.add_lor_land, (land_disjoint k) by done. lia. Qed.
End ints.

(** ** Arrays: reading and writing by a C index *)
Definition aget {A} (l : list A) (i : Z) : option A :=
  if decide (0 ≤ i)%Z then l !! Z.to_nat i else None.
Definition aset {A} (l : list A) (i : Z) (x : A) : option (list A) :=
  if decide (0 ≤ i < Z.of_nat (length l))%Z then Some (<[Z.to_nat i := x]> l) else None.

(** Flag words: [has f b] is the C condition (f & b) != 0. *)
Definition has (f b : Z) : bool := negb (Z.land f b =? 0)%Z.

(** memmove of a whole run of bytes into an array: [new] replaces the elements
    of [l] from [off] on. *)
Definition splice {A} (l : list A) (off : nat) (new : list A) : list A :=
  take off l ++ new ++ drop (off + length new) l.
(** The [n] elements of [l] from [off] on. *)
Definition slice {A} (l : list A) (off n : nat) : list A := take n (drop off l).

(** Lists as arrays: one element changes. *)
Lemma alter_at {A} (f : A → A) i (l : list A) x : l !! i = Some x → alter f i l = <[i := f x]> l.
Proof. revert i. induction l as [|y l IH]; intros [|i] H; [done..|by injection H as ->|]. cbn. f_equal. by apply IH. Qed.
Lemma insert_cases {A} (l : list A) i p k q :
  <[i := p]> l !! k = Some q → i = k ∧ q = p ∨ i ≠ k ∧ l !! k = Some q.
Proof. intros [(-> & -> & _)|[? ?]]%list_lookup_insert_Some; auto. Qed.

Section splice_lemmas.
Context {A : Type}.
Implicit Types (l new : list A).

Lemma length_splice l off new :
  off + length new ≤ length l → length (splice l off new) = length l.
Proof. intros. unfold splice. rewrite !length_app, length_take, length_drop. lia. Qed.

Lemma lookup_splice_out l off new i :
  off + length new ≤ length l → ¬ (off ≤ i < off + length new) →
  splice l off new !! i = l !! i.
Proof.
  intros Hl Hi. unfold splice. destruct (decide (i < off)).
  - rewrite lookup_app_l by (rewrite length_take; lia).
    by rewrite lookup_take_lt.
  - rewrite lookup_app_r by (rewrite length_take; lia).
    rewrite length_take, lookup_app_r by lia.
    rewrite lookup_drop. f_equal. lia.
Qed.

Lemma lookup_splice_in l off new i :
  off ≤ i < off + length new → off ≤ length l →
  splice l off new !! i = new !! (i - off).
Proof.
  intros Hi Hl. unfold splice.
  rewrite lookup_app_r by (rewrite length_take; lia).
  rewrite length_take, lookup_app_l by lia. f_equal. lia.
Qed.

Lemma length_slice l off n :
  off + n ≤ length l → length (slice l off n) = n.
Proof. intros. unfold slice. rewrite length_take, length_drop. lia. Qed.

Lemma lookup_slice l off n i : i < n → slice l off n !! i = l !! (off + i).
Proof. intros. unfold slice. by rewrite lookup_take_lt, lookup_drop. Qed.

Lemma slice_splice_same l off new :
  off + length new ≤ length l → slice (splice l off new) off (length new) = new.
Proof.
  intros Hl. unfold slice, splice.
  rewrite drop_app_length' by (rewrite length_take; lia).
  by rewrite take_app_length.
Qed.

Lemma slice_splice_disjoint l off new off' n :
  off + length new ≤ length l → off' + n ≤ length l →
  off' + n ≤ off ∨ off + length new ≤ off' →
  slice (splice l off new) off' n = slice l off' n.
Proof.
  intros Hl Hl' Hd. apply list_eq. intros i.
  destruct (decide (i < n)).
  - rewrite !lookup_slice by done. apply lookup_splice_out; lia.
  - rewrite !lookup_ge_None_2; [done|..]; rewrite length_slice; rewrite ?length_splice; lia.
Qed.

Lemma splice_slice_id l off n :
  off + n ≤ length l → splice l off (slice l off n) = l.
Proof.
  intros Hl. unfold splice, slice.
  rewrite length_take, length_drop.
  replace (n `min` (length l - off)) with n by lia.
  rewrite <- drop_drop. by rewrite take_drop, take_drop.
Qed.

Lemma slice_full l : slice l 0 (length l) = l.
Proof. unfold slice. by rewrite drop_0, firstn_all. Qed.

Lemma splice_full l new : length new = length l → splice l 0 new = new.
Proof.
  intros Hl. unfold splice. simpl. rewrite drop_ge by lia. by rewrite app_nil_r.
Qed.

Lemma slice_slice l off n off' n' :
  off' + n' ≤ n → slice (slice l off n) off' n' = slice l (off + off') n'.
Proof.
  intros H. apply list_eq. intros i. destruct (decide (i < n')).
  - rewrite !lookup_slice by lia. f_equal. lia.
  - unfold slice. rewrite !lookup_take_ge by lia. done.
Qed.

Lemma Forall_splice (P : A → Prop) l off new :
  Forall P l → Forall P new → Forall P (splice l off new).
Proof.
  intros Hl Hn. unfold splice. rewrite !Forall_app.
  auto using Forall_take, Forall_drop.
Qed.

Lemma Forall_slice (P : A → Prop) l off n : Forall P l → Forall P (slice l off n).
Proof. intros. unfold slice. auto using Forall_take, Forall_drop. Qed.
End splice_lemmas.

Section array_lemmas.
Context {A : Type}.
Implicit Types (l : list A).

Lemma aget_nat l (i : nat) : aget l (Z.of_nat i) = l !! i.
Proof. unfold aget. rewrite decide_True by lia. by rewrite Nat2Z.id. Qed.
Lemma aget_pos l (i : Z) : (0 ≤ i)%Z → aget l i = l !! Z.to_nat i.
Proof. unfold aget. intros. by rewrite decide_True. Qed.
Lemma aset_nat l (i : nat) x :
  i < length l → aset l (Z.of_nat i) x = Some (<[i := x]> l).
Proof. unfold aset. intros. rewrite decide_True by lia. by rewrite Nat2Z.id. Qed.
End array_lemmas.

(** Rewriting of list lengths, used as [len]. *)
Create HintDb kernel discriminated.
Create Rewrite HintDb len.
#[export] Hint Rewrite @length_app @length_take @length_drop @length_insert
  @length_replicate @length_fmap @length_seq @length_reverse : len.
Ltac len := autorewrite with len in *; cbn [length] in *; try lia.
