(* ===== verification/Kstring.v ===== *)
(** * Kernel string library (string.c, stosb and stosl of x86.h)

    memset and memmove act on a byte-addressed memory, the state of the monad;
    an access outside it is undefined.  The functions that only read strings
    take a char* as the list of the bytes from there on, where a byte past the
    end of the list reads as 0; strncpy and safestrcpy return the bytes they
    store from s on. *)
From stdpp Require Import base list numbers option strings.
From Stdlib Require Import ZArith Lia.
From S2P Require Import Prelude.
Open Scope Z_scope.

(** ** Memory *)
Definition load (a : Z) : M (list Z) Z := λ m, lift_opt (aget m a) m.
Definition store (a v : Z) : M (list Z) unit := λ m,
  match aset m a v with Some m' => Ok tt m' | None => Ub end.

(** rep stosb and rep stosl with the direction flag clear. *)
Fixpoint stosb (addr data : Z) (cnt : nat) : M (list Z) unit :=
  match cnt with
  | O => ret tt
  | S cnt => store addr (u8 data) ;;; stosb (addr + 1) data cnt
  end.
Fixpoint stosl (addr data : Z) (cnt : nat) : M (list Z) unit :=
  match cnt with
  | O => ret tt
  | S cnt =>
    store addr (u8 data) ;;;
    store (addr + 1) (u8 (Z.shiftr data 8)) ;;;
    store (addr + 2) (u8 (Z.shiftr data 16)) ;;;
    store (addr + 3) (u8 (Z.shiftr data 24)) ;;;
    stosl (addr + 4) data cnt
  end.

Definition memset (dst c n : Z) : M (list Z) unit :=
  if (Z.rem (s32 dst) 4 =? 0) && (n mod 4 =? 0) then
    let c := Z.land c 255 in
    stosl dst (Z.lor (Z.lor (Z.lor (Z.shiftl c 24) (Z.shiftl c 16)) (Z.shiftl c 8)) c)
      (Z.to_nat (n / 4))
  else stosb dst c (Z.to_nat n).

(** The two loops of memmove; [d] and [s] are the pointers, [n] the count left. *)
Fixpoint copy_down (d s : Z) (n : nat) : M (list Z) unit :=
  match n with
  | O => ret tt
  | S n => v <- load (s - 1) ;; store (d - 1) v ;;; copy_down (d - 1) (s - 1) n
  end.
Fixpoint copy_up (d s : Z) (n : nat) : M (list Z) unit :=
  match n with
  | O => ret tt
  | S n => v <- load s ;; store d v ;;; copy_up (d + 1) (s + 1) n
  end.

Definition memmove (dst src n : Z) : M (list Z) unit :=
  if (src <? dst) && (dst <? src + n)
  then copy_down (dst + n) (src + n) (Z.to_nat n)
  else copy_up dst src (Z.to_nat n).

Definition memcpy (dst src n : Z) : M (list Z) unit := memmove dst src n.

(** ** Strings *)
Definition deref (p : list Z) : Z := default 0 (head p).
(** The characters of a string constant. *)
Definition cs (s : string) : list Z := (λ a, Z.of_nat (Ascii.nat_of_ascii a)) <$> String.list_ascii_of_string s.

Fixpoint memcmp (s1 s2 : list Z) (n : nat) : Z :=
  match n with
  | O => 0
  | S n => if deref s1 =? deref s2 then memcmp (tail s1) (tail s2) n else deref s1 - deref s2
  end.

Fixpoint strncmp (p q : list Z) (n : nat) : Z :=
  match n with
  | O => 0
  | S n' =>
    if negb (deref p =? 0) && (deref p =? deref q) then strncmp (tail p) (tail q) n'
    else deref p - deref q
  end.

Fixpoint strncpy (t : list Z) (n : nat) : list Z :=
  match n with
  | O => []
  | S n => if deref t =? 0 then 0 :: replicate n 0 else deref t :: strncpy (tail t) n
  end.

(** [n] is the value of n after the decrement in the loop condition. *)
Fixpoint safestrcpy_loop (t : list Z) (n : nat) : list Z :=
  match n with
  | O => [0]
  | S n => if deref t =? 0 then [0; 0] else deref t :: safestrcpy_loop (tail t) n
  end.
Definition safestrcpy (t : list Z) (n : Z) : list Z :=
  if n <=? 0 then [] else safestrcpy_loop t (Z.to_nat (n - 1)).

Fixpoint strlen (s : list Z) : Z :=
  match s with
  | [] => 0
  | c :: s => if c =? 0 then 0 else 1 + strlen s
  end.

(** ** memmove and memset *)
Lemma wp_load a v Q m : 0 ≤ a → m !! Z.to_nat a = Some v → Q v m → wp (load a) Q m.
Proof. intros Ha Hv HQ. unfold wp, load. rewrite aget_pos, Hv by done. done. Qed.

Lemma wp_store a v Q m :
  0 ≤ a < Z.of_nat (length m) → Q tt (<[Z.to_nat a := v]> m) → wp (store a v) Q m.
Proof. intros Ha HQ. unfold wp, store, aset. by rewrite decide_True. Qed.

Lemma splice_nil {A} (m : list A) d : splice m d [] = m.
Proof. unfold splice. simpl. by rewrite Nat.add_0_r, take_drop. Qed.

Lemma splice_cons {A} (m : list A) d v (l : list A) :
  (d + S (length l) ≤ length m)%nat → splice (<[d := v]> m) (S d) l = splice m d (v :: l).
Proof.
  intros Hd. unfold splice.
  rewrite (take_S_r _ d v) by (apply list_lookup_insert_eq; lia).
  rewrite take_insert_ge, drop_insert_lt by lia. rewrite <- app_assoc. simpl.
  do 4 f_equal. lia.
Qed.

Lemma splice_snoc {A} (m : list A) d v (l : list A) :
  (d + S (length l) ≤ length m)%nat →
  splice (<[(d + length l)%nat := v]> m) d l = splice m d (l ++ [v]).
Proof.
  intros Hd. unfold splice. rewrite take_insert_ge by lia. rewrite <- app_assoc. do 2 f_equal.
  erewrite drop_S by (apply list_lookup_insert_eq; lia). rewrite drop_insert_lt by lia.
  rewrite length_app. simpl. do 2 f_equal. lia.
Qed.

Lemma slice_S {A} (m : list A) s n v :
  m !! s = Some v → slice m s (S n) = v :: slice m (S s) n.
Proof. intros Hv. unfold slice. by rewrite (drop_S _ _ _ Hv). Qed.

Lemma slice_snoc {A} (m : list A) s n v :
  m !! (s + n)%nat = Some v → slice m s (S n) = slice m s n ++ [v].
Proof. intros Hv. unfold slice. erewrite take_S_r; [done|]. by rewrite lookup_drop. Qed.

Lemma slice_insert_out {A} (m : list A) s n k v :
  ¬ (s ≤ k < s + n)%nat → slice (<[k := v]> m) s n = slice m s n.
Proof.
  intros Hk. apply list_eq. intros i. destruct (decide (i < n)%nat).
  - rewrite !lookup_slice by done. apply list_lookup_insert_ne. lia.
  - unfold slice. rewrite !lookup_take_ge by lia. done.
Qed.

Lemma copy_up_spec n m (d s : nat) :
  (d + n ≤ length m)%nat → (s + n ≤ length m)%nat → (d ≤ s ∨ s + n ≤ d)%nat →
  copy_up (Z.of_nat d) (Z.of_nat s) n m = Ok tt (splice m d (slice m s n)).
Proof.
  revert m d s. induction n as [|n IH]; intros m d s Hd Hs Hds.
  - change (slice m s 0) with (@nil Z). by rewrite splice_nil.
  - destruct (lookup_lt_is_Some_2 m s) as [v Hv]; [lia|].
    simpl. unfold bind at 1, load. rewrite aget_nat, Hv. simpl.
    unfold bind, store. rewrite aset_nat by lia.
    replace (Z.of_nat d + 1) with (Z.of_nat (S d)) by lia.
    replace (Z.of_nat s + 1) with (Z.of_nat (S s)) by lia.
    rewrite IH by (rewrite ?length_insert; lia).
    rewrite slice_insert_out, (slice_S _ _ _ _ Hv) by lia.
    rewrite splice_cons; [done|]. rewrite length_slice; lia.
Qed.

Lemma copy_down_spec n m (d s : nat) :
  (d + n ≤ length m)%nat → (s ≤ d)%nat →
  copy_down (Z.of_nat (d + n)) (Z.of_nat (s + n)) n m = Ok tt (splice m d (slice m s n)).
Proof.
  revert m. induction n as [|n IH]; intros m Hd Hs.
  - change (slice m s 0) with (@nil Z). by rewrite splice_nil.
  - destruct (lookup_lt_is_Some_2 m (s + n)) as [v Hv]; [lia|].
    cbn [copy_down]. replace (Z.of_nat (s + S n) - 1) with (Z.of_nat (s + n)) by lia.
    replace (Z.of_nat (d + S n) - 1) with (Z.of_nat (d + n)) by lia.
    unfold bind at 1, load. rewrite aget_nat, Hv. simpl.
    unfold bind, store. rewrite aset_nat by lia.
    rewrite IH by (rewrite ?length_insert; lia).
    rewrite slice_insert_out, (slice_snoc _ _ _ _ Hv) by lia.
    rewrite <- splice_snoc; rewrite length_slice; [done|lia..].
Qed.

Lemma memmove_run m (dst src n : nat) :
  (dst + n ≤ length m)%nat → (src + n ≤ length m)%nat →
  memmove (Z.of_nat dst) (Z.of_nat src) (Z.of_nat n) m = Ok tt (splice m dst (slice m src n)).
Proof.
  intros Hd Hs. unfold memmove. rewrite Nat2Z.id.
  destruct (Z.ltb_spec (Z.of_nat src) (Z.of_nat dst)); simpl;
    [destruct (Z.ltb_spec (Z.of_nat dst) (Z.of_nat src + Z.of_nat n))|].
  - rewrite <- !Nat2Z.inj_add. apply copy_down_spec; lia.
  - apply copy_up_spec; lia.
  - apply copy_up_spec; lia.
Qed.

Lemma stosb_spec n m (d : nat) c :
  (d + n ≤ length m)%nat →
  stosb (Z.of_nat d) c n m = Ok tt (splice m d (replicate n (u8 c))).
Proof.
  revert m d. induction n as [|n IH]; intros m d Hd; simpl.
  - by rewrite splice_nil.
  - unfold bind, store. rewrite aset_nat by lia.
    replace (Z.of_nat d + 1) with (Z.of_nat (S d)) by lia.
    rewrite IH by (rewrite ?length_insert; lia).
    rewrite splice_cons; [done|]. rewrite length_replicate. lia.
Qed.

Lemma stosl_bytes b :
  is_u8 b →
  let w := Z.lor (Z.lor (Z.lor (Z.shiftl b 24) (Z.shiftl b 16)) (Z.shiftl b 8)) b in
  u8 w = b ∧ u8 (Z.shiftr w 8) = b ∧ u8 (Z.shiftr w 16) = b ∧ u8 (Z.shiftr w 24) = b.
Proof.
  intros Hb w. unfold is_u8 in Hb.
  assert (∀ k i, 0 ≤ i < 8 → 0 ≤ k → Z.testbit w (k + i) =
    Z.testbit b (k + i - 24) || Z.testbit b (k + i - 16) || Z.testbit b (k + i - 8) || Z.testbit b (k + i)) as Hw.
  { intros k i Hi Hk. unfold w. by rewrite !Z.lor_spec, !Z.shiftl_spec by lia. }
  assert (∀ j, 8 ≤ j → Z.testbit b j = false) as Hhi.
  { intros j Hj. destruct (Z.eq_dec b 0) as [->|]; [apply Z.bits_0|].
    apply Z.bits_above_log2; [lia|]. apply Z.log2_lt_pow2; [lia|].
    eapply Z.lt_le_trans; [apply Hb|]. apply Z.pow_le_mono_r; lia. }
  assert (∀ k, k = 0 ∨ k = 8 ∨ k = 16 ∨ k = 24 → u8 (Z.shiftr w k) = b) as H.
  { intros k Hk. unfold u8. apply Z.bits_inj'. intros i Hi.
    destruct (Z.lt_ge_cases i 8) as [Hi8|Hi8].
    - rewrite Z.mod_pow2_bits_low, Z.shiftr_spec, Z.add_comm, Hw by lia.
      destruct Hk as [->|[->|[->| ->]]];
        repeat match goal with |- context [Z.testbit b ?e] =>
        first [ rewrite (Z.testbit_neg_r b e) by lia | rewrite (Hhi e) by lia
              | progress replace e with i by lia ] end; simpl;
        rewrite ?orb_false_r; try done; f_equal; lia.
    - rewrite Z.mod_pow2_bits_high, Hhi by lia. done. }
  split_and!; [rewrite <- (Z.shiftr_0_r w)|..]; apply H; lia.
Qed.

Lemma stosl_spec n m (d : nat) w b :
  u8 w = b → u8 (Z.shiftr w 8) = b → u8 (Z.shiftr w 16) = b → u8 (Z.shiftr w 24) = b →
  (d + 4 * n ≤ length m)%nat →
  stosl (Z.of_nat d) w n m = Ok tt (splice m d (replicate (4 * n) b)).
Proof.
  intros H0 H1 H2 H3. revert m d. induction n as [|n IH]; intros m d Hd.
  - change (replicate (4 * 0) b) with (@nil Z). by rewrite splice_nil.
  - cbn [stosl]. unfold bind, store. rewrite H0, H1, H2, H3.
    replace (Z.of_nat d + 1) with (Z.of_nat (S d)) by lia.
    replace (Z.of_nat d + 2) with (Z.of_nat (S (S d))) by lia.
    replace (Z.of_nat d + 3) with (Z.of_nat (S (S (S d)))) by lia.
    replace (Z.of_nat d + 4) with (Z.of_nat (S (S (S (S d))))) by lia.
    rewrite !aset_nat by (rewrite ?length_insert; lia).
    rewrite IH by (rewrite ?length_insert; lia).
    replace (4 * S n)%nat with (S (S (S (S (4 * n))))) by lia. cbn [replicate].
    rewrite !splice_cons; [done|..]; rewrite ?length_insert; cbn [length];
      rewrite ?length_replicate; lia.
Qed.

Lemma memset_run m (dst n : nat) c :
  (dst + n ≤ length m)%nat →
  memset (Z.of_nat dst) c (Z.of_nat n) m = Ok tt (splice m dst (replicate n (u8 c))).
Proof.
  intros Hd. unfold memset. destruct (_ && _) eqn:Hal.
  - apply andb_true_iff in Hal as [_ Hn%Z.eqb_eq].
    assert (Z.land c 255 = u8 c) as Hc by (unfold u8; apply (Z.land_ones c 8); lia).
    destruct (stosl_bytes (u8 c)) as (B0 & B1 & B2 & B3); [apply (u8_range c)|].
    rewrite Hc. rewrite (stosl_spec _ _ _ _ (u8 c)); try done.
    + do 3 f_equal. zlia.
    + zlia.
  - rewrite Nat2Z.id. by apply stosb_spec.
Qed.

(** ** C strings *)
(** The characters of the string a pointer points to, without the final 0. *)
Fixpoint cstr (p : list Z) : list Z :=
  match p with
  | [] => []
  | c :: p => if c =? 0 then [] else c :: cstr p
  end.

Lemma deref_cstr p : deref p = deref (cstr p).
Proof. destruct p as [|c p]; [done|]. simpl. by destruct (Z.eqb_spec c 0) as [->|]. Qed.

Lemma cstr_tail p : deref p ≠ 0 → cstr p = deref p :: cstr (tail p).
Proof. destruct p as [|c p]; [done|]. intros Hc. simpl in *. by destruct (Z.eqb_spec c 0). Qed.

Lemma cstr_nil p : deref p = 0 → cstr p = [].
Proof. destruct p as [|c p]; [done|]. unfold deref. simpl. by intros ->. Qed.

Lemma cstr_nonzero p : Forall (λ c, c ≠ 0) (cstr p).
Proof.
  induction p as [|c p IH]; simpl; [done|]. destruct (Z.eqb_spec c 0); [done|by constructor].
Qed.

Lemma cstr_id l : Forall (λ c, c ≠ 0) l → cstr l = l.
Proof.
  induction 1 as [|c l Hc Hl IH]; [done|]. simpl. destruct (Z.eqb_spec c 0); [done|]. by rewrite IH.
Qed.

Lemma cstr_app_zero l k : Forall (λ c, c ≠ 0) l → cstr (l ++ 0 :: k) = l.
Proof.
  induction 1 as [|c l Hc Hl IH]; [done|]. simpl. destruct (Z.eqb_spec c 0); [done|]. by rewrite IH.
Qed.

Lemma strlen_cstr s : strlen s = Z.of_nat (length (cstr s)).
Proof.
  induction s as [|c s IH]; [done|]. simpl. destruct (c =? 0); [done|]. simpl. lia.
Qed.

Lemma strncmp_zero p q n : strncmp p q n = 0 ↔ take n (cstr p) = take n (cstr q).
Proof.
  revert p q. induction n as [|n IH]; intros p q; [done|]. simpl strncmp.
  destruct (Z.eqb_spec (deref p) 0) as [Hp|Hp]; simpl.
  - rewrite (cstr_nil p Hp), Hp. destruct (Z.eq_dec (deref q) 0) as [Hq|Hq].
    + rewrite (cstr_nil q Hq), Hq. done.
    + rewrite (cstr_tail q Hq). simpl. split; [lia|done].
  - rewrite (cstr_tail p Hp). destruct (Z.eqb_spec (deref p) (deref q)) as [Heq|Hne].
    + rewrite (cstr_tail q) by congruence. rewrite IH. simpl. rewrite Heq. split; [by intros ->|].
      by intros [= ->].
    + split; [lia|]. intros H. exfalso. apply Hne. destruct (Z.eq_dec (deref q) 0) as [Hq|Hq].
      * by rewrite (cstr_nil q Hq) in H.
      * rewrite (cstr_tail q Hq) in H. by injection H.
Qed.

Lemma strncpy_spec t n :
  strncpy t n = take n (cstr t) ++ replicate (n - length (cstr t)) 0.
Proof.
  revert t. induction n as [|n IH]; intros t; [done|]. cbn [strncpy].
  destruct (Z.eqb_spec (deref t) 0) as [Ht|Ht].
  - rewrite (cstr_nil t Ht). done.
  - rewrite (cstr_tail t Ht), IH. done.
Qed.

Lemma length_strncpy t n : length (strncpy t n) = n.
Proof. rewrite strncpy_spec. rewrite length_app, length_take, length_replicate. lia. Qed.

Lemma safestrcpy_loop_spec t n :
  cstr (safestrcpy_loop t n) = take n (cstr t) ∧
  (length (safestrcpy_loop t n) ≤ S n)%nat ∧ last (safestrcpy_loop t n) = Some 0.
Proof.
  revert t. induction n as [|n IH]; intros t; [done|]. cbn [safestrcpy_loop].
  destruct (Z.eqb_spec (deref t) 0) as [Ht|Ht].
  - rewrite (cstr_nil t Ht). split_and!; [done|simpl; lia|done].
  - rewrite (cstr_tail t Ht). destruct (IH (tail t)) as (H1 & H2 & H3). split_and!.
    + simpl. rewrite (proj2 (Z.eqb_neq _ _) Ht), H1. done.
    + simpl. lia.
    + rewrite last_cons, H3. done.
Qed.

Lemma memcmp_zero s1 s2 n :
  (n ≤ length s1)%nat → (n ≤ length s2)%nat → memcmp s1 s2 n = 0 ↔ take n s1 = take n s2.
Proof.
  revert s1 s2. induction n as [|n IH]; intros [|a s1] [|b s2] H1 H2; simpl in *; try lia; try done.
  unfold deref. simpl. destruct (Z.eqb_spec a b) as [->|Hne].
  - rewrite IH by lia. split; [by intros ->|]. by intros [= ->].
  - split; [lia|]. by intros [= ->].
Qed.
