(* ===== verification/Layout.v ===== *)
(** * On-disk formats (fs.h, log.c, param.h, fcntl.h)

    Sectors are lists of bytes (a byte is a Z between 0 and 255).  The C code
    reads and writes structures through pointers cast into bp->data; here a
    structure is decoded from, and encoded into, the little-endian bytes at its
    offset.  Every field of struct superblock, struct dinode, struct dirent and
    struct logheader has its C offset and width. *)
From stdpp Require Import base list numbers option strings.
From Stdlib Require Import ZArith Lia.
From S2P Require Import Prelude.
Open Scope Z_scope.

(** ** Constants of fs.h and param.h *)
Definition ROOTINO : Z := 1.
Definition BSIZE : Z := 512.
Definition NDIRECT : Z := 12.
Definition NINDIRECT : Z := BSIZE / 4.
Definition MAXFILE : Z := NDIRECT + NINDIRECT.
Definition SIZEOF_DINODE : Z := 64.
Definition IPB : Z := BSIZE / SIZEOF_DINODE.
Definition IBLOCK (i : Z) : Z := i / IPB + 2.
Definition BPB : Z := BSIZE * 8.
Definition BBLOCK (b ninodes : Z) : Z := b / BPB + ninodes / IPB + 3.
Definition DIRSIZ : Z := 14.
Definition SIZEOF_DIRENT : Z := 16.
Definition T_DIR : Z := 1.
Definition T_FILE : Z := 2.
Definition T_DEV : Z := 3.

Definition NPROC : Z := 64.
Definition NOFILE : Z := 16.
Definition NFILE : Z := 100.
Definition NBUF : nat := 10.
Definition NINODE : nat := 50.
Definition NDEV : Z := 10.
Definition ROOTDEV : Z := 1.
Definition MAXARG : Z := 32.
Definition LOGSIZE : Z := 10.

(** Modes of fcntl.h. *)
Definition O_RDONLY : Z := 0x000.
Definition O_WRONLY : Z := 0x001.
Definition O_RDWR : Z := 0x002.
Definition O_CREATE : Z := 0x200.

Abbreviation block := (list Z).

(** ** Little-endian integers *)
Fixpoint le_dec (l : list Z) : Z :=
  match l with
  | [] => 0
  | b :: l => b + 256 * le_dec l
  end.
Fixpoint le_enc (n : nat) (v : Z) : list Z :=
  match n with
  | O => []
  | S n => v mod 256 :: le_enc n (v / 256)
  end.

Definition u16_at (l : list Z) (off : nat) : Z := le_dec (slice l off 2).
Definition s16_at (l : list Z) (off : nat) : Z := s16 (u16_at l off).
Definition u32_at (l : list Z) (off : nat) : Z := le_dec (slice l off 4).
Definition put_u32 (l : list Z) (off : nat) (v : Z) : list Z :=
  splice l off (le_enc 4 v).

(** ** struct superblock *)
Record superblock := mkSb {
  sb_size : Z; sb_nblocks : Z; sb_ninodes : Z; sb_nlog : Z }.
Definition dec_superblock (b : block) : superblock :=
  mkSb (u32_at b 0) (u32_at b 4) (u32_at b 8) (u32_at b 12).
Definition enc_superblock (sb : superblock) : list Z :=
  le_enc 4 (sb_size sb) ++ le_enc 4 (sb_nblocks sb) ++
  le_enc 4 (sb_ninodes sb) ++ le_enc 4 (sb_nlog sb).

(** ** struct dinode *)
Record dinode := mkDinode {
  di_type : Z; di_major : Z; di_minor : Z; di_nlink : Z;
  di_size : Z; di_addrs : list Z }.
Definition dec_addrs (l : list Z) (off n : nat) : list Z :=
  (λ i, u32_at l (off + 4 * i)) <$> seq 0 n.
Fixpoint enc_addrs (l : list Z) : list Z :=
  match l with
  | [] => []
  | a :: l => le_enc 4 a ++ enc_addrs l
  end.
Definition dec_dinode (l : list Z) : dinode :=
  mkDinode (s16_at l 0) (s16_at l 2) (s16_at l 4) (s16_at l 6)
           (u32_at l 8) (dec_addrs l 12 13).
Definition enc_dinode (d : dinode) : list Z :=
  le_enc 2 (di_type d) ++ le_enc 2 (di_major d) ++ le_enc 2 (di_minor d) ++
  le_enc 2 (di_nlink d) ++ le_enc 4 (di_size d) ++ enc_addrs (di_addrs d).
Definition dinode_wf (d : dinode) : Prop :=
  is_s16 (di_type d) ∧ is_s16 (di_major d) ∧ is_s16 (di_minor d) ∧
  is_s16 (di_nlink d) ∧ is_u32 (di_size d) ∧
  length (di_addrs d) = 13%nat ∧ Forall is_u32 (di_addrs d).

(** The dinode with index [k] of an inode block: ((struct dinode* )bp->data) + k. *)
Definition get_dinode (b : block) (k : nat) : dinode := dec_dinode (slice b (64 * k) 64).
Definition put_dinode (b : block) (k : nat) (d : dinode) : block :=
  splice b (64 * k) (enc_dinode d).

(** ** struct dirent *)
Record dirent := mkDirent { de_inum : Z; de_name : list Z }.
Definition dec_dirent (l : list Z) : dirent := mkDirent (u16_at l 0) (slice l 2 14).
Definition enc_dirent (d : dirent) : list Z := le_enc 2 (de_inum d) ++ de_name d.

(** ** struct logheader (log.c) *)
Definition get_loghead_n (b : block) : Z := s32 (u32_at b 0).
Definition get_loghead_sector (b : block) (i : nat) : Z := s32 (u32_at b (4 + 4 * i)).

(** A sector is 512 bytes. *)
Definition is_byte (z : Z) : Prop := 0 ≤ z < 256.
Definition block_wf (b : block) : Prop := length b = 512%nat ∧ Forall is_byte b.

(** ** Lemmas *)
Lemma length_le_enc n v : length (le_enc n v) = n.
Proof. revert v. induction n; simpl; auto. Qed.
#[export] Hint Rewrite length_le_enc : len.

Lemma le_enc_bytes n v : Forall is_byte (le_enc n v).
Proof.
  revert v. induction n as [|n IH]; intros v; simpl; [done|].
  constructor; [unfold is_byte; zlia | apply IH].
Qed.

Lemma le_dec_enc n v : le_dec (le_enc n v) = v mod 256 ^ Z.of_nat n.
Proof.
  revert v. induction n as [|n IH]; intros v; cbn [le_enc le_dec].
  - by rewrite Z.mod_1_r.
  - rewrite IH, Nat2Z.inj_succ, Z.pow_succ_r by lia.
    rewrite (Z.rem_mul_r v 256 (256 ^ Z.of_nat n)) by lia. lia.
Qed.

Lemma le_dec_bound l : Forall is_byte l → 0 ≤ le_dec l < 256 ^ Z.of_nat (length l).
Proof.
  induction 1 as [|b l Hb Hl IH]; [done|]. cbn [le_dec length].
  rewrite Nat2Z.inj_succ, Z.pow_succ_r by lia. unfold is_byte in Hb. lia.
Qed.

Lemma le_enc_dec l : Forall is_byte l → le_enc (length l) (le_dec l) = l.
Proof.
  induction 1 as [|b l Hb Hl IH]; [done|]. cbn [length le_enc le_dec].
  unfold is_byte in Hb. f_equal; [zlia|].
  replace ((b + 256 * le_dec l) / 256) with (le_dec l) by zlia. done.
Qed.

Lemma u32_at_range b off : block_wf b → is_u32 (u32_at b off).
Proof.
  intros [Hl Hb]. unfold is_u32, u32_at.
  pose proof (le_dec_bound (slice b off 4) (Forall_slice _ _ _ _ Hb)) as Hd.
  assert (length (slice b off 4) ≤ 4)%nat by (unfold slice; len).
  assert (256 ^ Z.of_nat (length (slice b off 4)) ≤ 256 ^ 4).
  { apply Z.pow_le_mono_r; lia. }
  lia.
Qed.

Lemma length_enc_addrs l : length (enc_addrs l) = (4 * length l)%nat.
Proof.
  induction l as [|a l IH]; [done|]. cbn [enc_addrs]. len.
Qed.

Lemma length_enc_dinode d : length (di_addrs d) = 13%nat → length (enc_dinode d) = 64%nat.
Proof. intros H. unfold enc_dinode. rewrite !length_app, length_enc_addrs. len. Qed.

Lemma dec_enc_u32 v : is_u32 v → le_dec (le_enc 4 v) = v.
Proof. intros H. rewrite le_dec_enc. apply Z.mod_small. unfold is_u32 in H. lia. Qed.

Lemma dec_enc_s16 v : is_s16 v → s16 (le_dec (le_enc 2 v)) = v.
Proof.
  intros H. rewrite le_dec_enc. unfold is_s16 in H. unfold s16.
  change (256 ^ Z.of_nat 2) with (2 ^ 16). rewrite Zplus_mod_idemp_l.
  rewrite Z.mod_small; lia.
Qed.

(** Decoding an encoded dinode gives it back. *)
Lemma dec_enc_dinode d : dinode_wf d → dec_dinode (enc_dinode d) = d.
Proof.
  destruct d as [ty mj mn nl sz ads].
  intros (Hty & Hmj & Hmn & Hnl & Hsz & Hlen & Hads); simpl in *.
  do 14 (destruct ads as [|? ads]; try (exfalso; simpl in Hlen; lia)).
  repeat match goal with H : Forall _ (_ :: _) |- _ => inversion_clear H end.
  unfold dec_dinode. f_equal.
  1-4: by apply dec_enc_s16.
  - by apply dec_enc_u32.
  - unfold dec_addrs. cbn [seq fmap list_fmap].
    repeat (apply (f_equal2 cons); [by apply dec_enc_u32|]). done.
Qed.

Lemma get_put_dinode b k d :
  length b = 512%nat → (k < 8)%nat → dinode_wf d → get_dinode (put_dinode b k d) k = d.
Proof.
  intros Hb Hk Hd. unfold get_dinode, put_dinode.
  assert (length (enc_dinode d) = 64%nat) as Hl by (apply length_enc_dinode, Hd).
  replace (slice _ _ 64) with (enc_dinode d); [by apply dec_enc_dinode|].
  rewrite <- Hl. rewrite slice_splice_same by lia. done.
Qed.

Lemma get_put_dinode_ne b k k' d :
  length b = 512%nat → (k < 8)%nat → (k' < 8)%nat → k ≠ k' →
  length (di_addrs d) = 13%nat → get_dinode (put_dinode b k d) k' = get_dinode b k'.
Proof.
  intros Hb Hk Hk' Hne Hd. unfold get_dinode, put_dinode.
  apply length_enc_dinode in Hd. rewrite slice_splice_disjoint; [done|lia..].
Qed.

Lemma length_put_dinode b k d :
  length b = 512%nat → (k < 8)%nat → length (di_addrs d) = 13%nat →
  length (put_dinode b k d) = 512%nat.
Proof.
  intros Hb Hk Hd. unfold put_dinode. apply length_enc_dinode in Hd.
  rewrite length_splice; lia.
Qed.

Lemma enc_addrs_bytes l : Forall is_byte (enc_addrs l).
Proof.
  induction l as [|a l IH]; [done|]. cbn [enc_addrs]. rewrite Forall_app.
  split; [apply le_enc_bytes | done].
Qed.

Lemma put_dinode_wf b k d :
  block_wf b → (k < 8)%nat → length (di_addrs d) = 13%nat → block_wf (put_dinode b k d).
Proof.
  intros [Hl Hb] Hk Hd. split; [by apply length_put_dinode|].
  unfold put_dinode. apply Forall_splice; [done|]. unfold enc_dinode.
  rewrite !Forall_app. auto 10 using le_enc_bytes, enc_addrs_bytes.
Qed.

Lemma u32_at_put_same b off v :
  (off + 4 ≤ length b)%nat → is_u32 v → u32_at (put_u32 b off v) off = v.
Proof.
  intros Hb Hv. unfold u32_at, put_u32.
  pose proof (slice_splice_same b off (le_enc 4 v)) as E.
  rewrite length_le_enc in E. rewrite E by done. by apply dec_enc_u32.
Qed.

Lemma u32_at_put_ne b off v off' :
  (off + 4 ≤ length b)%nat → (off' + 4 ≤ length b)%nat →
  (off' + 4 ≤ off ∨ off + 4 ≤ off')%nat →
  u32_at (put_u32 b off v) off' = u32_at b off'.
Proof.
  intros. unfold u32_at, put_u32. rewrite slice_splice_disjoint; [done|len..].
Qed.

Lemma length_put_u32 b off v : (off + 4 ≤ length b)%nat → length (put_u32 b off v) = length b.
Proof. intros. unfold put_u32. apply length_splice. len. Qed.

Lemma put_u32_wf b off v : (off + 4 ≤ 512)%nat → block_wf b → block_wf (put_u32 b off v).
Proof.
  intros H [Hl Hb]. split; [rewrite length_put_u32; lia|].
  unfold put_u32. apply Forall_splice; [done | apply le_enc_bytes].
Qed.
