(* ===== verification/Bio.v ===== *)
(** * Buffer cache (bio.c, buf.h) over the in-memory disk (memide.c)

    A pointer to a struct buf is the buffer's index in bcache.buf; the index
    [HEAD] = NBUF stands for &bcache.head.  The doubly linked list is kept as
    the C code keeps it, in the prev/next fields, and the loops of bget follow
    those fields.  The spin lock bcache.lock makes each function body atomic,
    so it does not appear; a sleep() is the result [Blocked]. *)
From stdpp Require Import base list gmap numbers option strings sets.
From Stdlib Require Import ZArith Lia.
From S2P Require Import Prelude Layout.
Open Scope Z_scope.

(** ** buf.h *)
Definition B_BUSY : Z := 1.
Definition B_VALID : Z := 2.
Definition B_DIRTY : Z := 4.

Record buf := mkBuf {
  b_flags : Z; b_dev : Z; b_sector : Z;
  b_prev : nat; b_next : nat; b_data : block }.

Definition set_flags (f : Z) (b : buf) : buf :=
  mkBuf f (b_dev b) (b_sector b) (b_prev b) (b_next b) (b_data b).
Definition set_prev (p : nat) (b : buf) : buf :=
  mkBuf (b_flags b) (b_dev b) (b_sector b) p (b_next b) (b_data b).
Definition set_next (n : nat) (b : buf) : buf :=
  mkBuf (b_flags b) (b_dev b) (b_sector b) (b_prev b) n (b_data b).
Definition set_data (d : block) (b : buf) : buf :=
  mkBuf (b_flags b) (b_dev b) (b_sector b) (b_prev b) (b_next b) d.
Definition set_id (dev sec : Z) (b : buf) : buf :=
  mkBuf (b_flags b) dev sec (b_prev b) (b_next b) (b_data b).

(** ** State: bcache and the disk image

    [disk_past] is not in the code: it lists the earlier images of the disk,
    latest first, one per completed sector write.  These are the images a
    crash can leave behind. *)
Record bio := mkBio {
  bcache : list buf;
  memdisk : list block;
  disk_past : list (list block) }.
Definition HEAD : nat := NBUF.

Definition set_bcache (c : list buf) (s : bio) : bio := mkBio c (memdisk s) (disk_past s).
Definition disk_write (sec : Z) (d : block) (s : bio) : bio :=
  mkBio (bcache s) (<[Z.to_nat sec := d]> (memdisk s)) (memdisk s :: disk_past s).

Definition getb (i : nat) : M bio buf := λ s, lift_opt (bcache s !! i) s.
Definition modb (i : nat) (f : buf → buf) : M bio unit :=
  _ <- getb i ;; modify (λ s, set_bcache (alter f i (bcache s)) s).

(** ** memide.c: iderw *)
Definition disksize (s : bio) : Z := Z.of_nat (length (memdisk s)).

Definition iderw (i : nat) : M bio unit :=
  b <- getb i ;;
  size <- gets disksize ;;
  if negb (has (b_flags b) B_BUSY) then panic "iderw: buf not busy"
  else if Z.land (b_flags b) (Z.lor B_VALID B_DIRTY) =? B_VALID
  then panic "iderw: nothing to do"
  else if negb (b_dev b =? 1) then panic "iderw: request not for disk 1"
  else if size <=? b_sector b then panic "iderw: sector out of range"
  else
    (if has (b_flags b) B_DIRTY then
       modb i (λ b, set_flags (Z.land (b_flags b) (Z.lnot B_DIRTY)) b) ;;;
       modify (disk_write (b_sector b) (b_data b))
     else
       p <- gets (λ s, aget (memdisk s) (b_sector b)) ;;
       d <- lift_opt p ;;
       modb i (set_data d)) ;;;
    modb i (λ b, set_flags (Z.lor (b_flags b) B_VALID) b).

(** ** bio.c *)
Definition binit_one (b : nat) : M bio unit :=
  h <- getb HEAD ;;
  modb b (set_next (b_next h)) ;;;
  modb b (set_prev HEAD) ;;;
  modb b (λ x, set_id (u32 (-1)) (b_sector x) x) ;;;
  h <- getb HEAD ;;
  modb (b_next h) (set_prev b) ;;;
  modb HEAD (set_next b).

Definition binit : M bio unit :=
  modb HEAD (set_prev HEAD) ;;;
  modb HEAD (set_next HEAD) ;;;
  mfor (seq 0 NBUF) binit_one.

(** First loop of bget: forward from the most recently used buffer.  The list
    has NBUF buffers, so S NBUF steps reach the head (see [bget_find_spec]). *)
Fixpoint bget_find (fuel : nat) (dev sector : Z) (b : nat) : M bio (option nat) :=
  match fuel with
  | O => undefined
  | S fuel =>
    if decide (b = HEAD) then ret None
    else
      x <- getb b ;;
      if (b_dev x =? dev) && (b_sector x =? sector) then
        if negb (has (b_flags x) B_BUSY) then
          modb b (λ x, set_flags (Z.lor (b_flags x) B_BUSY) x) ;;;
          ret (Some b)
        else sleep_on
      else bget_find fuel dev sector (b_next x)
  end.

(** Second loop: backward from the least recently used buffer. *)
Fixpoint bget_recycle (fuel : nat) (dev sector : Z) (b : nat) : M bio (option nat) :=
  match fuel with
  | O => undefined
  | S fuel =>
    if decide (b = HEAD) then ret None
    else
      x <- getb b ;;
      if negb (has (b_flags x) B_BUSY) && negb (has (b_flags x) B_DIRTY) then
        modb b (set_id dev sector) ;;;
        modb b (set_flags B_BUSY) ;;;
        ret (Some b)
      else bget_recycle fuel dev sector (b_prev x)
  end.

Definition bget (dev sector : Z) : M bio nat :=
  h <- getb HEAD ;;
  r <- bget_find (S NBUF) dev sector (b_next h) ;;
  match r with
  | Some b => ret b
  | None =>
    h <- getb HEAD ;;
    r <- bget_recycle (S NBUF) dev sector (b_prev h) ;;
    match r with
    | Some b => ret b
    | None => panic "bget: no buffers"
    end
  end.

Definition bread (dev sector : Z) : M bio nat :=
  b <- bget dev sector ;;
  x <- getb b ;;
  (if negb (has (b_flags x) B_VALID) then iderw b else ret tt) ;;;
  ret b.

Definition bwrite (b : nat) : M bio unit :=
  x <- getb b ;;
  if negb (has (b_flags x) B_BUSY) then panic "bwrite"
  else
    modb b (λ x, set_flags (Z.lor (b_flags x) B_DIRTY) x) ;;;
    iderw b.

Definition brelse (b : nat) : M bio unit :=
  x <- getb b ;;
  if negb (has (b_flags x) B_BUSY) then panic "brelse"
  else
    modb (b_next x) (set_prev (b_prev x)) ;;;
    x <- getb b ;;
    modb (b_prev x) (set_next (b_next x)) ;;;
    h <- getb HEAD ;;
    modb b (set_next (b_next h)) ;;;
    modb b (set_prev HEAD) ;;;
    h <- getb HEAD ;;
    modb (b_next h) (set_prev b) ;;;
    modb HEAD (set_next b) ;;;
    modb b (λ x, set_flags (Z.land (b_flags x) (Z.lnot B_BUSY)) x).

(** Reads and stores through bp->data. *)
Definition bdata (b : nat) : M bio block := x <- getb b ;; ret (b_data x).
Definition bset (b : nat) (d : block) : M bio unit := modb b (set_data d).

(** [b->flags |= B_DIRTY], the last line of log_write. *)
Definition mark_dirty (b : nat) : M bio unit :=
  modb b (λ x, set_flags (Z.lor (b_flags x) B_DIRTY) x).

(** State before binit: the zeroed bcache (it is in .bss) and a disk image. *)
Definition buf0 : buf := mkBuf 0 0 0 0 0 (replicate 512 0).
Definition bio0 (img : list block) : bio := mkBio (replicate (S NBUF) buf0) img [].
