(* ===== verification/BioSpec.v ===== *)
(** * Correctness of the buffer cache

    The prev/next fields always form one ring through the head that visits
    every buffer once ([ring]); bread returns the block's current contents in a
    buffer of its own; bwrite and brelse keep the cache coherent with the
    disk. *)
From stdpp Require Import base list gmap numbers option strings sets fin_sets.
From Stdlib Require Import ZArith Lia.
From S2P Require Import Prelude Layout Bio.
Open Scope nat_scope.

(** ** Chains of pointers

    [path f x l y]: following [f] from [x] visits the nodes [l] and then
    reaches [y]. *)
Fixpoint path (f : nat → nat) (x : nat) (l : list nat) (y : nat) : Prop :=
  match l with
  | [] => f x = y
  | a :: l => f x = a ∧ path f a l y
  end.

Fixpoint endn (x : nat) (l : list nat) : nat :=
  match l with
  | [] => x
  | a :: l => endn a l
  end.

Definition fupd (f : nat → nat) (i v : nat) : nat → nat :=
  λ j, if decide (i = j) then v else f j.

(** ** The ring of buffers *)
Definition lnx (c : list buf) (i : nat) : nat :=
  match c !! i with Some b => b_next b | None => i end.
Definition lpv (c : list buf) (i : nat) : nat :=
  match c !! i with Some b => b_prev b | None => i end.

Record ring (c : list buf) (order : list nat) : Prop := mkRing {
  ring_len : length c = S NBUF;
  ring_perm : order ≡ₚ seq 0 NBUF;
  ring_next : path (lnx c) HEAD order HEAD;
  ring_prev : path (lpv c) HEAD (reverse order) HEAD }.

(** ** Lemmas on chains *)
Lemma fupd_eq f i v : fupd f i v i = v.
Proof. unfold fupd. by rewrite decide_True. Qed.
Lemma fupd_ne f i v j : i ≠ j → fupd f i v j = f j.
Proof. unfold fupd. intros. by rewrite decide_False. Qed.

Lemma path_app f x l1 b l2 y :
  path f x (l1 ++ b :: l2) y ↔ path f x l1 b ∧ path f b l2 y.
Proof.
  revert x. induction l1 as [|a l1 IH]; intros x; simpl; [done|].
  rewrite IH. tauto.
Qed.

Lemma path_ext f g x l y :
  (∀ i, i ∈ x :: l → f i = g i) → path f x l y → path g x l y.
Proof.
  revert x. induction l as [|a l IH]; intros x Hfg; simpl.
  - rewrite <- Hfg; [done | left].
  - intros [Hx Hp]. split; [rewrite <- Hfg; [done|left]|].
    apply IH; [|done]. intros i Hi. apply Hfg. by right.
Qed.

Lemma path_frame f i v x l y :
  i ∉ x :: l → path f x l y → path (fupd f i v) x l y.
Proof.
  intros Hi. apply path_ext. intros j Hj. rewrite fupd_ne; [done|].
  intros ->. done.
Qed.

(** The last node of a chain, and redirecting it. *)
Lemma endn_elem x l : endn x l ∈ x :: l.
Proof. revert x. induction l as [|a l IH]; intros x; simpl; [left|right; apply IH]. Qed.

Lemma endn_app x l1 b l2 : endn x (l1 ++ b :: l2) = endn b l2.
Proof. revert x. induction l1 as [|a l1 IH]; intros x; simpl; auto. Qed.

Lemma path_retarget f x l y z :
  NoDup (x :: l) → path f x l y → path (fupd f (endn x l) z) x l z.
Proof.
  revert x. induction l as [|a l IH]; intros x Hnd Hp; simpl in *.
  - by rewrite fupd_eq.
  - destruct Hp as [Hx Hp]. apply NoDup_cons in Hnd as [Hx' Hnd].
    split; [|by apply IH].
    rewrite fupd_ne; [done|]. intros Heq. apply Hx'. rewrite <- Heq. apply endn_elem.
Qed.

(** Taking [b] out of a ring: its predecessor is made to point past it. *)
Lemma path_unlink f h l1 b l2 :
  NoDup (h :: l1 ++ b :: l2) → path f h (l1 ++ b :: l2) h →
  path (fupd f (endn h l1) (f b)) h (l1 ++ l2) h.
Proof.
  intros Hnd Hp. apply path_app in Hp as [Hp1 Hp2].
  assert (NoDup (h :: l1) ∧ ∀ x, x ∈ h :: l1 → x ∉ b :: l2) as [Hnd1 Hdis].
  { rewrite app_comm_cons, NoDup_app in Hnd. naive_solver. }
  pose proof (Hdis _ (endn_elem h l1)) as Hend.
  destruct l2 as [|c l2]; simpl in Hp2.
  - rewrite app_nil_r, Hp2. by eapply path_retarget.
  - destruct Hp2 as [Hc Hp2]. apply path_app. rewrite Hc. split.
    + by eapply path_retarget.
    + apply path_frame; [|done]. intros Hin. apply Hend. by right.
Qed.

(** Putting [b] in front of a ring, and at its end. *)
Lemma path_push_front f h b l :
  b ∉ h :: l → h ∉ l → path f h l h →
  path (fupd (fupd f b (f h)) h b) h (b :: l) h.
Proof.
  intros Hb Hh Hp. rewrite not_elem_of_cons in Hb. destruct Hb as [Hbh Hbl]. simpl.
  rewrite fupd_eq. split; [done|].
  destruct l as [|c l]; simpl in *.
  - by rewrite fupd_ne, fupd_eq.
  - destruct Hp as [Hc Hp]. rewrite fupd_ne, fupd_eq by done. split; [done|].
    apply path_frame; [set_solver|]. apply path_frame; [set_solver|done].
Qed.

Lemma path_push_back f h b l :
  NoDup (h :: l) → b ∉ h :: l → path f h l h →
  path (fupd (fupd f b h) (endn h l) b) h (l ++ [b]) h.
Proof.
  intros Hnd Hb Hp. apply path_app. split.
  - eapply path_retarget; [done|]. by apply path_frame.
  - simpl. rewrite fupd_ne; [by rewrite fupd_eq|].
    intros Heq. apply Hb. rewrite <- Heq. apply endn_elem.
Qed.

(** The first node of a ring is the last node of the reversed ring. *)
Lemma path_first f h l y : path f h l y → f h = match l with [] => y | a :: _ => a end.
Proof. destruct l; simpl; tauto. Qed.

Lemma endn_reverse h l : endn h (reverse l) = match l with [] => h | a :: _ => a end.
Proof. destruct l as [|a l]; [done|]. by rewrite reverse_cons, endn_app. Qed.

(** ** The pointers of the cache as functions *)
Lemma lnx_set_next c i v j :
  i < length c → lnx (alter (set_next v) i c) j = fupd (lnx c) i v j.
Proof.
  intros Hi. unfold lnx, fupd. destruct (decide (i = j)) as [->|Hne].
  - rewrite list_lookup_alter_eq. destruct (lookup_lt_is_Some_2 c j Hi) as [b ->]. done.
  - by rewrite list_lookup_alter_ne.
Qed.
Lemma lpv_set_prev c i v j :
  i < length c → lpv (alter (set_prev v) i c) j = fupd (lpv c) i v j.
Proof.
  intros Hi. unfold lpv, fupd. destruct (decide (i = j)) as [->|Hne].
  - rewrite list_lookup_alter_eq. destruct (lookup_lt_is_Some_2 c j Hi) as [b ->]. done.
  - by rewrite list_lookup_alter_ne.
Qed.
Lemma lnx_alter c i f j : (∀ b, b_next (f b) = b_next b) → lnx (alter f i c) j = lnx c j.
Proof.
  intros Hf. unfold lnx. destruct (decide (i = j)) as [->|Hne].
  - rewrite list_lookup_alter_eq. destruct (c !! j); simpl; auto.
  - by rewrite list_lookup_alter_ne.
Qed.
Lemma lpv_alter c i f j : (∀ b, b_prev (f b) = b_prev b) → lpv (alter f i c) j = lpv c j.
Proof.
  intros Hf. unfold lpv. destruct (decide (i = j)) as [->|Hne].
  - rewrite list_lookup_alter_eq. destruct (c !! j); simpl; auto.
  - by rewrite list_lookup_alter_ne.
Qed.

(** A change of fields other than prev and next keeps the ring. *)
Lemma ring_alter c order i f :
  (∀ b, b_next (f b) = b_next b) → (∀ b, b_prev (f b) = b_prev b) →
  ring c order → ring (alter f i c) order.
Proof.
  intros Hn Hp [Hl Hperm Hnext Hprev]. split; [by rewrite length_alter|done|..].
  - eapply path_ext; [|done]. intros. by rewrite lnx_alter.
  - eapply path_ext; [|done]. intros. by rewrite lpv_alter.
Qed.

Lemma ring_elem c order i : ring c order → i ∈ order ↔ i < NBUF.
Proof. intros [_ Hp _ _]. rewrite Hp. rewrite elem_of_seq. lia. Qed.

Lemma ring_NoDup c order : ring c order → NoDup (HEAD :: order).
Proof.
  intros Hr. constructor.
  - rewrite (ring_elem _ _ _ Hr). unfold HEAD. lia.
  - destruct Hr as [_ Hp _ _]. rewrite Hp. apply NoDup_seq.
Qed.

(** ** The cache without its list pointers *)
Definition core (b : buf) : buf := mkBuf (b_flags b) (b_dev b) (b_sector b) 0 0 (b_data b).
Definition contents (s : bio) : list buf := core <$> bcache s.

Lemma contents_alter_ptr (c : list buf) (i : nat) f :
  (∀ b, core (f b) = core b) → core <$> alter f i c = core <$> c.
Proof.
  intros Hf. apply list_eq. intros j. rewrite !list_lookup_fmap.
  destruct (decide (i = j)) as [->|Hne].
  - rewrite list_lookup_alter_eq. destruct (c !! j); simpl; [by rewrite Hf|done].
  - by rewrite list_lookup_alter_ne.
Qed.

Lemma contents_alter (c : list buf) (i : nat) f g :
  (∀ b, core (f b) = g (core b)) → core <$> alter f i c = alter g i (core <$> c).
Proof.
  intros Hf. apply list_eq. intros j. rewrite !list_lookup_fmap.
  destruct (decide (i = j)) as [->|Hne].
  - rewrite !list_lookup_alter_eq, list_lookup_fmap. destruct (c !! j); simpl; [by rewrite Hf|done].
  - by rewrite !list_lookup_alter_ne, list_lookup_fmap.
Qed.

(** ** Symbolic execution of the accessors *)
Lemma wp_getb i b Q s : bcache s !! i = Some b → Q b s → wp (getb i) Q s.
Proof. unfold wp, getb. by intros ->. Qed.

Lemma wp_modb i f Q s :
  i < length (bcache s) → Q tt (set_bcache (alter f i (bcache s)) s) → wp (modb i f) Q s.
Proof.
  intros Hi HQ. unfold modb. apply wp_bind.
  destruct (lookup_lt_is_Some_2 _ _ Hi) as [b Hb]. by eapply wp_getb.
Qed.

Lemma modb_Ok i f s :
  i < length (bcache s) → modb i f s = Ok tt (set_bcache (alter f i (bcache s)) s).
Proof.
  intros Hi. destruct (lookup_lt_is_Some_2 _ _ Hi) as [b Hb].
  unfold modb, bind, getb. by rewrite Hb.
Qed.

Lemma lnx_Some c i b : c !! i = Some b → lnx c i = b_next b.
Proof. unfold lnx. by intros ->. Qed.
Lemma lpv_Some c i b : c !! i = Some b → lpv c i = b_prev b.
Proof. unfold lpv. by intros ->. Qed.

Lemma NBUF_eq : NBUF = 10.
Proof. done. Qed.
#[global] Opaque NBUF.

(** Every pointer followed in a ring is a buffer or the head. *)
Lemma path_bound (f : nat → nat) n x l y :
  path f x l y → Forall (λ i, i < n) l → y < n → f x < n.
Proof. intros Hp Hl Hy. rewrite (path_first _ _ _ _ Hp). by destruct Hl. Qed.

Lemma ring_split c order b :
  ring c order → b < NBUF → ∃ l1 l2, order = l1 ++ b :: l2.
Proof. intros Hr Hb. apply list_elem_of_split, (ring_elem _ _ _ Hr), Hb. Qed.

(** The pointer moves of brelse take [b] to the front of the ring: first its
    neighbours are joined, then it is entered behind the head. *)
Definition unlink_prev (c : list buf) (b : nat) : list buf :=
  alter (set_prev (lpv c b)) (lnx c b) c.
Definition unlink_buf (c : list buf) (b : nat) : list buf :=
  let c1 := unlink_prev c b in alter (set_next (lnx c1 b)) (lpv c1 b) c1.
Definition enter_buf (c : list buf) (b : nat) : list buf :=
  let c2 := unlink_buf c b in
  alter (set_prev HEAD) b (alter (set_next (lnx c2 HEAD)) b c2).
Definition move_front (c : list buf) (b : nat) : list buf :=
  let c4 := enter_buf c b in
  alter (set_next b) HEAD (alter (set_prev b) (lnx c4 HEAD) c4).

Lemma length_move_front c b : length (move_front c b) = length c.
Proof. unfold move_front, enter_buf, unlink_buf, unlink_prev. by rewrite !length_alter. Qed.

Lemma fupd_ext f g i v j : (∀ k, f k = g k) → fupd f i v j = fupd g i v j.
Proof. intros H. unfold fupd. by case_decide. Qed.

Lemma move_front_pointers c b :
  length c = S NBUF → b < NBUF → lnx c b ≠ b → lnx c b < S NBUF → lpv c b < S NBUF →
  let f := fupd (lnx c) (lpv c b) (lnx c b) in
  f HEAD < S NBUF →
  lpv (unlink_prev c b) b < S NBUF ∧ lnx (enter_buf c b) HEAD < S NBUF ∧
  (∀ j, lnx (move_front c b) j = fupd (fupd f b (f HEAD)) HEAD b j) ∧
  (∀ j, lpv (move_front c b) j =
        fupd (fupd (fupd (lpv c) (lnx c b) (lpv c b)) b HEAD) (f HEAD) b j).
Proof.
  intros Hl Hb Hnb Hn Hp f Hf. unfold move_front, enter_buf, unlink_buf, unlink_prev.
  assert (HEAD < S NBUF ∧ b ≠ HEAD) as [Hh Hbh] by (unfold HEAD; lia).
  set (c1 := alter (set_prev (lpv c b)) (lnx c b) c).
  assert (∀ j, lnx c1 j = lnx c j) as N1 by (intros; by apply lnx_alter).
  assert (∀ j, lpv c1 j = fupd (lpv c) (lnx c b) (lpv c b) j) as P1
    by (intros; apply lpv_set_prev; lia).
  assert (length c1 = S NBUF) as L1 by (unfold c1; by rewrite length_alter).
  rewrite (N1 b), (P1 b), fupd_ne by done.
  set (c2 := alter (set_next (lnx c b)) (lpv c b) c1).
  assert (∀ j, lnx c2 j = f j) as N2.
  { intros j. unfold c2. rewrite lnx_set_next by lia. by apply fupd_ext. }
  assert (∀ j, lpv c2 j = lpv c1 j) as P2 by (intros; by apply lpv_alter).
  assert (length c2 = S NBUF) as L2 by (unfold c2; by rewrite length_alter).
  rewrite (N2 HEAD). set (c3 := alter (set_next (f HEAD)) b c2).
  assert (∀ j, lnx c3 j = fupd f b (f HEAD) j) as N3.
  { intros j. unfold c3. rewrite lnx_set_next by lia. by apply fupd_ext. }
  assert (∀ j, lpv c3 j = lpv c2 j) as P3 by (intros; by apply lpv_alter).
  assert (length c3 = S NBUF) as L3 by (unfold c3; by rewrite length_alter).
  set (c4 := alter (set_prev HEAD) b c3).
  assert (∀ j, lnx c4 j = lnx c3 j) as N4 by (intros; by apply lnx_alter).
  assert (∀ j, lpv c4 j = fupd (lpv c1) b HEAD j) as P4.
  { intros j. unfold c4. rewrite lpv_set_prev by lia. apply fupd_ext. intros. by rewrite P3, P2. }
  assert (length c4 = S NBUF) as L4 by (unfold c4; by rewrite length_alter).
  rewrite (N4 HEAD), (N3 HEAD), fupd_ne by done.
  split; [done|]. split; [done|]. split; intros j.
  - rewrite lnx_set_next by (rewrite length_alter; lia). apply fupd_ext. intros k.
    by rewrite lnx_alter, N4.
  - rewrite lpv_alter, lpv_set_prev by (done || lia). apply fupd_ext. intros k.
    rewrite P4. apply fupd_ext, P1.
Qed.

(** The neighbours of a buffer in the ring. *)
Lemma ring_neighbours c l1 b l2 :
  ring c (l1 ++ b :: l2) →
  lnx c b = endn HEAD (reverse l2) ∧ lpv c b = endn HEAD l1 ∧
  lnx c b ≠ b ∧ lnx c b < S NBUF ∧ lpv c b < S NBUF.
Proof.
  intros Hr. pose proof (ring_NoDup _ _ Hr) as Hnd.
  assert (∀ i, i ∈ HEAD :: l1 ++ b :: l2 → i < S NBUF) as Hlt.
  { intros i [->|Hi]%elem_of_cons; [unfold HEAD; lia|]. apply (ring_elem _ _ _ Hr) in Hi. lia. }
  destruct Hr as [Hlen Hperm Hnext Hprev].
  rewrite reverse_app, reverse_cons, <- (assoc_L (++)) in Hprev. simpl in Hprev.
  assert (lnx c b = endn HEAD (reverse l2)) as Hn.
  { apply path_app in Hnext as [_ Hnext]. rewrite endn_reverse. by apply path_first in Hnext. }
  assert (lpv c b = endn HEAD l1) as Hp.
  { apply path_app in Hprev as [_ Hprev]. apply path_first in Hprev.
    rewrite Hprev. rewrite <- (reverse_involutive l1) at 2. by rewrite endn_reverse. }
  pose proof (endn_elem HEAD (reverse l2)) as Hn'. pose proof (endn_elem HEAD l1) as Hp'.
  split_and!; [done|done|rewrite Hn|rewrite Hn; apply Hlt|rewrite Hp; apply Hlt]; [|set_solver..].
  intros Heq. rewrite Heq in Hn'. rewrite <- Permutation_middle, Permutation_swap in Hnd.
  apply NoDup_cons in Hnd as [Hnd _]. set_solver.
Qed.

Lemma ring_move_front c l1 b l2 :
  ring c (l1 ++ b :: l2) →
  ring (move_front c b) (b :: l1 ++ l2) ∧
  lpv (unlink_prev c b) b < S NBUF ∧ lnx (enter_buf c b) HEAD < S NBUF.
Proof.
  intros Hr. pose proof (ring_NoDup _ _ Hr) as Hnd.
  assert (b < NBUF) as Hb by (apply (ring_elem _ _ _ Hr); set_solver).
  assert (∀ i, i ∈ HEAD :: l1 ++ b :: l2 → i < S NBUF) as Hlt.
  { intros i [->|Hi]%elem_of_cons; [unfold HEAD; lia|]. apply (ring_elem _ _ _ Hr) in Hi. lia. }
  destruct (ring_neighbours _ _ _ _ Hr) as (Hn & Hp & ? & ? & ?).
  destruct Hr as [Hlen Hperm Hnext Hprev].
  assert ((b ∉ HEAD :: l1 ++ l2) ∧ NoDup (HEAD :: l1 ++ l2)) as [Hbn Hnd'].
  { rewrite <- NoDup_cons. rewrite <- Permutation_middle in Hnd. by rewrite Permutation_swap. }
  assert (NoDup (HEAD :: reverse l2 ++ b :: reverse l1)) as Hndr.
  { rewrite <- (reverse_Permutation (l1 ++ b :: l2)) in Hnd.
    by rewrite reverse_app, reverse_cons, <- (assoc_L (++)) in Hnd. }
  rewrite reverse_app, reverse_cons, <- (assoc_L (++)) in Hprev. simpl in Hprev.
  apply path_unlink in Hnext; [|done]. rewrite <- Hp in Hnext.
  apply path_unlink in Hprev; [|done]. rewrite <- Hn in Hprev.
  set (f := fupd (lnx c) (lpv c b) (lnx c b)) in *.
  assert (f HEAD = endn HEAD (reverse (l1 ++ l2))) as Hfh.
  { rewrite endn_reverse. by apply path_first in Hnext. }
  assert (f HEAD < S NBUF) as Hfb.
  { rewrite Hfh. apply Hlt. pose proof (endn_elem HEAD (reverse (l1 ++ l2))). set_solver. }
  destruct (move_front_pointers c b) as (Hb1 & Hb2 & Hnx & Hpv); [done..|]. fold f in Hnx, Hpv.
  split; [|done].
  split; [by rewrite length_move_front | |..].
  { by rewrite <- Hperm, Permutation_middle. }
  - eapply path_ext; [intros i _; symmetry; apply Hnx|].
    apply path_push_front; [done| |done]. by apply NoDup_cons in Hnd' as [? _].
  - eapply path_ext; [intros i _; symmetry; apply Hpv|].
    rewrite Hfh, reverse_cons. apply path_push_back.
    + by rewrite reverse_Permutation.
    + by rewrite reverse_Permutation.
    + by rewrite reverse_app.
Qed.

(** ** Abstraction: who holds what, what is dirty, what a sector contains *)
Definition busy (b : buf) : bool := has (b_flags b) B_BUSY.
Definition valid (b : buf) : bool := has (b_flags b) B_VALID.
Definition dirtyb (b : buf) : bool := has (b_flags b) B_DIRTY.

Definition cmap (P : buf → bool) (c : list buf) : gmap nat Z :=
  omap (λ b, if P b then Some (b_sector b) else None) (map_seq 0 (take NBUF c)).
(** Buffers returned by bread and not yet released, with their sectors. *)
Definition held (s : bio) : gmap nat Z := cmap busy (bcache s).
(** Buffers with B_DIRTY, with their sectors. *)
Definition dirty (s : bio) : gmap nat Z := cmap dirtyb (bcache s).

Definition cached (c : list buf) (sec : Z) : option buf :=
  snd <$> list_find (λ b, b_dev b = ROOTDEV ∧ b_sector b = sec) (take NBUF c).
(** The contents of the disk as seen through the cache. *)
Definition cview (c : list buf) (disk : list block) : list block :=
  imap (λ i d, from_option b_data d (cached c (Z.of_nat i))) disk.
Definition bview (s : bio) : list block := cview (bcache s) (memdisk s).

(** ** Invariant *)
Record buf_ok (disk : list block) (b : buf) : Prop := mkBufOk {
  bo_flags : (0 ≤ b_flags b < 8)%Z;
  bo_data : block_wf (b_data b);
  bo_free : b_dev b ≠ ROOTDEV → b_flags b = 0%Z;
  bo_valid : b_dev b = ROOTDEV → valid b = true;
  bo_range : b_dev b = ROOTDEV → (0 ≤ b_sector b < Z.of_nat (length disk))%Z;
  bo_clean : b_dev b = ROOTDEV → busy b = false → dirtyb b = false →
             disk !! Z.to_nat (b_sector b) = Some (b_data b) }.

Definition uniq (c : list buf) : Prop :=
  ∀ i j bi bj, i < NBUF → j < NBUF → c !! i = Some bi → c !! j = Some bj →
  b_dev bi = ROOTDEV → b_dev bj = ROOTDEV → b_sector bi = b_sector bj → i = j.

Record cache_ok (c : list buf) (disk : list block) : Prop := mkCacheOk {
  co_uniq : uniq c;
  co_buf : ∀ i b, i < NBUF → c !! i = Some b → buf_ok disk b;
  co_disk : Forall block_wf disk }.

Record bio_inv (s : bio) : Prop := mkBioInv {
  bi_ring : ∃ order, ring (bcache s) order;
  bi_cache : cache_ok (bcache s) (memdisk s) }.

(** ** The abstraction does not see the list pointers *)
Lemma lookup_cmap P c i :
  cmap P c !! i =
  if decide (i < NBUF)
  then c !! i ≫= λ b, if P b then Some (b_sector b) else None else None.
Proof.
  unfold cmap. rewrite lookup_omap, lookup_map_seq_0. case_decide.
  - by rewrite lookup_take_lt.
  - by rewrite lookup_take_ge by lia.
Qed.

Lemma lookup_cmap_Some P c i sec :
  cmap P c !! i = Some sec ↔
  i < NBUF ∧ ∃ b, c !! i = Some b ∧ P b = true ∧ b_sector b = sec.
Proof.
  rewrite lookup_cmap. case_decide; [|split; [done|by intros [? _]]].
  destruct (c !! i) as [b|]; simpl; [|split; [done|by intros (_ & ? & ? & _)]].
  destruct (P b) eqn:HP; split.
  - intros [= <-]. eauto.
  - by intros (_ & ? & [= <-] & _ & ->).
  - done.
  - intros (_ & ? & [= <-] & ? & _). congruence.
Qed.

Lemma cached_Some c sec b :
  cached c sec = Some b →
  ∃ i, i < NBUF ∧ c !! i = Some b ∧ b_dev b = ROOTDEV ∧ b_sector b = sec.
Proof.
  unfold cached. destruct (list_find _ _) as [[i b']|] eqn:Hf; simpl; [|done].
  intros [= ->]. apply list_find_Some in Hf as (Hi & [? ?] & _).
  assert (i < NBUF) by (apply lookup_lt_Some in Hi; rewrite length_take in Hi; lia).
  rewrite lookup_take_lt in Hi by done. eauto 10.
Qed.

Lemma cached_at c sec i b :
  uniq c → i < NBUF → c !! i = Some b → b_dev b = ROOTDEV → b_sector b = sec →
  cached c sec = Some b.
Proof.
  intros Hu Hi Hb Hd Hs. destruct (cached c sec) as [b'|] eqn:Hc.
  - apply cached_Some in Hc as (j & Hj & Hb' & Hd' & Hs').
    assert (i = j) as -> by (eapply Hu; eauto; congruence). congruence.
  - unfold cached in Hc. apply fmap_None, list_find_None in Hc.
    rewrite Forall_lookup in Hc. exfalso. eapply (Hc i); [|done].
    by rewrite lookup_take_lt.
Qed.

Lemma cached_None c sec :
  (∀ i b, i < NBUF → c !! i = Some b → b_dev b = ROOTDEV → b_sector b ≠ sec) →
  cached c sec = None.
Proof.
  intros H. destruct (cached c sec) as [b|] eqn:Hc; [|done].
  apply cached_Some in Hc as (i & Hi & Hb & Hd & Hs). exfalso. by eapply H.
Qed.

Lemma lookup_cview c disk i :
  cview c disk !! i = (λ d, from_option b_data d (cached c (Z.of_nat i))) <$> disk !! i.
Proof. unfold cview. by rewrite list_lookup_imap. Qed.

Lemma length_cview c disk : length (cview c disk) = length disk.
Proof. unfold cview. by rewrite length_imap. Qed.

(** ** Flag arithmetic: setting and clearing the three bits *)
Ltac flag_cases f :=
  let H := fresh in
  assert (f = 0 ∨ f = 1 ∨ f = 2 ∨ f = 3 ∨ f = 4 ∨ f = 5 ∨ f = 6 ∨ f = 7)%Z as H by lia;
  destruct H as [->|[->|[->|[->|[->|[->|[->| ->]]]]]]]; vm_compute;
  repeat split; try reflexivity; intros; discriminate.

Definition flag_eq (f : Z) (b v d : bool) : Prop :=
  (0 ≤ f < 8)%Z ∧ has f B_BUSY = b ∧ has f B_VALID = v ∧ has f B_DIRTY = d.

Section flags.
Context (f : Z) (Hf : (0 ≤ f < 8)%Z).
Lemma flag_or_busy : flag_eq (Z.lor f B_BUSY) true (has f B_VALID) (has f B_DIRTY).
Proof. unfold flag_eq. flag_cases f. Qed.
Lemma flag_or_valid : flag_eq (Z.lor f B_VALID) (has f B_BUSY) true (has f B_DIRTY).
Proof. unfold flag_eq. flag_cases f. Qed.
Lemma flag_or_dirty : flag_eq (Z.lor f B_DIRTY) (has f B_BUSY) (has f B_VALID) true.
Proof. unfold flag_eq. flag_cases f. Qed.
Lemma flag_clr_busy :
  flag_eq (Z.land f (Z.lnot B_BUSY)) false (has f B_VALID) (has f B_DIRTY).
Proof. unfold flag_eq. flag_cases f. Qed.
Lemma flag_clr_dirty :
  flag_eq (Z.land f (Z.lnot B_DIRTY)) (has f B_BUSY) (has f B_VALID) false.
Proof. unfold flag_eq. flag_cases f. Qed.
Lemma flag_nothing_to_do :
  (Z.land f (Z.lor B_VALID B_DIRTY) =? B_VALID)%Z = has f B_VALID && negb (has f B_DIRTY).
Proof. flag_cases f. Qed.
End flags.

(** ** The two loops of bget *)
Definition matches (c : list buf) (dev sec : Z) (i : nat) : bool :=
  match c !! i with
  | Some x => (b_dev x =? dev)%Z && (b_sector x =? sec)%Z
  | None => false
  end.
Definition reusable (c : list buf) (i : nat) : bool :=
  match c !! i with
  | Some x => negb (has (b_flags x) B_BUSY) && negb (has (b_flags x) B_DIRTY)
  | None => false
  end.

(** Along a chain of buffers ending in the head, the first loop stops at the
    first buffer for the sector; fuel one above the length is enough. *)
Lemma bget_find_spec s dev sec x l fuel :
  path (lnx (bcache s)) x l HEAD → Forall (λ i, i < NBUF) l →
  length (bcache s) = S NBUF → length l < fuel →
  bget_find fuel dev sec (lnx (bcache s) x) s =
  match List.find (matches (bcache s) dev sec) l with
  | None => Ok None s
  | Some i =>
    match bcache s !! i with
    | Some b => if has (b_flags b) B_BUSY then Blocked s
                else Ok (Some i) (set_bcache (alter (λ x, set_flags (Z.lor (b_flags x) B_BUSY) x) i (bcache s)) s)
    | None => Ub
    end
  end.
Proof.
  intros Hp Hl Hlen. revert x fuel Hp.
  induction Hl as [|a l Ha Hl IH]; intros x fuel Hp Hf; (destruct fuel as [|fuel]; [lia|]).
  - simpl in Hp. rewrite Hp. simpl. by rewrite decide_True.
  - destruct Hp as [-> Hp]. cbn [bget_find List.find].
    rewrite decide_False by (unfold HEAD; lia).
    destruct (lookup_lt_is_Some_2 (bcache s) a) as [b Hb]; [lia|].
    unfold matches at 1. rewrite Hb.
    rewrite (bind_Ok _ _ _ b s) by (unfold getb; by rewrite Hb). cbv beta.
    destruct (_ && _); [rewrite Hb|].
    + destruct (has _ _); [done|]. cbn [negb].
      by rewrite (bind_Ok _ _ _ _ _ (modb_Ok a _ s ltac:(lia))).
    + rewrite <- (lnx_Some _ _ _ Hb). apply IH; [done|simpl in Hf; lia].
Qed.

Lemma bget_recycle_spec s dev sec x l fuel :
  path (lpv (bcache s)) x l HEAD → Forall (λ i, i < NBUF) l →
  length (bcache s) = S NBUF → length l < fuel →
  bget_recycle fuel dev sec (lpv (bcache s) x) s =
  match List.find (reusable (bcache s)) l with
  | None => Ok None s
  | Some i => Ok (Some i) (set_bcache (alter (set_flags B_BUSY) i (alter (set_id dev sec) i (bcache s))) s)
  end.
Proof.
  intros Hp Hl Hlen. revert x fuel Hp.
  induction Hl as [|a l Ha Hl IH]; intros x fuel Hp Hf; (destruct fuel as [|fuel]; [lia|]).
  - simpl in Hp. rewrite Hp. simpl. by rewrite decide_True.
  - destruct Hp as [-> Hp]. cbn [bget_recycle List.find].
    rewrite decide_False by (unfold HEAD; lia).
    destruct (lookup_lt_is_Some_2 (bcache s) a) as [b Hb]; [lia|].
    unfold reusable at 1. rewrite Hb.
    rewrite (bind_Ok _ _ _ b s) by (unfold getb; by rewrite Hb). cbv beta.
    destruct (_ && _).
    + rewrite (bind_Ok _ _ _ _ _ (modb_Ok a _ s ltac:(lia))).
      erewrite bind_Ok; [|apply modb_Ok; simpl; rewrite length_alter; lia]. done.
    + rewrite <- (lpv_Some _ _ _ Hb). apply IH; [done|simpl in Hf; lia].
Qed.

(** ** bget: hit, miss and failure *)
Lemma ring_HEAD c order : ring c order → ∃ h, c !! HEAD = Some h.
Proof. intros [Hl _ _ _]. apply lookup_lt_is_Some_2. rewrite Hl. unfold HEAD. lia. Qed.

Lemma ring_Forall c order : ring c order → Forall (λ i, i < NBUF) order.
Proof. intros Hr. apply Forall_forall. intros i. apply (ring_elem _ _ _ Hr). Qed.

Lemma ring_length c order : ring c order → length order = NBUF.
Proof. intros [_ Hp _ _]. by rewrite Hp, length_seq. Qed.

Lemma find_matches_Some c order dev sec i :
  ring c order → List.find (matches c dev sec) order = Some i →
  i < NBUF ∧ ∃ b, c !! i = Some b ∧ b_dev b = dev ∧ b_sector b = sec.
Proof.
  intros Hr Hf. apply List.find_some in Hf as [Hi Hm].
  apply list_elem_of_In, (ring_elem _ _ _ Hr) in Hi. split; [done|].
  unfold matches in Hm. destruct (c !! i) as [b|]; [|done].
  apply andb_true_iff in Hm as [?%Z.eqb_eq ?%Z.eqb_eq]. eauto.
Qed.

Lemma find_matches_None c order dev sec :
  ring c order → List.find (matches c dev sec) order = None →
  ∀ i b, i < NBUF → c !! i = Some b → b_dev b = dev → b_sector b ≠ sec.
Proof.
  intros Hr Hf i b Hi Hb Hd Hs.
  assert (In i order) as Hin by (by apply list_elem_of_In, (ring_elem _ _ _ Hr)).
  pose proof (List.find_none _ _ Hf i Hin) as Hm. unfold matches in Hm.
  by rewrite Hb, Hd, Hs, !Z.eqb_refl in Hm.
Qed.

(** ** Changing one buffer *)
Section alter_one.
Context (c : list buf) (i : nat) (b : buf) (f : buf → buf).
Context (Hi : i < NBUF) (Hb : c !! i = Some b).

Lemma lookup_alter_one j b' :
  alter f i c !! j = Some b' → (i = j ∧ b' = f b) ∨ (i ≠ j ∧ c !! j = Some b').
Proof.
  destruct (decide (i = j)) as [<-|Hne].
  - rewrite list_lookup_alter_eq, Hb. simpl. intros [= <-]. by left.
  - rewrite list_lookup_alter_ne by done. by right.
Qed.

Lemma cmap_alter P :
  cmap P (alter f i c) =
  if P (f b) then <[i := b_sector (f b)]> (cmap P c) else delete i (cmap P c).
Proof.
  apply map_eq. intros j. rewrite lookup_cmap. destruct (decide (i = j)) as [<-|Hne].
  - rewrite decide_True, list_lookup_alter_eq, Hb by done. simpl.
    destruct (P (f b)); [by rewrite lookup_insert_eq | by rewrite lookup_delete_eq].
  - rewrite list_lookup_alter_ne by done.
    destruct (P (f b)); rewrite ?lookup_insert_ne, ?lookup_delete_ne by done;
      by rewrite lookup_cmap.
Qed.

Lemma cmap_alter_same P :
  P (f b) = P b → b_sector (f b) = b_sector b → cmap P (alter f i c) = cmap P c.
Proof.
  intros HP Hs. rewrite cmap_alter, HP, Hs. destruct (P b) eqn:Hp.
  - apply insert_id. rewrite lookup_cmap, decide_True, Hb by done. simpl. by rewrite Hp.
  - apply delete_id. rewrite lookup_cmap, decide_True, Hb by done. simpl. by rewrite Hp.
Qed.

Lemma uniq_alter_same :
  b_dev (f b) = b_dev b → b_sector (f b) = b_sector b → uniq c → uniq (alter f i c).
Proof.
  intros Hd Hs Hu j k bj bk Hj Hk Hlj Hlk Hdj Hdk Hjk.
  apply lookup_alter_one in Hlj as [[<- ->]|[? Hlj]];
    apply lookup_alter_one in Hlk as [[<- ->]|[? Hlk]]; [done|..];
    rewrite ?Hd, ?Hs in *; by eapply Hu.
Qed.

Lemma cview_alter_same disk :
  uniq c → b_dev b = ROOTDEV → (0 ≤ b_sector b)%Z →
  b_dev (f b) = b_dev b → b_sector (f b) = b_sector b →
  cview (alter f i c) disk = <[Z.to_nat (b_sector b) := b_data (f b)]> (cview c disk).
Proof.
  intros Hu Hdv Hpos Hd Hs. apply list_eq. intros k.
  rewrite lookup_cview. destruct (decide (Z.of_nat k = b_sector b)) as [Hk|Hk].
  - assert (Z.to_nat (b_sector b) = k) as -> by lia.
    assert (cached (alter f i c) (Z.of_nat k) = Some (f b)) as ->.
    { eapply (cached_at _ _ i); [by apply uniq_alter_same|done| |congruence..].
      by rewrite list_lookup_alter_eq, Hb. }
    destruct (disk !! k) eqn:Hdk; simpl.
    + rewrite list_lookup_insert_eq; [done|]. rewrite length_cview.
      by apply lookup_lt_Some in Hdk.
    + symmetry. apply lookup_ge_None. rewrite length_insert, length_cview.
      by apply lookup_ge_None in Hdk.
  - rewrite list_lookup_insert_ne by lia. rewrite lookup_cview. f_equal.
    assert (cached (alter f i c) (Z.of_nat k) = cached c (Z.of_nat k)) as ->; [|done].
    destruct (cached c (Z.of_nat k)) as [b'|] eqn:Hc.
    + apply cached_Some in Hc as (j & Hj & Hb' & Hd' & Hs').
      eapply (cached_at _ _ j); [by apply uniq_alter_same|done| |done..].
      rewrite list_lookup_alter_ne; [done|]. intros ->. congruence.
    + apply cached_None. intros j b' Hj Hlj Hdj Hsj.
      apply lookup_alter_one in Hlj as [[<- ->]|[? Hlj]]; [congruence|].
      rewrite (cached_at c _ j b') in Hc; done.
Qed.

Lemma cache_ok_alter disk :
  uniq (alter f i c) → buf_ok disk (f b) → cache_ok c disk → cache_ok (alter f i c) disk.
Proof.
  intros Hu Hf [_ Hok Hd]. split; [done| |done].
  intros j b' Hj Hlj. apply lookup_alter_one in Hlj as [[<- ->]|[? Hlj]]; [done|].
  by eapply Hok.
Qed.
End alter_one.

(** ** Specifications of the operations

    [bstep s s' h d v k]: the step from [s] to [s'] keeps the invariant and
    leaves the held buffers [h], the dirty buffers [d], the view [v] and the
    disk [k]. *)
Record bstep (s s' : bio) (h d : gmap nat Z) (v k : list block) (past : list (list block))
  : Prop := mkBstep {
  bs_inv : bio_inv s';
  bs_held : held s' = h;
  bs_dirty : dirty s' = d;
  bs_view : bview s' = v;
  bs_disk : memdisk s' = k;
  bs_past : disk_past s' = past }.

Lemma held_Some s i sec :
  held s !! i = Some sec →
  i < NBUF ∧ ∃ b, bcache s !! i = Some b ∧ busy b = true ∧ b_sector b = sec.
Proof. apply lookup_cmap_Some. Qed.

Lemma flagged_rootdev disk b : buf_ok disk b → b_flags b ≠ 0%Z → b_dev b = ROOTDEV.
Proof.
  intros Hok Hf. destruct (decide (b_dev b = ROOTDEV)) as [|Hd]; [done|].
  by apply (bo_free _ _ Hok) in Hd.
Qed.

Lemma held_buf s i sec :
  bio_inv s → held s !! i = Some sec →
  ∃ b, i < NBUF ∧ bcache s !! i = Some b ∧ busy b = true ∧ b_sector b = sec ∧
       b_dev b = ROOTDEV ∧ buf_ok (memdisk s) b.
Proof.
  intros [_ [_ Hok _]] (Hi & b & Hb & Hbusy & Hs)%held_Some.
  pose proof (bo_free _ _ (Hok i b Hi Hb)) as Hfree.
  exists b. split_and!; try done; [|by eapply Hok].
  destruct (decide (b_dev b = ROOTDEV)) as [|Hd]; [done|].
  unfold busy in Hbusy. by rewrite (Hfree Hd) in Hbusy.
Qed.

Lemma inv_length s : bio_inv s → length (bcache s) = S NBUF.
Proof. intros [[order [Hl _ _ _]] _]. done. Qed.

(** Changing flags or data of a held buffer that stays busy. *)
Lemma alter_held_step s i b f :
  bio_inv s → i < NBUF → bcache s !! i = Some b → b_dev b = ROOTDEV →
  b_dev (f b) = b_dev b → b_sector (f b) = b_sector b →
  (∀ x, b_next (f x) = b_next x) → (∀ x, b_prev (f x) = b_prev x) →
  buf_ok (memdisk s) (f b) →
  bstep s (set_bcache (alter f i (bcache s)) s)
    (if busy (f b) then <[i := b_sector b]> (held s) else delete i (held s))
    (if dirtyb (f b) then <[i := b_sector b]> (dirty s) else delete i (dirty s))
    (<[Z.to_nat (b_sector b) := b_data (f b)]> (bview s))
    (memdisk s) (disk_past s).
Proof.
  intros [[order Hr] Hc] Hi Hb Hdv Hd Hs Hn Hp Hok. pose proof (co_uniq _ _ Hc) as Hu.
  pose proof (co_buf _ _ Hc i b Hi Hb) as Hbok. apply bo_range in Hbok as Hrange; [|done].
  split; try done.
  - split; simpl.
    + exists order. by apply ring_alter.
    + eapply cache_ok_alter; [done..| |done|done]. by eapply uniq_alter_same.
  - unfold held. simpl. rewrite (cmap_alter _ _ b) by done. by rewrite Hs.
  - unfold dirty. simpl. rewrite (cmap_alter _ _ b) by done. by rewrite Hs.
  - apply (cview_alter_same _ _ b); done || lia.
Qed.

Lemma view_held s i sec b :
  bio_inv s → i < NBUF → bcache s !! i = Some b → b_dev b = ROOTDEV → b_sector b = sec →
  bview s !! Z.to_nat sec = Some (b_data b).
Proof.
  intros [_ Hc] Hi Hb Hd Hs. unfold bview. rewrite lookup_cview.
  pose proof (bo_range _ _ (co_buf _ _ Hc i b Hi Hb) Hd) as Hrange.
  rewrite Z2Nat.id, (cached_at _ _ i b) by (try done; try lia; apply Hc).
  destruct (lookup_lt_is_Some_2 (memdisk s) (Z.to_nat sec)) as [d ->]; [lia|]. done.
Qed.

Lemma bdata_spec s i sec :
  bio_inv s → held s !! i = Some sec →
  ∃ d, bview s !! Z.to_nat sec = Some d ∧ bdata i s = Ok d s ∧ block_wf d.
Proof.
  intros Hinv (b & Hi & Hb & Hbusy & Hs & Hd & Hok)%held_buf; [|done].
  exists (b_data b). split; [by eapply view_held|]. split; [|apply Hok].
  unfold bdata, bind, getb. by rewrite Hb.
Qed.

Lemma dirty_keep s i b :
  i < NBUF → bcache s !! i = Some b →
  (if has (b_flags b) B_DIRTY then <[i := b_sector b]> (dirty s) else delete i (dirty s))
  = dirty s.
Proof.
  intros Hi Hb.
  assert (dirty s !! i = if has (b_flags b) B_DIRTY then Some (b_sector b) else None) as Hl.
  { unfold dirty. rewrite lookup_cmap, decide_True, Hb by done. done. }
  destruct (has _ _); [by apply insert_id | by apply delete_id].
Qed.

Lemma bset_spec s i sec d :
  bio_inv s → held s !! i = Some sec → block_wf d →
  wp (bset i d) (λ _ s', bstep s s' (held s) (dirty s)
    (<[Z.to_nat sec := d]> (bview s)) (memdisk s) (disk_past s)) s.
Proof.
  intros Hinv Hh Hd. destruct (held_buf _ _ _ Hinv Hh) as (b & Hi & Hb & Hbusy & Hs & Hdv & Hok).
  apply wp_modb; [rewrite inv_length by done; lia|].
  destruct (alter_held_step s i b (set_data d)) as [Hi' Hh' Hdi' Hv' Hk' Hp']; try done.
  { destruct Hok as [? ? ? ? ? ?]. split; try done. simpl.
    unfold busy in *. simpl. congruence. }
  simpl in *. subst sec. split; try done.
  - rewrite Hh'. unfold busy in *. simpl. rewrite Hbusy. by apply insert_id.
  - rewrite Hdi'. by apply (dirty_keep s i b).
Qed.

Lemma buf_ok_busy disk b :
  (0 ≤ b_flags b < 8)%Z → block_wf (b_data b) → b_dev b = ROOTDEV → valid b = true →
  (0 ≤ b_sector b < Z.of_nat (length disk))%Z → busy b = true → buf_ok disk b.
Proof. intros. split; try done; intros; congruence. Qed.


Lemma mark_dirty_spec s i sec :
  bio_inv s → held s !! i = Some sec →
  wp (mark_dirty i) (λ _ s', bstep s s' (held s) (<[i := sec]> (dirty s))
    (bview s) (memdisk s) (disk_past s)) s.
Proof.
  intros Hinv Hh. destruct (held_buf _ _ _ Hinv Hh) as (b & Hi & Hb & Hbusy & Hs & Hdv & Hok).
  apply wp_modb; [rewrite inv_length by done; lia|].
  set (f := λ x, set_flags (Z.lor (b_flags x) B_DIRTY) x).
  destruct (flag_or_dirty _ (bo_flags _ _ Hok)) as (Fr & Fb & Fv & Fd).
  destruct (alter_held_step s i b f) as [Hi' Hh' Hdi' Hv' Hk' Hp']; try done.
  { apply buf_ok_busy; try done; try apply Hok; try done.
    - unfold valid. simpl. rewrite Fv. by apply Hok.
    - unfold busy. simpl. by rewrite Fb. }
  subst sec. split; try done.
  - rewrite Hh'. unfold busy. simpl. rewrite Fb. unfold busy in Hbusy. rewrite Hbusy.
    by apply insert_id.
  - rewrite Hdi'. unfold dirtyb. simpl. by rewrite Fd.
  - rewrite Hv'. simpl. apply list_insert_id. by eapply view_held.
Qed.

(** brelse moves the buffer to the front and clears B_BUSY.  The buffer must be
    dirty (its contents are in the log) or agree with the disk. *)
Lemma getb_Ok i s :
  i < length (bcache s) →
  ∃ b, getb i s = Ok b s ∧ bcache s !! i = Some b ∧
       b_next b = lnx (bcache s) i ∧ b_prev b = lpv (bcache s) i.
Proof.
  intros Hi. destruct (lookup_lt_is_Some_2 _ _ Hi) as [b Hb]. exists b.
  unfold getb. rewrite (lnx_Some _ _ _ Hb), (lpv_Some _ _ _ Hb). by rewrite Hb.
Qed.

Ltac brun :=
  match goal with
  | |- bind (getb ?i) _ ?s = _ =>
    let b := fresh "b" in let H := fresh in let Hn := fresh in let Hp := fresh in
    destruct (getb_Ok i s) as (b & H & _ & Hn & Hp);
    [simpl; rewrite ?length_alter; lia|];
    rewrite (bind_Ok _ _ _ _ _ H); cbv beta; rewrite ?Hn, ?Hp; clear H Hn Hp; simpl
  | |- bind (modb ?i ?f) _ ?s = _ =>
    rewrite (bind_Ok _ _ _ _ _ (modb_Ok i f s ltac:(simpl; rewrite ?length_alter; lia)));
    cbv beta; simpl
  end.

Lemma brelse_run s i b order :
  ring (bcache s) order → i < NBUF → bcache s !! i = Some b → busy b = true →
  brelse i s = Ok tt (set_bcache
    (alter (λ x, set_flags (Z.land (b_flags x) (Z.lnot B_BUSY)) x) i (move_front (bcache s) i)) s).
Proof.
  intros Hr Hi Hb Hbusy. destruct (ring_split _ _ _ Hr Hi) as (l1 & l2 & ->).
  pose proof (ring_len _ _ Hr) as Hlen.
  assert (HEAD < S NBUF) by (unfold HEAD; lia).
  destruct (ring_neighbours _ _ _ _ Hr) as (_ & _ & _ & Hn & Hp).
  destruct (ring_move_front _ _ _ _ Hr) as (_ & Hp1 & Hn4).
  unfold brelse. destruct (getb_Ok i s) as (x & Hx & Hlx & Hxn & Hxp); [lia|].
  rewrite (bind_Ok _ _ _ _ _ Hx). cbv beta. simplify_eq.
  unfold busy in Hbusy. rewrite Hbusy. cbn [negb]. rewrite Hxn, Hxp.
  brun. fold (unlink_prev (bcache s) i).
  assert (length (unlink_prev (bcache s) i) = S NBUF) as L1
    by (unfold unlink_prev; by rewrite length_alter).
  brun. brun.
  change (alter _ (lpv (unlink_prev (bcache s) i) i) _) with (unlink_buf (bcache s) i).
  assert (length (unlink_buf (bcache s) i) = S NBUF) as L2
    by (unfold unlink_buf; by rewrite length_alter).
  brun. brun. brun.
  change (alter (set_prev HEAD) i _) with (enter_buf (bcache s) i).
  assert (length (enter_buf (bcache s) i) = S NBUF) as L4
    by (unfold enter_buf; by rewrite !length_alter).
  brun. brun. brun.
  rewrite modb_Ok by (simpl; rewrite !length_alter; lia). done.
Qed.

Lemma contents_move_front c b : core <$> move_front c b = core <$> c.
Proof.
  unfold move_front, enter_buf, unlink_buf, unlink_prev.
  by rewrite !contents_alter_ptr.
Qed.

Section same_core.
Context (c c' : list buf) (Hcc : core <$> c = core <$> c').

Lemma core_lookup i b :
  c' !! i = Some b → ∃ b', c !! i = Some b' ∧ core b' = core b.
Proof.
  intros Hb. assert ((core <$> c') !! i = Some (core b)) as H by (by rewrite list_lookup_fmap, Hb).
  rewrite <- Hcc, list_lookup_fmap in H. apply fmap_Some in H as (b' & Hb' & Heq). eauto.
Qed.

Lemma cmap_core P : (∀ b, P b = P (core b)) → cmap P c = cmap P c'.
Proof.
  intros HP. apply map_eq. intros i. rewrite !lookup_cmap. case_decide; [|done].
  assert ((core <$> c) !! i = (core <$> c') !! i) as Hl by (by rewrite Hcc).
  rewrite !list_lookup_fmap in Hl.
  destruct (c !! i) as [b|], (c' !! i) as [b'|]; try done.
  pose proof (inj Some _ _ Hl : core b = core b') as Heq. simpl.
  rewrite (HP b), (HP b'), Heq.
  pose proof (f_equal b_sector Heq) as Hs. simpl in Hs. by rewrite Hs.
Qed.

Lemma cached_core sec : core <$> cached c sec = core <$> cached c' sec.
Proof.
  assert (∀ l, core <$> cached l sec = cached (core <$> l) sec) as H.
  { intros l. unfold cached. rewrite <- fmap_take, list_find_fmap.
    change ((λ b, b_dev b = ROOTDEV ∧ b_sector b = sec) ∘ core)
      with (λ b, b_dev b = ROOTDEV ∧ b_sector b = sec).
    by destruct (list_find _ _) as [[??]|]. }
  by rewrite !H, Hcc.
Qed.

Lemma cview_core disk : cview c disk = cview c' disk.
Proof.
  unfold cview. apply imap_ext. intros i d _. pose proof (cached_core (Z.of_nat i)) as H.
  destruct (cached c _) as [b|], (cached c' _) as [b'|]; try done.
  pose proof (inj Some _ _ H : core b = core b') as Heq.
  apply (f_equal b_data Heq).
Qed.

Lemma cache_ok_core disk : cache_ok c disk → cache_ok c' disk.
Proof.
  intros [Hu Hok Hd]. split; [| |done].
  - intros i j bi bj Hi Hj Hbi Hbj Hdi Hdj Hs.
    apply core_lookup in Hbi as (bi' & Hbi & [= ? ? ? ?]).
    apply core_lookup in Hbj as (bj' & Hbj & [= ? ? ? ?]).
    eapply Hu; eauto; congruence.
  - intros i b Hi Hb. apply core_lookup in Hb as (b' & Hb & Hcb).
    specialize (Hok i b' Hi Hb). destruct Hok.
    unfold core in Hcb. injection Hcb as Hf Hdv Hs Hdt.
    split; unfold valid, busy, dirtyb in *; rewrite <- ?Hf, <- ?Hdv, <- ?Hs, <- ?Hdt; done.
Qed.
End same_core.

Lemma brelse_spec s i sec :
  bio_inv s → held s !! i = Some sec →
  (is_Some (dirty s !! i) ∨ memdisk s !! Z.to_nat sec = bview s !! Z.to_nat sec) →
  wp (brelse i) (λ _ s', bstep s s' (delete i (held s)) (dirty s)
    (bview s) (memdisk s) (disk_past s)) s.
Proof.
  intros Hinv Hh Hcl. destruct (held_buf _ _ _ Hinv Hh) as (b & Hi & Hb & Hbusy & Hs & Hdv & Hok).
  pose proof (view_held s i sec b Hinv Hi Hb Hdv Hs) as Hview.
  destruct Hinv as [[order Hr] Hc] eqn:E. rename Hinv into Hinv0.
  unfold wp. rewrite (brelse_run _ _ _ _ Hr Hi Hb Hbusy).
  destruct (ring_split _ _ _ Hr Hi) as (l1 & l2 & ->).
  destruct (ring_move_front _ _ _ _ Hr) as [Hring _].
  set (f := λ x, set_flags (Z.land (b_flags x) (Z.lnot B_BUSY)) x).
  destruct (flag_clr_busy _ (bo_flags _ _ Hok)) as (Fr & Fb & Fv & Fd).
  destruct (alter_held_step s i b f) as [Hi' Hh' Hdi' Hv' Hk' Hp']; try done.
  { destruct Hok as [? ? ? Hvalid ? ?].
    split; unfold valid, busy, dirtyb in *; simpl; try done; rewrite ?Fb, ?Fv, ?Fd; auto.
    intros _ _ Hnd. rewrite Hs, <- Hview. destruct Hcl as [Hd|Hd]; [|done].
    unfold dirty in Hd. rewrite lookup_cmap, decide_True, Hb in Hd by done. simpl in Hd.
    unfold dirtyb in Hd. rewrite Hnd in Hd. by destruct Hd. }
  assert (core <$> alter f i (bcache s) = core <$> alter f i (move_front (bcache s) i)) as Hcore.
  { rewrite !(contents_alter _ _ f f) by done. by rewrite contents_move_front. }
  assert (busy (f b) = false) as Hbf by (unfold busy; simpl; done).
  split; simpl; try done.
  - split; simpl.
    + exists (i :: l1 ++ l2). by apply ring_alter.
    + eapply cache_ok_core; [done|]. apply Hi'.
  - unfold held. simpl. rewrite <- (cmap_core _ _ Hcore) by done.
    change (cmap busy (alter f i (bcache s))) with (held (set_bcache (alter f i (bcache s)) s)).
    rewrite Hh', Hbf. done.
  - unfold dirty. simpl. rewrite <- (cmap_core _ _ Hcore) by done.
    change (cmap dirtyb (alter f i (bcache s))) with (dirty (set_bcache (alter f i (bcache s)) s)).
    rewrite Hdi'. unfold dirtyb. simpl. rewrite Fd. by apply dirty_keep.
  - unfold bview. simpl. rewrite <- (cview_core _ _ Hcore).
    change (cview (alter f i (bcache s)) (memdisk s)) with (bview (set_bcache (alter f i (bcache s)) s)).
    rewrite Hv', Hs. simpl. by apply list_insert_id.
Qed.

(** bwrite: the sector gets the buffer's contents in one write. *)
Lemma bwrite_spec s i sec :
  bio_inv s → held s !! i = Some sec →
  wp (bwrite i) (λ _ s', ∃ d, bview s !! Z.to_nat sec = Some d ∧
    bstep s s' (held s) (delete i (dirty s)) (bview s)
      (<[Z.to_nat sec := d]> (memdisk s)) (memdisk s :: disk_past s)) s.
Proof.
  intros Hinv Hh. destruct (held_buf _ _ _ Hinv Hh) as (b & Hi & Hb & Hbusy & Hs & Hdv & Hok).
  pose proof (view_held s i sec b Hinv Hi Hb Hdv Hs) as Hview.
  pose proof (inv_length s Hinv) as Hlen. pose proof (bo_flags _ _ Hok) as Hf.
  pose proof (bo_range _ _ Hok Hdv) as Hrange. unfold busy in Hbusy.
  unfold bwrite. apply wp_bind. eapply wp_getb; [done|]. rewrite Hbusy. cbn [negb].
  apply wp_bind, wp_modb; [lia|].
  set (f1 := λ x, set_flags (Z.lor (b_flags x) B_DIRTY) x).
  destruct (flag_or_dirty _ Hf) as (Fr & Fb & Fv & Fd).
  unfold iderw. apply wp_bind. eapply wp_getb; [simpl; by rewrite list_lookup_alter_eq, Hb|].
  apply wp_bind, wp_gets. simpl. rewrite Fb, Hbusy. cbn [negb].
  rewrite flag_nothing_to_do, Fd, andb_false_r by done.
  rewrite Hdv. cbn [Z.eqb ROOTDEV Pos.eqb negb].
  destruct (Z.leb_spec (disksize (set_bcache (alter f1 i (bcache s)) s)) (b_sector b)) as [Hge|_].
  { unfold disksize in Hge. simpl in Hge. lia. }
  apply wp_bind, wp_bind, wp_modb; [simpl; rewrite length_alter; lia|].
  apply wp_modify. apply wp_modb; [simpl; rewrite !length_alter; lia|]. simpl.
  rewrite !list_alter_alter_eq. set (f := _ ∘ _).
  destruct (flag_clr_dirty _ Fr) as (Gr & Gb & Gv & Gd).
  destruct (flag_or_valid _ Gr) as (Kr & Kb & Kv & Kd).
  rewrite Gb, Fb, Hbusy in Kb. rewrite Gd in Kd.
  exists (b_data b). split; [done|]. subst sec.
  destruct (alter_held_step s i b f) as [[Hring [Hu Hcb _]] Hh' Hdi' Hv' Hk' Hp']; try done.
  { apply buf_ok_busy; try done; apply Hok. }
  unfold held, dirty in *. simpl in *.
  split; simpl; try done.
  - split; [done|]. simpl. destruct Hinv as [_ [_ _ Hwf]]. split; simpl.
    + done.
    + intros j b' Hj Hb'. specialize (Hcb j b' Hj Hb').
      destruct Hcb as [? ? ? ? Hr' Hcl]. split; try done; rewrite ?length_insert; try done.
      intros Hd' Hbf Hdf. rewrite list_lookup_insert_ne; [by apply Hcl|].
      intros Heq. assert (i = j) as <-.
      { eapply Hu; [done..| |exact Hb'| |done|]; [by rewrite list_lookup_alter_eq, Hb|done|].
        simpl. specialize (Hr' Hd'). lia. }
      rewrite list_lookup_alter_eq, Hb in Hb'. injection Hb' as <-.
      unfold busy in Hbf. simpl in Hbf. congruence.
    + apply Forall_insert; [done|apply Hok].
  - unfold held. simpl. rewrite Hh'. unfold busy. simpl. rewrite Kb. apply insert_id, Hh.
  - unfold dirty. simpl. rewrite Hdi'. unfold dirtyb. simpl. by rewrite Kd.
  - unfold bview in *. simpl in *. apply list_eq. intros k.
    rewrite <- (list_insert_id (cview _ _) _ _ Hview), <- Hv'.
    rewrite !lookup_cview.
    destruct (decide (k = Z.to_nat (b_sector b))) as [->|Hk].
    + rewrite Z2Nat.id by lia.
      rewrite (cached_at _ _ i (f b)); [|done..|by rewrite list_lookup_alter_eq, Hb|done|done].
      destruct (lookup_lt_is_Some_2 (memdisk s) (Z.to_nat (b_sector b))) as [d Hd]; [lia|].
      rewrite list_lookup_insert_eq by lia. by rewrite Hd.
    + by rewrite list_lookup_insert_ne.
Qed.

(** ** bread *)
(** A buffer that is neither held nor dirty exists while few are in use. *)
Lemma free_buffer s :
  size (held s) + size (dirty s) < NBUF →
  ∃ i, i < NBUF ∧ held s !! i = None ∧ dirty s !! i = None.
Proof.
  intros Hsz.
  destruct (decide (Exists (λ i, held s !! i = None ∧ dirty s !! i = None) (seq 0 NBUF)))
    as [(i & Hi & ? & ?)%Exists_exists|Hno].
  { exists i. apply elem_of_seq in Hi. split; [lia|done]. }
  exfalso. rewrite Exists_exists in Hno.
  assert (list_to_set (seq 0 NBUF) ⊆ dom (held s) ∪ dom (dirty s)) as Hsub.
  { intros i Hi. rewrite elem_of_list_to_set in Hi. rewrite elem_of_union, !elem_of_dom.
    destruct (held s !! i) eqn:?; [by eauto|]. destruct (dirty s !! i) eqn:?; [by eauto|].
    exfalso. eauto. }
  apply subseteq_size in Hsub.
  rewrite size_list_to_set, length_seq in Hsub by apply NoDup_seq.
  pose proof (size_union_alt (dom (held s)) (dom (dirty s))) as Hu.
  pose proof (subseteq_size (dom (dirty s) ∖ dom (held s)) (dom (dirty s)) ltac:(set_solver)).
  rewrite !size_dom in *. lia.
Qed.

Lemma find_reusable c order :
  ring c order → (∃ i, i < NBUF ∧ reusable c i = true) →
  ∃ i b, List.find (reusable c) (reverse order) = Some i ∧ i < NBUF ∧
         c !! i = Some b ∧ busy b = false ∧ dirtyb b = false.
Proof.
  intros Hr (k & Hk & Hre).
  destruct (List.find (reusable c) (reverse order)) as [i|] eqn:Hf.
  - apply List.find_some in Hf as [Hi Hm].
    apply list_elem_of_In, elem_of_reverse, (ring_elem _ _ _ Hr) in Hi.
    unfold reusable in Hm. destruct (c !! i) as [b|] eqn:Hb; [|done].
    apply andb_true_iff in Hm as [?%negb_true_iff ?%negb_true_iff]. by exists i, b.
  - assert (In k (reverse order)) as Hin.
    { by apply list_elem_of_In, elem_of_reverse, (ring_elem _ _ _ Hr). }
    pose proof (List.find_none _ _ Hf k Hin). congruence.
Qed.

(** Loading [sec] into a clean, free buffer changes neither view nor disk. *)
Lemma recycle_step s i b sec d g :
  bio_inv s → i < NBUF → bcache s !! i = Some b → busy b = false → dirtyb b = false →
  memdisk s !! Z.to_nat sec = Some d → (0 ≤ sec)%Z →
  (∀ j x, j < NBUF → bcache s !! j = Some x → b_dev x = ROOTDEV → b_sector x ≠ sec) →
  (∀ x, b_next (g x) = b_next x) → (∀ x, b_prev (g x) = b_prev x) →
  core (g b) = mkBuf 3 ROOTDEV sec 0 0 d →
  bstep s (set_bcache (alter g i (bcache s)) s)
    (<[i := sec]> (held s)) (dirty s) (bview s) (memdisk s) (disk_past s).
Proof.
  intros [[order Hr] Hc] Hi Hb Hbusy Hdirty Hd Hpos Hmiss Hn Hp Hg.
  unfold core in Hg. injection Hg as Gf Gd Gs Gdat.
  pose proof (co_uniq _ _ Hc) as Hu.
  assert (uniq (alter g i (bcache s))) as Hu'.
  { intros j k bj bk Hj Hk Hlj Hlk Hdj Hdk Hjk.
    apply (lookup_alter_one _ _ b) in Hlj as [[<- ->]|[? Hlj]]; [| |done];
      (apply (lookup_alter_one _ _ b) in Hlk as [[<- ->]|[? Hlk]]; [| |done]); [done|..].
    - exfalso. eapply (Hmiss k bk); [done..|]. congruence.
    - exfalso. eapply (Hmiss j bj); [done..|]. congruence.
    - by eapply Hu. }
  apply lookup_lt_Some in Hd as Hlt.
  assert (alter g i (bcache s) !! i = Some (g b)) as Hgi by (by rewrite list_lookup_alter_eq, Hb).
  split; try done.
  - split; simpl; [exists order; by apply ring_alter|].
    apply (cache_ok_alter _ _ b); [done|done| |done].
    apply buf_ok_busy; rewrite ?Gd, ?Gs, ?Gdat, ?Gf; try done; try lia.
    + eapply Forall_lookup_1; [|done]. apply Hc.
    + unfold valid. by rewrite Gf.
    + unfold busy. by rewrite Gf.
  - unfold held. simpl. rewrite (cmap_alter _ _ b), Gs by done. unfold busy. by rewrite Gf.
  - unfold dirty. simpl. rewrite (cmap_alter _ _ b), Gs by done.
    unfold dirtyb at 1. rewrite Gf. simpl. apply delete_id.
    rewrite lookup_cmap, decide_True, Hb by done. simpl. by rewrite Hdirty.
  - unfold bview. simpl. apply list_eq. intros k. rewrite !lookup_cview.
    destruct (memdisk s !! k) as [dk|] eqn:Hdk; [|done]. simpl. f_equal.
    destruct (decide (Z.of_nat k = sec)) as [<-|Hks].
    + rewrite (cached_at _ _ i (g b)) by done. rewrite (cached_None (bcache s)) by done.
      simpl. rewrite Nat2Z.id in Hd. congruence.
    + destruct (cached (bcache s) (Z.of_nat k)) as [b'|] eqn:Hck.
      * apply cached_Some in Hck as (j & Hj & Hb' & Hd' & Hs').
        destruct (decide (i = j)) as [<-|Hij].
        -- assert (b' = b) as -> by congruence. rewrite cached_None; simpl.
           ++ pose proof (bo_clean _ _ (co_buf _ _ Hc i b Hi Hb) Hd' Hbusy Hdirty) as Hcl.
              rewrite Hs', Nat2Z.id in Hcl. congruence.
           ++ intros j x Hj' Hlx Hdx Hsx.
              apply (lookup_alter_one _ _ b) in Hlx as [[<- ->]|[Hne Hlx]]; [congruence| |done].
              apply Hne. eapply Hu; eauto. congruence.
        -- rewrite (cached_at _ _ j b'); [done|done|done| |done|done].
           by rewrite list_lookup_alter_ne.
      * rewrite cached_None; [done|]. intros j x Hj Hlx Hdx Hsx.
        apply (lookup_alter_one _ _ b) in Hlx as [[<- ->]|[Hne Hlx]]; [congruence| |done].
        by rewrite (cached_at _ _ j x) in Hck.
Qed.

(** The sector is cached in a buffer nobody holds. *)
Lemma bread_hit s sec i b :
  bio_inv s → i < NBUF → bcache s !! i = Some b → b_dev b = ROOTDEV → b_sector b = sec →
  busy b = false → bget ROOTDEV sec s =
    Ok i (set_bcache (alter (λ x, set_flags (Z.lor (b_flags x) B_BUSY) x) i (bcache s)) s) →
  wp (bread ROOTDEV sec) (λ i s', held s !! i = None ∧
    bstep s s' (<[i := sec]> (held s)) (dirty s) (bview s) (memdisk s) (disk_past s)) s.
Proof.
  intros Hinv Hi Hb Hd Hs Hnb Hget. unfold bread. apply wp_bind.
  unfold wp at 1. rewrite Hget. apply wp_bind. unfold busy in Hnb.
  pose proof (co_buf _ _ (bi_cache _ Hinv) i b Hi Hb) as Hok.
  destruct (flag_or_busy _ (bo_flags _ _ Hok)) as (Fr & Fb & Fv & Fd).
  eapply wp_getb; [simpl; by rewrite list_lookup_alter_eq, Hb|].
  simpl. rewrite Fv. pose proof (bo_valid _ _ Hok Hd) as Hv. unfold valid in Hv.
  rewrite Hv. simpl. apply wp_bind, wp_ret, wp_ret.
  set (f := λ x, set_flags (Z.lor (b_flags x) B_BUSY) x).
  destruct (alter_held_step s i b f) as [Hi' Hh' Hdi' Hv' Hk' Hp']; try done.
  { apply buf_ok_busy; try done; try (by apply Hok). unfold valid. simpl. congruence. }
  split.
  { unfold held. rewrite lookup_cmap, decide_True, Hb by done. simpl. unfold busy. by rewrite Hnb. }
  split; try done.
  - rewrite Hh'. unfold busy. simpl. by rewrite Fb, Hs.
  - rewrite Hdi'. unfold dirtyb. simpl. rewrite Fd. by apply (dirty_keep s i b).
  - rewrite Hv'. apply list_insert_id. by apply (view_held s i _ b).
Qed.

(** The sector is not cached and a free, clean buffer is recycled. *)
Lemma bread_miss s sec i b :
  bio_inv s → (0 ≤ sec < disksize s)%Z →
  (∀ j x, j < NBUF → bcache s !! j = Some x → b_dev x = ROOTDEV → b_sector x ≠ sec) →
  i < NBUF → bcache s !! i = Some b → busy b = false → dirtyb b = false →
  bget ROOTDEV sec s = Ok i (set_bcache
    (alter (set_flags B_BUSY) i (alter (set_id ROOTDEV sec) i (bcache s))) s) →
  wp (bread ROOTDEV sec) (λ i s', held s !! i = None ∧
    bstep s s' (<[i := sec]> (held s)) (dirty s) (bview s) (memdisk s) (disk_past s)) s.
Proof.
  intros Hinv Hsec Hmiss Hi Hb Hnb Hnd Hget. unfold bread. apply wp_bind.
  unfold wp at 1. rewrite Hget, list_alter_alter_eq. set (g0 := _ ∘ _). apply wp_bind.
  pose proof (inv_length _ Hinv) as Hlen. unfold disksize in Hsec.
  destruct (lookup_lt_is_Some_2 (memdisk s) (Z.to_nat sec)) as [d Hd]; [lia|].
  eapply wp_getb; [simpl; by rewrite list_lookup_alter_eq, Hb|]. simpl. apply wp_bind.
  unfold iderw. apply wp_bind. eapply wp_getb; [simpl; by rewrite list_lookup_alter_eq, Hb|].
  apply wp_bind, wp_gets. unfold disksize. simpl.
  destruct (Z.leb_spec (Z.of_nat (length (memdisk s))) sec) as [Hge|_]; [lia|].
  apply wp_bind, wp_bind, wp_gets. simpl. rewrite aget_pos, Hd by lia.
  apply wp_bind. simpl. apply wp_ret, wp_modb; [simpl; rewrite length_alter; lia|].
  apply wp_modb; [simpl; rewrite !length_alter; lia|]. apply wp_ret. simpl.
  rewrite !list_alter_alter_eq. set (g := _ ∘ _).
  split.
  { unfold held. rewrite lookup_cmap, decide_True, Hb by done. simpl. by rewrite Hnb. }
  eapply (recycle_step s i b sec d g); try done. lia.
Qed.

(** bread on a sector of the disk that nobody holds returns a buffer of its
    own, holding the current contents, provided the sector is
    in a dirty buffer already or a buffer is left. *)
Lemma bread_spec s sec :
  bio_inv s → (0 ≤ sec < disksize s)%Z → (∀ i, held s !! i ≠ Some sec) →
  size (held s) + size (dirty s) < NBUF ∨ (∃ j, dirty s !! j = Some sec) →
  wp (bread ROOTDEV sec) (λ i s', held s !! i = None ∧
    bstep s s' (<[i := sec]> (held s)) (dirty s) (bview s) (memdisk s) (disk_past s)) s.
Proof.
  intros Hinv Hsec Hnh Hroom. pose proof (inv_length _ Hinv) as Hlen.
  destruct (bi_ring _ Hinv) as [order Hr]. pose proof (ring_Forall _ _ Hr) as Hall.
  pose proof (ring_length _ _ Hr) as Hol. destruct (ring_HEAD _ _ Hr) as [h Hh].
  assert (getb HEAD s = Ok h s) as Hgh by (unfold getb; by rewrite Hh).
  pose proof (bget_find_spec s ROOTDEV sec HEAD order (S NBUF)) as Hloop.
  rewrite (lnx_Some _ _ _ Hh) in Hloop.
  destruct (List.find _ order) as [i|] eqn:Hfind.
  - destruct (find_matches_Some _ _ _ _ _ Hr Hfind) as (Hi & b & Hb & Hd & Hs).
    assert (busy b = false) as Hnb.
    { destruct (busy b) eqn:Hbb; [|done]. exfalso. apply (Hnh i).
      apply lookup_cmap_Some. eauto. }
    apply (bread_hit s sec i b); try done. unfold bget. rewrite (bind_Ok _ _ _ _ _ Hgh).
    unfold busy in Hnb. rewrite Hb, Hnb in Hloop.
    rewrite (bind_Ok _ _ _ _ _ (Hloop (ring_next _ _ Hr) Hall Hlen ltac:(lia))). done.
  - destruct Hroom as [Hroom|(j & (Hj & b & Hb & Hjd & Hjs)%lookup_cmap_Some)].
    2: { exfalso. eapply (find_matches_None _ _ _ _ Hr Hfind j b); try done.
         eapply flagged_rootdev; [by eapply Hinv|]. intros H0. unfold dirtyb in Hjd.
         by rewrite H0 in Hjd. }
    destruct (free_buffer s Hroom) as (k & Hk & Hkh & Hkd).
    destruct (find_reusable _ _ Hr) as (i & b & Hfr & Hi & Hb & Hnb & Hndt).
    { exists k. split; [done|]. unfold reusable.
      destruct (lookup_lt_is_Some_2 (bcache s) k) as [x Hx]; [lia|].
      unfold held, dirty in *. rewrite lookup_cmap, decide_True, Hx in Hkh, Hkd by done.
      simpl in *. rewrite Hx. unfold busy, dirtyb in *.
      destruct (has _ B_BUSY); [done|]. by destruct (has _ B_DIRTY). }
    apply (bread_miss s sec i b); try done; [by apply (find_matches_None _ order)|].
    unfold bget. rewrite (bind_Ok _ _ _ _ _ Hgh).
    rewrite (bind_Ok _ _ _ _ _ (Hloop (ring_next _ _ Hr) Hall Hlen ltac:(lia))).
    rewrite (bind_Ok _ _ _ _ _ Hgh).
    assert (bget_recycle (S NBUF) ROOTDEV sec (b_prev h) s = Ok (Some i) (set_bcache
      (alter (set_flags B_BUSY) i (alter (set_id ROOTDEV sec) i (bcache s))) s)) as Hloop2.
    { rewrite <- (lpv_Some _ _ _ Hh).
      rewrite (bget_recycle_spec s ROOTDEV sec HEAD (reverse order)), Hfr; [done|..].
      - apply Hr.
      - by rewrite reverse_Permutation.
      - done.
      - rewrite length_reverse. lia. }
    by rewrite (bind_Ok _ _ _ _ _ Hloop2).
Qed.

(** A second bread of a held sector sleeps: the buffer has one user at a time. *)
Lemma bread_held_blocks s i sec :
  bio_inv s → held s !! i = Some sec → bread ROOTDEV sec s = Blocked s.
Proof.
  intros Hinv Hh. destruct (held_buf _ _ _ Hinv Hh) as (b & Hi & Hb & Hbusy & Hs & Hdv & Hok).
  destruct (bi_ring _ Hinv) as [order Hr]. destruct (ring_HEAD _ _ Hr) as [h Hhd].
  pose proof (bget_find_spec s ROOTDEV sec HEAD order (S NBUF)) as Hloop.
  rewrite (lnx_Some _ _ _ Hhd) in Hloop.
  destruct (List.find _ order) as [j|] eqn:Hfind.
  2: { exfalso. by eapply (find_matches_None _ _ _ _ Hr Hfind i b). }
  destruct (find_matches_Some _ _ _ _ _ Hr Hfind) as (Hj & b' & Hb' & Hd' & Hs').
  assert (i = j) as <- by (eapply (co_uniq _ _ (bi_cache _ Hinv)); eauto; congruence).
  unfold busy in Hbusy. rewrite Hb, Hbusy in Hloop.
  unfold bread, bget, bind, getb. rewrite Hhd. simpl lift_opt. cbv beta iota delta [ret].
  rewrite Hloop; [done|apply Hr|by eapply ring_Forall|by apply inv_length|].
  rewrite (ring_length _ _ Hr). lia.
Qed.

(** With every buffer held or dirty, an uncached sector cannot be read. *)
Lemma bread_no_buffers s sec :
  bio_inv s →
  (∀ i b, i < NBUF → bcache s !! i = Some b → b_dev b = ROOTDEV → b_sector b ≠ sec) →
  (∀ i, i < NBUF → is_Some (held s !! i) ∨ is_Some (dirty s !! i)) →
  bread ROOTDEV sec s = Panic "bget: no buffers".
Proof.
  intros Hinv Hmiss Hfull. destruct (bi_ring _ Hinv) as [order Hr].
  destruct (ring_HEAD _ _ Hr) as [h Hhd]. pose proof (inv_length _ Hinv) as Hlen.
  assert (getb HEAD s = Ok h s) as Hgh by (unfold getb; by rewrite Hhd).
  assert (bget_find (S NBUF) ROOTDEV sec (b_next h) s = Ok None s) as H1.
  { rewrite <- (lnx_Some _ _ _ Hhd). rewrite (bget_find_spec s ROOTDEV sec HEAD order);
      [|apply Hr|by eapply ring_Forall|done|rewrite (ring_length _ _ Hr); lia].
    destruct (List.find _ order) as [j|] eqn:Hfind; [|done]. exfalso.
    destruct (find_matches_Some _ _ _ _ _ Hr Hfind) as (Hj & b' & Hb' & Hd' & Hs'). by eapply Hmiss. }
  assert (bget_recycle (S NBUF) ROOTDEV sec (b_prev h) s = Ok None s) as H2.
  { rewrite <- (lpv_Some _ _ _ Hhd).
    rewrite (bget_recycle_spec s ROOTDEV sec HEAD (reverse order)); [|apply Hr| |done|].
    2: { rewrite reverse_Permutation. by eapply ring_Forall. }
    2: { rewrite length_reverse, (ring_length _ _ Hr). lia. }
    destruct (List.find _ (reverse order)) as [j|] eqn:Hfind; [|done]. exfalso.
    apply List.find_some in Hfind as [Hj Hre].
    apply list_elem_of_In, elem_of_reverse, (ring_elem _ _ _ Hr) in Hj.
    unfold reusable in Hre. destruct (bcache s !! j) as [b|] eqn:Hb; [|done].
    apply andb_true_iff in Hre as [Hb1%negb_true_iff Hb2%negb_true_iff].
    unfold held, dirty in Hfull. specialize (Hfull j Hj).
    rewrite !lookup_cmap, !decide_True, Hb in Hfull by done. simpl in Hfull.
    unfold busy, dirtyb in Hfull. rewrite Hb1, Hb2 in Hfull. destruct Hfull as [[? ?]|[? ?]]; done. }
  unfold bread, bget.
  assert (∀ A B (m : M bio A) (k : A → M bio B), m s = Panic "bget: no buffers" →
    bind m k s = Panic "bget: no buffers") as Hpanic by (intros ? ? m k Hm; unfold bind; by rewrite Hm).
  apply Hpanic. rewrite (bind_Ok _ _ _ _ _ Hgh), (bind_Ok _ _ _ _ _ H1).
  by rewrite (bind_Ok _ _ _ _ _ Hgh), (bind_Ok _ _ _ _ _ H2).
Qed.

(** ** binit *)
Lemma binit_spec img :
  Forall block_wf img →
  wp binit (λ _ s', bio_inv s' ∧ held s' = ∅ ∧ dirty s' = ∅ ∧ bview s' = img ∧
    memdisk s' = img ∧ disk_past s' = []) (bio0 img).
Proof.
  intros Himg.
  set (bf := λ p n, mkBuf 0 4294967295 0 p n (replicate 512 0%Z)).
  set (c := [bf 1 10; bf 2 0; bf 3 1; bf 4 2; bf 5 3; bf 6 4; bf 7 5; bf 8 6; bf 9 7; bf 10 8;
             mkBuf 0 0 0 0 9 (replicate 512 0%Z)]).
  assert (binit (bio0 img) = Ok tt (mkBio c img [])) as Hrun by (vm_compute; reflexivity).
  unfold wp. rewrite Hrun.
  assert (∀ i b, i < NBUF → c !! i = Some b → b_dev b = 4294967295%Z ∧ b_flags b = 0%Z ∧
    b_data b = replicate 512 0%Z) as Hall.
  { intros i b Hi Hb. rewrite NBUF_eq in Hi.
    do 10 (destruct i as [|i]; [injection Hb as <-; done|]). lia. }
  assert (∀ P, (∀ b, b_flags b = 0%Z → P b = false) → cmap P c = ∅) as Hemp.
  { intros P HP. apply map_eq. intros i. rewrite lookup_cmap, lookup_empty.
    case_decide as Hi; [|done]. destruct (c !! i) as [b|] eqn:Hb; [|done]. simpl.
    by rewrite HP by (by eapply Hall). }
  split_and!; [|by apply Hemp; unfold busy; intros ? ->|by apply Hemp; unfold dirtyb; intros ? ->|
    |done..].
  - split; simpl.
    + exists [9;8;7;6;5;4;3;2;1;0]. split; [done| |by vm_compute; repeat split..].
      change ([9;8;7;6;5;4;3;2;1;0]) with (reverse (seq 0 NBUF)). apply reverse_Permutation.
    + split; [| |done].
      * intros i j bi bj Hi Hj Hbi Hbj Hd. destruct (Hall i bi Hi Hbi) as [Hdv _].
        rewrite Hd in Hdv. discriminate Hdv.
      * intros i b Hi Hb. destruct (Hall i b Hi Hb) as (Hdv & Hf & Hdt).
        split; rewrite ?Hf, ?Hdv; try done. rewrite Hdt. split; [done|].
        apply Forall_replicate. done.
  - unfold bview. simpl. apply list_eq. intros k. rewrite lookup_cview.
    rewrite cached_None; [by destruct (img !! k)|].
    intros i b Hi Hb Hd. destruct (Hall i b Hi Hb) as [Hdv _].
    rewrite Hd in Hdv. discriminate Hdv.
Qed.
