(* ===== verification/BlockStore.v ===== *)
(** * The interface between the log and the file system

    fs.c reads blocks with bread, changes them through bp->data, passes them to
    log_write and releases them with brelse, inside a transaction.  [tview] is
    what such a client may know of the store, and the class [BlockStore] states
    what the buffer cache and the log promise.  The file-system files are
    developed against this class; LogSpec.v gives the instance. *)
From stdpp Require Import base list gmap numbers option strings sets.
From Stdlib Require Import ZArith Lia.
From S2P Require Import Prelude Layout.
Open Scope Z_scope.

Record tview := mkT {
  t_view : list block;          (** current contents of the home blocks *)
  t_home : list block;          (** the contents recovery would restore *)
  t_pend : list (Z * block);    (** blocks logged in this transaction *)
  t_held : gmap nat Z;          (** buffers the client holds, with their blocks *)
  t_active : bool;              (** a transaction is open *)
  t_cap : Z }.                  (** number of blocks the log has room for *)

Definition set_held (h : gmap nat Z) (t : tview) : tview :=
  mkT (t_view t) (t_home t) (t_pend t) h (t_active t) (t_cap t).
Definition set_view (v : list block) (t : tview) : tview :=
  mkT v (t_home t) (t_pend t) (t_held t) (t_active t) (t_cap t).
Definition set_pend (p : list (Z * block)) (t : tview) : tview :=
  mkT (t_view t) (t_home t) p (t_held t) (t_active t) (t_cap t).
Definition set_active (b : bool) (t : tview) : tview :=
  mkT (t_view t) (t_home t) (t_pend t) (t_held t) b (t_cap t).

(** Replaying logged blocks over the home blocks. *)
Definition apply_log (home : list block) (pend : list (Z * block)) : list block :=
  foldl (λ h e, <[Z.to_nat e.1 := e.2]> h) home pend.

(** Logging a block again replaces its earlier copy (log absorption). *)
Fixpoint log_insert (sec : Z) (d : block) (pend : list (Z * block)) : list (Z * block) :=
  match pend with
  | [] => [(sec, d)]
  | (x, e) :: pend =>
    if decide (x = sec) then (x, d) :: pend else (x, e) :: log_insert sec d pend
  end.

(** A released block agrees with what committing the log would make of it. *)
Definition t_clean (t : tview) (sec : Z) : Prop :=
  t_view t !! Z.to_nat sec = apply_log (t_home t) (t_pend t) !! Z.to_nat sec.
Definition t_fresh (t : tview) (sec : Z) : Prop := ∀ i, t_held t !! i ≠ Some sec.
Definition t_inrange (t : tview) (sec : Z) : Prop := 0 ≤ sec < Z.of_nat (length (t_view t)).
(** A buffer is left for one more bread. *)
Definition t_room (t : tview) : Prop :=
  (size (t_held t) + length (t_pend t) < NBUF)%nat.

Class BlockStore := {
  bst : Type;
  bs_bread : Z → Z → M bst nat;
  bs_bdata : nat → M bst block;
  bs_bset : nat → block → M bst unit;
  bs_log_write : nat → M bst unit;
  bs_brelse : nat → M bst unit;
  bs_begin_trans : M bst unit;
  bs_commit_trans : M bst unit;
  (** The state invariant, the abstraction, and the home contents recovery
      gives for the present disk image and for each earlier one. *)
  bs_wf : bst → Prop;
  bs_abs : bst → tview;
  bs_hist : bst → list (list block);

  bs_view_wf s : bs_wf s → Forall block_wf (t_view (bs_abs s)) ∧
    length (t_home (bs_abs s)) = length (t_view (bs_abs s)) ∧
    Z.of_nat (length (t_view (bs_abs s))) < 2 ^ 31;
  bs_pend_wf s : bs_wf s → NoDup (t_pend (bs_abs s)).*1 ∧
    Forall (t_inrange (bs_abs s)) (t_pend (bs_abs s)).*1;
  bs_coherent s sec : bs_wf s → t_inrange (bs_abs s) sec → t_fresh (bs_abs s) sec →
    t_clean (bs_abs s) sec;
  bs_hist_home s : bs_wf s → ∃ past, bs_hist s = t_home (bs_abs s) :: past;

  bs_bread_ok s sec : bs_wf s → t_inrange (bs_abs s) sec → t_fresh (bs_abs s) sec →
    t_room (bs_abs s) →
    wp (bs_bread ROOTDEV sec) (λ i s', bs_wf s' ∧ t_held (bs_abs s) !! i = None ∧
      bs_abs s' = set_held (<[i := sec]> (t_held (bs_abs s))) (bs_abs s) ∧
      bs_hist s' = bs_hist s) s;
  bs_bdata_ok s i sec : bs_wf s → t_held (bs_abs s) !! i = Some sec →
    ∃ d, t_view (bs_abs s) !! Z.to_nat sec = Some d ∧ bs_bdata i s = Ok d s;
  bs_bset_ok s i sec d : bs_wf s → t_held (bs_abs s) !! i = Some sec → block_wf d →
    wp (bs_bset i d) (λ _ s', bs_wf s' ∧
      bs_abs s' = set_view (<[Z.to_nat sec := d]> (t_view (bs_abs s))) (bs_abs s) ∧
      bs_hist s' = bs_hist s) s;
  bs_log_write_ok s i sec d : bs_wf s → t_held (bs_abs s) !! i = Some sec →
    t_view (bs_abs s) !! Z.to_nat sec = Some d → t_active (bs_abs s) = true →
    Z.of_nat (length (t_pend (bs_abs s))) < t_cap (bs_abs s) → t_room (bs_abs s) →
    wp (bs_log_write i) (λ _ s', bs_wf s' ∧
      bs_abs s' = set_pend (log_insert sec d (t_pend (bs_abs s))) (bs_abs s) ∧
      ∃ new, bs_hist s' = new ++ bs_hist s ∧ Forall (eq (t_home (bs_abs s))) new) s;
  bs_brelse_ok s i sec : bs_wf s → t_held (bs_abs s) !! i = Some sec →
    t_clean (bs_abs s) sec →
    wp (bs_brelse i) (λ _ s', bs_wf s' ∧
      bs_abs s' = set_held (delete i (t_held (bs_abs s))) (bs_abs s) ∧
      bs_hist s' = bs_hist s) s;
  bs_begin_ok s : bs_wf s → t_active (bs_abs s) = false →
    wp bs_begin_trans (λ _ s', bs_wf s' ∧ bs_abs s' = set_active true (bs_abs s) ∧
      bs_hist s' = bs_hist s) s;
  bs_commit_ok s : bs_wf s → t_held (bs_abs s) = ∅ →
    wp bs_commit_trans (λ _ s', bs_wf s' ∧
      bs_abs s' = mkT (t_view (bs_abs s)) (t_view (bs_abs s)) [] ∅ false (t_cap (bs_abs s)) ∧
      ∃ new, bs_hist s' = new ++ bs_hist s ∧ Forall (eq (t_view (bs_abs s))) new) s;
}.

(** ** Lemmas on the log as a list of block writes *)
Lemma length_apply_log h p : length (apply_log h p) = length h.
Proof.
  revert h. induction p as [|e p IH]; intros h; [done|].
  unfold apply_log in *. simpl. by rewrite IH, length_insert.
Qed.

Lemma apply_log_app h p q : apply_log h (p ++ q) = apply_log (apply_log h p) q.
Proof. unfold apply_log. by rewrite foldl_app. Qed.

Lemma apply_log_lookup_ne h p k :
  Forall (λ e, Z.to_nat e.1 ≠ k) p → apply_log h p !! k = h !! k.
Proof.
  intros Hp. revert h. induction Hp as [|e p He Hp IH]; intros h; [done|].
  unfold apply_log in *. simpl. by rewrite IH, list_lookup_insert_ne.
Qed.

(** Replay only looks at the blocks it does not overwrite. *)
Lemma apply_log_agree h h' p :
  length h = length h' →
  (∀ k, Forall (λ e, Z.to_nat e.1 ≠ k) p → h !! k = h' !! k) →
  apply_log h p = apply_log h' p.
Proof.
  revert h h'. induction p as [|e p IH]; intros h h' Hl Hag.
  - apply list_eq. intros k. by apply Hag.
  - unfold apply_log in *. simpl. apply IH; [by rewrite !length_insert|].
    intros k Hk. destruct (decide (Z.to_nat e.1 = k)) as [<-|Hne].
    + destruct (decide (Z.to_nat e.1 < length h)%nat).
      * rewrite !list_lookup_insert_eq; [done|lia..].
      * rewrite !lookup_ge_None_2; [done|rewrite length_insert; lia..].
    + rewrite !list_lookup_insert_ne by done. apply Hag. by constructor.
Qed.

(** Replaying a log over blocks on which a part of it was already replayed. *)
Lemma apply_log_idemp h p k : apply_log (apply_log h (take k p)) p = apply_log h p.
Proof.
  apply apply_log_agree; [by rewrite length_apply_log|].
  intros j Hj. apply apply_log_lookup_ne. by apply Forall_take.
Qed.

Lemma log_insert_fst sec d p :
  (log_insert sec d p).*1 = if decide (sec ∈ p.*1) then p.*1 else p.*1 ++ [sec].
Proof.
  induction p as [|[x e] p IH]; [done|]. cbn [log_insert].
  destruct (decide (x = sec)) as [->|Hne]; rewrite !fmap_cons; cbn [fst].
  - rewrite decide_True by left. done.
  - rewrite IH. destruct (decide (sec ∈ p.*1)) as [Hin|Hin].
    + by rewrite decide_True by (by right).
    + rewrite decide_False; [done|]. by intros [?|?]%elem_of_cons.
Qed.

Lemma length_log_insert sec d p : (length (log_insert sec d p) ≤ S (length p))%nat.
Proof.
  induction p as [|[x e] p IH]; simpl; [done|]. case_decide; simpl; lia.
Qed.

Lemma log_insert_in sec d p :
  sec ∈ p.*1 → length (log_insert sec d p) = length p.
Proof.
  intros H. rewrite <- (length_fmap fst), log_insert_fst, decide_True by done.
  by rewrite length_fmap.
Qed.

(** What committing a log with the new copy makes of each block. *)
Lemma apply_log_insert h p sec d :
  NoDup (p.*1) → Forall (λ x, 0 ≤ x) p.*1 → 0 ≤ sec →
  apply_log h (log_insert sec d p) = <[Z.to_nat sec := d]> (apply_log h p).
Proof.
  intros Hnd Hpos Hsec. revert h. induction p as [|[x e] p IH]; intros h; [done|].
  simpl in Hnd, Hpos. apply NoDup_cons in Hnd as [Hx Hnd].
  apply Forall_cons in Hpos as [Hx0 Hpos]. simpl.
  destruct (decide (x = sec)) as [->|Hne].
  - unfold apply_log. simpl. fold (apply_log (<[Z.to_nat sec := d]> h) p).
    fold (apply_log (<[Z.to_nat sec := e]> h) p).
    assert (∀ e', apply_log (<[Z.to_nat sec := e']> h) p = <[Z.to_nat sec := e']> (apply_log h p)) as Hc.
    { intros e'. clear IH. revert h. induction p as [|[y f] p IH]; intros h; [done|].
      unfold apply_log. simpl. fold (apply_log (<[Z.to_nat y:=f]> (<[Z.to_nat sec:=e']> h)) p).
      simpl in Hx, Hpos. apply Forall_cons in Hpos as [? Hpos].
      rewrite list_insert_insert_ne by set_solver by lia.
      apply IH; [set_solver|by apply NoDup_cons in Hnd as [_ ?]|done]. }
    rewrite !Hc. by rewrite list_insert_insert_eq.
  - unfold apply_log in *. simpl. by apply IH.
Qed.
