(* ===== verification/Log.v ===== *)
(** * Write-ahead log (log.c)

    The log area is the last sb.nlog sectors of the disk: a header sector and
    one sector per logged block.  As in the code, log_write writes the block to
    the log at once, and only commit_trans writes the header. *)
From stdpp Require Import base list gmap numbers option strings sets.
From Stdlib Require Import ZArith Lia.
From S2P Require Import Prelude Layout Bio BioSpec.
Open Scope Z_scope.

(** ** struct log, with its struct logheader lh *)
Record log := mkLog {
  log_start : Z; log_size : Z; log_busy : Z; log_dev : Z;
  lh_n : Z; lh_sector : list Z }.
Record lstate := mkL { l_bio : bio; l_log : log }.

Definition set_bio (b : bio) (s : lstate) : lstate := mkL b (l_log s).
Definition set_geometry (st sz dev : Z) (l : log) : log :=
  mkLog st sz (log_busy l) dev (lh_n l) (lh_sector l).
Definition set_busy (v : Z) (l : log) : log :=
  mkLog (log_start l) (log_size l) v (log_dev l) (lh_n l) (lh_sector l).
Definition set_n (v : Z) (l : log) : log :=
  mkLog (log_start l) (log_size l) (log_busy l) (log_dev l) v (lh_sector l).
Definition set_sectors (v : list Z) (l : log) : log :=
  mkLog (log_start l) (log_size l) (log_busy l) (log_dev l) (lh_n l) v.

(** Operations of the buffer cache, run on the cache in the state. *)
Definition io {A} (m : M bio A) : M lstate A := zoom l_bio set_bio m.
Definition getlog : M lstate log := gets l_log.
Definition modlog (f : log → log) : M lstate unit := modify (λ s, mkL (l_bio s) (f (l_log s))).

(** fs.c: readsb *)
Definition readsb (dev : Z) : M bio superblock :=
  bp <- bread dev 1 ;;
  d <- bdata bp ;;
  brelse bp ;;;
  ret (dec_superblock d).

(** One iteration of install_trans: copy a log block to its home sector. *)
Definition install_one (tail : nat) : M lstate unit :=
  lg <- getlog ;;
  lbuf <- io (bread (log_dev lg) (u32 (log_start lg + Z.of_nat tail + 1))) ;;
  sec <- lift_opt (aget (lh_sector lg) (Z.of_nat tail)) ;;
  dbuf <- io (bread (log_dev lg) (u32 sec)) ;;
  d <- io (bdata lbuf) ;;
  io (bset dbuf d) ;;;
  io (bwrite dbuf) ;;;
  io (brelse lbuf) ;;;
  io (brelse dbuf).

Definition install_trans : M lstate unit :=
  lg <- getlog ;;
  mfor (seq 0 (Z.to_nat (lh_n lg))) install_one.

Definition read_head_one (d : block) (i : nat) : M lstate unit :=
  lg <- getlog ;;
  secs <- lift_opt (aset (lh_sector lg) (Z.of_nat i) (get_loghead_sector d i)) ;;
  modlog (set_sectors secs).

Definition read_head : M lstate unit :=
  lg <- getlog ;;
  b <- io (bread (log_dev lg) (u32 (log_start lg))) ;;
  d <- io (bdata b) ;;
  modlog (set_n (get_loghead_n d)) ;;;
  mfor (seq 0 (Z.to_nat (get_loghead_n d))) (read_head_one d) ;;;
  io (brelse b).

Definition write_head_one (b i : nat) : M lstate unit :=
  lg <- getlog ;;
  sec <- lift_opt (aget (lh_sector lg) (Z.of_nat i)) ;;
  d <- io (bdata b) ;;
  io (bset b (put_u32 d (4 + 4 * i) (u32 sec))).

Definition write_head : M lstate unit :=
  lg <- getlog ;;
  b <- io (bread (log_dev lg) (u32 (log_start lg))) ;;
  d <- io (bdata b) ;;
  io (bset b (put_u32 d 0 (u32 (lh_n lg)))) ;;;
  mfor (seq 0 (Z.to_nat (lh_n lg))) (write_head_one b) ;;;
  io (bwrite b) ;;;
  io (brelse b).

Definition recover_from_log : M lstate unit :=
  read_head ;;;
  install_trans ;;;
  modlog (set_n 0) ;;;
  write_head.

Definition SIZEOF_LOGHEADER : Z := 4 + 4 * LOGSIZE.

Definition initlog : M lstate unit :=
  if BSIZE <=? SIZEOF_LOGHEADER then panic "initlog: too big logheader"
  else
    sb <- io (readsb ROOTDEV) ;;
    modlog (set_geometry (s32 (sb_size sb - sb_nlog sb)) (s32 (sb_nlog sb)) ROOTDEV) ;;;
    recover_from_log.

Definition begin_trans : M lstate unit :=
  lg <- getlog ;;
  if negb (log_busy lg =? 0) then sleep_on
  else modlog (set_busy 1).

Definition commit_trans : M lstate unit :=
  lg <- getlog ;;
  (if 0 <? lh_n lg then
     write_head ;;;
     install_trans ;;;
     modlog (set_n 0) ;;;
     write_head
   else ret tt) ;;;
  modlog (set_busy 0).

(** The search loop of log_write: the index of the block if it is already in
    the log, lh.n otherwise. *)
Fixpoint log_find (secs : list Z) (n : nat) (sector : Z) (i : nat) : nat :=
  match n with
  | O => i
  | S n =>
    match secs with
    | [] => i
    | x :: secs => if u32 x =? sector then i else log_find secs n sector (S i)
    end
  end.

Definition log_write (b : nat) : M lstate unit :=
  lg <- getlog ;;
  if (LOGSIZE <=? lh_n lg) || (log_size lg - 1 <=? lh_n lg)
  then panic "too big a transaction"
  else if log_busy lg =? 0 then panic "write outside of trans"
  else
    x <- io (getb b) ;;
    let i := log_find (lh_sector lg) (Z.to_nat (lh_n lg)) (b_sector x) 0 in
    secs <- lift_opt (aset (lh_sector lg) (Z.of_nat i) (s32 (b_sector x))) ;;
    modlog (set_sectors secs) ;;;
    lbuf <- io (bread (b_dev x) (u32 (log_start lg + Z.of_nat i + 1))) ;;
    d <- io (bdata b) ;;
    io (bset lbuf d) ;;;
    io (bwrite lbuf) ;;;
    io (brelse lbuf) ;;;
    (if Z.of_nat i =? lh_n lg then modlog (set_n (lh_n lg + 1)) else ret tt) ;;;
    io (mark_dirty b).

(** The log before initlog: zeroed, as in .bss. *)
Definition log0 : log := mkLog 0 0 0 0 0 (replicate 10 0).
