(* ===== verification/LogSpec.v ===== *)
(** * Correctness of the log

    The buffer cache and the log together implement the interface
    [BlockStore]: between begin_trans and commit_trans nothing a crash can
    leave on the disk recovers to anything but the state before the
    transaction, and at every point of commit_trans recovery gives either that
    state or the one after it. *)
From stdpp Require Import base list gmap numbers option strings sets.
From Stdlib Require Import ZArith Lia.
From S2P Require Import Prelude Layout Bio BioSpec BlockStore Log.
Open Scope Z_scope.

(** ** Abstraction *)
Definition startn (s : lstate) : nat := Z.to_nat (log_start (l_log s)).
Definition logged (s : lstate) : list Z :=
  take (Z.to_nat (lh_n (l_log s))) (lh_sector (l_log s)).
Definition pend (s : lstate) : list (Z * block) :=
  zip (logged s) (drop (S (startn s)) (memdisk (l_bio s))).

Definition labs (s : lstate) : tview :=
  mkT (take (startn s) (bview (l_bio s))) (take (startn s) (memdisk (l_bio s)))
      (pend s) (held (l_bio s)) (negb (log_busy (l_log s) =? 0))
      (Z.min LOGSIZE (log_size (l_log s) - 1)).

(** The log in a disk image, and the home blocks recovery makes of the image. *)
Definition disk_log (start : nat) (img : list block) : list (Z * block) :=
  match img !! start with
  | None => []
  | Some h => zip (get_loghead_sector h <$> seq 0 (Z.to_nat (get_loghead_n h)))
                  (drop (S start) img)
  end.
Definition recovered (start : nat) (img : list block) : list block :=
  apply_log (take start img) (disk_log start img).
Definition lhist (s : lstate) : list (list block) :=
  recovered (startn s) <$> memdisk (l_bio s) :: disk_past (l_bio s).

(** ** Invariant *)
Record log_inv (s : lstate) : Prop := mkLogInv {
  li_bio : bio_inv (l_bio s);
  li_dev : log_dev (l_log s) = ROOTDEV;
  li_start : 0 < log_start (l_log s);
  li_size : 2 ≤ log_size (l_log s);
  li_disk : log_start (l_log s) + log_size (l_log s) ≤ disksize (l_bio s) < 2 ^ 31;
  li_secs : length (lh_sector (l_log s)) = 10%nat;
  li_n : 0 ≤ lh_n (l_log s) ≤ Z.min LOGSIZE (log_size (l_log s) - 1);
  li_nodup : NoDup (logged s);
  li_home : Forall (λ x, 0 ≤ x < log_start (l_log s)) (logged s);
  li_head : ∃ h, memdisk (l_bio s) !! startn s = Some h ∧ get_loghead_n h = 0;
  li_dirty : ∀ sec, sec ∈ logged s ↔ ∃ i, dirty (l_bio s) !! i = Some sec;
  li_ndirty : (size (dirty (l_bio s)) ≤ length (logged s))%nat;
  (** One buffer is left when nothing is held: commit_trans needs it. *)
  li_room : (length (logged s) < NBUF)%nat;
  li_held : ∀ i sec, held (l_bio s) !! i = Some sec → 0 ≤ sec < log_start (l_log s);
  li_coh : ∀ sec, t_inrange (labs s) sec → t_fresh (labs s) sec → t_clean (labs s) sec }.

(** ** Basic facts *)
Lemma wp_io {A} (m : M bio A) Q s :
  wp m (λ a b, Q a (set_bio b s)) (l_bio s) → wp (io m) Q s.
Proof. apply wp_zoom. Qed.

Lemma bview_length b : length (bview b) = length (memdisk b).
Proof. apply length_cview. Qed.

Lemma bview_wf b : bio_inv b → Forall block_wf (bview b).
Proof.
  intros [_ Hc]. apply Forall_lookup. intros i d Hd. unfold bview in Hd.
  rewrite lookup_cview in Hd. apply fmap_Some in Hd as (d0 & Hd0 & ->).
  destruct (cached _ _) as [x|] eqn:Hx; simpl.
  - apply cached_Some in Hx as (j & Hj & Hb & _). by eapply co_buf.
  - eapply Forall_lookup_1; [apply Hc|done].
Qed.

Lemma dirty_sector b i sec :
  bio_inv b → dirty b !! i = Some sec →
  ∃ x, (i < NBUF)%nat ∧ bcache b !! i = Some x ∧ b_sector x = sec ∧ b_dev x = ROOTDEV.
Proof.
  intros Hinv (Hi & x & Hx & Hd & Hs)%lookup_cmap_Some. exists x. split_and!; try done.
  eapply flagged_rootdev; [by eapply (co_buf _ _ (bi_cache _ Hinv))|].
  unfold dirtyb in Hd. intros H0. by rewrite H0 in Hd.
Qed.

Lemma held_sector b i sec :
  bio_inv b → held b !! i = Some sec →
  ∃ x, (i < NBUF)%nat ∧ bcache b !! i = Some x ∧ b_sector x = sec ∧ b_dev x = ROOTDEV.
Proof. intros Hinv H. destruct (held_buf _ _ _ Hinv H) as (x & ?&?&?&?&?&?). eauto. Qed.

Lemma dirty_held_same b i j sec :
  bio_inv b → held b !! i = Some sec → dirty b !! j = Some sec → i = j.
Proof.
  intros Hinv Hi Hj. destruct (held_sector _ _ _ Hinv Hi) as (x&?&?&?&?).
  destruct (dirty_sector _ _ _ Hinv Hj) as (y&?&?&?&?).
  eapply (co_uniq _ _ (bi_cache _ Hinv)); eauto; congruence.
Qed.

Section inv_facts.
Context (s : lstate) (Hinv : log_inv s).

Lemma inv_startn : Z.of_nat (startn s) = log_start (l_log s).
Proof. unfold startn. pose proof (li_start _ Hinv). lia. Qed.

Lemma inv_disk_length :
  (startn s + Z.to_nat (log_size (l_log s)) ≤ length (memdisk (l_bio s)))%nat.
Proof.
  pose proof (li_disk _ Hinv). pose proof inv_startn. unfold disksize in *.
  pose proof (li_size _ Hinv). lia.
Qed.

Lemma inv_logged_length : Z.of_nat (length (logged s)) = lh_n (l_log s).
Proof.
  unfold logged. pose proof (li_n _ Hinv). pose proof (li_secs _ Hinv) as Hs.
  rewrite length_take, Hs. unfold LOGSIZE in *. lia.
Qed.

Lemma inv_pend_fst : (pend s).*1 = logged s.
Proof.
  unfold pend. apply fst_zip. rewrite length_drop.
  pose proof inv_logged_length. pose proof inv_disk_length. pose proof (li_n _ Hinv). lia.
Qed.

Lemma inv_pend_length : length (pend s) = length (logged s).
Proof. by rewrite <- inv_pend_fst, length_fmap. Qed.

Lemma labs_view_length : length (t_view (labs s)) = startn s.
Proof.
  simpl. rewrite length_take, bview_length. pose proof inv_disk_length. lia.
Qed.

Lemma labs_inrange sec : t_inrange (labs s) sec ↔ 0 ≤ sec < log_start (l_log s).
Proof. unfold t_inrange. rewrite labs_view_length, inv_startn. done. Qed.

Lemma inv_pend_home : Forall (λ e, 0 ≤ e.1 < log_start (l_log s)) (pend s).
Proof.
  pose proof (li_home _ Hinv) as H. rewrite <- inv_pend_fst in H. by rewrite Forall_fmap in H.
Qed.

(** With no commit record on the disk, recovery changes nothing. *)
Lemma inv_recovered : recovered (startn s) (memdisk (l_bio s)) = t_home (labs s).
Proof.
  destruct (li_head _ Hinv) as (h & Hh & Hn). unfold recovered, disk_log. rewrite Hh, Hn. done.
Qed.
End inv_facts.

(** ** Steps of the cache that leave the disk and the log alone *)
Lemma log_bio_step s b' h v :
  log_inv s →
  bstep (l_bio s) b' h (dirty (l_bio s)) v (memdisk (l_bio s)) (disk_past (l_bio s)) →
  (∀ i sec, h !! i = Some sec → 0 ≤ sec < log_start (l_log s)) →
  (∀ sec, 0 ≤ sec < log_start (l_log s) → (∀ i, h !! i ≠ Some sec) →
    take (startn s) v !! Z.to_nat sec = apply_log (t_home (labs s)) (pend s) !! Z.to_nat sec) →
  log_inv (set_bio b' s) ∧
  labs (set_bio b' s) = set_held h (set_view (take (startn s) v) (labs s)) ∧
  lhist (set_bio b' s) = lhist s.
Proof.
  intros Hinv [Hb Hh Hd Hv Hk Hp] Hheld Hcoh.
  assert (pend (set_bio b' s) = pend s) as Hpend.
  { unfold pend, logged, startn. simpl. by rewrite Hk. }
  assert (labs (set_bio b' s) = set_held h (set_view (take (startn s) v) (labs s))) as Hlabs.
  { unfold labs, set_held, set_view. simpl. rewrite Hpend, Hh, Hv, Hk. done. }
  split; [|split; [done|]].
  - destruct Hinv as [? ? ? ? ? ? ? ? ? ? ? ? ? ? ?].
    split; try done; simpl; unfold disksize; rewrite ?Hk, ?Hd, ?Hh; try done.
    intros sec Hr Hf. rewrite Hlabs in *. unfold t_clean. simpl in *.
    apply Hcoh.
    + unfold t_inrange in Hr. simpl in Hr. rewrite length_take in Hr. unfold startn in Hr. lia.
    + exact Hf.
  - unfold lhist. simpl. rewrite Hk, Hp. done.
Qed.

Lemma inv_clean s sec :
  log_inv s → 0 ≤ sec < log_start (l_log s) → t_fresh (labs s) sec →
  take (startn s) (bview (l_bio s)) !! Z.to_nat sec
  = apply_log (t_home (labs s)) (pend s) !! Z.to_nat sec.
Proof. intros Hinv Hs Hf. apply (li_coh _ Hinv); [by apply labs_inrange|done]. Qed.

Lemma log_bread_ok s sec :
  log_inv s → t_inrange (labs s) sec → t_fresh (labs s) sec → t_room (labs s) →
  wp (io (bread ROOTDEV sec)) (λ i s', log_inv s' ∧ t_held (labs s) !! i = None ∧
    labs s' = set_held (<[i := sec]> (t_held (labs s))) (labs s) ∧ lhist s' = lhist s) s.
Proof.
  intros Hinv Hr Hf Hroom. apply labs_inrange in Hr; [|done].
  apply wp_io. eapply wp_mono.
  { apply bread_spec; [apply Hinv| |done|].
    - pose proof (li_disk _ Hinv). pose proof (li_size _ Hinv). lia.
    - left. unfold t_room in Hroom. simpl in Hroom. rewrite inv_pend_length in Hroom by done.
      pose proof (li_ndirty _ Hinv). lia. }
  intros i b' [Hi Hstep]. cbv beta in *.
  destruct (log_bio_step s b' _ _ Hinv Hstep) as (? & Hl & ?).
  - intros j sec' [[<- <-]|[? ?]]%lookup_insert_Some; [done|by eapply li_held].
  - intros sec' Hs' Hf'. apply inv_clean; [done|done|].
    intros j Hj. simpl in Hj. apply (Hf' j). rewrite lookup_insert_ne; [done|].
    intros <-. simpl in *. congruence.
  - done.
Qed.

Lemma log_bdata_ok s i sec :
  log_inv s → t_held (labs s) !! i = Some sec →
  ∃ d, t_view (labs s) !! Z.to_nat sec = Some d ∧ io (bdata i) s = Ok d s.
Proof.
  intros Hinv Hh. destruct (bdata_spec (l_bio s) i sec) as (d & Hd & Hrun & _); [apply Hinv|done|].
  exists d. split.
  - simpl. rewrite lookup_take_lt; [done|]. pose proof (li_held _ Hinv i sec Hh).
    unfold startn. lia.
  - unfold io, zoom. rewrite Hrun. by destruct s.
Qed.

Lemma log_bset_ok s i sec d :
  log_inv s → t_held (labs s) !! i = Some sec → block_wf d →
  wp (io (bset i d)) (λ _ s', log_inv s' ∧
    labs s' = set_view (<[Z.to_nat sec := d]> (t_view (labs s))) (labs s) ∧
    lhist s' = lhist s) s.
Proof.
  intros Hinv Hh Hd. pose proof (li_held _ Hinv i sec Hh) as Hsec.
  apply wp_io. eapply wp_mono; [by apply bset_spec; [apply Hinv| |]|].
  intros [] b' Hstep. cbv beta in *.
  destruct (log_bio_step s b' _ _ Hinv Hstep) as (? & Hl & ?).
  - apply Hinv.
  - intros sec' Hs' Hf'. rewrite take_insert_lt by (unfold startn; lia).
    rewrite list_lookup_insert_ne; [by apply inv_clean|].
    intros Heq. apply (Hf' i). etrans; [exact Hh|]. f_equal. lia.
  - split_and!; [done| |done]. rewrite Hl. unfold set_held, set_view. simpl.
    by rewrite take_insert_lt by (unfold startn; lia).
Qed.

Lemma log_brelse_ok s i sec :
  log_inv s → t_held (labs s) !! i = Some sec → t_clean (labs s) sec →
  wp (io (brelse i)) (λ _ s', log_inv s' ∧
    labs s' = set_held (delete i (t_held (labs s))) (labs s) ∧ lhist s' = lhist s) s.
Proof.
  intros Hinv Hh Hc. pose proof (li_held _ Hinv i sec Hh) as Hsec.
  assert (Z.to_nat sec < startn s)%nat as Hlt by (unfold startn; lia).
  apply wp_io. eapply wp_mono.
  { apply (brelse_spec _ _ sec); [apply Hinv|done|].
    destruct (decide (sec ∈ logged s)) as [Hin|Hin].
    - left. apply (li_dirty _ Hinv) in Hin as [j Hj].
      assert (i = j) as -> by (eapply dirty_held_same; [apply Hinv|done..]). eauto.
    - right. unfold t_clean in Hc. simpl in Hc. rewrite apply_log_lookup_ne in Hc.
      + by rewrite !lookup_take_lt in Hc.
      + apply Forall_forall. intros e He Heq. apply Hin.
        rewrite <- (inv_pend_fst s Hinv).
        pose proof (inv_pend_home s Hinv) as Hpos. rewrite Forall_forall in Hpos.
        specialize (Hpos e He). apply list_elem_of_fmap. exists e. split; [lia|done]. }
  intros [] b' Hstep. cbv beta in *.
  destruct (log_bio_step s b' _ _ Hinv Hstep) as (? & Hl & ?).
  - intros j sec' [_ ?]%lookup_delete_Some. by eapply li_held.
  - intros sec' Hs' Hf'. destruct (decide (sec' = sec)) as [->|Hne]; [exact Hc|].
    apply inv_clean; [done|done|]. intros j Hj. simpl in Hj. apply (Hf' j).
    rewrite lookup_delete_ne; [done|]. intros <-. simpl in *. congruence.
  - done.
Qed.

Lemma log_begin_ok s :
  log_inv s → t_active (labs s) = false →
  wp begin_trans (λ _ s', log_inv s' ∧ labs s' = set_active true (labs s) ∧
    lhist s' = lhist s) s.
Proof.
  intros Hinv Ha. unfold begin_trans. apply wp_bind, wp_gets. simpl in Ha.
  rewrite Ha. apply wp_modify. split_and!; [|done|done].
  destruct Hinv as [? ? ? ? ? ? ? ? ? ? ? ? ? ? ?]. by split.
Qed.

(** ** log_write *)
Fixpoint lpos (sec : Z) (L : list Z) : nat :=
  match L with
  | [] => 0
  | x :: L => if decide (x = sec) then 0 else S (lpos sec L)
  end.

Lemma log_find_lpos secs n sec i :
  Forall is_u32 (take n secs) → log_find secs n sec i = (i + lpos sec (take n secs))%nat.
Proof.
  revert n i. induction secs as [|x secs IH]; intros [|n] i Hf; simpl; try lia.
  simpl in Hf. apply Forall_cons in Hf as [Hx Hf]. unfold is_u32 in Hx.
  rewrite u32_small by lia. destruct (Z.eqb_spec x sec).
  - rewrite decide_True by done. lia.
  - rewrite decide_False, IH by done. lia.
Qed.

Lemma lpos_in sec L : sec ∈ L → L !! lpos sec L = Some sec.
Proof.
  induction L as [|x L IH]; [by intros ?%elem_of_nil|]. simpl.
  destruct (decide (x = sec)) as [->|Hne]; [done|]. intros [?|?]%elem_of_cons; [done|by apply IH].
Qed.
Lemma lpos_notin sec L : sec ∉ L → lpos sec L = length L.
Proof.
  induction L as [|x L IH]; [done|]. rewrite not_elem_of_cons. intros [? ?]. simpl.
  rewrite decide_False by done. f_equal. by apply IH.
Qed.

Lemma zip_log_insert L (B : list block) sec d :
  (length L < length B)%nat →
  zip (if decide (sec ∈ L) then L else L ++ [sec]) (<[lpos sec L := d]> B)
  = log_insert sec d (zip L B).
Proof.
  revert B. induction L as [|x L IH]; intros [|b B] Hl; simpl in Hl; try lia.
  - simpl. by destruct B.
  - cbn [lpos]. destruct (decide (x = sec)) as [->|Hne].
    + rewrite decide_True by left. simpl. by rewrite decide_True.
    + assert (∀ A (a b : A), (if decide (sec ∈ x :: L) then a else b) = if decide (sec ∈ L) then a else b) as Hd.
      { intros A a b0. destruct (decide (sec ∈ L)); [rewrite decide_True; [done|by right]|].
        rewrite decide_False; [done|]. by intros [?|?]%elem_of_cons. }
      rewrite Hd. simpl. rewrite (decide_False (P := x = sec)) by done.
      rewrite <- IH by lia. by destruct (decide (sec ∈ L)).
Qed.

(** Copying a held block into an unheld, clean sector and writing it out. *)
Lemma wp_copy_block {A} s b lsec sec d (rest : M lstate A) Q :
  bio_inv (l_bio s) → held (l_bio s) !! b = Some sec →
  bview (l_bio s) !! Z.to_nat sec = Some d →
  0 ≤ lsec < disksize (l_bio s) → (∀ i, held (l_bio s) !! i ≠ Some lsec) →
  (∀ i, dirty (l_bio s) !! i ≠ Some lsec) →
  (size (held (l_bio s)) + size (dirty (l_bio s)) < NBUF)%nat →
  (∀ b', bstep (l_bio s) b' (held (l_bio s)) (dirty (l_bio s))
      (<[Z.to_nat lsec := d]> (bview (l_bio s))) (<[Z.to_nat lsec := d]> (memdisk (l_bio s)))
      (memdisk (l_bio s) :: disk_past (l_bio s)) → wp rest Q (set_bio b' s)) →
  wp (lbuf <- io (bread ROOTDEV lsec) ;; x <- io (bdata b) ;; io (bset lbuf x) ;;;
      io (bwrite lbuf) ;;; io (brelse lbuf) ;;; rest) Q s.
Proof.
  intros Hinv Hb Hd Hl Hfree Hnd Hroom Hrest. destruct s as [s0 lg]. simpl in *.
  assert (Z.to_nat lsec < length (memdisk s0))%nat as Hlt by (unfold disksize in Hl; lia).
  apply wp_bind, wp_io. eapply wp_mono; [apply bread_spec; [done..|by left]|].
  intros l s1 [Hl0 [I1 H1 D1 V1 K1 P1]]. cbv beta in *. simpl in *.
  assert (l ≠ b) as Hlb by (intros ->; congruence).
  destruct (bdata_spec s1 b sec) as (d' & Hd' & Hrun & Hwf); [done|by rewrite H1, lookup_insert_ne|].
  rewrite V1 in Hd'. assert (d' = d) as -> by congruence.
  apply wp_bind, wp_io. unfold wp at 1. simpl. rewrite Hrun.
  apply wp_bind, wp_io. eapply wp_mono.
  { simpl. apply (bset_spec _ _ lsec); [done| |done]. by rewrite H1, lookup_insert_eq. }
  intros [] s2 [I2 H2 D2 V2 K2 P2]. cbv beta in *. simpl in *.
  apply wp_bind, wp_io. eapply wp_mono.
  { simpl. apply (bwrite_spec _ _ lsec); [done|]. by rewrite H2, H1, lookup_insert_eq. }
  intros [] s3 (d3 & Hd3 & [I3 H3 D3 V3 K3 P3]). cbv beta in *. simpl in *.
  rewrite V2, V1, list_lookup_insert_eq in Hd3 by (by rewrite bview_length).
  injection Hd3 as <-.
  apply wp_bind, wp_io. eapply wp_mono.
  { simpl. apply (brelse_spec _ _ lsec); [done|by rewrite H3, H2, H1, lookup_insert_eq|].
    right. rewrite K3, V3, V2, V1, K2, K1.
    by rewrite !list_lookup_insert_eq by (rewrite ?bview_length; done). }
  intros [] s4 [I4 H4 D4 V4 K4 P4]. cbv beta in *. simpl in *. apply Hrest.
  assert (dirty s0 !! l = None) as Hdl.
  { destruct (dirty s0 !! l) as [y|] eqn:Hy; [|done]. exfalso.
    rewrite <- D1 in Hy. destruct (dirty_sector s1 l y I1 Hy) as (x & Hx & Hxc & Hxs & _).
    destruct (held_sector s1 l lsec I1) as (x' & _ & Hxc' & Hxs' & _);
      [by rewrite H1, lookup_insert_eq|].
    apply (Hnd l). rewrite <- D1, Hy. congruence. }
  split; [done|..].
  - rewrite H4, H3, H2, H1. by rewrite delete_insert_id.
  - rewrite D4, D3, D2, D1. by rewrite delete_id.
  - by rewrite V4, V3, V2, V1.
  - by rewrite K4, K3, K2, K1.
  - by rewrite P4, P3, P2, P1, K2, K1.
Qed.

Lemma lpos_le sec L : (lpos sec L ≤ length L)%nat.
Proof. induction L; simpl; [lia|]. case_decide; lia. Qed.

Lemma lpos_lt sec L : (lpos sec L < length L)%nat ↔ sec ∈ L.
Proof.
  split; intros H.
  - destruct (decide (sec ∈ L)) as [|Hn]; [done|]. rewrite lpos_notin in H by done. lia.
  - apply lpos_in, lookup_lt_Some in H. done.
Qed.

Lemma take_log_insert secs n sec :
  (n < length secs)%nat →
  take (if decide (lpos sec (take n secs) = n) then S n else n)
       (<[lpos sec (take n secs) := sec]> secs)
  = if decide (sec ∈ take n secs) then take n secs else take n secs ++ [sec].
Proof.
  intros Hn. assert (length (take n secs) = n) as Hl by (rewrite length_take; lia).
  destruct (decide (sec ∈ take n secs)) as [Hin|Hin].
  - apply lpos_in in Hin as Hp. apply lpos_lt in Hin. rewrite decide_False by lia.
    rewrite take_insert_lt by lia. by apply list_insert_id.
  - rewrite lpos_notin, Hl, decide_True by done. erewrite take_S_r.
    + rewrite take_insert_ge by lia. done.
    + by apply list_lookup_insert_eq.
Qed.

Lemma in_dirty_held b i sec :
  bio_inv b → held b !! i = Some sec → (∃ j, dirty b !! j = Some sec) → dirty b !! i = Some sec.
Proof. intros Hinv Hi [j Hj]. by rewrite (dirty_held_same b i j sec). Qed.

Lemma dirty_held_sector b i sec x :
  bio_inv b → held b !! i = Some sec → dirty b !! i = Some x → sec = x.
Proof.
  intros Hinv Hi Hj. destruct (held_sector _ _ _ Hinv Hi) as (y&?&?&?&?).
  destruct (dirty_sector _ _ _ Hinv Hj) as (z&?&?&?&?). congruence.
Qed.

(** The state after log_write, assembled from the state before it. *)
Definition log_write_state (b' : bio) (sec : Z) (s : lstate) : lstate :=
  let p := lpos sec (logged s) in
  mkL b' (let lg := set_sectors (<[p := sec]> (lh_sector (l_log s))) (l_log s) in
          if decide (p = length (logged s)) then set_n (lh_n lg + 1) lg else lg).

Section log_write.
Context (s : lstate) (b' : bio) (i : nat) (sec : Z) (d : block).
Context (Hinv : log_inv s) (Hh : held (l_bio s) !! i = Some sec).
Context (Hd : t_view (labs s) !! Z.to_nat sec = Some d).
Context (Hcap : lh_n (l_log s) < t_cap (labs s)).
Context (Hroom : (size (held (l_bio s)) + length (logged s) < NBUF)%nat).
Let lsec : nat := (startn s + lpos sec (logged s) + 1)%nat.
Let s' : lstate := log_write_state b' sec s.
Context (Hstep : bstep (l_bio s) b' (held (l_bio s)) (<[i := sec]> (dirty (l_bio s)))
  (<[lsec := d]> (bview (l_bio s))) (<[lsec := d]> (memdisk (l_bio s)))
  (memdisk (l_bio s) :: disk_past (l_bio s))).

Lemma lw_logged :
  logged s' = if decide (sec ∈ logged s) then logged s else logged s ++ [sec].
Proof.
  pose proof (inv_logged_length s Hinv) as Hl. pose proof (li_n _ Hinv) as Hn.
  pose proof (li_secs _ Hinv) as Hs.
  unfold s', log_write_state, logged. simpl in Hcap.
  assert (length (logged s) = Z.to_nat (lh_n (l_log s))) as Hl' by lia.
  rewrite <- take_log_insert by (unfold LOGSIZE in *; lia). fold (logged s). rewrite Hl'.
  destruct (decide _); simpl; f_equal; lia.
Qed.

Lemma lw_startn : startn s' = startn s.
Proof. unfold s', log_write_state, startn. simpl. by destruct (decide _). Qed.

Lemma lw_log :
  log_start (l_log s') = log_start (l_log s) ∧ log_size (l_log s') = log_size (l_log s) ∧
  log_busy (l_log s') = log_busy (l_log s) ∧ log_dev (l_log s') = log_dev (l_log s) ∧
  lh_n (l_log s') = Z.of_nat (length (logged s')) ∧ length (lh_sector (l_log s')) = 10%nat.
Proof.
  pose proof (inv_logged_length s Hinv) as Hl. pose proof (li_secs _ Hinv) as Hs.
  rewrite lw_logged. unfold s', log_write_state.
  destruct (decide (lpos sec (logged s) = _)) as [Hp|Hp];
    destruct (decide (sec ∈ logged s)) as [Hin|Hin]; simpl; rewrite ?length_insert, ?length_app;
    simpl; split_and!; try done; try lia.
  - apply lpos_lt in Hin. lia.
  - apply lpos_notin in Hin. lia.
Qed.

Lemma lw_pend : pend s' = log_insert sec d (pend s).
Proof.
  destruct Hstep as [_ _ _ _ Hk _]. unfold pend. rewrite lw_startn, lw_logged. simpl.
  unfold s', log_write_state. simpl. rewrite Hk, <- zip_log_insert.
  - rewrite drop_insert_ge by (unfold lsec; lia). do 2 f_equal. unfold lsec. lia.
  - rewrite length_drop. pose proof (inv_disk_length s Hinv).
    pose proof (inv_logged_length s Hinv). simpl in Hcap. lia.
Qed.

Lemma lw_labs : labs s' = set_pend (log_insert sec d (t_pend (labs s))) (labs s).
Proof.
  destruct lw_log as (_ & Hsz & Hb & _). destruct Hstep as [_ Hh' _ Hv Hk _].
  unfold labs, set_pend. cbn [t_view t_home t_pend t_held t_active t_cap].
  rewrite lw_pend, lw_startn, Hsz, Hb. unfold s', log_write_state. cbn [l_bio].
  rewrite Hh', Hv, Hk, !take_insert_ge by (unfold lsec; lia). done.
Qed.

Lemma lw_head : ∃ h, memdisk (l_bio s') !! startn s' = Some h ∧ get_loghead_n h = 0.
Proof.
  destruct Hstep as [_ _ _ _ Hk _]. destruct (li_head _ Hinv) as (h & Hs & Hn).
  exists h. split; [|done]. rewrite lw_startn. unfold s', log_write_state. cbn [l_bio].
  rewrite Hk, list_lookup_insert_ne by (unfold lsec; lia). done.
Qed.

Lemma lw_in x : x ∈ logged s' ↔ x ∈ logged s ∨ x = sec.
Proof.
  rewrite lw_logged. destruct (decide (sec ∈ logged s)) as [Hin|Hin].
  - split; [by left|]. by intros [?| ->].
  - rewrite elem_of_app, list_elem_of_singleton. done.
Qed.

Lemma lw_dirty x : x ∈ logged s' ↔ ∃ j, dirty b' !! j = Some x.
Proof.
  destruct Hstep as [_ _ Hdd _ _ _]. rewrite lw_in, Hdd. split.
  - intros [Hx| ->]; [|by exists i; rewrite lookup_insert_eq].
    apply (li_dirty _ Hinv) in Hx as [j Hj]. destruct (decide (i = j)) as [<-|Hne].
    + exists i. rewrite lookup_insert_eq. f_equal.
      by apply (dirty_held_sector (l_bio s) i); [apply Hinv|..].
    + exists j. by rewrite lookup_insert_ne.
  - intros [j [[_ <-]|[_ Hj]]%lookup_insert_Some]; [by right|].
    left. apply (li_dirty _ Hinv). eauto.
Qed.

Lemma lw_ndirty : (size (dirty b') ≤ length (logged s'))%nat.
Proof.
  destruct Hstep as [_ _ Hdd _ _ _]. rewrite lw_logged, Hdd.
  pose proof (li_ndirty _ Hinv) as Hn. destruct (decide (sec ∈ logged s)) as [Hin|Hin].
  - rewrite insert_id; [done|]. apply in_dirty_held; [apply Hinv|done|].
    by apply (li_dirty _ Hinv).
  - rewrite length_app. rewrite map_size_insert. destruct (dirty (l_bio s) !! i); simpl; lia.
Qed.

Lemma lw_coh x : t_inrange (labs s') x → t_fresh (labs s') x → t_clean (labs s') x.
Proof.
  rewrite lw_labs. intros Hr Hf. change (t_inrange (labs s) x) in Hr.
  change (t_fresh (labs s) x) in Hf. pose proof (li_coh _ Hinv x Hr Hf) as Hc.
  unfold t_clean in *. cbn [t_view t_home t_pend set_pend].
  pose proof (li_held _ Hinv i sec Hh). apply labs_inrange in Hr; [|done].
  rewrite apply_log_insert.
  - rewrite list_lookup_insert_ne; [done|]. intros Heq. apply (Hf i).
    etrans; [exact Hh|]. f_equal. lia.
  - simpl. rewrite inv_pend_fst by done. apply Hinv.
  - simpl. rewrite inv_pend_fst by done. eapply Forall_impl; [apply Hinv|]. simpl. lia.
  - lia.
Qed.

Lemma lw_inv : log_inv s'.
Proof.
  destruct lw_log as (Hst & Hsz & Hb & Hdev & Hn & Hlen).
  pose proof lw_logged as HL. pose proof (inv_logged_length s Hinv) as Hl.
  pose proof lw_head as Hhd. pose proof lw_coh as Hcoh.
  pose proof lw_dirty as Hdt. pose proof lw_ndirty as Hnd.
  pose proof (li_held _ Hinv) as Hheld. pose proof (Hheld i sec Hh) as Hsec.
  destruct Hstep as [Hb' Hh' Hd' Hv Hk Hp]. destruct Hinv as [? ? ? ? ? ? Hln Hnod Hhome ? ? ? ? ? ?].
  split; rewrite ?Hst, ?Hsz; try done.
  - by rewrite Hdev.
  - change (l_bio s') with b'. unfold disksize in *. by rewrite Hk, length_insert.
  - rewrite Hn, HL. simpl in Hcap. destruct (decide _); rewrite ?length_app; simpl; lia.
  - rewrite HL. destruct (decide (sec ∈ logged s)); [done|].
    apply NoDup_app. split_and!; [done| |apply NoDup_singleton].
    intros x Hx ->%list_elem_of_singleton. done.
  - rewrite HL. destruct (decide (sec ∈ logged s)); [done|]. apply Forall_app. split; [done|].
    by apply Forall_singleton.
  - rewrite HL. assert (size (held (l_bio s)) ≠ 0%nat).
    { intros H0%map_size_empty_inv. rewrite H0 in Hh. by rewrite lookup_empty in Hh. }
    destruct (decide _); rewrite ?length_app; simpl; lia.
  - change (l_bio s') with b'. by rewrite Hh'.
Qed.

Lemma lw_hist : lhist s' = t_home (labs s) :: lhist s.
Proof.
  pose proof (inv_recovered _ lw_inv) as Hr. rewrite lw_labs in Hr.
  destruct Hstep as [_ _ _ _ _ Hp]. unfold lhist. rewrite fmap_cons, lw_startn.
  change (l_bio s') with b' in *. rewrite Hp, lw_startn in *. f_equal. exact Hr.
Qed.
End log_write.

Lemma log_find_logged s sec :
  log_inv s →
  log_find (lh_sector (l_log s)) (Z.to_nat (lh_n (l_log s))) sec 0 = lpos sec (logged s).
Proof.
  intros Hinv. apply log_find_lpos. eapply Forall_impl; [apply Hinv|].
  pose proof (li_disk _ Hinv). pose proof (li_size _ Hinv). intros x Hx.
  unfold is_u32. simpl in Hx. lia.
Qed.

(** The tail of log_write: the count and the flag. *)
Lemma log_write_tail s b1 i sec Q :
  log_inv s → bio_inv b1 → held b1 !! i = Some sec →
  (∀ b', bstep b1 b' (held b1) (<[i := sec]> (dirty b1)) (bview b1) (memdisk b1) (disk_past b1) →
    Q tt (log_write_state b' sec s)) →
  wp ((if Z.of_nat (lpos sec (logged s)) =? lh_n (l_log s)
       then modlog (set_n (lh_n (l_log s) + 1)) else ret tt) ;;; io (mark_dirty i)) Q
     (mkL b1 (set_sectors (<[lpos sec (logged s) := sec]> (lh_sector (l_log s))) (l_log s))).
Proof.
  intros Hinv Hb1 Hi HQ. pose proof (inv_logged_length s Hinv) as Hl.
  assert (∀ lg', lg' = l_log (log_write_state b1 sec s) →
    wp (io (mark_dirty i)) Q (mkL b1 lg')) as Htail.
  { intros lg' Hlg. apply wp_io. eapply wp_mono; [by apply mark_dirty_spec|].
    intros [] b' Hb. apply HQ in Hb. by subst lg'. }
  wstep1. unfold log_write_state in Htail.
  destruct (Z.eqb_spec (Z.of_nat (lpos sec (logged s))) (lh_n (l_log s))) as [He|He].
  - unfold modlog. wstep1. apply Htail. simpl. rewrite decide_True by lia. done.
  - wstep1. apply Htail. simpl. rewrite decide_False by lia. done.
Qed.

Lemma log_write_ok s i sec d :
  log_inv s → t_held (labs s) !! i = Some sec →
  t_view (labs s) !! Z.to_nat sec = Some d → t_active (labs s) = true →
  Z.of_nat (length (t_pend (labs s))) < t_cap (labs s) → t_room (labs s) →
  wp (log_write i) (λ _ s', log_inv s' ∧
    labs s' = set_pend (log_insert sec d (t_pend (labs s))) (labs s) ∧
    ∃ new, lhist s' = new ++ lhist s ∧ Forall (eq (t_home (labs s))) new) s.
Proof.
  intros Hinv Hh Hd Hact Hcap Hroom. change (held (l_bio s) !! i = Some sec) in Hh.
  unfold t_room in Hroom. change (t_pend (labs s)) with (pend s) in Hcap, Hroom.
  rewrite inv_pend_length in Hcap, Hroom by done.
  pose proof (inv_logged_length s Hinv) as Hl. rewrite Hl in Hcap.
  pose proof (li_n _ Hinv) as Hn. pose proof (li_secs _ Hinv) as Hs.
  pose proof (li_held _ Hinv i sec Hh) as Hsec. pose proof (li_disk _ Hinv) as Hdisk.
  pose proof (lpos_le sec (logged s)) as Hp. pose proof (inv_startn s Hinv) as Hst.
  assert (lh_n (l_log s) < LOGSIZE ∧ lh_n (l_log s) < log_size (l_log s) - 1) as [Hn1 Hn2]
    by (simpl in Hcap; lia).
  unfold log_write. wstep1. apply wp_gets. cbv beta.
  rewrite (proj2 (Z.leb_gt LOGSIZE _)), (proj2 (Z.leb_gt (log_size (l_log s) - 1) _)) by lia.
  simpl orb. cbv iota. simpl in Hact. destruct (log_busy (l_log s) =? 0); [done|]. clear Hact.
  destruct (held_buf (l_bio s) i sec) as (x & Hi & Hx & Hbusy & Hxs & Hdev & Hok); [apply Hinv|done|].
  wstep1. apply wp_io. eapply wp_getb; [done|].
  replace (set_bio (l_bio s) s) with s by (by destruct s).
  rewrite Hxs, Hdev, log_find_logged by done. cbv zeta.
  rewrite aset_nat, s32_small, u32_small by (unfold LOGSIZE in *; lia).
  wstep1. wstep1. wstep1. unfold modlog. wstep1.
  apply (wp_copy_block _ _ _ sec d); simpl; [apply Hinv|done| | | | | |].
  - simpl in Hd. rewrite lookup_take_lt in Hd by lia. done.
  - lia.
  - intros j Hj. pose proof (li_held _ Hinv j _ Hj). lia.
  - intros j Hj. assert (log_start (l_log s) + Z.of_nat (lpos sec (logged s)) + 1 ∈ logged s) as Hin
      by (apply (li_dirty _ Hinv); eauto).
    pose proof (li_home _ Hinv) as Hf. rewrite Forall_forall in Hf. apply Hf in Hin. lia.
  - pose proof (li_ndirty _ Hinv). simpl in Hroom. lia.
  - intros b1 [I1 H1 D1 V1 K1 P1]. simpl in *. unfold set_bio. simpl.
    replace (Z.to_nat (log_start (l_log s) + Z.of_nat (lpos sec (logged s)) + 1))
      with (startn s + lpos sec (logged s) + 1)%nat in * by lia.
    apply log_write_tail; [done|done|by rewrite H1|].
    rewrite H1, D1, V1, K1, P1. intros b' Hb'.
    assert (bstep (l_bio s) b' (held (l_bio s)) (<[i:=sec]> (dirty (l_bio s)))
      (<[(startn s + lpos sec (logged s) + 1)%nat := d]> (bview (l_bio s)))
      (<[(startn s + lpos sec (logged s) + 1)%nat := d]> (memdisk (l_bio s)))
      (memdisk (l_bio s) :: disk_past (l_bio s))) as Hst' by (by destruct Hb').
    split_and!; [by eapply lw_inv|by eapply lw_labs|].
    exists [t_home (labs s)]. split; [by eapply lw_hist|]. by constructor.
Qed.
