(* ===== verification/Commit.v ===== *)
(** * Commit and recovery

    The rest of log.c: what write_head and install_trans do to the disk, that
    commit_trans moves from the old to the new file-system contents in one
    disk write, that initlog after a crash restores one of the two, and the
    instance of [BlockStore] built of bio.c and log.c. *)
From stdpp Require Import base list gmap numbers option strings sets.
From Stdlib Require Import ZArith Lia.
From S2P Require Import Prelude Layout Bio BioSpec BlockStore Log LogSpec.
Open Scope Z_scope.

(** ** The header sector *)
(** [h] records the first [k] sectors of [secs]. *)
Definition head_sectors (h : block) (secs : list Z) (k : nat) : Prop :=
  block_wf h ∧ ∀ j x, (j < k)%nat → secs !! j = Some x → get_loghead_sector h j = x.

Definition sector_ok (x : Z) : Prop := 0 ≤ x < 2 ^ 31.

Lemma s32_u32_small x : sector_ok x → s32 (u32 x) = x.
Proof. unfold sector_ok. intros. rewrite u32_small, s32_small by lia. done. Qed.

Lemma head_put_n h n : block_wf h → sector_ok n → get_loghead_n (put_u32 h 0 (u32 n)) = n.
Proof.
  intros [Hl _] Hn. unfold get_loghead_n. rewrite u32_at_put_same.
  - by apply s32_u32_small.
  - lia.
  - unfold is_u32. pose proof (u32_range n). lia.
Qed.

Lemma head_put_sector h secs k x :
  (k < 10)%nat → head_sectors h secs k → secs !! k = Some x → sector_ok x →
  head_sectors (put_u32 h (4 + 4 * k) (u32 x)) secs (S k) ∧
  get_loghead_n (put_u32 h (4 + 4 * k) (u32 x)) = get_loghead_n h.
Proof.
  intros Hk [Hwf Hs] Hx Hok. pose proof Hwf as [Hl _]. split; [split|].
  - apply put_u32_wf; [lia|done].
  - intros j y Hj Hy. unfold get_loghead_sector. destruct (decide (j = k)) as [->|Hne].
    + rewrite u32_at_put_same; [|lia|].
      * rewrite s32_u32_small by done. congruence.
      * unfold is_u32. pose proof (u32_range x). lia.
    + rewrite u32_at_put_ne by lia. apply Hs; [lia|done].
  - unfold get_loghead_n. by rewrite u32_at_put_ne by lia.
Qed.

(** ** write_head *)
Lemma wp_write_head_loop s l hd Q :
  let b := l_bio s in let lg := l_log s in
  bio_inv b → held b !! l = Some (log_start lg) → bview b !! startn s = Some hd →
  0 ≤ lh_n lg ≤ LOGSIZE → length (lh_sector lg) = 10%nat → Forall sector_ok (logged s) →
  block_wf hd →
  (∀ b' h, head_sectors h (logged s) (Z.to_nat (lh_n lg)) → get_loghead_n h = get_loghead_n hd →
    bstep b b' (held b) (dirty b) (<[startn s := h]> (bview b)) (memdisk b) (disk_past b) →
    Q tt (set_bio b' s)) →
  wp (mfor (seq 0 (Z.to_nat (lh_n lg))) (write_head_one l)) Q s.
Proof.
  intros b lg Hinv Hl Hhd Hn Hlen Hsecs Hwf HQ. unfold LOGSIZE in Hn.
  apply (wp_mfor (λ k s', ∃ b' h, s' = set_bio b' s ∧ head_sectors h (logged s) k ∧
    get_loghead_n h = get_loghead_n hd ∧ bstep b b' (held b) (dirty b)
      (<[startn s := h]> (bview b)) (memdisk b) (disk_past b))).
  - exists b, hd. split_and!; [by destruct s|split; [done|lia]|done|].
    split; try done. by rewrite list_insert_id.
  - intros k s1 Hk (b1 & h & -> & Hh & Hhn & [I1 H1 D1 V1 K1 P1]).
    destruct (lookup_lt_is_Some_2 (lh_sector lg) k) as [x Hx]; [lia|].
    assert (logged s !! k = Some x) as Hx'
      by (unfold logged; rewrite lookup_take_lt by (fold lg; lia); done).
    unfold write_head_one. wstep1. apply wp_gets. simpl.
    apply wp_bind. fold lg. rewrite aget_nat, Hx. wstep1.
    destruct (bdata_spec b1 l (log_start lg)) as (h' & Hh' & Hrun & Hwf'); [done|by rewrite H1|].
    fold (startn s) in Hh'. rewrite V1, list_lookup_insert_eq in Hh' by (by apply lookup_lt_Some in Hhd).
    injection Hh' as <-.
    apply wp_bind, wp_io. unfold wp at 1. simpl. rewrite Hrun.
    assert (sector_ok x) as Hxo by (eapply Forall_lookup_1; done).
    destruct (head_put_sector h (logged s) k x) as [Hnew Hnn]; [lia|done..|].
    apply wp_io. eapply wp_mono.
    { simpl. apply (bset_spec _ _ (log_start lg)); [done|by rewrite H1|apply Hnew]. }
    intros [] b2 [I2 H2 D2 V2 K2 P2]. cbv beta in *.
    exists b2, (put_u32 h (4 + 4 * k) (u32 x)).
    split_and!; [done|done|by rewrite Hnn|]. split; try done; try congruence.
    fold (startn s) in V2. rewrite V2, V1. by rewrite list_insert_insert_eq.
  - intros s1 (b' & h & -> & Hh & Hhn & Hstep). by eapply HQ.
Qed.

Lemma wp_write_head s Q :
  let b := l_bio s in let lg := l_log s in
  bio_inv b → log_dev lg = ROOTDEV → 0 ≤ log_start lg < disksize b → disksize b < 2 ^ 31 →
  (∀ i, held b !! i ≠ Some (log_start lg)) → (∀ i, dirty b !! i ≠ Some (log_start lg)) →
  (size (held b) + size (dirty b) < NBUF)%nat →
  0 ≤ lh_n lg ≤ LOGSIZE → length (lh_sector lg) = 10%nat → Forall sector_ok (logged s) →
  (∀ b' h, head_sectors h (logged s) (Z.to_nat (lh_n lg)) → get_loghead_n h = lh_n lg →
    bstep b b' (held b) (dirty b) (<[startn s := h]> (bview b)) (<[startn s := h]> (memdisk b))
      (memdisk b :: disk_past b) → Q tt (set_bio b' s)) →
  wp write_head Q s.
Proof.
  intros b lg Hinv Hdev Hst Hsz Hfree Hnd Hroom Hn Hlen Hsecs HQ.
  assert (startn s < length (memdisk b))%nat as Hlt by (unfold startn, disksize in *; fold lg; lia).
  unfold write_head. wstep1. apply wp_gets. fold lg. rewrite Hdev, u32_small by lia.
  apply wp_bind, wp_io. eapply wp_mono; [apply bread_spec; [done..|by left]|].
  intros l b1 [Hl0 [I1 H1 D1 V1 K1 P1]]. cbv beta in *. fold b in Hl0, H1, D1, V1, K1, P1.
  assert (held b1 !! l = Some (log_start lg)) as Hl1 by (by rewrite H1, lookup_insert_eq).
  destruct (bdata_spec b1 l _ I1 Hl1) as (h0 & Hh0 & Hrun & Hwf).
  apply wp_bind, wp_io. unfold wp at 1. simpl. rewrite Hrun.
  assert (dirty b !! l = None) as Hdl.
  { destruct (dirty b !! l) as [y|] eqn:Hy; [|done]. exfalso. apply (Hnd l). rewrite Hy.
    f_equal. symmetry. apply (dirty_held_sector b1 l); [done..|by rewrite D1]. }
  set (hd := put_u32 h0 0 (u32 (lh_n lg))).
  assert (block_wf hd) as Hhd by (apply put_u32_wf; [lia|done]).
  assert (get_loghead_n hd = lh_n lg) as Hhn
    by (apply head_put_n; [done|unfold sector_ok, LOGSIZE in *; lia]).
  apply wp_bind, wp_io. eapply wp_mono; [by apply (bset_spec _ _ (log_start lg))|].
  intros [] b2 [I2 H2 D2 V2 K2 P2]. cbv beta in *. cbn [l_bio set_bio] in H2, D2, V2, K2, P2.
  fold (startn s) in V2. rewrite V1 in V2.
  apply wp_bind. apply (wp_write_head_loop (set_bio b2 s) l hd); try done; simpl.
  { by rewrite H2. }
  { change (startn (set_bio b2 s)) with (startn s). rewrite V2.
    by rewrite list_lookup_insert_eq by (by rewrite bview_length). }
  intros b3 h Hh Hhn' [I3 H3 D3 V3 K3 P3]. change (startn (set_bio b2 s)) with (startn s) in *.
  apply wp_bind, wp_io. eapply wp_mono.
  { apply (bwrite_spec _ _ (log_start lg)); [done|]. simpl. by rewrite H3, H2. }
  simpl. fold (startn s). rewrite V3, V2, list_insert_insert_eq.
  intros [] b4 (d & Hd & [I4 H4 D4 V4 K4 P4]). cbv beta in *.
  rewrite list_lookup_insert_eq in Hd by (by rewrite bview_length). injection Hd as <-.
  apply wp_io. eapply wp_mono.
  { apply (brelse_spec _ _ (log_start lg)); [done|simpl; by rewrite H4, H3, H2|].
    right. simpl. fold (startn s). rewrite K4, V4, K3, K2, K1.
    by rewrite !list_lookup_insert_eq by (by rewrite ?bview_length). }
  intros [] b5 [I5 H5 D5 V5 K5 P5]. cbv beta in *. simpl in *.
  eapply HQ; [exact Hh|congruence|]. split; [done|..].
  - rewrite H5, H4, H3, H2, H1. by rewrite delete_insert_id.
  - rewrite D5, D4, D3, D2, D1. by rewrite delete_id.
  - by rewrite V5, V4.
  - by rewrite K5, K4, K3, K2, K1.
  - by rewrite P5, P4, K3, K2, K1, P3, P2, P1.
Qed.

(** ** install_trans *)
Lemma clean_view b sec :
  bio_inv b → 0 ≤ sec → (∀ i, held b !! i ≠ Some sec) → (∀ i, dirty b !! i ≠ Some sec) →
  bview b !! Z.to_nat sec = memdisk b !! Z.to_nat sec.
Proof.
  intros Hinv Hsec Hh Hd. unfold bview. rewrite lookup_cview, Z2Nat.id by done.
  destruct (cached _ _) as [x|] eqn:Hx; simpl; [|by destruct (memdisk b !! _)].
  apply cached_Some in Hx as (i & Hi & Hx & Hdev & Hs).
  destruct (bi_cache _ Hinv) as [_ Hok _]. specialize (Hok i x Hi Hx).
  pose proof (bo_clean _ _ Hok Hdev) as Hc. rewrite Hs in Hc. rewrite Hc; [done|..].
  - destruct (busy x) eqn:E; [|done]. exfalso. apply (Hh i). apply lookup_cmap_Some. eauto.
  - destruct (dirtyb x) eqn:E; [|done]. exfalso. apply (Hd i). apply lookup_cmap_Some. eauto.
Qed.

(** The dirty buffers left when the sectors in [L] have been installed. *)
Definition undirty (L : list Z) (D : gmap nat Z) : gmap nat Z :=
  filter (λ ix, ix.2 ∉ L) D.

Lemma undirty_nil D : undirty [] D = D.
Proof. apply map_filter_id. intros i x _. apply not_elem_of_nil. Qed.

Lemma undirty_size L D : (size (undirty L D) ≤ size D)%nat.
Proof. apply map_subseteq_size, map_filter_subseteq. Qed.

Lemma undirty_delete b i sec L D :
  bio_inv b → held b !! i = Some sec → dirty b = undirty L D →
  delete i (dirty b) = undirty (L ++ [sec]) D.
Proof.
  intros Hinv Hi HD. apply map_eq. intros j. apply option_eq. intros x.
  rewrite lookup_delete_Some, HD. unfold undirty. rewrite !map_lookup_filter_Some. simpl.
  rewrite elem_of_app, list_elem_of_singleton. split.
  - intros (Hne & Hj & Hx). split; [done|]. intros [?| ->]; [done|]. apply Hne.
    apply (dirty_held_same b i j sec); [done..|]. rewrite HD. by apply map_lookup_filter_Some.
  - intros (Hj & Hx). split; [|split; [done|]].
    + intros <-. apply Hx. right. symmetry. apply (dirty_held_sector b i sec x Hinv Hi).
      rewrite HD. apply map_lookup_filter_Some. split; [done|]. intros ?. apply Hx. by left.
    + intros ?. apply Hx. by left.
Qed.

(** One iteration copies the log block [blk] to its home sector. *)
Lemma wp_install_one s k sec blk L D Q :
  let b := l_bio s in let lg := l_log s in let lsec := log_start lg + Z.of_nat k + 1 in
  bio_inv b → log_dev lg = ROOTDEV → disksize b < 2 ^ 31 →
  0 ≤ log_start lg → lsec < disksize b → held b = ∅ → (∀ i, dirty b !! i ≠ Some lsec) →
  memdisk b !! Z.to_nat lsec = Some blk →
  lh_sector lg !! k = Some sec → 0 ≤ sec < log_start lg →
  dirty b = undirty L D → (size (dirty b) < NBUF)%nat →
  (1 + size (dirty b) < NBUF)%nat ∨ (∃ j, dirty b !! j = Some sec) →
  (∀ b', bstep b b' ∅ (undirty (L ++ [sec]) D)
    (<[Z.to_nat sec := blk]> (bview b)) (<[Z.to_nat sec := blk]> (memdisk b))
    (memdisk b :: disk_past b) → Q tt (set_bio b' s)) →
  wp (install_one k) Q s.
Proof.
  intros b lg lsec Hinv Hdev Hsz Hst Hls Hfree Hnd Hblk Hsec Hr HD Hroom Hroom2 HQ.
  assert (∀ i x, held b !! i ≠ Some x) as Hnh by (intros i x; by rewrite Hfree, lookup_empty).
  assert (0 ≤ sec < disksize b ∧ (Z.to_nat sec < length (memdisk b))%nat) as [Hsr Hsl]
    by (unfold disksize in *; lia).
  rewrite <- clean_view in Hblk by (try done; lia).
  unfold install_one. wstep1. apply wp_gets. fold lg. rewrite Hdev, u32_small by lia. fold lsec.
  apply wp_bind, wp_io. eapply wp_mono.
  { apply bread_spec; [done|fold b; lia|done|left; fold b; rewrite Hfree, map_size_empty; lia]. }
  intros l b1 [Hl0 [I1 H1 D1 V1 K1 P1]]. cbv beta in *. fold b in Hl0, H1, D1, V1, K1, P1.
  rewrite Hfree, insert_empty in H1.
  apply wp_bind. rewrite aget_nat, Hsec. wstep1. rewrite u32_small by lia.
  apply wp_bind, wp_io. eapply wp_mono.
  { cbn [l_bio set_bio]. apply bread_spec; [done|unfold disksize in *; rewrite K1; lia| |].
    - intros i. rewrite H1. intros [_ ?]%lookup_singleton_Some. lia.
    - rewrite H1, D1, map_size_singleton. destruct Hroom2; [left; lia|by right]. }
  cbn [l_bio set_bio]. intros dd b2 [Hd0 [I2 H2 D2 V2 K2 P2]]. cbv beta in *.
  assert (l ≠ dd) as Hne by (intros <-; by rewrite H1, lookup_singleton_eq in Hd0).
  assert (held b2 !! dd = Some sec) as Hdd by (by rewrite H2, lookup_insert_eq).
  assert (held b2 !! l = Some lsec) as Hll
    by (by rewrite H2, lookup_insert_ne, H1, lookup_singleton_eq).
  destruct (bdata_spec b2 l lsec I2 Hll) as (d' & Hd' & Hrun & Hwf).
  rewrite V2, V1, Hblk in Hd'. injection Hd' as <-.
  apply wp_bind, wp_io. unfold wp at 1. simpl. rewrite Hrun.
  apply wp_bind, wp_io. eapply wp_mono; [by apply (bset_spec _ _ sec)|].
  intros [] b3 [I3 H3 D3 V3 K3 P3]. cbv beta in *. cbn [l_bio set_bio] in *.
  rewrite V2, V1 in V3.
  apply wp_bind, wp_io. eapply wp_mono.
  { apply (bwrite_spec _ _ sec); [done|]. simpl. by rewrite H3. }
  intros [] b4 (d4 & Hd4 & [I4 H4 D4 V4 K4 P4]). cbv beta in *. cbn [l_bio set_bio] in *.
  rewrite V3, list_lookup_insert_eq in Hd4 by (by rewrite bview_length). injection Hd4 as <-.
  rewrite (undirty_delete b3 dd sec L D) in D4; [|done|by rewrite H3|congruence].
  apply wp_bind, wp_io. eapply wp_mono.
  { apply (brelse_spec _ _ lsec); [done|simpl; by rewrite H4, H3|]. right. simpl.
    rewrite K4, V4, V3, K3, K2, K1. rewrite !list_lookup_insert_ne by lia.
    symmetry. apply clean_view; [done|lia|done|done]. }
  intros [] b5 [I5 H5 D5 V5 K5 P5]. cbv beta in *. cbn [l_bio set_bio] in *.
  apply wp_io. eapply wp_mono.
  { apply (brelse_spec _ _ sec); [done|simpl; by rewrite H5, lookup_delete_ne, H4, H3|].
    right. simpl. rewrite K5, K4, V5, V4, V3, K3, K2, K1.
    by rewrite !list_lookup_insert_eq by (by rewrite ?bview_length). }
  intros [] b6 [I6 H6 D6 V6 K6 P6]. cbv beta in *. cbn [l_bio set_bio] in *.
  apply HQ. split; [done|..].
  - rewrite H6, H5, H4, H3, H2, H1. apply map_eq. intros i. rewrite lookup_empty.
    apply lookup_delete_None. destruct (decide (dd = i)) as [|Hi]; [by left|right].
    destruct (decide (l = i)) as [<-|Hli]; [by rewrite lookup_delete_eq|].
    by rewrite lookup_delete_ne, lookup_insert_ne, lookup_singleton_ne.
  - by rewrite D6, D5, D4.
  - by rewrite V6, V5, V4, V3.
  - by rewrite K6, K5, K4, K3, K2, K1.
  - by rewrite P6, P5, P4, K3, K2, K1, P3, P2, P1.
Qed.

Lemma apply_log_snoc h p sec d :
  apply_log h (p ++ [(sec, d)]) = <[Z.to_nat sec := d]> (apply_log h p).
Proof. by rewrite apply_log_app. Qed.

Lemma apply_log_high h p start k :
  Forall (λ e, 0 ≤ e.1 < Z.of_nat start) p → (start ≤ k)%nat → apply_log h p !! k = h !! k.
Proof.
  intros Hp Hk. apply apply_log_lookup_ne. eapply Forall_impl; [done|]. simpl. lia.
Qed.

Lemma drop_apply_log h p start k :
  Forall (λ e, 0 ≤ e.1 < Z.of_nat start) p → (start ≤ k)%nat → drop k (apply_log h p) = drop k h.
Proof.
  intros Hp Hk. apply list_eq. intros i. rewrite !lookup_drop.
  apply (apply_log_high _ _ start); [done|lia].
Qed.

Lemma take_apply_log h p start :
  Forall (λ e, 0 ≤ e.1 < Z.of_nat start) p → take start (apply_log h p) = apply_log (take start h) p.
Proof.
  intros Hp. revert h. induction Hp as [|e p He Hp IH]; intros h; [done|].
  unfold apply_log in *. simpl. rewrite IH, take_insert_lt by lia. done.
Qed.

(** What install_trans may run on, in commit_trans and in recovery: either no
    buffer is dirty, or the dirty ones are those of the logged blocks. *)
Record installable (s : lstate) : Prop := mkInstallable {
  is_inv : bio_inv (l_bio s);
  is_dev : log_dev (l_log s) = ROOTDEV;
  is_start : 0 ≤ log_start (l_log s);
  is_size : log_start (l_log s) + lh_n (l_log s) < disksize (l_bio s) < 2 ^ 31;
  is_held : held (l_bio s) = ∅;
  is_home : ∀ i x, dirty (l_bio s) !! i = Some x → x < log_start (l_log s);
  is_n : 0 ≤ lh_n (l_log s) ≤ LOGSIZE;
  is_secs : length (lh_sector (l_log s)) = 10%nat;
  is_logged : Forall (λ x, 0 ≤ x < log_start (l_log s)) (logged s);
  is_room : (size (dirty (l_bio s)) < NBUF)%nat;
  is_dirty : dirty (l_bio s) = ∅ ∨
    NoDup (logged s) ∧ ∀ x, x ∈ logged s → ∃ i, dirty (l_bio s) !! i = Some x }.

Lemma installable_entry s k :
  installable s → (k < Z.to_nat (lh_n (l_log s)))%nat →
  ∃ sec blk, lh_sector (l_log s) !! k = Some sec ∧ logged s !! k = Some sec ∧
    memdisk (l_bio s) !! (startn s + k + 1)%nat = Some blk ∧ pend s !! k = Some (sec, blk) ∧
    0 ≤ sec < log_start (l_log s).
Proof.
  intros [? ? ? [Hsz _] ? ? Hn Hs HL ? ?] Hk. unfold LOGSIZE in Hn.
  destruct (lookup_lt_is_Some_2 (lh_sector (l_log s)) k) as [sec Hsec]; [lia|].
  destruct (lookup_lt_is_Some_2 (memdisk (l_bio s)) (startn s + k + 1)) as [blk Hblk].
  { unfold startn, disksize in *. lia. }
  assert (logged s !! k = Some sec) as HLk by (unfold logged; by rewrite lookup_take_lt).
  exists sec, blk. split_and!; try done.
  - unfold pend. apply lookup_zip_with_Some. exists sec, blk. split_and!; [done..|].
    rewrite lookup_drop, <- Hblk. f_equal. lia.
  - apply (Forall_lookup_1 _ _ _ _ HL HLk).
  - apply (Forall_lookup_1 _ _ _ _ HL HLk).
Qed.

Lemma installable_pend s :
  installable s → Forall (λ e, 0 ≤ e.1 < Z.of_nat (startn s)) (pend s) ∧ length (pend s) = Z.to_nat (lh_n (l_log s)).
Proof.
  intros [? ? ? [Hsz _] ? ? Hn Hs HL ? ?]. unfold LOGSIZE in Hn. split.
  - apply Forall_lookup. intros k [x d] Hk. apply lookup_zip_with_Some in Hk as (x' & d' & [= <- <-] & Hx & _).
    eapply Forall_lookup_1 in Hx; [|done]. unfold startn. simpl in *. lia.
  - unfold pend. rewrite length_zip_with, length_drop. unfold logged. rewrite length_take.
    unfold startn, disksize in *. lia.
Qed.

Lemma wp_install_trans s Q :
  installable s →
  (∀ b' new, Forall (λ img, ∃ k, img = apply_log (memdisk (l_bio s)) (take k (pend s))) new →
    bstep (l_bio s) b' ∅ (undirty (logged s) (dirty (l_bio s)))
      (apply_log (bview (l_bio s)) (pend s)) (apply_log (memdisk (l_bio s)) (pend s))
      (new ++ disk_past (l_bio s)) → Q tt (set_bio b' s)) →
  wp install_trans Q s.
Proof.
  intros His HQ. destruct (installable_pend s His) as [Hhome Hplen].
  unfold install_trans. wstep1. apply wp_gets.
  set (b := l_bio s) in *. set (L := logged s) in *. set (P := pend s) in *.
  apply (wp_mfor (λ k s', ∃ b' new, s' = set_bio b' s ∧
    Forall (λ img, ∃ k, img = apply_log (memdisk b) (take k P)) new ∧
    bstep b b' ∅ (undirty (take k L) (dirty b)) (apply_log (bview b) (take k P))
      (apply_log (memdisk b) (take k P)) (new ++ disk_past b))).
  - exists b, []. split_and!; [by destruct s|done|]. destruct His. split; try done.
    by rewrite take_0, undirty_nil.
  - intros k s1 Hk (b1 & new & -> & Hnew & [I1 H1 D1 V1 K1 P1]).
    destruct (installable_entry s k His) as (sec & blk & Hsec & HLk & Hblk & HPk & Hr); [lia|].
    pose proof (is_start _ His). pose proof (is_size _ His) as [Hsz Hsz2].
    assert (disksize b1 = disksize b) as Hdz
      by (unfold disksize; by rewrite K1, length_apply_log).
    assert (Forall (λ e, 0 ≤ e.1 < Z.of_nat (startn s)) (take k P)) as Hhk by (by apply Forall_take).
    apply (wp_install_one _ k sec blk (take k L) (dirty b)); cbn [l_bio l_log set_bio];
      rewrite ?Hdz; try done.
    + apply (is_dev _ His).
    + fold b in Hsz. lia.
    + intros i Hi. rewrite D1 in Hi. apply map_lookup_filter_Some in Hi as [Hi _].
      apply (is_home _ His) in Hi. lia.
    + rewrite K1. replace (Z.to_nat _) with (startn s + k + 1)%nat by (unfold startn; lia).
      rewrite (apply_log_high _ _ (startn s)) by (done || lia). done.
    + rewrite D1. eapply Nat.le_lt_trans; [apply undirty_size|apply (is_room _ His)].
    + rewrite D1. destruct (is_dirty _ His) as [Hemp|[Hnd Hin]].
      * left. rewrite NBUF_eq. pose proof (undirty_size (take k L) (dirty b)) as Hu.
        fold b in Hemp. rewrite Hemp in Hu at 2. rewrite map_size_empty in Hu. lia.
      * right. destruct (Hin sec) as [i Hi]; [by eapply list_elem_of_lookup_2|].
        exists i. apply map_lookup_filter_Some. split; [done|]. simpl.
        intros (j & Hj)%list_elem_of_lookup_1. apply lookup_take_Some in Hj as [Hj Hjk].
        assert (j = k) by (by eapply NoDup_lookup). lia.
    + intros b2 Hstep. exists b2, (memdisk b1 :: new). split_and!; [done| |].
      * constructor; [|done]. by exists k.
      * change (1 + k)%nat with (S k). unfold L, P in *. rewrite (take_S_r _ _ _ HLk), (take_S_r _ _ _ HPk), !apply_log_snoc.
        destruct Hstep as [I2 H2 D2 V2 K2 P2]. split; try done.
        -- by rewrite V2, V1.
        -- by rewrite K2, K1.
        -- by rewrite P2, P1.
  - intros s1 (b' & new & -> & Hnew & Hstep). eapply HQ; [done|].
    rewrite (take_ge P) in Hstep by lia. rewrite (take_ge L) in Hstep; [done|].
    unfold L, logged. rewrite length_take. lia.
Qed.

(** ** Installing the log and erasing it *)
(** Every image between the commit and the erasure of the log recovers to the
    committed contents, however far installation got. *)
Lemma recovered_installing start img P k :
  disk_log start img = P → Forall (λ e, 0 ≤ e.1 < Z.of_nat start) P →
  recovered start (apply_log img (take k P)) = apply_log (take start img) P.
Proof.
  intros HP Hhome. assert (Forall (λ e, 0 ≤ e.1 < Z.of_nat start) (take k P)) as Hk
    by (by apply Forall_take).
  unfold recovered. rewrite take_apply_log by done.
  replace (disk_log start (apply_log img (take k P))) with P; [apply apply_log_idemp|].
  transitivity (disk_log start img); [done|]. unfold disk_log.
  rewrite (apply_log_high _ _ start) by (done || lia).
  by rewrite (drop_apply_log _ _ start) by (done || lia).
Qed.

Lemma wp_clear_log s Q :
  installable s → disk_log (startn s) (memdisk (l_bio s)) = pend s →
  (∀ b' h new, get_loghead_n h = 0 →
    Forall (λ img, recovered (startn s) img = apply_log (take (startn s) (memdisk (l_bio s))) (pend s)) new →
    bstep (l_bio s) b' ∅ (undirty (logged s) (dirty (l_bio s)))
      (<[startn s := h]> (apply_log (bview (l_bio s)) (pend s)))
      (<[startn s := h]> (apply_log (memdisk (l_bio s)) (pend s)))
      (new ++ disk_past (l_bio s)) → Q tt (mkL b' (set_n 0 (l_log s)))) →
  wp (install_trans ;;; modlog (set_n 0) ;;; write_head) Q s.
Proof.
  intros His Hlog HQ. destruct (installable_pend s His) as [Hhome Hplen].
  pose proof (is_start _ His). pose proof (is_size _ His) as [Hsz Hsz2].
  pose proof (is_n _ His) as Hn.
  apply wp_bind, wp_install_trans; [done|]. intros b1 new Hnew [I1 H1 D1 V1 K1 P1].
  apply wp_bind. unfold modlog. apply wp_modify. cbv beta.
  assert (disksize b1 = disksize (l_bio s)) as Hdz
    by (unfold disksize; by rewrite K1, length_apply_log).
  apply wp_write_head; simpl; rewrite ?Hdz; try done; try lia.
  - apply (is_dev _ His).
  - intros i. by rewrite H1, lookup_empty.
  - intros i Hi. rewrite D1 in Hi. apply map_lookup_filter_Some in Hi as [Hi _].
    apply (is_home _ His) in Hi. lia.
  - rewrite H1, D1, map_size_empty. simpl.
    eapply Nat.le_lt_trans; [apply undirty_size|apply (is_room _ His)].
  - apply (is_secs _ His).
  - intros b2 h _ Hh [I2 H2 D2 V2 K2 P2].
    unfold set_bio. simpl. apply (HQ b2 h (apply_log (memdisk (l_bio s)) (pend s) :: new)); [done| |].
    + constructor.
      * rewrite <- (firstn_all (pend s)) at 1. by apply recovered_installing.
      * eapply Forall_impl; [exact Hnew|]. intros img [k ->]. by apply recovered_installing.
    + unfold startn in *. simpl in *. split; try done; congruence.
Qed.

Lemma head_sectors_fmap h L :
  head_sectors h L (length L) → get_loghead_sector h <$> seq 0 (length L) = L.
Proof.
  intros [_ Hh]. apply list_eq. intros j. rewrite list_lookup_fmap.
  destruct (L !! j) as [x|] eqn:Hx.
  - pose proof (lookup_lt_Some _ _ _ Hx). rewrite lookup_seq_lt by done. simpl. f_equal.
    by apply Hh.
  - apply lookup_ge_None in Hx. by rewrite lookup_seq_ge.
Qed.

(** ** States with an empty log *)
Lemma log_inv_empty s h :
  bio_inv (l_bio s) → log_dev (l_log s) = ROOTDEV → 0 < log_start (l_log s) →
  2 ≤ log_size (l_log s) →
  log_start (l_log s) + log_size (l_log s) ≤ disksize (l_bio s) < 2 ^ 31 →
  length (lh_sector (l_log s)) = 10%nat → lh_n (l_log s) = 0 →
  memdisk (l_bio s) !! startn s = Some h → get_loghead_n h = 0 →
  dirty (l_bio s) = ∅ → held (l_bio s) = ∅ →
  log_inv s ∧ labs s = mkT (take (startn s) (memdisk (l_bio s))) (take (startn s) (memdisk (l_bio s)))
    [] ∅ (negb (log_busy (l_log s) =? 0)) (Z.min LOGSIZE (log_size (l_log s) - 1)).
Proof.
  intros Hb Hdev Hst Hsz Hds Hsecs Hn Hh Hhn Hd Hheld.
  assert (bview (l_bio s) = memdisk (l_bio s)) as Hview.
  { apply list_eq. intros k. rewrite <- (Nat2Z.id k). apply clean_view; [done|lia|..].
    - intros i. by rewrite Hheld, lookup_empty.
    - intros i. by rewrite Hd, lookup_empty. }
  assert (logged s = []) as HL by (unfold logged; by rewrite Hn).
  assert (pend s = []) as HP by (unfold pend; by rewrite HL).
  split; [|unfold labs; by rewrite Hview, HP, Hheld].
  split; try done; rewrite ?HL, ?Hn, ?Hd, ?Hheld.
  - unfold LOGSIZE. lia.
  - constructor.
  - constructor.
  - eauto.
  - intros x. split; [by intros ?%elem_of_nil|]. intros [i Hi]. by rewrite lookup_empty in Hi.
  - done.
  - rewrite NBUF_eq. simpl. lia.
  - intros i x Hi. by rewrite lookup_empty in Hi.
  - intros x _ _. unfold t_clean. simpl. by rewrite Hview, HP.
Qed.

Lemma view_committed s :
  log_inv s → held (l_bio s) = ∅ → t_view (labs s) = apply_log (t_home (labs s)) (pend s).
Proof.
  intros Hinv Hh. apply list_eq. intros k.
  assert (length (t_home (labs s)) = startn s) as Hlh.
  { simpl. rewrite length_take. pose proof (inv_disk_length s Hinv). lia. }
  destruct (decide (k < startn s)%nat) as [Hk|Hk].
  - rewrite <- (Nat2Z.id k). apply (li_coh _ Hinv).
    + apply labs_inrange; [done|]. rewrite <- inv_startn by done. lia.
    + intros i. simpl. by rewrite Hh, lookup_empty.
  - rewrite !lookup_ge_None_2; [done|..]; rewrite ?length_apply_log, ?labs_view_length; lia || done.
Qed.

(** ** commit_trans *)
(** The state after the first write_head of a commit. *)
Section committing.
Context (s : lstate) (b1 : bio) (h : block).
Context (Hinv : log_inv s) (Hheld : held (l_bio s) = ∅).
Context (Hs : head_sectors h (logged s) (Z.to_nat (lh_n (l_log s)))).
Context (Hn : get_loghead_n h = lh_n (l_log s)).
Context (Hstep : bstep (l_bio s) b1 (held (l_bio s)) (dirty (l_bio s))
  (<[startn s := h]> (bview (l_bio s))) (<[startn s := h]> (memdisk (l_bio s)))
  (memdisk (l_bio s) :: disk_past (l_bio s))).

Lemma committing_pend : pend (set_bio b1 s) = pend s.
Proof.
  unfold pend, startn, logged. simpl. rewrite (bs_disk _ _ _ _ _ _ _ Hstep).
  by rewrite drop_insert_lt by (unfold startn; lia).
Qed.

Lemma committing_installable : installable (set_bio b1 s).
Proof.
  pose proof (li_disk _ Hinv). pose proof (li_n _ Hinv). pose proof (li_start _ Hinv).
  destruct Hstep as [I1 HH1 D1 V1 K1 P1]. unfold disksize in *.
  split; simpl; unfold disksize; rewrite ?K1, ?length_insert, ?D1, ?HH1; try done; try lia.
  - apply Hinv.
  - intros i x Hi. assert (x ∈ logged s) as Hx by (apply (li_dirty _ Hinv); eauto).
    pose proof (li_home _ Hinv) as Hf. rewrite Forall_forall in Hf. by apply Hf.
  - apply Hinv.
  - apply Hinv.
  - pose proof (li_ndirty _ Hinv). pose proof (li_room _ Hinv). lia.
  - right. split; [apply Hinv|]. intros x. apply (li_dirty _ Hinv).
Qed.

Lemma committing_log : disk_log (startn s) (memdisk b1) = pend s.
Proof.
  pose proof (inv_disk_length s Hinv). pose proof (li_size _ Hinv).
  pose proof (inv_logged_length s Hinv) as HL.
  rewrite <- committing_pend. unfold disk_log. rewrite (bs_disk _ _ _ _ _ _ _ Hstep) at 1.
  rewrite list_lookup_insert_eq by lia. rewrite Hn. unfold pend.
  change (startn (set_bio b1 s)) with (startn s). change (logged (set_bio b1 s)) with (logged s).
  f_equal. replace (Z.to_nat (lh_n (l_log s))) with (length (logged s)) in * by lia.
  by apply head_sectors_fmap.
Qed.
End committing.

Lemma undirty_all s : log_inv s → undirty (logged s) (dirty (l_bio s)) = ∅.
Proof.
  intros Hinv. apply map_eq. intros i. rewrite lookup_empty. apply map_lookup_filter_None.
  right. intros x Hi Hx. apply Hx. apply (li_dirty _ Hinv). eauto.
Qed.

Lemma inv_sectors_ok s : log_inv s → Forall sector_ok (logged s).
Proof.
  intros Hinv. pose proof (li_disk _ Hinv). pose proof (li_size _ Hinv).
  eapply Forall_impl; [apply Hinv|]. unfold sector_ok. simpl. lia.
Qed.

Lemma log_commit_ok s :
  log_inv s → t_held (labs s) = ∅ →
  wp commit_trans (λ _ s', log_inv s' ∧
    labs s' = mkT (t_view (labs s)) (t_view (labs s)) [] ∅ false (t_cap (labs s)) ∧
    ∃ new, lhist s' = new ++ lhist s ∧ Forall (eq (t_view (labs s))) new) s.
Proof.
  intros Hinv Hheld. change (held (l_bio s) = ∅) in Hheld.
  pose proof (view_committed s Hinv Hheld) as Hview.
  pose proof (li_disk _ Hinv) as Hdisk. pose proof (li_n _ Hinv) as Hn.
  pose proof (li_start _ Hinv) as Hst. pose proof (inv_disk_length s Hinv) as Hdl.
  pose proof (li_size _ Hinv) as Hsz. pose proof (li_secs _ Hinv) as Hsecs.
  unfold commit_trans. wstep1. apply wp_gets. wstep1.
  destruct (Z.ltb_spec 0 (lh_n (l_log s))) as [Hpos|Hz].
  - apply wp_bind, wp_write_head; try done; try lia.
    + apply Hinv.
    + apply Hinv.
    + intros i. by rewrite Hheld, lookup_empty.
    + intros i Hi. assert (log_start (l_log s) ∈ logged s) as Hx by (apply (li_dirty _ Hinv); eauto).
      pose proof (li_home _ Hinv) as Hf. rewrite Forall_forall in Hf. apply Hf in Hx. lia.
    + rewrite Hheld, map_size_empty. pose proof (li_ndirty _ Hinv). pose proof (li_room _ Hinv). lia.
    + by apply inv_sectors_ok.
    + intros b1 h Hs Hhn Hstep.
      pose proof (committing_installable s b1 h Hinv Hheld Hstep) as His.
      pose proof (committing_pend s b1 h Hstep) as Hp1.
      pose proof (committing_log s b1 h Hinv Hs Hhn Hstep) as Hlog.
      destruct Hstep as [I1 H1 D1 V1 K1 P1].
      apply wp_clear_log; [done|by rewrite Hp1|]. rewrite Hp1. cbn [l_bio l_log set_bio].
      change (startn (set_bio b1 s)) with (startn s). change (logged (set_bio b1 s)) with (logged s).
      rewrite D1, undirty_all, K1, P1, take_insert_ge by (done || lia).
      change (take (startn s) (memdisk (l_bio s))) with (t_home (labs s)). rewrite <- Hview.
      intros b2 h' new Hh' Hnew [I2 H2 D2 V2 K2 P2]. unfold modlog. apply wp_modify. simpl.
      set (s2 := mkL b2 _).
      assert (Forall (λ e, 0 ≤ e.1 < Z.of_nat (startn s)) (pend s)) as Hhome.
      { rewrite <- Hp1. apply (installable_pend _ His). }
      assert (take (startn s) (memdisk b2) = t_view (labs s)) as Hdk.
      { rewrite K2, take_insert_ge, take_apply_log, take_insert_ge by (done || lia). by rewrite Hview. }
      destruct (log_inv_empty s2 h') as [Hinv2 Hlabs]; try done; simpl.
      * apply Hinv.
      * unfold disksize. rewrite K2, length_insert, length_apply_log, length_insert.
        unfold disksize in *. lia.
      * change (startn s2) with (startn s). rewrite K2. apply list_lookup_insert_eq.
        rewrite length_apply_log, length_insert. lia.
      * split; [done|]. split.
        { rewrite Hlabs. change (startn s2) with (startn s). simpl. by rewrite Hdk. }
        exists (t_view (labs s) :: (recovered (startn s) <$> new)). split.
        -- unfold lhist at 1. rewrite fmap_cons, inv_recovered, Hlabs by done.
           change (startn s2) with (startn s). simpl. rewrite Hdk, P2, fmap_app. done.
        -- constructor; [done|]. apply Forall_fmap. eapply Forall_impl; [exact Hnew|].
           intros img Himg. symmetry. exact Himg.
  - wstep1. unfold modlog. apply wp_modify. simpl.
    assert (logged s = []) as HL by (unfold logged; by replace (Z.to_nat _) with 0%nat by lia).
    assert (pend s = []) as HP by (unfold pend; by rewrite HL).
    rewrite HP in Hview. split; [|split; [|by exists []]].
    + destruct Hinv as [? ? ? ? ? ? ? ? ? ? ? ? ? ? ?]. by split.
    + unfold labs. simpl. change (pend (mkL (l_bio s) (set_busy 0 (l_log s)))) with (pend s).
      change (startn (mkL (l_bio s) (set_busy 0 (l_log s)))) with (startn s).
      simpl in Hview. rewrite HP, Hheld. by rewrite Hview.
Qed.

(** ** Recovery: initlog *)
(** A disk image that initlog accepts: the superblock of mkfs, and a log header
    whose entries, if any, are home sectors. *)
Record log_image (img : list block) (start nlog : nat) : Prop := mkLogImage {
  lm_wf : Forall block_wf img;
  lm_sb : ∃ d, img !! 1%nat = Some d ∧ sb_nlog (dec_superblock d) = Z.of_nat nlog ∧
    sb_size (dec_superblock d) = Z.of_nat start + Z.of_nat nlog;
  lm_start : (0 < start)%nat;
  lm_nlog : (2 ≤ nlog)%nat;
  lm_size : (start + nlog ≤ length img)%nat;
  lm_max : Z.of_nat (length img) < 2 ^ 31;
  lm_head : ∃ h, img !! start = Some h ∧
    0 ≤ get_loghead_n h ≤ Z.min LOGSIZE (Z.of_nat nlog - 1) ∧
    ∀ j, (j < Z.to_nat (get_loghead_n h))%nat → 0 ≤ get_loghead_sector h j < Z.of_nat start }.

Lemma wp_read_head_loop h n s Q :
  (n ≤ 10)%nat → length (lh_sector (l_log s)) = 10%nat →
  (∀ secs, length secs = 10%nat → take n secs = get_loghead_sector h <$> seq 0 n →
    Q tt (mkL (l_bio s) (set_sectors secs (l_log s)))) →
  wp (mfor (seq 0 n) (read_head_one h)) Q s.
Proof.
  intros Hn Hlen HQ.
  apply (wp_mfor (λ k s', ∃ secs, s' = mkL (l_bio s) (set_sectors secs (l_log s)) ∧
    length secs = 10%nat ∧ take k secs = get_loghead_sector h <$> seq 0 k)).
  - exists (lh_sector (l_log s)). split_and!; [by destruct s as [? []]|done|done].
  - intros k s1 Hk (secs & -> & Hl & Hs). unfold read_head_one. wstep1. apply wp_gets. cbn [l_log lh_sector set_sectors].
    rewrite aset_nat by lia. wstep1. wstep1. unfold modlog. apply wp_modify. cbv beta.
    eexists. split; [done|]. rewrite length_insert. split; [done|].
    change (1 + k)%nat with (S k). rewrite seq_S, fmap_app, <- Hs. simpl.
    erewrite take_S_r; [|by apply list_lookup_insert_eq; lia].
    by rewrite take_insert_ge by lia.
  - intros s1 (secs & -> & Hl & Hs). by apply HQ.
Qed.

(** bread, a read of the data, brelse: the buffer cache is as before. *)
Lemma wp_log_read {A} b sec (k : block → M bio A) Q :
  bio_inv b → held b = ∅ → dirty b = ∅ → 0 ≤ sec < disksize b →
  (∀ d b', memdisk b !! Z.to_nat sec = Some d → block_wf d →
    bstep b b' ∅ ∅ (bview b) (memdisk b) (disk_past b) → wp (k d) Q b') →
  wp (i <- bread ROOTDEV sec ;; d <- bdata i ;; brelse i ;;; k d) Q b.
Proof.
  intros Hinv Hh Hd Hsec Hk.
  assert (∀ i, held b !! i ≠ Some sec) as Hnh by (intros i; by rewrite Hh, lookup_empty).
  assert (bview b !! Z.to_nat sec = memdisk b !! Z.to_nat sec) as Hv.
  { apply clean_view; [done|lia|done|]. intros i. by rewrite Hd, lookup_empty. }
  apply wp_bind. eapply wp_mono.
  { apply bread_spec; [done..|left]. rewrite Hh, Hd, map_size_empty, NBUF_eq. lia. }
  intros l b1 [Hl0 [I1 H1 D1 V1 K1 P1]]. cbv beta in *.
  destruct (bdata_spec b1 l sec I1) as (d & Hd' & Hrun & Hwf); [by rewrite H1, lookup_insert_eq|].
  apply wp_bind. unfold wp at 1. rewrite Hrun.
  apply wp_bind. eapply wp_mono.
  { apply (brelse_spec _ _ sec); [done|by rewrite H1, lookup_insert_eq|]. right.
    by rewrite K1, V1. }
  intros [] b2 [I2 H2 D2 V2 K2 P2]. cbv beta in *. apply (Hk d); [congruence|done|].
  split; try congruence. rewrite H2, H1.
  rewrite Hh. by rewrite delete_insert_id.
Qed.

Lemma wp_read_head s h Q :
  let b := l_bio s in let lg := l_log s in
  bio_inv b → held b = ∅ → dirty b = ∅ → log_dev lg = ROOTDEV →
  0 ≤ log_start lg < disksize b → disksize b < 2 ^ 31 → memdisk b !! startn s = Some h →
  0 ≤ get_loghead_n h ≤ LOGSIZE → length (lh_sector lg) = 10%nat →
  (∀ b' secs, bstep b b' ∅ ∅ (bview b) (memdisk b) (disk_past b) → length secs = 10%nat →
    take (Z.to_nat (get_loghead_n h)) secs
      = get_loghead_sector h <$> seq 0 (Z.to_nat (get_loghead_n h)) →
    Q tt (mkL b' (set_sectors secs (set_n (get_loghead_n h) lg)))) →
  wp read_head Q s.
Proof.
  intros b lg Hinv Hh Hd Hdev Hst Hsz Hhead Hn Hlen HQ. unfold LOGSIZE in Hn.
  assert (bview b !! startn s = Some h) as Hv.
  { unfold startn in *. rewrite <- Hhead. apply clean_view; [done|fold lg; lia|..];
      intros i; by rewrite ?Hh, ?Hd, lookup_empty. }
  unfold read_head. wstep1. apply wp_gets. fold lg. rewrite Hdev, u32_small by lia.
  apply wp_bind, wp_io. eapply wp_mono.
  { apply bread_spec; [done|fold b; lia| |left; fold b; rewrite Hh, Hd, map_size_empty, NBUF_eq; lia].
    intros i. fold b. by rewrite Hh, lookup_empty. }
  intros l b1 [Hl0 [I1 H1 D1 V1 K1 P1]]. cbv beta in *. fold b in Hl0, H1, D1, V1, K1, P1.
  destruct (bdata_spec b1 l (log_start lg) I1) as (d & Hd' & Hrun & Hwf);
    [by rewrite H1, lookup_insert_eq|].
  change (Z.to_nat (log_start lg)) with (startn s) in Hd'. rewrite V1, Hv in Hd'. injection Hd' as <-.
  apply wp_bind, wp_io. unfold wp at 1. simpl. rewrite Hrun.
  unfold modlog. wstep. apply wp_read_head_loop; simpl; [lia|done|].
  intros secs Hl Hs. apply wp_io. eapply wp_mono.
  { simpl. apply (brelse_spec _ _ (log_start lg)); [done|by rewrite H1, lookup_insert_eq|].
    right. change (Z.to_nat (log_start lg)) with (startn s). by rewrite K1, V1, Hv. }
  intros [] b2 [I2 H2 D2 V2 K2 P2]. cbv beta in *. simpl in *. apply HQ; [|done..].
  split; try congruence. rewrite H2, H1, Hh. by rewrite delete_insert_id.
Qed.

Lemma wp_initlog b img start nlog :
  log_image img start nlog → bio_inv b → held b = ∅ → dirty b = ∅ → memdisk b = img →
  disk_past b = [] →
  wp initlog (λ _ s', log_inv s' ∧ startn s' = start ∧
    labs s' = mkT (recovered start img) (recovered start img) [] ∅ false
      (Z.min LOGSIZE (Z.of_nat nlog - 1)) ∧
    Forall (eq (recovered start img)) (lhist s')) (mkL b log0).
Proof.
  intros [Hwf (sbd & Hsb & Hnl & Hsize) Hst Hnlog Hsz Hmax (h & Hh & Hn & Hsecs)] Hinv Hheld Hdirty Hdisk Hpast.
  unfold initlog. change (BSIZE <=? SIZEOF_LOGHEADER) with false. cbv iota.
  assert (disksize b = Z.of_nat (length img)) as Hds by (unfold disksize; by rewrite Hdisk).
  apply wp_bind, wp_io. unfold readsb. simpl. apply wp_log_read; [done..|lia|].
  intros d b1 Hd Hwfd [I1 H1 D1 V1 K1 P1]. change (Z.to_nat 1) with 1%nat in Hd.
  rewrite Hdisk in Hd, K1. assert (d = sbd) as -> by congruence. apply wp_ret.
  rewrite Hnl, Hsize, !s32_small by lia.
  replace (Z.of_nat start + Z.of_nat nlog - Z.of_nat nlog) with (Z.of_nat start) by lia.
  unfold modlog. apply wp_bind, wp_modify. simpl.
  unfold recover_from_log. apply wp_bind, (wp_read_head _ h); simpl; try done; try lia.
  { unfold disksize. rewrite K1. lia. }
  { unfold disksize. by rewrite K1. }
  { unfold startn. simpl. by rewrite K1, Nat2Z.id. }
  intros b2 secs [I2 H2 D2 V2 K2 P2] Hlen Hs. rewrite K1 in K2. set (s2 := mkL b2 _).
  assert (startn s2 = start) as Hs2 by (unfold startn; simpl; by rewrite Nat2Z.id).
  assert (disk_log (startn s2) (memdisk (l_bio s2)) = pend s2) as Hlog.
  { rewrite Hs2. unfold disk_log, pend, logged. simpl. rewrite K2, Hh, Hs, Hs2. done. }
  assert (installable s2) as His.
  { split; simpl; unfold disksize; rewrite ?K2; try done; try lia.
    - intros i x Hi. by rewrite D2, lookup_empty in Hi.
    - unfold logged. simpl. rewrite Hs. apply Forall_fmap, Forall_seq. intros j Hj.
      apply Hsecs. lia.
    - rewrite D2, map_size_empty, NBUF_eq. lia.
    - by left. }
  apply wp_clear_log; [done|done|]. rewrite Hs2, <- Hlog, Hs2. cbn [l_bio l_log s2].
  rewrite K2, D2. change (apply_log (take start img) (disk_log start img)) with (recovered start img).
  intros b3 h3 new Hh3 Hnew [I3 H3 D3 V3 K3 P3].
  set (s3 := mkL b3 _). assert (startn s3 = start) as Hs3 by exact Hs2.
  assert (take start (memdisk b3) = recovered start img) as Hrec.
  { rewrite K3, take_insert_ge by lia. apply take_apply_log.
    destruct (installable_pend _ His) as [Hhome _]. rewrite <- Hlog, Hs2 in Hhome.
    simpl in Hhome. by rewrite K2 in Hhome. }
  destruct (log_inv_empty s3 h3) as [Hinv3 Hlabs]; try done; simpl; try lia.
  { unfold disksize. rewrite K3, length_insert, length_apply_log. lia. }
  { rewrite Hs3, K3. apply list_lookup_insert_eq. rewrite length_apply_log. lia. }
  rewrite Hs3 in Hlabs. simpl in Hlabs. rewrite Hrec in Hlabs. split_and!; [done..|].
  unfold lhist. rewrite fmap_cons, inv_recovered, Hlabs, Hs3 by done. constructor; [done|].
  simpl. rewrite P3, P2, P1. simpl. rewrite Hpast, app_nil_r. apply Forall_fmap.
  eapply Forall_impl; [exact Hnew|]. by intros ? <-.
Qed.

(** ** The instance *)
#[export] Instance log_store : BlockStore.
Proof.
  refine {|
    bst := lstate;
    bs_bread := λ dev sec, io (bread dev sec);
    bs_bdata := λ i, io (bdata i);
    bs_bset := λ i d, io (bset i d);
    bs_log_write := log_write;
    bs_brelse := λ i, io (brelse i);
    bs_begin_trans := begin_trans;
    bs_commit_trans := commit_trans;
    bs_wf := log_inv;
    bs_abs := labs;
    bs_hist := lhist |}.
  - intros s Hinv. pose proof (inv_startn s Hinv). pose proof (li_disk _ Hinv).
    pose proof (li_size _ Hinv). pose proof (inv_disk_length s Hinv). split_and!.
    + apply Forall_take, bview_wf, Hinv.
    + rewrite labs_view_length by done. simpl. rewrite length_take. lia.
    + rewrite labs_view_length by done. lia.
  - intros s Hinv. simpl. rewrite inv_pend_fst by done. split; [apply Hinv|].
    eapply Forall_impl; [apply (li_home _ Hinv)|]. intros x Hx. by apply labs_inrange.
  - intros s sec Hinv. apply (li_coh _ Hinv).
  - intros s Hinv. unfold lhist. rewrite fmap_cons, inv_recovered by done. eauto.
  - exact log_bread_ok.
  - exact log_bdata_ok.
  - exact log_bset_ok.
  - exact log_write_ok.
  - exact log_brelse_ok.
  - exact log_begin_ok.
  - exact log_commit_ok.
Defined.
