(* ===== verification/Crash.v ===== *)
(** * Properties of the log: transactions, crashes and recovery

    Theorems about bio.c and log.c as a client and an operator see them, built
    on the lemmas of LogSpec.v and Commit.v. *)
From stdpp Require Import base list gmap numbers option strings sets relations.
From Stdlib Require Import ZArith Lia.
From S2P Require Import Prelude Layout Bio BioSpec BlockStore Log LogSpec Commit.
Open Scope Z_scope.

(** ** What a client does inside a transaction *)
Inductive tx_step (s s' : lstate) : Prop :=
| tx_bread i sec :
    t_inrange (labs s) sec → t_fresh (labs s) sec → t_room (labs s) →
    io (bread ROOTDEV sec) s = Ok i s' → tx_step s s'
| tx_bset i sec d :
    t_held (labs s) !! i = Some sec → block_wf d → io (bset i d) s = Ok tt s' → tx_step s s'
| tx_log_write i sec :
    t_held (labs s) !! i = Some sec →
    Z.of_nat (length (t_pend (labs s))) < t_cap (labs s) → t_room (labs s) →
    log_write i s = Ok tt s' → tx_step s s'
| tx_brelse i sec :
    t_held (labs s) !! i = Some sec → t_clean (labs s) sec → io (brelse i) s = Ok tt s' →
    tx_step s s'.

(** Each step keeps the invariant, the open transaction and the home blocks,
    and every disk image it produces recovers to those home blocks. *)
Lemma tx_step_ok s s' :
  log_inv s → t_active (labs s) = true → tx_step s s' →
  log_inv s' ∧ t_active (labs s') = true ∧ t_home (labs s') = t_home (labs s) ∧
  ∃ new, lhist s' = new ++ lhist s ∧ Forall (eq (t_home (labs s))) new.
Proof.
  intros Hinv Ha Hstep. destruct Hstep as [i sec Hr Hf Hroom Hrun|i sec d Hh Hd Hrun|i sec Hh Hcap Hroom Hrun|i sec Hh Hc Hrun].
  - destruct (wp_Ok _ _ _ _ _ Hrun (log_bread_ok s sec Hinv Hr Hf Hroom)) as (? & _ & -> & ->).
    split_and!; try done. by exists [].
  - destruct (wp_Ok _ _ _ _ _ Hrun (log_bset_ok s i sec d Hinv Hh Hd)) as (? & -> & ->).
    split_and!; try done. by exists [].
  - destruct (log_bdata_ok s i sec Hinv Hh) as (d & Hd & _).
    destruct (wp_Ok _ _ _ _ _ Hrun (log_write_ok s i sec d Hinv Hh Hd Ha Hcap Hroom)) as (? & -> & ?).
    done.
  - destruct (wp_Ok _ _ _ _ _ Hrun (log_brelse_ok s i sec Hinv Hh Hc)) as (? & -> & ->).
    split_and!; try done. by exists [].
Qed.

Lemma tx_steps_ok s s' :
  rtc tx_step s s' → log_inv s → t_active (labs s) = true →
  log_inv s' ∧ t_active (labs s') = true ∧ t_home (labs s') = t_home (labs s) ∧
  ∃ new, lhist s' = new ++ lhist s ∧ Forall (eq (t_home (labs s))) new.
Proof.
  induction 1 as [s|s s1 s' Hstep _ IH]; intros Hinv Ha.
  - split_and!; try done. by exists [].
  - destruct (tx_step_ok s s1 Hinv Ha Hstep) as (Hinv1 & Ha1 & Hh1 & new1 & Hn1 & Hf1).
    destruct (IH Hinv1 Ha1) as (Hinv' & Ha' & Hh' & new2 & Hn2 & Hf2).
    rewrite Hh1 in *. split_and!; [done..|]. exists (new2 ++ new1).
    rewrite Hn2, Hn1, app_assoc. split; [done|]. by apply Forall_app.
Qed.

(** C1: a transaction is atomic.  Whatever blocks are read, changed, logged and
    released between begin_trans and commit_trans, both calls return, the disk
    images written before the commit all recover to the contents before the
    transaction, those written by commit_trans all recover to the contents the
    client left, and these become the home blocks. *)
Theorem transaction_atomic s s0 s1 :
  log_inv s → t_active (labs s) = false → begin_trans s = Ok tt s0 →
  rtc tx_step s0 s1 → t_held (labs s1) = ∅ →
  ∃ s2 before after, commit_trans s1 = Ok tt s2 ∧ log_inv s2 ∧
    lhist s2 = after ++ before ++ lhist s ∧
    Forall (eq (t_home (labs s))) before ∧ Forall (eq (t_view (labs s1))) after ∧
    t_home (labs s2) = t_view (labs s1) ∧ t_view (labs s2) = t_view (labs s1) ∧
    t_active (labs s2) = false.
Proof.
  intros Hinv Ha Hbegin Htx Hheld.
  destruct (wp_Ok _ _ _ _ _ Hbegin (log_begin_ok s Hinv Ha)) as (Hinv0 & Hl0 & Hh0).
  destruct (tx_steps_ok s0 s1 Htx Hinv0) as (Hinv1 & _ & _ & before & Hb & Hbf); [by rewrite Hl0|].
  rewrite Hl0, Hh0 in *.
  destruct (wp_run _ _ _ (log_commit_ok s1 Hinv1 Hheld)) as ([] & s2 & Hrun & Hinv2 & Hl2 & after & Hah & Haf).
  exists s2, before, after. rewrite Hl2. split_and!; try done. by rewrite Hah, Hb.
Qed.

(** ** A concrete disk: boot block, superblock, one data block, a log of three sectors *)
Definition tiny_sb : block := enc_superblock (mkSb 6 1 0 3) ++ replicate 496 0.
Definition zero_block : block := replicate 512 0.
Definition tiny_img : list block :=
  [zero_block; tiny_sb; zero_block; zero_block; zero_block; zero_block].

Lemma tiny_log_image : log_image tiny_img 3 3.
Proof.
  assert (Forall block_wf tiny_img) as Hwf.
  { assert (block_wf zero_block) by (split; [done|by apply Forall_replicate]).
    assert (block_wf tiny_sb).
    { split; [done|]. unfold tiny_sb, enc_superblock. rewrite !Forall_app.
      split_and!; try apply le_enc_bytes. by apply Forall_replicate. }
    unfold tiny_img. rewrite !Forall_cons. auto 10. }
  split; try done; try (simpl; lia).
  - exists tiny_sb. split_and!; done.
  - exists zero_block. split_and!; [done|done|done|]. intros j Hj. exfalso.
    change (get_loghead_n zero_block) with 0 in Hj. lia.
Qed.

(** The state after boot on that disk. *)
Lemma tiny_boot :
  ∃ s, log_inv s ∧ labs s = mkT (take 3 tiny_img) (take 3 tiny_img) [] ∅ false 2.
Proof.
  destruct (wp_run _ _ _ (binit_spec tiny_img (lm_wf _ _ _ tiny_log_image)))
    as ([] & b & _ & Hb & Hh & Hd & _ & Hk & Hp).
  destruct (wp_run _ _ _ (wp_initlog b tiny_img 3 3 tiny_log_image Hb Hh Hd Hk Hp))
    as ([] & s & _ & Hs & _ & Hl & _).
  exists s. split; [done|]. rewrite Hl. done.
Qed.

#[local] Ltac tcbn :=
  cbn [t_view t_home t_pend t_held t_active t_cap set_held set_view set_pend set_active].

(** From an idle state, a block can be read, overwritten, logged and released. *)
Lemma write_one_tx s sec d :
  log_inv s → t_active (labs s) = false → t_held (labs s) = ∅ → t_pend (labs s) = [] →
  0 < t_cap (labs s) → t_inrange (labs s) sec → block_wf d →
  ∃ s0 s1, begin_trans s = Ok tt s0 ∧ rtc tx_step s0 s1 ∧ t_held (labs s1) = ∅ ∧
    t_view (labs s1) = <[Z.to_nat sec := d]> (t_view (labs s)).
Proof.
  intros Hinv Ha Hheld Hp Hcap Hr Hd.
  destruct (wp_run _ _ _ (log_begin_ok s Hinv Ha)) as ([] & s0 & R0 & I0 & L0 & _).
  assert (t_inrange (labs s0) sec) as Hr0 by (by rewrite L0).
  assert (t_fresh (labs s0) sec) as Hf0
    by (rewrite L0; intros j; tcbn; by rewrite Hheld, lookup_empty).
  assert (t_room (labs s0)) as Hroom0
    by (rewrite L0; unfold t_room; tcbn; rewrite Hheld, Hp, map_size_empty, NBUF_eq; simpl; lia).
  destruct (wp_run _ _ _ (log_bread_ok s0 sec I0 Hr0 Hf0 Hroom0)) as (i & s1 & R1 & I1 & _ & L1 & _).
  rewrite L0 in L1. cbn [t_view t_home t_pend t_held t_active t_cap set_held set_view set_pend set_active] in L1. rewrite Hheld in L1.
  assert (t_held (labs s1) !! i = Some sec) as Hi1 by (rewrite L1; apply lookup_insert_eq).
  destruct (wp_run _ _ _ (log_bset_ok s1 i sec d I1 Hi1 Hd)) as ([] & s2 & R2 & I2 & L2 & _).
  assert (t_held (labs s2) !! i = Some sec) as Hi2 by (by rewrite L2).
  assert (t_view (labs s2) = <[Z.to_nat sec := d]> (t_view (labs s))) as Hv2 by (by rewrite L2, L1).
  assert (t_room (labs s2)) as Hroom2.
  { rewrite L2, L1. unfold t_room. tcbn.
    rewrite Hp, insert_empty, map_size_singleton, NBUF_eq. simpl. lia. }
  assert (Z.of_nat (length (t_pend (labs s2))) < t_cap (labs s2)) as Hcap2.
  { rewrite L2, L1. tcbn. by rewrite Hp. }
  assert (Z.to_nat sec < length (t_view (labs s)))%nat as Hlt by (unfold t_inrange in Hr; lia).
  assert (t_view (labs s2) !! Z.to_nat sec = Some d) as Hd2
    by (rewrite Hv2; by apply list_lookup_insert_eq).
  assert (t_active (labs s2) = true) as Ha2 by (by rewrite L2, L1).
  destruct (wp_run _ _ _ (log_write_ok s2 i sec d I2 Hi2 Hd2 Ha2 Hcap2 Hroom2)) as ([] & s3 & R3 & I3 & L3 & _).
  assert (t_held (labs s3) !! i = Some sec) as Hi3 by (by rewrite L3).
  assert (t_clean (labs s3) sec) as Hc3.
  { destruct (@bs_view_wf log_store s Hinv) as (_ & Hlen & _). cbn [bs_abs log_store] in Hlen.
    unfold t_clean. rewrite L3. cbn [t_view t_home t_pend set_pend]. rewrite Hd2, L2, L1.
    cbn [t_view t_home t_pend set_view set_held set_active]. rewrite Hp. symmetry.
    apply list_lookup_insert_eq. by rewrite Hlen. }
  destruct (wp_run _ _ _ (log_brelse_ok s3 i sec I3 Hi3 Hc3)) as ([] & s4 & R4 & I4 & L4 & _).
  exists s0, s4. split_and!; [done| | |].
  - eapply rtc_l; [by eapply tx_bread|]. eapply rtc_l; [by eapply tx_bset|].
    eapply rtc_l; [by eapply tx_log_write|]. eapply rtc_l; [by eapply tx_brelse|]. done.
  - rewrite L4, L3, L2, L1. tcbn. by rewrite delete_insert_eq, delete_empty.
  - by rewrite L4, L3.
Qed.

(** A one-block transaction on the concrete disk. *)
Lemma transaction_atomic_witness :
  ∃ s s1 s2 before after, commit_trans s1 = Ok tt s2 ∧
    lhist s2 = after ++ before ++ lhist s ∧
    Forall (eq (take 3 tiny_img)) before ∧
    Forall (eq [zero_block; tiny_sb; tiny_sb]) after ∧
    t_home (labs s2) = [zero_block; tiny_sb; tiny_sb].
Proof.
  destruct tiny_boot as (s & Hinv & Hl).
  destruct (write_one_tx s 2 tiny_sb Hinv) as (s0 & s1 & Hb & Htx & Hh & Hv);
    try (rewrite Hl; done).
  { apply (Forall_lookup_1 _ _ 1%nat _ (lm_wf _ _ _ tiny_log_image)). done. }
  destruct (transaction_atomic s s0 s1 Hinv) as (s2 & before & after & H1 & H2 & H3 & H4 & H5 & H6 & H7 & _);
    [by rewrite Hl|done..|].
  rewrite Hv, Hl in *. exists s, s1, s2, before, after. split_and!; done.
Defined.

(** C5: recovery.  On any disk image with a valid superblock and log header,
    binit and initlog return; the file-system blocks are then the home blocks
    with the committed transaction (if the header records one) replayed over
    them, no transaction is open, and every disk image written meanwhile
    recovers to the same contents, so a crash during recovery is harmless. *)
Theorem boot_recovers img start nlog :
  log_image img start nlog →
  wp (io binit ;;; initlog) (λ _ s, log_inv s ∧ startn s = start ∧
    labs s = mkT (recovered start img) (recovered start img) [] ∅ false
      (Z.min LOGSIZE (Z.of_nat nlog - 1)) ∧
    Forall (eq (recovered start img)) (lhist s)) (mkL (bio0 img) log0).
Proof.
  intros Himg. apply wp_bind, wp_io. eapply wp_mono; [apply binit_spec, Himg|].
  intros [] b (Hb & Hh & Hd & _ & Hk & Hp). by apply wp_initlog.
Qed.

(** The concrete disk after a crash between the commit of a write to block 2
    and its installation. *)
Definition crash_head : block := put_u32 (put_u32 zero_block 0 1) 4 2.
Definition crash_img : list block :=
  [zero_block; tiny_sb; zero_block; crash_head; tiny_sb; zero_block].

Lemma crash_log_image : log_image crash_img 3 3.
Proof.
  pose proof (lm_wf _ _ _ tiny_log_image) as Hwf.
  unfold tiny_img in Hwf. rewrite !Forall_cons in Hwf. destruct Hwf as (H0 & H1 & _).
  assert (block_wf crash_head) as Hh by (do 2 (apply put_u32_wf; [lia|]); exact H0).
  split; try done; try (simpl; lia).
  - unfold crash_img. rewrite !Forall_cons. auto 10.
  - exists tiny_sb. split_and!; done.
  - exists crash_head. split_and!; [done|done|done|]. intros j Hj.
    change (get_loghead_n crash_head) with 1 in Hj. assert (j = 0%nat) as -> by lia. done.
Qed.

(** Recovery of that disk. *)
Lemma boot_recovers_witness :
  ∃ s, (io binit ;;; initlog) (mkL (bio0 crash_img) log0) = Ok tt s ∧
    t_view (labs s) = [zero_block; tiny_sb; tiny_sb].
Proof.
  destruct (wp_run _ _ _ (boot_recovers crash_img 3 3 crash_log_image)) as ([] & s & Hr & _ & _ & Hl & _).
  exists s. split; [exact Hr|]. rewrite Hl. reflexivity.
Defined.

(** Misuse of the log panics: a log_write outside a transaction, and one
    when the log is full; begin_trans sleeps while a transaction is open. *)
Theorem log_misuse s i :
  log_inv s →
  (t_active (labs s) = true → begin_trans s = Blocked s) ∧
  (t_cap (labs s) ≤ Z.of_nat (length (t_pend (labs s))) →
    log_write i s = Panic "too big a transaction") ∧
  (Z.of_nat (length (t_pend (labs s))) < t_cap (labs s) → t_active (labs s) = false →
    log_write i s = Panic "write outside of trans").
Proof.
  intros Hinv. pose proof (inv_logged_length s Hinv) as Hl.
  change (t_pend (labs s)) with (pend s). rewrite (inv_pend_length s Hinv), Hl.
  unfold begin_trans, log_write, bind, getlog, gets. simpl. split_and!.
  - by intros ->.
  - intros Hc. destruct (Z.leb_spec LOGSIZE (lh_n (l_log s))); [done|].
    destruct (Z.leb_spec (log_size (l_log s) - 1) (lh_n (l_log s))); [done|]. lia.
  - intros Hc ->%negb_false_iff. rewrite !(proj2 (Z.leb_gt _ _)) by lia. done.
Qed.

Lemma log_misuse_witness :
  ∃ s, log_inv s ∧ log_write 0 s = Panic "write outside of trans".
Proof.
  destruct tiny_boot as (s & Hinv & Hl). exists s. split; [exact Hinv|].
  apply (log_misuse s 0 Hinv); rewrite Hl; done.
Defined.
