(* ===== verification/Fs.v ===== *)
(** * File system: blocks, inodes, directories, paths (fs.c, file.h, fs.h)

    The functions of fs.c over the interface [BlockStore].  A struct inode* is
    an index into icache.inode.  The spin lock icache.lock makes the bodies it
    guards atomic and does not appear; sleep() is [Blocked] and wakeup() has no
    effect on this state.  A char* to a string is the list of the bytes from
    there on; the string ends at the first 0 or where the list ends. *)
From stdpp Require Import base list gmap numbers option strings sets.
From Stdlib Require Import ZArith Lia.
From S2P Require Import Prelude Kstring Layout BlockStore.
Open Scope Z_scope.

(** ** Blocks *)
Section blocks.
Context {BS : BlockStore}.

Definition fs_readsb (dev : Z) : M bst superblock :=
  bp <- bs_bread dev 1 ;;
  d <- bs_bdata bp ;;
  bs_brelse bp ;;;
  ret (dec_superblock d).

Definition bzero (dev bno : Z) : M bst unit :=
  bp <- bs_bread dev (u32 bno) ;;
  bs_bset bp (replicate 512 0) ;;;
  bs_log_write bp ;;;
  bs_brelse bp.

(** m = 1 << (bi % 8) and the byte data[bi/8] it selects a bit of. *)
Definition bitmask (bi : Z) : Z := Z.shiftl 1 (bi mod 8).
Definition bitbyte (data : block) (bi : Z) : Z := default 0 (data !! Z.to_nat (bi / 8)).
Definition bit_used (data : block) (bi : Z) : bool :=
  negb (Z.land (bitbyte data bi) (bitmask bi) =? 0).
Definition bit_set (data : block) (bi : Z) : block :=
  <[Z.to_nat (bi / 8) := u8 (Z.lor (bitbyte data bi) (bitmask bi))]> data.
Definition bit_clear (data : block) (bi : Z) : block :=
  <[Z.to_nat (bi / 8) := u8 (Z.land (bitbyte data bi) (Z.lnot (bitmask bi)))]> data.

(** The inner loop of balloc; [fuel] counts the BPB - bi iterations left. *)
Fixpoint balloc_find (fuel : nat) (data : block) (size b bi : Z) : option Z :=
  match fuel with
  | O => None
  | S fuel =>
    if u32 (b + bi) <? size then
      if negb (bit_used data bi) then Some bi else balloc_find fuel data size b (bi + 1)
    else None
  end.

(** The outer loop, one iteration per bitmap block. *)
Fixpoint balloc_loop (fuel : nat) (dev : Z) (sb : superblock) (b : Z) : M bst Z :=
  match fuel with
  | O => undefined
  | S fuel =>
    if u32 b <? sb_size sb then
      bp <- bs_bread dev (BBLOCK b (sb_ninodes sb)) ;;
      d <- bs_bdata bp ;;
      match balloc_find (Z.to_nat BPB) d (sb_size sb) b 0 with
      | Some bi =>
        bs_bset bp (bit_set d bi) ;;;
        bs_log_write bp ;;;
        bs_brelse bp ;;;
        bzero dev (b + bi) ;;;
        ret (u32 (b + bi))
      | None =>
        bs_brelse bp ;;;
        (if b + BPB <? 2 ^ 31 then balloc_loop fuel dev sb (b + BPB)
         else undefined (* int overflow *))
      end
    else panic "balloc: out of blocks"
  end.

Definition balloc (dev : Z) : M bst Z :=
  sb <- fs_readsb dev ;;
  balloc_loop (S (Z.to_nat (sb_size sb / BPB + 1))) dev sb 0.

Definition bfree (dev b : Z) : M bst unit :=
  sb <- fs_readsb dev ;;
  bp <- bs_bread dev (BBLOCK b (sb_ninodes sb)) ;;
  d <- bs_bdata bp ;;
  let bi := b mod BPB in
  if negb (bit_used d bi) then panic "freeing free block"
  else
    bs_bset bp (bit_clear d bi) ;;;
    bs_log_write bp ;;;
    bs_brelse bp.
End blocks.

(** ** Inodes: struct inode of file.h *)
Definition I_BUSY : Z := 1.
Definition I_VALID : Z := 2.

Record inode := mkInode {
  i_dev : Z; i_inum : Z; i_ref : Z; i_flags : Z;
  i_type : Z; i_major : Z; i_minor : Z; i_nlink : Z; i_size : Z; i_addrs : list Z }.

Definition i_set_ref (r : Z) (ip : inode) : inode :=
  mkInode (i_dev ip) (i_inum ip) r (i_flags ip) (i_type ip) (i_major ip) (i_minor ip)
    (i_nlink ip) (i_size ip) (i_addrs ip).
Definition i_set_flags (f : Z) (ip : inode) : inode :=
  mkInode (i_dev ip) (i_inum ip) (i_ref ip) f (i_type ip) (i_major ip) (i_minor ip)
    (i_nlink ip) (i_size ip) (i_addrs ip).
Definition i_set_type (t : Z) (ip : inode) : inode :=
  mkInode (i_dev ip) (i_inum ip) (i_ref ip) (i_flags ip) t (i_major ip) (i_minor ip)
    (i_nlink ip) (i_size ip) (i_addrs ip).
Definition i_set_dev (mj mn : Z) (ip : inode) : inode :=
  mkInode (i_dev ip) (i_inum ip) (i_ref ip) (i_flags ip) (i_type ip) mj mn
    (i_nlink ip) (i_size ip) (i_addrs ip).
Definition i_set_nlink (n : Z) (ip : inode) : inode :=
  mkInode (i_dev ip) (i_inum ip) (i_ref ip) (i_flags ip) (i_type ip) (i_major ip) (i_minor ip)
    n (i_size ip) (i_addrs ip).
Definition i_set_size (n : Z) (ip : inode) : inode :=
  mkInode (i_dev ip) (i_inum ip) (i_ref ip) (i_flags ip) (i_type ip) (i_major ip) (i_minor ip)
    (i_nlink ip) n (i_addrs ip).
Definition i_set_addr (k : nat) (a : Z) (ip : inode) : inode :=
  mkInode (i_dev ip) (i_inum ip) (i_ref ip) (i_flags ip) (i_type ip) (i_major ip) (i_minor ip)
    (i_nlink ip) (i_size ip) (<[k := a]> (i_addrs ip)).
(** The fields kept on disk, in both directions. *)
Definition i_load (d : dinode) (ip : inode) : inode :=
  mkInode (i_dev ip) (i_inum ip) (i_ref ip) (i_flags ip) (di_type d) (di_major d) (di_minor d)
    (di_nlink d) (di_size d) (di_addrs d).
Definition i_dinode (ip : inode) : dinode :=
  mkDinode (i_type ip) (i_major ip) (i_minor ip) (i_nlink ip) (i_size ip) (i_addrs ip).

Record fstate {BS : BlockStore} := mkF { f_store : bst; f_icache : list inode }.
Arguments fstate : clear implicits.
Arguments mkF {BS} f_store f_icache.

(** devsw[]: the read and write functions of the device drivers.  A read
    returns its result and the bytes stored from dst on. *)
Record devsw_t (S : Type) := mkDevsw {
  dev_read : Z → option (nat → Z → M S (Z * list Z));
  dev_write : Z → option (nat → list Z → Z → M S Z) }.
Arguments mkDevsw {S} dev_read dev_write.
Arguments dev_read {S} d _.
Arguments dev_write {S} d _.

(** What readi and writei return when they return -1. *)
Definition ERR : Z := -1.

Section inodes.
Context {BS : BlockStore} (devsw : devsw_t (fstate BS)).

Definition set_store (b : bst) (s : fstate BS) : fstate BS := mkF b (f_icache s).
Definition sto {A} (m : M bst A) : M (fstate BS) A := zoom f_store set_store m.
Definition geti (ip : nat) : M (fstate BS) inode := λ s, lift_opt (f_icache s !! ip) s.
Definition modi (ip : nat) (f : inode → inode) : M (fstate BS) unit :=
  _ <- geti ip ;; modify (λ s, mkF (f_store s) (alter f ip (f_icache s))).

(** The search loop of iget: an entry for (dev, inum), or the first free one. *)
Fixpoint iget_find (l : list inode) (dev inum : Z) (k : nat) (empty : option nat) : nat + option nat :=
  match l with
  | [] => inr empty
  | ip :: l =>
    if (0 <? i_ref ip) && (i_dev ip =? dev) && (i_inum ip =? inum) then inl k
    else iget_find l dev inum (S k)
           (match empty with None => if i_ref ip =? 0 then Some k else None | _ => empty end)
  end.

Definition iget (dev inum : Z) : M (fstate BS) nat :=
  l <- gets f_icache ;;
  match iget_find l dev inum 0 None with
  | inl k => modi k (λ ip, i_set_ref (i_ref ip + 1) ip) ;;; ret k
  | inr None => panic "iget: no inodes"
  | inr (Some k) =>
    modi k (λ ip, mkInode dev inum 1 0 (i_type ip) (i_major ip) (i_minor ip)
                    (i_nlink ip) (i_size ip) (i_addrs ip)) ;;;
    ret k
  end.

Definition ialloc_dinode (type : Z) : dinode := mkDinode type 0 0 0 0 (replicate 13 0).

(** The loop of ialloc: [inum] counts up to sb.ninodes. *)
Fixpoint ialloc_loop (fuel : nat) (dev type ninodes inum : Z) : M (fstate BS) nat :=
  match fuel with
  | O => undefined
  | S fuel =>
    if u32 inum <? ninodes then
      bp <- sto (bs_bread dev (IBLOCK inum)) ;;
      d <- sto (bs_bdata bp) ;;
      let k := Z.to_nat (inum mod IPB) in
      if di_type (get_dinode d k) =? 0 then
        sto (bs_bset bp (put_dinode d k (ialloc_dinode type))) ;;;
        sto (bs_log_write bp) ;;;
        sto (bs_brelse bp) ;;;
        iget dev inum
      else
        sto (bs_brelse bp) ;;;
        ialloc_loop fuel dev type ninodes (inum + 1)
    else panic "ialloc: no inodes"
  end.

Definition ialloc (dev type : Z) : M (fstate BS) nat :=
  sb <- sto (fs_readsb dev) ;;
  ialloc_loop (S (Z.to_nat (sb_ninodes sb))) dev type (sb_ninodes sb) 1.

Definition iupdate (ip : nat) : M (fstate BS) unit :=
  i <- geti ip ;;
  bp <- sto (bs_bread (i_dev i) (IBLOCK (i_inum i))) ;;
  d <- sto (bs_bdata bp) ;;
  sto (bs_bset bp (put_dinode d (Z.to_nat (i_inum i mod IPB)) (i_dinode i))) ;;;
  sto (bs_log_write bp) ;;;
  sto (bs_brelse bp).

Definition idup (ip : nat) : M (fstate BS) nat :=
  modi ip (λ i, i_set_ref (i_ref i + 1) i) ;;;
  ret ip.

Definition ilock (ip : nat) : M (fstate BS) unit :=
  i <- geti ip ;;
  if i_ref i <? 1 then panic "ilock"
  else if has (i_flags i) I_BUSY then sleep_on
  else
    modi ip (λ i, i_set_flags (Z.lor (i_flags i) I_BUSY) i) ;;;
    (if negb (has (i_flags i) I_VALID) then
       bp <- sto (bs_bread (i_dev i) (IBLOCK (i_inum i))) ;;
       d <- sto (bs_bdata bp) ;;
       modi ip (i_load (get_dinode d (Z.to_nat (i_inum i mod IPB)))) ;;;
       sto (bs_brelse bp) ;;;
       modi ip (λ i, i_set_flags (Z.lor (i_flags i) I_VALID) i) ;;;
       i <- geti ip ;;
       if i_type i =? 0 then panic "ilock: no type" else ret tt
     else ret tt).

Definition iunlock (ip : nat) : M (fstate BS) unit :=
  i <- geti ip ;;
  if negb (has (i_flags i) I_BUSY) || (i_ref i <? 1) then panic "iunlock"
  else modi ip (λ i, i_set_flags (Z.land (i_flags i) (Z.lnot I_BUSY)) i).

(** ** Inode contents *)
Definition bmap (ip : nat) (bn : Z) : M (fstate BS) Z :=
  i <- geti ip ;;
  if bn <? NDIRECT then
    addr <- lift_opt (aget (i_addrs i) bn) ;;
    if addr =? 0 then
      addr <- sto (balloc (i_dev i)) ;;
      modi ip (i_set_addr (Z.to_nat bn) addr) ;;;
      ret addr
    else ret addr
  else if bn - NDIRECT <? NINDIRECT then
    addr <- lift_opt (aget (i_addrs i) NDIRECT) ;;
    addr <- (if addr =? 0 then
               addr <- sto (balloc (i_dev i)) ;;
               modi ip (i_set_addr (Z.to_nat NDIRECT) addr) ;;;
               ret addr
             else ret addr) ;;
    bp <- sto (bs_bread (i_dev i) addr) ;;
    a <- sto (bs_bdata bp) ;;
    let k := (4 * Z.to_nat (bn - NDIRECT))%nat in
    if u32_at a k =? 0 then
      addr <- sto (balloc (i_dev i)) ;;
      a <- sto (bs_bdata bp) ;;
      sto (bs_bset bp (put_u32 a k addr)) ;;;
      sto (bs_log_write bp) ;;;
      sto (bs_brelse bp) ;;;
      ret addr
    else
      sto (bs_brelse bp) ;;;
      ret (u32_at a k)
  else panic "bmap: out of range".

Definition itrunc_direct (ip k : nat) : M (fstate BS) unit :=
  i <- geti ip ;;
  addr <- lift_opt (i_addrs i !! k) ;;
  if addr =? 0 then ret tt
  else
    sto (bfree (i_dev i) addr) ;;;
    modi ip (i_set_addr k 0).

Definition itrunc_indirect (dev : Z) (bp j : nat) : M (fstate BS) unit :=
  a <- sto (bs_bdata bp) ;;
  let addr := u32_at a (4 * j) in
  if addr =? 0 then ret tt else sto (bfree dev addr).

Definition itrunc (ip : nat) : M (fstate BS) unit :=
  mfor (seq 0 (Z.to_nat NDIRECT)) (itrunc_direct ip) ;;;
  i <- geti ip ;;
  addr <- lift_opt (aget (i_addrs i) NDIRECT) ;;
  (if addr =? 0 then ret tt
   else
     bp <- sto (bs_bread (i_dev i) addr) ;;
     mfor (seq 0 (Z.to_nat NINDIRECT)) (itrunc_indirect (i_dev i) bp) ;;;
     sto (bs_brelse bp) ;;;
     sto (bfree (i_dev i) addr) ;;;
     modi ip (i_set_addr (Z.to_nat NDIRECT) 0)) ;;;
  modi ip (i_set_size 0) ;;;
  iupdate ip.

Definition iput (ip : nat) : M (fstate BS) unit :=
  i <- geti ip ;;
  (if (i_ref i =? 1) && has (i_flags i) I_VALID && (i_nlink i =? 0) then
     if has (i_flags i) I_BUSY then panic "iput busy"
     else
       modi ip (λ i, i_set_flags (Z.lor (i_flags i) I_BUSY) i) ;;;
       itrunc ip ;;;
       modi ip (i_set_type 0) ;;;
       iupdate ip ;;;
       modi ip (i_set_flags 0)
   else ret tt) ;;;
  modi ip (λ i, i_set_ref (i_ref i - 1) i).

Definition iunlockput (ip : nat) : M (fstate BS) unit :=
  iunlock ip ;;;
  iput ip.

(** struct stat of stat.h *)
Record stat := mkStat { st_type : Z; st_dev : Z; st_ino : Z; st_nlink : Z; st_size : Z }.
Definition stati (ip : nat) : M (fstate BS) stat :=
  i <- geti ip ;;
  ret (mkStat (i_type i) (s32 (i_dev i)) (i_inum i) (i_nlink i) (i_size i)).

(** Each iteration moves at least one byte, so n iterations are enough. *)
Fixpoint readi_loop (fuel : nat) (ip : nat) (off tot n : Z) : M (fstate BS) (list Z) :=
  match fuel with
  | O => undefined
  | S fuel =>
    if tot <? n then
      addr <- bmap ip (off / BSIZE) ;;
      i <- geti ip ;;
      bp <- sto (bs_bread (i_dev i) addr) ;;
      d <- sto (bs_bdata bp) ;;
      let m := Z.min (n - tot) (BSIZE - off mod BSIZE) in
      sto (bs_brelse bp) ;;;
      rest <- readi_loop fuel ip (off + m) (tot + m) n ;;
      ret (slice d (Z.to_nat (off mod BSIZE)) (Z.to_nat m) ++ rest)
    else ret []
  end.

(** The result and the bytes stored from dst on. *)
Definition readi (ip : nat) (off n : Z) : M (fstate BS) (Z * list Z) :=
  i <- geti ip ;;
  if i_type i =? T_DEV then
    if (i_major i <? 0) || (NDEV <=? i_major i) then ret (ERR, [])
    else
      match dev_read devsw (i_major i) with
      | None => ret (ERR, [])
      | Some f => f ip n
      end
  else if (i_size i <? off) || (u32 (off + n) <? off) then ret (ERR, [])
  else
    let n := if i_size i <? u32 (off + n) then i_size i - off else n in
    data <- readi_loop (S (Z.to_nat n)) ip off 0 n ;;
    ret (s32 n, data).

Fixpoint writei_loop (fuel : nat) (ip : nat) (src : list Z) (off tot n : Z)
  : M (fstate BS) Z :=
  match fuel with
  | O => undefined
  | S fuel =>
    if tot <? n then
      addr <- bmap ip (off / BSIZE) ;;
      i <- geti ip ;;
      bp <- sto (bs_bread (i_dev i) addr) ;;
      let m := Z.min (n - tot) (BSIZE - off mod BSIZE) in
      d <- sto (bs_bdata bp) ;;
      sto (bs_bset bp (splice d (Z.to_nat (off mod BSIZE)) (slice src (Z.to_nat tot) (Z.to_nat m)))) ;;;
      sto (bs_log_write bp) ;;;
      sto (bs_brelse bp) ;;;
      writei_loop fuel ip src (off + m) (tot + m) n
    else ret off
  end.

Definition writei (ip : nat) (src : list Z) (off n : Z) : M (fstate BS) Z :=
  i <- geti ip ;;
  if i_type i =? T_DEV then
    if (i_major i <? 0) || (NDEV <=? i_major i) then ret ERR
    else
      match dev_write devsw (i_major i) with
      | None => ret ERR
      | Some f => f ip src n
      end
  else if (i_size i <? off) || (u32 (off + n) <? off) then ret ERR
  else if MAXFILE * BSIZE <? u32 (off + n) then ret ERR
  else
    off <- writei_loop (S (Z.to_nat n)) ip src off 0 n ;;
    i <- geti ip ;;
    (if (0 <? n) && (i_size i <? off) then
       modi ip (i_set_size off) ;;;
       iupdate ip
     else ret tt) ;;;
    ret (s32 n).

(** ** Directories *)
Definition namecmp (s t : list Z) : Z := strncmp s t (Z.to_nat DIRSIZ).

(** The inode found and the value stored through poff. *)
Fixpoint dirlookup_loop (fuel : nat) (dp : nat) (name : list Z) (off : Z)
  : M (fstate BS) (option (nat * Z)) :=
  match fuel with
  | O => undefined
  | S fuel =>
    i <- geti dp ;;
    if off <? i_size i then
      r <- readi dp off SIZEOF_DIRENT ;;
      if negb (r.1 =? SIZEOF_DIRENT) then panic "dirlink read"
      else
        let de := dec_dirent r.2 in
        if de_inum de =? 0 then dirlookup_loop fuel dp name (off + SIZEOF_DIRENT)
        else if namecmp name (de_name de) =? 0 then
          ip <- iget (i_dev i) (de_inum de) ;;
          ret (Some (ip, off))
        else dirlookup_loop fuel dp name (off + SIZEOF_DIRENT)
    else ret None
  end.

Definition dirlookup (dp : nat) (name : list Z) : M (fstate BS) (option (nat * Z)) :=
  i <- geti dp ;;
  if negb (i_type i =? T_DIR) then panic "dirlookup not DIR"
  else dirlookup_loop (S (Z.to_nat (i_size i / SIZEOF_DIRENT + 1))) dp name 0.

(** The second loop of dirlink: the offset of a free entry, or the size. *)
Fixpoint dirlink_loop (fuel : nat) (dp : nat) (off : Z) : M (fstate BS) Z :=
  match fuel with
  | O => undefined
  | S fuel =>
    i <- geti dp ;;
    if u32 off <? i_size i then
      r <- readi dp (u32 off) SIZEOF_DIRENT ;;
      if negb (r.1 =? SIZEOF_DIRENT) then panic "dirlink read"
      else if de_inum (dec_dirent r.2) =? 0 then ret off
      else dirlink_loop fuel dp (off + SIZEOF_DIRENT)
    else ret off
  end.

Definition dirlink (dp : nat) (name : list Z) (inum : Z) : M (fstate BS) Z :=
  r <- dirlookup dp name ;;
  match r with
  | Some (ip, _) => iput ip ;;; ret ERR
  | None =>
    i <- geti dp ;;
    off <- dirlink_loop (S (Z.to_nat (i_size i / SIZEOF_DIRENT + 1))) dp 0 ;;
    let de := mkDirent (u16 inum) (strncpy name (Z.to_nat DIRSIZ)) in
    n <- writei dp (enc_dirent de) (u32 off) SIZEOF_DIRENT ;;
    if negb (n =? SIZEOF_DIRENT) then panic "dirlink" else ret 0
  end.

(** ** Paths *)
Definition SLASH : Z := 47.

(** while ( *path == '/') path++; *)
Fixpoint skip_slashes (path : list Z) : list Z :=
  match path with
  | c :: path' => if c =? SLASH then skip_slashes path' else path
  | [] => []
  end.
(** while ( *path != '/' && *path != 0) path++; the characters passed over, and
    the rest. *)
Fixpoint take_elem (path : list Z) : list Z * list Z :=
  match path with
  | c :: path' =>
    if (c =? SLASH) || (c =? 0) then ([], path)
    else let r := take_elem path' in (c :: r.1, r.2)
  | [] => ([], [])
  end.

(** [name] is the contents of the array name[DIRSIZ] before the call. *)
Definition skipelem (path name : list Z) : option (list Z * list Z) :=
  let path := skip_slashes path in
  if deref path =? 0 then None
  else
    let s := (take_elem path).1 in
    let path := (take_elem path).2 in
    let len := Z.of_nat (length s) in
    let name := if DIRSIZ <=? len then splice name 0 (take (Z.to_nat DIRSIZ) s)
                else splice name 0 (s ++ [0]) in
    Some (skip_slashes path, name).

(** The loop of namex; the result is the inode, if any, and the array name.
    skipelem shortens the path, so its length bounds the iterations. *)
Fixpoint namex_loop (fuel : nat) (ip : nat) (path : list Z) (nameiparent : bool) (name : list Z)
  : M (fstate BS) (option nat * list Z) :=
  match fuel with
  | O => undefined
  | S fuel =>
    match skipelem path name with
    | None =>
      if nameiparent then iput ip ;;; ret (None, name)
      else ret (Some ip, name)
    | Some (path, name) =>
      ilock ip ;;;
      i <- geti ip ;;
      if negb (i_type i =? T_DIR) then iunlockput ip ;;; ret (None, name)
      else if nameiparent && (deref path =? 0) then iunlock ip ;;; ret (Some ip, name)
      else
        r <- dirlookup ip name ;;
        match r with
        | None => iunlockput ip ;;; ret (None, name)
        | Some (next, _) =>
          iunlockput ip ;;;
          namex_loop fuel next path nameiparent name
        end
    end
  end.

(** [cwd] is proc->cwd. *)
Definition namex (cwd : nat) (path : list Z) (nameiparent : bool) (name : list Z)
  : M (fstate BS) (option nat * list Z) :=
  ip <- (if deref path =? SLASH then iget ROOTDEV ROOTINO else idup cwd) ;;
  namex_loop (S (length path)) ip path nameiparent name.

Definition namei (cwd : nat) (path : list Z) : M (fstate BS) (option nat) :=
  r <- namex cwd path false (replicate (Z.to_nat DIRSIZ) 0) ;;
  ret r.1.

Definition nameiparent (cwd : nat) (path name : list Z) : M (fstate BS) (option nat * list Z) :=
  namex cwd path true name.
End inodes.

(** The inode cache before its first use: zeroed, as in .bss. *)
Definition inode0 : inode := mkInode 0 0 0 0 0 0 0 0 0 (replicate 13 0).
Definition icache0 : list inode := replicate NINODE inode0.
