(* ===== verification/FsTx.v ===== *)
(** * File-system steps inside a transaction

    Rules for the operations of [BlockStore] in the form the proofs about fs.c
    use: what a step does to the view, to the buffers held and to the set of
    blocks logged, all else unchanged. *)
From stdpp Require Import base list gmap numbers option strings sets.
From Stdlib Require Import ZArith Lia.
From S2P Require Import Prelude Layout BlockStore Fs.
Open Scope Z_scope.

Section steps.
Context {BS : BlockStore}.
Implicit Types (s : bst).

Definition vw (s : bst) : list block := t_view (bs_abs s).
Definition hd (s : bst) : gmap nat Z := t_held (bs_abs s).
(** The blocks logged in the open transaction. *)
Definition psecs (s : bst) : gset Z := list_to_set (t_pend (bs_abs s)).*1.

(** From [s] to [s'] within one transaction: the new view, buffers held and
    blocks logged; every disk image written recovers to the same home blocks. *)
Record tstep (s s' : bst) (v : list block) (h : gmap nat Z) (P : gset Z) : Prop := mkTstep {
  ts_wf : bs_wf s';
  ts_view : vw s' = v;
  ts_held : hd s' = h;
  ts_secs : psecs s' = P;
  ts_home : t_home (bs_abs s') = t_home (bs_abs s);
  ts_active : t_active (bs_abs s') = t_active (bs_abs s);
  ts_cap : t_cap (bs_abs s') = t_cap (bs_abs s);
  ts_hist : ∃ new, bs_hist s' = new ++ bs_hist s ∧ Forall (eq (t_home (bs_abs s))) new }.

Lemma tstep_refl s : bs_wf s → tstep s s (vw s) (hd s) (psecs s).
Proof. intros. split; try done. by exists []. Qed.

Lemma tstep_trans s1 s2 s3 v2 h2 P2 v3 h3 P3 :
  tstep s1 s2 v2 h2 P2 → tstep s2 s3 v3 h3 P3 → tstep s1 s3 v3 h3 P3.
Proof.
  intros [W2 V2 H2 S2 O2 A2 C2 (n2 & N2 & F2)] [W3 V3 H3 S3 O3 A3 C3 (n3 & N3 & F3)].
  split; try done; try congruence. exists (n3 ++ n2). rewrite N3, N2, app_assoc. split; [done|].
  apply Forall_app. split; [by rewrite <- O2|done].
Qed.

Lemma psecs_length s : bs_wf s → length (t_pend (bs_abs s)) = size (psecs s).
Proof.
  intros Hwf. destruct (bs_pend_wf s Hwf) as [Hnd _]. unfold psecs.
  rewrite size_list_to_set by done. by rewrite length_fmap.
Qed.

Lemma view_block_wf s sec d : bs_wf s → vw s !! sec = Some d → block_wf d.
Proof. intros Hwf Hd. destruct (bs_view_wf s Hwf) as (Hall & _). by eapply Forall_lookup_1. Qed.

Lemma inrange_lookup s sec : t_inrange (bs_abs s) sec ↔ 0 ≤ sec ∧ is_Some (vw s !! Z.to_nat sec).
Proof. unfold t_inrange, vw. rewrite lookup_lt_is_Some. lia. Qed.

(** ** The operations *)
Lemma wp_bread s sec Q :
  bs_wf s → t_inrange (bs_abs s) sec → t_fresh (bs_abs s) sec →
  (size (hd s) + size (psecs s) < NBUF)%nat →
  (∀ i s', hd s !! i = None → t_clean (bs_abs s') sec →
    tstep s s' (vw s) (<[i := sec]> (hd s)) (psecs s) → Q i s') →
  wp (bs_bread ROOTDEV sec) Q s.
Proof.
  intros Hwf Hr Hf Hroom HQ. eapply wp_mono.
  { apply bs_bread_ok; [done..|]. unfold t_room. by rewrite psecs_length. }
  intros i s' (Hwf' & Hi & Habs & Hhist). apply HQ; [done| |].
  - rewrite Habs. by apply (bs_coherent s sec).
  - unfold vw, hd, psecs. split; unfold vw, hd, psecs; rewrite ?Habs; try done. by exists [].
Qed.

Lemma wp_bdata s i sec d Q :
  bs_wf s → hd s !! i = Some sec → vw s !! Z.to_nat sec = Some d → Q d s → wp (bs_bdata i) Q s.
Proof.
  intros Hwf Hi Hd HQ. destruct (bs_bdata_ok s i sec Hwf Hi) as (d' & Hd' & Hrun).
  unfold wp. rewrite Hrun. unfold vw in Hd. congruence.
Qed.

Lemma wp_bset s i sec d Q :
  bs_wf s → hd s !! i = Some sec → block_wf d →
  (∀ s', tstep s s' (<[Z.to_nat sec := d]> (vw s)) (hd s) (psecs s) → Q tt s') →
  wp (bs_bset i d) Q s.
Proof.
  intros Hwf Hi Hd HQ. eapply wp_mono; [by apply (bs_bset_ok s i sec)|].
  intros [] s' (Hwf' & Habs & Hhist). apply HQ.
  split; unfold vw, hd, psecs; rewrite ?Habs; try done. by exists [].
Qed.

Lemma wp_log_write s i sec d Q :
  bs_wf s → hd s !! i = Some sec → vw s !! Z.to_nat sec = Some d → 0 ≤ sec →
  t_active (bs_abs s) = true → Z.of_nat (size (psecs s)) < t_cap (bs_abs s) →
  (size (hd s) + size (psecs s) < NBUF)%nat →
  (∀ s', t_clean (bs_abs s') sec → tstep s s' (vw s) (hd s) ({[sec]} ∪ psecs s) → Q tt s') →
  wp (bs_log_write i) Q s.
Proof.
  intros Hwf Hi Hd Hsec Ha Hcap Hroom HQ.
  destruct (bs_pend_wf s Hwf) as [Hnd Hpr]. destruct (bs_view_wf s Hwf) as (_ & Hlen & _).
  eapply wp_mono.
  { apply (bs_log_write_ok s i sec d); try done; unfold t_room; by rewrite psecs_length. }
  intros [] s' (Hwf' & Habs & Hhist). apply HQ.
  - rewrite Habs. unfold t_clean. cbn [t_view t_home t_pend set_pend].
    rewrite apply_log_insert; [|done| |done].
    + rewrite list_lookup_insert_eq; [done|]. rewrite length_apply_log, Hlen.
      by apply lookup_lt_Some in Hd.
    + eapply Forall_impl; [done|]. unfold t_inrange. lia.
  - split; unfold vw, hd, psecs; rewrite ?Habs; try done.
    cbn [t_pend set_pend]. rewrite log_insert_fst.
    apply set_eq. intros x. rewrite elem_of_union, elem_of_singleton, !elem_of_list_to_set.
    destruct (decide (sec ∈ (t_pend (bs_abs s)).*1)); [set_solver|].
    rewrite elem_of_app, list_elem_of_singleton. naive_solver.
Qed.

Lemma wp_brelse s i sec Q :
  bs_wf s → hd s !! i = Some sec → t_clean (bs_abs s) sec →
  (∀ s', tstep s s' (vw s) (delete i (hd s)) (psecs s) → Q tt s') → wp (bs_brelse i) Q s.
Proof.
  intros Hwf Hi Hc HQ. eapply wp_mono; [by apply (bs_brelse_ok s i sec)|].
  intros [] s' (Hwf' & Habs & Hhist). apply HQ.
  split; unfold vw, hd, psecs; rewrite ?Habs; try done. by exists [].
Qed.

(** Reading a block nobody holds. *)
Lemma wp_read_block {A} s sec d (k : block → M bst A) Q :
  bs_wf s → 0 ≤ sec → vw s !! Z.to_nat sec = Some d → t_fresh (bs_abs s) sec →
  (size (hd s) + size (psecs s) < NBUF)%nat →
  (∀ s', tstep s s' (vw s) (hd s) (psecs s) → wp (k d) Q s') →
  wp (bp <- bs_bread ROOTDEV sec ;; d <- bs_bdata bp ;; bs_brelse bp ;;; k d) Q s.
Proof.
  intros Hwf Hs Hd Hf Hroom HQ. wstep1. apply wp_bread; [done|by apply inrange_lookup|done..|].
  intros i s1 Hi Hc T1. pose proof T1 as [W1 V1 H1 _ _ _ _ _].
  assert (hd s1 !! i = Some sec) as Hi1 by (by rewrite H1, lookup_insert_eq).
  wstep1. apply (wp_bdata _ _ sec d); [done..|by rewrite V1|].
  wstep1. apply (wp_brelse _ _ sec); [done..|]. intros s2 T2. apply HQ.
  pose proof (tstep_trans _ _ _ _ _ _ _ _ _ T1 T2) as T.
  rewrite V1, H1, (ts_secs _ _ _ _ _ T1) in T. by rewrite delete_insert_id in T.
Qed.

(** Storing into a held block, logging and releasing it. *)
Lemma wp_put_block s i sec d Q :
  bs_wf s → hd s !! i = Some sec → block_wf d → t_inrange (bs_abs s) sec →
  t_active (bs_abs s) = true → Z.of_nat (size (psecs s)) < t_cap (bs_abs s) →
  (size (hd s) + size (psecs s) < NBUF)%nat →
  (∀ s', tstep s s' (<[Z.to_nat sec := d]> (vw s)) (delete i (hd s)) ({[sec]} ∪ psecs s) → Q tt s') →
  wp (bs_bset i d ;;; bs_log_write i ;;; bs_brelse i) Q s.
Proof.
  intros Hwf Hi Hd [Hs Hr]%inrange_lookup Ha Hcap Hroom HQ.
  wstep1. apply (wp_bset _ _ sec); [done..|]. intros s1 T1.
  pose proof T1 as [W1 V1 H1 P1 _ A1 C1 _].
  wstep1. apply (wp_log_write _ _ sec d); rewrite ?H1, ?V1, ?P1, ?A1, ?C1; try done.
  { apply list_lookup_insert_eq. by apply lookup_lt_is_Some. }
  intros s2 Hc T2. pose proof T2 as [W2 V2 H2 P2 _ _ _ _].
  apply (wp_brelse _ _ sec); [done|by rewrite H2, ?H1|done|]. intros s3 T3. apply HQ.
  pose proof (tstep_trans _ _ _ _ _ _ _ _ _ (tstep_trans _ _ _ _ _ _ _ _ _ T1 T2) T3) as T.
  by rewrite H2, ?H1, P2, ?P1, V2, ?V1 in T.
Qed.

Lemma wp_put_then {A} s i sec d (k : M bst A) Q :
  bs_wf s → hd s !! i = Some sec → block_wf d → t_inrange (bs_abs s) sec →
  t_active (bs_abs s) = true → Z.of_nat (size (psecs s)) < t_cap (bs_abs s) →
  (size (hd s) + size (psecs s) < NBUF)%nat →
  (∀ s', tstep s s' (<[Z.to_nat sec := d]> (vw s)) (delete i (hd s)) ({[sec]} ∪ psecs s) →
    wp k Q s') →
  wp (bs_bset i d ;;; bs_log_write i ;;; bs_brelse i ;;; k) Q s.
Proof.
  intros Hwf Hi Hd Hr Ha Hcap Hroom HQ.
  pose proof (wp_put_block s i sec d (λ _ s', wp k Q s') Hwf Hi Hd Hr Ha Hcap Hroom HQ) as H.
  unfold wp, bind in *. destruct (bs_bset i d s) as [[] s1| | |]; try done.
  destruct (bs_log_write i s1) as [[] s2| | |]; try done.
  destruct (bs_brelse i s2) as [[] s3| | |]; try done.
Qed.
End steps.

(** ** Steps of the file-system state *)
Section fsteps.
Context {BS : BlockStore}.
Implicit Types (s : fstate BS).

Lemma wp_sto {A} (m : M bst A) Q s :
  wp m (λ a b, Q a (set_store b s)) (f_store s) → wp (sto m) Q s.
Proof. apply wp_zoom. Qed.

Lemma wp_geti ip i Q s : f_icache s !! ip = Some i → Q i s → wp (geti ip) Q s.
Proof. intros Hi HQ. unfold wp, geti. by rewrite Hi. Qed.

Lemma wp_modi ip i f Q s :
  f_icache s !! ip = Some i → Q tt (mkF (f_store s) (<[ip := f i]> (f_icache s))) →
  wp (modi ip f) Q s.
Proof.
  intros Hi HQ. unfold modi. wstep1. eapply wp_geti; [done|]. apply wp_modify.
  replace (alter f ip (f_icache s)) with (<[ip := f i]> (f_icache s)); [done|].
  apply list_eq. intros j. destruct (decide (ip = j)) as [<-|Hne].
  - rewrite list_lookup_insert_eq by (by eapply lookup_lt_Some). by rewrite list_lookup_alter_eq, Hi.
  - by rewrite list_lookup_insert_ne, list_lookup_alter_ne.
Qed.

(** Sequences of store operations inside a longer body. *)
Lemma wp_sto_read {A} s sec d (k : block → M (fstate BS) A) Q :
  let b := f_store s in
  bs_wf b → 0 ≤ sec → vw b !! Z.to_nat sec = Some d → t_fresh (bs_abs b) sec →
  (size (hd b) + size (psecs b) < NBUF)%nat →
  (∀ b', tstep b b' (vw b) (hd b) (psecs b) → wp (k d) Q (set_store b' s)) →
  wp (bp <- sto (bs_bread ROOTDEV sec) ;; d <- sto (bs_bdata bp) ;; sto (bs_brelse bp) ;;; k d) Q s.
Proof.
  intros b Hwf Hs Hd Hf Hroom HQ. destruct s as [b0 c]. simpl in b.
  pose proof (wp_read_block b sec d ret (λ d b', wp (k d) Q (mkF b' c)) Hwf Hs Hd Hf Hroom HQ) as H.
  unfold wp, bind, sto, zoom in *. simpl in *. subst b.
  destruct (bs_bread ROOTDEV sec b0) as [i b1| | |]; try done. simpl.
  destruct (bs_bdata i b1) as [d1 b2| | |]; try done. simpl.
  destruct (bs_brelse i b2) as [[] b3| | |]; try done.
Qed.

Lemma wp_sto_put {A} s i sec d (k : M (fstate BS) A) Q :
  let b := f_store s in
  bs_wf b → hd b !! i = Some sec → block_wf d → t_inrange (bs_abs b) sec →
  t_active (bs_abs b) = true → Z.of_nat (size (psecs b)) < t_cap (bs_abs b) →
  (size (hd b) + size (psecs b) < NBUF)%nat →
  (∀ b', tstep b b' (<[Z.to_nat sec := d]> (vw b)) (delete i (hd b)) ({[sec]} ∪ psecs b) →
    wp k Q (set_store b' s)) →
  wp (sto (bs_bset i d) ;;; sto (bs_log_write i) ;;; sto (bs_brelse i) ;;; k) Q s.
Proof.
  intros b Hwf Hi Hd Hr Ha Hcap Hroom HQ. destruct s as [b0 c]. simpl in b.
  pose proof (wp_put_block b i sec d (λ _ b', wp k Q (mkF b' c)) Hwf Hi Hd Hr Ha Hcap Hroom HQ) as H.
  unfold wp, bind, sto, zoom in *. simpl in *. subst b.
  destruct (bs_bset i d b0) as [[] b1| | |]; try done. simpl.
  destruct (bs_log_write i b1) as [[] b2| | |]; try done. simpl.
  destruct (bs_brelse i b2) as [[] b3| | |]; try done.
Qed.

Lemma wp_sto_put_end s i sec d Q :
  let b := f_store s in
  bs_wf b → hd b !! i = Some sec → block_wf d → t_inrange (bs_abs b) sec →
  t_active (bs_abs b) = true → Z.of_nat (size (psecs b)) < t_cap (bs_abs b) →
  (size (hd b) + size (psecs b) < NBUF)%nat →
  (∀ b', tstep b b' (<[Z.to_nat sec := d]> (vw b)) (delete i (hd b)) ({[sec]} ∪ psecs b) →
    Q tt (set_store b' s)) →
  wp (sto (bs_bset i d) ;;; sto (bs_log_write i) ;;; sto (bs_brelse i)) Q s.
Proof.
  intros b Hwf Hi Hd Hr Ha Hcap Hroom HQ.
  pose proof (wp_sto_put s i sec d (ret tt) Q Hwf Hi Hd Hr Ha Hcap Hroom HQ) as H.
  unfold wp, bind, ret in *. destruct (sto (bs_bset i d) s) as [[] s1| | |]; try done.
  destruct (sto (bs_log_write i) s1) as [[] s2| | |]; try done.
  destruct (sto (bs_brelse i) s2) as [[] s3| | |]; try done.
Qed.
End fsteps.
