(* ===== verification/FsBlocks.v ===== *)
(** * The block allocator: balloc, bfree, bzero

    The free bitmap as a set of blocks, and what the three functions do to the
    view of the disk, on every branch. *)
From stdpp Require Import base list gmap numbers option strings sets.
From Stdlib Require Import ZArith Lia.
From S2P Require Import Prelude Layout BlockStore Fs FsTx.
Open Scope Z_scope.

(** ** Bits of a bitmap block *)
Lemma land_bit x k : 0 ≤ k → negb (Z.land x (Z.shiftl 1 k) =? 0) = Z.testbit x k.
Proof.
  intros Hk. rewrite Z.shiftl_1_l. destruct (Z.testbit x k) eqn:Hb.
  - apply negb_true_iff, Z.eqb_neq. intros H0.
    assert (Z.testbit (Z.land x (2 ^ k)) k = true) as H
      by (rewrite Z.land_spec, Hb, Z.pow2_bits_true by lia; done).
    by rewrite H0, Z.bits_0 in H.
  - apply negb_false_iff, Z.eqb_eq. apply Z.bits_inj'. intros n Hn.
    rewrite Z.land_spec, Z.pow2_bits_eqb, Z.bits_0 by lia.
    destruct (Z.eqb_spec k n) as [<-|]; [by rewrite Hb|apply andb_false_r].
Qed.

Lemma bit_used_testbit d bi : bit_used d bi = Z.testbit (bitbyte d bi) (bi mod 8).
Proof. unfold bit_used, bitmask. apply land_bit. zlia. Qed.

Definition bit_ok (bi : Z) : Prop := 0 ≤ bi < BPB.

Section bits.
Context (d : block) (Hd : block_wf d).

Lemma bitbyte_range bi : is_byte (bitbyte d bi).
Proof.
  unfold bitbyte. destruct Hd as [_ Hb]. destruct (d !! _) as [x|] eqn:Hx; simpl.
  - by eapply Forall_lookup_1.
  - unfold is_byte. lia.
Qed.

Lemma bit_upd_wf bi x : is_byte x → block_wf (<[Z.to_nat (bi / 8) := x]> d).
Proof. intros Hx. destruct Hd as [Hl Hb]. split; [by rewrite length_insert|by apply Forall_insert]. Qed.

Lemma u8_is_byte x : is_byte (u8 x).
Proof. apply u8_range. Qed.

Lemma bit_set_wf bi : block_wf (bit_set d bi).
Proof. apply bit_upd_wf, u8_is_byte. Qed.
Lemma bit_clear_wf bi : block_wf (bit_clear d bi).
Proof. apply bit_upd_wf, u8_is_byte. Qed.

Lemma bitbyte_upd bi x bj : bit_ok bi → bit_ok bj →
  bitbyte (<[Z.to_nat (bi / 8) := x]> d) bj = if bi / 8 =? bj / 8 then x else bitbyte d bj.
Proof.
  unfold bit_ok, BPB, BSIZE, bitbyte. intros Hi Hj. destruct Hd as [Hl _].
  destruct (Z.eqb_spec (bi / 8) (bj / 8)) as [->|Hne].
  - rewrite list_lookup_insert_eq; [done|]. rewrite Hl. zlia.
  - rewrite list_lookup_insert_ne; [done|]. zlia.
Qed.

Lemma testbit_u8 x k : 0 ≤ k < 8 → Z.testbit (u8 x) k = Z.testbit x k.
Proof. intros. unfold u8. apply Z.mod_pow2_bits_low. lia. Qed.

Lemma bit_used_set bi bj : bit_ok bi → bit_ok bj →
  bit_used (bit_set d bi) bj = (bi =? bj) || bit_used d bj.
Proof.
  intros Hi Hj. rewrite !bit_used_testbit. unfold bit_set. rewrite bitbyte_upd by done.
  unfold bit_ok, BPB, BSIZE in *. destruct (Z.eqb_spec (bi / 8) (bj / 8)) as [Heq|Hne].
  - rewrite testbit_u8, Z.lor_spec by zlia. unfold bitmask.
    rewrite Z.shiftl_1_l, Z.pow2_bits_eqb by zlia.
    assert (bitbyte d bi = bitbyte d bj) as -> by (unfold bitbyte; by rewrite Heq).
    rewrite orb_comm. f_equal. destruct (Z.eqb_spec bi bj) as [->|]; [apply Z.eqb_refl|].
    apply Z.eqb_neq. zlia.
  - destruct (Z.eqb_spec bi bj) as [->|]; [done|]. done.
Qed.

Lemma bit_used_clear bi bj : bit_ok bi → bit_ok bj →
  bit_used (bit_clear d bi) bj = negb (bi =? bj) && bit_used d bj.
Proof.
  intros Hi Hj. rewrite !bit_used_testbit. unfold bit_clear. rewrite bitbyte_upd by done.
  unfold bit_ok, BPB, BSIZE in *. destruct (Z.eqb_spec (bi / 8) (bj / 8)) as [Heq|Hne].
  - rewrite testbit_u8, Z.land_spec, Z.lnot_spec by zlia. unfold bitmask.
    rewrite Z.shiftl_1_l, Z.pow2_bits_eqb by zlia.
    assert (bitbyte d bi = bitbyte d bj) as -> by (unfold bitbyte; by rewrite Heq).
    rewrite andb_comm. do 2 f_equal. destruct (Z.eqb_spec bi bj) as [->|]; [apply Z.eqb_refl|].
    apply Z.eqb_neq. zlia.
  - destruct (Z.eqb_spec bi bj) as [->|]; [done|]. done.
Qed.
End bits.

(** Freeing a block just allocated gives the bitmap back, bit for bit. *)
Lemma bit_clear_set d bi :
  block_wf d → bit_ok bi → bit_used d bi = false → bit_clear (bit_set d bi) bi = d.
Proof.
  intros Hd Hi Hf. pose proof (bit_set_wf d Hd bi) as Hw.
  unfold bit_clear. unfold bit_set at 2. rewrite list_insert_insert_eq.
  unfold bit_set. rewrite bitbyte_upd, Z.eqb_refl by done.
  apply list_insert_id. unfold bit_ok, BPB, BSIZE in Hi.
  destruct (lookup_lt_is_Some_2 d (Z.to_nat (bi / 8))) as [x Hx].
  { destruct Hd as [-> _]. zlia. }
  rewrite Hx. f_equal. rewrite bit_used_testbit in Hf.
  pose proof (bitbyte_range d Hd bi) as Hr. unfold bitbyte in *. rewrite Hx in *. simpl in *.
  unfold is_byte in Hr. apply Z.bits_inj'. intros n Hn.
  destruct (Z.lt_ge_cases n 8) as [H8|H8].
  - rewrite testbit_u8, Z.land_spec, testbit_u8, Z.lor_spec, Z.lnot_spec by lia. unfold bitmask.
    rewrite Z.shiftl_1_l, Z.pow2_bits_eqb by zlia.
    destruct (Z.eqb_spec (bi mod 8) n) as [<-|]; [rewrite Hf; by rewrite andb_false_r|].
    by rewrite orb_false_r, andb_true_r.
  - unfold u8. rewrite (Z.mod_pow2_bits_high _ 8) by lia.
    destruct (Z.eq_dec x 0) as [->|]; [apply Z.bits_0|]. apply Z.bits_above_log2; [lia|].
    apply Z.log2_lt_pow2; [lia|]. apply Z.lt_le_trans with (2 ^ 8); [lia|].
    apply Z.pow_le_mono_r; lia.
Qed.

(** ** The bitmap of a file system *)
Definition bblock (sb : superblock) (b : Z) : Z := BBLOCK b (sb_ninodes sb).

Record geom (v : list block) (sb : superblock) : Prop := mkGeom {
  g_sb : ∃ d, v !! 1%nat = Some d ∧ dec_superblock d = sb;
  g_size : 0 ≤ sb_size sb < 2 ^ 31 - BPB;
  g_ninodes : 0 ≤ sb_ninodes sb;
  g_bitmap : ∀ b, 0 ≤ b < sb_size sb → bblock sb b < Z.of_nat (length v) }.

Definition blk_used (v : list block) (sb : superblock) (b : Z) : bool :=
  match v !! Z.to_nat (bblock sb b) with Some d => bit_used d (b mod BPB) | None => true end.

(** The view after balloc returns [b], and after bfree of [b]. *)
Definition alloc_view (v : list block) (sb : superblock) (b : Z) : list block :=
  <[Z.to_nat b := replicate 512 0]>
    (alter (λ d, bit_set d (b mod BPB)) (Z.to_nat (bblock sb b)) v).
Definition free_view (v : list block) (sb : superblock) (b : Z) : list block :=
  alter (λ d, bit_clear d (b mod BPB)) (Z.to_nat (bblock sb b)) v.

Lemma bblock_pos sb b : 0 ≤ sb_ninodes sb → 0 ≤ b → 3 ≤ bblock sb b.
Proof.
  intros. unfold bblock, BBLOCK.
  assert (0 ≤ b / BPB) by (apply Z.div_pos; [lia|done]).
  assert (0 ≤ sb_ninodes sb / IPB) by (apply Z.div_pos; [lia|done]).
  lia.
Qed.

Lemma bblock_lookup v sb b :
  geom v sb → 0 ≤ b < sb_size sb → ∃ d, v !! Z.to_nat (bblock sb b) = Some d.
Proof.
  intros Hg Hb. apply lookup_lt_is_Some_2. pose proof (g_bitmap _ _ Hg b Hb).
  pose proof (bblock_pos sb b (g_ninodes _ _ Hg)). lia.
Qed.

Lemma bit_ok_mod b : bit_ok (b mod BPB).
Proof. unfold bit_ok. apply Z.mod_pos_bound. unfold BPB, BSIZE. lia. Qed.

Lemma bblock_same sb b b' : bblock sb b = bblock sb b' ↔ b / BPB = b' / BPB.
Proof. unfold bblock, BBLOCK. lia. Qed.

Lemma alter_insert_block (v : list block) k d f :
  v !! k = Some d → alter f k v = <[k := f d]> v.
Proof.
  intros Hd. apply list_eq. intros j. destruct (decide (k = j)) as [<-|Hne].
  - rewrite list_lookup_insert_eq by (by eapply lookup_lt_Some). by rewrite list_lookup_alter_eq, Hd.
  - by rewrite list_lookup_insert_ne, list_lookup_alter_ne.
Qed.

(** ** balloc *)
Lemma balloc_find_spec fuel d size b bi :
  0 ≤ b → 0 ≤ bi → b + bi + Z.of_nat fuel < 2 ^ 32 →
  match balloc_find fuel d size b bi with
  | Some r => bi ≤ r < bi + Z.of_nat fuel ∧ b + r < size ∧ bit_used d r = false ∧
      ∀ j, bi ≤ j < r → bit_used d j = true
  | None => ∀ j, bi ≤ j < bi + Z.of_nat fuel → b + j < size → bit_used d j = true
  end.
Proof.
  revert bi. induction fuel as [|fuel IH]; intros bi Hb Hbi Hmax; cbn [balloc_find].
  - intros j Hj. lia.
  - rewrite u32_small by lia. destruct (Z.ltb_spec (b + bi) size) as [Hlt|Hge].
    + destruct (bit_used d bi) eqn:Hu; simpl.
      * specialize (IH (bi + 1) Hb ltac:(lia) ltac:(lia)).
        destruct (balloc_find fuel d size b (bi + 1)) as [r|].
        -- destruct IH as (H1 & H2 & H3 & H4). split_and!; [lia|lia|done|done|].
           intros j Hj. destruct (decide (j = bi)) as [->|]; [done|]. apply H4. lia.
        -- intros j Hj Hs. destruct (decide (j = bi)) as [->|]; [done|]. apply IH; lia.
      * split_and!; [lia|lia|done|done|]. intros j Hj. lia.
    + intros j Hj Hs. lia.
Qed.

Section alloc.
Context {BS : BlockStore} (sb : superblock).
Implicit Types (s : bst).

(** What the allocator needs of the state: a bitmap on disk, and neither the
    superblock nor a bitmap block in use by the caller. *)
Record alloc_pre s : Prop := mkAllocPre {
  ap_wf : bs_wf s;
  ap_geom : geom (vw s) sb;
  ap_sb : t_fresh (bs_abs s) 1;
  ap_bitmap : ∀ b, 0 ≤ b < sb_size sb → t_fresh (bs_abs s) (bblock sb b);
  ap_active : t_active (bs_abs s) = true }.

Lemma alloc_pre_step s s' P :
  alloc_pre s → tstep s s' (vw s) (hd s) P → alloc_pre s'.
Proof.
  intros [Hwf Hg Hs Hb Ha] [W V H _ _ A _ _].
  unfold hd in H. split; try done.
  - by rewrite V.
  - intros i. rewrite H. apply Hs.
  - intros b Hr i. rewrite H. by apply Hb.
  - by rewrite A.
Qed.

Lemma wp_fs_readsb s Q :
  alloc_pre s → (size (hd s) + size (psecs s) < NBUF)%nat →
  (∀ s', tstep s s' (vw s) (hd s) (psecs s) → Q sb s') → wp (fs_readsb ROOTDEV) Q s.
Proof.
  intros [Hwf [(d & Hd & <-) _ _ _] Hs _ _] Hroom HQ. unfold fs_readsb.
  by apply (wp_read_block s 1 d).
Qed.

Lemma wp_bzero s b Q :
  bs_wf s → t_inrange (bs_abs s) b → t_fresh (bs_abs s) b → t_active (bs_abs s) = true →
  Z.of_nat (size (psecs s)) < t_cap (bs_abs s) →
  (size (hd s) + 1 + size (psecs s) < NBUF)%nat →
  (∀ s', tstep s s' (<[Z.to_nat b := replicate 512 0]> (vw s)) (hd s) ({[b]} ∪ psecs s) → Q tt s') →
  wp (bzero ROOTDEV b) Q s.
Proof.
  intros Hwf Hr Hf Ha Hcap Hroom HQ. destruct (bs_view_wf s Hwf) as (_ & _ & Hmax).
  unfold bzero. rewrite u32_small by (unfold t_inrange in Hr; lia).
  wstep1. apply wp_bread; [done..|lia|]. intros i s1 Hi _ T1.
  pose proof T1 as [W1 V1 H1 P1 _ A1 C1 _].
  apply (wp_put_block _ _ b); [done|by rewrite H1, lookup_insert_eq| | | | | |].
  - split; [done|]. by apply Forall_replicate.
  - apply inrange_lookup. rewrite V1. by apply inrange_lookup.
  - by rewrite A1.
  - by rewrite P1, C1.
  - rewrite P1, H1, map_size_insert_None by done. lia.
  - intros s2 T2. apply HQ. pose proof (tstep_trans _ _ _ _ _ _ _ _ _ T1 T2) as T.
    rewrite V1, H1, P1 in T. by rewrite delete_insert_id in T.
Qed.

Lemma bblock_base b0 r : b0 mod BPB = 0 → bit_ok r → (b0 + r) / BPB = b0 / BPB ∧ (b0 + r) mod BPB = r.
Proof. unfold bit_ok. change BPB with 4096. intros. zlia. Qed.

Lemma blk_used_at v b0 r d :
  b0 mod BPB = 0 → bit_ok r → v !! Z.to_nat (bblock sb b0) = Some d →
  blk_used v sb (b0 + r) = bit_used d r.
Proof.
  intros Hb Hr Hd. destruct (bblock_base b0 r Hb Hr) as [H1 H2]. unfold blk_used.
  replace (bblock sb (b0 + r)) with (bblock sb b0) by (by apply bblock_same). by rewrite Hd, H2.
Qed.

(** The search in one bitmap block finds [b] if it is the first free block. *)
Lemma balloc_find_first v b0 b d :
  0 ≤ b0 → b0 mod BPB = 0 → b0 ≤ b < sb_size sb → sb_size sb < 2 ^ 31 - BPB →
  v !! Z.to_nat (bblock sb b0) = Some d →
  blk_used v sb b = false → (∀ b', 0 ≤ b' < b → blk_used v sb b' = true) →
  balloc_find (Z.to_nat BPB) d (sb_size sb) b0 0
  = if b <? b0 + BPB then Some (b - b0) else None.
Proof.
  intros H0 Hm Hb Hmax Hd Hfree Hused.
  pose proof (balloc_find_spec (Z.to_nat BPB) d (sb_size sb) b0 0 H0 ltac:(lia)) as H.
  change (Z.of_nat (Z.to_nat BPB)) with BPB in H. change BPB with 4096 in *.
  specialize (H ltac:(lia)).
  assert (∀ r, 0 ≤ r < 4096 → blk_used v sb (b0 + r) = bit_used d r) as Hat
    by (intros r Hr; by apply blk_used_at).
  destruct (balloc_find _ _ _ _ _) as [r|].
  - destruct H as (Hr & Hs & Hf & Hall). rewrite <- Hat in Hf by lia.
    destruct (Z.lt_trichotomy (b0 + r) b) as [Hlt|[Heq|Hgt]].
    + rewrite Hused in Hf by lia. done.
    + rewrite (proj2 (Z.ltb_lt _ _)) by lia. f_equal. lia.
    + specialize (Hall (b - b0) ltac:(lia)). rewrite <- Hat in Hall by lia.
      replace (b0 + (b - b0)) with b in Hall by lia. congruence.
  - destruct (Z.ltb_spec b (b0 + 4096)) as [Hlt|]; [|done].
    specialize (H (b - b0) ltac:(lia) ltac:(lia)). rewrite <- Hat in H by lia.
    replace (b0 + (b - b0)) with b in H by lia. congruence.
Qed.

(** The state in which balloc returns [b]. *)
Record alloc_ready s (b : Z) : Prop := mkAllocReady {
  ar_pre : alloc_pre s;
  ar_range : 0 ≤ b < sb_size sb;
  ar_free : blk_used (vw s) sb b = false;
  ar_first : ∀ b', 0 ≤ b' < b → blk_used (vw s) sb b' = true;
  ar_inrange : t_inrange (bs_abs s) b;
  ar_fresh : t_fresh (bs_abs s) b;
  ar_meta : b ≠ bblock sb b;
  ar_cap : Z.of_nat (size ({[bblock sb b]} ∪ psecs s)) < t_cap (bs_abs s);
  ar_room : (size (hd s) + 1 + size ({[bblock sb b]} ∪ psecs s) < NBUF)%nat }.

Lemma psecs_le s x : (size (psecs s) ≤ size ({[x]} ∪ psecs s))%nat.
Proof. apply subseteq_size. set_solver. Qed.

Lemma alloc_ready_step s s' b :
  alloc_ready s b → tstep s s' (vw s) (hd s) (psecs s) → alloc_ready s' b.
Proof.
  intros [Hp ? ? ? [? Hr]%inrange_lookup ? ? ? ?] Hs. pose proof Hs as [W V HH P _ A C _]. split; try done.
  - by eapply alloc_pre_step.
  - by rewrite V.
  - by rewrite V.
  - apply inrange_lookup. by rewrite V.
  - intros i. unfold hd in HH. rewrite HH. done.
  - by rewrite P, C.
  - by rewrite P, HH.
Qed.

Lemma wp_balloc_loop fuel s b0 b Q :
  alloc_ready s b → 0 ≤ b0 ≤ b → b0 mod BPB = 0 → (b - b0) / BPB < Z.of_nat fuel →
  (∀ s', tstep s s' (alloc_view (vw s) sb b) (hd s) ({[b]} ∪ ({[bblock sb b]} ∪ psecs s)) → Q b s') →
  wp (balloc_loop fuel ROOTDEV sb b0) Q s.
Proof.
  revert s b0. induction fuel as [|fuel IH]; intros s b0 Hr Hb Hm Hfuel HQ.
  { exfalso. assert (0 ≤ (b - b0) / BPB) by (apply Z.div_pos; [lia|done]). lia. }
  pose proof Hr as [Hp Hb' Hf Hused Hin Hfr Hmeta Hcap Hroom].
  pose proof Hp as [Hwf Hg Hsb Hbm Ha]. pose proof (g_size _ _ Hg) as Hsz.
  pose proof (psecs_le s (bblock sb b)) as Hle.
  destruct (bblock_lookup (vw s) sb b0 Hg) as [d Hd]; [lia|].
  pose proof (bblock_pos sb b0 (g_ninodes _ _ Hg) ltac:(lia)) as H3.
  assert (BPB = 4096) as HBPB by done.
  cbn [balloc_loop]. rewrite u32_small, (proj2 (Z.ltb_lt _ _)) by lia. fold (bblock sb b0).
  wstep1. apply wp_bread; [done|apply inrange_lookup; split; [lia|eauto]|apply Hbm; lia|lia|].
  intros i s1 Hi Hc T1. pose proof T1 as [W1 V1 H1 P1 _ A1 C1 _].
  assert (hd s1 !! i = Some (bblock sb b0)) as Hi1 by (by rewrite H1, lookup_insert_eq).
  wstep1. apply (wp_bdata _ _ (bblock sb b0) d); [done..|by rewrite V1|].
  rewrite (balloc_find_first (vw s) b0 b d) by (done || lia).
  destruct (Z.ltb_spec b (b0 + BPB)) as [Hlt|Hge].
  - destruct (bblock_base b0 (b - b0) Hm) as [Hq Hmod]; [unfold bit_ok; lia|].
    replace (b0 + (b - b0)) with b in * by lia.
    assert (bblock sb b = bblock sb b0) as Hbb by (by apply bblock_same).
    rewrite <- Hbb in *. rewrite <- Hmod.
    apply (wp_put_then _ _ (bblock sb b)); [done..| | | | | |].
    + apply bit_set_wf. by eapply (view_block_wf s).
    + apply inrange_lookup. rewrite V1. split; [lia|eauto].
    + by rewrite A1.
    + rewrite P1, C1. lia.
    + rewrite P1, H1, map_size_insert_None by done. lia.
    + intros s2 T2. pose proof (tstep_trans _ _ _ _ _ _ _ _ _ T1 T2) as T12.
      rewrite V1, H1, P1, delete_insert_id in T12 by done.
      pose proof T12 as [W2 V2 H2 P2 _ A2 C2 _].
      wstep1. apply wp_bzero; [done| | |by rewrite A2|by rewrite P2, C2|rewrite P2, H2; lia|].
      * apply inrange_lookup. rewrite V2. apply inrange_lookup in Hin as [? Hin].
        split; [lia|]. apply lookup_lt_is_Some. rewrite length_insert. by apply lookup_lt_is_Some.
      * intros j. unfold hd in H2. rewrite H2. apply Hfr.
      * intros s3 T3. wstep1. rewrite u32_small by lia. apply HQ.
        pose proof (tstep_trans _ _ _ _ _ _ _ _ _ T12 T3) as T.
        rewrite V2, H2, P2 in T. unfold alloc_view. by rewrite (alter_insert_block _ _ d).
  - wstep1. apply (wp_brelse _ _ (bblock sb b0)); [done..|].
    intros s2 T2. pose proof (tstep_trans _ _ _ _ _ _ _ _ _ T1 T2) as T12.
    rewrite V1, H1, P1, delete_insert_id in T12 by done.
    rewrite (proj2 (Z.ltb_lt _ _)) by lia.
    pose proof T12 as [W2 V2 H2 P2 _ A2 C2 _].
    apply (IH s2 (b0 + BPB)).
    + by eapply alloc_ready_step.
    + lia.
    + rewrite HBPB in *. zlia.
    + rewrite HBPB in *. zlia.
    + intros s3 T3. apply HQ. rewrite V2, H2, P2 in T3. by eapply tstep_trans.
Qed.

Lemma wp_balloc s b Q :
  alloc_ready s b →
  (∀ s', tstep s s' (alloc_view (vw s) sb b) (hd s) ({[b]} ∪ ({[bblock sb b]} ∪ psecs s)) → Q b s') →
  wp (balloc ROOTDEV) Q s.
Proof.
  intros Hr HQ. pose proof Hr as [Hp Hb _ _ _ _ _ _ Hroom].
  pose proof (psecs_le s (bblock sb b)) as Hle.
  unfold balloc. wstep1. apply wp_fs_readsb; [done|lia|]. intros s1 T1.
  pose proof T1 as [_ V1 H1 P1 _ _ _ _].
  apply (wp_balloc_loop _ _ _ b); [by eapply alloc_ready_step|lia|done| |].
  - assert (b / BPB ≤ sb_size sb / BPB) by (apply Z.div_le_mono; [done|lia]).
    assert (0 ≤ b / BPB) by (apply Z.div_pos; [lia|done]). rewrite Z.sub_0_r. lia.
  - intros s2 T2. apply HQ. rewrite V1, H1, P1 in T2. by eapply tstep_trans.
Qed.

(** With every block in use, balloc panics. *)
Lemma balloc_find_full v b0 d :
  0 ≤ b0 → b0 mod BPB = 0 → sb_size sb < 2 ^ 31 - BPB → b0 < sb_size sb →
  v !! Z.to_nat (bblock sb b0) = Some d →
  (∀ b, 0 ≤ b < sb_size sb → blk_used v sb b = true) →
  balloc_find (Z.to_nat BPB) d (sb_size sb) b0 0 = None.
Proof.
  intros H0 Hm Hmax Hb0 Hd Hused. assert (BPB = 4096) as HBPB by done.
  pose proof (balloc_find_spec (Z.to_nat BPB) d (sb_size sb) b0 0 H0 ltac:(lia) ltac:(lia)) as H.
  destruct (balloc_find _ _ _ _ _) as [r|]; [|done]. destruct H as (Hr & Hs & Hf & _).
  rewrite <- (blk_used_at v b0 r d) in Hf by (done || unfold bit_ok; lia).
  rewrite Hused in Hf by lia. done.
Qed.

Lemma balloc_loop_full fuel s b0 :
  alloc_pre s → (size (hd s) + size (psecs s) < NBUF)%nat →
  (∀ b, 0 ≤ b < sb_size sb → blk_used (vw s) sb b = true) →
  0 ≤ b0 < sb_size sb + BPB → b0 mod BPB = 0 → (0 < fuel)%nat →
  sb_size sb ≤ b0 + BPB * (Z.of_nat fuel - 1) →
  balloc_loop fuel ROOTDEV sb b0 s = Panic "balloc: out of blocks".
Proof.
  revert s b0. induction fuel as [|fuel IH]; intros s b0 Hp Hroom Hused H0 Hm Hpos Hfuel; [lia|].
  assert (BPB = 4096) as HBPB by done. pose proof Hp as [Hwf Hg Hsb Hbm Ha].
  pose proof (g_size _ _ Hg) as Hsz. cbn [balloc_loop]. rewrite u32_small by lia.
  destruct (Z.ltb_spec b0 (sb_size sb)) as [Hlt|]; [|done]. fold (bblock sb b0).
  destruct (bblock_lookup (vw s) sb b0 Hg) as [d Hd]; [lia|].
  pose proof (bblock_pos sb b0 (g_ninodes _ _ Hg) ltac:(lia)) as H3.
  apply wp_panic, wp_bread; [done|apply inrange_lookup; split; [lia|eauto]|apply Hbm; lia|lia|].
  intros i s1 Hi Hc T1. pose proof T1 as [W1 V1 H1 P1 _ A1 C1 _].
  assert (hd s1 !! i = Some (bblock sb b0)) as Hi1 by (by rewrite H1, lookup_insert_eq).
  apply wp_panic, (wp_bdata _ _ (bblock sb b0) d); [done..|by rewrite V1|].
  rewrite (balloc_find_full (vw s)) by (done || lia).
  apply wp_panic, (wp_brelse _ _ (bblock sb b0)); [done..|].
  intros s2 T2. pose proof (tstep_trans _ _ _ _ _ _ _ _ _ T1 T2) as T12.
  rewrite V1, H1, P1, delete_insert_id in T12 by done. pose proof T12 as [W2 V2 H2 P2 _ A2 C2 _].
  rewrite (proj2 (Z.ltb_lt _ _)) by lia.
  apply IH; [by eapply alloc_pre_step|by rewrite H2, P2|by rewrite V2|lia| |nia|nia].
  rewrite HBPB in *. zlia.
Qed.

Lemma balloc_full s :
  alloc_pre s → (size (hd s) + size (psecs s) < NBUF)%nat →
  (∀ b, 0 ≤ b < sb_size sb → blk_used (vw s) sb b = true) →
  balloc ROOTDEV s = Panic "balloc: out of blocks".
Proof.
  intros Hp Hroom Hused. pose proof Hp as [Hwf Hg _ _ _]. pose proof (g_size _ _ Hg) as Hsz.
  assert (BPB = 4096) as HBPB by done. unfold balloc.
  apply wp_panic, wp_fs_readsb; [done..|]. intros s1 T1. pose proof T1 as [W1 V1 H1 P1 _ _ _ _].
  apply balloc_loop_full; [by eapply alloc_pre_step|by rewrite H1, P1|by rewrite V1|lia|done|lia|].
  rewrite HBPB in *. zlia.
Qed.

(** ** bfree *)
Lemma wp_bfree s b Q :
  alloc_pre s → 0 ≤ b < sb_size sb → blk_used (vw s) sb b = true →
  Z.of_nat (size (psecs s)) < t_cap (bs_abs s) →
  (size (hd s) + 1 + size (psecs s) < NBUF)%nat →
  (∀ s', tstep s s' (free_view (vw s) sb b) (hd s) ({[bblock sb b]} ∪ psecs s) → Q tt s') →
  wp (bfree ROOTDEV b) Q s.
Proof.
  intros Hp Hb Hu Hcap Hroom HQ. pose proof Hp as [Hwf Hg Hsb Hbm Ha].
  destruct (bblock_lookup (vw s) sb b Hg) as [d Hd]; [lia|].
  pose proof (bblock_pos sb b (g_ninodes _ _ Hg) ltac:(lia)) as H3.
  unfold blk_used in Hu. rewrite Hd in Hu.
  unfold bfree. wstep1. apply wp_fs_readsb; [done|lia|]. intros s1 T1.
  pose proof T1 as [W1 V1 H1 P1 _ A1 C1 _]. pose proof (alloc_pre_step _ _ _ Hp T1) as [_ _ _ Hbm1 _].
  fold (bblock sb b). wstep1. apply wp_bread; [done| |by apply Hbm1|rewrite H1, P1; lia|].
  { apply inrange_lookup. rewrite V1. split; [lia|eauto]. }
  intros i s2 Hi Hc T2. pose proof (tstep_trans _ _ _ _ _ _ _ _ _ T1 T2) as T12.
  rewrite V1, H1, P1 in T12. rewrite H1 in Hi. pose proof T12 as [W2 V2 H2 P2 _ A2 C2 _].
  assert (hd s2 !! i = Some (bblock sb b)) as Hi2 by (by rewrite H2, lookup_insert_eq).
  wstep1. apply (wp_bdata _ _ (bblock sb b) d); [done..|by rewrite V2|].
  cbv zeta. rewrite Hu. cbn [negb].
  apply (wp_put_block _ _ (bblock sb b)); [done..| | | | | |].
  - apply bit_clear_wf. by eapply (view_block_wf s).
  - apply inrange_lookup. rewrite V2. split; [lia|eauto].
  - by rewrite A2.
  - by rewrite P2, C2.
  - rewrite P2, H2, map_size_insert_None by done. lia.
  - intros s3 T3. apply HQ. pose proof (tstep_trans _ _ _ _ _ _ _ _ _ T12 T3) as T.
    rewrite V2, H2, P2, delete_insert_id in T by done. unfold free_view.
    by rewrite (alter_insert_block _ _ d).
Qed.

Lemma bfree_free_panics s b :
  alloc_pre s → 0 ≤ b < sb_size sb → blk_used (vw s) sb b = false →
  (size (hd s) + size (psecs s) < NBUF)%nat →
  bfree ROOTDEV b s = Panic "freeing free block".
Proof.
  intros Hp Hb Hu Hroom. pose proof Hp as [Hwf Hg Hsb Hbm Ha].
  destruct (bblock_lookup (vw s) sb b Hg) as [d Hd]; [lia|].
  pose proof (bblock_pos sb b (g_ninodes _ _ Hg) ltac:(lia)) as H3.
  unfold blk_used in Hu. rewrite Hd in Hu.
  unfold bfree. apply wp_panic, wp_fs_readsb; [done|lia|]. intros s1 T1.
  pose proof T1 as [W1 V1 H1 P1 _ A1 C1 _]. pose proof (alloc_pre_step _ _ _ Hp T1) as [_ _ _ Hbm1 _].
  fold (bblock sb b). apply wp_panic, wp_bread; [done| |by apply Hbm1|rewrite H1, P1; lia|].
  { apply inrange_lookup. rewrite V1. split; [lia|eauto]. }
  intros i s2 Hi Hc T2. pose proof T2 as [W2 V2 H2 P2 _ A2 C2 _].
  apply wp_panic, (wp_bdata _ _ (bblock sb b) d); [done|by rewrite H2, lookup_insert_eq|by rewrite V2, V1|].
  cbv zeta. by rewrite Hu.
Qed.
End alloc.

(** ** The bitmap after allocation and freeing *)
Section bitmap_facts.
Context (v : list block) (sb : superblock) (Hg : geom v sb) (Hwf : Forall block_wf v).

Lemma length_alloc_view b : length (alloc_view v sb b) = length v.
Proof. unfold alloc_view. by rewrite length_insert, length_alter. Qed.
Lemma length_free_view b : length (free_view v sb b) = length v.
Proof. unfold free_view. by rewrite length_alter. Qed.

Lemma alloc_view_other b k :
  k ≠ Z.to_nat b → k ≠ Z.to_nat (bblock sb b) → alloc_view v sb b !! k = v !! k.
Proof. intros. unfold alloc_view. by rewrite list_lookup_insert_ne, list_lookup_alter_ne. Qed.

Lemma alloc_view_new b :
  0 ≤ b < Z.of_nat (length v) → alloc_view v sb b !! Z.to_nat b = Some (replicate 512 0).
Proof. intros. unfold alloc_view. rewrite list_lookup_insert_eq; [done|]. rewrite length_alter. lia. Qed.

Lemma mod_eq_div b b' : b / BPB = b' / BPB → b mod BPB = b' mod BPB → b = b'.
Proof. intros H1 H2. rewrite (Z.div_mod b BPB), (Z.div_mod b' BPB) by done. congruence. Qed.

Lemma blk_used_alter b b' f :
  0 ≤ b < sb_size sb → 0 ≤ b' < sb_size sb →
  blk_used (alter f (Z.to_nat (bblock sb b)) v) sb b' =
  if b / BPB =? b' / BPB
  then match v !! Z.to_nat (bblock sb b) with Some d => bit_used (f d) (b' mod BPB) | None => true end
  else blk_used v sb b'.
Proof.
  intros Hb Hb'. unfold blk_used.
  pose proof (bblock_pos sb b (g_ninodes _ _ Hg) ltac:(lia)).
  pose proof (bblock_pos sb b' (g_ninodes _ _ Hg) ltac:(lia)).
  destruct (Z.eqb_spec (b / BPB) (b' / BPB)) as [Heq|Hne].
  - replace (bblock sb b') with (bblock sb b) by (by apply bblock_same).
    rewrite list_lookup_alter_eq. by destruct (v !! _).
  - rewrite list_lookup_alter_ne; [done|]. intros Heq. apply Hne, (bblock_same sb). lia.
Qed.

Lemma blk_used_alloc b b' :
  0 ≤ b < sb_size sb → 0 ≤ b' < sb_size sb → b ≠ bblock sb b' →
  blk_used (alloc_view v sb b) sb b' = (b =? b') || blk_used v sb b'.
Proof.
  intros Hb Hb' Hne. pose proof (bblock_pos sb b' (g_ninodes _ _ Hg) ltac:(lia)).
  transitivity (blk_used (alter (λ d, bit_set d (b mod BPB)) (Z.to_nat (bblock sb b)) v) sb b').
  { unfold blk_used, alloc_view. rewrite list_lookup_insert_ne by lia. done. }
  rewrite blk_used_alter by done. destruct (bblock_lookup v sb b Hg Hb) as [d Hd].
  rewrite Hd. assert (block_wf d) as Hdw by (by eapply Forall_lookup_1).
  destruct (Z.eqb_spec (b / BPB) (b' / BPB)) as [Heq|Hd'].
  - rewrite bit_used_set by (done || apply bit_ok_mod). unfold blk_used.
    replace (bblock sb b') with (bblock sb b) by (by apply bblock_same). rewrite Hd. f_equal.
    destruct (Z.eqb_spec b b') as [->|]; [apply Z.eqb_refl|]. apply Z.eqb_neq.
    intros Hm. by apply mod_eq_div in Heq.
  - destruct (Z.eqb_spec b b') as [->|]; [done|]. done.
Qed.

Lemma blk_used_free b b' :
  0 ≤ b < sb_size sb → 0 ≤ b' < sb_size sb →
  blk_used (free_view v sb b) sb b' = negb (b =? b') && blk_used v sb b'.
Proof.
  intros Hb Hb'. unfold free_view. rewrite blk_used_alter by done.
  destruct (bblock_lookup v sb b Hg Hb) as [d Hd].
  rewrite Hd. assert (block_wf d) as Hdw by (by eapply Forall_lookup_1).
  destruct (Z.eqb_spec (b / BPB) (b' / BPB)) as [Heq|Hd'].
  - rewrite bit_used_clear by (done || apply bit_ok_mod). unfold blk_used.
    replace (bblock sb b') with (bblock sb b) by (by apply bblock_same). rewrite Hd. do 2 f_equal.
    destruct (Z.eqb_spec b b') as [->|]; [apply Z.eqb_refl|]. apply Z.eqb_neq.
    intros Hm. by apply mod_eq_div in Heq.
  - destruct (Z.eqb_spec b b') as [->|]; [done|]. done.
Qed.

(** Freeing an allocated block restores every block but the one allocated. *)
Lemma free_alloc_view b :
  0 ≤ b < sb_size sb → b ≠ bblock sb b → blk_used v sb b = false →
  free_view (alloc_view v sb b) sb b = <[Z.to_nat b := replicate 512 0]> v.
Proof.
  intros Hb Hne Hf. pose proof (bblock_pos sb b (g_ninodes _ _ Hg) ltac:(lia)).
  destruct (bblock_lookup v sb b Hg Hb) as [d Hd]. unfold blk_used in Hf. rewrite Hd in Hf.
  assert (block_wf d) as Hdw by (by eapply Forall_lookup_1).
  unfold free_view, alloc_view. rewrite (alter_insert_block v _ d) by done.
  rewrite (alter_insert_block _ _ (bit_set d (b mod BPB))).
  - rewrite bit_clear_set by (done || apply bit_ok_mod).
    rewrite list_insert_insert_ne by lia. rewrite list_insert_insert_eq.
    f_equal. by apply list_insert_id.
  - rewrite list_lookup_insert_ne by lia. apply list_lookup_insert_eq. by eapply lookup_lt_Some.
Qed.
End bitmap_facts.
