(* ===== verification/FsInode.v ===== *)
(** * Inode contents: bmap, readi, writei, iupdate

    The bytes of a file as a list, the invariant of an inode's block pointers,
    and what the functions on inode contents do to them. *)
From stdpp Require Import base list gmap numbers option strings sets.
From Stdlib Require Import ZArith Lia.
From S2P Require Import Prelude Layout BlockStore Fs FsTx FsBlocks.
Open Scope Z_scope.

(** ** The layout of the disk *)
(** The first block after the bitmap: data blocks start here. *)
Definition lo (sb : superblock) : Z := bblock sb (sb_size sb - 1) + 1.

Record disk_ok (v : list block) (sb : superblock) : Prop := mkDiskOk {
  dk_wf : Forall block_wf v;
  dk_geom : geom v sb;
  dk_size : Z.of_nat (length v) ≤ sb_size sb;
  dk_lo : lo sb ≤ Z.of_nat (length v);
  dk_meta : ∀ b, 0 ≤ b < lo sb → blk_used v sb b = true }.

Definition data_block (v : list block) (sb : superblock) (a : Z) : Prop :=
  lo sb ≤ a < Z.of_nat (length v) ∧ blk_used v sb a = true.

Definition bitmaps (sb : superblock) : gset Z :=
  list_to_set (bblock sb <$> seqZ 0 (sb_size sb)).
Definition free_set (v : list block) (sb : superblock) : gset Z :=
  filter (λ b, blk_used v sb b = false)
    (list_to_set (seqZ (lo sb) (Z.of_nat (length v) - lo sb))).

Lemma elem_of_bitmaps sb x : x ∈ bitmaps sb ↔ ∃ b, 0 ≤ b < sb_size sb ∧ x = bblock sb b.
Proof.
  unfold bitmaps. rewrite elem_of_list_to_set, list_elem_of_fmap. split.
  - intros (b & -> & Hb%elem_of_seqZ). exists b. split; [lia|done].
  - intros (b & Hb & ->). exists b. split; [done|]. apply elem_of_seqZ. lia.
Qed.

Lemma elem_of_free_set v sb b :
  b ∈ free_set v sb ↔ lo sb ≤ b < Z.of_nat (length v) ∧ blk_used v sb b = false.
Proof.
  unfold free_set. rewrite elem_of_filter, elem_of_list_to_set, elem_of_seqZ.
  split; [intros [? ?]|intros [? ?]]; split; try done; lia.
Qed.

Section layout.
Context (v : list block) (sb : superblock) (Hok : disk_ok v sb).

Lemma ninodes_pos : 0 ≤ sb_ninodes sb.
Proof. apply (g_ninodes v), Hok. Qed.

Lemma lo_pos : 4 ≤ lo sb.
Proof.
  unfold lo. assert (0 < sb_size sb).
  { destruct Hok as [_ Hg Hs Hl _]. destruct (g_sb _ _ Hg) as (d & Hd & _).
    apply lookup_lt_Some in Hd. lia. }
  pose proof (bblock_pos sb (sb_size sb - 1) ninodes_pos). lia.
Qed.

Lemma bblock_lt_lo b : 0 ≤ b < sb_size sb → 3 ≤ bblock sb b < lo sb.
Proof.
  intros Hb. split; [apply bblock_pos; [apply ninodes_pos|lia]|]. unfold lo, bblock, BBLOCK.
  assert (b / BPB ≤ (sb_size sb - 1) / BPB) by (apply Z.div_le_mono; [done|lia]). lia.
Qed.

Lemma data_not_bitmap a b : lo sb ≤ a → 0 ≤ b < sb_size sb → a ≠ bblock sb b.
Proof. intros Ha Hb. pose proof (bblock_lt_lo b Hb). lia. Qed.

(** The first free block, when a data block is free. *)
Lemma first_free :
  free_set v sb ≠ ∅ →
  ∃ b, b ∈ free_set v sb ∧ ∀ b', 0 ≤ b' < b → blk_used v sb b' = true.
Proof.
  intros Hne. destruct (set_choose_L _ Hne) as [b0 Hb0].
  revert Hb0. assert (∃ n, (Z.to_nat b0 ≤ n)%nat) as [n Hn] by eauto.
  revert b0 Hn. induction n as [|n IH]; intros b0 Hn Hb0.
  - pose proof (proj1 (elem_of_free_set _ _ _) Hb0). pose proof lo_pos. lia.
  - destruct (decide (∃ b', b' ∈ free_set v sb ∧ b' < b0)) as [(b' & Hb' & Hlt)|Hno].
    + apply (IH b'); [|done]. pose proof (proj1 (elem_of_free_set _ _ _) Hb'). pose proof lo_pos. lia.
    + exists b0. split; [done|]. intros b' Hb'. apply elem_of_free_set in Hb0 as [Hr0 _].
      destruct (decide (b' < lo sb)) as [Hlo|Hlo]; [apply Hok; lia|].
      destruct (blk_used v sb b') eqn:Hu; [done|]. exfalso. apply Hno. exists b'.
      rewrite elem_of_free_set. split; [split; [lia|done]|lia].
Qed.

Lemma alloc_disk_ok b : b ∈ free_set v sb → disk_ok (alloc_view v sb b) sb.
Proof.
  intros [Hb Hf]%elem_of_free_set. destruct Hok as [Hwf Hg Hs Hl Hm].
  pose proof lo_pos as Hlo. split.
  - unfold alloc_view. apply Forall_insert; [|split; [done|by apply Forall_replicate]].
    apply Forall_lookup. intros k d Hd. rewrite list_lookup_alter in Hd.
    destruct (decide _); [|by eapply Forall_lookup_1].
    apply fmap_Some in Hd as (d' & Hd' & ->). apply bit_set_wf. by eapply Forall_lookup_1.
  - destruct Hg as [(d & Hd & Hsb) ? ? ?]. split; try done.
    + exists d. split; [|done].
      pose proof (bblock_lt_lo b ltac:(lia)). rewrite alloc_view_other by lia. done.
    + by rewrite length_alloc_view.
  - by rewrite length_alloc_view.
  - by rewrite length_alloc_view.
  - intros b' Hb'. rewrite blk_used_alloc; try done; try lia.
    + rewrite Hm by done. apply orb_true_r.
    + apply data_not_bitmap; lia.
Qed.

Lemma alloc_free_set b :
  b ∈ free_set v sb → free_set (alloc_view v sb b) sb = free_set v sb ∖ {[b]}.
Proof.
  intros [Hb Hf]%elem_of_free_set. destruct Hok as [Hwf Hg Hs Hl Hm].
  apply set_eq. intros x. rewrite elem_of_difference, elem_of_singleton, !elem_of_free_set.
  rewrite length_alloc_view. pose proof lo_pos as Hlo.
  split.
  - intros [Hx Hu]. rewrite blk_used_alloc in Hu; try done; try lia; [|apply data_not_bitmap; lia].
    apply orb_false_iff in Hu as [Hne%Z.eqb_neq Hu]. split; [done|lia].
  - intros [[Hx Hu] Hne]. split; [done|].
    rewrite blk_used_alloc; try done; try lia; [|apply data_not_bitmap; lia].
    rewrite Hu. destruct (Z.eqb_spec b x); [lia|done].
Qed.

Lemma alloc_used_mono b a :
  b ∈ free_set v sb → 0 ≤ a < sb_size sb → blk_used v sb a = true →
  blk_used (alloc_view v sb b) sb a = true.
Proof.
  intros [Hb Hf]%elem_of_free_set Ha Hu. destruct Hok as [Hwf Hg Hs Hl Hm]. pose proof lo_pos.
  rewrite blk_used_alloc; try done; try lia; [rewrite Hu; apply orb_true_r|].
  apply data_not_bitmap; lia.
Qed.

Lemma alloc_used_new b : b ∈ free_set v sb → blk_used (alloc_view v sb b) sb b = true.
Proof.
  intros [Hb Hf]%elem_of_free_set. destruct Hok as [Hwf Hg Hs Hl Hm]. pose proof lo_pos.
  rewrite (blk_used_alloc v sb Hg Hwf b b), Z.eqb_refl; [done|lia|lia|].
  apply data_not_bitmap; lia.
Qed.
End layout.

(** ** The blocks of a file *)
Definition naddr (i : inode) (k : nat) : Z := default 0 (i_addrs i !! k).
Definition set_addrs (l : list Z) (i : inode) : inode :=
  mkInode (i_dev i) (i_inum i) (i_ref i) (i_flags i) (i_type i) (i_major i) (i_minor i)
    (i_nlink i) (i_size i) l.

(** The address of the [bn]th block, 0 if there is none. *)
Definition fblk (v : list block) (i : inode) (bn : nat) : Z :=
  if decide (bn < 12)%nat then naddr i bn
  else if naddr i 12 =? 0 then 0
  else match v !! Z.to_nat (naddr i 12) with
       | Some d => u32_at d (4 * (bn - 12))
       | None => 0
       end.

Record file_ok (v : list block) (sb : superblock) (i : inode) : Prop := mkFileOk {
  fo_dev : i_dev i = ROOTDEV;
  fo_addrs : length (i_addrs i) = 13%nat;
  fo_ind : naddr i 12 ≠ 0 → data_block v sb (naddr i 12);
  fo_data : ∀ bn, (bn < 140)%nat → fblk v i bn ≠ 0 → data_block v sb (fblk v i bn);
  fo_inj : ∀ bn bn', (bn < 140)%nat → (bn' < 140)%nat → fblk v i bn ≠ 0 →
    fblk v i bn = fblk v i bn' → bn = bn';
  fo_ind_ne : ∀ bn, (bn < 140)%nat → fblk v i bn ≠ 0 → fblk v i bn ≠ naddr i 12;
  fo_size : 0 ≤ i_size i ≤ MAXFILE * BSIZE;
  fo_full : ∀ bn, (bn < 140)%nat → 512 * Z.of_nat bn < i_size i → fblk v i bn ≠ 0 }.

(** The file [i] has block [a] as its [bn]th block and is otherwise as before. *)
Record grows (sb : superblock) (v : list block) (i : inode) (v' : list block) (i' : inode)
    (bn : nat) (a : Z) : Prop := mkGrows {
  gr_disk : disk_ok v' sb;
  gr_file : file_ok v' sb i';
  gr_len : length v' = length v;
  gr_blk : fblk v' i' bn = a;
  gr_pos : a ≠ 0;
  gr_others : ∀ bn', (bn' < 140)%nat → bn' ≠ bn → fblk v' i' bn' = fblk v i bn';
  gr_fields : i' = set_addrs (i_addrs i') i;
  gr_frame : ∀ k, v' !! k = v !! k ∨ Z.of_nat k ∈ bitmaps sb ∨ Z.of_nat k ∈ free_set v sb ∨
    (Z.of_nat k = naddr i 12 ∧ naddr i 12 ≠ 0);
  gr_free : free_set v' sb ⊆ free_set v sb;
  gr_old : fblk v i bn ≠ 0 → v' = v ∧ i' = i;
  gr_new : fblk v i bn = 0 → v' !! Z.to_nat a = Some (replicate 512 0) ∧ a ∈ free_set v sb;
  gr_ind : naddr i 12 ≠ 0 → naddr i' 12 = naddr i 12;
  gr_indn : naddr i 12 = 0 → naddr i' 12 = 0 ∨ naddr i' 12 ∈ free_set v sb }.

Lemma naddr_set i k a j :
  length (i_addrs i) = 13%nat → (k < 13)%nat →
  naddr (i_set_addr k a i) j = if decide (k = j) then a else naddr i j.
Proof.
  intros Hl Hk. unfold naddr, i_set_addr. simpl. destruct (decide (k = j)) as [<-|Hne].
  - by rewrite list_lookup_insert_eq by lia.
  - by rewrite list_lookup_insert_ne.
Qed.

Lemma i_set_addr_fields k a i : i_set_addr k a i = set_addrs (i_addrs (i_set_addr k a i)) i.
Proof. done. Qed.

Lemma u32_at_zeros k : (4 * k + 4 ≤ 512)%nat → u32_at (replicate 512 0) (4 * k) = 0.
Proof.
  intros Hk. unfold u32_at, slice. rewrite drop_replicate, take_replicate.
  replace (4 `min` (512 - 4 * k))%nat with 4%nat by lia. done.
Qed.

Section pure_alloc.
Context (v : list block) (sb : superblock) (Hok : disk_ok v sb).
Context (i : inode) (Hf : file_ok v sb i) (b : Z) (Hb : b ∈ free_set v sb).

Lemma free_ne a : data_block v sb a → a ≠ b.
Proof. intros [_ Hu] ->. apply elem_of_free_set in Hb as [_ Hb']. congruence. Qed.

Lemma free_pos : b ≠ 0.
Proof. apply elem_of_free_set in Hb as [Hr _]. pose proof (lo_pos v sb Hok). lia. Qed.

Lemma data_lookup_alloc a : data_block v sb a → alloc_view v sb b !! Z.to_nat a = v !! Z.to_nat a.
Proof.
  intros Ha. pose proof (free_ne a Ha). destruct Ha as [Hr _].
  apply elem_of_free_set in Hb as [Hrb _]. pose proof (lo_pos v sb Hok).
  pose proof (bblock_lt_lo v sb Hok b ltac:(pose proof (dk_size _ _ Hok); lia)).
  apply alloc_view_other; lia.
Qed.

Lemma data_block_alloc a : data_block v sb a → data_block (alloc_view v sb b) sb a.
Proof.
  intros [Hr Hu]. split; [by rewrite length_alloc_view|]. apply alloc_used_mono; try done.
  pose proof (lo_pos v sb Hok). pose proof (dk_size _ _ Hok). lia.
Qed.

Lemma data_block_new : data_block (alloc_view v sb b) sb b.
Proof.
  split; [|by apply alloc_used_new]. rewrite length_alloc_view. by apply elem_of_free_set in Hb as [? _].
Qed.

Lemma alloc_frame k :
  alloc_view v sb b !! k = v !! k ∨ Z.of_nat k ∈ bitmaps sb ∨ Z.of_nat k ∈ free_set v sb.
Proof.
  pose proof (proj1 (elem_of_free_set _ _ _) Hb) as [Hrb _]. pose proof (lo_pos v sb Hok). pose proof (dk_size _ _ Hok).
  destruct (decide (k = Z.to_nat b)) as [->|Hk].
  - right. right. rewrite Z2Nat.id by lia. done.
  - pose proof (bblock_lt_lo v sb Hok b ltac:(lia)).
    destruct (decide (k = Z.to_nat (bblock sb b))) as [->|Hk'].
    + right. left. rewrite Z2Nat.id by lia. apply elem_of_bitmaps. exists b. split; [lia|done].
    + left. by apply alloc_view_other.
Qed.

(** balloc does not change the file. *)
Lemma fblk_alloc bn : fblk (alloc_view v sb b) i bn = fblk v i bn.
Proof.
  unfold fblk. destruct (decide (bn < 12)%nat); [done|].
  destruct (Z.eqb_spec (naddr i 12) 0) as [|Hn]; [done|].
  by rewrite data_lookup_alloc by (by apply Hf).
Qed.

Lemma alloc_view_b : alloc_view v sb b !! Z.to_nat b = Some (replicate 512 0).
Proof.
  apply elem_of_free_set in Hb as [Hrb _]. pose proof (lo_pos v sb Hok).
  apply alloc_view_new. lia.
Qed.

(** A file with one more block. *)
Lemma file_ok_grow v' i' bn :
  (∀ a, data_block v sb a → data_block v' sb a) → data_block v' sb b →
  i' = set_addrs (i_addrs i') i → length (i_addrs i') = 13%nat → naddr i' 12 = naddr i 12 →
  (∀ bn', (bn' < 140)%nat → fblk v' i' bn' = if decide (bn = bn') then b else fblk v i bn') →
  file_ok v' sb i'.
Proof.
  intros Hmono Hnew Hfields Hlen Hind Hblk. destruct Hf as [Hdev _ HfI HfD HfJ HfN HfS HfF].
  assert (i_dev i' = i_dev i ∧ i_size i' = i_size i) as [Hd Hs] by (by rewrite Hfields).
  split; rewrite ?Hd, ?Hs, ?Hind; try done.
  - auto.
  - intros bn' Hbn'. rewrite Hblk by done. destruct (decide _); auto.
  - intros b1 b2 H1 H2. rewrite !Hblk by done.
    destruct (decide (bn = b1)) as [<-|], (decide (bn = b2)) as [<-|]; try done.
    + intros _ He. exfalso. apply (free_ne (fblk v i b2)); [|done].
      apply HfD; [done|]. rewrite <- He. apply free_pos.
    + intros Hz He. exfalso. apply (free_ne (fblk v i b1)); [|done]. by apply HfD.
    + by apply HfJ.
  - intros bn' Hbn'. rewrite Hblk by done. destruct (decide _); [|by apply HfN].
    intros _ He. destruct (decide (naddr i 12 = 0)) as [H0|H0]; [by apply free_pos; rewrite He|].
    by apply (free_ne (naddr i 12)); [auto|].
  - intros bn' Hbn' Hlt. rewrite Hblk by done. destruct (decide _); [apply free_pos|by apply HfF].
Qed.

Lemma grow_direct bn :
  (bn < 12)%nat → naddr i bn = 0 → grows sb v i (alloc_view v sb b) (i_set_addr bn b i) bn b.
Proof.
  intros Hbn H0. pose proof (fo_addrs _ _ _ Hf) as Hlen.
  assert (naddr (i_set_addr bn b i) 12 = naddr i 12) as Hind
    by (rewrite naddr_set by lia; by rewrite decide_False by lia).
  assert (∀ bn', (bn' < 140)%nat → fblk (alloc_view v sb b) (i_set_addr bn b i) bn'
    = if decide (bn = bn') then b else fblk v i bn') as Hblk.
  { intros bn' _. unfold fblk at 1. rewrite Hind. destruct (decide (bn' < 12)%nat) as [Hlt|Hge].
    - rewrite naddr_set by lia. destruct (decide _); [done|]. unfold fblk. by rewrite decide_True.
    - rewrite (decide_False (P := bn = bn')) by lia. rewrite <- fblk_alloc. unfold fblk.
      by rewrite (decide_False (P := (bn' < 12)%nat)). }
  assert (fblk v i bn = 0) as Hz by (unfold fblk; by rewrite decide_True).
  split; try done.
  - by apply alloc_disk_ok.
  - apply (file_ok_grow _ _ bn); try done.
    + intros a. apply data_block_alloc.
    + apply data_block_new.
    + by simpl; rewrite length_insert.
  - apply length_alloc_view.
  - rewrite Hblk by lia. by rewrite decide_True.
  - apply free_pos.
  - intros bn' Hlt Hne. rewrite Hblk by done. by rewrite decide_False by done.
  - intros k. destruct (alloc_frame k) as [?|[?|?]]; auto.
  - rewrite alloc_free_set by done. set_solver.
  - intros _. split; [apply alloc_view_b|done].
  - intros Hn. left. congruence.
Qed.

(** Giving the file an (empty) indirect block changes none of its blocks. *)
Lemma add_indirect :
  naddr i 12 = 0 →
  disk_ok (alloc_view v sb b) sb ∧ file_ok (alloc_view v sb b) sb (i_set_addr 12 b i) ∧
  naddr (i_set_addr 12 b i) 12 = b ∧
  ∀ bn, (bn < 140)%nat → fblk (alloc_view v sb b) (i_set_addr 12 b i) bn = fblk v i bn.
Proof.
  intros H0. pose proof (fo_addrs _ _ _ Hf) as Hlen.
  assert (naddr (i_set_addr 12 b i) 12 = b) as Hind
    by (rewrite naddr_set by lia; by rewrite decide_True).
  assert (∀ bn, (bn < 140)%nat →
    fblk (alloc_view v sb b) (i_set_addr 12 b i) bn = fblk v i bn) as Hblk.
  { intros bn Hbn. unfold fblk. rewrite Hind, H0. destruct (decide (bn < 12)%nat).
    - rewrite naddr_set by lia. by rewrite decide_False by lia.
    - rewrite (proj2 (Z.eqb_neq b 0)) by apply free_pos.
      rewrite alloc_view_b. apply u32_at_zeros. lia. }
  split_and!; try done; [by apply alloc_disk_ok|].
  destruct Hf as [Hdev _ HfI HfD HfJ HfN HfS HfF]. split; try done; rewrite ?Hind.
  - by simpl; rewrite length_insert.
  - intros _. apply data_block_new.
  - intros bn Hbn. rewrite Hblk by done. intros Hz. apply data_block_alloc. by apply HfD.
  - intros b1 b2 H1 H2. rewrite !Hblk by done. by apply HfJ.
  - intros bn Hbn. rewrite Hblk by done. intros Hz. apply free_ne. by apply HfD.
  - intros bn Hbn. rewrite Hblk by done. by apply HfF.
Qed.

(** A new block recorded in the indirect block, whose contents were [d]. *)
Definition indirect_view (bn : nat) (d : block) : list block :=
  <[Z.to_nat (naddr i 12) := put_u32 d (4 * (bn - 12)) b]> (alloc_view v sb b).

Lemma indirect_wf bn d : block_wf d → (bn < 140)%nat → block_wf (put_u32 d (4 * (bn - 12)) b).
Proof. intros. apply put_u32_wf; [lia|done]. Qed.
End pure_alloc.

(** ** Storing into a block that is neither superblock nor bitmap *)
Definition plain (sb : superblock) (x : Z) : Prop :=
  2 ≤ x ∧ ∀ b, 0 ≤ b < sb_size sb → x ≠ bblock sb b.

Section plain_write.
Context (v : list block) (sb : superblock) (Hok : disk_ok v sb) (x : Z) (d : block).
Context (Hx : plain sb x).

Lemma blk_used_plain b : 0 ≤ b < sb_size sb → blk_used (<[Z.to_nat x := d]> v) sb b = blk_used v sb b.
Proof.
  intros Hb. unfold blk_used. destruct Hx as [Hx2 Hxb]. specialize (Hxb b Hb).
  pose proof (bblock_lt_lo v sb Hok b Hb). by rewrite list_lookup_insert_ne by lia.
Qed.

Lemma disk_ok_plain : block_wf d → disk_ok (<[Z.to_nat x := d]> v) sb.
Proof.
  intros Hd. pose proof (lo_pos v sb Hok). destruct Hx as [Hx2 _].
  destruct Hok as [Hwf Hg Hs Hl Hm]. split; rewrite ?length_insert; try done.
  - by apply Forall_insert.
  - destruct Hg as [(e & He & Hsb) ? ? ?]. split; try done; rewrite ?length_insert; try done.
    exists e. by rewrite list_lookup_insert_ne by lia.
  - intros b Hb. rewrite blk_used_plain by lia. by apply Hm.
Qed.

Lemma free_set_plain : free_set (<[Z.to_nat x := d]> v) sb = free_set v sb.
Proof.
  apply set_eq. intros b. rewrite !elem_of_free_set, length_insert.
  pose proof (lo_pos v sb Hok). pose proof (dk_size _ _ Hok).
  split; intros [? Hu]; (split; [done|]); [rewrite blk_used_plain in Hu by lia|rewrite blk_used_plain by lia]; done.
Qed.

Lemma data_block_plain a : data_block (<[Z.to_nat x := d]> v) sb a ↔ data_block v sb a.
Proof.
  unfold data_block. rewrite length_insert. pose proof (lo_pos v sb Hok). pose proof (dk_size _ _ Hok).
  split; intros [? Hu]; (split; [done|]); [rewrite blk_used_plain in Hu by lia|rewrite blk_used_plain by lia]; done.
Qed.
End plain_write.

(** Data blocks and inode blocks are such blocks. *)
Lemma plain_data v sb x : disk_ok v sb → lo sb ≤ x → plain sb x.
Proof.
  intros Hok Hx. split; [pose proof (lo_pos v sb Hok); lia|]. intros b Hb. by apply (data_not_bitmap v).
Qed.

Lemma iblock_range v sb inum :
  disk_ok v sb → 0 ≤ inum < sb_ninodes sb → 2 ≤ IBLOCK inum < lo sb ∧ plain sb (IBLOCK inum).
Proof.
  intros Hok Hi. assert (0 ≤ inum / IPB ≤ sb_ninodes sb / IPB) as Hd.
  { split; [apply Z.div_pos; [lia|done]|apply Z.div_le_mono; [done|lia]]. }
  assert (∀ b, 0 ≤ b < sb_size sb → IBLOCK inum < bblock sb b) as Hlt.
  { intros b Hb. unfold IBLOCK, bblock, BBLOCK. assert (0 ≤ b / BPB) by (apply Z.div_pos; [lia|done]). lia. }
  assert (0 < sb_size sb) as Hs by (pose proof (dk_lo _ _ Hok); pose proof (dk_size _ _ Hok); pose proof (lo_pos v sb Hok); lia).
  pose proof (Hlt 0 ltac:(lia)). pose proof (bblock_lt_lo v sb Hok 0 ltac:(lia)).
  split; [unfold IBLOCK in *; lia|]. split; [unfold IBLOCK; lia|].
  intros b Hb. specialize (Hlt b Hb). lia.
Qed.

Section data_write.
Context (v : list block) (sb : superblock) (Hok : disk_ok v sb) (x : Z) (d : block) (Hx : lo sb ≤ x).
Lemma disk_ok_data : block_wf d → disk_ok (<[Z.to_nat x := d]> v) sb.
Proof. apply disk_ok_plain; [done|]. by apply (plain_data v). Qed.
Lemma free_set_data : free_set (<[Z.to_nat x := d]> v) sb = free_set v sb.
Proof. apply free_set_plain; [done|]. by apply (plain_data v). Qed.
Lemma data_block_data a : data_block (<[Z.to_nat x := d]> v) sb a ↔ data_block v sb a.
Proof. apply data_block_plain; [done|]. by apply (plain_data v). Qed.
End data_write.

Lemma fblk_indirect v i bn d :
  naddr i 12 ≠ 0 → v !! Z.to_nat (naddr i 12) = Some d → (12 ≤ bn)%nat →
  fblk v i bn = u32_at d (4 * (bn - 12)).
Proof.
  intros Hn Hd Hbn. unfold fblk. rewrite decide_False by lia.
  by rewrite (proj2 (Z.eqb_neq _ _) Hn), Hd.
Qed.

Lemma grow_indirect v sb i b bn d :
  disk_ok v sb → file_ok v sb i → b ∈ free_set v sb → naddr i 12 ≠ 0 →
  v !! Z.to_nat (naddr i 12) = Some d → (12 ≤ bn < 140)%nat → fblk v i bn = 0 →
  grows sb v i (indirect_view v sb i b bn d) i bn b.
Proof.
  intros Hok Hf Hb Hn Hd Hbn Hz.
  pose proof (fo_ind _ _ _ Hf Hn) as Hx. pose proof (alloc_disk_ok v sb Hok b Hb) as Hok1.
  pose proof (Forall_lookup_1 _ _ _ _ (dk_wf _ _ Hok) Hd) as Hdw.
  pose proof (lo_pos v sb Hok) as Hlo. pose proof (dk_size _ _ Hok) as Hsz.
  pose proof (indirect_wf b bn d Hdw ltac:(lia)) as Hnw.
  pose proof (proj1 (elem_of_free_set _ _ _) Hb) as [Hbr _].
  pose proof (g_size _ _ (dk_geom _ _ Hok)) as Hgs. change BPB with 4096 in Hgs.
  assert (is_u32 b) as Hb32 by (unfold is_u32; lia).
  assert (naddr i 12 ≠ b) as Hne by (by apply (free_ne v sb b Hb)).
  assert (∀ bn', (bn' < 140)%nat → fblk (indirect_view v sb i b bn d) i bn'
    = if decide (bn = bn') then b else fblk v i bn') as Hblk.
  { intros bn' Hbn'. destruct (decide (bn' < 12)%nat) as [Hlt|Hge].
    - rewrite (decide_False (P := bn = bn')) by lia. unfold fblk. by rewrite !decide_True by lia.
    - assert (length d = 512%nat) as Hdl by apply Hdw.
      erewrite (fblk_indirect (indirect_view v sb i b bn d)); [|done| |lia].
      2: { unfold indirect_view. apply list_lookup_insert_eq. rewrite length_alloc_view.
           destruct Hx as [Hx _]. lia. }
      destruct (decide (bn = bn')) as [<-|Hne'].
      + apply u32_at_put_same; [lia|done].
      + rewrite u32_at_put_ne by lia. by rewrite (fblk_indirect v i bn' d) by (done || lia). }
  destruct Hx as [Hxr Hxu].
  split; try done.
  - by apply disk_ok_data; [done|lia|].
  - apply (file_ok_grow v sb Hok i Hf b Hb _ _ bn); try done.
    + intros a Ha. apply data_block_data; [done|lia|]. by apply data_block_alloc.
    + apply data_block_data; [done|lia|]. by apply data_block_new.
    + by destruct i.
    + apply Hf.
  - unfold indirect_view. by rewrite length_insert, length_alloc_view.
  - rewrite Hblk by lia. by rewrite decide_True.
  - by apply (free_pos v sb Hok b Hb).
  - intros bn' Hlt Hne'. rewrite Hblk by done. by rewrite decide_False.
  - by destruct i.
  - intros k. destruct (decide (k = Z.to_nat (naddr i 12))) as [->|Hk].
    + right. right. right. split; [lia|done].
    + unfold indirect_view. rewrite list_lookup_insert_ne by done.
      destruct (alloc_frame v sb Hok b Hb k) as [?|[?|?]]; auto.
  - unfold indirect_view. rewrite free_set_data by (done || lia). rewrite alloc_free_set by done. set_solver.
  - intros _. unfold indirect_view. rewrite list_lookup_insert_ne by lia. split; [by apply alloc_view_b|done].
Qed.

(** The same when the indirect block itself had to be allocated first. *)
Lemma grows_after_indirect sb v i v1 i1 v' i' bn b :
  disk_ok v sb → file_ok v sb i → b ∈ free_set v sb → naddr i 12 = 0 → (12 ≤ bn < 140)%nat →
  v1 = alloc_view v sb b → i1 = i_set_addr 12 b i →
  grows sb v1 i1 v' i' bn (fblk v' i' bn) → grows sb v i v' i' bn (fblk v' i' bn).
Proof.
  intros Hok Hf Hb H0 Hbn -> -> [G1 G2 G3 G4 G5 G6 G7 G8 G9 G10 G11 G12 _].
  destruct (add_indirect v sb Hok i Hf b Hb H0) as (Hok1 & Hf1 & Hind & Hblk).
  assert (free_set (alloc_view v sb b) sb ⊆ free_set v sb) as Hsub
    by (rewrite alloc_free_set by done; clear; set_solver).
  assert (fblk v i bn = 0) as Hz.
  { unfold fblk. rewrite decide_False, H0 by lia. done. }
  split; try done.
  - by rewrite G3, length_alloc_view.
  - intros bn' Hlt Hne. rewrite G6, Hblk by done. done.
  - intros k. destruct (G8 k) as [Hk|[Hk|[Hk|[Hk _]]]].
    + rewrite Hk. destruct (alloc_frame v sb Hok b Hb k) as [?|[?|?]]; auto.
    + auto.
    + right. right. left. by apply Hsub.
    + right. right. left. rewrite Hk, Hind. done.
  - by etrans.
  - intros _. destruct G11 as [? ?]; [by rewrite Hblk by lia|]. split; [done|by apply Hsub].
  - intros _. right. rewrite G12, Hind; [done|]. rewrite Hind. by apply (free_pos v sb Hok).
Qed.
