(* ===== verification/FsBmap.v ===== *)
(** * bmap

    bmap returns the block of a file at an index, allocating it (and the
    indirect block) when the file has none there.  The theorem also bounds what
    the call adds to the open transaction. *)
From stdpp Require Import base list gmap numbers option strings sets.
From Stdlib Require Import ZArith Lia.
From S2P Require Import Prelude Layout BlockStore Fs FsTx FsBlocks FsInode.
Open Scope Z_scope.

Section bmap.
Context {BS : BlockStore} (sb : superblock).

(** Blocks of the transaction counted for a file: those logged, the bitmap, and
    its indirect block, allocated or to be allocated. *)
Definition indset (i : inode) : gset Z := if naddr i 12 =? 0 then ∅ else {[naddr i 12]}.
Definition indz (i : inode) : nat := if naddr i 12 =? 0 then 1%nat else 0%nat.
Definition mu (P : gset Z) (i : inode) : nat := (size (P ∪ bitmaps sb ∪ indset i) + indz i)%nat.

Lemma mu_le P P' i i' n :
  P' ∪ indset i' ⊆ P ∪ bitmaps sb ∪ indset i → indz i' = indz i → n = 0%nat → (mu P' i' ≤ mu P i + n)%nat.
Proof.
  intros Hsub Hz ->. unfold mu. rewrite Hz, Nat.add_0_r. apply Nat.add_le_mono_r, subseteq_size. set_solver.
Qed.

Lemma size_union_singleton (X : gset Z) a : (size ({[a]} ∪ X) ≤ S (size X))%nat.
Proof.
  rewrite size_union_alt, size_singleton.
  assert (size (X ∖ {[a]}) ≤ size X)%nat by (apply subseteq_size; clear; set_solver). lia.
Qed.

Lemma wp_balloc_fs (b : bst) Q :
  bs_wf b → disk_ok (vw b) sb → t_active (bs_abs b) = true →
  (∀ j x, hd b !! j = Some x → data_block (vw b) sb x) → free_set (vw b) sb ≠ ∅ →
  Z.of_nat (size (psecs b ∪ bitmaps sb)) < t_cap (bs_abs b) →
  (size (hd b) + 1 + size (psecs b ∪ bitmaps sb) < NBUF)%nat →
  (∀ x b', x ∈ free_set (vw b) sb →
    tstep b b' (alloc_view (vw b) sb x) (hd b) ({[x]} ∪ ({[bblock sb x]} ∪ psecs b)) → Q x b') →
  wp (balloc ROOTDEV) Q b.
Proof.
  intros Hwf Hok Ha Hheld Hne Hcap Hroom HQ.
  destruct (first_free (vw b) sb Hok Hne) as (x & Hx & Hfirst).
  pose proof (proj1 (elem_of_free_set _ _ _) Hx) as [Hxr Hxu].
  pose proof (lo_pos _ _ Hok) as Hlo. pose proof (dk_size _ _ Hok) as Hsz.
  assert (size ({[bblock sb x]} ∪ psecs b) ≤ size (psecs b ∪ bitmaps sb))%nat as Hle.
  { apply subseteq_size. assert (bblock sb x ∈ bitmaps sb) as Hbb; [|revert Hbb; clear; set_solver].
    apply elem_of_bitmaps. exists x. split; [lia|done]. }
  assert (∀ a, a < lo sb → t_fresh (bs_abs b) a) as Hfresh.
  { intros a Hlt j Hj. destruct (Hheld j a Hj) as [? _]. lia. }
  apply (wp_balloc sb b x); [|intros b' HT; by apply HQ].
  split; try done; try lia.
  - split; try done; try apply Hok.
    + apply Hfresh. lia.
    + intros a Har. apply Hfresh. pose proof (bblock_lt_lo _ _ Hok a Har). lia.
  - unfold t_inrange. unfold vw in *. lia.
  - intros j Hj. destruct (Hheld j x Hj) as [_ Hu]. congruence.
  - apply (data_not_bitmap (vw b)); [done|lia|lia].
Qed.

(** What the functions on an unlocked-by-others inode run on. *)
Record fs_pre (s : fstate BS) (ip : nat) (i : inode) : Prop := mkFsPre {
  fp_wf : bs_wf (f_store s);
  fp_disk : disk_ok (vw (f_store s)) sb;
  fp_active : t_active (bs_abs (f_store s)) = true;
  fp_held : hd (f_store s) = ∅;
  fp_ip : f_icache s !! ip = Some i;
  fp_file : file_ok (vw (f_store s)) sb i }.

(** The state after an operation on inode [ip] in the same transaction. *)
Record fstep (s s' : fstate BS) (ip : nat) (i' : inode) (v' : list block) (P' : gset Z) : Prop := mkFstep {
  fs_store : tstep (f_store s) (f_store s') v' (hd (f_store s)) P';
  fs_icache : f_icache s' = <[ip := i']> (f_icache s) }.

Lemma fresh_empty (b : bst) a : hd b = ∅ → t_fresh (bs_abs b) a.
Proof. intros H i. unfold hd in H. rewrite H. by rewrite lookup_empty. Qed.

Lemma wp_bmap_direct s ip i bn Q :
  fs_pre s ip i → 0 ≤ bn < 12 →
  (fblk (vw (f_store s)) i (Z.to_nat bn) = 0 → free_set (vw (f_store s)) sb ≠ ∅) →
  Z.of_nat (mu (psecs (f_store s)) i) < t_cap (bs_abs (f_store s)) →
  (1 + mu (psecs (f_store s)) i < NBUF)%nat →
  (∀ a s' v' i' P', grows sb (vw (f_store s)) i v' i' (Z.to_nat bn) a →
    fstep s s' ip i' v' P' →
    (mu ({[a]} ∪ P') i' ≤ mu (psecs (f_store s)) i + 1)%nat →
    (size (free_set (vw (f_store s)) sb) ≤ size (free_set v' sb) + 1)%nat → indz i' = indz i →
    Q a s') →
  wp (bmap ip bn) Q s.
Proof.
  intros [Hwf Hok Hact Hheld Hip Hf] Hbn Hfree Hcap Hroom HQ.
  set (b := f_store s) in *. set (v := vw b) in *. set (n := Z.to_nat bn) in *.
  assert (n < 12)%nat as Hn by lia. pose proof (fo_addrs _ _ _ Hf) as Hlen.
  assert (fblk v i n = naddr i n) as Hfb by (unfold fblk; by rewrite decide_True).
  destruct (lookup_lt_is_Some_2 (i_addrs i) n) as [a Ha]; [lia|].
  assert (naddr i n = a) as Hna by (unfold naddr; by rewrite Ha).
  unfold bmap. wstep1. eapply wp_geti; [done|].
  change (bn <? NDIRECT) with (bn <? 12). rewrite (proj2 (Z.ltb_lt _ _)) by lia.
  rewrite aget_pos by lia. fold n. rewrite Ha. wstep.
  rewrite (fo_dev _ _ _ Hf).
  destruct (Z.eqb_spec a 0) as [->|Ha0].
  - wstep1. apply wp_sto, wp_balloc_fs; try done.
    + fold b. intros j x. by rewrite Hheld, lookup_empty.
    + fold b v. apply Hfree. congruence.
    + fold b. eapply Z.le_lt_trans; [|exact Hcap]. unfold mu.
      assert (size (psecs b ∪ bitmaps sb) ≤ size (psecs b ∪ bitmaps sb ∪ indset i))%nat
        by (apply subseteq_size; clear; set_solver). lia.
    + fold b. rewrite Hheld, map_size_empty. unfold mu in Hroom.
      assert (size (psecs b ∪ bitmaps sb) ≤ size (psecs b ∪ bitmaps sb ∪ indset i))%nat
        by (apply subseteq_size; clear; set_solver). lia.
    + fold b v. intros x b' Hx T. wstep1. eapply wp_modi; [done|]. wstep1. fold n.
      pose proof (grow_direct v sb Hok i Hf x Hx n Hn Hna) as G.
      assert (naddr (i_set_addr n x i) 12 = naddr i 12) as Hind
        by (rewrite naddr_set by lia; by rewrite decide_False by lia).
      eapply (HQ x _ _ (i_set_addr n x i) _ G).
      * split; [|done]. exact T.
      * unfold mu, indz, indset. rewrite Hind.
        set (I := if naddr i 12 =? 0 then ∅ else {[naddr i 12]} : gset Z).
        assert (size ({[x]} ∪ ({[x]} ∪ ({[bblock sb x]} ∪ psecs b)) ∪ bitmaps sb ∪ I)
          ≤ S (size (psecs b ∪ bitmaps sb ∪ I)))%nat; [|lia].
        etrans; [|apply (size_union_singleton _ x)]. apply subseteq_size.
        assert (bblock sb x ∈ bitmaps sb) as Hbb; [|revert Hbb; clear; set_solver].
        apply elem_of_bitmaps. exists x. split; [|done].
        pose proof (proj1 (elem_of_free_set _ _ _) Hx) as [? _]. pose proof (lo_pos _ _ Hok).
        pose proof (dk_size _ _ Hok). lia.
      * rewrite alloc_free_set by done. rewrite size_difference by (by apply singleton_subseteq_l).
        rewrite size_singleton. lia.
      * unfold indz. by rewrite Hind.
  - wstep1. apply (HQ a s v i (psecs b)).
    + split; try done; try congruence; auto.
      by destruct i.
    + split; [|by rewrite list_insert_id]. by apply tstep_refl.
    + unfold mu. pose proof (size_union_singleton (psecs b ∪ bitmaps sb ∪ indset i) a).
      rewrite <- !(assoc_L (∪)) in *. lia.
    + lia.
    + done.
Qed.

Lemma grows_refl v i bn : disk_ok v sb → file_ok v sb i → fblk v i bn ≠ 0 → grows sb v i v i bn (fblk v i bn).
Proof. intros. split; try done; auto. by destruct i. Qed.

(** The part of bmap after the indirect block is known. *)
Lemma wp_bmap_indirect s ip i (n : nat) Q :
  let x := naddr i 12 in let k := (4 * (n - 12))%nat in
  fs_pre s ip i → (12 ≤ n < 140)%nat → x ≠ 0 →
  (fblk (vw (f_store s)) i n = 0 → free_set (vw (f_store s)) sb ≠ ∅) →
  Z.of_nat (mu (psecs (f_store s)) i) + 1 < t_cap (bs_abs (f_store s)) →
  (2 + mu (psecs (f_store s)) i < NBUF)%nat →
  (∀ a s' v' P', grows sb (vw (f_store s)) i v' i n a →
    fstep s s' ip i v' P' →
    (mu ({[a]} ∪ P') i ≤ mu (psecs (f_store s)) i + 1)%nat →
    (size (free_set (vw (f_store s)) sb) ≤ size (free_set v' sb) + 1)%nat →
    Q a s') →
  wp (bp <- sto (bs_bread ROOTDEV x) ;; a <- sto (bs_bdata bp) ;;
      if u32_at a k =? 0 then
        addr <- sto (balloc ROOTDEV) ;; a <- sto (bs_bdata bp) ;;
        sto (bs_bset bp (put_u32 a k addr)) ;;; sto (bs_log_write bp) ;;; sto (bs_brelse bp) ;;;
        ret addr
      else sto (bs_brelse bp) ;;; ret (u32_at a k)) Q s.
Proof.
  intros x k [Hwf Hok Hact Hheld Hip Hf] Hn Hx0 Hfree Hcap Hroom HQ. destruct s as [b c]. simpl in *.
  pose proof (fo_ind _ _ _ Hf Hx0) as Hxd. fold x in Hxd. pose proof Hxd as [Hxr Hxu].
  pose proof (lo_pos _ _ Hok) as Hlo. pose proof (dk_size _ _ Hok) as Hsz.
  destruct (lookup_lt_is_Some_2 (vw b) (Z.to_nat x)) as [d Hd]; [lia|].
  assert (fblk (vw b) i n = u32_at d k) as Hfb by (apply fblk_indirect; [done|done|lia]).
  assert (indset i = {[x]} ∧ indz i = 0%nat) as [Hi Hz]
    by (unfold indset, indz; fold x; by rewrite (proj2 (Z.eqb_neq _ _) Hx0)).
  assert (size (psecs b) ≤ size (psecs b ∪ bitmaps sb))%nat as Hs1 by (apply subseteq_size; clear; set_solver).
  assert (size (psecs b ∪ bitmaps sb) ≤ size (psecs b ∪ bitmaps sb ∪ {[x]}))%nat as Hs2
    by (apply subseteq_size; clear; set_solver).
  assert (mu (psecs b) i = size (psecs b ∪ bitmaps sb ∪ {[x]})) as Hmu by (unfold mu; rewrite Hi, Hz; lia).
  wstep1. apply wp_sto, wp_bread; simpl; [done|apply inrange_lookup; split; [lia|eauto]|by apply fresh_empty|
    rewrite Hheld, map_size_empty; lia|].
  intros l b1 _ Hc T1. pose proof T1 as [W1 V1 H1 P1 _ A1 C1 _]. rewrite Hheld, insert_empty in H1.
  assert (hd b1 !! l = Some x) as Hl1 by (by rewrite H1, lookup_singleton_eq).
  wstep1. apply wp_sto, (wp_bdata _ _ x d); simpl; [done..|by rewrite V1|].
  destruct (Z.eqb_spec (u32_at d k) 0) as [Hz0|Hnz].
  - wstep1. apply wp_sto, wp_balloc_fs; simpl; rewrite ?V1, ?P1, ?C1, ?A1, ?H1, ?map_size_singleton; try done.
    + intros j y [_ <-]%lookup_singleton_Some. done.
    + apply Hfree. congruence.
    + lia.
    + lia.
    + intros y b2 Hy T2. pose proof T2 as [W2 V2 H2 P2 _ A2 C2 _].
      assert (y ≠ x) as Hyx by (intros ->; by apply (free_ne (vw b) sb x Hy x)).
      assert (vw b2 !! Z.to_nat x = Some d) as Hd2
        by (rewrite V2; rewrite data_lookup_alloc by done; done).
      wstep1. apply wp_sto, (wp_bdata _ _ x d); simpl; [done|by rewrite H2, lookup_singleton_eq|done|].
      assert (size (psecs b2) ≤ size (psecs b ∪ bitmaps sb ∪ {[x]}) + 1)%nat as Hsz2.
      { rewrite P2. etrans; [|rewrite Nat.add_1_r; apply (size_union_singleton _ y)]. apply subseteq_size.
        assert (bblock sb y ∈ bitmaps sb) as Hbb; [|revert Hbb; clear; set_solver].
        apply elem_of_bitmaps. exists y. split; [|done].
        pose proof (proj1 (elem_of_free_set _ _ _) Hy) as [? _]. lia. }
      apply (wp_sto_put _ _ x); simpl; [done|by rewrite H2, lookup_singleton_eq| | | | | |].
      * apply (indirect_wf y n d); [|lia]. by eapply (view_block_wf b).
      * apply inrange_lookup. split; [lia|eauto].
      * by rewrite A2, A1.
      * rewrite C2, C1. lia.
      * rewrite H2, map_size_singleton. lia.
      * intros b3 T3. wstep1. unfold set_store. simpl.
        pose proof (grow_indirect (vw b) sb i y n d Hok Hf Hy Hx0 Hd ltac:(lia) ltac:(congruence)) as G.
        apply (HQ y _ (indirect_view (vw b) sb i y n d) ({[x]} ∪ psecs b2) G).
        -- split; [|simpl; by rewrite list_insert_id]. simpl.
           pose proof (tstep_trans _ _ _ _ _ _ _ _ _ (tstep_trans _ _ _ _ _ _ _ _ _ T1 T2) T3) as T.
           rewrite V2, H2 in T. rewrite delete_singleton_eq in T. rewrite Hheld. exact T.
        -- rewrite Hmu. unfold mu. rewrite Hi, Hz, P2, Nat.add_0_r.
           etrans; [|rewrite Nat.add_1_r; apply (size_union_singleton _ y)]. apply subseteq_size.
           assert (bblock sb y ∈ bitmaps sb) as Hbb; [|revert Hbb; clear; set_solver].
           apply elem_of_bitmaps. exists y. split; [|done].
           pose proof (proj1 (elem_of_free_set _ _ _) Hy) as [? _]. lia.
        -- unfold indirect_view. rewrite free_set_data; [| |lia].
           ++ rewrite alloc_free_set by done. rewrite size_difference by (by apply singleton_subseteq_l).
              rewrite size_singleton. lia.
           ++ by apply alloc_disk_ok.
  - wstep1. apply wp_sto, (wp_brelse _ _ x); simpl; [done..|]. intros b2 T2. wstep1.
    rewrite <- Hfb. apply (HQ _ _ (vw b) (psecs b)).
    + apply grows_refl; [done..|congruence].
    + split; [|simpl; by rewrite list_insert_id]. simpl.
      pose proof (tstep_trans _ _ _ _ _ _ _ _ _ T1 T2) as T.
      rewrite V1, H1, P1, delete_singleton_eq in T. rewrite Hheld. exact T.
    + unfold mu. rewrite Hi, Hz.
      pose proof (size_union_singleton (psecs b ∪ bitmaps sb ∪ {[x]}) (fblk (vw b) i n)).
      rewrite <- !(assoc_L (∪)) in *. lia.
    + lia.
Qed.

Lemma mu_add_indirect P i x :
  naddr i 12 = 0 → bblock sb x ∈ bitmaps sb →
  ∀ i', naddr i' 12 = x → x ≠ 0 → (mu ({[x]} ∪ ({[bblock sb x]} ∪ P)) i' ≤ mu P i)%nat.
Proof.
  intros H0 Hbb i' Hi' Hx. unfold mu, indset, indz. rewrite H0, Hi', (proj2 (Z.eqb_neq _ _) Hx). simpl.
  rewrite Nat.add_0_r, Nat.add_1_r. etrans; [|apply (size_union_singleton _ x)].
  apply subseteq_size. revert Hbb. clear. set_solver.
Qed.

Lemma wp_bmap s ip i (n : nat) Q :
  fs_pre s ip i → (n < 140)%nat →
  (fblk (vw (f_store s)) i n = 0 → (indz i < size (free_set (vw (f_store s)) sb))%nat) →
  Z.of_nat (mu (psecs (f_store s)) i) + 1 < t_cap (bs_abs (f_store s)) →
  (2 + mu (psecs (f_store s)) i < NBUF)%nat →
  (∀ a s' v' i' P', grows sb (vw (f_store s)) i v' i' n a →
    fstep s s' ip i' v' P' →
    (mu ({[a]} ∪ P') i' ≤ mu (psecs (f_store s)) i + 1)%nat →
    (size (free_set (vw (f_store s)) sb) + indz i' ≤ size (free_set v' sb) + indz i + 1)%nat →
    Q a s') →
  wp (bmap ip (Z.of_nat n)) Q s.
Proof.
  intros Hp Hn Hfree Hcap Hroom HQ. destruct (decide (n < 12)%nat) as [Hlt|Hge].
  - apply (wp_bmap_direct s ip i); [done|lia| |lia|lia|].
    + rewrite Nat2Z.id. intros Hz. specialize (Hfree Hz). intros He. rewrite He, size_empty in Hfree. lia.
    + rewrite Nat2Z.id. intros a s' v' i' P' G F Hm Hs Hi. eapply HQ; [done..|]. rewrite Hi. lia.
  - pose proof Hp as [Hwf Hok Hact Hheld Hip Hf]. pose proof (fo_addrs _ _ _ Hf) as Hlen.
    destruct (lookup_lt_is_Some_2 (i_addrs i) 12) as [x Hx]; [lia|].
    assert (naddr i 12 = x) as Hnx by (unfold naddr; by rewrite Hx).
    unfold bmap. wstep1. eapply wp_geti; [done|].
    change NDIRECT with 12. change NINDIRECT with 128.
    rewrite (proj2 (Z.ltb_ge _ _)), (proj2 (Z.ltb_lt _ _)) by lia.
    rewrite aget_pos by lia. change (Z.to_nat 12) with 12%nat. rewrite Hx. wstep1. wstep1.
    rewrite (fo_dev _ _ _ Hf).
    replace (Z.to_nat (Z.of_nat n - 12)) with (n - 12)%nat by lia. wstep1.
    destruct (Z.eqb_spec x 0) as [->|Hx0].
    + assert (fblk (vw (f_store s)) i n = 0) as Hz
        by (unfold fblk; rewrite decide_False by lia; by rewrite Hnx).
      assert (indz i = 1%nat) as Hiz by (unfold indz; by rewrite Hnx).
      specialize (Hfree Hz). rewrite Hiz in Hfree.
      wstep1. apply wp_sto, wp_balloc_fs; try done.
      * intros j y. by rewrite Hheld, lookup_empty.
      * intros He. rewrite He, size_empty in Hfree. lia.
      * unfold mu in Hcap. assert (size (psecs (f_store s) ∪ bitmaps sb) ≤
          size (psecs (f_store s) ∪ bitmaps sb ∪ indset i))%nat by (apply subseteq_size; clear; set_solver). lia.
      * rewrite Hheld, map_size_empty. unfold mu in Hroom. assert (size (psecs (f_store s) ∪ bitmaps sb) ≤
          size (psecs (f_store s) ∪ bitmaps sb ∪ indset i))%nat by (apply subseteq_size; clear; set_solver). lia.
      * intros x b1 Hxf T1. wstep1. eapply wp_modi; [done|]. wstep1.
        pose proof T1 as [W1 V1 H1 P1 _ A1 C1 _].
        destruct (add_indirect _ sb Hok i Hf x Hxf Hnx) as (Hok1 & Hf1 & Hind & Hblk).
        pose proof (free_pos _ sb Hok x Hxf) as Hxpos.
        assert (bblock sb x ∈ bitmaps sb) as Hbb.
        { apply elem_of_bitmaps. exists x. split; [|done].
          pose proof (proj1 (elem_of_free_set _ _ _) Hxf) as [? _].
          pose proof (lo_pos _ _ Hok). pose proof (dk_size _ _ Hok). lia. }
        set (i1 := i_set_addr 12 x i) in *.
        set (s1 := mkF b1 (<[ip := i1]> (f_icache s))).
        pose proof (mu_add_indirect (psecs (f_store s)) i x Hnx Hbb i1 Hind Hxpos) as Hmu1.
        rewrite <- P1 in Hmu1.
        assert (fs_pre s1 ip i1) as Hp1.
        { split; simpl; rewrite ?V1; try done; [by rewrite A1|by rewrite H1|].
          apply list_lookup_insert_eq. by eapply lookup_lt_Some. }
        change (wp ?m Q _) with (wp m Q s1).
        rewrite <- Hind.
        apply (wp_bmap_indirect s1 ip i1 n); simpl; [done|lia|by rewrite Hind| |rewrite C1; lia|lia|].
        -- intros _. rewrite V1, alloc_free_set by done. intros He.
           assert (size (free_set (vw (f_store s)) sb ∖ {[x]}) = 0%nat) as Hs0 by (rewrite He; apply size_empty).
           rewrite size_difference, size_singleton in Hs0 by (by apply singleton_subseteq_l). lia.
        -- rewrite V1. intros a s' v' P' G [F1 F2] Hm Hs. simpl in *.
           assert (grows sb (vw (f_store s)) i v' i1 n a) as G'.
           { pose proof (gr_blk _ _ _ _ _ _ _ G) as Hga. rewrite <- Hga. rewrite <- Hga in G.
             eapply (grows_after_indirect sb _ i (alloc_view (vw (f_store s)) sb x) i1 v' i1 n x); try done; lia. }
           apply (HQ a s' v' i1 P' G').
           ++ split; [|rewrite F2; by rewrite list_insert_insert_eq].
              rewrite H1 in F1. by eapply tstep_trans.
           ++ lia.
           ++ rewrite alloc_free_set, size_difference, size_singleton in Hs by (done || by apply singleton_subseteq_l).
              unfold indz at 1. rewrite Hind, (proj2 (Z.eqb_neq _ _) Hxpos). lia.
    + wstep1. rewrite <- Hnx in *.
      apply (wp_bmap_indirect s ip i n); [done|lia|done| |done|done|].
      * intros Hz. specialize (Hfree Hz). intros He. rewrite He, size_empty in Hfree. lia.
      * intros a s' v' P' G F Hm Hs. eapply HQ; [done..|lia].
Qed.
End bmap.
