(* ===== verification/FsRead.v ===== *)
(** * Reading a file: readi

    The contents of a file as a list of bytes, and that readi returns the part
    of it that was asked for and leaves disk, log and inode cache as they were. *)
From stdpp Require Import base list gmap numbers option strings sets.
From Stdlib Require Import ZArith Lia.
From S2P Require Import Prelude Kstring Layout BlockStore Fs FsTx FsBlocks FsInode FsBmap.
Open Scope Z_scope.

Definition fbyte (v : list block) (i : inode) (off : nat) : Z :=
  match v !! Z.to_nat (fblk v i (off / 512)) with
  | Some d => default 0 (d !! (off mod 512)%nat)
  | None => 0
  end.
Definition fdata (v : list block) (i : inode) : list Z :=
  fbyte v i <$> seq 0 (Z.to_nat (i_size i)).

Lemma length_fdata v i : length (fdata v i) = Z.to_nat (i_size i).
Proof. unfold fdata. by rewrite length_fmap, length_seq. Qed.

Lemma lookup_fdata v i o : (o < Z.to_nat (i_size i))%nat → fdata v i !! o = Some (fbyte v i o).
Proof. intros Ho. unfold fdata. by rewrite list_lookup_fmap, lookup_seq_lt. Qed.

Lemma slice_app_split {A} (l : list A) a x y : slice l a (x + y) = slice l a x ++ slice l (a + x) y.
Proof. unfold slice. rewrite <- drop_drop. symmetry. apply take_take_drop. Qed.

(** A run of bytes inside one block. *)
Lemma fdata_block v i off m d :
  (off + m ≤ Z.to_nat (i_size i))%nat → (off mod 512 + m ≤ 512)%nat → length d = 512%nat →
  v !! Z.to_nat (fblk v i (off / 512)) = Some d →
  slice (fdata v i) off m = slice d (off mod 512) m.
Proof.
  intros Hs Hm Hl Hd. apply list_eq. intros j. destruct (decide (j < m)%nat) as [Hj|Hj].
  - rewrite !lookup_slice, lookup_fdata by lia. unfold fbyte.
    assert ((off + j) / 512 = off / 512)%nat as ->.
    { symmetry. apply (Nat.div_unique _ _ _ (off mod 512 + j)); [lia|].
      pose proof (Nat.div_mod_eq off 512). lia. }
    rewrite Hd. assert ((off + j) mod 512 = off mod 512 + j)%nat as ->.
    { symmetry. apply (Nat.mod_unique _ _ (off / 512)); [lia|].
      pose proof (Nat.div_mod_eq off 512). lia. }
    destruct (lookup_lt_is_Some_2 d (off mod 512 + j)) as [x Hx]; [lia|]. by rewrite Hx.
  - unfold slice. rewrite !lookup_take_ge by lia. done.
Qed.

Section readi.
Context {BS : BlockStore} (sb : superblock) (devsw : devsw_t (fstate BS)).

(** What reading needs: no transaction. *)
Record fs_ro (s : fstate BS) (ip : nat) (i : inode) : Prop := mkFsRo {
  fr_wf : bs_wf (f_store s);
  fr_disk : disk_ok (vw (f_store s)) sb;
  fr_held : hd (f_store s) = ∅;
  fr_room : (size (psecs (f_store s)) < NBUF)%nat;
  fr_ip : f_icache s !! ip = Some i;
  fr_file : file_ok (vw (f_store s)) sb i }.

(** The store after a read. *)
Definition same (b b' : bst) : Prop := tstep b b' (vw b) (hd b) (psecs b).

Lemma same_trans b1 b2 b3 : same b1 b2 → same b2 b3 → same b1 b3.
Proof.
  intros T1 T2. unfold same in *. pose proof T1 as [_ V H P _ _ _ _]. rewrite V, H, P in T2.
  by eapply tstep_trans.
Qed.

Lemma fs_ro_same s b' ip i : fs_ro s ip i → same (f_store s) b' → fs_ro (set_store b' s) ip i.
Proof. intros [? ? ? ? ? ?] [? V H P _ _ _ _]. split; simpl; rewrite ?V, ?H, ?P; done. Qed.

Lemma data_lookup v a : disk_ok v sb → data_block v sb a → 0 ≤ a ∧ is_Some (v !! Z.to_nat a).
Proof.
  intros Hok [Hr _]. pose proof (lo_pos _ _ Hok). split; [lia|]. apply lookup_lt_is_Some. lia.
Qed.

(** bmap of a block the file has. *)
Lemma wp_bmap_read s ip i n Q :
  fs_ro s ip i → (n < 140)%nat → fblk (vw (f_store s)) i n ≠ 0 →
  (∀ b', same (f_store s) b' → Q (fblk (vw (f_store s)) i n) (set_store b' s)) →
  wp (bmap ip (Z.of_nat n)) Q s.
Proof.
  intros [Hwf Hok Hheld Hroom Hip Hf] Hn Hnz HQ. pose proof (fo_addrs _ _ _ Hf) as Hlen.
  unfold bmap. wstep1. eapply wp_geti; [done|]. change NDIRECT with 12. change NINDIRECT with 128.
  rewrite (fo_dev _ _ _ Hf). destruct (decide (n < 12)%nat) as [Hlt|Hge].
  - assert (fblk (vw (f_store s)) i n = naddr i n) as Hfb by (unfold fblk; by rewrite decide_True).
    destruct (lookup_lt_is_Some_2 (i_addrs i) n) as [a Ha]; [lia|].
    assert (naddr i n = a) as Hna by (unfold naddr; by rewrite Ha).
    rewrite (proj2 (Z.ltb_lt _ _)) by lia. rewrite aget_nat, Ha. wstep.
    rewrite (proj2 (Z.eqb_neq a 0)) by congruence. wstep1.
    destruct s as [b c]. simpl in *. rewrite <- Hna, <- Hfb. apply HQ. by apply tstep_refl.
  - destruct (lookup_lt_is_Some_2 (i_addrs i) 12) as [x Hx]; [lia|].
    assert (naddr i 12 = x) as Hnx by (unfold naddr; by rewrite Hx).
    assert (x ≠ 0) as Hx0.
    { intros ->. apply Hnz. unfold fblk. rewrite decide_False by lia. by rewrite Hnx. }
    rewrite (proj2 (Z.ltb_ge _ _)), (proj2 (Z.ltb_lt _ _)) by lia.
    rewrite aget_pos by lia. change (Z.to_nat 12) with 12%nat. rewrite Hx. wstep1. wstep1.
    rewrite (proj2 (Z.eqb_neq x 0)) by done. wstep1. wstep1.
    replace (Z.to_nat (Z.of_nat n - 12)) with (n - 12)%nat by lia.
    destruct (data_lookup (vw (f_store s)) x Hok) as [Hx1 [d Hd]].
    { rewrite <- Hnx. apply Hf. by rewrite Hnx. }
    assert (fblk (vw (f_store s)) i n = u32_at d (4 * (n - 12))) as Hfb
      by (apply fblk_indirect; [by rewrite Hnx|by rewrite Hnx|lia]).
    destruct s as [b c]. cbn [f_store f_icache] in *.
    wstep1. apply wp_sto, wp_bread; cbn [f_store set_store]; [done|apply inrange_lookup; split; [lia|eauto]|
      by apply fresh_empty|rewrite Hheld, map_size_empty; lia|].
    intros l b1 _ Hc T1. pose proof T1 as [W1 V1 H1 P1 _ _ _ _]. rewrite Hheld, insert_empty in H1.
    wstep1. apply wp_sto, (wp_bdata _ _ x d); cbn [f_store set_store]; [done|by rewrite H1, lookup_singleton_eq|by rewrite V1|].
    rewrite (proj2 (Z.eqb_neq (u32_at d (4 * (n - 12))) 0)) by congruence.
    wstep1. apply wp_sto, (wp_brelse _ _ x); cbn [f_store set_store]; [done|by rewrite H1, lookup_singleton_eq|done|].
    intros b2 T2. wstep1. rewrite <- Hfb. apply HQ. unfold same.
    pose proof (tstep_trans _ _ _ _ _ _ _ _ _ T1 T2) as T.
    rewrite V1, H1, P1, delete_singleton_eq in T. rewrite Hheld. exact T.
Qed.

Lemma wp_readi_loop fuel s ip i off tot n Q :
  fs_ro s ip i → 0 ≤ off → 0 ≤ tot ≤ n → off + (n - tot) ≤ i_size i → n - tot < Z.of_nat fuel →
  (∀ b', same (f_store s) b' →
    Q (slice (fdata (vw (f_store s)) i) (Z.to_nat off) (Z.to_nat (n - tot))) (set_store b' s)) →
  wp (readi_loop fuel ip off tot n) Q s.
Proof.
  revert s off tot Q. induction fuel as [|fuel IH]; intros s off tot Q Hro H0 Ht Hs Hfuel HQ; [lia|].
  pose proof Hro as [Hwf Hok Hheld Hroom Hip Hf]. pose proof (fo_size _ _ _ Hf) as Hsize.
  change (MAXFILE * BSIZE) with 71680 in Hsize. cbn [readi_loop]. change BSIZE with 512.
  destruct (Z.ltb_spec tot n) as [Hlt|Hge].
  - set (m := Z.min (n - tot) (512 - off mod 512)).
    assert (0 < m ∧ m ≤ n - tot ∧ off mod 512 + m ≤ 512) as (Hm0 & Hm1 & Hm2) by zlia.
    set (bn := Z.to_nat (off / 512)).
    assert (bn < 140)%nat as Hbn by zlia.
    assert (fblk (vw (f_store s)) i bn ≠ 0) as Hnz by (apply (fo_full _ _ _ Hf); zlia).
    replace (off / 512) with (Z.of_nat bn) by zlia.
    destruct (data_lookup (vw (f_store s)) _ Hok (fo_data _ _ _ Hf bn Hbn Hnz)) as [Hp [d Hd]].
    wstep1. apply (wp_bmap_read s ip i); [done..|]. intros b1 S1.
    pose proof (fs_ro_same _ _ _ _ Hro S1) as Hro1. pose proof S1 as [W1 V1 H1 P1 _ _ _ _].
    wstep1. eapply wp_geti; [apply Hro1|]. rewrite (fo_dev _ _ _ Hf).
    apply (wp_sto_read _ _ d); simpl; [done|done|by rewrite V1|by apply fresh_empty; rewrite H1|
      rewrite H1, Hheld, map_size_empty, P1; lia|].
    intros b2 S2. pose proof (same_trans _ _ _ S1 S2) as S12.
    wstep1. unfold set_store. simpl.
    apply IH; [by apply (fs_ro_same s)|lia|lia|lia|lia|].
    simpl. intros b3 S3. wstep1.
    pose proof S12 as [_ V2 _ _ _ _ _ _]. rewrite V2.
    assert (length d = 512%nat) as Hdl by (apply (view_block_wf _ _ _ Hwf Hd)).
    assert (Z.to_nat (off mod 512) = Z.to_nat off mod 512)%nat as Hmod by (apply Z2Nat.inj_mod; lia).
    assert (Z.to_nat (off / 512) = Z.to_nat off / 512)%nat as Hdiv by (apply Z2Nat.inj_div; lia).
    rewrite Hmod.
    rewrite <- (fdata_block (vw (f_store s)) i (Z.to_nat off) (Z.to_nat m) d).
    + replace (Z.to_nat (off + m)) with (Z.to_nat off + Z.to_nat m)%nat by lia.
      rewrite <- slice_app_split.
      replace (Z.to_nat m + Z.to_nat (n - (tot + m)))%nat with (Z.to_nat (n - tot)) by lia.
      apply HQ. by eapply same_trans.
    + lia.
    + rewrite <- Hmod. zlia.
    + done.
    + rewrite <- Hdiv. done.
  - wstep1. replace (Z.to_nat (n - tot)) with 0%nat in HQ by lia.
    destruct s as [b c]. apply (HQ b). by apply tstep_refl.
Qed.

Lemma wp_readi s ip i off n Q :
  fs_ro s ip i → i_type i ≠ T_DEV → 0 ≤ off ≤ i_size i → 0 ≤ n → off + n < 2 ^ 32 →
  (∀ b', same (f_store s) b' → let m := Z.min n (i_size i - off) in
    Q (m, slice (fdata (vw (f_store s)) i) (Z.to_nat off) (Z.to_nat m)) (set_store b' s)) →
  wp (readi devsw ip off n) Q s.
Proof.
  intros Hro Hty Ho Hn Hov HQ. pose proof Hro as [_ _ _ _ Hip Hf].
  pose proof (fo_size _ _ _ Hf) as Hsize. change (MAXFILE * BSIZE) with 71680 in Hsize.
  unfold readi. wstep1. eapply wp_geti; [done|].
  rewrite (proj2 (Z.eqb_neq _ _) Hty). rewrite u32_small by lia.
  rewrite (proj2 (Z.ltb_ge (i_size i) off)), (proj2 (Z.ltb_ge (off + n) off)) by lia. simpl orb. cbv iota.
  assert ((if i_size i <? off + n then i_size i - off else n) = Z.min n (i_size i - off)) as ->.
  { destruct (Z.ltb_spec (i_size i) (off + n)); lia. }
  cbv zeta. wstep1. apply (wp_readi_loop _ s ip i); [done|lia|lia|lia|lia|]. intros b' Hs.
  wstep1. rewrite s32_small by lia. rewrite Z.sub_0_r. by apply HQ.
Qed.

Lemma readi_error s ip i off n :
  f_icache s !! ip = Some i → i_type i ≠ T_DEV → i_size i < off ∨ u32 (off + n) < off →
  readi devsw ip off n s = Ok (ERR, []) s.
Proof.
  intros Hip Hty He. unfold readi, bind, geti. rewrite Hip. simpl.
  rewrite (proj2 (Z.eqb_neq _ _) Hty).
  destruct (Z.ltb_spec (i_size i) off); [done|].
  destruct (Z.ltb_spec (u32 (off + n)) off); [done|]. lia.
Qed.
End readi.
