(* ===== verification/FsWrite.v ===== *)
(** * Writing a file: writei and iupdate

    writei replaces a range of the file's bytes, extends the file when the
    range ends after it, and touches no block of another file. *)
From stdpp Require Import base list gmap numbers option strings sets.
From Stdlib Require Import ZArith Lia.
From S2P Require Import Prelude Kstring Layout BlockStore Fs FsTx FsBlocks FsInode FsBmap FsRead.
Open Scope Z_scope.

(** The blocks of a file: data blocks and the indirect block. *)
Definition owned (v : list block) (i : inode) (a : Z) : Prop :=
  (naddr i 12 ≠ 0 ∧ a = naddr i 12) ∨ ∃ bn, (bn < 140)%nat ∧ fblk v i bn ≠ 0 ∧ a = fblk v i bn.

(** [src] has been written at [off], up to [tot] bytes. *)
Record written (sb : superblock) (v0 : list block) (i0 : inode) (v : list block) (i : inode)
    (off tot : nat) (src : list Z) : Prop := mkWritten {
  wr_disk : disk_ok v sb;
  wr_file : file_ok v sb i;
  wr_len : length v = length v0;
  wr_fields : i = set_addrs (i_addrs i) i0;
  wr_keep : ∀ bn, (bn < 140)%nat → fblk v0 i0 bn ≠ 0 → fblk v i bn = fblk v0 i0 bn;
  wr_new : ∀ bn, (bn < 140)%nat → fblk v i bn ≠ 0 → fblk v0 i0 bn ≠ 0 ∨ fblk v i bn ∈ free_set v0 sb;
  wr_ind : naddr i 12 ≠ 0 → naddr i 12 = naddr i0 12 ∨ naddr i 12 ∈ free_set v0 sb;
  wr_alloc : ∀ o, (off ≤ o < off + tot)%nat → (o / 512 < 140)%nat ∧ fblk v i (o / 512) ≠ 0;
  wr_bytes : ∀ o, (o < Z.to_nat (i_size i0) ∨ off ≤ o < off + tot)%nat →
    fbyte v i o = if decide (off ≤ o < off + tot)%nat then default 0 (src !! (o - off)%nat)
                  else fbyte v0 i0 o;
  wr_frame : ∀ k, v !! k = v0 !! k ∨ Z.of_nat k ∈ bitmaps sb ∨ Z.of_nat k ∈ free_set v0 sb ∨
    owned v0 i0 (Z.of_nat k);
  wr_free : free_set v sb ⊆ free_set v0 sb }.

Lemma written_0 sb v i off src : disk_ok v sb → file_ok v sb i → written sb v i v i off 0 src.
Proof.
  intros Hok Hf. split; try done; auto; try lia; [by destruct i|].
  intros o Ho. rewrite decide_False by lia. done.
Qed.

(** Storing into a data block of the file. *)
Section data_store.
Context (v : list block) (sb : superblock) (Hok : disk_ok v sb) (i : inode) (Hf : file_ok v sb i).
Context (a : Z) (d : block) (Ha : data_block v sb a) (Hne : a ≠ naddr i 12) (Hd : block_wf d).

Lemma fblk_data bn : fblk (<[Z.to_nat a := d]> v) i bn = fblk v i bn.
Proof.
  unfold fblk. destruct (decide _); [done|]. destruct (Z.eqb_spec (naddr i 12) 0) as [|Hn]; [done|].
  pose proof (fo_ind _ _ _ Hf Hn) as [? _]. destruct Ha as [? _]. pose proof (lo_pos _ _ Hok).
  by rewrite list_lookup_insert_ne by lia.
Qed.

Lemma file_ok_data : file_ok (<[Z.to_nat a := d]> v) sb i.
Proof.
  destruct Ha as [Har _].
  assert (∀ x, data_block (<[Z.to_nat a:=d]> v) sb x ↔ data_block v sb x) as Hdb
    by (intros x; apply data_block_data; [done|lia]).
  destruct Hf as [? ? ? HD HJ HN ? HF]. split; try done.
  - intros Hn. apply Hdb. auto.
  - intros bn Hbn. rewrite fblk_data. intros. apply Hdb. by apply HD.
  - intros b1 b2 H1 H2. rewrite !fblk_data. by apply HJ.
  - intros bn Hbn. rewrite fblk_data. by apply HN.
  - intros bn Hbn. rewrite fblk_data. by apply HF.
Qed.
End data_store.

Lemma used_not_free v sb a : data_block v sb a → a ∉ free_set v sb.
Proof. intros [_ Hu] [_ Hf]%elem_of_free_set. congruence. Qed.

Lemma data_not_bitmaps v sb a : disk_ok v sb → data_block v sb a → a ∉ bitmaps sb.
Proof.
  intros Hok [Hr _] (b & Hb & ->)%elem_of_bitmaps. pose proof (bblock_lt_lo v sb Hok b Hb). lia.
Qed.

Lemma grows_data sb v i v' i' bn a :
  grows sb v i v' i' bn a → (bn < 140)%nat → data_block v' sb a.
Proof.
  intros G Hbn. rewrite <- (gr_blk _ _ _ _ _ _ _ G).
  apply (fo_data _ _ _ (gr_file _ _ _ _ _ _ _ G)); [done|].
  rewrite (gr_blk _ _ _ _ _ _ _ G). apply G.
Qed.

(** Storing into an inode block leaves every file's contents alone. *)
Section meta_store.
Context (v : list block) (sb : superblock) (Hok : disk_ok v sb) (i : inode) (Hf : file_ok v sb i).
Context (x : Z) (d : block) (Hx : plain sb x) (Hlo : x < lo sb).

Lemma data_lookup_meta a : data_block v sb a → (<[Z.to_nat x := d]> v) !! Z.to_nat a = v !! Z.to_nat a.
Proof. intros [Ha _]. destruct Hx as [Hx2 _]. by rewrite list_lookup_insert_ne by lia. Qed.

Lemma fblk_meta bn : fblk (<[Z.to_nat x := d]> v) i bn = fblk v i bn.
Proof.
  unfold fblk. destruct (decide _); [done|]. destruct (Z.eqb_spec (naddr i 12) 0) as [|Hn]; [done|].
  by rewrite data_lookup_meta by (by apply Hf).
Qed.

Lemma file_ok_meta : file_ok (<[Z.to_nat x := d]> v) sb i.
Proof.
  assert (∀ y, data_block (<[Z.to_nat x:=d]> v) sb y ↔ data_block v sb y) as Hdb
    by (intros y; by apply data_block_plain).
  destruct Hf as [? ? ? HD HJ HN ? HF]. split; try done.
  - intros Hn. apply Hdb. auto.
  - intros bn Hbn. rewrite fblk_meta. intros. apply Hdb. by apply HD.
  - intros b1 b2 H1 H2. rewrite !fblk_meta. by apply HJ.
  - intros bn Hbn. rewrite fblk_meta. by apply HN.
  - intros bn Hbn. rewrite fblk_meta. by apply HF.
Qed.

Lemma fbyte_meta o :
  (o / 512 < 140)%nat → fblk v i (o / 512) ≠ 0 → fbyte (<[Z.to_nat x := d]> v) i o = fbyte v i o.
Proof.
  intros Ho Hnz. unfold fbyte. rewrite fblk_meta.
  by rewrite data_lookup_meta by (by apply (fo_data _ _ _ Hf)).
Qed.

Lemma fdata_meta : fdata (<[Z.to_nat x := d]> v) i = fdata v i.
Proof.
  pose proof (fo_size _ _ _ Hf) as Hs. change (MAXFILE * BSIZE) with 71680 in Hs.
  unfold fdata. apply list_fmap_ext. intros k o Hk. apply lookup_seq in Hk as [-> Hk].
  assert ((0 + k) / 512 < 140)%nat by (apply Nat.Div0.div_lt_upper_bound; lia).
  apply fbyte_meta; [done|]. apply (fo_full _ _ _ Hf); [done|].
  pose proof (Nat.Div0.mul_div_le (0 + k) 512). lia.
Qed.
End meta_store.

Section write_step.
Context (sb : superblock) (v0 : list block) (i0 : inode) (v : list block) (i : inode).
Context (off tot m : nat) (src : list Z) (W : written sb v0 i0 v i off tot src).
Context (v1 : list block) (i1 : inode) (a : Z).
Let cur : nat := (off + tot)%nat.
Context (G : grows sb v i v1 i1 (cur / 512) a).
Context (Hm : (0 < m)%nat) (Hblk : (cur mod 512 + m ≤ 512)%nat) (Hcur : (cur / 512 < 140)%nat).
Context (Hsrc : (tot + m ≤ length src)%nat).
Context (Hbytes : Forall is_byte src).

Lemma ws_data : data_block v1 sb a ∧ a ≠ naddr i1 12.
Proof.
  pose proof (gr_file _ _ _ _ _ _ _ G) as Hf1. pose proof (gr_blk _ _ _ _ _ _ _ G) as Hb.
  pose proof (gr_pos _ _ _ _ _ _ _ G) as Hp.
  split; rewrite <- Hb; [apply (fo_data _ _ _ Hf1)|apply (fo_ind_ne _ _ _ Hf1)]; try done; by rewrite Hb.
Qed.

Lemma ws_size : i_size i1 = i_size i0.
Proof. rewrite (gr_fields _ _ _ _ _ _ _ G), (wr_fields _ _ _ _ _ _ _ _ W). done. Qed.

(** The file's blocks at other offsets are the same blocks, unchanged. *)
Lemma ws_other q :
  (q < 140)%nat → q ≠ (cur / 512)%nat → fblk v i q ≠ 0 →
  fblk v1 i1 q = fblk v i q ∧ v1 !! Z.to_nat (fblk v i q) = v !! Z.to_nat (fblk v i q) ∧ fblk v i q ≠ a.
Proof.
  intros Hq Hne Hnz. pose proof (wr_file _ _ _ _ _ _ _ _ W) as Hf.
  pose proof (wr_disk _ _ _ _ _ _ _ _ W) as Hok.
  pose proof (fo_data _ _ _ Hf q Hq Hnz) as Hdb. destruct (data_lookup sb v _ Hok Hdb) as [Hpos _].
  pose proof (gr_others _ _ _ _ _ _ _ G q Hq Hne) as Ho. split_and!; [done| |].
  - destruct (gr_frame _ _ _ _ _ _ _ G (Z.to_nat (fblk v i q))) as [Hk|[Hk|[Hk|[Hk _]]]]; [done|..];
      rewrite Z2Nat.id in Hk by done; exfalso.
    + by eapply data_not_bitmaps.
    + by eapply used_not_free.
    + by eapply (fo_ind_ne _ _ _ Hf q).
  - intros Heq. apply Hne. eapply (fo_inj _ _ _ (gr_file _ _ _ _ _ _ _ G)); try done.
    + by rewrite Ho.
    + by rewrite Ho, Heq, (gr_blk _ _ _ _ _ _ _ G).
Qed.

Context (d : block) (Hd : v1 !! Z.to_nat a = Some d).
Let nd : block := splice d (cur mod 512) (slice src tot m).
Let v2 : list block := <[Z.to_nat a := nd]> v1.

Lemma ws_old_alloc o :
  (o < Z.to_nat (i_size i0) ∨ off ≤ o < off + tot)%nat → (o / 512 < 140)%nat ∧ fblk v i (o / 512) ≠ 0.
Proof.
  pose proof (wr_file _ _ _ _ _ _ _ _ W) as Hf. pose proof (fo_size _ _ _ Hf) as Hs.
  assert (i_size i = i_size i0) as He by (by rewrite (wr_fields _ _ _ _ _ _ _ _ W)).
  change (MAXFILE * BSIZE) with 71680 in Hs.
  intros [Ho|Ho]; [|by apply (wr_alloc _ _ _ _ _ _ _ _ W)].
  assert (o / 512 < 140)%nat as Hlt by (apply Nat.Div0.div_lt_upper_bound; lia). split; [done|].
  apply (fo_full _ _ _ Hf); [done|]. pose proof (Nat.Div0.mul_div_le o 512). lia.
Qed.

Lemma ws_same_block o :
  (cur ≤ o < cur + m)%nat → (o / 512 = cur / 512 ∧ o mod 512 = cur mod 512 + (o - cur))%nat.
Proof.
  intros Ho. pose proof (Nat.div_mod_eq cur 512). split; symmetry.
  - apply (Nat.div_unique _ _ _ (cur mod 512 + (o - cur))); lia.
  - apply (Nat.mod_unique _ _ (cur / 512)); lia.
Qed.

Lemma ws_nd_wf : block_wf d → block_wf nd.
Proof.
  intros [Hl Hb]. assert (length (slice src tot m) = m) as Hsl by (apply length_slice; lia).
  split; [unfold nd; rewrite length_splice; lia|].
  apply Forall_splice; [done|by apply Forall_slice].
Qed.

Lemma ws_bytes o :
  (o < Z.to_nat (i_size i0) ∨ off ≤ o < off + (tot + m))%nat →
  fbyte v2 i1 o = if decide (off ≤ o < off + (tot + m))%nat then default 0 (src !! (o - off)%nat)
                  else fbyte v0 i0 o.
Proof.
  intros Ho. destruct ws_data as [Hda Hdn].
  pose proof (gr_disk _ _ _ _ _ _ _ G) as Hok1. pose proof (gr_file _ _ _ _ _ _ _ G) as Hf1.
  assert (block_wf d) as Hdw by (apply (Forall_lookup_1 _ _ _ _ (dk_wf _ _ Hok1) Hd)).
  assert (length d = 512%nat) as Hdl by apply Hdw.
  assert (length (slice src tot m) = m) as Hsl by (apply length_slice; lia).
  assert (∀ q, fblk v2 i1 q = fblk v1 i1 q) as Hfb
    by (intros q; apply (fblk_data v1 sb Hok1 i1 Hf1); done).
  unfold fbyte at 1. rewrite Hfb.
  destruct (decide (cur ≤ o < cur + m)%nat) as [Hin|Hout].
  - destruct (ws_same_block o Hin) as [Hq Hmod]. rewrite Hq, (gr_blk _ _ _ _ _ _ _ G).
    unfold v2. rewrite list_lookup_insert_eq by (by eapply lookup_lt_Some).
    unfold nd. rewrite Hmod, lookup_splice_in by lia.
    rewrite decide_True by lia. rewrite lookup_slice by lia. do 2 f_equal. lia.
  - assert (o < Z.to_nat (i_size i0) ∨ off ≤ o < off + tot)%nat as Ho' by lia.
    destruct (ws_old_alloc o Ho') as [Hq Hnz].
    transitivity (fbyte v i o).
    + destruct (decide (o / 512 = cur / 512)%nat) as [He|Hne].
      * rewrite He in *. destruct (gr_old _ _ _ _ _ _ _ G Hnz) as [Hv1 Hi1].
        rewrite (gr_blk _ _ _ _ _ _ _ G). unfold v2.
        rewrite list_lookup_insert_eq by (by eapply lookup_lt_Some).
        unfold nd. rewrite lookup_splice_out.
        -- unfold fbyte. rewrite He. rewrite <- Hi1, <- Hv1, (gr_blk _ _ _ _ _ _ _ G), Hd. done.
        -- lia.
        -- rewrite Hsl. intros Hc. apply Hout. pose proof (Nat.div_mod_eq cur 512).
           pose proof (Nat.div_mod_eq o 512). lia.
      * destruct (ws_other (o / 512) Hq Hne Hnz) as (H1 & H2 & H3). rewrite H1. unfold v2.
        pose proof (wr_disk _ _ _ _ _ _ _ _ W) as Hok. pose proof (wr_file _ _ _ _ _ _ _ _ W) as Hf.
        destruct (data_lookup sb v _ Hok (fo_data _ _ _ Hf _ Hq Hnz)) as [Hp _].
        destruct (data_lookup sb v1 _ Hok1 Hda) as [Hp1 _].
        rewrite list_lookup_insert_ne by lia. by rewrite H2.
    + rewrite (wr_bytes _ _ _ _ _ _ _ _ W o Ho').
      destruct (decide (off ≤ o < off + tot)%nat), (decide (off ≤ o < off + (tot + m))%nat); done || lia.
Qed.

Lemma ws_frame k :
  v2 !! k = v0 !! k ∨ Z.of_nat k ∈ bitmaps sb ∨ Z.of_nat k ∈ free_set v0 sb ∨ owned v0 i0 (Z.of_nat k).
Proof.
  pose proof (wr_free _ _ _ _ _ _ _ _ W) as Hfr. destruct ws_data as [Hda _].
  pose proof (gr_disk _ _ _ _ _ _ _ G) as Hok1. destruct (data_lookup sb v1 _ Hok1 Hda) as [Hp1 _].
  destruct (decide (k = Z.to_nat a)) as [->|Hk].
  - rewrite Z2Nat.id by done. right. right.
    destruct (decide (fblk v i (cur / 512) = 0)) as [Hz|Hnz].
    + destruct (gr_new _ _ _ _ _ _ _ G Hz) as [_ ?]. left. by apply Hfr.
    + destruct (gr_old _ _ _ _ _ _ _ G Hnz) as [Hv1 Hi1].
      pose proof (gr_blk _ _ _ _ _ _ _ G) as Hb. rewrite Hv1, Hi1 in Hb.
      destruct (wr_new _ _ _ _ _ _ _ _ W _ Hcur Hnz) as [H0|H0]; [|left; by rewrite <- Hb].
      right. right. exists (cur / 512)%nat. split_and!; [done|done|].
      by rewrite <- Hb, (wr_keep _ _ _ _ _ _ _ _ W) by done.
  - unfold v2. rewrite list_lookup_insert_ne by done.
    destruct (gr_frame _ _ _ _ _ _ _ G k) as [->|[?|[?|[Hk' Hn]]]]; auto.
    + apply (wr_frame _ _ _ _ _ _ _ _ W).
    + right. right. rewrite Hk'. destruct (wr_ind _ _ _ _ _ _ _ _ W Hn) as [He|He]; [|by left].
      right. left. split; congruence.
Qed.

Lemma ws_written : written sb v0 i0 v2 i1 off (tot + m) src.
Proof.
  destruct ws_data as [Hda Hdn]. pose proof Hda as [Har _].
  pose proof (gr_disk _ _ _ _ _ _ _ G) as Hok1. pose proof (gr_file _ _ _ _ _ _ _ G) as Hf1.
  assert (block_wf nd) as Hnd by (apply ws_nd_wf, (Forall_lookup_1 _ _ _ _ (dk_wf _ _ Hok1) Hd)).
  assert (∀ q, fblk v2 i1 q = fblk v1 i1 q) as Hfb
    by (intros q; apply (fblk_data v1 sb Hok1 i1 Hf1); done).
  pose proof (wr_free _ _ _ _ _ _ _ _ W) as Hfr.
  split.
  - by apply disk_ok_data; [done|lia|].
  - by apply file_ok_data.
  - unfold v2. rewrite length_insert, (gr_len _ _ _ _ _ _ _ G). apply (wr_len _ _ _ _ _ _ _ _ W).
  - rewrite (gr_fields _ _ _ _ _ _ _ G), (wr_fields _ _ _ _ _ _ _ _ W). done.
  - intros bn Hbn Hnz. rewrite Hfb. pose proof (wr_keep _ _ _ _ _ _ _ _ W bn Hbn Hnz) as Hk.
    destruct (decide (bn = cur / 512)%nat) as [->|Hne].
    + destruct (gr_old _ _ _ _ _ _ _ G) as [-> ->]; [by rewrite Hk|done].
    + by rewrite (gr_others _ _ _ _ _ _ _ G).
  - intros bn Hbn. rewrite Hfb. destruct (decide (bn = cur / 512)%nat) as [->|Hne].
    + intros _. destruct (decide (fblk v i (cur / 512) = 0)) as [Hz|Hnz].
      * right. rewrite (gr_blk _ _ _ _ _ _ _ G). apply Hfr, (gr_new _ _ _ _ _ _ _ G Hz).
      * destruct (gr_old _ _ _ _ _ _ _ G Hnz) as [-> ->]. by apply (wr_new _ _ _ _ _ _ _ _ W).
    + rewrite (gr_others _ _ _ _ _ _ _ G) by done. by apply (wr_new _ _ _ _ _ _ _ _ W).
  - intros Hn. destruct (decide (naddr i 12 = 0)) as [Hz|Hnz].
    + destruct (gr_indn _ _ _ _ _ _ _ G Hz) as [?|?]; [done|]. right. by apply Hfr.
    + rewrite (gr_ind _ _ _ _ _ _ _ G Hnz). by apply (wr_ind _ _ _ _ _ _ _ _ W).
  - intros o Ho. rewrite Hfb. destruct (decide (cur ≤ o < cur + m)%nat) as [Hin|Hout].
    + destruct (ws_same_block o Hin) as [-> _]. split; [done|].
      rewrite (gr_blk _ _ _ _ _ _ _ G). apply G.
    + destruct (ws_old_alloc o) as [Hq Hnz]; [lia|]. split; [done|].
      destruct (decide (o / 512 = cur / 512)%nat) as [->|Hne].
      * rewrite (gr_blk _ _ _ _ _ _ _ G). apply G.
      * by rewrite (gr_others _ _ _ _ _ _ _ G).
  - exact ws_bytes.
  - exact ws_frame.
  - unfold v2. rewrite free_set_data by (done || lia). etrans; [apply G|done].
Qed.
End write_step.

(** ** The loop of writei *)
(** The number of blocks a range of bytes meets. *)
Definition nblk (off rem : nat) : nat :=
  if decide (rem = 0)%nat then 0%nat else ((off + rem - 1) / 512 - off / 512 + 1)%nat.

Lemma nblk_step off rem m :
  (0 < rem)%nat → m = Nat.min rem (512 - off mod 512) → nblk off rem = S (nblk (off + m) (rem - m)).
Proof.
  intros Hr ->. unfold nblk. rewrite decide_False by lia.
  pose proof (Nat.div_mod_eq off 512) as Ho. pose proof (Nat.mod_upper_bound off 512 ltac:(lia)).
  destruct (decide (rem ≤ 512 - off mod 512)%nat) as [Hle|Hgt].
  - rewrite Nat.min_l, decide_True by lia.
    assert ((off + rem - 1) / 512 = off / 512)%nat as ->; [|lia].
    symmetry. apply (Nat.div_unique _ _ _ (off mod 512 + rem - 1)); lia.
  - rewrite Nat.min_r, decide_False by lia.
    replace (off + (512 - off mod 512))%nat with (512 * (off / 512 + 1))%nat by lia.
    rewrite (Nat.mul_comm 512), Nat.div_mul by lia.
    replace ((off / 512 + 1) * 512 + (rem - (512 - off mod 512)) - 1)%nat with (off + rem - 1)%nat by lia.
    assert (off / 512 + 1 ≤ (off + rem - 1) / 512)%nat; [|lia].
    apply Nat.div_le_lower_bound; lia.
Qed.

Section writei.
Context {BS : BlockStore} (sb : superblock) (devsw : devsw_t (fstate BS)).

Lemma size_psecs_mu P i : (size P ≤ mu sb P i)%nat.
Proof. unfold mu. etrans; [|apply Nat.le_add_r]. apply subseteq_size. clear. set_solver. Qed.

Lemma mu_psecs P P' i : P ⊆ P' → (mu sb P i ≤ mu sb P' i)%nat.
Proof.
  intros H. unfold mu. apply Nat.add_le_mono_r, subseteq_size. revert H. clear. set_solver.
Qed.

(** bmap, then a store into the block, as in the loop body of writei. *)
Lemma wp_write_block {A} s ip i (bn o : nat) (w : list Z) (k : M (fstate BS) A) Q :
  fs_pre sb s ip i → (bn < 140)%nat → (o + length w ≤ 512)%nat → Forall is_byte w →
  (indz i < size (free_set (vw (f_store s)) sb))%nat →
  Z.of_nat (mu sb (psecs (f_store s)) i) + 1 < t_cap (bs_abs (f_store s)) →
  (2 + mu sb (psecs (f_store s)) i < NBUF)%nat →
  (∀ a d s' v1 i1 P', grows sb (vw (f_store s)) i v1 i1 bn a → v1 !! Z.to_nat a = Some d →
    fstep s s' ip i1 (<[Z.to_nat a := splice d o w]> v1) P' →
    (mu sb P' i1 ≤ mu sb (psecs (f_store s)) i + 1)%nat →
    (size (free_set (vw (f_store s)) sb) + indz i1 ≤ size (free_set v1 sb) + indz i + 1)%nat →
    wp k Q s') →
  wp (addr <- bmap ip (Z.of_nat bn) ;; i <- geti ip ;; bp <- sto (bs_bread (i_dev i) addr) ;;
      d <- sto (bs_bdata bp) ;; sto (bs_bset bp (splice d o w)) ;;; sto (bs_log_write bp) ;;;
      sto (bs_brelse bp) ;;; k) Q s.
Proof.
  intros Hp Hbn Ho Hw Hfree Hcap Hroom HQ. pose proof Hp as [Hwf Hok Hact Hheld Hip Hf].
  wstep1. apply (wp_bmap sb s ip i); [done..|].
  intros a s1 v1 i1 P1 G [T1 Hic] Hmu Hs. destruct s1 as [b1 c1]. cbn [f_store f_icache] in *.
  subst c1. pose proof T1 as [W1 V1 H1 S1 _ A1 C1 _].
  pose proof (gr_disk _ _ _ _ _ _ _ G) as Hok1. pose proof (gr_file _ _ _ _ _ _ _ G) as Hf1.
  pose proof (gr_blk _ _ _ _ _ _ _ G) as Hb. pose proof (gr_pos _ _ _ _ _ _ _ G) as Hpos.
  pose proof (grows_data _ _ _ _ _ _ _ G Hbn) as Hda.
  destruct (data_lookup sb v1 a Hok1 Hda) as [Ha0 [d Hd]].
  pose proof (size_psecs_mu ({[a]} ∪ P1) i1) as Hsz.
  assert (size P1 ≤ size ({[a]} ∪ P1))%nat as Hsz1 by (apply subseteq_size; clear; set_solver).
  wstep1. eapply wp_geti; [apply list_lookup_insert_eq; by eapply lookup_lt_Some|].
  rewrite (fo_dev _ _ _ Hf1).
  wstep1. apply wp_sto, wp_bread; cbn [f_store]; [done| |by apply fresh_empty; rewrite H1| |].
  { apply inrange_lookup. rewrite V1. split; [done|eauto]. }
  { rewrite H1, Hheld, map_size_empty, S1. lia. }
  intros l b2 _ _ T2. pose proof T2 as [W2 V2 H2 S2 _ A2 C2 _]. rewrite H1, Hheld, insert_empty in H2.
  assert (hd b2 !! l = Some a) as Hl by (by rewrite H2, lookup_singleton_eq).
  wstep1. apply wp_sto, (wp_bdata _ _ a d); cbn [f_store set_store]; [done..|by rewrite V2, V1|].
  assert (block_wf d) as Hdw by (apply (Forall_lookup_1 _ _ _ _ (dk_wf _ _ Hok1) Hd)).
  apply (wp_sto_put _ _ a); cbn [f_store set_store]; [done..| | | | | |].
  - destruct Hdw as [Hl' Hb']. split; [rewrite length_splice; lia|by apply Forall_splice].
  - apply inrange_lookup. rewrite V2, V1. split; [done|eauto].
  - by rewrite A2, A1.
  - rewrite S2, C2, S1, C1. lia.
  - rewrite H2, S2, S1, map_size_singleton. lia.
  - intros b3 T3. apply (HQ a d _ v1 i1 ({[a]} ∪ P1)); try done.
    split; [|done]. cbn [f_store set_store].
    pose proof (tstep_trans _ _ _ _ _ _ _ _ _ (tstep_trans _ _ _ _ _ _ _ _ _ T1 T2) T3) as T.
    rewrite V2, V1, H2, S2, S1, delete_singleton_eq in T. rewrite Hheld. exact T.
Qed.

Lemma wp_writei_loop fuel s ip src v0 i0 i (off tot n : nat) Q :
  fs_pre sb s ip i → written sb v0 i0 (vw (f_store s)) i off tot src →
  (tot ≤ n ≤ length src)%nat → Forall is_byte src → Z.of_nat (off + n) ≤ 71680 → (n - tot < fuel)%nat →
  (nblk (off + tot) (n - tot) + indz i ≤ size (free_set (vw (f_store s)) sb))%nat →
  Z.of_nat (mu sb (psecs (f_store s)) i + nblk (off + tot) (n - tot)) < t_cap (bs_abs (f_store s)) →
  (mu sb (psecs (f_store s)) i + nblk (off + tot) (n - tot) + 1 < NBUF)%nat →
  (∀ s' i' P', fs_pre sb s' ip i' → written sb v0 i0 (vw (f_store s')) i' off n src →
    fstep s s' ip i' (vw (f_store s')) P' →
    (mu sb P' i' ≤ mu sb (psecs (f_store s)) i + nblk (off + tot) (n - tot))%nat →
    (size (free_set (vw (f_store s)) sb) + indz i'
     ≤ size (free_set (vw (f_store s')) sb) + indz i + nblk (off + tot) (n - tot))%nat →
    Q (Z.of_nat (off + n)) s') →
  wp (writei_loop fuel ip src (Z.of_nat (off + tot)) (Z.of_nat tot) (Z.of_nat n)) Q s.
Proof.
  revert s i tot Q. induction fuel as [|fuel IH];
    intros s i tot Q Hp HW Ht Hby Hmax Hfuel Hfree Hcap Hroom HQ; [lia|].
  cbn [writei_loop]. change BSIZE with 512. destruct (Z.ltb_spec (Z.of_nat tot) (Z.of_nat n)) as [Hlt|Hge].
  - set (cur := (off + tot)%nat) in *.
    pose proof (Nat.mod_upper_bound cur 512 ltac:(lia)) as Hmod.
    set (m := Nat.min (n - tot) (512 - cur mod 512)).
    assert (0 < m ∧ m ≤ n - tot ∧ cur mod 512 + m ≤ 512)%nat as (Hm0 & Hm1 & Hm2) by (unfold m; lia).
    assert (tot + m ≤ length src)%nat as Hm3 by lia.
    assert (Z.min (Z.of_nat n - Z.of_nat tot) (512 - Z.of_nat cur mod 512) = Z.of_nat m) as ->.
    { unfold m. rewrite Nat2Z.inj_min, !Nat2Z.inj_sub, Nat2Z.inj_mod by lia. done. }
    replace (Z.to_nat (Z.of_nat cur mod 512)) with (cur mod 512)%nat
      by (rewrite Z2Nat.inj_mod, Nat2Z.id by lia; done).
    replace (Z.of_nat cur / 512) with (Z.of_nat (cur / 512)) by (by rewrite Nat2Z.inj_div).
    rewrite !Nat2Z.id, <- !Nat2Z.inj_add.
    rewrite (nblk_step cur (n - tot) m) in * by (done || lia).
    assert (length (slice src tot m) = m) as Hsl by (apply length_slice; lia).
    assert (cur / 512 < 140)%nat as Hbn by (apply Nat.Div0.div_lt_upper_bound; lia).
    cbv zeta. apply (wp_write_block s ip i); [done|done|rewrite Hsl; lia|by apply Forall_slice|lia|lia|lia|].
    intros a d s1 v1 i1 P1 G Hd [T1 Hic] Hmu Hs.
    pose proof (ws_written sb v0 i0 _ i off tot m src HW v1 i1 a G Hm0 Hm2 Hbn Hm3 Hby d Hd) as HW1.
    destruct s1 as [b1 c1]. cbn [f_store f_icache] in *. subst c1.
    pose proof T1 as [W1 V1 H1 S1 _ A1 C1 _]. pose proof Hp as [Hwf Hok Hact Hheld Hip Hf].
    fold cur in HW1. rewrite <- V1 in HW1.
    assert (fs_pre sb (mkF b1 (<[ip:=i1]> (f_icache s))) ip i1) as Hp1.
    { split; cbn [f_store f_icache]; try done; [apply HW1|by rewrite A1|by rewrite H1| |apply HW1].
      apply list_lookup_insert_eq. by eapply lookup_lt_Some. }
    assert (free_set (vw b1) sb = free_set v1 sb) as Hfs.
    { rewrite V1. apply free_set_data; [apply G|].
      destruct (grows_data _ _ _ _ _ _ _ G Hbn) as [? _]. lia. }
    replace (cur + m)%nat with (off + (tot + m))%nat by lia.
    apply (IH _ i1); cbn [f_store f_icache]; rewrite ?S1, ?C1, ?Hfs; try done; try lia.
    all: replace (off + (tot + m))%nat with (cur + m)%nat by lia.
    all: replace (n - (tot + m))%nat with (n - tot - m)%nat by lia; try lia.
    intros s2 i2 P2 Hp2 HW2 [T2 Hic2] Hmu2 Hs2. cbn [f_store f_icache] in *.
    replace (off + (tot + m))%nat with (cur + m)%nat in Hs2 by lia.
    replace (n - (tot + m))%nat with (n - tot - m)%nat in Hs2 by lia.
    apply (HQ s2 i2 P2); [done..| |lia|lia]. split; [|rewrite Hic2; by rewrite list_insert_insert_eq].
    rewrite H1 in T2. by eapply tstep_trans.
  - wstep1. assert (tot = n) as -> by lia. replace (n - n)%nat with 0%nat in * by lia.
    apply (HQ s i (psecs (f_store s))); [done..| | |].
    + split; [|symmetry; apply list_insert_id; apply Hp]. apply tstep_refl, Hp.
    + unfold nblk. simpl. lia.
    + lia.
Qed.

(** ** iupdate *)
Definition iupdate_view (v : list block) (i : inode) : list block :=
  alter (λ d, put_dinode d (Z.to_nat (i_inum i mod IPB)) (i_dinode i)) (Z.to_nat (IBLOCK (i_inum i))) v.

Lemma ipb_mod x : (Z.to_nat (x mod IPB) < 8)%nat.
Proof. assert (0 ≤ x mod IPB < IPB) by (by apply Z.mod_pos_bound). change IPB with 8 in *. lia. Qed.

Lemma wp_iupdate s ip i Q :
  fs_pre sb s ip i → 0 ≤ i_inum i < sb_ninodes sb →
  Z.of_nat (size (psecs (f_store s))) < t_cap (bs_abs (f_store s)) →
  (1 + size (psecs (f_store s)) < NBUF)%nat →
  (∀ b', tstep (f_store s) b' (iupdate_view (vw (f_store s)) i) (hd (f_store s))
      ({[IBLOCK (i_inum i)]} ∪ psecs (f_store s)) →
    fs_pre sb (set_store b' s) ip i → fdata (vw b') i = fdata (vw (f_store s)) i →
    free_set (vw b') sb = free_set (vw (f_store s)) sb → Q tt (set_store b' s)) →
  wp (iupdate ip) Q s.
Proof.
  intros [Hwf Hok Hact Hheld Hip Hf] Hin Hcap Hroom HQ. destruct s as [b c]. cbn [f_store f_icache] in *.
  destruct (iblock_range _ sb _ Hok Hin) as [Hir Hpl]. pose proof (dk_lo _ _ Hok) as Hlo.
  destruct (lookup_lt_is_Some_2 (vw b) (Z.to_nat (IBLOCK (i_inum i)))) as [d Hd]; [lia|].
  pose proof (ipb_mod (i_inum i)) as Hk. pose proof (view_block_wf _ _ _ Hwf Hd) as Hdw.
  unfold iupdate. wstep1. eapply wp_geti; [done|]. rewrite (fo_dev _ _ _ Hf).
  wstep1. apply wp_sto, wp_bread; cbn [f_store]; [done|apply inrange_lookup; split; [lia|eauto]|
    by apply fresh_empty|rewrite Hheld, map_size_empty; lia|].
  intros l b1 _ _ T1. pose proof T1 as [W1 V1 H1 S1 _ A1 C1 _]. rewrite Hheld, insert_empty in H1.
  assert (hd b1 !! l = Some (IBLOCK (i_inum i))) as Hl by (by rewrite H1, lookup_singleton_eq).
  wstep1. apply wp_sto, (wp_bdata _ _ (IBLOCK (i_inum i)) d); cbn [f_store set_store]; [done..|by rewrite V1|].
  pose proof (put_dinode_wf d _ (i_dinode i) Hdw Hk (fo_addrs _ _ _ Hf)) as Hnw.
  apply (wp_sto_put_end _ _ (IBLOCK (i_inum i))); cbn [f_store set_store]; [done..| | | | |].
  - apply inrange_lookup. rewrite V1. split; [lia|eauto].
  - by rewrite A1.
  - by rewrite S1, C1.
  - rewrite H1, S1, map_size_singleton. lia.
  - intros b2 T2. pose proof (tstep_trans _ _ _ _ _ _ _ _ _ T1 T2) as T.
    rewrite V1, H1, S1, delete_singleton_eq in T. rewrite Hheld in HQ.
    assert (iupdate_view (vw b) i = <[Z.to_nat (IBLOCK (i_inum i)) :=
      put_dinode d (Z.to_nat (i_inum i mod IPB)) (i_dinode i)]> (vw b)) as Hv
      by (unfold iupdate_view; by rewrite (alter_insert_block _ _ d)).
    pose proof T as [W2 V2 H2 S2 _ A2 C2 _]. unfold set_store. cbn [f_store f_icache].
    apply HQ; [by rewrite Hv| | |].
    + split; cbn [f_store f_icache set_store]; rewrite ?V2, ?H2, ?A2; try done.
      * by apply disk_ok_plain.
      * apply file_ok_meta; try done. lia.
    + rewrite V2. apply (fdata_meta _ sb); try done. lia.
    + rewrite V2. by apply free_set_plain.
Qed.

(** ** writei *)
Lemma written_data v0 i0 v i (off n : nat) src :
  written sb v0 i0 v i off n src → Z.of_nat off ≤ i_size i0 → (n ≤ length src)%nat → 0 ≤ i_size i0 →
  fdata v (i_set_size (Z.max (i_size i0) (Z.of_nat (off + n))) i)
  = take off (fdata v0 i0) ++ take n src ++ drop (off + n) (fdata v0 i0).
Proof.
  intros W Ho Hn Hs. apply list_eq. intros o.
  pose proof (length_fdata v0 i0) as Hl0.
  set (i' := i_set_size _ i). assert (fbyte v i' = fbyte v i) as Hfb by done.
  destruct (decide (o < Z.to_nat (i_size i'))%nat) as [Hlt|Hge].
  - rewrite lookup_fdata by done. rewrite Hfb. simpl in Hlt.
    rewrite (wr_bytes _ _ _ _ _ _ _ _ W) by lia.
    destruct (decide (off ≤ o < off + n)%nat) as [Hin|Hout].
    + rewrite lookup_app_r by (rewrite length_take; lia). rewrite length_take, Hl0.
      rewrite lookup_app_l by (rewrite length_take; lia). rewrite lookup_take_lt by lia.
      replace (o - off `min` Z.to_nat (i_size i0))%nat with (o - off)%nat by lia.
      destruct (lookup_lt_is_Some_2 src (o - off)) as [x Hx]; [lia|]. by rewrite Hx.
    + destruct (decide (o < off)%nat) as [Hlo|Hhi].
      * rewrite lookup_app_l by (rewrite length_take; lia).
        by rewrite lookup_take_lt, lookup_fdata by lia.
      * rewrite lookup_app_r by (rewrite length_take; lia).
        rewrite lookup_app_r by (rewrite !length_take; lia).
        rewrite lookup_drop, <- (lookup_fdata v0 i0) by lia. f_equal.
        rewrite !length_take, Hl0. lia.
  - rewrite !lookup_ge_None_2; [done|..].
    + rewrite !length_app, !length_take, length_drop, Hl0. simpl in Hge. lia.
    + rewrite length_fdata. lia.
Qed.

(** The file after its size has been brought up to date. *)
Lemma written_resize v0 i0 v i (off n : nat) src :
  written sb v0 i0 v i off n src → Z.of_nat (off + n) ≤ 71680 → Z.of_nat off ≤ i_size i0 →
  file_ok v sb (i_set_size (Z.max (i_size i0) (Z.of_nat (off + n))) i).
Proof.
  intros W Hmax Ho. pose proof (wr_file _ _ _ _ _ _ _ _ W) as [? ? ? HD HJ HN Hs HF].
  assert (i_size i = i_size i0) as He by (by rewrite (wr_fields _ _ _ _ _ _ _ _ W)).
  rewrite He in *. change (MAXFILE * BSIZE) with 71680 in Hs.
  split; try done; simpl; [change (MAXFILE * BSIZE) with 71680; lia|].
  intros bn Hbn Hlt. change (fblk v i bn ≠ 0).
  destruct (decide (512 * Z.of_nat bn < i_size i0)) as [|Hge]; [by apply HF|].
  assert (off ≤ 512 * bn < off + n)%nat as Hin by lia.
  destruct (wr_alloc _ _ _ _ _ _ _ _ W (512 * bn) Hin) as [_ Hnz].
  by rewrite Nat.mul_comm, Nat.div_mul in Hnz by lia.
Qed.

Lemma set_size_same i n : i_size i = n → i_set_size n i = i.
Proof. intros <-. by destruct i. Qed.

(** What a successful writei leaves: the state [s'] with inode [i']. *)
Record wrote (s s' : fstate BS) (ip : nat) (i i' : inode) (off n : nat) (src : list Z) : Prop := mkWrote {
  wo_pre : fs_pre sb s' ip i';
  wo_step : ∃ P', fstep s s' ip i' (vw (f_store s')) P';
  wo_secs : (size (psecs (f_store s')) ≤ mu sb (psecs (f_store s)) i + nblk off n + 1)%nat;
  wo_size : i_size i' = Z.max (i_size i) (Z.of_nat (off + n));
  wo_data : fdata (vw (f_store s')) i'
    = take off (fdata (vw (f_store s)) i) ++ take n src ++ drop (off + n) (fdata (vw (f_store s)) i);
  wo_fields : i' = i_set_size (i_size i') (set_addrs (i_addrs i') i);
  wo_frame : ∀ k, vw (f_store s') !! k = vw (f_store s) !! k ∨ Z.of_nat k ∈ bitmaps sb ∨
    Z.of_nat k ∈ free_set (vw (f_store s)) sb ∨ owned (vw (f_store s)) i (Z.of_nat k) ∨
    Z.of_nat k = IBLOCK (i_inum i);
  wo_space : (size (free_set (vw (f_store s)) sb) + indz i'
              ≤ size (free_set (vw (f_store s')) sb) + indz i + nblk off n)%nat }.

Lemma wp_writei s ip i src (off n : nat) Q :
  fs_pre sb s ip i → i_type i ≠ T_DEV → 0 ≤ i_inum i < sb_ninodes sb →
  Z.of_nat off ≤ i_size i → Z.of_nat (off + n) ≤ 71680 → (n ≤ length src)%nat → Forall is_byte src →
  (nblk off n + indz i ≤ size (free_set (vw (f_store s)) sb))%nat →
  Z.of_nat (mu sb (psecs (f_store s)) i + nblk off n) < t_cap (bs_abs (f_store s)) →
  (mu sb (psecs (f_store s)) i + nblk off n + 1 < NBUF)%nat →
  (∀ s' i', wrote s s' ip i i' off n src → Q (Z.of_nat n) s') →
  wp (writei devsw ip src (Z.of_nat off) (Z.of_nat n)) Q s.
Proof.
  intros Hp Hty Hin Ho Hmax Hn Hby Hfree Hcap Hroom HQ. pose proof Hp as [Hwf Hok Hact Hheld Hip Hf].
  pose proof (fo_size _ _ _ Hf) as Hs. change (MAXFILE * BSIZE) with 71680 in Hs.
  unfold writei. wstep1. eapply wp_geti; [done|]. rewrite (proj2 (Z.eqb_neq _ _) Hty).
  rewrite u32_small by lia. change (MAXFILE * BSIZE) with 71680.
  rewrite (proj2 (Z.ltb_ge (i_size i) _)), (proj2 (Z.ltb_ge (Z.of_nat off + Z.of_nat n) _)) by lia.
  simpl orb. cbv iota. rewrite (proj2 (Z.ltb_ge 71680 _)) by lia.
  pose proof (wp_writei_loop (S n) s ip src (vw (f_store s)) i i off 0 n) as Hloop.
  rewrite Nat.add_0_r, Nat.sub_0_r in Hloop. rewrite Nat2Z.id. wstep1.
  apply Hloop; try done; [by apply written_0|lia|lia|]. clear Hloop.
  intros s1 i1 P1 Hp1 W1 [T1 Hic1] Hmu Hspace. wstep1. eapply wp_geti; [apply Hp1|].
  assert (i_size i1 = i_size i) as He by (by rewrite (wr_fields _ _ _ _ _ _ _ _ W1)).
  assert (i_inum i1 = i_inum i) as Hinum by (by rewrite (wr_fields _ _ _ _ _ _ _ _ W1)).
  pose proof (written_data _ _ _ _ off n src W1 ltac:(lia) Hn ltac:(lia)) as Hdata.
  pose proof (written_resize _ _ _ _ off n src W1 ltac:(lia) ltac:(lia)) as Hf2.
  set (i2 := i_set_size (Z.max (i_size i) (Z.of_nat (off + n))) i1) in *.
  pose proof T1 as [_ _ H1 S1 _ _ C1 _].
  assert (mu sb P1 i1 = mu sb (psecs (f_store s1)) i1) as HP1 by (by rewrite S1).
  wstep1. rewrite s32_small by lia. rewrite He.
  destruct ((0 <? Z.of_nat n) && (i_size i <? Z.of_nat (off + n))) eqn:Hgrow.
  - apply andb_true_iff in Hgrow as [_ Hgt%Z.ltb_lt].
    wstep1. eapply wp_modi; [apply Hp1|].
    replace (i_set_size (Z.of_nat (off + n)) i1) with i2 by (unfold i2; f_equal; lia).
    assert (fs_pre sb (mkF (f_store s1) (<[ip:=i2]> (f_icache s1))) ip i2) as Hp2.
    { destruct Hp1 as [? ? ? ? Hip1 ?]. split; cbn [f_store f_icache]; try done.
      apply list_lookup_insert_eq. by eapply lookup_lt_Some. }
    pose proof (size_psecs_mu (psecs (f_store s1)) i1) as Hsz.
    apply (wp_iupdate _ ip i2); cbn [f_store f_icache]; [done|by simpl; rewrite Hinum|rewrite C1; lia|lia|].
    intros b2 T2 Hp3 Hd2 Hfr2. wstep1. apply (HQ _ i2). split; cbn [f_store f_icache set_store].
    + exact Hp3.
    + eexists. split; cbn [f_store f_icache set_store]; [|rewrite Hic1; by rewrite list_insert_insert_eq].
      pose proof (tstep_trans _ _ _ _ _ _ _ _ _ T1 T2) as T. rewrite H1 in T.
      by rewrite (ts_view _ _ _ _ _ T2).
    + rewrite (ts_secs _ _ _ _ _ T2). etrans; [apply size_union_singleton|]. lia.
    + done.
    + by rewrite Hd2.
    + unfold i2. simpl. rewrite (wr_fields _ _ _ _ _ _ _ _ W1). done.
    + intros k. destruct (decide (Z.of_nat k = IBLOCK (i_inum i))) as [|Hne]; [auto|].
      rewrite (ts_view _ _ _ _ _ T2). unfold iupdate_view.
      change (i_inum i2) with (i_inum i1). rewrite Hinum.
      destruct (iblock_range _ sb _ Hok Hin) as [Hir _]. rewrite list_lookup_alter_ne by lia.
      destruct (wr_frame _ _ _ _ _ _ _ _ W1 k) as [?|[?|[?|?]]]; auto.
    + rewrite Hfr2. done.
  - assert (Z.max (i_size i) (Z.of_nat (off + n)) = i_size i) as Hmx.
    { apply andb_false_iff in Hgrow as [Hz%Z.ltb_ge|Hz%Z.ltb_ge]; lia. }
    assert (i2 = i1) as Hi2 by (unfold i2; rewrite Hmx; by apply set_size_same).
    wstep1. wstep1. apply (HQ _ i1). split.
    + done.
    + eexists. by split.
    + pose proof (size_psecs_mu (psecs (f_store s1)) i1) as Hsz. lia.
    + by rewrite Hmx.
    + by rewrite <- Hi2.
    + rewrite He, (wr_fields _ _ _ _ _ _ _ _ W1). by destruct i.
    + intros k. destruct (wr_frame _ _ _ _ _ _ _ _ W1 k) as [?|[?|[?|?]]]; auto.
    + done.
Qed.

Lemma writei_error s ip i src off n :
  f_icache s !! ip = Some i → i_type i ≠ T_DEV →
  i_size i < off ∨ u32 (off + n) < off ∨ MAXFILE * BSIZE < u32 (off + n) →
  writei devsw ip src off n s = Ok ERR s.
Proof.
  intros Hip Hty He. unfold writei, bind, geti. rewrite Hip. simpl.
  rewrite (proj2 (Z.eqb_neq _ _) Hty).
  destruct (Z.ltb_spec (i_size i) off); [done|].
  destruct (Z.ltb_spec (u32 (off + n)) off); [done|].
  destruct (Z.ltb_spec (MAXFILE * BSIZE) (u32 (off + n))); [done|]. lia.
Qed.
End writei.
