(* ===== verification/FsExample.v ===== *)
(** * A small concrete file system

    A disk of 20 sectors: superblock, two inode blocks, one bitmap block, seven
    data blocks (5 to 11) and a log of eight sectors.  The states built on it show
    that the hypotheses of the file-system theorems can hold. *)
From stdpp Require Import base list gmap numbers option strings sets.
From Stdlib Require Import ZArith Lia.
From S2P Require Import Prelude Layout Bio BioSpec BlockStore Log LogSpec Commit Crash.
From S2P Require Import Fs FsTx FsBlocks FsInode FsBmap FsRead.
Open Scope Z_scope.

Definition ex_sb : superblock := mkSb 20 7 8 8.
Definition ex_sb_block : block := enc_superblock ex_sb ++ replicate 496 0.
(** Blocks 0 to 4 are in use. *)
Definition ex_bitmap : block := 31 :: replicate 511 0.
Definition ex_img : list block :=
  [zero_block; ex_sb_block; zero_block; zero_block; ex_bitmap] ++ replicate 15 zero_block.
Definition ex_view : list block := take 12 ex_img.
(** An empty file, inode 1, locked and in the cache. *)
Definition ex_inode : inode := mkInode 1 1 1 3 T_FILE 0 0 1 0 (replicate 13 0).

(** No device drivers. *)
Definition no_dev : devsw_t (fstate log_store) := mkDevsw (λ _, None) (λ _, None).

Lemma zero_block_wf : block_wf zero_block.
Proof. split; [done|by apply Forall_replicate]. Qed.

Lemma ex_img_wf : Forall block_wf ex_img.
Proof.
  pose proof zero_block_wf as H0.
  assert (block_wf ex_sb_block).
  { split; [done|]. unfold ex_sb_block, enc_superblock. rewrite !Forall_app.
    split_and!; try apply le_enc_bytes. by apply Forall_replicate. }
  assert (block_wf ex_bitmap).
  { split; [done|]. constructor; [done|by apply Forall_replicate]. }
  unfold ex_img. rewrite Forall_app. split; [|by apply Forall_replicate].
  rewrite !Forall_cons. auto 10.
Qed.

Lemma ex_log_image : log_image ex_img 12 8.
Proof.
  split; [apply ex_img_wf| |lia|lia|simpl; lia|done|].
  - exists ex_sb_block. split_and!; done.
  - exists zero_block. split_and!; [done|done|done|]. intros j Hj. exfalso.
    change (get_loghead_n zero_block) with 0 in Hj. lia.
Qed.

(** The state after boot, and in a transaction. *)
Lemma ex_boot :
  ∃ s : lstate, log_inv s ∧ labs s = mkT ex_view ex_view [] ∅ false 7.
Proof.
  destruct (wp_run _ _ _ (binit_spec ex_img ex_img_wf)) as ([] & b & _ & Hb & Hh & Hd & _ & Hk & Hp).
  destruct (wp_run _ _ _ (wp_initlog b ex_img 12 8 ex_log_image Hb Hh Hd Hk Hp))
    as ([] & s & _ & Hs & _ & Hl & _).
  exists s. split; [done|]. rewrite Hl. done.
Qed.

Lemma ex_begin :
  ∃ s : lstate, log_inv s ∧ labs s = mkT ex_view ex_view [] ∅ true 7.
Proof.
  destruct ex_boot as (s & Hs & Hl).
  destruct (wp_run _ _ _ (log_begin_ok s Hs ltac:(by rewrite Hl))) as ([] & s' & _ & Hs' & Hl' & _).
  exists s'. split; [done|]. rewrite Hl', Hl. done.
Qed.

Lemma ex_lo : lo ex_sb = 5.
Proof. reflexivity. Qed.

Lemma ex_used b : 0 ≤ b < 20 → blk_used ex_view ex_sb b = (b <? 5).
Proof.
  intros Hb. assert (b ∈ seqZ 0 20) as Hin by (apply elem_of_seqZ; lia).
  assert (Forall (λ b, blk_used ex_view ex_sb b = (b <? 5)) (seqZ 0 20)) as Hall
    by (apply (bool_decide_unpack _); vm_compute; exact I).
  rewrite Forall_forall in Hall. by apply Hall.
Qed.

Lemma ex_disk_ok : disk_ok ex_view ex_sb.
Proof.
  split.
  - apply Forall_take, ex_img_wf.
  - split; [exists ex_sb_block; done|done|done|]. intros b Hb.
    unfold bblock, BBLOCK. simpl in Hb. change (sb_ninodes ex_sb / IPB) with 1.
    rewrite Z.div_small by (change BPB with 4096; lia). simpl. lia.
  - done.
  - done.
  - rewrite ex_lo. intros b Hb. rewrite ex_used by lia. apply Z.ltb_lt. lia.
Qed.

Lemma ex_bitmaps_size : size (bitmaps ex_sb) = 1%nat.
Proof.
  assert (bitmaps ex_sb = {[4]}) as ->; [|apply size_singleton].
  apply set_eq. intros x. rewrite elem_of_bitmaps, elem_of_singleton. split.
  - intros (b & Hb & ->). simpl in Hb. unfold bblock, BBLOCK.
    change (sb_ninodes ex_sb / IPB) with 1. rewrite Z.div_small by (change BPB with 4096; lia). done.
  - intros ->. exists 0. done.
Qed.

Lemma ex_free_set : free_set ex_view ex_sb = list_to_set (seqZ 5 7).
Proof.
  apply set_eq. intros x. rewrite elem_of_free_set, elem_of_list_to_set, elem_of_seqZ, ex_lo.
  change (Z.of_nat (length ex_view)) with 12. split; [intros [? _]; lia|].
  intros Hx. split; [lia|]. rewrite ex_used by lia. apply Z.ltb_ge. lia.
Qed.

Lemma ex_free_size : size (free_set ex_view ex_sb) = 7%nat.
Proof. rewrite ex_free_set, size_list_to_set by apply NoDup_seqZ. done. Qed.

Lemma ex_fblk bn : fblk ex_view ex_inode bn = 0.
Proof.
  unfold fblk, naddr. change (i_addrs ex_inode) with (replicate 13 0). destruct (decide (bn < 12)%nat); [|done].
  by rewrite lookup_replicate_2 by lia.
Qed.

Lemma ex_file_ok : file_ok ex_view ex_sb ex_inode.
Proof.
  split; try done.
  - intros bn _ H. by rewrite ex_fblk in H.
  - intros bn bn' _ _ H. by rewrite ex_fblk in H.
  - intros H. by destruct H.
Qed.

Lemma ex_fs_pre :
  ∃ b : lstate, fs_pre (BS := log_store) ex_sb (mkF (BS := log_store) b [ex_inode]) 0 ex_inode ∧
    psecs (BS := log_store) b = ∅ ∧ t_cap (labs b) = 7 ∧ vw (BS := log_store) b = ex_view.
Proof.
  destruct ex_begin as (b & Hb & Hl). exists b.
  assert (vw (BS := log_store) b = ex_view) as Hv by (unfold vw; simpl; change (t_view (labs b) = ex_view); by rewrite Hl).
  split_and!; [|unfold psecs; simpl; change (list_to_set (t_pend (labs b)).*1 = (∅ : gset Z)); by rewrite Hl|by rewrite Hl|done].
  split; simpl; rewrite ?Hv; try done.
  - apply ex_disk_ok.
  - change (t_active (labs b) = true). by rewrite Hl.
  - change (t_held (labs b) = ∅). by rewrite Hl.
  - apply ex_file_ok.
Qed.
