(* ===== verification/FsTheorems.v ===== *)
(** * Properties of the file system

    The theorems about block allocation and file contents, for any block store
    that keeps the promises of [BlockStore], with witnesses on the store made of
    bio.c and log.c. *)
From stdpp Require Import base list gmap numbers option strings sets.
From Stdlib Require Import ZArith Lia.
From S2P Require Import Prelude Kstring Layout Bio BioSpec BlockStore Log LogSpec Commit Crash.
From S2P Require Import Fs FsTx FsBlocks FsInode FsBmap FsRead FsWrite FsExample.
Open Scope Z_scope.

Section files.
Context {BS : BlockStore} (sb : superblock) (devsw : devsw_t (fstate BS)).

(** Another file keeps its blocks and bytes when a block outside it changes. *)
Lemma other_file_kept v v' j :
  disk_ok v sb → disk_ok v' sb → file_ok v sb j → length v' = length v →
  (∀ a, data_block v sb a → owned v j a → v' !! Z.to_nat a = v !! Z.to_nat a) →
  fdata v' j = fdata v j ∧ ∀ bn, (bn < 140)%nat → fblk v' j bn = fblk v j bn.
Proof.
  intros Hok Hok' Hj Hlen Hsame.
  assert (∀ bn, (bn < 140)%nat → fblk v' j bn = fblk v j bn) as Hfb.
  { intros bn Hbn. unfold fblk. destruct (decide _); [done|].
    destruct (Z.eqb_spec (naddr j 12) 0) as [|Hn]; [done|].
    by rewrite Hsame by (by (apply Hj || left)). }
  split; [|done]. unfold fdata. apply list_fmap_ext. intros k o Hk.
  apply lookup_seq in Hk as [-> Hk]. pose proof (fo_size _ _ _ Hj) as Hs.
  change (MAXFILE * BSIZE) with 71680 in Hs.
  assert ((0 + k) / 512 < 140)%nat as Hq by (apply Nat.Div0.div_lt_upper_bound; lia).
  assert (fblk v j ((0 + k) / 512) ≠ 0) as Hnz.
  { apply (fo_full _ _ _ Hj); [done|]. pose proof (Nat.Div0.mul_div_le (0 + k) 512). lia. }
  unfold fbyte. rewrite Hfb by done. rewrite Hsame; [done|by apply (fo_data _ _ _ Hj)|].
  right. eauto.
Qed.

(** readi on a regular file returns the bytes from [off] on, as many as were
    asked for or as there are up to the end of the file; it returns -1 when
    [off] lies beyond the end or off + n overflows; the disk, the log and the
    inode cache are unchanged. *)
Theorem readi_correct s ip i off n :
  fs_ro sb s ip i → i_type i ≠ T_DEV → 0 ≤ off < 2 ^ 32 → 0 ≤ n < 2 ^ 32 →
  wp (readi devsw ip off n) (λ r s',
    f_icache s' = f_icache s ∧ same (f_store s) (f_store s') ∧
    if decide (off ≤ i_size i ∧ off + n < 2 ^ 32) then
      let m := Z.min n (i_size i - off) in
      r = (m, slice (fdata (vw (f_store s)) i) (Z.to_nat off) (Z.to_nat m))
    else r = (ERR, [])) s.
Proof.
  intros Hro Hty Ho Hn. pose proof Hro as [Hwf _ _ _ Hip _].
  destruct (decide (off ≤ i_size i ∧ off + n < 2 ^ 32)) as [[H1 H2]|Hbad].
  - apply (wp_readi sb devsw s ip i); [done|done|lia|lia|lia|]. intros b' Hb. split_and!; done.
  - unfold wp. rewrite (readi_error devsw s ip i); try done.
    + split_and!; try done. by apply tstep_refl.
    + destruct (decide (i_size i < off)); [by left|right]. unfold u32.
      assert (2 ^ 32 ≤ off + n) by lia.
      rewrite <- (Z_mod_plus_full (off + n) (-1) (2 ^ 32)), Z.mod_small; lia.
Qed.


(** what writei wrote, readi reads: a readi of the same range after a writei
    returns exactly the bytes written. *)
Theorem writei_readi s ip i src (off n : nat) :
  fs_pre sb s ip i → i_type i ≠ T_DEV → 0 ≤ i_inum i < sb_ninodes sb →
  Z.of_nat off ≤ i_size i → Z.of_nat (off + n) ≤ MAXFILE * BSIZE →
  n = length src → Forall is_byte src →
  (nblk off n + indz i ≤ size (free_set (vw (f_store s)) sb))%nat →
  Z.of_nat (mu sb (psecs (f_store s)) i + nblk off n) < t_cap (bs_abs (f_store s)) →
  (mu sb (psecs (f_store s)) i + nblk off n + 1 < NBUF)%nat →
  wp (writei devsw ip src (Z.of_nat off) (Z.of_nat n) ;;; readi devsw ip (Z.of_nat off) (Z.of_nat n))
     (λ r _, r = (Z.of_nat n, src)) s.
Proof.
  intros Hp Hty Hin Ho Hmax -> Hby Hfree Hcap Hroom. change (MAXFILE * BSIZE) with 71680 in Hmax.
  wstep1. apply (wp_writei sb devsw s ip i); try done. intros s' i' Hw.
  pose proof (wo_pre _ _ _ _ _ _ _ _ _ Hw) as [Hwf Hok Hact Hheld Hip Hf].
  pose proof (wo_size _ _ _ _ _ _ _ _ _ Hw) as Hsz. pose proof (wo_data _ _ _ _ _ _ _ _ _ Hw) as Hd.
  destruct (wo_step _ _ _ _ _ _ _ _ _ Hw) as (P' & [T _]).
  assert (i_type i' = i_type i) as Hty' by (by rewrite (wo_fields _ _ _ _ _ _ _ _ _ Hw)).
  apply (wp_readi sb devsw s' ip i'); [|by rewrite Hty'|rewrite Hsz; lia|lia|lia|].
  - split; try done. pose proof (wo_secs _ _ _ _ _ _ _ _ _ Hw). lia.
  - intros b' _. cbv zeta. rewrite Hsz, Z.min_l by lia. f_equal. rewrite !Nat2Z.id, Hd.
    rewrite firstn_all. unfold slice. pose proof (length_fdata (vw (f_store s)) i) as Hl.
    rewrite drop_app_length' by (rewrite length_take; lia).
    by rewrite take_app_length.
Qed.

(** files do not disturb each other: writing file [i] leaves the bytes of
    every other file [j], whose blocks are not blocks of [i], as they were. *)
Theorem writei_other_file s ip i src (off n : nat) j :
  fs_pre sb s ip i → i_type i ≠ T_DEV → 0 ≤ i_inum i < sb_ninodes sb →
  Z.of_nat off ≤ i_size i → Z.of_nat (off + n) ≤ MAXFILE * BSIZE →
  (n ≤ length src)%nat → Forall is_byte src →
  (nblk off n + indz i ≤ size (free_set (vw (f_store s)) sb))%nat →
  Z.of_nat (mu sb (psecs (f_store s)) i + nblk off n) < t_cap (bs_abs (f_store s)) →
  (mu sb (psecs (f_store s)) i + nblk off n + 1 < NBUF)%nat →
  file_ok (vw (f_store s)) sb j →
  (∀ a, owned (vw (f_store s)) i a → ¬ owned (vw (f_store s)) j a) →
  wp (writei devsw ip src (Z.of_nat off) (Z.of_nat n))
     (λ _ s', fdata (vw (f_store s')) j = fdata (vw (f_store s)) j) s.
Proof.
  intros Hp Hty Hin Ho Hmax Hn Hby Hfree Hcap Hroom Hj Hdis.
  apply (wp_writei sb devsw s ip i); try done. intros s' i' Hw.
  pose proof Hp as [_ Hok _ _ _ _]. pose proof (wo_pre _ _ _ _ _ _ _ _ _ Hw) as [_ Hok' _ _ _ _].
  destruct (iblock_range _ sb _ Hok Hin) as [Hir _].
  apply (other_file_kept (vw (f_store s))); try done.
  - destruct (wo_step _ _ _ _ _ _ _ _ _ Hw) as (P' & [T _]).
    destruct (bs_view_wf _ (fp_wf _ _ _ _ Hp)) as (_ & Hl & _).
    destruct (bs_view_wf _ (ts_wf _ _ _ _ _ T)) as (_ & Hl' & _).
    unfold vw. by rewrite <- Hl, <- Hl', (ts_home _ _ _ _ _ T).
  - intros a Ha Hown. destruct (data_lookup sb _ a Hok Ha) as [Hpos _].
    destruct (wo_frame _ _ _ _ _ _ _ _ _ Hw (Z.to_nat a)) as [Hk|[Hk|[Hk|[Hk|Hk]]]]; [done|..];
      rewrite Z2Nat.id in Hk by done; exfalso.
    + by apply (data_not_bitmaps (vw (f_store s)) sb a Hok Ha).
    + by apply (used_not_free (vw (f_store s)) sb a Ha).
    + by eapply Hdis.
    + destruct Ha as [Ha _]. lia.
Qed.
End files.

(** ** Witnesses on the concrete file system *)
Definition hi : list Z := [104; 105].

Lemma ex_mu : mu ex_sb ∅ ex_inode = 2%nat.
Proof.
  unfold mu. change (indset ex_inode) with (∅ : gset Z). change (indz ex_inode) with 1%nat.
  rewrite (left_id_L ∅ (∪)), (right_id_L ∅ (∪)), ex_bitmaps_size. done.
Qed.

Lemma hi_bytes : Forall is_byte hi.
Proof. repeat constructor; done. Qed.

(** Witness of readi_correct: reading the empty file returns nothing. *)
Lemma readi_correct_witness :
  ∃ (b b' : lstate), readi (BS := log_store) no_dev 0 0 10 (mkF (BS := log_store) b [ex_inode])
    = Ok (0, []) (mkF (BS := log_store) b' [ex_inode]).
Proof.
  destruct ex_fs_pre as (b & [Hwf Hok Hact Hheld Hip Hf] & HP & HC & HV). exists b.
  assert (fs_ro (BS := log_store) ex_sb (mkF (BS := log_store) b [ex_inode]) 0 ex_inode) as Hro.
  { split; try done. cbn [f_store] in *. rewrite HP, size_empty, NBUF_eq. lia. }
  destruct (wp_run _ _ _ (readi_correct ex_sb no_dev (mkF (BS := log_store) b [ex_inode]) 0 ex_inode 0 10
    Hro ltac:(done) ltac:(lia) ltac:(lia))) as (r & [b' c] & Hrun & Hc & _ & Hr).
  exists b'. rewrite Hrun. simpl in Hc. subst c. rewrite decide_True in Hr by done. by rewrite Hr.
Defined.

(** The numeric hypotheses of the writei theorems for two bytes at offset 0. *)
Lemma ex_write_room (b : lstate) :
  psecs (BS := log_store) b = ∅ → t_cap (labs b) = 7 → vw (BS := log_store) b = ex_view →
  (nblk 0 2 + indz ex_inode ≤ size (free_set (vw (BS := log_store) b) ex_sb))%nat ∧
  Z.of_nat (mu ex_sb (psecs (BS := log_store) b) ex_inode + nblk 0 2) < t_cap (labs b) ∧
  (mu ex_sb (psecs (BS := log_store) b) ex_inode + nblk 0 2 + 1 < NBUF)%nat.
Proof.
  intros -> -> ->. rewrite ex_mu, ex_free_size, NBUF_eq. change (nblk 0 2) with 1%nat.
  change (indz ex_inode) with 1%nat. lia.
Qed.


(** Witness of writei_readi. *)
Lemma writei_readi_witness :
  ∃ (b : lstate) s', (writei (BS := log_store) no_dev 0 hi 0 2 ;;; readi (BS := log_store) no_dev 0 0 2)
    (mkF (BS := log_store) b [ex_inode]) = Ok (2, hi) s'.
Proof.
  destruct ex_fs_pre as (b & Hp & HP & HC & HV). exists b.
  destruct (ex_write_room b HP HC HV) as (H1 & H2 & H3).
  destruct (wp_run _ _ _ (writei_readi ex_sb no_dev (mkF (BS := log_store) b [ex_inode]) 0 ex_inode hi 0 2
    Hp ltac:(done) ltac:(done) ltac:(done) ltac:(done) ltac:(done) hi_bytes H1 H2 H3))
    as (r & s' & Hrun & ->).
  exists s'. exact Hrun.
Defined.

(** Witness of writei_other_file: the empty file with inode 2. *)
Definition ex_inode2 : inode := mkInode 1 2 1 3 T_FILE 0 0 1 0 (replicate 13 0).

Lemma writei_other_file_witness :
  ∃ (b : lstate) r s', writei (BS := log_store) no_dev 0 hi 0 2 (mkF (BS := log_store) b [ex_inode])
    = Ok r s' ∧ fdata (vw (f_store s')) ex_inode2 = [].
Proof.
  destruct ex_fs_pre as (b & Hp & HP & HC & HV). exists b.
  destruct (ex_write_room b HP HC HV) as (H1 & H2 & H3).
  assert (file_ok (vw (BS := log_store) b) ex_sb ex_inode2) as Hj.
  { rewrite HV. destruct ex_file_ok. by split. }
  assert (∀ a, owned (vw (BS := log_store) b) ex_inode a → ¬ owned (vw (BS := log_store) b) ex_inode2 a) as Hd.
  { rewrite HV. intros a [[Hn _]|(bn & _ & Hn & _)] _; [by destruct Hn|by rewrite ex_fblk in Hn]. }
  destruct (wp_run _ _ _ (writei_other_file ex_sb no_dev (mkF (BS := log_store) b [ex_inode]) 0 ex_inode hi 0 2
    ex_inode2 Hp ltac:(done) ltac:(done) ltac:(done) ltac:(done) ltac:(simpl; lia) hi_bytes H1 H2 H3 Hj Hd))
    as (r & s' & Hrun & Hf).
  exists r, s'. split; [exact Hrun|done].
Defined.

(** ** The allocator *)
Section allocator.
Context {BS : BlockStore} (sb : superblock).

(** Balloc returns the first free block [b] of the bitmap, zeroed and marked
    in use; every other block's mark, and the contents of every block but [b]
    and its bitmap block, are as before. *)
Theorem balloc_correct (s : bst) b :
  alloc_ready sb s b →
  wp (balloc ROOTDEV) (λ r s', r = b ∧ hd s' = hd s ∧
    vw s' !! Z.to_nat b = Some (replicate 512 0) ∧
    (∀ b', 0 ≤ b' < sb_size sb → b ≠ bblock sb b' →
      blk_used (vw s') sb b' = (b =? b') || blk_used (vw s) sb b') ∧
    (∀ k, k ≠ Z.to_nat b → k ≠ Z.to_nat (bblock sb b) → vw s' !! k = vw s !! k)) s.
Proof.
  intros Hr. apply (wp_balloc sb s b); [done|]. intros s' [W V H _ _ _ _ _].
  pose proof Hr as [[Hwf Hg _ _ _] Hb _ _ Hin _ _ _ _].
  destruct (bs_view_wf s Hwf) as (Hall & _ & _). rewrite V. split_and!; try done.
  - apply alloc_view_new. exact Hin.
  - intros b' Hb' Hne. by apply blk_used_alloc.
  - intros k Hk1 Hk2. by apply alloc_view_other.
Qed.

(** Freeing the block just allocated restores the bitmap: after balloc and
    bfree of its result the disk is as before, but for the zeroed block. *)
Theorem balloc_bfree (s : bst) b :
  alloc_ready sb s b → plain sb b →
  Z.of_nat (size ({[b]} ∪ ({[bblock sb b]} ∪ psecs s))) < t_cap (bs_abs s) →
  (size (hd s) + 1 + size ({[b]} ∪ ({[bblock sb b]} ∪ psecs s)) < NBUF)%nat →
  wp (x <- balloc ROOTDEV ;; bfree ROOTDEV x) (λ _ s',
    vw s' = <[Z.to_nat b := replicate 512 0]> (vw s) ∧ hd s' = hd s) s.
Proof.
  intros Hr [Hpl2 Hplb] Hcap Hroom. pose proof Hr as [[Hwf Hg Hsb Hbm Ha] Hb Hf _ Hin Hfr Hmeta _ _].
  destruct (bs_view_wf s Hwf) as (Hall & _ & _).
  wstep1. apply (wp_balloc sb s b); [done|]. intros s1 T1. pose proof T1 as [W1 V1 H1 P1 _ A1 C1 _].
  pose proof (bblock_pos sb b (g_ninodes _ _ Hg) ltac:(lia)) as H3.
  assert (alloc_pre sb s1) as Hp1.
  { split; try done.
    - rewrite V1. destruct Hg as [(d & Hd & He) ? ? Hbl]. split; try done.
      + exists d. split; [|done]. rewrite alloc_view_other by lia. done.
      + by rewrite length_alloc_view.
    - intros i. unfold hd in H1. rewrite H1. apply Hsb.
    - intros b' Hb' i. unfold hd in H1. rewrite H1. by apply Hbm.
    - by rewrite A1. }
  apply (wp_bfree sb s1 b); try done.
  - rewrite V1, (blk_used_alloc _ _ Hg Hall), Z.eqb_refl by (done || by apply Hplb). done.
  - by rewrite P1, C1.
  - by rewrite P1, H1.
  - intros s2 [W2 V2 H2 _ _ _ _ _]. rewrite V2, H2, H1, V1. split; [|done].
    by apply free_alloc_view.
Qed.

(** The allocator's error branches: balloc panics when the bitmap has no free
    block, bfree panics on a block that is already free. *)
Theorem allocator_panics (s : bst) b :
  alloc_pre sb s → (size (hd s) + size (psecs s) < NBUF)%nat →
  ((∀ b', 0 ≤ b' < sb_size sb → blk_used (vw s) sb b' = true) →
    balloc ROOTDEV s = Panic "balloc: out of blocks") ∧
  (0 ≤ b < sb_size sb → blk_used (vw s) sb b = false →
    bfree ROOTDEV b s = Panic "freeing free block").
Proof. intros Hp Hroom. split; [by apply balloc_full|]. intros. by apply (bfree_free_panics sb). Qed.
End allocator.

Lemma ex_alloc_ready :
  ∃ b : lstate, alloc_ready (BS := log_store) ex_sb b 5 ∧ psecs (BS := log_store) b = ∅ ∧
    hd (BS := log_store) b = ∅ ∧ t_cap (labs b) = 7 ∧ vw (BS := log_store) b = ex_view.
Proof.
  destruct ex_fs_pre as (b & [Hwf Hok Hact Hheld Hip Hf] & HP & HC & HV). exists b.
  cbn [f_store] in *. split_and!; try done.
  assert (∀ a, t_fresh (@bs_abs log_store b) a) as Hfresh by (intros a; by apply fresh_empty).
  split; try done.
  - split; try done. apply Hok.
  - rewrite HV, ex_used by lia. done.
  - intros b' Hb'. rewrite HV, ex_used by lia. apply Z.ltb_lt. lia.
  - unfold t_inrange. change (t_view (@bs_abs log_store b)) with (vw (BS := log_store) b).
    rewrite HV. simpl. lia.
  - rewrite HP, (right_id_L ∅ (∪)), size_singleton. change (t_cap (@bs_abs log_store b)) with (t_cap (labs b)). lia.
  - rewrite HP, Hheld, (right_id_L ∅ (∪)), size_singleton, map_size_empty, NBUF_eq. lia.
Qed.

(** Witness of balloc_correct. *)
Lemma balloc_correct_witness :
  ∃ b b' : lstate, balloc (BS := log_store) ROOTDEV b = Ok 5 b' ∧
    vw (BS := log_store) b' !! 5%nat = Some (replicate 512 0).
Proof.
  destruct ex_alloc_ready as (b & Hr & _). exists b.
  destruct (wp_run _ _ _ (balloc_correct (BS := log_store) ex_sb b 5 Hr)) as (r & b' & Hrun & -> & _ & Hz & _).
  exists b'. split; [exact Hrun|exact Hz].
Defined.

(** Witness of balloc_bfree. *)
Lemma balloc_bfree_witness :
  ∃ b b' : lstate, (x <- balloc (BS := log_store) ROOTDEV ;; bfree (BS := log_store) ROOTDEV x) b = Ok tt b' ∧
    vw (BS := log_store) b' = vw (BS := log_store) b.
Proof.
  destruct ex_alloc_ready as (b & Hr & HP & HH & HC & HV). exists b.
  assert ((size ({[5%Z]} ∪ ({[bblock ex_sb 5%Z]} ∪ psecs (BS := log_store) b) : gset Z) ≤ 2)%nat) as Hs.
  { rewrite HP. etrans; [apply size_union_singleton|]. rewrite (right_id_L ∅ (∪)), size_singleton. lia. }
  destruct (wp_run _ _ _ (balloc_bfree (BS := log_store) ex_sb b 5 Hr
    ltac:(apply (plain_data ex_view); [apply ex_disk_ok|rewrite ex_lo; lia])
    ltac:(change (t_cap (@bs_abs log_store b)) with (t_cap (labs b)); lia)
    ltac:(rewrite HH, map_size_empty, NBUF_eq; lia))) as ([] & b' & Hrun & Hv & _).
  exists b'. split; [exact Hrun|]. rewrite Hv, HV. reflexivity.
Defined.

(** Witness of allocator_panics: block 5 is free. *)
Lemma allocator_panics_witness :
  ∃ b : lstate, bfree (BS := log_store) ROOTDEV 5 b = Panic "freeing free block".
Proof.
  destruct ex_alloc_ready as (b & Hr & HP & HH & HC & HV). exists b.
  apply (allocator_panics (BS := log_store) ex_sb b 5).
  - apply Hr.
  - rewrite HP, HH, map_size_empty, size_empty, NBUF_eq. lia.
  - done.
  - rewrite HV, ex_used by lia. done.
Defined.
