(* ===== verification/FsDir.v ===== *)
(** * Directories: iget, dirlookup, dirlink

    A directory file as a list of entries; dirlookup finds the first entry with
    a name, dirlink adds one that dirlookup then finds. *)
From stdpp Require Import base list gmap numbers option strings sets.
From Stdlib Require Import ZArith Lia.
From S2P Require Import Prelude Kstring Layout Bio BioSpec BlockStore Log LogSpec Commit Crash.
From S2P Require Import Fs FsTx FsBlocks FsInode FsBmap FsRead FsWrite FsExample.
Open Scope Z_scope.

(** ** Entries *)
Definition dir_entry (data : list Z) (k : nat) : dirent := dec_dirent (slice data (16 * k) 16).
Definition entries (data : list Z) : list dirent := dir_entry data <$> seq 0 (length data / 16).
(** The test of dirlookup: an entry in use with the name (up to DIRSIZ bytes). *)
Definition names (name : list Z) (de : dirent) : Prop :=
  de_inum de ≠ 0 ∧ namecmp name (de_name de) = 0.
#[export] Instance names_dec name de : Decision (names name de).
Proof. unfold names. apply _. Defined.

Lemma dec_enc_dirent de :
  is_u16 (de_inum de) → length (de_name de) = 14%nat → dec_dirent (enc_dirent de) = de.
Proof.
  destruct de as [n nm]. cbn [de_inum de_name]. intros Hn Hl.
  unfold dec_dirent, enc_dirent. cbn [de_inum de_name].
  assert (u16_at (le_enc 2 n ++ nm) 0 = n) as ->.
  { transitivity (le_dec (le_enc 2 n)); [done|]. rewrite le_dec_enc. apply Z.mod_small. exact Hn. }
  change (slice (le_enc 2 n ++ nm) 2 14) with (take 14 nm). by rewrite take_ge by lia.
Qed.

Lemma length_enc_dirent de : length (de_name de) = 14%nat → length (enc_dirent de) = 16%nat.
Proof. intros H. unfold enc_dirent. rewrite length_app, length_le_enc. lia. Qed.

Lemma namecmp_zero s t : namecmp s t = 0 ↔ take 14 (cstr s) = take 14 (cstr t).
Proof. apply strncmp_zero. Qed.

(** A name copied into a directory entry compares equal to itself. *)
Lemma namecmp_strncpy name : namecmp name (strncpy name 14) = 0.
Proof.
  apply namecmp_zero. rewrite strncpy_spec. pose proof (cstr_nonzero name) as Hnz.
  destruct (decide (14 ≤ length (cstr name))%nat) as [Hge|Hlt].
  - replace (14 - length (cstr name))%nat with 0%nat by lia. simpl replicate. rewrite app_nil_r.
    rewrite (cstr_id (take 14 (cstr name))) by (by apply Forall_take). by rewrite take_take.
  - rewrite (take_ge (cstr name) 14) by lia.
    destruct (14 - length (cstr name))%nat as [|n] eqn:E; [lia|]. simpl.
    rewrite cstr_app_zero by done. by rewrite take_ge by lia.
Qed.

(** ** iget *)
Definition cached_inode (dev inum : Z) (i : inode) : Prop :=
  0 < i_ref i ∧ i_dev i = dev ∧ i_inum i = inum.

Lemma iget_find_spec l dev inum k e :
  match iget_find l dev inum k e with
  | inl j => ∃ i, l !! (j - k)%nat = Some i ∧ (k ≤ j)%nat ∧ cached_inode dev inum i
  | inr r => Forall (λ i, ¬ cached_inode dev inum i) l ∧
    match e with
    | Some _ => r = e
    | None => match r with
              | Some j => ∃ i, l !! (j - k)%nat = Some i ∧ (k ≤ j)%nat ∧ i_ref i = 0
              | None => Forall (λ i, i_ref i ≠ 0) l
              end
    end
  end.
Proof.
  revert k e. induction l as [|i l IH]; intros k e; simpl.
  - split; [done|]. by destruct e.
  - destruct ((0 <? i_ref i) && (i_dev i =? dev) && (i_inum i =? inum)) eqn:Hm.
    + apply andb_true_iff in Hm as [[H1%Z.ltb_lt H2%Z.eqb_eq]%andb_true_iff H3%Z.eqb_eq].
      exists i. rewrite Nat.sub_diag. split_and!; done || lia.
    + assert (¬ cached_inode dev inum i) as Hn.
      { intros (H1%Z.ltb_lt & H2%Z.eqb_eq & H3%Z.eqb_eq). by rewrite H1, H2, H3 in Hm. }
      specialize (IH (S k) (match e with None => if i_ref i =? 0 then Some k else None | _ => e end)).
      destruct (iget_find l dev inum (S k) _) as [j|r].
      * destruct IH as (i' & Hi & Hj & Hc). exists i'.
        replace (j - k)%nat with (S (j - S k)) by lia. split_and!; done || lia.
      * destruct IH as [Hall Hr]. split; [by constructor|].
        destruct e as [e|]; [done|]. destruct (Z.eqb_spec (i_ref i) 0) as [H0|H0].
        -- rewrite Hr. exists i. rewrite Nat.sub_diag. split_and!; done || lia.
        -- destruct r as [j|]; [|by constructor]. destruct Hr as (i' & Hi & Hj & Hz). exists i'.
           replace (j - k)%nat with (S (j - S k)) by lia. split_and!; done || lia.
Qed.

(** ** dirlookup *)
Lemma lookup_entries data k : (k < length data / 16)%nat → entries data !! k = Some (dir_entry data k).
Proof. intros Hk. unfold entries. by rewrite list_lookup_fmap, lookup_seq_lt. Qed.

Lemma length_entries data : length (entries data) = (length data / 16)%nat.
Proof. unfold entries. by rewrite length_fmap, length_seq. Qed.

Section dirs.
Context {BS : BlockStore} (sb : superblock) (devsw : devsw_t (fstate BS)).

(** A directory: whole entries, none past the end. *)
Record dir_ok (s : fstate BS) (dp : nat) (i : inode) : Prop := mkDirOk {
  do_ro : fs_ro sb s dp i;
  do_type : i_type i = T_DIR;
  do_size : ∃ n : nat, i_size i = 16 * Z.of_nat n }.

Definition dents (s : fstate BS) (i : inode) : list dirent := entries (fdata (vw (f_store s)) i).

Lemma dents_length s i n : i_size i = 16 * Z.of_nat n → length (dents s i) = n.
Proof.
  intros Hn. unfold dents. rewrite length_entries, length_fdata, Hn.
  replace (Z.to_nat (16 * Z.of_nat n)) with (n * 16)%nat by lia. by rewrite Nat.div_mul.
Qed.

Lemma dir_ok_same s b' dp i : dir_ok s dp i → same (f_store s) b' → dir_ok (set_store b' s) dp i ∧ dents (set_store b' s) i = dents s i.
Proof.
  intros [Hro Ht Hs] Hb. split; [split; [by apply fs_ro_same|done|done]|].
  unfold dents. simpl. by rewrite (ts_view _ _ _ _ _ Hb).
Qed.

(** readi of one entry. *)
Lemma wp_read_entry s dp i n k Q :
  dir_ok s dp i → i_size i = 16 * Z.of_nat n → (k < n)%nat →
  (∀ b', same (f_store s) b' → Q (16, slice (fdata (vw (f_store s)) i) (16 * k) 16) (set_store b' s)) →
  wp (readi devsw dp (16 * Z.of_nat k) SIZEOF_DIRENT) Q s.
Proof.
  intros [Hro Ht _] Hn Hk HQ. pose proof (fo_size _ _ _ (fr_file _ _ _ _ Hro)) as Hs.
  change (MAXFILE * BSIZE) with 71680 in Hs. change SIZEOF_DIRENT with 16.
  apply (wp_readi sb devsw s dp i); [done|by rewrite Ht|lia|lia|lia|]. intros b' Hb. cbv zeta.
  replace (Z.min 16 (i_size i - 16 * Z.of_nat k)) with 16 by lia.
  replace (Z.to_nat (16 * Z.of_nat k)) with (16 * k)%nat by lia. by apply HQ.
Qed.

Lemma dents_lookup s i n k :
  i_size i = 16 * Z.of_nat n → (k < n)%nat →
  dents s i !! k = Some (dir_entry (fdata (vw (f_store s)) i) k).
Proof.
  intros Hn Hk. unfold dents. apply lookup_entries. rewrite length_fdata, Hn.
  replace (Z.to_nat (16 * Z.of_nat n)) with (n * 16)%nat by lia. by rewrite Nat.div_mul.
Qed.

Lemma wp_dirlookup_loop fuel s dp i name n k Q :
  dir_ok s dp i → i_size i = 16 * Z.of_nat n → (k ≤ n)%nat → (n - k < fuel)%nat →
  match list_find (names name) (drop k (dents s i)) with
  | Some (j, de) => ∀ b', same (f_store s) b' →
      wp (iget ROOTDEV (de_inum de)) (λ ip s', Q (Some (ip, 16 * Z.of_nat (k + j))) s') (set_store b' s)
  | None => ∀ b', same (f_store s) b' → Q None (set_store b' s)
  end →
  wp (dirlookup_loop devsw fuel dp name (16 * Z.of_nat k)) Q s.
Proof.
  revert s k Q. induction fuel as [|fuel IH]; intros s k Q Hdir Hn Hk Hfuel HQ; [lia|].
  pose proof Hdir as [Hro Ht _]. pose proof Hro as [Hwf _ _ _ Hip Hf].
  cbn [dirlookup_loop]. wstep1. eapply wp_geti; [done|]. rewrite (fo_dev _ _ _ Hf).
  destruct (Z.ltb_spec (16 * Z.of_nat k) (i_size i)) as [Hlt|Hge].
  - assert (k < n)%nat as Hkn by lia. pose proof (dents_lookup s i n k Hn Hkn) as He.
    wstep1. apply (wp_read_entry s dp i n); [done..|]. intros b1 S1. cbn [fst snd].
    destruct (dir_ok_same s b1 dp i Hdir S1) as [Hdir1 Hd1].
    rewrite (drop_S _ _ _ He) in HQ. fold (dir_entry (fdata (vw (f_store s)) i) k).
    set (de := dir_entry (fdata (vw (f_store s)) i) k) in *. simpl in HQ.
    change (16 =? SIZEOF_DIRENT) with true. cbn [negb]. cbv zeta.
    replace (16 * Z.of_nat k + SIZEOF_DIRENT) with (16 * Z.of_nat (S k))
      by (unfold SIZEOF_DIRENT; lia).
    assert (¬ names name de → wp (dirlookup_loop devsw fuel dp name (16 * Z.of_nat (S k))) Q (set_store b1 s)) as Hrec.
    { intros Hnn. apply IH; [done|done|lia|lia|]. rewrite Hd1.
      destruct (decide (names name de)); [done|].
      destruct (list_find (names name) (drop (S k) (dents s i))) as [[j de']|]; simpl in HQ.
      - intros b' Hb. replace (S k + j)%nat with (k + S j)%nat by lia. apply HQ. by eapply same_trans.
      - intros b' Hb. apply HQ. by eapply same_trans. }
    destruct (Z.eqb_spec (de_inum de) 0) as [H0|H0]; [apply Hrec; by intros [? _]|].
    destruct (Z.eqb_spec (namecmp name (de_name de)) 0) as [Hc|Hc]; [|apply Hrec; by intros [_ ?]].
    destruct (decide (names name de)) as [_|Hno]; [|by destruct Hno].
    wstep1. eapply wp_mono; [by apply HQ|]. intros ip s' HQ'. wstep1. by rewrite Nat.add_0_r in HQ'.
  - wstep1. rewrite drop_ge in HQ by (rewrite (dents_length s i n) by done; lia). simpl in HQ.
    destruct s as [b c]. apply (HQ b). by apply tstep_refl.
Qed.

Lemma wp_dirlookup s dp i name Q :
  dir_ok s dp i →
  match list_find (names name) (dents s i) with
  | Some (j, de) => ∀ b', same (f_store s) b' →
      wp (iget ROOTDEV (de_inum de)) (λ ip s', Q (Some (ip, 16 * Z.of_nat j)) s') (set_store b' s)
  | None => ∀ b', same (f_store s) b' → Q None (set_store b' s)
  end →
  wp (dirlookup devsw dp name) Q s.
Proof.
  intros Hdir HQ. pose proof Hdir as [Hro Ht [n Hn]]. unfold dirlookup. wstep1.
  eapply wp_geti; [apply Hro|]. rewrite Ht. cbn [Z.eqb T_DIR Pos.eqb negb].
  apply (wp_dirlookup_loop _ s dp i name n 0); [done|done|lia| |done].
  rewrite Hn. change SIZEOF_DIRENT with 16. rewrite Z.mul_comm, Z.div_mul by lia. lia.
Qed.

(** ** dirlink *)
Definition free_entry (de : dirent) : Prop := de_inum de = 0.
#[local] Instance free_entry_dec de : Decision (free_entry de).
Proof. unfold free_entry. apply _. Defined.

(** The slot dirlink writes: the first free entry, or one past the last. *)
Definition link_slot (l : list dirent) : nat :=
  match list_find free_entry l with Some (k, _) => k | None => length l end.

Lemma wp_dirlink_loop fuel s dp i n k Q :
  dir_ok s dp i → i_size i = 16 * Z.of_nat n → (k ≤ n)%nat → (n - k < fuel)%nat →
  (∀ b', same (f_store s) b' →
    Q (16 * Z.of_nat (k + link_slot (drop k (dents s i)))) (set_store b' s)) →
  wp (dirlink_loop devsw fuel dp (16 * Z.of_nat k)) Q s.
Proof.
  revert s k Q. induction fuel as [|fuel IH]; intros s k Q Hdir Hn Hk Hfuel HQ; [lia|].
  pose proof Hdir as [Hro Ht _]. pose proof Hro as [Hwf _ _ _ Hip Hf].
  pose proof (fo_size _ _ _ Hf) as Hs. change (MAXFILE * BSIZE) with 71680 in Hs.
  cbn [dirlink_loop]. wstep1. eapply wp_geti; [done|]. rewrite u32_small by lia.
  destruct (Z.ltb_spec (16 * Z.of_nat k) (i_size i)) as [Hlt|Hge].
  - assert (k < n)%nat as Hkn by lia. pose proof (dents_lookup s i n k Hn Hkn) as He.
    wstep1. apply (wp_read_entry s dp i n); [done..|]. intros b1 S1. cbn [fst snd].
    destruct (dir_ok_same s b1 dp i Hdir S1) as [Hdir1 Hd1].
    rewrite (drop_S _ _ _ He) in HQ. fold (dir_entry (fdata (vw (f_store s)) i) k).
    set (de := dir_entry (fdata (vw (f_store s)) i) k) in *.
    change (16 =? SIZEOF_DIRENT) with true. cbn [negb].
    replace (16 * Z.of_nat k + SIZEOF_DIRENT) with (16 * Z.of_nat (S k))
      by (unfold SIZEOF_DIRENT; lia).
    unfold link_slot in HQ. simpl in HQ.
    destruct (Z.eqb_spec (de_inum de) 0) as [H0|H0].
    + wstep1. destruct (decide (free_entry de)) as [_|Hno]; [|by destruct Hno].
      rewrite Nat.add_0_r in HQ. by apply HQ.
    + apply IH; [done|done|lia|lia|]. rewrite Hd1. intros b' Hb.
      destruct (decide (free_entry de)) as [|_]; [done|]. unfold link_slot.
      destruct (list_find free_entry (drop (S k) (dents s i))) as [[j de']|]; simpl in HQ;
        rewrite <- Nat.add_succ_comm in HQ; apply HQ; by eapply same_trans.
  - wstep1. rewrite drop_ge in HQ by (rewrite (dents_length s i n) by done; lia).
    unfold link_slot in HQ. simpl in HQ. rewrite Nat.add_0_r in HQ.
    destruct s as [b c]. apply (HQ b). by apply tstep_refl.
Qed.

Lemma link_slot_spec (l : list dirent) :
  (link_slot l ≤ length l)%nat ∧
  ∀ de, l !! link_slot l = Some de → free_entry de.
Proof.
  unfold link_slot. destruct (list_find free_entry l) as [[k de]|] eqn:Hf.
  - apply list_find_Some in Hf as (Hk & Hfr & _). split; [apply lookup_lt_Some in Hk; lia|].
    intros de' Hde. by simplify_eq.
  - split; [done|]. intros de Hde. apply lookup_lt_Some in Hde. lia.
Qed.
End dirs.

(** Writing one entry into the bytes of a directory. *)
Lemma entries_write data n k e :
  length data = (16 * n)%nat → (k ≤ n)%nat → length e = 16%nat →
  entries (take (16 * k) data ++ e ++ drop (16 * k + 16) data)
  = take k (entries data) ++ dec_dirent e :: drop (S k) (entries data).
Proof.
  intros Hl Hk He. set (data' := take (16 * k) data ++ e ++ drop (16 * k + 16) data).
  assert (length data' = (16 * Nat.max n (S k))%nat) as Hl'.
  { unfold data'. rewrite !length_app, length_take, length_drop, Hl, He. lia. }
  assert (∀ m, (16 * m / 16 = m)%nat) as Hdiv by (intros m; rewrite Nat.mul_comm; by apply Nat.div_mul).
  apply list_eq. intros j.
  destruct (decide (j < Nat.max n (S k))%nat) as [Hj|Hj].
  2: { rewrite !lookup_ge_None_2; [done|..].
       - rewrite length_app, length_take. simpl. rewrite length_drop, length_entries, Hl, Hdiv. lia.
       - rewrite length_entries, Hl', Hdiv. lia. }
  rewrite lookup_entries by (rewrite Hl', Hdiv; lia). unfold dir_entry.
  assert (length (entries data) = n) as Hle by (rewrite length_entries, Hl; apply Hdiv).
  destruct (Nat.lt_trichotomy j k) as [Hlt|[->|Hgt]].
  - rewrite lookup_app_l by (rewrite length_take; lia). rewrite lookup_take_lt by done.
    rewrite lookup_entries by (rewrite Hl, Hdiv; lia). do 2 f_equal. unfold data', slice, dir_entry.
    rewrite drop_app_le by (rewrite length_take; lia). rewrite take_app_le by (rewrite length_drop, length_take; lia).
    by rewrite skipn_firstn_comm, take_take, Nat.min_l by lia.
  - rewrite lookup_app_r by (rewrite length_take; lia). rewrite length_take.
    replace (k - k `min` length (entries data))%nat with 0%nat by lia. simpl. do 2 f_equal.
    unfold data', slice. rewrite drop_app_length' by (rewrite length_take; lia).
    by rewrite take_app_length' by done.
  - rewrite lookup_app_r by (rewrite length_take; lia). rewrite length_take.
    replace (j - k `min` length (entries data))%nat with (S (j - S k)) by lia. simpl.
    rewrite lookup_drop. replace (S k + (j - S k))%nat with j by lia.
    rewrite lookup_entries by (rewrite Hl, Hdiv; lia). do 2 f_equal. unfold data', slice, dir_entry.
    rewrite drop_app_ge by (rewrite length_take; lia). rewrite length_take.
    rewrite drop_app_ge by lia. rewrite drop_drop. 
    unfold slice. do 3 f_equal. lia.
Qed.

Section links.
Context {BS : BlockStore} (sb : superblock) (devsw : devsw_t (fstate BS)).

(** What iget does to the inode cache: entry [ip] gains a reference, or a free
    entry is taken for the inode, not yet read from the disk. *)
Record igot (s s' : fstate BS) (dev inum : Z) (ip : nat) : Prop := mkIgot {
  ig_store : f_store s' = f_store s;
  ig_entry : ∃ j j', f_icache s !! ip = Some j ∧ f_icache s' = <[ip := j']> (f_icache s) ∧
    i_dev j' = dev ∧ i_inum j' = inum ∧
    ((cached_inode dev inum j ∧ j' = i_set_ref (i_ref j + 1) j) ∨
     (Forall (λ i, ¬ cached_inode dev inum i) (f_icache s) ∧ i_ref j = 0 ∧ i_ref j' = 1 ∧ i_flags j' = 0)) }.

Lemma wp_iget s dev inum Q :
  (∃ k j, f_icache s !! k = Some j ∧ (i_ref j = 0 ∨ cached_inode dev inum j)) →
  (∀ ip s', igot s s' dev inum ip → Q ip s') →
  wp (iget dev inum) Q s.
Proof.
  intros (k & j & Hk & Hj) HQ. unfold iget. wstep1. wstep1.
  pose proof (iget_find_spec (f_icache s) dev inum 0 None) as Hs.
  destruct (iget_find (f_icache s) dev inum 0 None) as [e|[e|]].
  - destruct Hs as (i & Hi & _ & Hc). rewrite Nat.sub_0_r in Hi. wstep1. eapply wp_modi; [done|].
    wstep1. apply HQ. split; [done|]. exists i, (i_set_ref (i_ref i + 1) i).
    destruct Hc as (Hr & Hd & Hn). split_and!; try done. by left.
  - destruct Hs as (Hall & i & Hi & _ & Hc). rewrite Nat.sub_0_r in Hi. wstep1. eapply wp_modi; [done|].
    wstep1. apply HQ. split; [done|]. eexists i, _. split_and!; try done. by right.
  - destruct Hs as [Hall Hrefs]. exfalso. rewrite Forall_lookup in Hall, Hrefs.
    destruct Hj as [Hj|Hj]; [by apply (Hrefs k j)|by apply (Hall k j)].
Qed.

Lemma fs_pre_same s b' ip i : fs_pre sb s ip i → same (f_store s) b' → fs_pre sb (set_store b' s) ip i.
Proof. intros [? ? ? ? ? ?] [? V H P _ A _ _]. split; simpl; rewrite ?V, ?H, ?P, ?A; done. Qed.

Lemma fs_pre_dir s dp i n :
  fs_pre sb s dp i → i_type i = T_DIR → i_size i = 16 * Z.of_nat n →
  (size (psecs (f_store s)) < NBUF)%nat → dir_ok sb s dp i.
Proof. intros [? ? ? ? ? ?] Ht Hn Hsz. split; [split; done || lia|done|by exists n]. Qed.

(** An entry never straddles two blocks. *)
Lemma nblk_entry k : nblk (16 * k) 16 = 1%nat.
Proof.
  unfold nblk. rewrite decide_False by lia.
  pose proof (Nat.div_mod_eq k 32) as Hk. pose proof (Nat.mod_upper_bound k 32 ltac:(lia)) as Hm.
  replace ((16 * k + 16 - 1) / 512)%nat with (k / 32)%nat; [replace (16 * k / 512)%nat with (k / 32)%nat; [lia|]|].
  - apply (Nat.div_unique _ _ _ (16 * (k mod 32))); lia.
  - apply (Nat.div_unique _ _ _ (16 * (k mod 32) + 15)); lia.
Qed.

Lemma strncpy_bytes name n : Forall is_byte name → Forall is_byte (strncpy name n).
Proof.
  intros H. rewrite strncpy_spec. apply Forall_app. split.
  - apply Forall_take. unfold cstr. revert H. clear. induction name as [|c name IH]; simpl; [done|].
    intros [Hc Hn]%Forall_cons. destruct (Z.eqb_spec c 0); [done|]. constructor; auto.
  - apply Forall_replicate. done.
Qed.

(** The hypotheses of dirlink: a directory of [n] entries open in a transaction
    with room for one more block, and a new entry for it. *)
Record link_pre (s : fstate BS) (dp : nat) (i : inode) (name : list Z) (inum : Z) (n : nat) : Prop := mkLinkPre {
  lp_pre : fs_pre sb s dp i;
  lp_type : i_type i = T_DIR;
  lp_size : i_size i = 16 * Z.of_nat n;
  lp_room : (n < 4480)%nat;
  lp_dir : 0 ≤ i_inum i < sb_ninodes sb;
  lp_inum : 0 < inum < 2 ^ 16;
  lp_name : Forall is_byte name;
  lp_new : Forall (λ de, ¬ names name de) (dents s i);
  lp_free : (1 + indz i ≤ size (free_set (vw (f_store s)) sb))%nat;
  lp_cap : Z.of_nat (mu sb (psecs (f_store s)) i + 1) < t_cap (bs_abs (f_store s));
  lp_bufs : (mu sb (psecs (f_store s)) i + 2 < NBUF)%nat }.

Definition new_entry (name : list Z) (inum : Z) : dirent := mkDirent (u16 inum) (strncpy name 14).

Lemma new_entry_ok name inum :
  0 < inum < 2 ^ 16 → Forall is_byte name →
  names name (new_entry name inum) ∧ de_inum (new_entry name inum) = inum ∧
  length (enc_dirent (new_entry name inum)) = 16%nat ∧ Forall is_byte (enc_dirent (new_entry name inum)) ∧
  dec_dirent (enc_dirent (new_entry name inum)) = new_entry name inum.
Proof.
  intros Hi Hn. assert (u16 inum = inum) as Hu by (apply Z.mod_small; lia).
  assert (length (strncpy name 14) = 14%nat) as Hl by apply length_strncpy.
  split_and!; [split; [simpl; lia|apply namecmp_strncpy]|done|by apply length_enc_dirent| |].
  - unfold enc_dirent. apply Forall_app. split; [apply le_enc_bytes|by apply strncpy_bytes].
  - apply dec_enc_dirent; [simpl; unfold is_u16; lia|done].
Qed.

Lemma wp_dirlink s dp i name inum n Q :
  link_pre s dp i name inum n →
  (∀ b' s' i', same (f_store s) b' →
    wrote sb (set_store b' s) s' dp i i' (16 * link_slot (dents s i)) 16 (enc_dirent (new_entry name inum)) →
    dents s' i' = take (link_slot (dents s i)) (dents s i) ++ new_entry name inum
                    :: drop (S (link_slot (dents s i))) (dents s i) →
    Q 0 s') →
  wp (dirlink devsw dp name inum) Q s.
Proof.
  intros [Hp Ht Hn Hroom Hdi Hi Hby Hnew Hfree Hcap Hbufs] HQ.
  destruct (new_entry_ok name inum Hi Hby) as (_ & _ & Hlen & Heb & Hde).
  pose proof (size_psecs_mu sb (psecs (f_store s)) i) as Hsz.
  assert (dir_ok sb s dp i) as Hdir by (apply (fs_pre_dir s dp i n); done || lia).
  unfold dirlink. wstep1. apply (wp_dirlookup sb devsw s dp i); [done|].
  rewrite (proj2 (list_find_None _ _)) by done. intros b1 S1. wstep1.
  pose proof (fs_pre_same _ _ _ _ Hp S1) as Hp1. eapply wp_geti; [apply Hp1|]. wstep1.
  destruct (dir_ok_same sb s b1 dp i Hdir S1) as [Hdir1 Hd1].
  apply (wp_dirlink_loop sb devsw _ _ dp i n 0); [done|done|lia| |].
  { rewrite Hn. change SIZEOF_DIRENT with 16. rewrite Z.mul_comm, Z.div_mul by lia. lia. }
  intros b2 S2. rewrite Hd1. change (0 + link_slot (drop 0 (dents s i)))%nat with (link_slot (dents s i)).
  pose proof (same_trans _ _ _ S1 S2) as S. pose proof (fs_pre_same _ _ _ _ Hp S) as Hp2.
  destruct (link_slot_spec (dents s i)) as [Hk _]. rewrite (dents_length s i n Hn) in Hk.
  set (k := link_slot (dents s i)) in *.
  rewrite u32_small by lia. replace (16 * Z.of_nat k) with (Z.of_nat (16 * k)) by lia.
  change (enc_dirent _) with (enc_dirent (new_entry name inum)). change SIZEOF_DIRENT with (Z.of_nat 16).
  pose proof S as [_ V _ P _ _ C _]. wstep1.
  change (set_store b2 (set_store b1 s)) with (set_store b2 s).
  apply (wp_writei sb devsw _ dp i); cbn [f_store set_store]; rewrite ?V, ?P, ?C, ?nblk_entry;
    [done|by rewrite Ht|done|lia|lia|lia|done|lia|lia|lia|].
  intros s' i' Hw. change (Z.of_nat 16 =? Z.of_nat 16) with true. cbn [negb]. wstep1.
  apply (HQ b2 s' i'); [done|done|]. unfold dents at 1. rewrite (wo_data _ _ _ _ _ _ _ _ _ Hw).
  cbn [f_store set_store]. rewrite V, (take_ge (enc_dirent _)) by lia.
  rewrite (entries_write _ n) by (done || rewrite length_fdata; lia). by rewrite Hde.
Qed.

(** dirlookup finds the first entry in use whose name agrees with [name] (up
    to DIRSIZ bytes): it returns that entry's offset and a cache entry that
    holds the inode with a new reference, or nothing when no entry agrees; disk,
    log and all other cache entries are as before. *)
Theorem dirlookup_correct s dp i name :
  dir_ok sb s dp i →
  (∃ k j, f_icache s !! k = Some j ∧ i_ref j = 0) →
  wp (dirlookup devsw dp name) (λ r s', same (f_store s) (f_store s') ∧
    match list_find (names name) (dents s i) with
    | Some (k, de) => ∃ ip b', r = Some (ip, 16 * Z.of_nat k) ∧ igot (set_store b' s) s' ROOTDEV (de_inum de) ip
    | None => r = None ∧ f_icache s' = f_icache s
    end) s.
Proof.
  intros Hdir (k0 & j0 & Hk0 & Hr0). apply (wp_dirlookup sb devsw s dp i); [done|].
  destruct (list_find (names name) (dents s i)) as [[k de]|]; [|done].
  intros b' Hb. apply wp_iget; [exists k0, j0; by auto|]. intros ip s' Hg. split; [|by eauto].
  by rewrite (ig_store _ _ _ _ _ Hg).
Qed.

(** Dirlink of a new name into a directory returns 0 and writes exactly one
    entry, in the first free slot or at the end: every other entry of the
    directory is as before, and the directory is again well formed. *)
Theorem dirlink_correct s dp i name inum n :
  link_pre s dp i name inum n →
  wp (dirlink devsw dp name inum) (λ r s', r = 0 ∧ ∃ i', fs_pre sb s' dp i' ∧
    i_size i' = 16 * Z.of_nat (length (dents s' i')) ∧
    (∀ k, dents s' i' !! k = if decide (k = link_slot (dents s i)) then Some (new_entry name inum)
                             else dents s i !! k)) s.
Proof.
  intros Hp. apply (wp_dirlink s dp i name inum n); [done|]. intros b' s' i' Hb Hw Hd.
  pose proof Hp as [_ _ Hn _ _ _ _ _ _ _ _]. pose proof (dents_length s i n Hn) as Hl.
  destruct (link_slot_spec (dents s i)) as [Hk _]. set (m := link_slot (dents s i)) in *.
  split; [done|]. exists i'. split; [apply (wo_pre _ _ _ _ _ _ _ _ _ Hw)|]. rewrite Hd. split.
  - rewrite (wo_size _ _ _ _ _ _ _ _ _ Hw), length_app, length_take. simpl. rewrite length_drop. lia.
  - intros k. destruct (decide (k = m)) as [->|Hne].
    + rewrite lookup_app_r by (rewrite length_take; lia). rewrite length_take.
      by replace (m - m `min` length (dents s i))%nat with 0%nat by lia.
    + destruct (decide (k < m)%nat) as [Hlt|Hge].
      * rewrite lookup_app_l by (rewrite length_take; lia). by rewrite lookup_take_lt.
      * rewrite lookup_app_r by (rewrite length_take; lia). rewrite length_take.
        replace (k - m `min` length (dents s i))%nat with (S (k - S m)) by lia.
        simpl. rewrite lookup_drop. f_equal. lia.
Qed.

(** C27: a linked name is found: dirlookup of [name] after dirlink of [name] with
    inode number [inum] returns a cache entry for that inode and the offset of
    the slot dirlink used. *)
Theorem dirlink_dirlookup s dp i name inum n :
  link_pre s dp i name inum n →
  (∃ k j, f_icache s !! k = Some j ∧ i_ref j = 0) →
  wp (dirlink devsw dp name inum ;;; dirlookup devsw dp name) (λ r s', ∃ ip j,
    r = Some (ip, 16 * Z.of_nat (link_slot (dents s i))) ∧
    f_icache s' !! ip = Some j ∧ i_dev j = ROOTDEV ∧ i_inum j = inum ∧ 0 < i_ref j) s.
Proof.
  intros Hp (k0 & j0 & Hk0 & Hr0). wstep1. apply (wp_dirlink s dp i name inum n); [done|].
  intros b' s' i' Hb Hw Hd.
  pose proof Hp as [Hpre Ht Hn _ _ Hi Hby Hnew _ _ Hbufs].
  destruct (new_entry_ok name inum Hi Hby) as (Hnm & Hinum & _).
  pose proof (dents_length s i n Hn) as Hl. destruct (link_slot_spec (dents s i)) as [Hk _].
  destruct (wo_step _ _ _ _ _ _ _ _ _ Hw) as (P' & [_ Hic]).
  pose proof (wo_secs _ _ _ _ _ _ _ _ _ Hw) as Hsecs. cbn [f_store f_icache set_store] in *.
  rewrite (ts_secs _ _ _ _ _ Hb), nblk_entry in Hsecs.
  pose proof (wo_fields _ _ _ _ _ _ _ _ _ Hw) as Hfl.
  assert (i_ref i' = i_ref i ∧ i_type i' = T_DIR) as [Href Hty] by (by rewrite Hfl, <- Ht).
  set (m := link_slot (dents s i)) in *.
  apply (wp_dirlookup sb devsw s' dp i').
  { apply (fs_pre_dir s' dp i' (Nat.max n (S m))); [apply (wo_pre _ _ _ _ _ _ _ _ _ Hw)|done| |].
    - rewrite (wo_size _ _ _ _ _ _ _ _ _ Hw). lia.
    - lia. }
  assert (list_find (names name) (dents s' i') = Some (m, new_entry name inum)) as ->.
  { apply list_find_Some. rewrite Hd. split_and!; [|done|].
    - rewrite lookup_app_r by (rewrite length_take; lia). rewrite length_take.
      by replace (m - m `min` length (dents s i))%nat with 0%nat by lia.
    - intros j y Hj Hlt. rewrite lookup_app_l, lookup_take_lt in Hj by (rewrite ?length_take; lia).
      rewrite Forall_lookup in Hnew. by eapply Hnew. }
  intros b2 _. rewrite Hinum. apply wp_iget; cbn [f_icache set_store].
  - destruct (decide (k0 = dp)) as [->|Hne].
    + exists dp, i'. rewrite Hic, list_lookup_insert_eq by (by eapply lookup_lt_Some).
      destruct Hpre as [_ _ _ _ Hip _]. split; [done|]. left. simplify_eq. congruence.
    + exists k0, j0. rewrite Hic, list_lookup_insert_ne by done. auto.
  - intros ip s'' [_ (j & j' & Hj & He & Hdv & Hin & Hcase)]. exists ip, j'. split; [done|].
    rewrite He, list_lookup_insert_eq by (by eapply lookup_lt_Some). split_and!; try done.
    destruct Hcase as [[[Hr _] ->]|(_ & _ & -> & _)]; simpl; lia.
Qed.
End links.


(** ** Witnesses: an empty directory on the concrete file system *)
Definition ex_dir : inode := mkInode 1 1 1 3 T_DIR 0 0 1 0 (replicate 13 0).
Definition ex_name : list Z := [104; 105].
Definition ex_dstate (b : lstate) : fstate log_store := mkF (BS := log_store) b [ex_dir; inode0].

Lemma ex_link_pre : ∃ b : lstate, link_pre (BS := log_store) ex_sb (ex_dstate b) 0 ex_dir ex_name 2 0.
Proof.
  destruct ex_fs_pre as (b & [Hwf Hok Hact Hheld Hip Hf] & HP & HC & HV). exists b.
  assert (mu ex_sb ∅ ex_dir = 2%nat) as Hmu.
  { unfold mu. change (indset ex_dir) with (∅ : gset Z). change (indz ex_dir) with 1%nat.
    rewrite (left_id_L ∅ (∪)), (right_id_L ∅ (∪)), ex_bitmaps_size. done. }
  split; try done.
  - split; try done. destruct Hf. by split.
  - lia.
  - by repeat constructor.
  - cbn [f_store ex_dstate]. rewrite HV, ex_free_size. change (indz ex_dir) with 1%nat. lia.
  - cbn [f_store ex_dstate]. rewrite HP, Hmu.
    change (t_cap (@bs_abs log_store b)) with (t_cap (labs b)). lia.
  - cbn [f_store ex_dstate]. rewrite HP, Hmu, NBUF_eq. lia.
Qed.

Lemma ex_free_slot (b : lstate) : ∃ k j, f_icache (ex_dstate b) !! k = Some j ∧ i_ref j = 0.
Proof. by exists 1%nat, inode0. Qed.

(** Witness of dirlookup_correct. *)
Lemma dirlookup_correct_witness :
  ∃ (b : lstate) s', dirlookup (BS := log_store) no_dev 0 ex_name (ex_dstate b) = Ok None s'.
Proof.
  destruct ex_link_pre as (b & Hp). exists b.
  assert (dir_ok (BS := log_store) ex_sb (ex_dstate b) 0 ex_dir) as Hdir.
  { pose proof (size_psecs_mu ex_sb (psecs (BS := log_store) b) ex_dir) as Hle.
    pose proof (lp_bufs _ _ _ _ _ _ _ Hp) as Hb. cbn [f_store ex_dstate] in *.
    apply (fs_pre_dir _ _ _ _ 0); [apply Hp|done|done|]. cbn [f_store ex_dstate]. lia. }
  destruct (wp_run _ _ _ (dirlookup_correct ex_sb no_dev (ex_dstate b) 0 ex_dir ex_name Hdir (ex_free_slot b)))
    as (r & s' & Hrun & _ & Hr).
  exists s'. rewrite Hrun. destruct Hr as [-> _]. done.
Defined.

(** Witness of dirlink_correct. *)
Lemma dirlink_correct_witness :
  ∃ (b : lstate) s' i', dirlink (BS := log_store) no_dev 0 ex_name 2 (ex_dstate b) = Ok 0 s' ∧
    dents s' i' !! 0%nat = Some (new_entry ex_name 2).
Proof.
  destruct ex_link_pre as (b & Hp). exists b.
  destruct (wp_run _ _ _ (dirlink_correct ex_sb no_dev (ex_dstate b) 0 ex_dir ex_name 2 0 Hp))
    as (r & s' & Hrun & -> & i' & _ & _ & Hd).
  exists s', i'. split; [exact Hrun|]. by rewrite Hd.
Defined.

(** Witness of dirlink_dirlookup. *)
Lemma dirlink_dirlookup_witness :
  ∃ (b : lstate) ip s', (dirlink (BS := log_store) no_dev 0 ex_name 2 ;;;
    dirlookup (BS := log_store) no_dev 0 ex_name) (ex_dstate b) = Ok (Some (ip, 0)) s'.
Proof.
  destruct ex_link_pre as (b & Hp). exists b.
  destruct (wp_run _ _ _ (dirlink_dirlookup ex_sb no_dev (ex_dstate b) 0 ex_dir ex_name 2 0 Hp (ex_free_slot b)))
    as (r & s' & Hrun & ip & j & -> & _).
  exists ip, s'. exact Hrun.
Defined.
