(* ===== verification/Kalloc.v ===== *)
(** * Physical page allocator (kalloc.c, memlayout.h, the page macros of mmu.h)

    Memory is a finite map from page addresses (kernel virtual) to the 4096 bytes
    of the page.  The free list is intrusive, as in the code: the head is in
    kmem.freelist and each free page holds the address of the next one in its
    first four bytes.  The refinement relates it to a list of pages. *)
From stdpp Require Import base list gmap numbers option strings sets.
From Stdlib Require Import ZArith Lia.
From S2P Require Import Prelude Kstring Layout.
Open Scope Z_scope.

(** ** memlayout.h and mmu.h *)
Definition EXTMEM : Z := 0x100000.
Definition PHYSTOP : Z := 0xE000000.
Definition DEVSPACE : Z := 0xFE000000.
Definition KERNBASE : Z := 0x80000000.
Definition KERNLINK : Z := KERNBASE + EXTMEM.
Definition v2p (a : Z) : Z := u32 (a - KERNBASE).
Definition p2v (a : Z) : Z := u32 (a + KERNBASE).
Definition PGSIZE : Z := 4096.
Definition PGROUNDUP (sz : Z) : Z := Z.land (u32 (sz + PGSIZE - 1)) (u32 (Z.lnot (PGSIZE - 1))).
Definition PGROUNDDOWN (a : Z) : Z := Z.land a (u32 (Z.lnot (PGSIZE - 1))).

(** ** Memory and the allocator's state *)
Record kmem := mkKmem {
  km_use_lock : bool;
  km_freelist : Z;
  km_pages : gmap Z (list Z) }.

Definition set_pages (m : gmap Z (list Z)) (s : kmem) : kmem := mkKmem (km_use_lock s) (km_freelist s) m.
Definition set_freelist (v : Z) (s : kmem) : kmem := mkKmem (km_use_lock s) v (km_pages s).
Definition set_use_lock (b : bool) (s : kmem) : kmem := mkKmem b (km_freelist s) (km_pages s).

(** Run byte-level code on the page at [v]; its addresses are offsets into the
    page. *)
Definition on_page {A} (v : Z) (m : M (list Z) A) : M kmem A := λ s,
  match km_pages s !! v with
  | None => Ub
  | Some pg =>
    match m pg with
    | Ok a pg' => Ok a (set_pages (<[v := pg']> (km_pages s)) s)
    | Panic msg => Panic msg
    | Blocked _ => Ub
    | Ub => Ub
    end
  end.

Definition page_base (a : Z) : Z := a - a mod PGSIZE.
(** An aligned 32-bit load and store at address [a]. *)
Definition ldw (a : Z) : M kmem Z :=
  on_page (page_base a) (gets (λ pg, u32_at pg (Z.to_nat (a mod PGSIZE)))).
Definition stw (a v : Z) : M kmem unit :=
  on_page (page_base a) (modify (λ pg, put_u32 pg (Z.to_nat (a mod PGSIZE)) v)).

(** ** kalloc.c *)
Section kalloc.
(** The first address after the kernel, set by the linker. *)
Context (kend : Z).

Definition kfree (v : Z) : M kmem unit :=
  if negb (v mod PGSIZE =? 0) || (v <? kend) || (PHYSTOP <=? v2p v) then panic "kfree"
  else
    on_page v (memset 0 1 PGSIZE) ;;;
    next <- gets km_freelist ;;
    stw v next ;;;
    modify (set_freelist v).

Definition kalloc : M kmem Z :=
  r <- gets km_freelist ;;
  (if r =? 0 then ret tt else next <- ldw r ;; modify (set_freelist next)) ;;;
  ret r.

(** The loop of freerange; [p] is the pointer. *)
Fixpoint freerange_loop (fuel : nat) (p vend : Z) : M kmem unit :=
  match fuel with
  | O => undefined
  | S fuel =>
    if p + PGSIZE <=? vend then kfree p ;;; freerange_loop fuel (p + PGSIZE) vend
    else ret tt
  end.
Definition freerange (vstart vend : Z) : M kmem unit :=
  let p := PGROUNDUP vstart in
  freerange_loop (S (Z.to_nat ((vend - p) / PGSIZE + 1))) p vend.

Definition kinit1 (vstart vend : Z) : M kmem unit :=
  modify (set_use_lock false) ;;; freerange vstart vend.
Definition kinit2 (vstart vend : Z) : M kmem unit :=
  freerange vstart vend ;;; modify (set_use_lock true).
End kalloc.

(** ** Addresses *)
Lemma land_page a : 0 ≤ a < 2 ^ 32 → Z.land a (u32 (Z.lnot (PGSIZE - 1))) = 4096 * (a / 4096).
Proof.
  intros Ha. change (u32 (Z.lnot (PGSIZE - 1))) with (Z.ldiff (Z.ones 32) (Z.ones 12)).
  replace (4096 * (a / 4096)) with (Z.shiftl (Z.shiftr a 12) 12)
    by (rewrite Z.shiftl_mul_pow2, Z.shiftr_div_pow2 by lia; change (2 ^ 12) with 4096; lia).
  apply Z.bits_inj'. intros n Hn. rewrite Z.land_spec, Z.ldiff_spec, Z.shiftl_spec by done.
  rewrite !Z.testbit_ones_nonneg by lia.
  destruct (Z.ltb_spec n 12); simpl.
  - rewrite andb_false_r, andb_false_r. by rewrite Z.testbit_neg_r by lia.
  - rewrite andb_true_r, Z.shiftr_spec by lia. replace (n - 12 + 12) with n by lia.
    destruct (Z.ltb_spec n 32); [by rewrite andb_true_r|]. rewrite andb_false_r.
    rewrite Z.bits_above_log2; [done|lia|]. destruct (Z.eq_dec a 0) as [->|]; [cbn; lia|].
    apply Z.log2_lt_pow2; [lia|]. eapply Z.lt_le_trans; [apply Ha|]. apply Z.pow_le_mono_r; lia.
Qed.

Lemma PGROUNDUP_spec a : 0 ≤ a → a + 4095 < 2 ^ 32 → PGROUNDUP a = 4096 * ((a + 4095) / 4096).
Proof.
  intros H1 H2. unfold PGROUNDUP. change PGSIZE with 4096 at 1.
  replace (a + 4096 - 1) with (a + 4095) by lia. rewrite u32_small by lia. apply land_page. lia.
Qed.

Lemma PGROUNDDOWN_spec a : 0 ≤ a < 2 ^ 32 → PGROUNDDOWN a = 4096 * (a / 4096).
Proof. apply land_page. Qed.

Lemma p2v_v2p a : 0 ≤ a < 2 ^ 32 → p2v (v2p a) = a.
Proof. unfold p2v, v2p, u32, KERNBASE. intros. zlia. Qed.

(** ** The free list as a list of pages *)
Section spec.
Context (kend : Z).

(** A page the allocator may hold. *)
Record page_ok (v : Z) : Prop := mkPageOk {
  po_align : v mod 4096 = 0;
  po_end : kend ≤ v;
  po_range : KERNBASE ≤ v < KERNBASE + PHYSTOP }.

Definition page_wf (pg : list Z) : Prop := length pg = 4096%nat ∧ Forall is_byte pg.

(** A free page: a link, then junk. *)
Definition free_page (pg : list Z) (next : Z) : Prop :=
  page_wf pg ∧ u32_at pg 0 = next ∧ drop 4 pg = replicate 4092 1.

Fixpoint flist (m : gmap Z (list Z)) (hd : Z) (l : list Z) : Prop :=
  match l with
  | [] => hd = 0
  | v :: l => hd = v ∧ page_ok v ∧ ∃ pg next, m !! v = Some pg ∧ free_page pg next ∧ flist m next l
  end.

(** The allocator holds exactly the pages of [l], each once. *)
Record kmem_ok (s : kmem) (l : list Z) : Prop := mkKmemOk {
  ko_pages : map_Forall (λ _ pg, page_wf pg) (km_pages s);
  ko_list : flist (km_pages s) (km_freelist s) l;
  ko_nodup : NoDup l }.

Lemma flist_insert m hd l v pg : v ∉ l → flist m hd l → flist (<[v := pg]> m) hd l.
Proof.
  revert hd. induction l as [|w l IH]; intros hd Hv; [done|].
  intros (-> & Hok & pg' & next & Hpg & Hf & Hl). apply not_elem_of_cons in Hv as [Hne Hv].
  split_and!; [done|done|]. exists pg', next. split_and!; [by rewrite lookup_insert_ne|done|by apply IH].
Qed.

Lemma flist_ok m hd l v : flist m hd l → v ∈ l → page_ok v ∧ is_Some (m !! v).
Proof.
  revert hd. induction l as [|w l IH]; intros hd; [by intros _ ?%elem_of_nil|].
  intros (-> & Hok & pg & next & Hpg & _ & Hl) [->|Hv]%elem_of_cons; [by eauto|by eapply IH].
Qed.

Lemma page_ok_nonzero v : page_ok v → v ≠ 0.
Proof. intros [_ _ H]. unfold KERNBASE in H. lia. Qed.

Lemma page_base_ok v : v mod 4096 = 0 → page_base v = v ∧ Z.to_nat (v mod PGSIZE) = 0%nat.
Proof. intros H. unfold page_base. change PGSIZE with 4096. rewrite H. lia. Qed.

Lemma v2p_range v : 0 ≤ v < 2 ^ 32 → (PHYSTOP <=? v2p v) = negb (bool_decide (KERNBASE ≤ v < KERNBASE + PHYSTOP)).
Proof.
  intros Hv. unfold v2p, u32, KERNBASE, PHYSTOP.
  destruct (bool_decide_reflect (0x80000000 ≤ v < 0x80000000 + 0xE000000)); simpl.
  - apply Z.leb_gt. zlia.
  - apply Z.leb_le. zlia.
Qed.

Lemma kfree_guard v :
  0 ≤ v < 2 ^ 32 →
  negb (v mod PGSIZE =? 0) || (v <? kend) || (PHYSTOP <=? v2p v) = false ↔ page_ok v.
Proof.
  intros Hv. rewrite v2p_range by done. rewrite !orb_false_iff, !negb_false_iff, bool_decide_eq_true.
  rewrite Z.eqb_eq, Z.ltb_ge. split; [intros [[? ?] ?]; by split|by intros [? ? ?]].
Qed.

Lemma page_ok_u32 v : page_ok v → 0 ≤ v < 2 ^ 32.
Proof. intros [_ _ H]. unfold KERNBASE, PHYSTOP in H. lia. Qed.

Lemma flist_head_u32 m hd l : flist m hd l → 0 ≤ hd < 2 ^ 32.
Proof.
  destruct l as [|v l]; [intros ->; lia|]. intros (-> & Hok & _). by apply page_ok_u32.
Qed.

Lemma junk_page pg next :
  page_wf pg → 0 ≤ next < 2 ^ 32 →
  free_page (put_u32 (replicate 4096 1) 0 next) next.
Proof.
  intros _ Hn. assert (length (replicate 4096 1 : list Z) = 4096%nat) as Hl by apply length_replicate.
  split; [split|split].
  - rewrite length_put_u32; [done|]. rewrite Hl. lia.
  - apply Forall_splice; [by apply Forall_replicate|apply le_enc_bytes].
  - apply u32_at_put_same; [rewrite Hl; lia|done].
  - unfold put_u32, splice. rewrite length_le_enc. rewrite take_0, app_nil_l.
    rewrite drop_app_length' by (by rewrite length_le_enc). by rewrite drop_replicate.
Qed.

Lemma kfree_run s v l pg :
  kmem_ok s l → page_ok v → v ∉ l → km_pages s !! v = Some pg →
  kfree kend v s = Ok tt (mkKmem (km_use_lock s) v
    (<[v := put_u32 (replicate 4096 1) 0 (km_freelist s)]> (km_pages s))).
Proof.
  intros [Hw Hl Hnd] Hok Hnin Hpg. unfold kfree.
  rewrite (proj2 (kfree_guard v (page_ok_u32 v Hok)) Hok).
  destruct (page_base_ok v (po_align v Hok)) as [Hb Ho].
  pose proof (Hw _ _ Hpg) as [Hlen _].
  pose proof (memset_run pg 0 4096 1) as Hms. change (Z.of_nat 0) with 0 in Hms.
  change (Z.of_nat 4096) with PGSIZE in Hms. rewrite splice_full in Hms by (rewrite length_replicate; lia).
  unfold bind at 1. unfold on_page at 1. rewrite Hpg, Hms by lia. unfold bind, gets, stw, modify, on_page.
  simpl. rewrite Hb, Ho, lookup_insert_eq. unfold set_freelist, set_pages. simpl.
  by rewrite insert_insert_eq.
Qed.

Lemma wp_kfree s v l Q :
  kmem_ok s l → page_ok v → v ∉ l → is_Some (km_pages s !! v) →
  (∀ s', kmem_ok s' (v :: l) → dom (km_pages s') = dom (km_pages s) →
    (∀ w, w ≠ v → km_pages s' !! w = km_pages s !! w) → Q tt s') →
  wp (kfree kend v) Q s.
Proof.
  intros Hs Hok Hnin [pg Hpg] HQ. unfold wp. rewrite (kfree_run s v l pg) by done.
  pose proof Hs as [Hw Hl Hnd]. pose proof (junk_page pg _ (Hw _ _ Hpg) (flist_head_u32 _ _ _ Hl)) as Hj.
  apply HQ; simpl.
  - split; simpl.
    + apply map_Forall_insert_2; [apply Hj|done].
    + split_and!; [done|done|]. eexists _, _. split_and!; [apply lookup_insert_eq|done|by apply flist_insert].
    + by constructor.
  - rewrite dom_insert_L. apply elem_of_dom_2 in Hpg. revert Hpg. clear. set_solver.
  - intros w Hne. by rewrite lookup_insert_ne.
Qed.

Lemma wp_kalloc s v l Q :
  kmem_ok s (v :: l) →
  (∀ s', kmem_ok s' l → km_pages s' = km_pages s → Q v s') →
  wp kalloc Q s.
Proof.
  intros [Hw (Hhd & Hok & pg & next & Hpg & [Hwf [Hn _]] & Hl) Hnd] HQ. unfold kalloc.
  pose proof (page_ok_nonzero v Hok) as Hnz. rewrite <- Hhd in Hnz.
  destruct (page_base_ok v (po_align v Hok)) as [Hb Ho]. wstep1. wstep1. rewrite Hhd in *.
  rewrite (proj2 (Z.eqb_neq v 0)) by done. wstep1. wstep1.
  unfold wp, ldw, on_page, gets. rewrite Hb, Ho, Hpg, insert_id by done. rewrite Hn. cbn.
  apply HQ; [|done]. apply NoDup_cons in Hnd as [_ Hnd]. by split.
Qed.

Lemma kalloc_empty s : kmem_ok s [] → kalloc s = Ok 0 s.
Proof. intros [_ Hl _]. simpl in Hl. unfold kalloc, bind, gets. by rewrite Hl. Qed.

(** The pages freerange frees, in order. *)
Definition range_pages (p : Z) (n : nat) : list Z := (λ k, p + 4096 * Z.of_nat k) <$> seq 0 n.

Lemma range_pages_S p n : range_pages p (S n) = p :: range_pages (p + 4096) n.
Proof.
  unfold range_pages. cbn [seq fmap list_fmap]. f_equal; [lia|]. rewrite <- fmap_S_seq, <- list_fmap_compose.
  apply list_fmap_ext. intros i x _. simpl. lia.
Qed.

Lemma elem_of_range_pages p n v :
  v ∈ range_pages p n ↔ ∃ k, v = p + 4096 * Z.of_nat k ∧ (k < n)%nat.
Proof.
  unfold range_pages. rewrite list_elem_of_fmap. setoid_rewrite elem_of_seq.
  split; intros (k & -> & Hk); exists k; split; done || lia.
Qed.

Lemma wp_freerange_loop fuel s p vend l n Q :
  kmem_ok s l → p mod 4096 = 0 → kend ≤ p → KERNBASE ≤ p → vend ≤ KERNBASE + PHYSTOP →
  Z.of_nat n = Z.max 0 ((vend - p) / 4096) → (n < fuel)%nat →
  (∀ v, v ∈ range_pages p n → (v ∉ l) ∧ is_Some (km_pages s !! v)) →
  (∀ s', kmem_ok s' (reverse (range_pages p n) ++ l) → dom (km_pages s') = dom (km_pages s) → Q tt s') →
  wp (freerange_loop kend fuel p vend) Q s.
Proof.
  revert s p l n. induction fuel as [|fuel IH]; intros s p l n Hs Hal Hend Hkb Hve Hn Hf Hnew HQ; [lia|].
  cbn [freerange_loop]. change PGSIZE with 4096.
  destruct (Z.leb_spec (p + 4096) vend) as [Hle|Hgt].
  - destruct n as [|n]; [exfalso; zlia|].
    rewrite range_pages_S in Hnew, HQ.
    assert (page_ok p) as Hok by (split; lia).
    destruct (Hnew p) as [Hnin Hin]; [by left|]. wstep1. apply (wp_kfree s p l); [done..|].
    intros s1 Hs1 Hd1 Hoth. apply (IH s1 (p + 4096) (p :: l) n); try lia; [done|zlia|zlia|..].
    + intros v Hv. destruct (Hnew v) as [Hvl Hvs]; [by right|].
      rewrite elem_of_cons, <- elem_of_dom, Hd1, elem_of_dom. split; [|done]. intros [->|?]; [|done].
      apply elem_of_range_pages in Hv as (k & Hk & _). lia.
    + intros s' Hs' Hd'. apply HQ; [|congruence]. by rewrite reverse_cons, <- app_assoc.
  - wstep1. assert (n = 0%nat) as -> by zlia. by apply HQ.
Qed.

(** ** Sequences of kalloc and kfree *)
Inductive kop := KAlloc | KFree (v : Z).

(** The specification: a stack of free pages and the set of pages in use. *)
Definition spec_step (o : kop) (st : list Z * gset Z) : option (Z * (list Z * gset Z)) :=
  match o, st with
  | KAlloc, ([], used) => Some (0, ([], used))
  | KAlloc, (v :: free, used) => Some (v, (free, {[v]} ∪ used))
  | KFree v, (free, used) => if decide (v ∈ used) then Some (0, (v :: free, used ∖ {[v]})) else None
  end.
Definition run_kop (o : kop) : M kmem Z :=
  match o with KAlloc => kalloc | KFree v => kfree kend v ;;; ret 0 end.

Fixpoint spec_run (os : list kop) (st : list Z * gset Z) : option (list Z * (list Z * gset Z)) :=
  match os with
  | [] => Some ([], st)
  | o :: os => '(r, st') ← spec_step o st; '(rs, st'') ← spec_run os st'; Some (r :: rs, st'')
  end.
Fixpoint run_kops (os : list kop) : M kmem (list Z) :=
  match os with
  | [] => ret []
  | o :: os => r <- run_kop o ;; rs <- run_kops os ;; ret (r :: rs)
  end.

(** Free pages and pages in use are different, and all are pages of memory. *)
Record kmem_rel (s : kmem) (st : list Z * gset Z) : Prop := mkKmemRel {
  kr_free : kmem_ok s st.1;
  kr_used : ∀ v, v ∈ st.2 → page_ok v ∧ (v ∉ st.1) ∧ is_Some (km_pages s !! v) }.

Lemma run_kop_refines o s st r st' :
  kmem_rel s st → spec_step o st = Some (r, st') →
  wp (run_kop o) (λ r' s', r' = r ∧ kmem_rel s' st' ∧ ∀ v, v ∈ st.2 ∩ st'.2 → km_pages s' !! v = km_pages s !! v) s.
Proof.
  intros [Hf Hu] He. destruct st as [free used], o as [|v]; simpl in *.
  - destruct free as [|v free]; simplify_eq.
    + unfold wp. by rewrite kalloc_empty.
    + apply (wp_kalloc s r free); [done|]. intros s' Hs' Hp. split_and!; [done| |by rewrite Hp].
      split; [done|]. simpl. rewrite Hp. intros w [->%elem_of_singleton|Hw]%elem_of_union.
      * pose proof Hf as [_ Hl Hnd]. apply NoDup_cons in Hnd as [Hn _].
        destruct (flist_ok _ _ _ r Hl) as [? ?]; [by left|]. done.
      * destruct (Hu w Hw) as (? & Hnin & ?). apply not_elem_of_cons in Hnin as [_ ?]. done.
  - destruct (decide (v ∈ used)) as [Hv|]; [|done]. simplify_eq. destruct (Hu v Hv) as (Hok & Hnin & His).
    wstep1. apply (wp_kfree s v free); [done..|]. intros s' Hs' Hd Hoth. wstep1. split_and!; [done| |].
    + split; [done|]. simpl. intros w [Hw Hne]%elem_of_difference. rewrite elem_of_singleton in Hne.
      destruct (Hu w Hw) as (? & ? & ?). split_and!; [done|by apply not_elem_of_cons|by rewrite Hoth].
    + simpl. intros w Hw. apply Hoth. revert Hw. clear. set_solver.
Qed.

(** C17: the intrusive free list of kalloc.c implements a stack of pages: for every
    sequence of kalloc and kfree calls in which only pages in use are freed, the
    code returns without panic and with exactly the pages of the specification;
    so a page in use is never handed out again, no page is lost, kalloc returns 0
    only when no page is free, and every free page is filled with junk. *)
Theorem kalloc_refines os s st rs st' :
  kmem_rel s st → spec_run os st = Some (rs, st') →
  wp (run_kops os) (λ rs' s', rs' = rs ∧ kmem_rel s' st') s.
Proof.
  revert s st rs. induction os as [|o os IH]; intros s st rs Hs He; simpl in *; [by simplify_eq|].
  destruct (spec_step o st) as [[r st1]|] eqn:Ho; [|done]. simpl in He.
  destruct (spec_run os st1) as [[rs1 st2]|] eqn:Hos; [|done]. simpl in He. simplify_eq.
  wstep1. eapply wp_mono; [by eapply run_kop_refines|]. intros r' s1 (-> & Hs1 & _).
  wstep1. eapply wp_mono; [by eapply IH|]. intros rs' s' [-> Hs']. by wstep1.
Qed.

(** Freerange (and so kinit1 and kinit2) puts exactly the whole pages between
    vstart rounded up and vend on the free list, in front of the pages that were
    there, each page once, and terminates. *)
Theorem freerange_correct s vstart vend l n :
  kmem_ok s l → kend ≤ vstart → KERNBASE ≤ vstart → vend ≤ KERNBASE + PHYSTOP →
  vstart < KERNBASE + PHYSTOP →
  Z.of_nat n = Z.max 0 ((vend - PGROUNDUP vstart) / 4096) →
  (∀ v, v ∈ range_pages (PGROUNDUP vstart) n → (v ∉ l) ∧ is_Some (km_pages s !! v)) →
  wp (freerange kend vstart vend) (λ _ s',
    kmem_ok s' (reverse (range_pages (PGROUNDUP vstart) n) ++ l)) s.
Proof.
  intros Hs Hend Hkb Hve Hvs Hn Hnew. unfold KERNBASE, PHYSTOP in *.
  assert (PGROUNDUP vstart = 4096 * ((vstart + 4095) / 4096)) as Hup by (apply PGROUNDUP_spec; lia).
  unfold freerange. apply (wp_freerange_loop _ s (PGROUNDUP vstart) vend l n); try done.
  - rewrite Hup. zlia.
  - rewrite Hup. zlia.
  - unfold KERNBASE. rewrite Hup. zlia.
  - change PGSIZE with 4096. zlia.
Qed.

(** Kfree panics exactly on the addresses that are not a page between the end
    of the kernel and the top of physical memory. *)
Theorem kfree_checks s v :
  0 ≤ v < 2 ^ 32 → ¬ page_ok v → kfree kend v s = Panic "kfree".
Proof.
  intros Hv Hno. unfold kfree. destruct (_ || _) eqn:E; [done|]. by apply kfree_guard in E.
Qed.
End spec.

(** ** Witnesses *)
Definition ex_kend : Z := 0x80100001.
Definition ex_page : list Z := replicate 4096 0.
Definition ex_p1 : Z := 0x80101000.
Definition ex_p2 : Z := 0x80102000.
Definition ex_mem : kmem := mkKmem false 0 {[ex_p1 := ex_page; ex_p2 := ex_page]}.

Lemma ex_page_wf : page_wf ex_page.
Proof. split; [apply length_replicate|by apply Forall_replicate]. Qed.

Lemma ex_mem_ok : kmem_ok ex_kend ex_mem [].
Proof.
  split; [|done|constructor].
  apply map_Forall_insert_2; [|apply map_Forall_singleton]; apply ex_page_wf.
Qed.

Lemma ex_pages_ok : page_ok ex_kend ex_p1 ∧ page_ok ex_kend ex_p2.
Proof. split; split; done. Qed.

(** Witness of kalloc_refines: two pages freed and allocated again. *)
Lemma kalloc_refines_witness :
  ∃ s', run_kops ex_kend [KFree ex_p1; KFree ex_p2; KAlloc; KAlloc; KAlloc] ex_mem
    = Ok [0; 0; ex_p2; ex_p1; 0] s'.
Proof.
  assert (kmem_rel ex_kend ex_mem ([], {[ex_p1; ex_p2]})) as Hr.
  { split; [apply ex_mem_ok|]. simpl. destruct ex_pages_ok as [H1 H2].
    intros v [->%elem_of_singleton| ->%elem_of_singleton]%elem_of_union;
      (split_and!; [done|apply not_elem_of_nil|done]). }
  assert (spec_run [KFree ex_p1; KFree ex_p2; KAlloc; KAlloc; KAlloc] ([], {[ex_p1; ex_p2]})
    = Some ([0; 0; ex_p2; ex_p1; 0], ([], {[ex_p1; ex_p2]}))) as He by (vm_compute; reflexivity).
  destruct (proj1 (wp_iff _ _ _) (kalloc_refines ex_kend _ ex_mem _ _ _ Hr He)) as (rs & s' & Hrun & Hrs & _).
  exists s'. rewrite Hrs in Hrun. exact Hrun.
Defined.

(** Witness of freerange_correct: the two pages from 0x80100001 to 0x80103000. *)
Lemma freerange_correct_witness :
  ∃ s', freerange ex_kend 0x80100001 0x80103000 ex_mem = Ok tt s' ∧ kmem_ok ex_kend s' [ex_p2; ex_p1].
Proof.
  pose proof (freerange_correct ex_kend ex_mem 0x80100001 0x80103000 [] 2 ex_mem_ok
    ltac:(done) ltac:(done) ltac:(done) ltac:(done) ltac:(done)) as Hrun.
  assert (∀ v, v ∈ range_pages (PGROUNDUP 0x80100001) 2 → (v ∉ []) ∧ is_Some (km_pages ex_mem !! v)) as Hp.
  { intros v Hv. split; [apply not_elem_of_nil|].
    apply elem_of_range_pages in Hv as (k & -> & Hk). destruct k as [|[|k]]; [eexists; vm_compute; reflexivity..|lia]. }
  destruct (proj1 (wp_iff _ _ _) (Hrun Hp)) as ([] & s' & Hrun' & Hs').
  exists s'. split; [exact Hrun'|exact Hs'].
Defined.

(** Witness of kfree_checks: a misaligned address. *)
Lemma kfree_checks_witness : kfree ex_kend 0x80101004 ex_mem = Panic "kfree".
Proof. apply (kfree_checks ex_kend ex_mem 0x80101004); [done|]. intros [H _ _]. by vm_compute in H. Defined.
