(* ===== verification/Pipe.v ===== *)
(** * Pipes (pipe.c: pipeclose, pipewrite, piperead)

    The body of pipewrite and piperead runs under p->lock from its start, or from
    the return of sleep(), to its next sleep() or its return; each such run is
    one function here, and the processes that share a pipe interleave at those
    points.  A run yields the wakeup() calls it made, in order.  (pipealloc is in
    File.v, with the file table it fills.) *)
From stdpp Require Import base list numbers option strings.
From Stdlib Require Import ZArith Lia.
From S2P Require Import Prelude.
Open Scope Z_scope.

(** ** struct pipe *)
Definition PIPESIZE : Z := 512.
Record pipe := mkPipe {
  p_data : list Z;
  p_nread : Z;
  p_nwrite : Z;
  p_readopen : bool;
  p_writeopen : bool }.

(** The sleep channels &p->nread and &p->nwrite. *)
Inductive chan := Nread | Nwrite.
#[export] Instance chan_eq_dec : EqDecision chan.
Proof. solve_decision. Defined.

(** How a run ends: the function returns, or sleeps on a channel. *)
Inductive outcome := Return (r : Z) | Sleep (c : chan).

(** ** Operations *)
(** p->data[p->nwrite++ % PIPESIZE] = c; *)
Definition put (c : Z) (p : pipe) : pipe :=
  mkPipe (<[Z.to_nat (p_nwrite p mod PIPESIZE) := c]> (p_data p)) (p_nread p) (u32 (p_nwrite p + 1))
    (p_readopen p) (p_writeopen p).
(** p->data[p->nread++ % PIPESIZE] *)
Definition take_byte (p : pipe) : Z * pipe :=
  (default 0 (p_data p !! Z.to_nat (p_nread p mod PIPESIZE)),
   mkPipe (p_data p) (u32 (p_nread p + 1)) (p_nwrite p) (p_readopen p) (p_writeopen p)).

Definition full (p : pipe) : bool := p_nwrite p =? u32 (p_nread p + PIPESIZE).
Definition empty (p : pipe) : bool := p_nread p =? p_nwrite p.

(** A run of pipewrite; [rest] is addr[i], ..., addr[n-1].  It yields the bytes
    still to write, the wakeups, the outcome and the pipe. *)
Fixpoint pipewrite_loop (killed : bool) (n : Z) (rest : list Z) (p : pipe)
    : list Z * list chan * outcome * pipe :=
  match rest with
  | [] => ([], [Nread], Return n, p)
  | c :: rest' =>
    if full p then
      if negb (p_readopen p) || killed then (rest, [], Return (-1), p)
      else (rest, [Nread], Sleep Nwrite, p)
    else pipewrite_loop killed n rest' (put c p)
  end.
Definition pipewrite (killed : bool) (addr : list Z) (n : Z) (p : pipe) :=
  pipewrite_loop killed n (take (Z.to_nat n) addr) p.

Fixpoint piperead_copy (n : nat) (p : pipe) : list Z * pipe :=
  match n with
  | O => ([], p)
  | S n =>
    if empty p then ([], p)
    else let '(c, p) := take_byte p in
         let '(l, p) := piperead_copy n p in (c :: l, p)
  end.
(** A run of piperead: the bytes stored at addr, the wakeups, the outcome. *)
Definition piperead (killed : bool) (n : Z) (p : pipe) : list Z * list chan * outcome * pipe :=
  if empty p && p_writeopen p then
    if killed then ([], [], Return (-1), p) else ([], [], Sleep Nread, p)
  else
    let '(l, p) := piperead_copy (Z.to_nat n) p in
    (l, [Nwrite], Return (Z.of_nat (length l)), p).

(** pipeclose; the flag says whether the page of the pipe is freed. *)
Definition pipeclose (writable : bool) (p : pipe) : bool * list chan * pipe :=
  let p' := if writable then mkPipe (p_data p) (p_nread p) (p_nwrite p) (p_readopen p) false
            else mkPipe (p_data p) (p_nread p) (p_nwrite p) false (p_writeopen p) in
  (negb (p_readopen p') && negb (p_writeopen p'), [if writable then Nread else Nwrite], p').

(** ** Processes that share a pipe *)
Inductive call := CWrite (n : Z) (rest : list Z) | CRead (n : Z) | CDone (r : Z).
Record thread := mkThread { t_call : call; t_chan : option chan; t_killed : bool }.
Record system := mkSystem { s_pipe : pipe; s_threads : list thread }.

(** What a step does to the byte stream. *)
Inductive event := Wrote (l : list Z) | Got (l : list Z) | Quiet.

(** wakeup(c): every process sleeping on [c] becomes runnable. *)
Definition wake (c : chan) (t : thread) : thread :=
  if decide (t_chan t = Some c) then mkThread (t_call t) None (t_killed t) else t.
Definition wakes (cs : list chan) (ts : list thread) : list thread :=
  foldl (λ ts c, wake c <$> ts) ts cs.

Definition finish (t : thread) (c : call) (o : outcome) : thread :=
  match o with
  | Return r => mkThread (CDone r) None (t_killed t)
  | Sleep ch => mkThread c (Some ch) (t_killed t)
  end.

(** A runnable process runs to its next sleep or its return. *)
Definition run_thread (k : nat) (s : system) : option (event * system) :=
  t ← s_threads s !! k;
  match t_chan t, t_call t with
  | None, CWrite n rest =>
    let '(rest', ws, o, p) := pipewrite_loop (t_killed t) n rest (s_pipe s) in
    Some (Wrote (take (length rest - length rest') rest),
          mkSystem p (<[k := finish t (CWrite n rest') o]> (wakes ws (s_threads s))))
  | None, CRead n =>
    let '(l, ws, o, p) := piperead (t_killed t) n (s_pipe s) in
    Some (Got l, mkSystem p (<[k := finish t (CRead n) o]> (wakes ws (s_threads s))))
  | _, _ => None
  end.

Definition active_writer (t : thread) : Prop := match t_call t with CWrite _ _ => True | _ => False end.
Definition active_reader (t : thread) : Prop := match t_call t with CRead _ => True | _ => False end.

(** One step of the system.  A process holds a reference to the end of the pipe
    it reads or writes, so an end is closed only when no call uses it, and no
    call starts on a closed end. *)
Inductive step : system → event → system → Prop :=
| step_run k s e s' : run_thread k s = Some (e, s') → step s e s'
| step_write s addr n killed :
    p_writeopen (s_pipe s) = true →
    step s Quiet (mkSystem (s_pipe s)
      (s_threads s ++ [mkThread (CWrite n (take (Z.to_nat n) addr)) None killed]))
| step_read s n killed :
    p_readopen (s_pipe s) = true →
    step s Quiet (mkSystem (s_pipe s) (s_threads s ++ [mkThread (CRead n) None killed]))
| step_close_read s ws b p :
    Forall (λ t, ¬ active_reader t) (s_threads s) →
    pipeclose false (s_pipe s) = (b, ws, p) →
    step s Quiet (mkSystem p (wakes ws (s_threads s)))
| step_close_write s ws b p :
    Forall (λ t, ¬ active_writer t) (s_threads s) →
    pipeclose true (s_pipe s) = (b, ws, p) →
    step s Quiet (mkSystem p (wakes ws (s_threads s)))
| step_kill s k t :
    (** kill(): mark the process and wake it *)
    s_threads s !! k = Some t →
    step s Quiet (mkSystem (s_pipe s) (<[k := mkThread (t_call t) None true]> (s_threads s))).

Inductive steps : system → list event → system → Prop :=
| steps_nil s : steps s [] s
| steps_cons s e s' es s'' : step s e s' → steps s' es s'' → steps s (e :: es) s''.

Definition sent (es : list event) : list Z :=
  es ≫= (λ e, match e with Wrote l => l | _ => [] end).
Definition received (es : list event) : list Z :=
  es ≫= (λ e, match e with Got l => l | _ => [] end).

(** ** The ring buffer *)
(** The bytes in the pipe, oldest first. *)
Definition plen (p : pipe) : Z := u32 (p_nwrite p - p_nread p).
Definition queue (p : pipe) : list Z :=
  (λ k, default 0 (p_data p !! Z.to_nat ((p_nread p + Z.of_nat k) mod 512))) <$> seq 0 (Z.to_nat (plen p)).

Record pipe_ok (p : pipe) : Prop := mkPipeOk {
  pk_data : length (p_data p) = 512%nat;
  pk_nread : 0 ≤ p_nread p < 2 ^ 32;
  pk_nwrite : 0 ≤ p_nwrite p < 2 ^ 32;
  pk_len : plen p ≤ 512 }.

Lemma length_queue p : length (queue p) = Z.to_nat (plen p).
Proof. unfold queue. by rewrite length_fmap, length_seq. Qed.

Lemma full_spec p : pipe_ok p → full p = true ↔ plen p = 512.
Proof.
  intros [_ Hr Hw Hl]. unfold full, plen, PIPESIZE, u32 in *. rewrite Z.eqb_eq. split; intros; zlia.
Qed.

Lemma empty_spec p : pipe_ok p → empty p = true ↔ plen p = 0.
Proof.
  intros [_ Hr Hw Hl]. unfold empty, plen, u32 in *. rewrite Z.eqb_eq. split; intros; zlia.
Qed.

Lemma put_ok c p : pipe_ok p → full p = false → pipe_ok (put c p) ∧ queue (put c p) = queue p ++ [c].
Proof.
  intros Hp Hf. pose proof Hp as [Hd Hr Hw Hl].
  assert (plen p ≠ 512) as Hne by (intros H%full_spec; [by rewrite H in Hf|done]).
  assert (plen (put c p) = plen p + 1) as Hlen by (unfold plen, put, u32 in *; simpl; zlia).
  split.
  - split; simpl; [by rewrite length_insert|done|unfold u32; zlia|rewrite Hlen; lia].
  - assert (0 ≤ plen p) as Hpos by (unfold plen; apply u32_range).
    unfold queue. rewrite Hlen. replace (Z.to_nat (plen p + 1)) with (S (Z.to_nat (plen p))) by lia.
    rewrite seq_S, fmap_app. cbn [fmap list_fmap]. cbn [put p_nread p_data].
    assert ((p_nread p + Z.of_nat (0 + Z.to_nat (plen p))) mod 512 = p_nwrite p mod 512) as Hidx.
    { rewrite Nat.add_0_l, Z2Nat.id by done. unfold plen, u32 in *. zlia. }
    f_equal.
    + apply list_fmap_ext. intros i x Hx. apply lookup_seq in Hx as [-> Hi]. f_equal.
      apply list_lookup_insert_ne. unfold PIPESIZE. rewrite <- Hidx. intros He.
      apply Z2Nat.inj in He; [|apply Z.mod_pos_bound; lia..]. zlia.
    + f_equal. rewrite Hidx. unfold PIPESIZE. rewrite list_lookup_insert_eq; [done|].
      rewrite Hd. pose proof (Z.mod_pos_bound (p_nwrite p) 512). lia.
Qed.

Lemma take_byte_ok p c p' :
  pipe_ok p → empty p = false → take_byte p = (c, p') → pipe_ok p' ∧ queue p = c :: queue p'.
Proof.
  intros Hp He. unfold take_byte. intros [= <- <-]. pose proof Hp as [Hd Hr Hw Hl].
  assert (plen p ≠ 0) as Hne by (intros H%empty_spec; [by rewrite H in He|done]).
  set (p' := mkPipe _ _ _ _ _).
  assert (0 ≤ plen p) as Hpos by (unfold plen; apply u32_range).
  assert (plen p' = plen p - 1) as Hlen by (unfold plen, p', u32 in *; simpl; zlia).
  split.
  - split; simpl; [done|unfold u32; zlia|done|rewrite Hlen; lia].
  - unfold queue. rewrite Hlen. replace (Z.to_nat (plen p)) with (S (Z.to_nat (plen p - 1))) by lia.
    cbn [seq fmap list_fmap]. f_equal; [do 3 f_equal; unfold PIPESIZE; by rewrite Z.add_0_r|].
    rewrite <- fmap_S_seq, <- list_fmap_compose. apply list_fmap_ext. intros i x _. simpl.
    do 3 f_equal. unfold u32. zlia.
Qed.

(** ** Runs of pipewrite and piperead *)
Definition same_ends (p p' : pipe) : Prop :=
  p_readopen p' = p_readopen p ∧ p_writeopen p' = p_writeopen p.

Lemma pipewrite_run killed n rest p rest' ws o p' :
  pipe_ok p → pipewrite_loop killed n rest p = (rest', ws, o, p') →
  pipe_ok p' ∧ same_ends p p' ∧ (full p = true → p' = p) ∧
  (∃ l, rest = l ++ rest' ∧ queue p' = queue p ++ l) ∧
  match o with
  | Return r => (rest' = [] ∧ r = n ∧ ws = [Nread]) ∨
                (rest' ≠ [] ∧ r = -1 ∧ ws = [] ∧ full p' = true ∧ (p_readopen p = false ∨ killed = true))
  | Sleep c => c = Nwrite ∧ ws = [Nread] ∧ full p' = true ∧ p_readopen p = true ∧ killed = false ∧ rest' ≠ []
  end.
Proof.
  revert p. induction rest as [|c rest IH]; intros p Hp Hrun; simpl in Hrun.
  - simplify_eq. split_and!; try done; [|by left]. exists []. by rewrite !app_nil_r.
  - destruct (full p) eqn:Hf.
    + destruct (negb (p_readopen p) || killed) eqn:Hc; simplify_eq.
      * split_and!; try done; [exists []; by rewrite !app_nil_r|right].
        split_and!; try done. apply orb_true_iff in Hc as [Hc%negb_true_iff|Hc]; auto.
      * apply orb_false_iff in Hc as [Hc1%negb_false_iff Hc2].
        split_and!; try done. exists []. by rewrite !app_nil_r.
    + destruct (put_ok c p Hp Hf) as [Hp1 Hq1].
      destruct (IH _ Hp1 Hrun) as (Hp' & He & _ & (l & -> & Hq) & Ho). split_and!; try done.
      exists (c :: l). split; [done|]. by rewrite Hq, Hq1, <- app_assoc.
Qed.

Lemma piperead_copy_run n p l p' :
  pipe_ok p → piperead_copy n p = (l, p') →
  pipe_ok p' ∧ same_ends p p' ∧ queue p = l ++ queue p' ∧ length l = Nat.min n (length (queue p)).
Proof.
  revert p l. induction n as [|n IH]; intros p l Hp Hrun; cbn [piperead_copy] in Hrun; [by simplify_eq|].
  destruct (empty p) eqn:He.
  - simplify_eq. apply empty_spec in He; [|done]. split_and!; try done. rewrite length_queue, He. done.
  - destruct (take_byte p) as [c p1] eqn:Ht. destruct (piperead_copy n p1) as [l1 p2] eqn:Hc.
    simplify_eq. destruct (take_byte_ok p c p1 Hp He Ht) as [Hp1 Hq1].
    destruct (IH p1 l1 Hp1 Hc) as (Hp2 & Hends & Hq2 & Hlen). split_and!; [done| | |].
    + unfold take_byte in Ht. simplify_eq. done.
    + by rewrite Hq1, Hq2.
    + rewrite Hq1. simpl. rewrite Hlen. lia.
Qed.

Lemma piperead_run killed n p l ws o p' :
  pipe_ok p → piperead killed n p = (l, ws, o, p') →
  pipe_ok p' ∧ same_ends p p' ∧ queue p = l ++ queue p' ∧
  match o with
  | Return r => (empty p && p_writeopen p = false ∧ r = Z.of_nat (length l) ∧ ws = [Nwrite] ∧
                 length l = Nat.min (Z.to_nat n) (length (queue p))) ∨
                (r = -1 ∧ killed = true ∧ l = [] ∧ p' = p ∧ ws = [])
  | Sleep c => c = Nread ∧ l = [] ∧ p' = p ∧ ws = [] ∧ empty p = true ∧ p_writeopen p = true ∧ killed = false
  end.
Proof.
  intros Hp Hrun. unfold piperead in Hrun. destruct (empty p && p_writeopen p) eqn:Hc.
  - apply andb_true_iff in Hc as [? ?]. destruct killed; simplify_eq; split_and!; auto 10; done.
  - destruct (piperead_copy (Z.to_nat n) p) as [l1 p1] eqn:Hcp. simplify_eq.
    destruct (piperead_copy_run _ _ _ _ Hp Hcp) as (? & ? & ? & ?). split_and!; try done. left. done.
Qed.

(** ** First in, first out *)
Lemma take_done {A} (l rest : list A) : take (length (l ++ rest) - length rest) (l ++ rest) = l.
Proof. rewrite length_app. replace (length l + length rest - length rest)%nat with (length l) by lia. apply take_app_length. Qed.

Lemma step_queue s e s' :
  step s e s' → pipe_ok (s_pipe s) →
  pipe_ok (s_pipe s') ∧ queue (s_pipe s) ++ sent [e] = received [e] ++ queue (s_pipe s').
Proof.
  intros Hst Hp. destruct Hst as [k s e s' Hrun|s addr n kd _|s n kd _|s ws b p _ Hc|s ws b p _ Hc|s k t _];
    try (split; [done|]; apply app_nil_r).
  - unfold run_thread in Hrun. destruct (s_threads s !! k) as [[c ch kd]|]; [|done]. simpl in Hrun.
    destruct ch; [done|]. destruct c as [n rest|n|r]; [| |done].
    + destruct (pipewrite_loop kd n rest (s_pipe s)) as [[[rest' ws] o] p'] eqn:Hw. simplify_eq.
      destruct (pipewrite_run _ _ _ _ _ _ _ _ Hp Hw) as (Hp' & _ & _ & (l & -> & Hq) & _).
      split; [done|]. simpl. by rewrite Hq, take_done, app_nil_r.
    + destruct (piperead kd n (s_pipe s)) as [[[l ws] o] p'] eqn:Hr. simplify_eq.
      destruct (piperead_run _ _ _ _ _ _ _ Hp Hr) as (Hp' & _ & Hq & _).
      split; [done|]. simpl. by rewrite !app_nil_r.
  - unfold pipeclose in Hc. simplify_eq. simpl. destruct Hp. rewrite app_nil_r. by split.
  - unfold pipeclose in Hc. simplify_eq. simpl. destruct Hp. rewrite app_nil_r. by split.
Qed.

Lemma steps_queue s es s' :
  steps s es s' → pipe_ok (s_pipe s) →
  pipe_ok (s_pipe s') ∧ queue (s_pipe s) ++ sent es = received es ++ queue (s_pipe s').
Proof.
  induction 1 as [s|s e s1 es s2 H1 H2 IH]; intros Hp; [by rewrite app_nil_r|].
  destruct (step_queue _ _ _ H1 Hp) as [Hp1 Hq1]. destruct (IH Hp1) as [Hp2 Hq2]. split; [done|].
  unfold sent, received in *. rewrite !bind_cons in *. simpl in Hq1. rewrite !app_nil_r in Hq1.
  by rewrite app_assoc, Hq1, <- app_assoc, Hq2, app_assoc.
Qed.

(** ** No lost wakeups *)
(** A process is inside piperead or pipewrite only while its end is open; it
    sleeps in piperead only while the pipe is empty and may still be written, in
    pipewrite only while the pipe is full and may still be read. *)
Definition ends_open (p : pipe) (t : thread) : Prop :=
  (active_reader t → p_readopen p = true) ∧ (active_writer t → p_writeopen p = true).
Definition sleep_ok (p : pipe) (t : thread) : Prop :=
  match t_chan t with
  | None => True
  | Some Nread => active_reader t ∧ empty p = true ∧ p_writeopen p = true
  | Some Nwrite => active_writer t ∧ full p = true ∧ p_readopen p = true
  end.
Record sys_ok (s : system) : Prop := mkSysOk {
  so_pipe : pipe_ok (s_pipe s);
  so_ends : Forall (ends_open (s_pipe s)) (s_threads s);
  so_sleep : Forall (sleep_ok (s_pipe s)) (s_threads s) }.
Definition no_kill (s : system) : Prop := Forall (λ t, t_killed t = false) (s_threads s).

Lemma wake_call c t : t_call (wake c t) = t_call t.
Proof. unfold wake. by case_decide. Qed.
Lemma wake_killed c t : t_killed (wake c t) = t_killed t.
Proof. unfold wake. by case_decide. Qed.
Lemma wake_chan c t ch : t_chan (wake c t) = Some ch → t_chan t = Some ch ∧ ch ≠ c.
Proof. unfold wake. case_decide; [done|]. intros H'. split; [done|congruence]. Qed.

Lemma wake_ends p c t : ends_open p t → ends_open p (wake c t).
Proof. unfold ends_open, active_reader, active_writer. by rewrite wake_call. Qed.

Lemma Forall_wakes (P : thread → Prop) ws ts :
  (∀ c t, P t → P (wake c t)) → Forall P ts → Forall P (wakes ws ts).
Proof.
  intros Hw. unfold wakes. revert ts. induction ws as [|c ws IH]; intros ts Hts; [done|]. simpl.
  apply IH. apply Forall_fmap. eapply Forall_impl; [done|]. intros t Ht. by apply Hw.
Qed.

Lemma ends_same p p' t : same_ends p p' → ends_open p t → ends_open p' t.
Proof. unfold ends_open. by intros [-> ->]. Qed.

(** The sleepers that remain after wakeup(c) sleep on the other channel. *)
Lemma sleep_wake p p' c ts :
  Forall (sleep_ok p) ts →
  (∀ t, t ∈ ts → t_chan t ≠ None → t_chan t ≠ Some c → sleep_ok p t → sleep_ok p' t) →
  Forall (sleep_ok p') (wakes [c] ts).
Proof.
  intros Hts Hp'. unfold wakes. simpl. apply Forall_fmap. rewrite Forall_forall in *. intros t Ht. simpl.
  unfold wake. destruct (decide (t_chan t = Some c)) as [He|Hne]; [done|].
  destruct (t_chan t) as [ch|] eqn:Hch.
  - apply Hp'; [done|by rewrite Hch|congruence|by apply Hts].
  - unfold sleep_ok. by rewrite Hch.
Qed.

Lemma ends_wakes p p' ws ts : same_ends p p' → Forall (ends_open p) ts → Forall (ends_open p') (wakes ws ts).
Proof.
  intros Hs He. apply Forall_wakes; [intros; by apply wake_ends|].
  eapply Forall_impl; [exact He|]. intros t. by apply ends_same.
Qed.

Lemma run_write_ok k s n rest rest' ws o p' :
  sys_ok s → s_threads s !! k = Some (mkThread (CWrite n rest) None false) →
  pipewrite_loop false n rest (s_pipe s) = (rest', ws, o, p') →
  sys_ok (mkSystem p' (<[k := finish (mkThread (CWrite n rest) None false) (CWrite n rest') o]>
                         (wakes ws (s_threads s)))).
Proof.
  intros [Hp He Hsl] Ht Hw. pose proof (Forall_lookup_1 _ _ _ _ He Ht) as [_ Hwo]. specialize (Hwo I).
  destruct (pipewrite_run _ _ _ _ _ _ _ _ Hp Hw) as (Hp' & Hends & Hfull & _ & Ho).
  pose proof (ends_wakes _ _ ws _ Hends He) as He'. pose proof Hends as [Hr' Hw'].
  assert (∀ t, t ∈ s_threads s → t_chan t ≠ None → t_chan t ≠ Some Nread →
    sleep_ok (s_pipe s) t → sleep_ok p' t) as Hst.
  { intros t _ H1 H2. unfold sleep_ok. destruct (t_chan t) as [[]|]; [done| |done].
    intros (Ha & Hf & Hop). by rewrite (Hfull Hf). }
  split; [done|..]; simpl; apply Forall_insert; try done.
  - destruct o; split; simpl; try done. by rewrite Hw'.
  - destruct o as [r|ch]; [destruct Ho as [(_ & _ & ->)|(_ & _ & -> & _ & [Hno|?])]|
      destruct Ho as (_ & -> & _)]; [by eapply sleep_wake| |done|by eapply sleep_wake].
    unfold wakes. simpl. rewrite Forall_lookup in *. intros j t Hj.
    specialize (Hsl _ _ Hj). specialize (He _ _ Hj) as [Hro' _].
    unfold sleep_ok in *. destruct (t_chan t) as [[]|]; [|by destruct Hsl as (_ & _ & ?); congruence|done].
    destruct Hsl as [Ha _]. rewrite (Hro' Ha) in Hno. done.
  - destruct o as [r|ch]; [done|]. destruct Ho as (-> & _ & Hf & Hop & _).
    unfold sleep_ok. simpl. rewrite Hr'. done.
Qed.

Lemma run_read_ok k s n l ws o p' :
  sys_ok s → s_threads s !! k = Some (mkThread (CRead n) None false) →
  piperead false n (s_pipe s) = (l, ws, o, p') →
  sys_ok (mkSystem p' (<[k := finish (mkThread (CRead n) None false) (CRead n) o]> (wakes ws (s_threads s)))).
Proof.
  intros [Hp He Hsl] Ht Hr. pose proof (Forall_lookup_1 _ _ _ _ He Ht) as [Hro _]. specialize (Hro I).
  destruct (piperead_run _ _ _ _ _ _ _ Hp Hr) as (Hp' & Hends & _ & Ho).
  pose proof (ends_wakes _ _ ws _ Hends He) as He'. pose proof Hends as [Hr' Hw'].
  split; [done|..]; simpl; apply Forall_insert; try done.
  - destruct o; split; simpl; try done. by rewrite Hr'.
  - destruct o as [r|ch]; [destruct Ho as [(Hne & _ & -> & _)|(_ & ? & _)]; [|done]|].
    + eapply sleep_wake; [done|]. intros t _ H1 H2. unfold sleep_ok.
      destruct (t_chan t) as [[]|]; [|done..]. intros (_ & Hem & Hop). by rewrite Hem, Hop in Hne.
    + destruct Ho as (_ & _ & -> & -> & _). done.
  - destruct o as [r|ch]; [done|]. destruct Ho as (-> & _ & -> & _ & Hem & Hop & _). done.
Qed.

Lemma run_ok k s e s' : sys_ok s → no_kill s → run_thread k s = Some (e, s') → sys_ok s'.
Proof.
  intros Hs Hk Hrun. unfold run_thread in Hrun.
  destruct (s_threads s !! k) as [[c ch kd]|] eqn:Ht; [|done].
  pose proof (Forall_lookup_1 _ _ _ _ Hk Ht) as Hkd. simpl in Hkd, Hrun. subst kd.
  destruct ch; [done|]. destruct c as [n rest|n|r]; [| |done].
  - destruct (pipewrite_loop false n rest (s_pipe s)) as [[[rest' ws] o] p'] eqn:Hw. simplify_eq.
    by eapply run_write_ok.
  - destruct (piperead false n (s_pipe s)) as [[[l ws] o] p'] eqn:Hr. simplify_eq.
    by eapply run_read_ok.
Qed.

(** Processes stay killed. *)
Definition kills (s : system) : list bool := t_killed <$> s_threads s.

Lemma no_kill_kills s : no_kill s ↔ Forall (λ b, b = false) (kills s).
Proof. unfold no_kill, kills. by rewrite Forall_fmap. Qed.

Lemma kills_wakes ws ts : t_killed <$> wakes ws ts = t_killed <$> ts.
Proof.
  unfold wakes. revert ts. induction ws as [|c ws IH]; intros ts; [done|]. simpl. rewrite IH, <- list_fmap_compose.
  apply list_fmap_ext. intros i t _. apply wake_killed.
Qed.

Lemma run_kills k s e s' : run_thread k s = Some (e, s') → kills s' = kills s.
Proof.
  intros Hrun. unfold run_thread in Hrun. destruct (s_threads s !! k) as [t|] eqn:Ht; [|done]. simpl in Hrun.
  assert (∀ p ws c o, kills (mkSystem p (<[k := finish t c o]> (wakes ws (s_threads s)))) = kills s) as Hk.
  { intros p ws c o. unfold kills. simpl. rewrite list_fmap_insert, kills_wakes. apply list_insert_id.
    rewrite list_lookup_fmap, Ht. by destruct o. }
  destruct (t_chan t); [done|]. destruct (t_call t) as [n rest|n|r]; [| |done].
  - destruct (pipewrite_loop _ n rest _) as [[[rest' ws] o] p']. simplify_eq. apply Hk.
  - destruct (piperead _ n _) as [[[l ws] o] p']. simplify_eq. apply Hk.
Qed.

Lemma no_kill_back s e s' : step s e s' → no_kill s' → no_kill s.
Proof.
  intros Hst. rewrite !no_kill_kills.
  destruct Hst as [k s e s' Hrun|s addr n kd _|s n kd _|s ws b p _ Hc|s ws b p _ Hc|s k t Ht].
  - by rewrite (run_kills _ _ _ _ Hrun).
  - unfold kills. simpl. rewrite fmap_app, Forall_app. by intros [? _].
  - unfold kills. simpl. rewrite fmap_app, Forall_app. by intros [? _].
  - unfold kills. simpl. by rewrite kills_wakes.
  - unfold kills. simpl. by rewrite kills_wakes.
  - unfold kills. simpl. rewrite list_fmap_insert. simpl. intros Hall.
    rewrite Forall_lookup in Hall. discriminate (Hall k true).
    apply list_lookup_insert_eq. rewrite length_fmap. by eapply lookup_lt_Some.
Qed.

Lemma sleep_close p p' c ts :
  Forall (sleep_ok p) ts → (∀ t ch, t ∈ ts → t_chan t = Some ch → ch = c ∨ ¬ sleep_ok p t) →
  Forall (sleep_ok p') (wakes [c] ts).
Proof.
  intros Hs Hc. apply (sleep_wake p); [done|]. intros t Ht Hn Hne Hsl.
  destruct (t_chan t) as [ch|] eqn:Hch; [|done]. destruct (Hc t ch Ht Hch); congruence.
Qed.

Lemma step_ok s e s' : sys_ok s → no_kill s' → step s e s' → sys_ok s'.
Proof.
  intros Hs Hk Hst. pose proof (no_kill_back _ _ _ Hst Hk) as Hk0. pose proof Hs as [Hp He Hsl].
  destruct Hst as [k s e s' Hrun|s addr n kd Ho|s n kd Ho|s ws b p Hn Hc|s ws b p Hn Hc|s k t Ht].
  - by eapply run_ok.
  - split; simpl; [done| |]; apply Forall_app; (split; [done|]); apply Forall_singleton; done.
  - split; simpl; [done| |]; apply Forall_app; (split; [done|]); apply Forall_singleton; done.
  - unfold pipeclose in Hc. simplify_eq. split; cbn [s_pipe s_threads].
    + destruct Hp. by split.
    + apply Forall_wakes; [intros; by apply wake_ends|]. rewrite Forall_forall in *. intros t Ht.
      destruct (He t Ht). split; [|done]. intros Ha. by destruct (Hn t Ht).
    + apply (sleep_close (s_pipe s)); [done|]. intros t [] Ht Hch; [right|by left].
      unfold sleep_ok. rewrite Hch, Forall_forall in *. intros [Ha _]. by apply (Hn t Ht).
  - unfold pipeclose in Hc. simplify_eq. split; cbn [s_pipe s_threads].
    + destruct Hp. by split.
    + apply Forall_wakes; [intros; by apply wake_ends|]. rewrite Forall_forall in *. intros t Ht.
      destruct (He t Ht). split; [done|]. intros Ha. by destruct (Hn t Ht).
    + apply (sleep_close (s_pipe s)); [done|]. intros t [] Ht Hch; [by left|right].
      unfold sleep_ok. rewrite Hch, Forall_forall in *. intros [Ha _]. by apply (Hn t Ht).
  - exfalso. unfold no_kill in Hk. simpl in Hk. rewrite Forall_lookup in Hk.
    discriminate (Hk k (mkThread (t_call t) None true)).
    apply list_lookup_insert_eq. by eapply lookup_lt_Some.
Qed.

Lemma steps_ok s es s' : steps s es s' → sys_ok s → no_kill s' → sys_ok s'.
Proof.
  induction 1 as [|s e s1 es s2 H1 H2 IH]; [done|]. intros Hs Hk.
  assert (no_kill s1) as Hk1.
  { clear -H2 Hk. induction H2; [done|]. eauto using no_kill_back. }
  apply IH; [|done]. by eapply step_ok.
Qed.

Lemma app_min {A} (q l r : list A) n :
  q = l ++ r → length l = Nat.min n (length q) → l = take n q ∧ r = drop n q.
Proof.
  intros -> Hl. rewrite length_app in Hl. destruct (decide (n ≤ length l)%nat).
  - by rewrite take_app_length', drop_app_length' by lia.
  - assert (r = []) as -> by (apply nil_length_inv; lia). rewrite app_nil_r.
    by rewrite take_ge, drop_ge by lia.
Qed.

(** ** Properties *)
(** The pipe pipealloc makes, in a page with any contents. *)
Definition new_pipe (d : list Z) : pipe := mkPipe d 0 0 true true.

Lemma new_pipe_ok d : length d = 512%nat → sys_ok (mkSystem (new_pipe d) []).
Proof. intros Hd. split; [by split|constructor|constructor]. Qed.

(** C7: a pipe is a first-in first-out queue of at most 512 bytes: however the
    calls of any number of readers and writers interleave, sleep and wake, get
    killed or close their ends, the bytes received so far followed by the bytes
    in the pipe are the bytes sent so far, also when the counters nread and
    nwrite wrap around at 2^32. *)
Theorem pipe_fifo d es s :
  length d = 512%nat → steps (mkSystem (new_pipe d) []) es s →
  sent es = received es ++ queue (s_pipe s) ∧ (length (queue (s_pipe s)) ≤ 512)%nat.
Proof.
  intros Hd Hst. destruct (steps_queue _ _ _ Hst) as [Hp Hq]; [by split|]. split; [by rewrite <- Hq|].
  rewrite length_queue. pose proof (pk_len _ Hp). lia.
Qed.

(** C31: no wakeup is lost: unless a process using the pipe is killed, a process
    that sleeps in piperead does so only while the pipe is empty and its write
    end is open, and one that sleeps in pipewrite only while 512 bytes are
    waiting and the read end is open; so a reader and a writer never both
    sleep. *)
Theorem pipe_no_lost_wakeup d es s k t :
  length d = 512%nat → steps (mkSystem (new_pipe d) []) es s → no_kill s →
  s_threads s !! k = Some t →
  (t_chan t = Some Nread → queue (s_pipe s) = [] ∧ p_writeopen (s_pipe s) = true) ∧
  (t_chan t = Some Nwrite → length (queue (s_pipe s)) = 512%nat ∧ p_readopen (s_pipe s) = true).
Proof.
  intros Hd Hst Hk Ht. destruct (steps_ok _ _ _ Hst (new_pipe_ok d Hd) Hk) as [Hp _ Hsl].
  pose proof (Forall_lookup_1 _ _ _ _ Hsl Ht) as Hs. unfold sleep_ok in Hs.
  split; intros Hc; rewrite Hc in Hs; destruct Hs as (_ & Hq & Ho); (split; [|done]).
  - apply empty_spec in Hq; [|done]. apply nil_length_inv. by rewrite length_queue, Hq.
  - apply full_spec in Hq; [|done]. by rewrite length_queue, Hq.
Qed.

(** What one call does: a pipewrite that returns without sleeping has put
    all [n] bytes at the end of the queue when they fit, and a piperead of a
    pipe that is not empty returns the first min(n, length) bytes of the queue
    and never sleeps. *)
Theorem pipe_calls killed addr n p :
  pipe_ok p → 0 ≤ n → n = Z.of_nat (length addr) →
  (n + plen p ≤ 512 → ∃ p', pipewrite killed addr n p = ([], [Nread], Return n, p') ∧
     queue p' = queue p ++ addr ∧ pipe_ok p') ∧
  (queue p ≠ [] → ∃ p', piperead killed n p
     = (take (Z.to_nat n) (queue p), [Nwrite], Return (Z.min n (plen p)), p') ∧
     queue p' = drop (Z.to_nat n) (queue p) ∧ pipe_ok p').
Proof.
  intros Hp Hn0 Hn. split.
  - intros Hfit. unfold pipewrite.
    destruct (pipewrite_loop killed n (take (Z.to_nat n) addr) p) as [[[rest' ws] o] p'] eqn:Hw.
    destruct (pipewrite_run _ _ _ _ _ _ _ _ Hp Hw) as (Hp' & _ & _ & (l & Hl & Hq) & Ho).
    rewrite take_ge in Hl by lia.
    assert (full p' = true → rest' = []) as Hno.
    { intros Hf%full_spec; [|done]. apply nil_length_inv.
      assert (length (queue p') = length (queue p) + length l)%nat as Hlen by (by rewrite Hq, length_app).
      rewrite !length_queue, Hf in Hlen. rewrite Hl, length_app in Hn.
      pose proof (u32_range (p_nwrite p - p_nread p)). unfold plen in *. lia. }
    destruct o as [r|c]; [destruct Ho as [(-> & -> & ->)|(Hne & _ & _ & Hf & _)]|
      destruct Ho as (_ & _ & Hf & _ & _ & Hne)]; [|by destruct Hne; apply Hno..].
    exists p'. rewrite app_nil_r in Hl. by subst l.
  - intros Hne. destruct (piperead killed n p) as [[[l ws] o] p'] eqn:Hr.
    destruct (piperead_run _ _ _ _ _ _ _ Hp Hr) as (Hp' & _ & Hq & Ho).
    assert (empty p = false) as He.
    { destruct (empty p) eqn:He; [|done]. destruct Hne. apply empty_spec in He; [|done].
      apply nil_length_inv. by rewrite length_queue, He. }
    unfold piperead in Hr. rewrite He in Hr. cbn [andb] in Hr.
    destruct (piperead_copy (Z.to_nat n) p) as [l1 p1] eqn:Hc. simplify_eq.
    destruct (piperead_copy_run _ _ _ _ Hp Hc) as (_ & _ & _ & Hlen).
    destruct (app_min _ _ _ _ Hq Hlen) as [-> Hd].
    exists p'. split; [|by split]. rewrite Hlen, length_queue. do 3 f_equal.
    pose proof (u32_range (p_nwrite p - p_nread p)). unfold plen. lia.
Qed.


(** ** Witnesses *)
Definition ex_data : list Z := replicate 512 0.
Definition ex_bytes : list Z := [104; 105].

(** Two bytes written, one of them read. *)
Lemma ex_steps :
  ∃ p, steps (mkSystem (new_pipe ex_data) []) [Quiet; Wrote ex_bytes; Quiet; Got [104]]
         (mkSystem p [mkThread (CDone 2) None false; mkThread (CDone 1) None false]).
Proof.
  eexists. eapply steps_cons; [apply (step_write _ ex_bytes 2 false); reflexivity|].
  eapply steps_cons; [eapply (step_run 0); vm_compute; reflexivity|].
  eapply steps_cons; [apply (step_read _ 1 false); reflexivity|].
  eapply steps_cons; [eapply (step_run 1); vm_compute; reflexivity|].
  apply steps_nil.
Qed.

(** Witness of pipe_fifo. *)
Lemma pipe_fifo_witness : ∃ s, queue (s_pipe s) = [105] ∧
  steps (mkSystem (new_pipe ex_data) []) [Quiet; Wrote ex_bytes; Quiet; Got [104]] s.
Proof.
  destruct ex_steps as [p Hst]. eexists. split; [|exact Hst].
  destruct (pipe_fifo ex_data _ _ ltac:(reflexivity) Hst) as [Hq _]. simpl in Hq. by simplify_eq.
Defined.

(** Witness of pipe_no_lost_wakeup: a reader sleeping on the empty pipe. *)
Lemma pipe_no_lost_wakeup_witness :
  ∃ s t, s_threads s !! 0%nat = Some t ∧ t_chan t = Some Nread ∧ queue (s_pipe s) = [] ∧ p_writeopen (s_pipe s) = true.
Proof.
  assert (∃ s, steps (mkSystem (new_pipe ex_data) []) [Quiet; Got []] s ∧
    s_threads s = [mkThread (CRead 1) (Some Nread) false]) as (s & Hst & Ht).
  { eexists. split.
    - eapply steps_cons; [apply (step_read _ 1 false); reflexivity|].
      eapply steps_cons; [eapply (step_run 0); vm_compute; reflexivity|]. apply steps_nil.
    - reflexivity. }
  assert (no_kill s) as Hk by (unfold no_kill; rewrite Ht; by repeat constructor).
  assert (s_threads s !! 0%nat = Some (mkThread (CRead 1) (Some Nread) false)) as H0 by (by rewrite Ht).
  exists s, (mkThread (CRead 1) (Some Nread) false). split; [done|]. split; [done|].
  apply (pipe_no_lost_wakeup ex_data _ s 0 _ ltac:(reflexivity) Hst Hk H0). done.
Defined.

(** Witness of pipe_calls. *)
Lemma pipe_calls_witness :
  ∃ p, pipewrite false ex_bytes 2 (new_pipe ex_data) = ([], [Nread], Return 2, p) ∧ queue p = ex_bytes.
Proof.
  destruct (pipe_calls false ex_bytes 2 (new_pipe ex_data)) as [Hw _]; [by split|done|done|].
  destruct Hw as (p & Hp & Hq & _); [done|]. exists p. split; [exact Hp|exact Hq].
Defined.
