(* ===== verification/File.v ===== *)
(** * Open files (file.c, file.h, pipealloc of pipe.c)

    The table of open files over the file system, the pipes and the page
    allocator.  A struct file* is an index into ftable.file; a struct pipe* is
    the address of the page that holds it.  fileread and filewrite take the user
    buffer as bytes; proc->killed is an argument. *)
From stdpp Require Import base list gmap numbers option strings sets.
From Stdlib Require Import ZArith Lia.
From S2P Require Import Prelude Kstring Layout BlockStore Fs Kalloc Pipe.
Open Scope Z_scope.

(** ** struct file *)
Inductive fdtype := FD_NONE | FD_PIPE | FD_INODE.
#[export] Instance fdtype_eq_dec : EqDecision fdtype.
Proof. solve_decision. Defined.

Record file := mkFile {
  f_type : fdtype;
  f_ref : Z;
  f_readable : bool;
  f_writable : bool;
  f_pipe : Z;
  f_ip : nat;
  f_off : Z }.

Definition fl_set_ref (r : Z) (f : file) : file :=
  mkFile (f_type f) r (f_readable f) (f_writable f) (f_pipe f) (f_ip f) (f_off f).
Definition fl_set_type (t : fdtype) (f : file) : file :=
  mkFile t (f_ref f) (f_readable f) (f_writable f) (f_pipe f) (f_ip f) (f_off f).
Definition fl_set_off (o : Z) (f : file) : file :=
  mkFile (f_type f) (f_ref f) (f_readable f) (f_writable f) (f_pipe f) (f_ip f) o.
(** An end of a pipe, and a file on an inode, as pipealloc and sys_open fill them. *)
Definition fl_pipe (readable writable : bool) (p : Z) (f : file) : file :=
  mkFile FD_PIPE (f_ref f) readable writable p (f_ip f) (f_off f).
Definition fl_inode (ip : nat) (readable writable : bool) (f : file) : file :=
  mkFile FD_INODE (f_ref f) readable writable (f_pipe f) ip 0.

Definition file0 : file := mkFile FD_NONE 0 false false 0 0 0.
Definition ftable0 : list file := replicate (Z.to_nat NFILE) file0.

(** ** The state of the kernel's files *)
Record kstate {BS : BlockStore} := mkK {
  k_fs : fstate BS;
  k_ftable : list file;
  k_pipes : gmap Z pipe;
  k_kmem : kmem }.
Arguments kstate : clear implicits.
Arguments mkK {BS} k_fs k_ftable k_pipes k_kmem.

(** max of filewrite: the bytes written in one transaction. *)
Definition FW_MAX : Z := (LOGSIZE - 1 - 1 - 2) / 2 * 512.
(** The offset of data[] in struct pipe, after struct spinlock. *)
Definition PIPE_DATA : nat := 52.

Section files.
Context {BS : BlockStore} (devsw : devsw_t (fstate BS)) (kend : Z).

Definition set_fs (t : fstate BS) (s : kstate BS) : kstate BS := mkK t (k_ftable s) (k_pipes s) (k_kmem s).
Definition set_km (t : kmem) (s : kstate BS) : kstate BS := mkK (k_fs s) (k_ftable s) (k_pipes s) t.
Definition set_pipes (t : gmap Z pipe) (s : kstate BS) : kstate BS := mkK (k_fs s) (k_ftable s) t (k_kmem s).
Definition set_ftable (t : list file) (s : kstate BS) : kstate BS := mkK (k_fs s) t (k_pipes s) (k_kmem s).

Definition fs {A} (m : M (fstate BS) A) : M (kstate BS) A := zoom k_fs set_fs m.
Definition km {A} (m : M kmem A) : M (kstate BS) A := zoom k_kmem set_km m.
Definition getf (f : nat) : M (kstate BS) file := λ s, lift_opt (k_ftable s !! f) s.
Definition modf (f : nat) (g : file → file) : M (kstate BS) unit :=
  _ <- getf f ;; modify (λ s, set_ftable (alter g f (k_ftable s)) s).
Definition getp (p : Z) : M (kstate BS) pipe := λ s, lift_opt (k_pipes s !! p) s.
Definition putp (p : Z) (v : pipe) : M (kstate BS) unit :=
  modify (λ s, set_pipes (<[p := v]> (k_pipes s)) s).

Definition begin_op : M (kstate BS) unit := fs (sto bs_begin_trans).
Definition end_op : M (kstate BS) unit := fs (sto bs_commit_trans).

(** The first entry that is not in use. *)
Definition unused_file (l : list file) : option nat := fst <$> list_find (λ f, f_ref f = 0) l.

Definition filealloc : M (kstate BS) (option nat) :=
  l <- gets k_ftable ;;
  match unused_file l with
  | Some f => modf f (fl_set_ref 1) ;;; ret (Some f)
  | None => ret None
  end.

Definition filedup (f : nat) : M (kstate BS) nat :=
  v <- getf f ;;
  if f_ref v <? 1 then panic "filedup"
  else modf f (fl_set_ref (f_ref v + 1)) ;;; ret f.

(** pipeclose on the pipe in page [p]; kfree takes the page when both ends are
    closed. *)
Definition close_pipe (p : Z) (writable : bool) : M (kstate BS) unit :=
  v <- getp p ;;
  let '(gone, _, v') := pipeclose writable v in
  if gone then modify (λ s, set_pipes (delete p (k_pipes s)) s) ;;; km (kfree kend p)
  else putp p v'.

Definition fileclose (f : nat) : M (kstate BS) unit :=
  v <- getf f ;;
  if f_ref v <? 1 then panic "fileclose"
  else if 0 <? f_ref v - 1 then modf f (fl_set_ref (f_ref v - 1))
  else
    let ff := fl_set_ref (f_ref v - 1) v in
    modf f (λ v, fl_set_type FD_NONE (fl_set_ref 0 v)) ;;;
    match f_type ff with
    | FD_PIPE => close_pipe (f_pipe ff) (f_writable ff)
    | FD_INODE =>
      begin_op ;;;
      fs (iput (f_ip ff)) ;;;
      end_op
    | FD_NONE => ret tt
    end.

(** None is the result -1. *)
Definition filestat (f : nat) : M (kstate BS) (option stat) :=
  v <- getf f ;;
  match f_type v with
  | FD_INODE =>
    fs (ilock (f_ip v)) ;;;
    st <- fs (stati (f_ip v)) ;;
    fs (iunlock (f_ip v)) ;;;
    ret (Some st)
  | _ => ret None
  end.

(** The result and the bytes stored from addr on. *)
Definition fileread (killed : bool) (f : nat) (n : Z) : M (kstate BS) (Z * list Z) :=
  v <- getf f ;;
  if negb (f_readable v) then ret (-1, [])
  else
    match f_type v with
    | FD_PIPE =>
      p <- getp (f_pipe v) ;;
      let '(l, _, o, p') := piperead killed n p in
      putp (f_pipe v) p' ;;;
      match o with Return r => ret (r, l) | Sleep _ => sleep_on end
    | FD_INODE =>
      fs (ilock (f_ip v)) ;;;
      r <- fs (readi devsw (f_ip v) (f_off v) (u32 n)) ;;
      (if 0 <? r.1 then modf f (fl_set_off (u32 (f_off v + r.1))) else ret tt) ;;;
      fs (iunlock (f_ip v)) ;;;
      ret r
    | FD_NONE => panic "fileread"
    end.

(** The loop of filewrite on an inode: the number of bytes written. *)
Fixpoint filewrite_loop (fuel : nat) (f : nat) (addr : list Z) (i n : Z) : M (kstate BS) Z :=
  match fuel with
  | O => undefined
  | S fuel =>
    if i <? n then
      let n1 := if FW_MAX <? n - i then FW_MAX else n - i in
      v <- getf f ;;
      begin_op ;;;
      fs (ilock (f_ip v)) ;;;
      r <- fs (writei devsw (f_ip v) (drop (Z.to_nat i) addr) (f_off v) n1) ;;
      (if 0 <? r then modf f (fl_set_off (u32 (f_off v + r))) else ret tt) ;;;
      fs (iunlock (f_ip v)) ;;;
      end_op ;;;
      (if r <? 0 then ret i
       else if negb (r =? n1) then panic "short filewrite"
       else filewrite_loop fuel f addr (i + r) n)
    else ret i
  end.

Definition filewrite (killed : bool) (f : nat) (addr : list Z) (n : Z) : M (kstate BS) Z :=
  v <- getf f ;;
  if negb (f_writable v) then ret (-1)
  else
    match f_type v with
    | FD_PIPE =>
      p <- getp (f_pipe v) ;;
      let '(_, _, o, p') := pipewrite killed addr n p in
      putp (f_pipe v) p' ;;;
      match o with Return r => ret r | Sleep _ => sleep_on end
    | FD_INODE =>
      i <- filewrite_loop (S (Z.to_nat n)) f addr 0 n ;;
      ret (if i =? n then n else -1)
    | FD_NONE => panic "filewrite"
    end.

(** pipealloc: the two ends, or the path labelled bad. *)
Definition pipe_bad (p : Z) (f0 f1 : option nat) : M (kstate BS) (option (nat * nat)) :=
  (if p =? 0 then ret tt else km (kfree kend p)) ;;;
  (match f0 with Some f => fileclose f | None => ret tt end) ;;;
  (match f1 with Some f => fileclose f | None => ret tt end) ;;;
  ret None.
Definition pipealloc : M (kstate BS) (option (nat * nat)) :=
  f0 <- filealloc ;;
  match f0 with
  | None => pipe_bad 0 None None
  | Some r =>
    f1 <- filealloc ;;
    match f1 with
    | None => pipe_bad 0 f0 None
    | Some w =>
      p <- km kalloc ;;
      if p =? 0 then pipe_bad 0 f0 f1
      else
        pg <- km (on_page p (gets id)) ;;
        putp p (mkPipe (slice pg PIPE_DATA 512) 0 0 true true) ;;;
        modf r (fl_pipe true false p) ;;;
        modf w (fl_pipe false true p) ;;;
        ret (Some (r, w))
    end
  end.
End files.
