(* ===== verification/FileSpec.v ===== *)
(** * Properties of open files

    filewrite splits a write into transactions that always fit the log and the
    buffer cache; the reference counts of the file table; pipealloc. *)
From stdpp Require Import base list gmap numbers option strings sets.
From Stdlib Require Import ZArith Lia.
From S2P Require Import Prelude Kstring Layout Bio BioSpec BlockStore Log LogSpec Commit Crash.
From S2P Require Import Fs FsTx FsBlocks FsInode FsBmap FsRead FsWrite FsExample.
From S2P Require Import Kalloc Pipe File.
Open Scope Z_scope.

(** ** Arithmetic of chunks *)
Lemma nblk_split off m r : (nblk off m + nblk (off + m) r ≤ nblk off (m + r) + 1)%nat.
Proof.
  unfold nblk. destruct (decide (m = 0)%nat) as [->|Hm]; [rewrite Nat.add_0_r; simpl; lia|].
  destruct (decide (r = 0)%nat) as [->|Hr]; [rewrite (Nat.add_0_r m); case_decide; lia|].
  rewrite decide_False by lia.
  replace (off + m + r - 1)%nat with (off + (m + r) - 1)%nat by lia.
  pose proof (Nat.Div0.div_le_mono (off + m - 1) (off + m) 512 ltac:(lia)).
  pose proof (Nat.Div0.div_le_mono off (off + m - 1) 512 ltac:(lia)).
  pose proof (Nat.Div0.div_le_mono (off + m) (off + (m + r) - 1) 512 ltac:(lia)). lia.
Qed.

Lemma nblk_chunk off m : (m ≤ 1536)%nat → (nblk off m ≤ 4)%nat.
Proof.
  intros Hm. unfold nblk. case_decide; [lia|].
  assert ((off + m - 1) / 512 ≤ off / 512 + 3)%nat; [|lia].
  replace (off / 512 + 3)%nat with ((off + 3 * 512) / 512)%nat by (rewrite Nat.div_add; lia).
  apply Nat.Div0.div_le_mono. lia.
Qed.

Lemma chunk_data {A} (D addr : list A) off k m :
  (off ≤ length D)%nat → (k + m ≤ length addr)%nat →
  take (off + k) (take off D ++ take k addr ++ drop (off + k) D) ++ take m (drop k addr)
    ++ drop (off + k + m) (take off D ++ take k addr ++ drop (off + k) D)
  = take off D ++ take (k + m) addr ++ drop (off + (k + m)) D.
Proof.
  intros Ho Hk. rewrite (app_assoc (take off D) (take k addr) (drop (off + k) D)).
  assert ((off + k)%nat = length (take off D ++ take k addr)) as Hl by (rewrite length_app, !length_take; lia).
  rewrite take_app_length' by done. rewrite drop_app_ge by lia. rewrite <- Hl, drop_drop, <- app_assoc. f_equal.
  rewrite app_assoc. f_equal; [|f_equal; lia].
  symmetry. rewrite <- (take_drop k addr) at 1. rewrite take_app_ge by (rewrite length_take; lia).
  f_equal. f_equal. rewrite length_take. lia.
Qed.

Section filewrite.
Context {BS : BlockStore} (sb : superblock) (devsw : devsw_t (fstate BS)) (kend : Z).

(** One bitmap block covers the disk. *)
Lemma bitmaps_one : sb_size sb ≤ BPB → (size (bitmaps sb) ≤ 1)%nat.
Proof.
  intros Hs. rewrite <- (size_singleton (C := gset Z) (bblock sb 0)). apply subseteq_size.
  intros x (b & Hb & ->)%elem_of_bitmaps. apply elem_of_singleton. unfold bblock, BBLOCK.
  change BPB with 4096 in *. rewrite !Z.div_small by lia. done.
Qed.

Lemma mu_empty i : sb_size sb ≤ BPB → (mu sb ∅ i ≤ 2)%nat.
Proof.
  intros Hs%bitmaps_one. unfold mu, indset, indz. rewrite (left_id_L ∅ (∪)).
  destruct (naddr i 12 =? 0).
  - rewrite (right_id_L ∅ (∪)). lia.
  - rewrite (comm_L (∪)). pose proof (size_union_singleton (bitmaps sb) (naddr i 12)). lia.
Qed.

(** Between transactions, with inode [i] in entry [ip] of the cache, unlocked
    and read from the disk. *)
Record idle (t : fstate BS) (ip : nat) (i : inode) : Prop := mkIdle {
  id_wf : bs_wf (f_store t);
  id_disk : disk_ok (vw (f_store t)) sb;
  id_active : t_active (bs_abs (f_store t)) = false;
  id_held : hd (f_store t) = ∅;
  id_pend : t_pend (bs_abs (f_store t)) = [];
  id_ip : f_icache t !! ip = Some i;
  id_file : file_ok (vw (f_store t)) sb i;
  id_ref : 1 ≤ i_ref i;
  id_flags : i_flags i = I_VALID;
  id_inum : 0 ≤ i_inum i < sb_ninodes sb }.

Lemma file_ok_flags v i f : file_ok v sb i → file_ok v sb (i_set_flags f i).
Proof. intros [? ? ? ? ? ? ? ?]. by split. Qed.

Lemma wp_ilock_valid (t : fstate BS) ip i Q :
  f_icache t !! ip = Some i → 1 ≤ i_ref i → i_flags i = I_VALID →
  Q tt (mkF (f_store t) (<[ip := i_set_flags 3 i]> (f_icache t))) → wp (ilock ip) Q t.
Proof.
  intros Hip Hr Hf HQ. unfold ilock. wstep1. eapply wp_geti; [done|].
  rewrite (proj2 (Z.ltb_ge _ _)), Hf by lia. simpl. wstep1. eapply wp_modi; [done|]. rewrite Hf. wstep1. done.
Qed.

Lemma wp_iunlock (t : fstate BS) ip i Q :
  f_icache t !! ip = Some i → 1 ≤ i_ref i → i_flags i = 3 →
  Q tt (mkF (f_store t) (<[ip := i_set_flags I_VALID i]> (f_icache t))) → wp (iunlock ip) Q t.
Proof.
  intros Hip Hr Hf HQ. unfold iunlock. wstep1. eapply wp_geti; [done|].
  rewrite Hf, (proj2 (Z.ltb_ge _ _)) by lia. simpl. eapply wp_modi; [done|]. by rewrite Hf.
Qed.

(** One transaction of filewrite: the state after it, and the inode. *)
Record wrote_tx (t t' : fstate BS) (ip : nat) (i i' : inode) (off n : nat) (src : list Z) : Prop := mkWroteTx {
  wt_idle : idle t' ip i';
  wt_size : i_size i' = Z.max (i_size i) (Z.of_nat (off + n));
  wt_data : fdata (vw (f_store t')) i'
    = take off (fdata (vw (f_store t)) i) ++ take n src ++ drop (off + n) (fdata (vw (f_store t)) i);
  wt_type : i_type i' = i_type i;
  wt_home : t_home (bs_abs (f_store t')) = vw (f_store t');
  wt_cap : t_cap (bs_abs (f_store t')) = t_cap (bs_abs (f_store t));
  wt_space : (size (free_set (vw (f_store t)) sb) + indz i'
              ≤ size (free_set (vw (f_store t')) sb) + indz i + nblk off n)%nat }.

Lemma wp_write_tx t ip i src (off n : nat) Q :
  idle t ip i → i_type i ≠ T_DEV → Z.of_nat off ≤ i_size i → Z.of_nat (off + n) ≤ MAXFILE * BSIZE →
  (n ≤ length src)%nat → Forall is_byte src → (n ≤ 1536)%nat → sb_size sb ≤ BPB →
  7 ≤ t_cap (bs_abs (f_store t)) →
  (nblk off n + indz i ≤ size (free_set (vw (f_store t)) sb))%nat →
  (∀ t' i', wrote_tx t t' ip i i' off n src → Q t') →
  wp (sto bs_begin_trans) (λ _, wp (ilock ip) (λ _,
    wp (writei devsw ip src (Z.of_nat off) (Z.of_nat n)) (λ r t, r = Z.of_nat n ∧
      wp (iunlock ip) (λ _, wp (sto bs_commit_trans) (λ _, Q)) t))) t.
Proof.
  intros [Hwf Hok Hact Hheld Hpend Hip Hf Href Hfl Hin] Hty Ho Hmax Hn Hby Hch Hsb Hcap Hfree HQ.
  destruct t as [b c]. cbn [f_store f_icache] in *.
  apply wp_sto. eapply wp_mono; [by apply bs_begin_ok|].
  intros [] b1 (W1 & A1 & _). unfold set_store. cbn [f_store f_icache] in *.
  apply (wp_ilock_valid _ ip i); [done..|]. cbn [f_store f_icache].
  pose proof (mu_empty (i_set_flags 3 i) Hsb) as Hmu. pose proof (nblk_chunk off n Hch) as Hnb.
  assert (psecs b1 = ∅) as HP by (unfold psecs; rewrite A1; cbn [t_pend set_active]; by rewrite Hpend).
  assert (vw b1 = vw b) as HV by (unfold vw; by rewrite A1).
  assert (t_cap (bs_abs b1) = t_cap (bs_abs b)) as HC by (by rewrite A1).
  change (MAXFILE * BSIZE) with 71680 in Hmax.
  apply (wp_writei sb devsw _ ip (i_set_flags 3 i)); cbn [f_store f_icache]; rewrite ?HP, ?HV, ?HC, ?NBUF_eq;
    try done; try lia.
  - split; cbn [f_store f_icache]; rewrite ?HV; try done.
    + by rewrite A1.
    + unfold hd. rewrite A1. exact Hheld.
    + apply list_lookup_insert_eq. by eapply lookup_lt_Some.
    + by apply file_ok_flags.
  - intros t2 i2 [Hp2 (P2 & [T2 Hic2]) Hsecs Hsize Hdata Hfields _ Hspace].
    cbn [f_store f_icache] in *. pose proof Hp2 as [W2 Hok2 _ Hh2 Hip2 Hf2].
    split; [done|]. apply (wp_iunlock _ ip i2); [done|by rewrite Hfields|by rewrite Hfields|].
    apply wp_sto. eapply wp_mono; [by apply bs_commit_ok|]. cbn [f_store f_icache].
    intros [] b3 (W3 & A3 & _). apply (HQ _ (i_set_flags I_VALID i2)). unfold set_store.
    assert (vw b3 = vw (f_store t2)) as HV3 by (unfold vw; by rewrite A3).
    split; cbn [f_store f_icache]; rewrite ?HV3.
    + split; cbn [f_store f_icache]; rewrite ?HV3; try done.
      * by rewrite A3.
      * unfold hd. by rewrite A3.
      * by rewrite A3.
      * apply list_lookup_insert_eq. by eapply lookup_lt_Some.
      * by apply file_ok_flags.
      * by rewrite Hfields.
      * by rewrite Hfields.
    + done.
    + change (fdata (vw (f_store t2)) (i_set_flags I_VALID i2)) with (fdata (vw (f_store t2)) i2).
      rewrite Hdata, HV. done.
    + by rewrite Hfields.
    + by rewrite A3.
    + rewrite A3. cbn [t_cap]. rewrite (ts_cap _ _ _ _ _ T2). exact HC.
    + rewrite HV in Hspace. exact Hspace.
Qed.

(** [s'] is [s] after [k] bytes of [addr] were written at offset [off]. *)
Record fwrote (s s' : kstate BS) (f : nat) (v : file) (i i' : inode) (off k : nat) (addr : list Z) : Prop := mkFwrote {
  fw_idle : idle (k_fs s') (f_ip v) i';
  fw_table : k_ftable s' = <[f := fl_set_off (Z.of_nat (off + k)) v]> (k_ftable s);
  fw_size : i_size i' = Z.max (i_size i) (Z.of_nat (off + k));
  fw_data : fdata (vw (f_store (k_fs s'))) i'
    = take off (fdata (vw (f_store (k_fs s))) i) ++ take k addr ++ drop (off + k) (fdata (vw (f_store (k_fs s))) i);
  fw_type : i_type i' = i_type i;
  fw_cap : t_cap (bs_abs (f_store (k_fs s'))) = t_cap (bs_abs (f_store (k_fs s)));
  fw_rest : k_pipes s' = k_pipes s ∧ k_kmem s' = k_kmem s }.

Lemma wp_fs {A} (m : M (fstate BS) A) Q s : wp m (λ a t, Q a (set_fs t s)) (k_fs s) → wp (fs m) Q s.
Proof. apply wp_zoom. Qed.

Lemma wp_getf f v Q (s : kstate BS) : k_ftable s !! f = Some v → Q v s → wp (getf f) Q s.
Proof. intros Hf HQ. unfold wp, getf. by rewrite Hf. Qed.

Lemma wp_modf f v g Q (s : kstate BS) :
  k_ftable s !! f = Some v → Q tt (set_ftable (<[f := g v]> (k_ftable s)) s) → wp (modf f g) Q s.
Proof.
  intros Hf HQ. unfold modf. wstep1. eapply wp_getf; [done|]. apply wp_modify.
  by rewrite (alter_at _ _ _ v).
Qed.

Lemma fwrote_0 s f v i off addr :
  k_ftable s !! f = Some v → f_off v = Z.of_nat off → idle (k_fs s) (f_ip v) i → Z.of_nat off ≤ i_size i →
  fwrote s s f v i i off 0 addr.
Proof.
  intros Hf Ho Hi Hle. split; try done.
  - rewrite Nat.add_0_r, <- Ho. symmetry. apply list_insert_id. rewrite Hf. by destruct v.
  - lia.
  - by rewrite Nat.add_0_r, take_0, app_nil_l, take_drop.
Qed.

Lemma wp_filewrite_loop fuel s0 s f v i0 i (off k n : nat) addr Q :
  (f < length (k_ftable s0))%nat → fwrote s0 s f v i0 i off k addr → i_type i0 ≠ T_DEV →
  0 ≤ i_size i0 → Z.of_nat off ≤ i_size i0 → Z.of_nat (off + n) ≤ 71680 →
  (k ≤ n ≤ length addr)%nat → Forall is_byte addr → sb_size sb ≤ BPB →
  7 ≤ t_cap (bs_abs (f_store (k_fs s0))) →
  (nblk (off + k) (n - k) + (n - k) / 1536 + 1 + indz i ≤ size (free_set (vw (f_store (k_fs s))) sb))%nat →
  (n - k < fuel)%nat →
  (∀ s' i', fwrote s0 s' f v i0 i' off n addr → Q (Z.of_nat n) s') →
  wp (filewrite_loop devsw fuel f addr (Z.of_nat k) (Z.of_nat n)) Q s.
Proof.
  revert s i k. induction fuel as [|fuel IH];
    intros s i k Hf0 Hw Hty Hs0 Ho Hmax Hk Hby Hsb Hcap Hfree Hfuel HQ; [lia|].
  cbn [filewrite_loop]. destruct (Z.ltb_spec (Z.of_nat k) (Z.of_nat n)) as [Hlt|Hge].
  2: { wstep1. replace n with k in * by lia. by eapply HQ. }
  set (m := Nat.min (n - k) 1536).
  assert ((if FW_MAX <? Z.of_nat n - Z.of_nat k then FW_MAX else Z.of_nat n - Z.of_nat k) = Z.of_nat m) as ->.
  { change FW_MAX with 1536. unfold m. destruct (Z.ltb_spec 1536 (Z.of_nat n - Z.of_nat k)); lia. }
  pose proof Hw as [Hid Htab Hsz Hda Hti Hcp [Hpi Hkm]].
  assert (k_ftable s !! f = Some (fl_set_off (Z.of_nat (off + k)) v)) as Hf
    by (rewrite Htab; by apply list_lookup_insert_eq).
  assert (0 < m ≤ 1536)%nat as Hm by (unfold m; lia). assert (m ≤ n - k)%nat as Hmn by (unfold m; lia).
  pose proof (nblk_split (off + k) m (n - k - m)) as Hsplit. replace (m + (n - k - m))%nat with (n - k)%nat in Hsplit by lia.
  assert (nblk (off + k) m ≤ nblk (off + k) (n - k) + 1)%nat as Hmono by lia.
  rewrite Nat2Z.id. cbv zeta. wstep1. eapply wp_getf; [done|]. cbn [f_ip f_off fl_set_off].
  assert (wp (sto bs_begin_trans) (λ _, wp (ilock (f_ip v)) (λ _,
    wp (writei devsw (f_ip v) (drop k addr) (Z.of_nat (off + k)) (Z.of_nat m)) (λ r t, r = Z.of_nat m ∧
      wp (iunlock (f_ip v)) (λ _, wp (sto bs_commit_trans) (λ _ t',
        ∃ i', wrote_tx (k_fs s) t' (f_ip v) i i' (off + k) m (drop k addr))) t))) (k_fs s)) as Htx.
  { assert (i_type i ≠ T_DEV) by (by rewrite Hti).
    assert (7 ≤ t_cap (bs_abs (f_store (k_fs s)))) by (by rewrite Hcp).
    apply (wp_write_tx (k_fs s) (f_ip v) i); try done; try lia.
    - change (MAXFILE * BSIZE) with 71680. lia.
    - rewrite length_drop. lia.
    - by apply Forall_drop.
    - eauto. }
  wstep1. apply wp_fs. eapply wp_mono; [exact Htx|]. intros [] t1 H1.
  wstep1. apply wp_fs. eapply wp_mono; [exact H1|]. intros [] t2 H2.
  wstep1. apply wp_fs. eapply wp_mono; [exact H2|]. intros r t3 [-> H3].
  rewrite (proj2 (Z.ltb_lt 0 (Z.of_nat m))) by lia.
  wstep1. eapply wp_modf; [exact Hf|]. rewrite u32_small by lia.
  wstep1. apply wp_fs. eapply wp_mono; [exact H3|]. intros [] t4 H4.
  wstep1. apply wp_fs. eapply wp_mono; [exact H4|]. intros [] t5 (i' & [Hid' Hsz' Hda' Hty' _ Hcap' Hsp']).
  rewrite (proj2 (Z.ltb_ge (Z.of_nat m) 0)), Z.eqb_refl by lia. cbn [negb].
  rewrite <- Nat2Z.inj_add in *. apply (IH _ i'); try done; try lia.
  - split; try done; cbn [k_fs k_ftable k_pipes k_kmem set_fs set_ftable].
    + rewrite Htab, list_insert_insert_eq. 
      by replace (Z.of_nat (off + k) + Z.of_nat m) with (Z.of_nat (off + (k + m))) by lia.
    + rewrite Hsz', Hsz. lia.
    + rewrite Hda', Hda. apply chunk_data; [rewrite length_fdata; lia|lia].
    + congruence.
    + congruence.
  - cbn [k_fs set_fs set_ftable]. replace (off + (k + m))%nat with (off + k + m)%nat by lia.
    replace (n - (k + m))%nat with (n - k - m)%nat by lia.
    destruct (decide (n - k ≤ 1536)%nat) as [Hlast|Hmore].
    + replace m with (n - k)%nat in * by (unfold m; lia). rewrite Nat.sub_diag.
      change (nblk (off + k + (n - k)) 0) with 0%nat. change (0 / 1536)%nat with 0%nat. lia.
    + replace m with 1536%nat in * by (unfold m; lia).
      assert ((n - k) / 1536 = S ((n - k - 1536) / 1536))%nat; [|lia].
      replace (n - k)%nat with (1 * 1536 + (n - k - 1536))%nat at 1 by lia.
      by rewrite Nat.div_add_l.
Qed.

(** Between transactions the current contents are the durable ones. *)
Lemma idle_home t ip i : idle t ip i → t_home (bs_abs (f_store t)) = vw (f_store t).
Proof.
  intros [Hwf _ _ Hheld Hpend _ _ _ _ _]. destruct (bs_view_wf _ Hwf) as (_ & Hlen & _).
  apply list_eq. intros k. destruct (decide (k < length (vw (f_store t)))%nat) as [Hk|Hk].
  - pose proof (bs_coherent (f_store t) (Z.of_nat k) Hwf) as Hc. unfold t_clean in Hc.
    rewrite Hpend, Nat2Z.id in Hc. symmetry. apply Hc; [unfold t_inrange, vw in *; lia|by apply fresh_empty].
  - rewrite !lookup_ge_None_2; [done|unfold vw in *; lia..].
Qed.

(** filewrite writes any number of bytes: for every n up to the largest file
    size it splits the write into transactions of at most 1536 bytes, none of
    which overflows the log or runs out of buffers (a log of 7 blocks and one
    bitmap block suffice), and returns n; the file holds the new bytes from its
    offset on and the old ones elsewhere, the offset has moved by n, nothing is
    left locked or in a transaction, and the contents are durable: they are what
    recovery restores after a crash. *)
Lemma wp_filewrite killed s f v i (off n : nat) addr :
  k_ftable s !! f = Some v → f_type v = FD_INODE → f_writable v = true → f_off v = Z.of_nat off →
  idle (k_fs s) (f_ip v) i → i_type i ≠ T_DEV → Z.of_nat off ≤ i_size i →
  Z.of_nat (off + n) ≤ MAXFILE * BSIZE → n = length addr → Forall is_byte addr →
  sb_size sb ≤ BPB → 7 ≤ t_cap (bs_abs (f_store (k_fs s))) →
  (nblk off n + n / 1536 + 1 + indz i ≤ size (free_set (vw (f_store (k_fs s))) sb))%nat →
  wp (filewrite devsw killed f addr (Z.of_nat n)) (λ r s', r = Z.of_nat n ∧
    (∃ i', fwrote s s' f v i i' off n addr) ∧
    t_home (bs_abs (f_store (k_fs s'))) = vw (f_store (k_fs s'))) s.
Proof.
  intros Hf Hty Hwr Hoff Hid Hdev Ho Hmax Hn Hby Hsb Hcap Hfree.
  pose proof (fo_size _ _ _ (id_file _ _ _ Hid)) as Hs.
  unfold filewrite. wstep1. eapply wp_getf; [done|]. rewrite Hwr, Hty. cbn [negb]. wstep1.
  apply (wp_filewrite_loop _ s s f v i i off 0 n addr); try done; try lia.
  - by eapply lookup_lt_Some.
  - by apply fwrote_0.
  - by rewrite Nat.add_0_r, Nat.sub_0_r.
  - intros s' i' Hw. wstep1. rewrite Z.eqb_refl. split_and!; [done|by exists i'|].
    eapply idle_home, Hw.
Qed.

(** fileread on a file returns the bytes from the offset on, as many as asked
    for or as there are, advances the offset by that number, and leaves the
    disk, the inode and its lock as they were.  The count is taken as unsigned. *)
Lemma wp_fileread killed s f v i n :
  k_ftable s !! f = Some v → f_type v = FD_INODE → f_readable v = true →
  0 ≤ f_off v ≤ i_size i → idle (k_fs s) (f_ip v) i → i_type i ≠ T_DEV → f_off v + u32 n < 2 ^ 32 →
  wp (fileread devsw killed f n) (λ r s',
    r = (Z.min (u32 n) (i_size i - f_off v),
         slice (fdata (vw (f_store (k_fs s))) i) (Z.to_nat (f_off v)) (Z.to_nat (Z.min (u32 n) (i_size i - f_off v)))) ∧
    k_ftable s' = <[f := fl_set_off (f_off v + r.1) v]> (k_ftable s) ∧
    f_icache (k_fs s') = f_icache (k_fs s) ∧ same (f_store (k_fs s)) (f_store (k_fs s')) ∧
    k_pipes s' = k_pipes s ∧ k_kmem s' = k_kmem s) s.
Proof.
  intros Hf Hty Hrd Hoff Hid Hdev Hn. pose proof Hid as [Hwf Hok Hact Hheld Hpend Hip Hfo Href Hfl Hin].
  pose proof (fo_size _ _ _ Hfo) as Hs. change (MAXFILE * BSIZE) with 71680 in Hs.
  unfold fileread. wstep1. eapply wp_getf; [done|]. rewrite Hrd, Hty. cbn [negb].
  pose proof (u32_range n) as Hun. set (n' := u32 n) in *. clearbody n'. clear n.
  wstep1. apply wp_fs, (wp_ilock_valid _ (f_ip v) i); [done..|]. wstep1. apply wp_fs.
  pose proof (lookup_lt_Some _ _ _ Hip) as Hlt.
  apply (wp_readi sb devsw _ (f_ip v) (i_set_flags 3 i)); cbn [k_fs set_fs f_store f_icache].
  - split; cbn [f_store f_icache]; try done; [|by apply list_lookup_insert_eq|by apply file_ok_flags].
    assert (psecs (f_store (k_fs s)) = ∅) as -> by (unfold psecs; by rewrite Hpend).
    rewrite size_empty. rewrite NBUF_eq. lia.
  - done.
  - simpl. lia.
  - lia.
  - lia.
  - intros b' Hb. cbv zeta. cbn [i_size i_set_flags].
    change (fdata (vw (f_store (k_fs s))) (i_set_flags 3 i)) with (fdata (vw (f_store (k_fs s))) i).
    set (m := Z.min n' (i_size i - f_off v)). wstep1. cbn [fst].
    assert (wp (if 0 <? m then modf f (fl_set_off (u32 (f_off v + m))) else ret tt)
      (λ _ s', s' = set_ftable (<[f := fl_set_off (f_off v + m) v]> (k_ftable s))
        (set_fs (mkF b' (<[f_ip v := i_set_flags 3 i]> (f_icache (k_fs s)))) s))
      (set_fs (mkF b' (<[f_ip v := i_set_flags 3 i]> (f_icache (k_fs s)))) s)) as Hoffset.
    { destruct (Z.ltb_spec 0 m) as [Hpos|Hz].
      - eapply wp_modf; [done|]. rewrite u32_small by lia. done.
      - wstep1. assert (m = 0) as -> by lia. rewrite Z.add_0_r.
        rewrite (list_insert_id (k_ftable s) f); [by destruct s|]. rewrite Hf. by destruct v. }
    eapply wp_mono; [exact Hoffset|]. intros [] s' ->.
    wstep1. apply wp_fs, (wp_iunlock _ (f_ip v) (i_set_flags 3 i)); [by apply list_lookup_insert_eq|done..|].
    wstep1. cbn [k_ftable k_fs set_fs set_ftable f_icache f_store fst]. split_and!; try done.
    rewrite list_insert_insert_eq. apply list_insert_id. rewrite Hip. f_equal. rewrite <- Hfl. by destruct i.
Qed.
End filewrite.


(** ** The file table *)
Section table.
Context {BS : BlockStore} (kend : Z).

(** An entry that is not in use has type FD_NONE. *)
Definition table_ok (l : list file) : Prop := Forall (λ f, 0 ≤ f_ref f ∧ (f_ref f = 0 → f_type f = FD_NONE)) l.

Lemma unused_file_spec l :
  match unused_file l with
  | Some k => ∃ f, l !! k = Some f ∧ f_ref f = 0 ∧ ∀ j f', (j < k)%nat → l !! j = Some f' → f_ref f' ≠ 0
  | None => Forall (λ f, f_ref f ≠ 0) l
  end.
Proof.
  unfold unused_file. destruct (list_find _ l) as [[k f]|] eqn:Hf; simpl.
  - apply list_find_Some in Hf as (Hk & H0 & Hlt). exists f. split_and!; try done. intros j f' Hj Hl. by eapply Hlt.
  - by apply list_find_None in Hf.
Qed.

Lemma wp_filealloc (s : kstate BS) Q :
  match unused_file (k_ftable s) with
  | Some k => ∀ f, k_ftable s !! k = Some f → f_ref f = 0 →
      Q (Some k) (set_ftable (<[k := fl_set_ref 1 f]> (k_ftable s)) s)
  | None => Q None s
  end → wp filealloc Q s.
Proof.
  intros HQ. unfold filealloc. wstep1. wstep1. pose proof (unused_file_spec (k_ftable s)) as Hu.
  destruct (unused_file (k_ftable s)) as [k|]; [|done]. destruct Hu as (f & Hf & H0 & _).
  wstep1. eapply wp_modf; [done|]. wstep1. by apply HQ.
Qed.

(** Giving back an entry that was just allocated. *)
Lemma wp_fileclose_new (s : kstate BS) k f l Q :
  k_ftable s = <[k := fl_set_ref 1 f]> l → l !! k = Some f → f_ref f = 0 → f_type f = FD_NONE →
  Q tt (set_ftable l s) → wp (fileclose kend k) Q s.
Proof.
  intros Hl Hf H0 Ht HQ. pose proof (lookup_lt_Some _ _ _ Hf) as Hlt.
  assert (k_ftable s !! k = Some (fl_set_ref 1 f)) as Hk by (rewrite Hl; by apply list_lookup_insert_eq).
  unfold fileclose. wstep1. eapply wp_getf; [done|]. cbn [f_ref fl_set_ref]. simpl.
  wstep1. eapply wp_modf; [done|]. rewrite Ht. wstep1.
  rewrite Hl, list_insert_insert_eq, list_insert_id; [done|]. rewrite Hf. f_equal. rewrite <- Ht, <- H0. by destruct f.
Qed.

(** filedup and fileclose count references: a fileclose after a filedup
    leaves every file, pipe and inode as it was; filedup and fileclose of an
    entry that is not in use panic. *)
Theorem filedup_fileclose (s : kstate BS) f v :
  k_ftable s !! f = Some v →
  (1 ≤ f_ref v → (filedup f ;;; fileclose kend f) s = Ok tt s) ∧
  (f_ref v < 1 → filedup f s = Panic "filedup" ∧ fileclose kend f s = Panic "fileclose").
Proof.
  intros Hf. pose proof (lookup_lt_Some _ _ _ Hf) as Hlt. split.
  - intros Hr. assert (wp (filedup f ;;; fileclose kend f) (λ _ s', s' = s) s) as Hw.
    { unfold filedup, fileclose. wstep1. wstep1. eapply wp_getf; [done|].
      rewrite (proj2 (Z.ltb_ge _ _)) by lia. wstep1. eapply wp_modf; [done|]. wstep1.
      wstep1. eapply wp_getf; [by apply list_lookup_insert_eq|]. cbn [f_ref fl_set_ref].
      rewrite (proj2 (Z.ltb_ge _ _)), (proj2 (Z.ltb_lt _ _)) by lia.
      eapply wp_modf; [by apply list_lookup_insert_eq|]. cbn [k_ftable set_ftable].
      rewrite list_insert_insert_eq, list_insert_id; [by destruct s|]. rewrite Hf.
      unfold fl_set_ref. cbn [f_type f_ref f_readable f_writable f_pipe f_ip f_off].
      replace (f_ref v + 1 - 1) with (f_ref v) by lia. by destruct v. }
    unfold wp in Hw. destruct ((filedup f ;;; fileclose kend f) s) as [[] s'| | |]; try done. by subst.
  - intros Hr. unfold filedup, fileclose, bind, getf. rewrite Hf. simpl.
    by rewrite (proj2 (Z.ltb_lt _ _)) by lia.
Qed.

Lemma wp_pipe_bad2 (s : kstate BS) l r w fr fw Q :
  k_ftable s = <[w := fl_set_ref 1 fw]> (<[r := fl_set_ref 1 fr]> l) → r ≠ w →
  l !! r = Some fr → l !! w = Some fw → f_ref fr = 0 → f_ref fw = 0 →
  f_type fr = FD_NONE → f_type fw = FD_NONE →
  Q None (set_ftable l s) → wp (pipe_bad kend 0 (Some r) (Some w)) Q s.
Proof.
  intros Hl Hne Hr Hw H0 H1 Ht0 Ht1 HQ. unfold pipe_bad. cbn [Z.eqb]. wstep1. wstep1. wstep1.
  apply (wp_fileclose_new _ r fr (<[w := fl_set_ref 1 fw]> l)); [|by rewrite list_lookup_insert_ne|done|done|].
  { by rewrite Hl, list_insert_insert_ne. }
  wstep1. apply (wp_fileclose_new _ w fw l); [done|done|done|done|]. wstep1. exact HQ.
Qed.

Lemma wp_page_read p pg Q s : km_pages s !! p = Some pg → Q pg s → wp (on_page p (gets id)) Q s.
Proof.
  intros Hp HQ. unfold wp, on_page, gets. rewrite Hp, insert_id by done. unfold set_pages. by destruct s.
Qed.

(** pipealloc takes two free file entries and a page and makes them the two
    ends of an empty pipe, one to read and one to write; when entries or memory
    run out it returns an error and gives back what it took: the whole state is
    as before. *)
Theorem pipealloc_correct (s : kstate BS) free :
  table_ok (k_ftable s) → kmem_ok kend (k_kmem s) free →
  wp (pipealloc kend) (λ o s', match o with
    | Some (r, w) => ∃ p rest pg fr fw, free = p :: rest ∧ kmem_ok kend (k_kmem s') rest ∧ r ≠ w ∧
        k_ftable s !! r = Some fr ∧ k_ftable s !! w = Some fw ∧ f_ref fr = 0 ∧ f_ref fw = 0 ∧
        k_ftable s' = <[w := fl_pipe false true p (fl_set_ref 1 fw)]>
                        (<[r := fl_pipe true false p (fl_set_ref 1 fr)]> (k_ftable s)) ∧
        k_pipes s' = <[p := mkPipe pg 0 0 true true]> (k_pipes s) ∧ length pg = 512%nat ∧ k_fs s' = k_fs s
    | None => s' = s
    end) s.
Proof.
  intros Htab Hkm. unfold pipealloc. wstep1. apply wp_filealloc.
  pose proof (unused_file_spec (k_ftable s)) as Hu.
  destruct (unused_file (k_ftable s)) as [r|]; [|by wstep]. intros fr Hr Hr0.
  destruct (Forall_lookup_1 _ _ _ _ Htab Hr) as [_ Hrt]. specialize (Hrt Hr0).
  pose proof (lookup_lt_Some _ _ _ Hr) as Hrl.
  wstep1. apply wp_filealloc. cbn [k_ftable set_ftable].
  set (l1 := <[r := fl_set_ref 1 fr]> (k_ftable s)). pose proof (unused_file_spec l1) as Hu1.
  destruct (unused_file l1) as [w|].
  2: { unfold pipe_bad. cbn [Z.eqb]. wstep1. wstep1. wstep1.
       apply (wp_fileclose_new _ r fr (k_ftable s)); [done..|]. wstep1. wstep1. wstep1. by destruct s. }
  intros fw Hw Hw0. assert (r ≠ w) as Hne.
  { intros <-. unfold l1 in Hw. rewrite list_lookup_insert_eq in Hw by done. by simplify_eq. }
  unfold l1 in Hw. rewrite list_lookup_insert_ne in Hw by done.
  destruct (Forall_lookup_1 _ _ _ _ Htab Hw) as [_ Hwt]. specialize (Hwt Hw0).
  pose proof (lookup_lt_Some _ _ _ Hw) as Hwl.
  wstep1. apply wp_zoom. cbn [k_kmem set_ftable]. destruct free as [|p rest].
  - unfold wp. rewrite (kalloc_empty kend) by done. cbn [Z.eqb].
    apply (wp_pipe_bad2 _ (k_ftable s) r w fr fw); try done. by destruct s.
  - apply (wp_kalloc kend _ p rest); [done|]. intros km' Hkm' Hpages.
    pose proof Hkm as [Hpw (_ & Hpok & pg & next & Hpg & [Hpgw _] & _) _].
    rewrite (proj2 (Z.eqb_neq p 0)) by (by apply (page_ok_nonzero kend)).
    wstep1. apply wp_zoom, (wp_page_read p pg); [cbn [k_kmem set_km]; by rewrite Hpages|].
    unfold putp. wstep1. wstep1. wstep1. eapply wp_modf.
    { cbn [k_ftable set_pipes set_km set_ftable]. rewrite list_lookup_insert_ne by done.
      by apply list_lookup_insert_eq. }
    wstep1. eapply wp_modf.
    { cbn [k_ftable set_pipes set_km set_ftable]. rewrite list_lookup_insert_ne by done.
      apply list_lookup_insert_eq. unfold l1; by rewrite length_insert. }
    wstep1. exists p, rest, (slice pg PIPE_DATA 512), fr, fw. cbn [k_ftable k_pipes k_fs k_kmem set_pipes set_km set_ftable].
    split_and!; try done.
    + unfold l1. rewrite (list_insert_insert_ne _ r w) by done. by rewrite !list_insert_insert_eq.
    + apply length_slice. destruct Hpgw as [-> _]. unfold PIPE_DATA. lia.
Qed.
End table.

(** ** Witnesses: an empty file open for reading and writing *)
Definition ex_ifree : inode := i_set_flags I_VALID ex_inode.
Definition ex_file : file := mkFile FD_INODE 1 true true 0 0 0.
Definition ex_kstate (b : lstate) : kstate log_store :=
  mkK (mkF (BS := log_store) b [ex_ifree]) [ex_file; file0; file0] ∅
    (mkKmem true ex_p1 {[ex_p1 := put_u32 (replicate 4096 1) 0 0]}).
Definition ex_write : list Z := [104; 105].

Lemma ex_idle :
  ∃ b : lstate, idle (BS := log_store) ex_sb (k_fs (ex_kstate b)) 0 ex_ifree ∧ t_cap (labs b) = 7 ∧
    vw (BS := log_store) b = ex_view.
Proof.
  destruct ex_boot as (b & Hb & Hl). exists b.
  assert (vw (BS := log_store) b = ex_view) as Hv by (change (t_view (labs b) = ex_view); by rewrite Hl).
  split_and!; [|by rewrite Hl|done]. split; cbn [k_fs ex_kstate f_store f_icache]; rewrite ?Hv; try done.
  - apply ex_disk_ok.
  - change (t_active (labs b) = false). by rewrite Hl.
  - change (t_held (labs b) = ∅). by rewrite Hl.
  - change (t_pend (labs b) = []). by rewrite Hl.
  - apply file_ok_flags, ex_file_ok.
Qed.

(** Witness of filedup_fileclose. *)
Lemma filedup_fileclose_witness :
  ∃ b : lstate, (filedup 0 ;;; fileclose ex_kend 0) (ex_kstate b) = Ok tt (ex_kstate b) ∧
    filedup 1 (ex_kstate b) = Panic "filedup".
Proof.
  destruct ex_idle as (b & _). exists b. split.
  - apply (filedup_fileclose ex_kend (ex_kstate b) 0 ex_file); done.
  - apply (filedup_fileclose ex_kend (ex_kstate b) 1 file0); done.
Defined.

(** Witness of pipealloc_correct. *)
Lemma pipealloc_correct_witness :
  ∃ (b : lstate) o s', pipealloc (BS := log_store) ex_kend (ex_kstate b) = Ok o s'.
Proof.
  destruct ex_idle as (b & _). exists b.
  assert (free_page (put_u32 (replicate 4096 1) 0 0) 0) as Hfp by (apply (junk_page ex_page); [apply ex_page_wf|lia]).
  assert (kmem_ok ex_kend (k_kmem (ex_kstate b)) [ex_p1]) as Hkm.
  { split; cbn [k_kmem ex_kstate km_pages km_freelist].
    - apply map_Forall_singleton. apply Hfp.
    - split_and!; [done|apply ex_pages_ok|]. eexists _, 0. split_and!; [apply lookup_singleton_eq|done|done].
    - apply NoDup_singleton. }
  destruct (wp_run _ _ _ (pipealloc_correct ex_kend (ex_kstate b) [ex_p1] ltac:(by repeat constructor) Hkm))
    as (o & s' & Hrun & _).
  exists o, s'. exact Hrun.
Defined.
