(* ===== verification/FsPath.v ===== *)
(** * Path names (fs.c: skipelem, namex, namei, nameiparent)

    What a path denotes on the disk, [resolve] and [resolve_parent], and that
    namex finds it: through the inode cache, locking one inode at a time, with
    every reference it takes given back but the one it returns. *)
From stdpp Require Import base list gmap numbers option strings sets.
From Stdlib Require Import ZArith Lia.
From S2P Require Import Prelude Kstring Layout Bio BioSpec BlockStore Log LogSpec Commit.
From S2P Require Import Fs FsTx FsBlocks FsInode FsBmap FsRead FsWrite FsExample FsDir.
From S2P Require Import Kalloc Pipe File FileSpec.
Open Scope Z_scope.

(** ** The elements of a path *)
(** The first element, up to a slash or the end, and the elements after it. *)
Fixpoint words (path : list Z) : list Z * list (list Z) :=
  match path with
  | [] => ([], [])
  | c :: path =>
    if c =? 0 then ([], [])
    else if c =? SLASH then ([], let w := words path in match w.1 with [] => w.2 | _ => w.1 :: w.2 end)
    else let w := words path in (c :: w.1, w.2)
  end.
Definition components (path : list Z) : list (list Z) :=
  let w := words path in match w.1 with [] => w.2 | _ => w.1 :: w.2 end.

(** The array name holds the element [s], cut to DIRSIZ characters. *)
Definition name_is (name s : list Z) : Prop := length name = 14%nat ∧ take 14 (cstr name) = take 14 s.

(** ** The files on the disk *)
Definition ino (inum : Z) (d : dinode) : inode :=
  mkInode ROOTDEV inum 0 0 (di_type d) (di_major d) (di_minor d) (di_nlink d) (di_size d) (di_addrs d).
(** The dinode with number [k]. *)
Definition dnode (v : list block) (k : Z) : dinode :=
  get_dinode (v !!! Z.to_nat (IBLOCK k)) (Z.to_nat (k mod IPB)).
Definition inode_at (v : list block) (k : Z) : inode := ino k (dnode v k).
Definition dir_at (v : list block) (k : Z) : list dirent := entries (fdata v (inode_at v k)).

(** An inode number of the disk that is in use. *)
Definition in_use (v : list block) (sb : superblock) (k : Z) : Prop :=
  0 < k < sb_ninodes sb ∧ di_type (dnode v k) ≠ 0.

(** A consistent file system: every inode in use is a well-formed file with a
    link, and every entry of a directory names an inode in use. *)
Record fs_ok (v : list block) (sb : superblock) : Prop := {
  fk_disk : disk_ok v sb;
  fk_inodes k : 0 < k < sb_ninodes sb → is_Some (v !! Z.to_nat (IBLOCK k));
  fk_root : in_use v sb ROOTINO;
  fk_file k : in_use v sb k → file_ok v sb (inode_at v k) ∧ 0 < di_nlink (dnode v k);
  fk_dir k : in_use v sb k → di_type (dnode v k) = T_DIR → ∃ n : nat, di_size (dnode v k) = 16 * Z.of_nat n;
  fk_entry k de : in_use v sb k → di_type (dnode v k) = T_DIR → de ∈ dir_at v k → de_inum de ≠ 0 →
    in_use v sb (de_inum de) }.

(** The inode a list of elements leads to from inode [k]; with [parent], the
    directory that holds the last element. *)
Fixpoint resolve (v : list block) (parent : bool) (k : Z) (path : list (list Z)) : option Z :=
  match path with
  | [] => if parent then None else Some k
  | s :: path =>
    if negb (di_type (dnode v k) =? T_DIR) then None
    else match parent, path with
         | true, [] => Some k
         | _, _ => e ← list_find (names s) (dir_at v k); resolve v parent (de_inum e.2) path
         end
  end.

(** ** Elements, as skipelem finds them *)
Lemma components_slash p : components (SLASH :: p) = components p.
Proof. done. Qed.
Lemma components_skip p : components (skip_slashes p) = components p.
Proof.
  induction p as [|c p IH]; [done|]. cbn [skip_slashes]. destruct (Z.eqb_spec c SLASH) as [->|Hc]; [|done].
  by rewrite components_slash.
Qed.
Lemma skip_slashes_head p : deref (skip_slashes p) ≠ SLASH.
Proof. induction p as [|c p IH]; [done|]. cbn [skip_slashes]. by destruct (Z.eqb_spec c SLASH). Qed.
Lemma length_skip p : (length (skip_slashes p) ≤ length p)%nat.
Proof. induction p as [|c p IH]; [done|]. cbn [skip_slashes length]. destruct (c =? SLASH); cbn [length]; lia. Qed.

Lemma words_elem p : words p = ((take_elem p).1, components (take_elem p).2).
Proof.
  induction p as [|c p IH]; [done|]. cbn [words take_elem].
  destruct (Z.eqb_spec c 0) as [->|H0]; [done|]. destruct (Z.eqb_spec c SLASH) as [->|H1]; [done|].
  cbn [orb fst snd]. by rewrite IH.
Qed.
Lemma components_elem p : (take_elem p).1 ≠ [] → components p = (take_elem p).1 :: components (take_elem p).2.
Proof. intros H. unfold components at 1. rewrite words_elem. cbn [fst snd]. by destruct (take_elem p).1. Qed.
Lemma take_elem_nonzero p : Forall (λ c, c ≠ 0) (take_elem p).1.
Proof.
  induction p as [|c p IH]; [done|]. cbn [take_elem]. destruct (Z.eqb_spec c SLASH) as [->|H1]; [done|].
  destruct (Z.eqb_spec c 0) as [->|H0]; [done|]. by constructor.
Qed.
Lemma take_elem_length p : (length (take_elem p).1 + length (take_elem p).2 = length p)%nat.
Proof. induction p as [|c p IH]; [done|]. cbn [take_elem]. destruct ((c =? SLASH) || (c =? 0)); cbn [fst snd length]; lia. Qed.

Lemma splice_name name s :
  length name = 14%nat → Forall (λ c, c ≠ 0) s →
  name_is (if DIRSIZ <=? Z.of_nat (length s) then splice name 0 (take (Z.to_nat DIRSIZ) s)
           else splice name 0 (s ++ [0])) s.
Proof.
  intros Hl Hs. change (Z.to_nat DIRSIZ) with 14%nat. change DIRSIZ with 14.
  destruct (Z.leb_spec 14 (Z.of_nat (length s))) as [Hge|Hlt].
  - rewrite splice_full by (rewrite length_take; lia). split; [rewrite length_take; lia|].
    rewrite cstr_id by (by apply Forall_take). by rewrite take_take.
  - split; [rewrite length_splice; [done|]; rewrite length_app; simpl; lia|].
    unfold splice. rewrite take_0, app_nil_l, <- app_assoc. exact (f_equal (take 14) (cstr_app_zero s _ Hs)).
Qed.

(** One call of skipelem takes off the first element. *)
Lemma skipelem_spec path name :
  length name = 14%nat →
  match skipelem path name with
  | None => components path = []
  | Some (path', name') => ∃ s, components path = s :: components path' ∧ Forall (λ c, c ≠ 0) s ∧ name_is name' s ∧
      (length path' < length path)%nat ∧ (deref path' = 0 ↔ components path' = [])
  end.
Proof.
  intros Hl. unfold skipelem. rewrite <- (components_skip path). pose proof (length_skip path) as Hlen.
  pose proof (skip_slashes_head path) as Hh. set (p := skip_slashes path) in *. clearbody p.
  destruct (Z.eqb_spec (deref p) 0) as [H0|H0].
  { destruct p as [|c p]; [done|]. cbn in H0. subst c. done. }
  assert ((take_elem p).1 ≠ []) as Hne.
  { destruct p as [|c p]; [done|]. cbn in H0, Hh. cbn [take_elem].
    by rewrite (proj2 (Z.eqb_neq c SLASH)), (proj2 (Z.eqb_neq c 0)) by done. }
  exists (take_elem p).1. rewrite components_skip. split_and!.
  - by apply components_elem.
  - apply take_elem_nonzero.
  - apply splice_name; [done|apply take_elem_nonzero].
  - pose proof (take_elem_length p). pose proof (length_skip (take_elem p).2).
    destruct (take_elem p).1; [done|]. cbn [length] in *. lia.
  - set (q := (take_elem p).2). clearbody q. rewrite <- components_skip.
    pose proof (skip_slashes_head q) as Hq. set (r := skip_slashes q) in *. clearbody r.
    destruct r as [|c r]; [done|]. cbn in Hq. unfold components. cbn [words deref head from_option id].
    destruct (Z.eqb_spec c 0) as [->|Hc]; [done|]. rewrite (proj2 (Z.eqb_neq c SLASH)) by done. done.
Qed.

Lemma names_ext name s de : name_is name s → Forall (λ c, c ≠ 0) s → names name de ↔ names s de.
Proof. intros [_ Hn] Hs. unfold names. by rewrite !namecmp_zero, Hn, (cstr_id s). Qed.

(** ** The inode cache *)
#[local] Opaque get_dinode.
Section cache.
Context {BS : BlockStore} (sb : superblock) (devsw : devsw_t (fstate BS)) (v : list block).

(** A cache entry in use holds an inode in use of the disk; it is not locked
    unless [locked], and when valid it agrees with the disk. *)
Definition entry_ok (locked : bool) (j : inode) : Prop :=
  0 ≤ i_ref j ∧ (0 < i_ref j → i_dev j = ROOTDEV ∧ in_use v sb (i_inum j) ∧
    ((i_flags j = 0 ∧ locked = false) ∨
     (i_flags j = (if locked then 3 else I_VALID) ∧ i_load (dnode v (i_inum j)) j = j))).

(** The references to entry [k] among those listed. *)
Definition leases (k : nat) (l : list (nat * Z)) : Z := Z.of_nat (length (filter (λ e, e.1 = k) l)).

(** The cache [c] is [c0] with the references [l] (entry, inode number) added
    and with entry [lk] locked; no entry in use has been given up. *)
Record leased (c0 c : list inode) (l : list (nat * Z)) (lk : option nat) : Prop := {
  ls_ok k j : c !! k = Some j → entry_ok (bool_decide (lk = Some k)) j;
  ls_len : length c = length c0;
  ls_refs k j0 j : c0 !! k = Some j0 → c !! k = Some j →
    i_ref j = i_ref j0 + leases k l ∧ (0 < i_ref j0 → i_inum j = i_inum j0);
  ls_old : Forall (λ j, 0 ≤ i_ref j) c0;
  ls_held k n : (k, n) ∈ l → ∃ j, c !! k = Some j ∧ i_inum j = n ∧ 0 < i_ref j;
  ls_lock k : lk = Some k → ∃ n, (k, n) ∈ l }.

(** Entry [k] has the state [j'] after an operation on it. *)
Lemma leased_set c0 c l lk l' lk' k j j' :
  leased c0 c l lk → c !! k = Some j →
  entry_ok (bool_decide (lk' = Some k)) j' →
  (∀ k', k' ≠ k → (lk' = Some k' ↔ lk = Some k') ∧ leases k' l' = leases k' l) →
  i_ref j' - i_ref j = leases k l' - leases k l →
  (i_inum j' = i_inum j ∨ i_ref j = 0) →
  (∀ k' n, (k', n) ∈ l' → if decide (k' = k) then i_inum j' = n ∧ 0 < i_ref j' else (k', n) ∈ l) →
  (∀ k', lk' = Some k' → ∃ n, (k', n) ∈ l') →
  leased c0 (<[k := j']> c) l' lk'.
Proof.
  intros [Hok Hlen Hrefs Hold Hheld Hlock] Hk Hj' Hother Hr Hid Hl' Hlk'.
  pose proof (lookup_lt_Some _ _ _ Hk) as Hlt.
  assert (∀ k' x, <[k := j']> c !! k' = Some x → (k' = k ∧ x = j') ∨ (k' ≠ k ∧ c !! k' = Some x)) as Hlook.
  { intros k' x Hx. destruct (decide (k' = k)) as [->|Hne].
    - rewrite list_lookup_insert_eq in Hx by done. simplify_eq. by left.
    - rewrite list_lookup_insert_ne in Hx by done. by right. }
  split; [| |  |done| |done].
  - intros k' x [[-> ->]|[Hne Hx]]%Hlook; [done|]. apply Hok in Hx. destruct (Hother k' Hne) as [He _].
    by rewrite (bool_decide_ext _ _ He).
  - by rewrite length_insert.
  - intros k' j0 x H0 [[-> ->]|[Hne Hx]]%Hlook.
    + destruct (Hrefs k j0 j H0 Hk) as [Hr0 Hi0]. split; [lia|]. intros Hp. rewrite <- Hi0 by done.
      destruct Hid as [Hid|Hid]; [done|]. unfold leases in *. lia.
    + destruct (Hother k' Hne) as [_ He]. rewrite He. by apply Hrefs.
  - intros k' n Hin%Hl'. destruct (decide (k' = k)) as [->|Hne].
    + exists j'. by rewrite list_lookup_insert_eq.
    + rewrite list_lookup_insert_ne by done. by apply Hheld.
Qed.

Lemma leases_cons k e l : leases k (e :: l) = (if decide (e.1 = k) then 1 else 0) + leases k l.
Proof. unfold leases. rewrite filter_cons. case_decide; cbn [length]; lia. Qed.
Lemma leases_nonneg k l : 0 ≤ leases k l.
Proof. unfold leases. lia. Qed.
Lemma leases_pos k n l : (k, n) ∈ l → 0 < leases k l.
Proof.
  intros H. unfold leases. assert ((k, n) ∈ filter (λ e, e.1 = k) l) as Hf by (by apply list_elem_of_filter).
  destruct (filter _ l); [by apply not_elem_of_nil in Hf|cbn [length]; lia].
Qed.
Lemma leased_held c0 c l lk k j : leased c0 c l lk → c !! k = Some j → 0 < leases k l →
  ∃ n, (k, n) ∈ l ∧ i_inum j = n ∧ 0 < i_ref j.
Proof.
  intros Hls Hj Hp. unfold leases in Hp. destruct (filter (λ e, e.1 = k) l) as [|[k' n] r] eqn:He; [cbn in Hp; lia|].
  assert ((k', n) ∈ filter (λ e, e.1 = k) l) as [Hk Hin]%list_elem_of_filter by (rewrite He; left).
  cbn in Hk. subst k'. exists n. destruct (ls_held _ _ _ _ Hls k n Hin) as (j1 & Hj1 & Hi & Hr). by simplify_eq.
Qed.

Lemma entry_ok_ref b r j : entry_ok b j → 0 < i_ref j → 0 ≤ r → entry_ok b (i_set_ref r j).
Proof.
  intros [_ H] Hr Hr'. destruct (H Hr) as (Hd & Hu & Hf). split; [done|]. intros _. split_and!; [done..|].
  destruct Hf as [Hf|[Hf Hload]]; [by left|right]. split; [done|]. exact (f_equal (i_set_ref r) Hload).
Qed.

(** [iget] adds a reference. *)
Lemma wp_iget_leased c0 l lk s inum Q :
  leased c0 (f_icache s) l lk → in_use v sb inum →
  (∃ k j, f_icache s !! k = Some j ∧ i_ref j = 0) →
  (∀ ip c', leased c0 c' ((ip, inum) :: l) lk → Q ip (mkF (f_store s) c')) →
  wp (iget ROOTDEV inum) Q s.
Proof.
  intros Hls Hu (k0 & j0 & Hk0 & Hr0) HQ. apply wp_iget; [exists k0, j0; by auto|].
  intros ip [b' c'] [Hst (j & j' & Hj & Hc & Hd & Hn & Hcase)]. cbn in Hst, Hc. subst b' c'. apply HQ.
  assert (i_ref j' = i_ref j + 1) as Hr by (destruct Hcase as [[_ ->]|(_ & -> & -> & _)]; done).
  eapply leased_set; [exact Hls|exact Hj| | | | | |].
  - destruct Hcase as [[(Hp & _ & _) ->]|(_ & H0 & H1 & Hf)].
    + apply entry_ok_ref; [by apply Hls|done|lia].
    + split; [lia|]. intros _. rewrite Hn. split_and!; [done..|]. left. split; [done|].
      apply bool_decide_eq_false. intros He. destruct (ls_lock _ _ _ _ Hls _ He) as [n Hin].
      destruct (ls_held _ _ _ _ Hls _ _ Hin) as (j1 & Hj1 & _ & Hp). simplify_eq. lia.
  - intros k' Hne. split; [done|]. rewrite leases_cons. cbn. by rewrite decide_False.
  - rewrite leases_cons. cbn. rewrite decide_True by done. lia.
  - destruct Hcase as [[(_ & _ & Hi) _]|(_ & H0 & _)]; [left; congruence|by right].
  - intros k' n Hin. case_decide as Hk.
    + subst k'. apply elem_of_cons in Hin as [[= ->]|Hin].
      { split; [done|]. pose proof (proj1 (ls_ok _ _ _ _ Hls _ _ Hj)). lia. }
      destruct (ls_held _ _ _ _ Hls _ _ Hin) as (j1 & Hj1 & Hi & Hp). simplify_eq.
      split; [|lia]. destruct Hcase as [[(_ & _ & Hi) _]|(_ & H0 & _)]; [congruence|lia].
    + apply elem_of_cons in Hin as [[= -> ->]|Hin]; done.
  - intros k' He. destruct (ls_lock _ _ _ _ Hls _ He) as [n Hin]. exists n. by right.
Qed.

(** ** Locking *)
(** The store between operations, with contents [v]. *)
Record store_ok (b : bst) : Prop := {
  so_wf : bs_wf b;
  so_view : vw b = v;
  so_held : hd b = ∅;
  so_room : (size (psecs b) < NBUF)%nat }.
Lemma store_ok_same b b' : store_ok b → same b b' → store_ok b'.
Proof. intros [? ? ? ?] [? V H P _ _ _ _]. split; try done; congruence. Qed.

(** A change of the flags of an entry one holds. *)
Lemma leased_flags c0 c l lk lk' k n j j' :
  leased c0 c l lk → (k, n) ∈ l → c !! k = Some j → entry_ok (bool_decide (lk' = Some k)) j' →
  (∀ k', k' ≠ k → lk' = Some k' ↔ lk = Some k') →
  i_ref j' = i_ref j → i_inum j' = i_inum j →
  leased c0 (<[k := j']> c) l lk'.
Proof.
  intros Hls Hin Hj Hok Hne Hr Hi. eapply leased_set; [exact Hls|exact Hj|exact Hok| |lia|by left| |].
  - intros k' Hk'. split; [by apply Hne|done].
  - intros k' n' Hin'. destruct (decide (k' = k)) as [->|Hk]; [|done].
    destruct (ls_held _ _ _ _ Hls _ _ Hin') as (j1 & Hj1 & Hi1 & Hp). simplify_eq. split; [done|lia].
  - intros k' He. destruct (decide (k' = k)) as [->|Hk']; [by exists n|].
    by apply (ls_lock _ _ _ _ Hls), Hne.
Qed.

(** A locked inode is the one on the disk. *)
Definition locked_inode (n : Z) (r : Z) : inode := i_set_flags 3 (i_set_ref r (inode_at v n)).
Lemma leased_locked c0 c l k n :
  leased c0 c l (Some k) → (k, n) ∈ l → ∃ r, 0 < r ∧ c !! k = Some (locked_inode n r).
Proof.
  intros Hls Hin. destruct (ls_held _ _ _ _ Hls _ _ Hin) as (j & Hj & Hi & Hr).
  destruct (ls_ok _ _ _ _ Hls _ _ Hj) as [_ Hok]. rewrite bool_decide_true in Hok by done.
  destruct (Hok Hr) as (Hd & Hu & [[_ ?]|[Hf Hload]]); [done|]. exists (i_ref j). split; [done|].
  rewrite Hj. f_equal. rewrite <- Hload. subst n. destruct j. cbn in *. subst. done.
Qed.

Context (Hfs : fs_ok v sb).

(** ilock of an entry that has not been read yet: the dinode is loaded. *)
Lemma wp_ilock_load s ip j Q :
  store_ok (f_store s) → f_icache s !! ip = Some j → 0 < i_ref j → i_dev j = ROOTDEV →
  in_use v sb (i_inum j) → i_flags j = 0 →
  (∀ b', same (f_store s) b' →
    Q tt (mkF b' (<[ip := i_set_flags 3 (i_load (dnode v (i_inum j)) j)]> (f_icache s)))) →
  wp (ilock ip) Q s.
Proof.
  destruct s as [b c]. cbn [f_store f_icache]. intros [Hwf Hv Hh Hroom] Hj Hr Hd [Hrange Ht] Hf HQ.
  destruct (fk_inodes _ _ Hfs _ Hrange) as [d Hblk].
  assert (0 ≤ IBLOCK (i_inum j)) as Hpos by (unfold IBLOCK; change IPB with 8; zlia).
  pose proof (lookup_lt_Some _ _ _ Hj) as Hlt.
  unfold ilock. wstep1. eapply wp_geti; [done|]. rewrite (proj2 (Z.ltb_ge _ _)), Hf by lia.
  change (has 0 I_BUSY) with false. change (has 0 I_VALID) with false. cbn [negb]. cbv iota.
  wstep1. eapply wp_modi; [done|]. cbn [f_store f_icache]. rewrite Hd.
  wstep1. apply wp_sto, wp_bread; cbn [f_store set_store];
    [done|apply inrange_lookup; rewrite Hv; eauto|by apply fresh_empty|rewrite Hh, map_size_empty; lia|].
  intros l b1 _ Hc T1. pose proof T1 as [W1 V1 H1 P1 _ _ _ _]. rewrite Hh, insert_empty in H1.
  wstep1. apply wp_sto, (wp_bdata _ _ (IBLOCK (i_inum j)) d); cbn [f_store set_store f_icache];
    [done|by rewrite H1, lookup_singleton_eq|by rewrite V1, Hv|].
  wstep1. eapply wp_modi; [by apply list_lookup_insert_eq|]. cbn [f_store set_store f_icache].
  rewrite list_insert_insert_eq. wstep1.
  apply wp_sto, (wp_brelse _ _ (IBLOCK (i_inum j))); cbn [f_store set_store f_icache];
    [done|by rewrite H1, lookup_singleton_eq|done|].
  intros b2 T2. wstep1. eapply wp_modi; [by apply list_lookup_insert_eq|]. cbn [f_store set_store f_icache].
  rewrite list_insert_insert_eq. wstep1. eapply wp_geti; [by apply list_lookup_insert_eq|].
  assert (get_dinode d (Z.to_nat (i_inum j mod IPB)) = dnode v (i_inum j)) as ->.
  { unfold dnode. by rewrite (list_lookup_total_correct _ _ _ Hblk). }
  cbn [i_type i_load i_set_flags]. rewrite (proj2 (Z.eqb_neq _ _) Ht). wstep1.
  cbn [i_flags i_load i_set_flags] in *. rewrite Hf. apply HQ. unfold same.
  pose proof (tstep_trans _ _ _ _ _ _ _ _ _ T1 T2) as T.
  rewrite V1, H1, P1, delete_singleton_eq in T. rewrite Hh. exact T.
Qed.

Lemma wp_ilock_leased c0 l s ip n Q :
  store_ok (f_store s) → leased c0 (f_icache s) l None → (ip, n) ∈ l →
  (∀ b' c', same (f_store s) b' → leased c0 c' l (Some ip) → Q tt (mkF b' c')) →
  wp (ilock ip) Q s.
Proof.
  intros Hst Hls Hin HQ. destruct (ls_held _ _ _ _ Hls _ _ Hin) as (j & Hj & Hi & Hr).
  destruct (proj2 (ls_ok _ _ _ _ Hls _ _ Hj) Hr) as (Hd & Hu & Hf).
  assert (∀ j', i_set_flags 3 (i_load (dnode v (i_inum j)) j) = j' →
    leased c0 (<[ip := j']> (f_icache s)) l (Some ip)) as Hgo.
  { intros j' <-. eapply leased_flags; [done..| | |done|done].
    - rewrite bool_decide_true by done. split; [cbn; lia|]. intros _. split_and!; [done..|]. right. done.
    - intros k' Hne. split; [by intros [= ->]|done]. }
  destruct Hf as [[Hf _]|[Hf Hload]].
  - eapply wp_ilock_load; [done..|]. intros b' Hb. apply HQ; [done|]. by apply Hgo.
  - eapply wp_ilock_valid; [done|lia|done|]. apply HQ; [by apply tstep_refl, Hst|].
    apply Hgo. by rewrite Hload.
Qed.

Lemma wp_iunlock_leased c0 l s ip n Q :
  leased c0 (f_icache s) l (Some ip) → (ip, n) ∈ l →
  (∀ c', leased c0 c' l None → Q tt (mkF (f_store s) c')) →
  wp (iunlock ip) Q s.
Proof.
  intros Hls Hin HQ. destruct (leased_locked _ _ _ _ _ Hls Hin) as (r & Hr & Hj).
  destruct (proj2 (ls_ok _ _ _ _ Hls _ _ Hj) Hr) as (Hd & Hu & _).
  eapply wp_iunlock; [exact Hj|cbn; lia|done|]. apply HQ. eapply leased_flags; [done..| | |done|done].
  - rewrite bool_decide_false by done. split; [cbn; lia|]. intros _. split_and!; [done..|]. by right.
  - intros k' Hne. split; [done|by intros [= ->]].
Qed.

(** [iput] gives a reference back; the inode keeps its links, so nothing is freed. *)
Lemma wp_iput_leased c0 l s ip n Q :
  leased c0 (f_icache s) ((ip, n) :: l) None →
  (∀ c', leased c0 c' l None → Q tt (mkF (f_store s) c')) →
  wp (iput ip) Q s.
Proof.
  intros Hls HQ. destruct (ls_held _ _ _ _ Hls ip n) as (j & Hj & Hi & Hr); [left|].
  pose proof (ls_ok _ _ _ _ Hls _ _ Hj) as Hok. rewrite bool_decide_false in Hok by done.
  destruct (proj2 Hok Hr) as (Hd & Hu & Hf). unfold iput. wstep1. eapply wp_geti; [done|].
  assert ((i_ref j =? 1) && has (i_flags j) I_VALID && (i_nlink j =? 0) = false) as ->.
  { destruct Hf as [[-> _]|[_ Hload]]; [by rewrite andb_false_r|].
    destruct (fk_file _ _ Hfs _ Hu) as [_ Hl]. rewrite <- Hload. cbn [i_nlink i_load].
    rewrite (proj2 (Z.eqb_neq (di_nlink _) 0)) by lia. by rewrite andb_false_r. }
  wstep1. wstep1. eapply wp_modi; [done|]. apply HQ.
  eapply leased_set; [exact Hls|exact Hj| | | |by left| |done].
  - rewrite bool_decide_false by done. apply entry_ok_ref; [done|done|lia].
  - intros k' Hne. rewrite leases_cons. cbn. by rewrite decide_False.
  - rewrite leases_cons. cbn. rewrite decide_True by done. lia.
  - intros k' n' Hin. destruct (decide (k' = ip)) as [->|Hne]; [|by right].
    destruct (ls_held _ _ _ _ Hls ip n') as (j1 & Hj1 & Hi1 & _); [by right|]. simplify_eq. split; [done|].
    pose proof (lookup_lt_Some _ _ _ Hj) as Hlt. rewrite (ls_len _ _ _ _ Hls) in Hlt.
    destruct (lookup_lt_is_Some_2 _ _ Hlt) as [j0 H0]. destruct (ls_refs _ _ _ _ Hls _ _ _ H0 Hj) as [Hrj _].
    pose proof (Forall_lookup_1 _ _ _ _ (ls_old _ _ _ _ Hls) H0) as Hn. cbn in Hn.
    pose proof (leases_pos _ _ _ Hin). rewrite leases_cons in Hrj. cbn in Hrj. rewrite decide_True in Hrj by done.
    cbn. lia.
Qed.

Lemma wp_iunlockput_leased c0 l s ip n Q :
  leased c0 (f_icache s) ((ip, n) :: l) (Some ip) →
  (∀ c', leased c0 c' l None → Q tt (mkF (f_store s) c')) →
  wp (iunlockput ip) Q s.
Proof.
  intros Hls HQ. unfold iunlockput. wstep1. eapply (wp_iunlock_leased _ _ _ _ n); [done|left|].
  intros c' Hls'. by eapply wp_iput_leased.
Qed.

(** The order of the references does not matter. *)
Lemma leased_perm c0 c l l' lk : l ≡ₚ l' → leased c0 c l lk → leased c0 c l' lk.
Proof.
  intros Hp [Hok Hlen Hrefs Hold Hheld Hlock]. assert (∀ k, leases k l' = leases k l) as Hle.
  { intros k. unfold leases. by rewrite Hp. }
  split; try done.
  - intros k j0 j. rewrite Hle. apply Hrefs.
  - intros k m. rewrite <- Hp. apply Hheld.
  - intros k He. destruct (Hlock k He) as [m Hm]. exists m. by rewrite <- Hp.
Qed.

(** ** Walking the path *)
(** Two entries of the cache are free. *)
Definition two_free (c0 : list inode) : Prop :=
  ∃ k1 k2 j1 j2, k1 ≠ k2 ∧ c0 !! k1 = Some j1 ∧ c0 !! k2 = Some j2 ∧ i_ref j1 = 0 ∧ i_ref j2 = 0.

Lemma leased_free c0 c l lk :
  leased c0 c l lk → (length l ≤ 1)%nat → two_free c0 → ∃ k j, c !! k = Some j ∧ i_ref j = 0.
Proof.
  intros Hls Hl (k1 & k2 & j1 & j2 & Hne & H1 & H2 & R1 & R2).
  assert (∃ k j0, c0 !! k = Some j0 ∧ i_ref j0 = 0 ∧ leases k l = 0) as (k & j0 & H0 & R0 & Hk).
  { destruct l as [|[k n] [|]]; [by exists k1, j1| |cbn in Hl; lia].
    destruct (decide (k = k1)) as [->|Hk].
    - exists k2, j2. split_and!; [done..|]. rewrite leases_cons. cbn. by rewrite decide_False.
    - exists k1, j1. split_and!; [done..|]. rewrite leases_cons. cbn. by rewrite decide_False. }
  destruct (lookup_lt_is_Some_2 c k) as [j Hj].
  { rewrite (ls_len _ _ _ _ Hls). by eapply lookup_lt_Some. }
  exists k, j. split; [done|]. destruct (ls_refs _ _ _ _ Hls _ _ _ H0 Hj). lia.
Qed.

Lemma locked_ro s ip n r :
  store_ok (f_store s) → f_icache s !! ip = Some (locked_inode n r) → in_use v sb n →
  fs_ro sb s ip (locked_inode n r).
Proof.
  intros [Hwf Hv Hh Hroom] Hip Hu. destruct (fk_file _ _ Hfs n Hu) as [[] _].
  split; rewrite ?Hv; [done|apply Hfs|done..|by split].
Qed.
Lemma locked_dir_ok s ip n r :
  store_ok (f_store s) → f_icache s !! ip = Some (locked_inode n r) → in_use v sb n →
  di_type (dnode v n) = T_DIR → dir_ok sb s ip (locked_inode n r) ∧ dents s (locked_inode n r) = dir_at v n.
Proof.
  intros Hst Hip Hu Ht. split; [|unfold dents; by rewrite (so_view _ Hst)].
  split; [by apply locked_ro|exact Ht|exact (fk_dir _ _ Hfs n Hu Ht)].
Qed.

(** Looking a name up in a locked directory. *)
Lemma wp_dirlookup_leased c0 s ip n name nm Q :
  store_ok (f_store s) → leased c0 (f_icache s) [(ip, n)] (Some ip) → two_free c0 →
  in_use v sb n → di_type (dnode v n) = T_DIR → name_is name nm → Forall (λ c, c ≠ 0) nm →
  match list_find (names nm) (dir_at v n) with
  | Some e => ∀ b' c' ip', same (f_store s) b' →
      leased c0 c' [(ip', de_inum e.2); (ip, n)] (Some ip) → in_use v sb (de_inum e.2) →
      Q (Some (ip', 16 * Z.of_nat e.1)) (mkF b' c')
  | None => ∀ b', same (f_store s) b' → Q None (mkF b' (f_icache s))
  end →
  wp (dirlookup devsw ip name) Q s.
Proof.
  intros Hst Hls Hfree Hu Ht Hnm Hnz HQ.
  destruct (leased_locked _ _ _ _ n Hls) as (r & Hr & Hip); [left|].
  destruct (locked_dir_ok s ip n r) as [Hdir Hd]; [done..|].
  apply (wp_dirlookup sb devsw s ip (locked_inode n r)); [done|]. rewrite Hd.
  rewrite (list_find_ext (names name) (names nm)) by (intros; by apply names_ext).
  destruct (list_find (names nm) (dir_at v n)) as [[k de]|] eqn:Hf; [|done].
  intros b' Hb. cbn [fst snd] in HQ. apply list_find_Some in Hf as (Hk & [Hne _] & _).
  assert (in_use v sb (de_inum de)) as Hu' by (by apply (fk_entry _ _ Hfs n de Hu Ht (list_elem_of_lookup_2 _ _ _ Hk))).
  apply (wp_iget_leased c0 [(ip, n)] (Some ip)); [done|done|by eapply leased_free|].
  intros ip' c' Hls'. by apply HQ.
Qed.

(** What namex returns, the cache it leaves being [c']. *)
Definition walked (c0 : list inode) (np : bool) (n : Z) (path : list (list Z))
    (r : option nat * list Z) (c' : list inode) : Prop :=
  match resolve v np n path with
  | Some m => ∃ ip, r.1 = Some ip ∧ leased c0 c' [(ip, m)] None ∧ in_use v sb m ∧
      (np = true → ∃ s, last path = Some s ∧ name_is r.2 s)
  | None => r.1 = None ∧ leased c0 c' [] None
  end.

Lemma resolve_file np n s path : di_type (dnode v n) ≠ T_DIR → resolve v np n (s :: path) = None.
Proof. intros H. cbn [resolve]. by rewrite (proj2 (Z.eqb_neq _ _) H). Qed.
Lemma resolve_last n s : di_type (dnode v n) = T_DIR → resolve v true n [s] = Some n.
Proof. intros H. cbn [resolve]. by rewrite H. Qed.
Lemma resolve_step np n s path : di_type (dnode v n) = T_DIR → (np = true → path ≠ []) →
  resolve v np n (s :: path) = e ← list_find (names s) (dir_at v n); resolve v np (de_inum e.2) path.
Proof. intros H Hp. cbn [resolve]. rewrite H. destruct np; [|done]. destruct path; [by destruct Hp|done]. Qed.

Lemma wp_namex_loop fuel c0 s ip n path np name Q :
  store_ok (f_store s) → leased c0 (f_icache s) [(ip, n)] None → two_free c0 → in_use v sb n →
  length name = 14%nat → (length path < fuel)%nat →
  (∀ r b' c', same (f_store s) b' → walked c0 np n (components path) r c' → Q r (mkF b' c')) →
  wp (namex_loop devsw fuel ip path np name) Q s.
Proof.
  revert s ip n path name Q. induction fuel as [|fuel IH]; intros s ip n path name Q Hst Hls Hfree Hu Hname Hfuel HQ; [lia|].
  cbn [namex_loop]. pose proof (skipelem_spec path name Hname) as Hskip.
  assert (same (f_store s) (f_store s)) as Hrefl by (apply tstep_refl, Hst).
  destruct (skipelem path name) as [[path' name']|].
  2: { rewrite Hskip in HQ. destruct np.
       - wstep1. eapply wp_iput_leased; [done|]. intros c' Hls'. wstep1. by apply HQ.
       - wstep1. destruct s as [b c]. apply HQ; [done|]. exists ip. done. }
  destruct Hskip as (nm & Hcomp & Hnz & Hnm & Hlen & Hend). rewrite Hcomp in HQ.
  wstep1. eapply wp_ilock_leased; [done|done|left|]. intros b1 c1 S1 Hl1. pose proof (store_ok_same _ _ Hst S1) as Hst1.
  destruct (leased_locked _ _ _ _ n Hl1) as (r & Hr & Hip); [left|].
  wstep1. eapply wp_geti; [done|]. change (i_type (locked_inode n r)) with (di_type (dnode v n)).
  destruct (Z.eqb_spec (di_type (dnode v n)) T_DIR) as [Ht|Ht]; cbn [negb].
  2: { wstep1. eapply wp_iunlockput_leased; [done|]. intros c' Hls'. wstep1. apply HQ; [done|].
       unfold walked. by rewrite resolve_file. }
  destruct (np && (deref path' =? 0)) eqn:Hnp.
  { apply andb_true_iff in Hnp as [-> He%Z.eqb_eq%Hend]. rewrite He in HQ. wstep1.
    eapply wp_iunlock_leased; [done|left|]. intros c' Hls'. wstep1. apply HQ; [done|].
    unfold walked. rewrite resolve_last by done. exists ip. split_and!; [done..|]. intros _. by exists nm. }
  assert (np = true → components path' ≠ []) as Hmore.
  { intros -> He%Hend. by rewrite He in Hnp. }
  wstep1. eapply wp_dirlookup_leased; [exact Hst1|exact Hl1|done..|].
  pose proof (resolve_step np n nm (components path') Ht Hmore) as Hres.
  destruct (list_find (names nm) (dir_at v n)) as [[k de]|]; cbn [mbind option_bind] in Hres.
  - intros b2 c2 next S2 Hl2 Hu2. cbn [fst snd] in *. wstep1.
    eapply wp_iunlockput_leased; [by eapply leased_perm, Hl2; apply Permutation_swap|]. intros c3 Hl3.
    cbn [f_store] in *. pose proof (same_trans _ _ _ S1 S2) as S3.
    eapply IH; [by eapply store_ok_same|done|done|done|apply Hnm|lia|].
    intros res b4 c4 S4 Hw. apply HQ; [by eapply same_trans|]. unfold walked in *. rewrite Hres.
    destruct (resolve v np (de_inum de) (components path')) as [m|]; [|done].
    destruct Hw as (ip' & ? & ? & ? & Hlast). exists ip'. split_and!; [done..|]. intros Hp.
    destruct (Hlast Hp) as (x & Hx & Hxn). exists x. split; [|done]. rewrite last_cons, Hx. done.
  - intros b2 S2. cbn [f_store f_icache] in *. wstep1. eapply wp_iunlockput_leased; [done|]. intros c3 Hl3.
    wstep1. apply HQ; [by eapply same_trans|]. unfold walked. by rewrite Hres.
Qed.

(** The inode the walk starts from: the root, or proc->cwd. *)
Definition starts_at (c : list inode) (cwd : nat) (path : list Z) (n : Z) : Prop :=
  if deref path =? SLASH then n = ROOTINO
  else ∃ j, c !! cwd = Some j ∧ 0 < i_ref j ∧ i_inum j = n.

Lemma leased_refl c : Forall (entry_ok false) c → leased c c [] None.
Proof.
  intros Hc. split; try done.
  - intros k j Hj. rewrite bool_decide_false by done. by eapply Forall_lookup_1.
  - intros k j0 j H0 Hj. simplify_eq. unfold leases. cbn. split; [lia|done].
  - eapply Forall_impl; [done|]. by intros j [? _].
  - intros k n H. by apply elem_of_nil in H.
Qed.

Lemma wp_idup_leased c0 s ip j Q :
  leased c0 (f_icache s) [] None → f_icache s !! ip = Some j → 0 < i_ref j →
  (∀ c', leased c0 c' [(ip, i_inum j)] None → Q ip (mkF (f_store s) c')) →
  wp (idup ip) Q s.
Proof.
  intros Hls Hj Hr HQ. unfold idup. wstep1. eapply wp_modi; [done|]. wstep1. apply HQ.
  eapply leased_set; [exact Hls|exact Hj| | | |by left| |done].
  - apply entry_ok_ref; [by apply Hls|done|lia].
  - intros k' Hne. rewrite leases_cons. cbn. by rewrite decide_False.
  - rewrite leases_cons. cbn. rewrite decide_True by done. lia.
  - intros k' n Hin. apply list_elem_of_singleton in Hin as [= -> ->]. rewrite decide_True by done.
    cbn. split; [done|lia].
Qed.

Lemma wp_namex s cwd path np name n Q :
  store_ok (f_store s) → Forall (entry_ok false) (f_icache s) → two_free (f_icache s) →
  starts_at (f_icache s) cwd path n → length name = 14%nat →
  (∀ r b' c', same (f_store s) b' → walked (f_icache s) np n (components path) r c' → Q r (mkF b' c')) →
  wp (namex devsw cwd path np name) Q s.
Proof.
  intros Hst Hc Hfree Hstart Hname HQ. pose proof (leased_refl _ Hc) as Hls. unfold namex, starts_at in *.
  wstep1. destruct (deref path =? SLASH).
  - subst n. eapply wp_iget_leased; [done|apply Hfs|eapply leased_free; [done|cbn; lia|done]|].
    intros ip c' Hls'. eapply wp_namex_loop; [done|done|done|apply Hfs|done|lia|done].
  - destruct Hstart as (j & Hj & Hr & <-). eapply wp_idup_leased; [done..|]. intros c' Hls'.
    destruct (proj2 (Forall_lookup_1 _ _ _ _ Hc Hj) Hr) as (_ & Hu & _).
    eapply wp_namex_loop; [done..|lia|done].
Qed.

(** C12: path resolution.  On a consistent file system with two free entries in
    the inode cache, namex (namei and, with [np], nameiparent) returns; it finds
    exactly the inode that the elements of the path lead to from the root or from
    the current directory, each element looked up as the first entry of the
    directory with that name up to DIRSIZ characters, or fails when there is none
    or when an element is looked up in a file.  The disk and the log are as
    before, all references it took are given back but the one to the inode
    returned, and no inode is left locked.  nameiparent stops one element short
    and leaves that element in [name]. *)
Theorem namex_correct s cwd path np name n :
  store_ok (f_store s) → Forall (entry_ok false) (f_icache s) → two_free (f_icache s) →
  starts_at (f_icache s) cwd path n → length name = 14%nat →
  wp (namex devsw cwd path np name) (λ r s', same (f_store s) (f_store s') ∧
    match resolve v np n (components path) with
    | Some m => ∃ ip, r.1 = Some ip ∧ leased (f_icache s) (f_icache s') [(ip, m)] None ∧
        (np = true → ∃ e, last (components path) = Some e ∧ name_is r.2 e)
    | None => r.1 = None ∧ leased (f_icache s) (f_icache s') [] None
    end) s.
Proof.
  intros Hst Hc Hfree Hstart Hname. eapply wp_namex; [done..|]. intros r b' c' Hb Hw. split; [done|].
  unfold walked in Hw. destruct (resolve v np n (components path)) as [m|]; [|done].
  destruct Hw as (ip & ? & ? & _ & ?). by exists ip.
Qed.
End cache.
