(* ===== verification/Ulib.v ===== *)
(** * The user library (ulib.c, printf.c)

    Strings and memory as in Kstring.v: a char* is the list of the bytes from
    there on (a byte past its end reads as 0), memset and memmove act on a byte
    memory.  printf yields the bytes its putc calls write, in order. *)
From stdpp Require Import base list numbers option strings.
From Stdlib Require Import ZArith Lia.
From S2P Require Import Prelude Kstring.
Open Scope Z_scope.

(** ** ulib.c *)
(** The bytes strcpy stores from s on. *)
Fixpoint strcpy (t : list Z) : list Z :=
  match t with
  | [] => [0]
  | c :: t => if c =? 0 then [0] else c :: strcpy t
  end.

Fixpoint strcmp (p q : list Z) : Z :=
  match p with
  | [] => - deref q
  | c :: p' => if negb (c =? 0) && (c =? deref q) then strcmp p' (tail q) else c - deref q
  end.

Fixpoint ustrlen (s : list Z) : Z :=
  match s with
  | [] => 0
  | c :: s => if c =? 0 then 0 else 1 + ustrlen s
  end.

Definition umemset (dst c n : Z) : M (list Z) unit := stosb dst c (Z.to_nat n).

(** The offset of the character found, or a null pointer. *)
Fixpoint strchr (s : list Z) (c : Z) : option nat :=
  match s with
  | [] => None
  | x :: s => if x =? 0 then None else if x =? c then Some 0%nat else S <$> strchr s c
  end.

Definition NL : Z := 10.
Definition CR : Z := 13.

(** The loop of gets, reading from standard input one byte at a time; read
    returns 0 at the end of the input.  The bytes stored and the input left. *)
Fixpoint gets_loop (room : nat) (inp : list Z) : list Z * list Z :=
  match room, inp with
  | S room, c :: inp =>
    if (c =? NL) || (c =? CR) then ([c], inp)
    else let '(l, inp) := gets_loop room inp in (c :: l, inp)
  | _, _ => ([], inp)
  end.
Definition ugets (max : Z) (inp : list Z) : list Z * list Z :=
  let '(l, inp) := gets_loop (Z.to_nat (max - 1)) inp in (l ++ [0], inp).

Definition is_digit (c : Z) : bool := (48 <=? c) && (c <=? 57).
Fixpoint atoi_loop (s : list Z) (n : Z) : Z :=
  match s with
  | [] => n
  | c :: s => if is_digit c then atoi_loop s (s32 (n * 10 + c - 48)) else n
  end.
Definition atoi (s : list Z) : Z := atoi_loop s 0.

Definition umemmove (vdst vsrc n : Z) : M (list Z) unit := copy_up vdst vsrc (Z.to_nat n).

(** ** printf.c *)
Definition digits : list Z := [48; 49; 50; 51; 52; 53; 54; 55; 56; 57; 65; 66; 67; 68; 69; 70].

(** The do-while loop of printint: buf[0], buf[1], ...; each round divides x by
    base, so 32 rounds are enough for base 2 and more. *)
Fixpoint printint_digits (fuel : nat) (x base : Z) : list Z :=
  match fuel with
  | O => []
  | S fuel =>
    default 0 (digits !! Z.to_nat (x mod base)) ::
    (if x / base =? 0 then [] else printint_digits fuel (x / base) base)
  end.
(** The contents of buf before the output loop. *)
Definition printint_buf (xx base : Z) (sgn : bool) : list Z :=
  let neg := sgn && (xx <? 0) in
  let x := if neg then u32 (- xx) else u32 xx in
  printint_digits 32 x base ++ (if neg then [45] else []).
Definition printint (xx base : Z) (sgn : bool) : list Z := reverse (printint_buf xx base sgn).

Definition null_str : list Z := [40; 110; 117; 108; 108; 41].

(** printf: [str a] is the string at address [a], [ap] the argument words;
    None when a directive reads past them.  [pct] is state == '%'. *)
Fixpoint printf (str : Z → list Z) (fmt ap : list Z) (pct : bool) : option (list Z) :=
  match fmt with
  | [] => Some []
  | c :: fmt =>
    if c =? 0 then Some []
    else if negb pct then
      if c =? 37 then printf str fmt ap true
      else cons c <$> printf str fmt ap false
    else if c =? 100 then
      match ap with
      | a :: ap => app (printint (s32 a) 10 true) <$> printf str fmt ap false
      | [] => None
      end
    else if (c =? 120) || (c =? 112) then
      match ap with
      | a :: ap => app (printint (s32 a) 16 false) <$> printf str fmt ap false
      | [] => None
      end
    else if c =? 115 then
      match ap with
      | a :: ap => app (if a =? 0 then null_str else cstr (str a)) <$> printf str fmt ap false
      | [] => None
      end
    else if c =? 99 then
      match ap with
      | a :: ap => cons (u8 a) <$> printf str fmt ap false
      | [] => None
      end
    else if c =? 37 then cons c <$> printf str fmt ap false
    else app [37; c] <$> printf str fmt ap false
  end.

(** ** Lemmas *)
Lemma strcmp_zero p q : Forall (λ c, 0 ≤ c) p → strcmp p q = 0 ↔ cstr p = cstr q.
Proof.
  intros Hp. revert q. induction Hp as [|c p Hc Hp IH]; intros q; simpl.
  - destruct (Z.eq_dec (deref q) 0) as [Hq|Hq].
    + rewrite (cstr_nil q Hq), Hq. done.
    + rewrite (cstr_tail q Hq). split; [lia|done].
  - destruct (Z.eqb_spec c 0) as [->|Hc0]; simpl.
    + destruct (Z.eq_dec (deref q) 0) as [Hq|Hq].
      * rewrite (cstr_nil q Hq), Hq. done.
      * rewrite (cstr_tail q Hq). split; [lia|done].
    + destruct (Z.eqb_spec c (deref q)) as [->|Hne].
      * rewrite IH, (cstr_tail q Hc0). split; [by intros ->|by intros [= ->]].
      * split; [lia|]. destruct (Z.eq_dec (deref q) 0) as [Hq|Hq].
        -- by rewrite (cstr_nil q Hq).
        -- rewrite (cstr_tail q Hq). by intros [= ? _].
Qed.

Lemma strcpy_spec t : strcpy t = cstr t ++ [0].
Proof. induction t as [|c t IH]; simpl; [done|]. destruct (c =? 0); [done|]. simpl. by rewrite IH. Qed.

Lemma strchr_spec s c k :
  strchr s c = Some k ↔ cstr s !! k = Some c ∧ ∀ j, (j < k)%nat → cstr s !! j ≠ Some c.
Proof.
  revert k. induction s as [|x s IH]; intros k; simpl; [split; [done|by intros [? _]]|].
  destruct (Z.eqb_spec x 0) as [->|Hx0]; [split; [done|by intros [? _]]|].
  destruct (Z.eqb_spec x c) as [->|Hne].
  - split.
    + intros [= <-]. split; [done|]. intros j Hj. lia.
    + intros [_ Hlt]. destruct k as [|k]; [done|]. exfalso. apply (Hlt 0%nat); [lia|done].
  - destruct k as [|k].
    + split; [by destruct (strchr s c)|]. intros [[= ?] _]. done.
    + transitivity (strchr s c = Some k); [destruct (strchr s c); simpl; naive_solver|].
      rewrite IH. simpl. split; intros [Hk Hlt]; (split; [done|]).
      * intros [|j] Hj; simpl; [congruence|]. apply Hlt. lia.
      * intros j Hj. apply (Hlt (S j)). lia.
Qed.

Lemma digit_char d : 0 ≤ d < 10 → digits !! Z.to_nat d = Some (48 + d) ∧ is_digit (48 + d) = true.
Proof.
  intros Hd. split; [|unfold is_digit; apply andb_true_iff; split; apply Z.leb_le; lia].
  assert (d ∈ seqZ 0 10) as Hin by (apply elem_of_seqZ; lia).
  assert (Forall (λ d, digits !! Z.to_nat d = Some (48 + d)) (seqZ 0 10)) as Hall by (by repeat constructor).
  rewrite Forall_forall in Hall. by apply Hall.
Qed.

Lemma atoi_snoc l c n :
  Forall (λ x, is_digit x = true) l → is_digit c = true →
  atoi_loop (l ++ [c]) n = s32 (atoi_loop l n * 10 + c - 48).
Proof.
  intros Hl Hc. revert n. induction Hl as [|x l Hx Hl IH]; intros n; simpl; [by rewrite Hc|].
  by rewrite Hx, IH.
Qed.

Lemma printint_digits_atoi fuel x :
  0 ≤ x < 10 ^ Z.of_nat fuel → x < 2 ^ 31 →
  Forall (λ c, is_digit c = true) (printint_digits fuel x 10) ∧
  (fuel ≠ 0%nat → atoi (reverse (printint_digits fuel x 10)) = x).
Proof.
  revert x. induction fuel as [|fuel IH]; intros x Hx Hmax; [split; [constructor|done]|].
  cbn [printint_digits]. rewrite Nat2Z.inj_succ, Z.pow_succ_r in Hx by lia.
  assert (0 ≤ x mod 10 < 10) as Hm by (apply Z.mod_pos_bound; lia).
  destruct (digit_char (x mod 10) Hm) as [Hd Hdig]. rewrite Hd. simpl default.
  assert (0 ≤ x / 10 < 10 ^ Z.of_nat fuel) as Hq by zlia.
  destruct (Z.eqb_spec (x / 10) 0) as [H0|H0].
  - split; [by repeat constructor|]. intros _. unfold atoi. cbn [reverse]. rewrite reverse_singleton.
    simpl. rewrite Hdig. rewrite s32_small; zlia.
  - destruct (IH (x / 10) Hq ltac:(zlia)) as [Hall Hval]. split; [by constructor|]. intros _.
    rewrite reverse_cons. unfold atoi in *. rewrite atoi_snoc by (done || by apply Forall_reverse).
    rewrite Hval; [rewrite s32_small; zlia|]. intros ->. change (10 ^ Z.of_nat 0) with 1 in Hq. lia.
Qed.

(** The digits of a number below base^k are at most k. *)
Lemma printint_digits_length fuel x base k :
  2 ≤ base → 0 ≤ x < base ^ Z.of_nat k → (0 < k)%nat → (length (printint_digits fuel x base) ≤ k)%nat.
Proof.
  intros Hb. revert x k. induction fuel as [|fuel IH]; intros x k Hx Hk; [simpl; lia|].
  cbn [printint_digits length]. destruct (Z.eqb_spec (x / base) 0) as [|H0]; [simpl; lia|].
  destruct k as [|k]; [lia|]. rewrite Nat2Z.inj_succ, Z.pow_succ_r in Hx by lia.
  assert (0 ≤ x / base < base ^ Z.of_nat k) as Hq.
  { split; [apply Z.div_pos; lia|]. apply Z.div_lt_upper_bound; lia. }
  destruct k as [|k]; [change (base ^ Z.of_nat 0) with 1 in Hq; lia|].
  specialize (IH (x / base) (S k) Hq ltac:(lia)). lia.
Qed.

(** ** Properties *)
(** Decimal output and input agree: atoi reads back every non-negative int
    that printint prints in base 10, and a negative int is printed as a minus
    sign and the digits atoi reads back as its absolute value. *)
Theorem printint_atoi xx :
  - 2 ^ 31 < xx < 2 ^ 31 →
  (0 ≤ xx → atoi (printint xx 10 true) = xx) ∧
  (xx < 0 → ∃ l, printint xx 10 true = 45 :: l ∧ atoi l = - xx).
Proof.
  intros Hx. assert (2 ^ 31 < 10 ^ Z.of_nat 32) as Hbig by done. unfold printint, printint_buf. split; intros Hs.
  - rewrite (proj2 (Z.ltb_ge xx 0)) by done. rewrite andb_false_r, app_nil_r, u32_small by lia.
    apply printint_digits_atoi; lia.
  - rewrite (proj2 (Z.ltb_lt xx 0)) by done. simpl andb. cbv iota. rewrite u32_small by lia.
    exists (reverse (printint_digits 32 (- xx) 10)). rewrite reverse_app. split; [done|].
    apply printint_digits_atoi; lia.
Qed.

(** Printint never writes outside its 16-byte buffer: for every 32-bit
    argument and base 10 or 16, signed or not, it uses at most 11 bytes. *)
Theorem printint_bounds xx base sgn :
  - 2 ^ 31 ≤ xx < 2 ^ 31 → base = 10 ∨ base = 16 → (length (printint_buf xx base sgn) ≤ 11)%nat.
Proof.
  intros Hx Hb. unfold printint_buf. cbv zeta.
  assert (∀ x, 0 ≤ x < 2 ^ 32 → (length (printint_digits 32 x base) ≤ 10)%nat) as Hl.
  { intros x Hr. apply printint_digits_length; [lia| |lia].
    split; [lia|]. eapply Z.lt_le_trans; [apply Hr|]. destruct Hb as [-> | ->]; done. }
  rewrite length_app. pose proof (Hl _ (u32_range xx)). pose proof (Hl _ (u32_range (- xx))).
  destruct (sgn && (xx <? 0)); cbn [length]; lia.
Qed.

(** The user memmove copies forward only: it copies correctly when the
    regions do not overlap or the destination is below the source; when the
    destination overlaps the source from above it repeats the start of the
    source instead. *)
Theorem umemmove_correct m (dst src n : nat) :
  (dst + n ≤ length m)%nat → (src + n ≤ length m)%nat → (dst ≤ src ∨ src + n ≤ dst)%nat →
  umemmove (Z.of_nat dst) (Z.of_nat src) (Z.of_nat n) m = Ok tt (splice m dst (slice m src n)) ∧
  umemmove 1 0 3 [1; 2; 3; 4] = Ok tt [1; 1; 1; 1].
Proof. intros. split; [|done]. unfold umemmove. rewrite Nat2Z.id. by apply copy_up_spec. Qed.

(** Witness of printint_atoi. *)
Lemma printint_atoi_witness : printint 507 10 true = [53; 48; 55] ∧ atoi (printint 507 10 true) = 507.
Proof. split; [vm_compute; reflexivity|]. apply (printint_atoi 507); lia. Defined.

(** Witness of printint_bounds: the smallest int, 11 characters. *)
Lemma printint_bounds_witness :
  length (printint_buf (-2147483648) 10 true) = 11%nat ∧ (length (printint_buf (-2147483648) 10 true) ≤ 11)%nat.
Proof. split; [vm_compute; reflexivity|]. apply (printint_bounds (-2147483648) 10 true); [lia|by left]. Defined.

(** Witness of umemmove_correct. *)
Lemma umemmove_correct_witness : umemmove 0 1 3 [1; 2; 3; 4] = Ok tt [2; 3; 4; 4].
Proof. apply (umemmove_correct [1; 2; 3; 4] 0 1 3); simpl; lia. Defined.
