(* ===== verification/Grep.v ===== *)
(** * grep (grep.c)

    The regular expression matcher of Kernighan and Pike, proved equivalent to
    the languages its patterns denote, and the loop that finds lines in the
    buffer. *)
From stdpp Require Import base list numbers option strings.
From Stdlib Require Import ZArith Lia.
From S2P Require Import Prelude Kstring Ulib.
Open Scope Z_scope.

(** ** The matcher *)
Definition CARET : Z := 94.
Definition DOLLAR : Z := 36.
Definition DOT : Z := 46.
Definition STAR : Z := 42.

(** matchstar(c, re, text), where [here] is matchhere(re, .). *)
Fixpoint matchstar_loop (here : list Z → bool) (c : Z) (text : list Z) : bool :=
  here text ||
  match text with
  | [] => false
  | t :: text' =>
    if negb (t =? 0) && ((t =? c) || (c =? DOT)) then matchstar_loop here c text' else false
  end.

Fixpoint matchhere (re text : list Z) {struct re} : bool :=
  match re with
  | [] => true
  | c :: re1 =>
    if c =? 0 then true
    else
      match re1 with
      | s :: re2 =>
        if s =? STAR then matchstar_loop (matchhere re2) c text
        else if (c =? DOLLAR) && (s =? 0) then deref text =? 0
        else if negb (deref text =? 0) && ((c =? DOT) || (c =? deref text))
        then matchhere re1 (tail text)
        else false
      | [] =>
        if c =? DOLLAR then deref text =? 0
        else if negb (deref text =? 0) && ((c =? DOT) || (c =? deref text))
        then matchhere re1 (tail text)
        else false
      end
  end.
Definition matchstar (c : Z) (re text : list Z) : bool := matchstar_loop (matchhere re) c text.

(** The do-while loop of match. *)
Fixpoint match_loop (re text : list Z) : bool :=
  matchhere re text ||
  match text with
  | [] => false
  | t :: text' => if t =? 0 then false else match_loop re text'
  end.
Definition match_re (re text : list Z) : bool :=
  if deref re =? CARET then matchhere (tail re) text else match_loop re text.

(** ** Patterns and the languages they denote *)
(** What one pattern character stands for: itself, or any character. *)
Definition char_in (c x : Z) : Prop := c = DOT ∨ c = x.
Inductive item := One (c : Z) | Many (c : Z).

(** A pattern as a list of items, and whether it ends in $. *)
Fixpoint parse_re (re : list Z) : list item * bool :=
  match re with
  | [] => ([], false)
  | c :: re1 =>
    if c =? 0 then ([], false)
    else
      match re1 with
      | s :: re2 =>
        if s =? STAR then let '(l, e) := parse_re re2 in (Many c :: l, e)
        else if (c =? DOLLAR) && (s =? 0) then ([], true)
        else let '(l, e) := parse_re re1 in (One c :: l, e)
      | [] => if c =? DOLLAR then ([], true) else ([One c], false)
      end
  end.

(** The strings an item, and a sequence of items, match. *)
Definition item_lang (i : item) (w : list Z) : Prop :=
  match i with
  | One c => ∃ x, w = [x] ∧ char_in c x
  | Many c => Forall (char_in c) w
  end.
Fixpoint items_lang (l : list item) (w : list Z) : Prop :=
  match l with
  | [] => w = []
  | i :: l => ∃ w1 w2, w = w1 ++ w2 ∧ item_lang i w1 ∧ items_lang l w2
  end.
(** A prefix of [w] is in the language, the whole of [w] when the pattern ends
    in $. *)
Definition re_prefix (re w : list Z) : Prop :=
  ∃ w1 w2, w = w1 ++ w2 ∧ items_lang (parse_re re).1 w1 ∧ ((parse_re re).2 = true → w2 = []).

(** ** The matcher decides the language *)
Lemma matchstar_spec here (P : list Z → Prop) c text :
  (∀ t, here t = true ↔ P (cstr t)) →
  matchstar_loop here c text = true ↔
  ∃ w1 w2, cstr text = w1 ++ w2 ∧ Forall (char_in c) w1 ∧ P w2.
Proof.
  intros Hh. induction text as [|t text IH]; cbn [matchstar_loop].
  - rewrite orb_false_r, Hh. simpl. split.
    + intros HP. by exists [], [].
    + intros (w1 & w2 & Hw & _ & HP). symmetry in Hw. apply app_nil in Hw as [_ ->]. done.
  - rewrite orb_true_iff, Hh. destruct (Z.eqb_spec t 0) as [->|Ht]; cbn [negb andb].
    + simpl. split.
      * intros [HP|?]; [|done]. by exists [], [].
      * intros (w1 & w2 & Hw & _ & HP). symmetry in Hw. apply app_nil in Hw as [_ ->]. by left.
    + assert (cstr (t :: text) = t :: cstr text) as Hc by (simpl; by rewrite (proj2 (Z.eqb_neq t 0) Ht)).
      rewrite Hc. split.
      * intros [HP|Hrest]; [by exists [], (t :: cstr text)|].
        destruct ((t =? c) || (c =? DOT)) eqn:Hm; [|done].
        apply IH in Hrest as (w1 & w2 & Hw & Hall & HP).
        exists (t :: w1), w2. split_and!; [by rewrite Hw| |done]. constructor; [|done].
        apply orb_true_iff in Hm as [->%Z.eqb_eq|Hd%Z.eqb_eq]; [by right|by left].
      * intros (w1 & w2 & Hw & Hall & HP). destruct w1 as [|x w1]; simpl in Hw.
        -- left. by rewrite Hw.
        -- right. injection Hw as -> Hw. apply Forall_cons in Hall as [Hx Hall].
           assert ((x =? c) || (c =? DOT) = true) as ->.
           { apply orb_true_iff. destruct Hx as [->| ->]; [right|left]; apply Z.eqb_refl. }
           apply IH. by exists w1, w2.
Qed.

Lemma re_prefix_nil re w : parse_re re = ([], false) → re_prefix re w.
Proof. intros Hp. exists [], w. by rewrite Hp. Qed.

Lemma re_prefix_end re w : parse_re re = ([], true) → re_prefix re w ↔ w = [].
Proof.
  intros Hp. unfold re_prefix. rewrite Hp. simpl. split.
  - intros (w1 & w2 & -> & -> & H). by rewrite H.
  - intros ->. by exists [], [].
Qed.

Lemma re_prefix_one re re1 c w :
  parse_re re = (One c :: (parse_re re1).1, (parse_re re1).2) →
  re_prefix re w ↔ ∃ x w', w = x :: w' ∧ char_in c x ∧ re_prefix re1 w'.
Proof.
  intros Hp. unfold re_prefix. rewrite Hp. simpl. split.
  - intros (w1 & w2 & -> & (u1 & u2 & -> & (x & -> & Hx) & Hl) & He).
    exists x, (u2 ++ w2). split_and!; [done|done|]. by exists u2, w2.
  - intros (x & w' & -> & Hx & (w1 & w2 & -> & Hl & He)).
    exists (x :: w1), w2. split_and!; [done| |done]. exists [x], w1. split_and!; [done|by exists x|done].
Qed.

Lemma re_prefix_many re re2 c w :
  parse_re re = (Many c :: (parse_re re2).1, (parse_re re2).2) →
  re_prefix re w ↔ ∃ w1 w2, w = w1 ++ w2 ∧ Forall (char_in c) w1 ∧ re_prefix re2 w2.
Proof.
  intros Hp. unfold re_prefix. rewrite Hp. simpl. split.
  - intros (w1 & w2 & -> & (u1 & u2 & -> & Hx & Hl) & He).
    exists u1, (u2 ++ w2). split_and!; [by rewrite app_assoc|done|]. by exists u2, w2.
  - intros (u1 & u & -> & Hx & (w1 & w2 & -> & Hl & He)).
    exists (u1 ++ w1), w2. split_and!; [by rewrite app_assoc| |done]. by exists u1, w1.
Qed.

Lemma match_one c text (P : list Z → Prop) (here : list Z → bool) :
  (∀ t, here t = true ↔ P (cstr t)) →
  (if negb (deref text =? 0) && ((c =? DOT) || (c =? deref text)) then here (tail text) else false) = true ↔
  ∃ x w', cstr text = x :: w' ∧ char_in c x ∧ P w'.
Proof.
  intros Hh. destruct (Z.eqb_spec (deref text) 0) as [H0|H0]; simpl.
  - rewrite (cstr_nil _ H0). split; [done|]. by intros (x & w' & ? & _).
  - rewrite (cstr_tail _ H0). destruct ((c =? DOT) || (c =? deref text)) eqn:Hm.
    + rewrite Hh. split.
      * intros HP. exists (deref text), (cstr (tail text)). split_and!; [done| |done].
        apply orb_true_iff in Hm as [->%Z.eqb_eq| ->%Z.eqb_eq]; [by left|by right].
      * intros (x & w' & [= <- <-] & _ & HP). done.
    + split; [done|]. intros (x & w' & [= <- <-] & Hx & _).
      apply orb_false_iff in Hm as [H1%Z.eqb_neq H2%Z.eqb_neq]. by destruct Hx.
Qed.

Lemma parse_re_cons c s re2 :
  parse_re (c :: s :: re2) =
  if c =? 0 then ([], false)
  else if s =? STAR then let '(l, e) := parse_re re2 in (Many c :: l, e)
  else if (c =? DOLLAR) && (s =? 0) then ([], true)
  else let '(l, e) := parse_re (s :: re2) in (One c :: l, e).
Proof. reflexivity. Qed.

Lemma matchhere_spec n re text :
  (length re ≤ n)%nat → matchhere re text = true ↔ re_prefix re (cstr text).
Proof.
  revert re text. induction n as [|n IH]; intros re text Hn.
  { destruct re; [|simpl in Hn; lia]. split; [|done]. intros _. by apply re_prefix_nil. }
  destruct re as [|c re1]; [split; [|done]; intros _; by apply re_prefix_nil|]. simpl in Hn.
  assert (∀ re' t, (length re' ≤ n)%nat → matchhere re' t = true ↔ re_prefix re' (cstr t)) as Hrec by auto.
  cbn [matchhere]. destruct (Z.eqb_spec c 0) as [->|Hc].
  { split; [|done]. intros _. by apply re_prefix_nil. }
  assert ((c =? 0) = false) as Hcf by (by apply Z.eqb_neq).
  assert (∀ t, (deref t =? 0) = true ↔ cstr t = []) as Hend.
  { intros t. rewrite Z.eqb_eq. split; [apply cstr_nil|]. intros Ht. by rewrite deref_cstr, Ht. }
  destruct re1 as [|s re2].
  - destruct (Z.eqb_spec c DOLLAR) as [->|Hd].
    + rewrite Hend, re_prefix_end; [done|]. done.
    + assert (parse_re [c] = (One c :: (parse_re []).1, (parse_re []).2)) as Hp.
      { cbn [parse_re]. by rewrite Hcf, (proj2 (Z.eqb_neq _ _) Hd). }
      rewrite (re_prefix_one _ _ _ _ Hp). apply match_one. intros t. apply Hrec. simpl. lia.
  - destruct (Z.eqb_spec s STAR) as [->|Hs].
    + assert (parse_re (c :: STAR :: re2) = (Many c :: (parse_re re2).1, (parse_re re2).2)) as Hp.
      { cbn [parse_re]. rewrite Hcf. simpl. by destruct (parse_re re2). }
      rewrite (re_prefix_many _ _ _ _ Hp). apply matchstar_spec. intros t. apply Hrec. simpl in Hn. lia.
    + destruct ((c =? DOLLAR) && (s =? 0)) eqn:Hd.
      * rewrite Hend, re_prefix_end; [done|]. cbn [parse_re].
        by rewrite Hcf, (proj2 (Z.eqb_neq _ _) Hs), Hd.
      * assert (parse_re (c :: s :: re2) = (One c :: (parse_re (s :: re2)).1, (parse_re (s :: re2)).2)) as Hp.
        { rewrite parse_re_cons, Hcf, (proj2 (Z.eqb_neq _ _) Hs), Hd. by destruct (parse_re (s :: re2)). }
        rewrite (re_prefix_one _ _ _ _ Hp). apply match_one. intros t. apply Hrec. simpl in *. lia.
Qed.

Lemma match_loop_spec re text :
  match_loop re text = true ↔ ∃ w1 w2, cstr text = w1 ++ w2 ∧ re_prefix re w2.
Proof.
  induction text as [|t text IH]; cbn [match_loop];
    rewrite orb_true_iff, (matchhere_spec (length re)) by done.
  - simpl. split; [intros [HP|?]; [by exists [], []|done]|].
    intros (w1 & w2 & Hw & HP). symmetry in Hw. apply app_nil in Hw as [_ ->]. by left.
  - simpl. destruct (t =? 0).
    + split; [intros [HP|?]; [by exists [], []|done]|].
      intros (w1 & w2 & Hw & HP). symmetry in Hw. apply app_nil in Hw as [_ ->]. by left.
    + rewrite IH. split.
      * intros [HP|(w1 & w2 & -> & HP)]; [by exists [], (t :: cstr text)|by exists (t :: w1), w2].
      * intros ([|x w1] & w2 & Hw & HP); simpl in Hw; [left; by rewrite Hw|].
        injection Hw as _ Hw. right. by exists w1, w2.
Qed.

(** C32: the matcher of grep is correct: match(re, text) holds exactly when the
    text has a substring (a prefix, when the pattern starts with ^; a suffix or
    the whole text, when it ends in $) in the language the pattern denotes,
    where c matches itself, . any character and c* any number of them. *)
Theorem match_correct re text :
  match_re re text = true ↔
  if deref re =? CARET then re_prefix (tail re) (cstr text)
  else ∃ w1 w2, cstr text = w1 ++ w2 ∧ re_prefix re w2.
Proof.
  unfold match_re. destruct (deref re =? CARET); [by apply (matchhere_spec (length (tail re)))|].
  apply match_loop_spec.
Qed.

(** ** The loop over lines *)
Definition BUFSZ : nat := 1024.

(** The inner loop of grep from pointer [p]: the lines written, the buffer and
    the final p.  Every round passes a newline, so 1024 rounds are enough. *)
Fixpoint grep_lines (fuel : nat) (pattern buf : list Z) (p : nat) : list (list Z) * list Z * nat :=
  match fuel with
  | O => ([], buf, p)
  | S fuel =>
    match strchr (drop p buf) NL with
    | None => ([], buf, p)
    | Some k =>
      let q := (p + k)%nat in
      let buf0 := <[q := 0]> buf in
      if match_re pattern (drop p buf0) then
        let buf1 := <[q := NL]> buf0 in
        let '(out, buf', p') := grep_lines fuel pattern buf1 (q + 1) in
        (slice buf1 p (q + 1 - p) :: out, buf', p')
      else grep_lines fuel pattern buf0 (q + 1)
    end
  end.

(** One round of the outer loop: [chunk] is what read stored at buf+m.  None is
    a store outside buf. *)
Definition grep_read (pattern chunk buf : list Z) (m : Z) : option (list (list Z) * list Z * Z) :=
  if decide (0 ≤ m ∧ m + Z.of_nat (length chunk) ≤ Z.of_nat BUFSZ) then
    let buf := splice buf (Z.to_nat m) chunk in
    let m := m + Z.of_nat (length chunk) in
    let '(out, buf, p) := grep_lines (S BUFSZ) pattern buf 0 in
    let m := if decide (p = 0)%nat then 0 else m in
    if 0 <? m then
      let m := m - Z.of_nat p in
      Some (out, splice buf 0 (slice buf p (Z.to_nat m)), m)
    else Some (out, buf, m)
  else None.

(** The outer loop; [chunks] are the results of the read calls. *)
Fixpoint grep (pattern : list Z) (chunks : list (list Z)) (buf : list Z) (m : Z) : option (list (list Z)) :=
  match chunks with
  | [] => Some []
  | chunk :: chunks =>
    '(out, buf, m) ← grep_read pattern chunk buf m;
    app out <$> grep pattern chunks buf m
  end.
Definition gbuf0 : list Z := replicate BUFSZ 0.

(** The complete lines of some input, without their newlines. *)
Fixpoint full_lines (cur l : list Z) : list (list Z) :=
  match l with
  | [] => []
  | c :: l => if c =? NL then cur :: full_lines [] l else full_lines (cur ++ [c]) l
  end.

(** Only the string before the first 0 matters. *)
Lemma match_re_cstr re t t' : cstr t = cstr t' → match_re re t = match_re re t'.
Proof.
  intros Ht. apply eq_bool_prop_intro. rewrite !Is_true_true. unfold match_re.
  destruct (deref re =? CARET).
  - by rewrite !(matchhere_spec (length (tail re))), Ht by done.
  - by rewrite !match_loop_spec, Ht.
Qed.

Lemma full_lines_app cur l rest :
  Forall (λ c, c ≠ NL) l → full_lines cur (l ++ NL :: rest) = (cur ++ l) :: full_lines [] rest.
Proof.
  intros Hl. revert cur. induction Hl as [|c l Hc Hl IH]; intros cur; simpl; [by rewrite app_nil_r|].
  rewrite (proj2 (Z.eqb_neq c NL) Hc), IH. by rewrite <- app_assoc.
Qed.

Lemma full_lines_none cur l : Forall (λ c, c ≠ NL) l → full_lines cur l = [].
Proof.
  intros Hl. revert cur. induction Hl as [|c l Hc Hl IH]; intros cur; simpl; [done|].
  rewrite (proj2 (Z.eqb_neq c NL) Hc). apply IH.
Qed.

Lemma strchr_app l rest c :
  Forall (λ x, x ≠ 0 ∧ x ≠ c) l → c ≠ 0 → strchr (l ++ c :: rest) c = Some (length l).
Proof.
  intros Hl Hc. induction Hl as [|x l [H1 H2] Hl IH]; simpl.
  - by rewrite (proj2 (Z.eqb_neq c 0) Hc), Z.eqb_refl.
  - by rewrite (proj2 (Z.eqb_neq x 0) H1), (proj2 (Z.eqb_neq x c) H2), IH.
Qed.

Lemma strchr_none l rest c :
  Forall (λ x, x ≠ 0 ∧ x ≠ c) l → deref rest = 0 → strchr (l ++ rest) c = None.
Proof.
  intros Hl Hr. induction Hl as [|x l [H1 H2] Hl IH]; simpl.
  - destruct rest as [|y rest]; [done|]. unfold deref in Hr. simpl in *. by rewrite Hr.
  - by rewrite (proj2 (Z.eqb_neq x 0) H1), (proj2 (Z.eqb_neq x c) H2), IH.
Qed.

(** The text splits at its first newline, if it has one. *)
Lemma split_line (l : list Z) :
  Forall (λ c, c ≠ NL) l ∨ ∃ l1 l2, l = l1 ++ NL :: l2 ∧ Forall (λ c, c ≠ NL) l1.
Proof.
  induction l as [|c l IH]; [by left|]. destruct (Z.eq_dec c NL) as [->|Hc].
  - right. by exists [], l.
  - destruct IH as [Hl|(l1 & l2 & -> & Hl1)]; [left|right]; [by constructor|].
    exists (c :: l1), l2. split; [done|]. by constructor.
Qed.

Lemma grep_lines_spec fuel pattern pre rest z :
  (length rest < fuel)%nat → Forall (λ c, c ≠ 0) rest → deref z = 0 →
  ∃ pre' rest', grep_lines fuel pattern (pre ++ rest ++ z) (length pre)
    = ((λ l, l ++ [NL]) <$> filter (λ l, match_re pattern l = true) (full_lines [] rest),
       pre' ++ rest' ++ z, length pre') ∧
    length (pre' ++ rest') = length (pre ++ rest) ∧ Forall (λ c, c ≠ NL) rest' ∧
    ∃ done, rest = done ++ rest' ∧ length pre' = length (pre ++ done).
Proof.
  revert pre rest. induction fuel as [|fuel IH]; intros pre rest Hf Hnz Hz; [lia|]. cbn [grep_lines].
  rewrite drop_app_length. destruct (split_line rest) as [Hno|(l1 & l2 & -> & Hl1)].
  - rewrite strchr_none; [|rewrite Forall_forall in *; auto|done].
    exists pre, rest. rewrite full_lines_none by done. split_and!; try done.
    exists []. by rewrite app_nil_r.
  - apply Forall_app in Hnz as [Hnz1 [_ Hnz2]%Forall_cons].
    rewrite <- app_assoc. cbn [app].
    rewrite strchr_app; [|rewrite Forall_forall in *; auto|done].
    rewrite full_lines_app by done. cbn [app]. cbv zeta.
    assert (∀ c d, <[(length pre + length l1)%nat := c]> (pre ++ l1 ++ d :: l2 ++ z) = pre ++ l1 ++ c :: l2 ++ z) as Hins.
    { intros c d. rewrite insert_app_r. by rewrite <- (Nat.add_0_r (length l1)), insert_app_r. }
    rewrite (Hins 0), drop_app_length.
    assert (match_re pattern (l1 ++ 0 :: l2 ++ z) = match_re pattern l1) as Hm.
    { apply match_re_cstr. by rewrite cstr_app_zero, cstr_id. }
    assert (∀ c, pre ++ l1 ++ c :: l2 ++ z = (pre ++ l1 ++ [c]) ++ l2 ++ z) as Hre by (intros c; by rewrite <- !app_assoc).
    assert (∀ c, (length pre + length l1 + 1)%nat = length (pre ++ l1 ++ [c])) as Hlen
      by (intros c; rewrite !length_app; simpl; lia).
    rewrite Hm. destruct (match_re pattern l1) eqn:Hmatch.
    + rewrite (Hins NL), Hre, (Hlen NL).
      destruct (IH (pre ++ l1 ++ [NL]) l2) as (pre' & rest' & Hg & Hl & Hr & dn & Hdn & Hpl);
        [rewrite length_app in Hf; simpl in Hf; lia|done|done|].
      rewrite Hg. exists pre', rest'. rewrite filter_cons_True by done. split_and!; try done.
      * cbn [fmap list_fmap]. do 3 f_equal. unfold slice. rewrite <- app_assoc, drop_app_length.
        rewrite take_app_length'; [done|]. rewrite !length_app. simpl. lia.
      * clear -Hl. len.
      * exists (l1 ++ NL :: dn). rewrite Hdn, <- app_assoc. split; [done|]. clear -Hpl. len.
    + rewrite Hre, (Hlen 0).
      destruct (IH (pre ++ l1 ++ [0]) l2) as (pre' & rest' & Hg & Hl & Hr & dn & Hdn & Hpl);
        [rewrite length_app in Hf; simpl in Hf; lia|done|done|].
      rewrite Hg. exists pre', rest'. rewrite filter_cons_False by (by rewrite Hmatch). split_and!; try done.
      * clear -Hl. len.
      * exists (l1 ++ NL :: dn). rewrite Hdn, <- app_assoc. split; [done|]. clear -Hpl. len.
Qed.

(** On the first block of input that grep reads (without 0 bytes, smaller than
    the buffer) it writes exactly the complete lines that match the pattern, in
    order, each with its newline, and keeps the incomplete last line, if a
    complete one precedes it, at the start of the buffer. *)
Theorem grep_first_read pattern chunk :
  Forall (λ c, c ≠ 0) chunk → (length chunk < BUFSZ)%nat →
  ∃ buf rest, grep_read pattern chunk gbuf0 0
    = Some ((λ l, l ++ [NL]) <$> filter (λ l, match_re pattern l = true) (full_lines [] chunk),
            buf, Z.of_nat (length rest)) ∧
    take (length rest) buf = rest ∧ Forall (λ c, c ≠ NL) rest ∧
    (rest = [] ∨ ∃ dn, chunk = dn ++ rest ∧ dn ≠ []).
Proof.
  intros Hnz Hlen. unfold grep_read. rewrite decide_True by lia.
  set (z := replicate (BUFSZ - length chunk) 0).
  assert (splice gbuf0 (Z.to_nat 0) chunk = [] ++ chunk ++ z) as ->.
  { unfold splice, gbuf0, z. cbn [Z.to_nat]. rewrite take_0, Nat.add_0_l. by rewrite drop_replicate. }
  assert (deref z = 0) as Hz by (unfold z; by destruct (BUFSZ - length chunk)%nat).
  destruct (grep_lines_spec (S BUFSZ) pattern [] chunk z) as (pre' & rest' & Hg & Hl & Hr & dn & Hdn & Hpl);
    [lia|done|done|].
  change 0%nat with (length (@nil Z)) at 1. rewrite Hg. cbn [app length] in *.
  destruct (decide (length pre' = 0)%nat) as [H0|H0].
  - exists (pre' ++ rest' ++ z), []. simpl. split_and!; [done|done|constructor|by left].
  - destruct (Z.ltb_spec 0 (0 + Z.of_nat (length chunk))) as [Hpos|Hneg].
    2: { exfalso. rewrite Hdn, length_app in Hneg. lia. }
    assert (length chunk = length pre' + length rest')%nat as Hlc by (rewrite <- Hl; apply length_app).
    exists (splice (pre' ++ rest' ++ z) 0 rest'), rest'.
    replace (0 + Z.of_nat (length chunk) - Z.of_nat (length pre')) with (Z.of_nat (length rest')) by lia.
    rewrite Nat2Z.id. unfold slice. rewrite drop_app_length, take_app_length. split_and!; try done.
    + unfold splice. rewrite take_0, app_nil_l. apply take_app_length.
    + right. exists dn. split; [done|]. intros ->. simpl in Hpl. lia.
Qed.

(** short reads (as from a pipe) confuse grep.  Old lines behind the new data
    are scanned again: after reads of two lines and of one byte it writes a line
    that was never in the input and repeats one, and the number of bytes kept
    becomes negative, so that the next read stores outside the buffer.  And the
    start of a line that arrives without its newline is dropped. *)
Theorem grep_short_reads :
  grep [DOT] [[97; 97; NL; 98; 98; NL]; [99]] gbuf0 0
    = Some [[97; 97; NL]; [98; 98; NL]; [99; 97; NL]; [98; 98; NL]] ∧
  grep [DOT] [[97; 97; NL; 98; 98; NL]; [99]; [100]] gbuf0 0 = None ∧
  grep [104] [[104; 101]; [108; 111; NL]] gbuf0 0 = Some [].
Proof. split_and!; vm_compute; reflexivity. Qed.

(** Witness of grep_first_read. *)
Lemma grep_first_read_witness :
  ∃ buf (rest : list Z), grep_read [97] [97; NL; 98; NL; 99] gbuf0 0 = Some ([[97; NL]], buf, Z.of_nat (length rest)).
Proof.
  destruct (grep_first_read [97] [97; NL; 98; NL; 99]) as (buf & rest & Hg & _).
  - by repeat constructor.
  - simpl. unfold BUFSZ. lia.
  - exists buf, rest. rewrite Hg. reflexivity.
Defined.
