(* ===== verification/Posix.v ===== *)
(** * System calls as user programs see them

    The specification the user programs are verified against: named files with
    their contents, descriptors with offsets, and the console output.  It states
    what sysfile.c and file.c do to file contents for programs that run alone,
    with room on the disk and in the tables, in one directory: open with
    O_CREATE keeps an existing file, a file stays readable through its
    descriptors after unlink, write works in pieces of 1536 bytes and fails at
    the largest file size. *)
From stdpp Require Import base list gmap numbers option strings.
From Stdlib Require Import ZArith Lia.
From S2P Require Import Prelude Kstring Layout Ulib.
Open Scope Z_scope.

(** An open descriptor: the console, or a file with its offset. *)
Inductive ofd := OConsole | OFile (ino off : nat) (readable writable : bool).

Record usys := mkU {
  u_names : gmap (list Z) nat;
  u_inodes : gmap nat (list Z);
  u_next : nat;                 (** the next inode number *)
  u_fds : list (option ofd);
  u_out : list Z;               (** what was written to the console *)
  u_in : list Z }.              (** what is typed there, up to the final ^D *)

Definition set_names n s := mkU n (u_inodes s) (u_next s) (u_fds s) (u_out s) (u_in s).
Definition set_inodes i s := mkU (u_names s) i (u_next s) (u_fds s) (u_out s) (u_in s).
Definition set_fds f s := mkU (u_names s) (u_inodes s) (u_next s) f (u_out s) (u_in s).
Definition set_in i s := mkU (u_names s) (u_inodes s) (u_next s) (u_fds s) (u_out s) i.
Definition set_out o s := mkU (u_names s) (u_inodes s) (u_next s) (u_fds s) o (u_in s).

(** The lowest free descriptor. *)
Definition free_fd (l : list (option ofd)) : option nat := fst <$> list_find (λ o, o = None) l.

Definition open_ino (ino : nat) (mode : Z) : M usys Z :=
  s <- gets id ;;
  match free_fd (u_fds s) with
  | None => ret (-1)
  | Some fd =>
    modify (set_fds (<[fd := Some (OFile ino 0 (negb (has mode O_WRONLY))
      (has mode O_WRONLY || has mode O_RDWR))]> (u_fds s))) ;;;
    ret (Z.of_nat fd)
  end.
Definition uopen (name : list Z) (mode : Z) : M usys Z :=
  s <- gets id ;;
  match u_names s !! cstr name with
  | Some ino => open_ino ino mode
  | None =>
    if has mode O_CREATE then
      modify (λ s, mkU (<[cstr name := u_next s]> (u_names s)) (<[u_next s := []]> (u_inodes s))
                     (S (u_next s)) (u_fds s) (u_out s) (u_in s)) ;;;
      open_ino (u_next s) mode
    else ret (-1)
  end.

Definition uunlink (name : list Z) : M usys Z :=
  s <- gets id ;;
  match u_names s !! cstr name with
  | None => ret (-1)
  | Some _ => modify (set_names (delete (cstr name) (u_names s))) ;;; ret 0
  end.

Definition uclose (fd : Z) : M usys Z :=
  s <- gets id ;;
  match aget (u_fds s) fd with
  | Some (Some _) => modify (set_fds (<[Z.to_nat fd := None]> (u_fds s))) ;;; ret 0
  | _ => ret (-1)
  end.

(** The size in struct stat. *)
Definition ufstat (fd : Z) : M usys (option Z) :=
  s <- gets id ;;
  match aget (u_fds s) fd with
  | Some (Some (OFile ino _ _ _)) =>
    ret ((λ d, Z.of_nat (length d)) <$> u_inodes s !! ino)
  | Some (Some OConsole) => ret (Some 0)
  | _ => ret None
  end.

(** A read of the console returns at most one line. *)
Fixpoint take_line (n : nat) (inp : list Z) : list Z * list Z :=
  match n, inp with
  | S n, c :: inp =>
    if c =? NL then ([c], inp) else let '(l, rest) := take_line n inp in (c :: l, rest)
  | _, _ => ([], inp)
  end.
(** The result and the bytes read. *)
Definition uread (fd n : Z) : M usys (Z * list Z) :=
  s <- gets id ;;
  match aget (u_fds s) fd with
  | Some (Some (OFile ino off r w)) =>
    match u_inodes s !! ino with
    | Some d =>
      if r && (off <=? length d)%nat then
        let l := slice d off (Z.to_nat n) in
        modify (set_fds (<[Z.to_nat fd := Some (OFile ino (off + length l) r w)]> (u_fds s))) ;;;
        ret (Z.of_nat (length l), l)
      else ret (-1, [])
    | None => undefined
    end
  | Some (Some OConsole) =>
    let '(l, rest) := take_line (Z.to_nat n) (u_in s) in
    modify (set_in rest) ;;; ret (Z.of_nat (length l), l)
  | _ => ret (-1, [])
  end.

(** write of a file, one transaction after the other: the new contents, offset
    and whether all was written. *)
Definition WCHUNK : nat := 1536.
Fixpoint write_chunks (fuel : nat) (d : list Z) (off : nat) (src : list Z) : list Z * nat * bool :=
  match fuel, src with
  | S fuel, _ :: _ =>
    let c := take WCHUNK src in
    if MAXFILE * BSIZE <? Z.of_nat (off + length c) then (d, off, false)
    else write_chunks fuel (take off d ++ c ++ drop (off + length c) d) (off + length c) (drop WCHUNK src)
  | _, _ => (d, off, true)
  end.

Definition uwrite (fd : Z) (src : list Z) : M usys Z :=
  s <- gets id ;;
  match aget (u_fds s) fd with
  | Some (Some (OFile ino off r w)) =>
    match u_inodes s !! ino with
    | Some d =>
      if w then
        let '(d', off', ok) := write_chunks (length src) d off src in
        modify (λ s, set_inodes (<[ino := d']> (u_inodes s))
          (set_fds (<[Z.to_nat fd := Some (OFile ino off' r w)]> (u_fds s)) s)) ;;;
        ret (if ok then Z.of_nat (length src) else -1)
      else ret (-1)
    | None => undefined
    end
  | Some (Some OConsole) => modify (λ s, set_out (u_out s ++ src) s) ;;; ret (Z.of_nat (length src))
  | _ => ret (-1)
  end.

(** printf to a descriptor: argument words, with [str] the strings at addresses.
    A directive without an argument is undefined. *)
Definition uprintfw (str : Z → list Z) (fd : Z) (fmt ap : list Z) : M usys unit :=
  match printf str fmt ap false with
  | Some l => uwrite fd l ;;; ret tt
  | None => undefined
  end.
(** The usual case: each argument a string. *)
Definition uprintf (fd : Z) (fmt : list Z) (args : list (list Z)) : M usys unit :=
  uprintfw (λ a, default [] (args !! Z.to_nat (a - 1))) fd fmt (Z.of_nat <$> seq 1 (length args)).

(** ** The rules of the calls *)
Lemma wp_uread s fd ino off r w d n Q :
  u_fds s !! fd = Some (Some (OFile ino off r w)) → u_inodes s !! ino = Some d →
  r = true → (off ≤ length d)%nat →
  (let l := slice d off (Z.to_nat n) in
   Q (Z.of_nat (length l), l) (set_fds (<[fd := Some (OFile ino (off + length l) r w)]> (u_fds s)) s)) →
  wp (uread (Z.of_nat fd) n) Q s.
Proof.
  intros Hfd Hd -> Hoff HQ. unfold uread. wstep1. wstep1. rewrite aget_nat. cbn [id]. rewrite Hfd, Hd.
  rewrite (proj2 (Nat.leb_le _ _)) by done. cbn [andb]. cbv zeta. wstep. by rewrite Nat2Z.id.
Qed.

Lemma write_chunks_all fuel d off src :
  (length src ≤ fuel)%nat → Z.of_nat (off + length src) ≤ MAXFILE * BSIZE → (off ≤ length d)%nat →
  write_chunks fuel d off src
  = (take off d ++ src ++ drop (off + length src) d, (off + length src)%nat, true).
Proof.
  revert d off src. induction fuel as [|fuel IH]; intros d off [|x src] Hs Hmax Hoff; try (simpl in Hs; lia).
  1,2: simpl; by rewrite Nat.add_0_r, take_drop.
  cbn [write_chunks]. set (src' := x :: src) in *. clearbody src'.
  assert (length (take WCHUNK src') = Nat.min WCHUNK (length src')) as Hc by apply length_take.
  rewrite (proj2 (Z.ltb_ge _ _)) by lia.
  assert (length (drop WCHUNK src') = (length src' - WCHUNK)%nat) as Hd by apply length_drop.
  rewrite IH; [|rewrite Hd; unfold WCHUNK in *; lia|rewrite Hd, Hc; lia|rewrite !length_app, !length_take, length_drop; lia].
  set (c := take WCHUNK src') in *. set (e := drop WCHUNK src') in *.
  assert (src' = c ++ e) as E by (symmetry; apply take_drop).
  assert (length (take off d ++ c) = (off + length c)%nat) as Ho by (rewrite length_app, length_take; lia).
  rewrite (app_assoc (take off d) c), take_app_length' by done.
  rewrite drop_app_ge, Ho, drop_drop by lia. rewrite E, length_app, <- !app_assoc.
  by rewrite !Nat.add_assoc, Nat.add_sub_swap, Nat.sub_diag by lia.
Qed.

Lemma wp_uwrite s fd ino off r w d src Q :
  u_fds s !! fd = Some (Some (OFile ino off r w)) → u_inodes s !! ino = Some d → w = true →
  Z.of_nat (off + length src) ≤ MAXFILE * BSIZE → (off ≤ length d)%nat →
  Q (Z.of_nat (length src))
    (set_inodes (<[ino := take off d ++ src ++ drop (off + length src) d]> (u_inodes s))
      (set_fds (<[fd := Some (OFile ino (off + length src) r w)]> (u_fds s)) s)) →
  wp (uwrite (Z.of_nat fd) src) Q s.
Proof.
  intros Hfd Hd -> Hmax Hoff HQ. unfold uwrite. wstep1. wstep1. rewrite aget_nat. cbn [id]. rewrite Hfd, Hd.
  rewrite write_chunks_all by done. wstep. by rewrite Nat2Z.id.
Qed.

Lemma wp_uclose s fd o Q :
  u_fds s !! fd = Some (Some o) → Q 0 (set_fds (<[fd := None]> (u_fds s)) s) → wp (uclose (Z.of_nat fd)) Q s.
Proof.
  intros Hfd HQ. unfold uclose. wstep1. wstep1. rewrite aget_nat. cbn [id]. rewrite Hfd. wstep. by rewrite Nat2Z.id.
Qed.
