(* ===== verification/Uprogs.v ===== *)
(** * User programs: truncate, vim, less, cat, wc, echo
    (truncate.c, vim.c, less.c, cat.c, wc.c, echo.c, stat of ulib.c)

    The programs over the system calls of Posix.v.  A function that may call
    exit() returns false when it did.  Loops that run to the end of a file carry
    fuel; the theorems show that the fuel given is enough. *)
From stdpp Require Import base list gmap numbers option strings.
From Stdlib Require Import ZArith Lia.
From S2P Require Import Prelude Kstring Layout Ulib Posix.
Open Scope Z_scope.


(** ** truncate.c *)
Definition TBUF : Z := 512.

(** while(k--) write(fd, empty, 1); *)
Fixpoint write_zeros (k : nat) (fd : Z) : M usys unit :=
  match k with
  | O => ret tt
  | S k => uwrite fd [0] ;;; write_zeros k fd
  end.


(** The size argument: mode and number, and the multiplier of its unit letter,
    which is cut off the string. *)
Inductive tmode := M_ADD | M_SUBSTRACT | M_CHANGE.
Definition arg_mode (a : list Z) : tmode * list Z :=
  match strchr a 43 with
  | Some _ => (M_ADD, tail a)
  | None =>
    match strchr a 45 with
    | Some _ => (M_SUBSTRACT, tail a)
    | None => (M_CHANGE, a)
    end
  end.
Definition arg_unit (a : list Z) : list Z * Z :=
  match strchr a 75 with
  | Some k => (take k a, 1024)
  | None =>
    match strchr a 77 with
    | Some k => (take k a, 1024 * 1024)
    | None =>
      match strchr a 71 with
      | Some k => (take k a, 1024 * 1024 * 1024)
      | None => (a, 1)
      end
    end
  end.
(** The new size, from the argument and st.size. *)
Definition new_size (a : list Z) (cur : Z) : Z :=
  let '(mode, charsize) := arg_mode a in
  let '(charsize, multiplier) := arg_unit charsize in
  let v := s32 (atoi charsize * multiplier) in
  match mode with
  | M_ADD => s32 (cur + v)
  | M_SUBSTRACT => let size := s32 (cur - v) in if size <? 0 then 0 else size
  | M_CHANGE => v
  end.


(** ** vim.c *)
(** The loop that measures the file: the number of bytes read. *)
Fixpoint length_loop (fuel : nat) (fd len : Z) : M usys Z :=
  match fuel with
  | O => undefined
  | S fuel =>
    r <- uread fd TBUF ;;
    if 0 <? r.1 then length_loop fuel fd (s32 (len + r.1)) else ret len
  end.

Definition overwrite (fuel : nat) (name message : list Z) : M usys bool :=
  fd0 <- uopen name O_RDWR ;;
  if fd0 <? 0 then uprintf 1 (cs "cannot open file %s" ++ [NL]) [name] ;;; ret false
  else
    len <- length_loop fuel fd0 0 ;;
    fd1 <- uopen name (Z.lor O_CREATE O_RDWR) ;;
    if fd1 <? 0 then uprintf 1 (cs "cannot open file %s" ++ [NL]) [name] ;;; ret false
    else
      uwrite fd1 (cstr message) ;;;
      (if ustrlen message <? u32 len then write_zeros (Z.to_nat (s32 (len - ustrlen message))) fd1 else ret tt) ;;;
      uclose fd0 ;;;
      uclose fd1 ;;;
      ret true.

Definition vim_main (fuel : nat) (argv : list (list Z)) : M usys unit :=
  match argv with
  | _ :: a1 :: rest =>
    if strcmp (cs "--version") a1 =? 0 then
      uprintf 1 [NL] [] ;;;
      uprintf 1 (cs "Vim Version Wibu 1.0" ++ [NL]) [] ;;;
      uprintf 1 [NL] []
    else if strcmp (cs "--help") a1 =? 0 then
      uprintf 1 [NL] [] ;;;
      uprintf 1 (cs "Pakai vim [filename] [message] untuk menulis message ke dalam file" ++ [NL]) [] ;;;
      uprintf 1 [NL] [] ;;;
      uprintf 1 (cs "Pakai vim --version untuk melihat versi" ++ [NL]) []
    else
      match rest with
      | a2 :: _ => overwrite fuel a1 a2 ;;; ret tt
      | [] => uprintf 1 (cs "Need more than 1 argument, check --help" ++ [NL]) []
      end
  | _ => uprintf 1 (cs "Need more argument" ++ [NL]) []
  end.

(** ** less.c *)
Definition LBUF : Z := 80.
Section less.
(** [after]: the bytes the linker places behind buf, which printf reads when
    buf holds no 0; [mem]: the strings at the addresses of the program. *)
Context (after : list Z) (mem : Z → list Z).

(** printf(1, buf, sizeof(buf)) after a read into the cleared buf. *)
Definition print_buf (l : list Z) : M usys unit :=
  uprintfw mem 1 (l ++ replicate (Z.to_nat LBUF - length l) 0 ++ after) [LBUF].
(** The for loop over the first rows; false when the program exits at the end
    of the file. *)
Fixpoint less_rows (rows : nat) (fd0 : Z) : M usys bool :=
  match rows with
  | O => ret true
  | S rows =>
    r <- uread fd0 LBUF ;;
    print_buf r.2 ;;;
    if r.1 <=? 0 then uprintf 1 (cs "End of file" ++ [NL]) [] ;;; ret false
    else less_rows rows fd0
  end.
(** Past the rows n is that of the last row, so its test for the end of the
    file is false. *)
Definition less (name : list Z) : M usys bool :=
  fd0 <- uopen name O_RDONLY ;;
  if fd0 <? 0 then uprintf 1 (cs "cannot open file %s" ++ [NL]) [name] ;;; ret false
  else
    more <- less_rows 23 fd0 ;;
    if negb more then ret false
    else
      inp <- uread 1 20 ;;
      if strcmp inp.2 [NL] =? 0 then
        r <- uread fd0 LBUF ;; print_buf r.2 ;;; uclose fd0 ;;; ret true
      else if strcmp inp.2 (cs "q") =? 0 then uprintf 1 (cs "Quit" ++ [NL]) [] ;;; ret false
      else uclose fd0 ;;; ret true.

Definition less_main (argv : list (list Z)) : M usys unit :=
  match argv with
  | _ :: a1 :: _ =>
    if strcmp (cs "--version") a1 =? 0 then
      uprintf 1 [NL] [] ;;;
      uprintf 1 (cs "Less Version Wibu 1.0" ++ [NL]) [] ;;;
      uprintf 1 [NL] []
    else if strcmp (cs "--help") a1 =? 0 then
      uprintf 1 [NL] [] ;;;
      uprintf 1 (cs "Pakai less [filename] untuk membaca file" ++ [NL]) [] ;;;
      uprintf 1 [NL] [] ;;;
      uprintf 1 (cs "Pakai less --version untuk melihat versi" ++ [NL]) []
    else less a1 ;;; ret tt
  | _ => uprintf 1 (cs "Need more argument" ++ [NL]) []
  end.
End less.

(** ** cat.c *)
Fixpoint cat (fuel : nat) (fd : Z) : M usys bool :=
  match fuel with
  | O => undefined
  | S fuel =>
    r <- uread fd TBUF ;;
    if 0 <? r.1 then uwrite 1 r.2 ;;; cat fuel fd
    else if r.1 <? 0 then uprintf 1 (cs "cat: read error" ++ [NL]) [] ;;; ret false
    else ret true
  end.

(** ** wc.c *)
Record counts := mkCounts { wc_l : Z; wc_w : Z; wc_c : Z; wc_inword : bool }.
Definition wc_spaces : list Z := [32; 13; 9; 10; 11].
Definition wc_byte (k : counts) (b : Z) : counts :=
  let l := if b =? NL then wc_l k + 1 else wc_l k in
  match strchr wc_spaces b with
  | Some _ => mkCounts l (wc_w k) (wc_c k + 1) false
  | None => if wc_inword k then mkCounts l (wc_w k) (wc_c k + 1) true
            else mkCounts l (wc_w k + 1) (wc_c k + 1) true
  end.
Fixpoint wc_loop (fuel : nat) (fd : Z) (k : counts) : M usys (option counts) :=
  match fuel with
  | O => undefined
  | S fuel =>
    r <- uread fd TBUF ;;
    if 0 <? r.1 then wc_loop fuel fd (foldl wc_byte k r.2)
    else if r.1 <? 0 then ret None else ret (Some k)
  end.
Definition wc (fuel : nat) (fd : Z) (name : list Z) : M usys bool :=
  k <- wc_loop fuel fd (mkCounts 0 0 0 false) ;;
  match k with
  | None => uprintf 1 (cs "wc: read error" ++ [NL]) [] ;;; ret false
  | Some k =>
    uprintfw (λ _, name) 1 (cs "%d %d %d %s" ++ [NL]) [wc_l k; wc_w k; wc_c k; 1] ;;; ret true
  end.

(** main of cat.c and wc.c share their shape: no argument reads standard input,
    else each file in turn. *)
Fixpoint each_file (run : Z → list Z → M usys bool) (err : list Z) (names : list (list Z)) : M usys unit :=
  match names with
  | [] => ret tt
  | a :: names =>
    fd <- uopen a 0 ;;
    if fd <? 0 then uprintf 1 err [a]
    else ok <- run fd a ;; if ok : bool then uclose fd ;;; each_file run err names else ret tt
  end.
Definition cat_main (fuel : nat) (argv : list (list Z)) : M usys unit :=
  match tail argv with
  | [] => cat fuel 0 ;;; ret tt
  | names => each_file (λ fd _, cat fuel fd) (cs "cat: cannot open %s" ++ [NL]) names
  end.
Definition wc_main (fuel : nat) (argv : list (list Z)) : M usys unit :=
  match tail argv with
  | [] => wc fuel 0 [] ;;; ret tt
  | names => each_file (wc fuel) (cs "wc: cannot open %s" ++ [NL]) names
  end.

(** ** echo.c *)
Fixpoint echo_loop (args : list (list Z)) : M usys unit :=
  match args with
  | [] => ret tt
  | a :: args =>
    uprintf 1 (cs "%s%s") [a; match args with [] => [NL] | _ => cs " " end] ;;; echo_loop args
  end.
Definition echo_main (argv : list (list Z)) : M usys unit := echo_loop (tail argv).

(** ** Rules *)
(** A state with other descriptors, inodes and output. *)
Definition st (s : usys) (F : list (option ofd)) (I : gmap nat (list Z)) (out : list Z) : usys :=
  mkU (u_names s) I (u_next s) F out (u_in s).
Lemma st_id s : s = st s (u_fds s) (u_inodes s) (u_out s).
Proof. by destruct s. Qed.

Lemma wp_read_st s F I out f ino off w d n Q :
  F !! f = Some (Some (OFile ino off true w)) → I !! ino = Some d → (off ≤ length d)%nat →
  (let l := slice d off (Z.to_nat n) in
   Q (Z.of_nat (length l), l) (st s (<[f := Some (OFile ino (off + length l) true w)]> F) I out)) →
  wp (uread (Z.of_nat f) n) Q (st s F I out).
Proof. intros Hf Hd Hoff HQ. eapply wp_uread; [exact Hf|exact Hd|done|done|exact HQ]. Qed.


Lemma wp_console s src Q :
  u_fds s !! 1%nat = Some (Some OConsole) →
  Q (Z.of_nat (length src)) (set_out (u_out s ++ src) s) → wp (uwrite 1 src) Q s.
Proof.
  intros Hf HQ. unfold uwrite. wstep1. wstep1. change 1 with (Z.of_nat 1). rewrite aget_nat. cbn [id].
  rewrite Hf. by wstep.
Qed.

Lemma free_fd_some l : (1 ≤ length (filter (λ o, o = None) l))%nat →
  ∃ f, free_fd l = Some f ∧ l !! f = Some None ∧
    ∀ x, length (filter (λ o : option ofd, o = None) (<[f := Some x]> l))
         = (length (filter (λ o, o = None) l) - 1)%nat.
Proof.
  induction l as [|[o|] l IH].
  - simpl. lia.
  - rewrite filter_cons_False by done. intros Hc. destruct (IH Hc) as (f & Hf & Hl & Hn). exists (S f).
    unfold free_fd in *. cbn [list_find]. rewrite decide_False by done.
    destruct (list_find _ l) as [[i y]|]; [|done]. simplify_eq/=. split; [done|]. split; [done|].
    intros x. rewrite filter_cons_False by done. apply Hn.
  - rewrite filter_cons_True by done. intros _. exists 0%nat. repeat split.
    intros x. change (<[0%nat := Some x]> (None :: l)) with (Some x :: l).
    rewrite filter_cons_False by done. simpl. lia.
Qed.

(** Room for n more descriptors. *)
Definition fd_room (n : nat) (F : list (option ofd)) : Prop := (n ≤ length (filter (λ o, o = None) F))%nat.

Lemma wp_open_ino s ino mode n Q :
  fd_room (S n) (u_fds s) →
  (∀ f, u_fds s !! f = Some None →
     let x := OFile ino 0 (negb (has mode O_WRONLY)) (has mode O_WRONLY || has mode O_RDWR) in
     (∀ y, fd_room n (<[f := Some y]> (u_fds s))) →
     Q (Z.of_nat f) (set_fds (<[f := Some x]> (u_fds s)) s)) →
  wp (open_ino ino mode) Q s.
Proof.
  intros Hr HQ. unfold fd_room in Hr. destruct (free_fd_some (u_fds s)) as (f & Hf & Hl & Hn); [lia|].
  unfold open_ino. wstep1. wstep1. cbn [id]. rewrite Hf. wstep. apply HQ; [done|]. intros y. unfold fd_room. rewrite Hn. lia.
Qed.

Lemma wp_open_old s name mode ino n Q :
  u_names s !! cstr name = Some ino → fd_room (S n) (u_fds s) →
  (∀ f, u_fds s !! f = Some None →
     let x := OFile ino 0 (negb (has mode O_WRONLY)) (has mode O_WRONLY || has mode O_RDWR) in
     (∀ y, fd_room n (<[f := Some y]> (u_fds s))) →
     Q (Z.of_nat f) (set_fds (<[f := Some x]> (u_fds s)) s)) →
  wp (uopen name mode) Q s.
Proof.
  intros Hn Hr HQ. unfold uopen. wstep1. wstep1. cbn [id]. rewrite Hn. by eapply wp_open_ino.
Qed.


Section copy.
Context (s : usys) (f0 f1 ino nw : nat) (d : list Z).
Hypotheses (Hino : u_inodes s !! ino = Some d) (Hne : ino ≠ nw)
  (Hf0 : (f0 < length (u_fds s))%nat) (Hf1 : (f1 < length (u_fds s))%nat) (Hf : f0 ≠ f1).




End copy.

Lemma fd_room_le n m F : fd_room n F → (m ≤ n)%nat → fd_room m F.
Proof. unfold fd_room. lia. Qed.

(** The contents after truncation to [size]. *)
Definition resized (d : list Z) (size : Z) : list Z :=
  take (Z.to_nat size) d ++ replicate (Z.to_nat size - length d) 0.








(** ** vim *)
(** Only the offsets of the descriptor change while the length is measured. *)
Lemma wp_length_loop s F I out f ino w d fuel off len :
  I !! ino = Some d → (f < length F)%nat → (length d - off < fuel)%nat → (off ≤ length d)%nat →
  0 ≤ len → len + Z.of_nat (length d - off) < 2 ^ 31 →
  wp (length_loop fuel (Z.of_nat f) len)
    (λ r s', r = len + Z.of_nat (length d - off) ∧
       s' = st s (<[f := Some (OFile ino (length d) true w)]> F) I out)
    (st s (<[f := Some (OFile ino off true w)]> F) I out).
Proof.
  intros Hd Hf. revert off len. induction fuel as [|fuel IH]; intros off len Hfuel Hoff Hlen Hmax; [lia|].
  cbn [length_loop]. wstep1. eapply wp_read_st; [by apply list_lookup_insert_eq|done|done|].
  cbv zeta. cbn [fst snd]. rewrite list_insert_insert_eq. set (l := slice d off (Z.to_nat TBUF)).
  assert (length l = Nat.min 512 (length d - off)) as Hl.
  { unfold l, slice. rewrite length_take, length_drop. done. }
  destruct (Z.ltb_spec 0 (Z.of_nat (length l))).
  - rewrite s32_small by lia. eapply wp_mono; [apply IH; lia|].
    intros r s' [-> ->]. split; [lia|done].
  - wstep. split; [lia|]. by replace (off + length l)%nat with (length d) by lia.
Qed.

Lemma wp_zeros_over s F I out f ino r msg k rest :
  (f < length F)%nat → length rest = k → Z.of_nat (length msg + k) ≤ MAXFILE * BSIZE →
  wp (write_zeros k (Z.of_nat f))
    (λ _ s', s' = st s (<[f := Some (OFile ino (length msg + k) r true)]> F)
                    (<[ino := msg ++ replicate k 0]> I) out)
    (st s (<[f := Some (OFile ino (length msg) r true)]> F) (<[ino := msg ++ rest]> I) out).
Proof.
  intros Hf. revert msg k. induction rest as [|x rest IH]; intros msg k <- Hm; cbn [length write_zeros].
  { wstep. by rewrite Nat.add_0_r. }
  wstep1. eapply wp_uwrite; [by apply list_lookup_insert_eq|apply lookup_insert_eq|done|simpl in *; lia| |].
  { rewrite length_app. lia. }
  cbn [st u_fds u_inodes set_inodes set_fds u_names u_next u_out u_in length].
  rewrite list_insert_insert_eq, insert_insert_eq, take_app_length, drop_app_ge by lia.
  replace (length msg + 1 - length msg)%nat with 1%nat by lia. cbn [drop app].
  specialize (IH (msg ++ [0]) (length rest) eq_refl). rewrite length_app, <- !app_assoc in IH.
  cbn [length app] in IH, Hm. eapply wp_mono; [apply IH; lia|].
  intros _ s' ->. cbn [replicate]. by rewrite <- Nat.add_assoc.
Qed.

Lemma ustrlen_cstr m : ustrlen m = Z.of_nat (length (cstr m)).
Proof. induction m as [|c m IH]; cbn [ustrlen cstr]; [done|]. destruct (c =? 0); [done|]. rewrite IH. simpl. lia. Qed.

(** The contents after vim has written a message. *)
Definition overwritten (d msg : list Z) : list Z := msg ++ replicate (length d - length msg) 0.

Lemma wp_overwrite s name message ino d fuel :
  u_names s !! cstr name = Some ino → u_inodes s !! ino = Some d → fd_room 2 (u_fds s) →
  (length d < fuel)%nat → Z.of_nat (length d) ≤ MAXFILE * BSIZE →
  Z.of_nat (length (cstr message)) ≤ MAXFILE * BSIZE →
  wp (overwrite fuel name message)
    (λ r s', r = true ∧ s' = set_inodes (<[ino := overwritten d (cstr message)]> (u_inodes s)) s) s.
Proof.
  intros Hn Hd Hroom Hfuel Hmax Hmsg. change (MAXFILE * BSIZE) with 71680 in *. unfold overwrite.
  wstep1. eapply wp_open_old; [exact Hn|exact Hroom|]. cbv zeta. intros f0 Hf0 Hroom0.
  rewrite (proj2 (Z.ltb_ge _ _)) by lia. pose proof (lookup_lt_Some _ _ _ Hf0) as Hl0.
  wstep1. eapply wp_mono.
  { apply (wp_length_loop s (u_fds s) (u_inodes s) (u_out s) f0 ino true d fuel 0 0); done || lia. }
  cbv beta. intros len s' [-> ->]. rewrite Nat.sub_0_r, Z.add_0_l.
  wstep1. eapply wp_open_old; [exact Hn|apply Hroom0|]. cbv zeta. cbn [st u_fds]. intros f1 Hf1 _.
  assert (f0 ≠ f1) as Hf by (intros ->; by rewrite list_lookup_insert_eq in Hf1).
  rewrite list_lookup_insert_ne in Hf1 by done. pose proof (lookup_lt_Some _ _ _ Hf1) as Hl1.
  rewrite (proj2 (Z.ltb_ge _ _)) by lia. set (msg := cstr message) in *. set (F0 := <[f0 := _]> (u_fds s)).
  assert (f1 < length F0)%nat as Hl1' by (unfold F0; by rewrite length_insert).
  wstep1. eapply wp_uwrite; [by apply list_lookup_insert_eq|exact Hd|done|done|lia|].
  cbn [st u_fds u_inodes set_inodes set_fds u_names u_next u_out u_in]. rewrite list_insert_insert_eq, take_0.
  cbn [app]. rewrite !Nat.add_0_l. wstep1. eapply (wp_mono _ (λ _ s', ∃ o,
    s' = st s (<[f1 := Some (OFile ino o true true)]> F0) (<[ino := overwritten d msg]> (u_inodes s)) (u_out s))).
  { rewrite ustrlen_cstr. fold msg. rewrite u32_small by lia. unfold overwritten.
    destruct (Z.ltb_spec (Z.of_nat (length msg)) (Z.of_nat (length d))) as [Hlt|Hge].
    - rewrite s32_small by lia. replace (Z.to_nat _) with (length d - length msg)%nat by lia.
      eapply wp_mono; [apply (wp_zeros_over s F0 (u_inodes s) (u_out s) f1 ino true msg);
        [done|by rewrite length_drop|change (MAXFILE * BSIZE) with 71680; lia]|].
      intros _ s' ->. by eexists.
    - wstep. rewrite drop_ge by lia. replace (length d - length msg)%nat with 0%nat by lia. by eexists. }
  cbv beta. intros _ s' [o ->]. wstep1. eapply wp_uclose.
  { cbn [st u_fds]. rewrite list_lookup_insert_ne by done. by apply list_lookup_insert_eq. }
  wstep1. eapply wp_uclose.
  { cbn [st u_fds set_fds]. rewrite list_lookup_insert_ne by done. by apply list_lookup_insert_eq. }
  wstep. split; [done|]. unfold set_inodes. cbn. f_equal. unfold F0.
  rewrite (list_insert_insert_ne _ f0 f1), !list_insert_insert_eq by done.
  rewrite (list_insert_id _ f0) by done. by rewrite (list_insert_id _ f1).
Qed.

(** ** cat and wc *)
Lemma wp_cat s f ino off w d fuel :
  u_fds s !! f = Some (Some (OFile ino off true w)) → u_inodes s !! ino = Some d →
  u_fds s !! 1%nat = Some (Some OConsole) → (off ≤ length d)%nat → (length d - off < fuel)%nat →
  wp (cat fuel (Z.of_nat f))
    (λ r s', r = true ∧ s' = st s (<[f := Some (OFile ino (length d) true w)]> (u_fds s)) (u_inodes s)
                               (u_out s ++ drop off d)) s.
Proof.
  intros Hf Hd Hc. assert (f ≠ 1%nat) as Hne by (intros ->; congruence).
  pose proof (lookup_lt_Some _ _ _ Hf) as Hl. revert s off Hf Hd Hc Hl.
  induction fuel as [|fuel IH]; intros s off Hf Hd Hc Hl Hoff Hfuel; [lia|].
  cbn [cat]. wstep1. eapply wp_uread; [exact Hf|exact Hd|done|done|]. cbv zeta. cbn [fst snd].
  set (l := slice d off (Z.to_nat TBUF)).
  assert (length l = Nat.min 512 (length d - off)) as Hll.
  { unfold l, slice. rewrite length_take, length_drop. done. }
  destruct (Z.ltb_spec 0 (Z.of_nat (length l))).
  - wstep1. apply wp_console; [by rewrite <- Hc; apply list_lookup_insert_ne|].
    eapply wp_mono; [apply (IH _ (off + length l)%nat)|].
    + by apply list_lookup_insert_eq.
    + done.
    + by rewrite <- Hc; apply list_lookup_insert_ne.
    + cbn. by rewrite length_insert.
    + lia.
    + lia.
    + cbv beta. intros r s' [-> ->]. split; [done|]. unfold st. cbn.
      rewrite list_insert_insert_eq, <- app_assoc. do 2 f_equal.
      rewrite <- (take_drop (length l) (drop off d)), drop_drop. f_equal.
      unfold l, slice. rewrite length_take, length_drop. symmetry.
      change (Z.to_nat TBUF) with 512%nat. destruct (decide (512 ≤ length d - off)%nat).
      * by rewrite Nat.min_l.
      * rewrite Nat.min_r by lia. rewrite !take_ge by (rewrite length_drop; lia). done.
  - rewrite (proj2 (Z.ltb_ge _ _)) by lia. wstep. split; [done|]. unfold st, set_fds.
    replace (off + length l)%nat with (length d) by lia. by rewrite drop_ge, app_nil_r by lia.
Qed.

(** The words of a text: its maximal runs of bytes that are not spaces. *)
Definition is_space (b : Z) : bool := bool_decide (b ∈ wc_spaces).
Fixpoint words (cur : list Z) (l : list Z) : list (list Z) :=
  match l with
  | [] => if decide (cur = []) then [] else [cur]
  | b :: l =>
    if is_space b then (if decide (cur = []) then words [] l else cur :: words [] l)
    else words (cur ++ [b]) l
  end.

Lemma strchr_space b : strchr wc_spaces b = None ↔ is_space b = false.
Proof.
  destruct (decide (b ∈ wc_spaces)) as [Hb|Hb].
  - unfold wc_spaces in Hb. rewrite !elem_of_cons, elem_of_nil in Hb.
    destruct_or! Hb; subst; done.
  - unfold is_space. rewrite bool_decide_eq_false_2 by done. split; [done|intros _].
    unfold wc_spaces in *. rewrite !not_elem_of_cons in Hb. destruct Hb as (? & ? & ? & ? & ? & _). cbn [strchr].
    by rewrite !(proj2 (Z.eqb_neq _ b)) by done.
Qed.

Lemma wc_fold k l cur :
  (wc_inword k = true ↔ cur ≠ []) →
  let k' := foldl wc_byte k l in
  wc_l k' = wc_l k + Z.of_nat (length (filter (λ b, b = NL) l)) ∧
  wc_c k' = wc_c k + Z.of_nat (length l) ∧
  wc_w k' + (if wc_inword k then 1 else 0) = wc_w k + Z.of_nat (length (words cur l)).
Proof.
  cbv zeta. revert k cur. induction l as [|b l IH]; intros k cur Hk.
  { cbn. repeat split; [lia..|]. destruct (decide (cur = [])) as [->|Hcur].
    - destruct (wc_inword k); [by destruct (proj1 Hk eq_refl)|cbn; lia].
    - rewrite (proj2 Hk Hcur). cbn. lia. }
  cbn [foldl words length]. set (k1 := wc_byte k b).
  assert (wc_l k1 = wc_l k + (if decide (b = NL) then 1 else 0) ∧ wc_c k1 = wc_c k + 1 ∧
    wc_inword k1 = negb (is_space b) ∧
    wc_w k1 = wc_w k + if is_space b || wc_inword k then 0 else 1) as (H1 & H2 & H3 & H4).
  { unfold k1, wc_byte. clear. destruct (is_space b) eqn:E.
    - destruct (strchr wc_spaces b) eqn:E'; [|apply strchr_space in E'; congruence].
      destruct (Z.eqb_spec b NL), (decide (b = NL)); try done; cbn; repeat split; lia.
    - rewrite (proj2 (strchr_space b) E).
      destruct (wc_inword k), (Z.eqb_spec b NL), (decide (b = NL)); try done; cbn; repeat split; lia. }
  rewrite filter_cons. clearbody k1.
  destruct (is_space b) eqn:E; cbn [negb orb] in *.
  - destruct (IH k1 []) as (A & B & C); [by rewrite H3|]. rewrite H3 in C. rewrite A, B. clear IH A B.
    destruct (decide (cur = [])) as [->|Hcur].
    + assert (wc_inword k = false) as Hw by (destruct (wc_inword k); [by destruct (proj1 Hk eq_refl)|done]).
      rewrite Hw in *. destruct (decide (b = NL)); cbn [length]; lia.
    + rewrite (proj2 Hk Hcur) in *. destruct (decide (b = NL)); cbn [length]; lia.
  - destruct (IH k1 (cur ++ [b])) as (A & B & C); [rewrite H3; split; [by destruct cur|done]|]. rewrite H3 in C.
    destruct (decide (b = NL)), (wc_inword k); cbn [length]; lia.
Qed.

Lemma wp_wc_loop s f ino off w d fuel k :
  u_fds s !! f = Some (Some (OFile ino off true w)) → u_inodes s !! ino = Some d →
  (off ≤ length d)%nat → (length d - off < fuel)%nat →
  wp (wc_loop fuel (Z.of_nat f) k)
    (λ r s', r = Some (foldl wc_byte k (drop off d)) ∧
       s' = set_fds (<[f := Some (OFile ino (length d) true w)]> (u_fds s)) s) s.
Proof.
  intros Hf Hd. pose proof (lookup_lt_Some _ _ _ Hf) as Hl. revert s off k Hf Hd Hl.
  induction fuel as [|fuel IH]; intros s off k Hf Hd Hl Hoff Hfuel; [lia|].
  cbn [wc_loop]. wstep1. eapply wp_uread; [exact Hf|exact Hd|done|done|]. cbv zeta. cbn [fst snd].
  set (l := slice d off (Z.to_nat TBUF)).
  assert (length l = Nat.min 512 (length d - off)) as Hll.
  { unfold l, slice. rewrite length_take, length_drop. done. }
  assert (drop off d = l ++ drop (off + length l) d) as Hsplit.
  { rewrite <- drop_drop, Hll. rewrite <- (take_drop 512 (drop off d)) at 1.
    change (take 512 (drop off d)) with l. f_equal.
    destruct (decide (512 ≤ length d - off)%nat); [by rewrite Nat.min_l|].
    rewrite !drop_ge; [done|rewrite length_drop; lia..]. }
  destruct (Z.ltb_spec 0 (Z.of_nat (length l))).
  - eapply wp_mono; [apply (IH _ (off + length l)%nat); [by apply list_lookup_insert_eq|done| |lia..]|].
    + cbn. by rewrite length_insert.
    + cbv beta. intros r s' [-> ->]. unfold set_fds. cbn. by rewrite list_insert_insert_eq, Hsplit, foldl_app.
  - rewrite (proj2 (Z.ltb_ge _ _)) by lia. wstep. rewrite drop_ge by lia. split; [done|].
    by replace (off + length l)%nat with (length d) by lia.
Qed.

(** What wc prints for a text. *)
Definition wc_text (d name : list Z) : list Z :=
  printint (Z.of_nat (length (filter (λ b, b = NL) d))) 10 true ++ [32] ++
  printint (Z.of_nat (length (words [] d))) 10 true ++ [32] ++
  printint (Z.of_nat (length d)) 10 true ++ [32] ++ cstr name ++ [NL].

Lemma wc_printf l w c name :
  printf (λ _, name) (cs "%d %d %d %s" ++ [NL]) [l; w; c; 1] false
  = Some (printint (s32 l) 10 true ++ [32] ++ printint (s32 w) 10 true ++ [32] ++
          printint (s32 c) 10 true ++ [32] ++ cstr name ++ [NL]).
Proof.
  unfold cs. cbv -[printint s32 cstr]. reflexivity.
Qed.
Lemma words_length cur l : (length (words cur l) ≤ length l + (if decide (cur = []) then 0 else 1))%nat.
Proof.
  revert cur. induction l as [|b l IH]; intros cur; cbn [words length]; [by destruct (decide _)|].
  destruct (is_space b).
  - specialize (IH []). rewrite decide_True in IH by done. destruct (decide (cur = [])); cbn [length]; lia.
  - specialize (IH (cur ++ [b])). rewrite decide_False in IH by (by destruct cur). lia.
Qed.




(** C34: vim <file> <message> leaves in the file the message followed, when the
    file was longer, by zeros up to its old length; the file keeps its name and
    inode, and no descriptor stays open. *)
Theorem vim_correct s name message ino d fuel prog :
  u_names s !! cstr name = Some ino → u_inodes s !! ino = Some d → fd_room 2 (u_fds s) →
  (length d < fuel)%nat → Z.of_nat (length d) ≤ MAXFILE * BSIZE →
  Z.of_nat (length (cstr message)) ≤ MAXFILE * BSIZE →
  strcmp (cs "--version") name ≠ 0 → strcmp (cs "--help") name ≠ 0 →
  wp (vim_main fuel [prog; name; message])
    (λ _ s', s' = set_inodes (<[ino := overwritten d (cstr message)]> (u_inodes s)) s) s.
Proof.
  intros Hn Hd Hroom Hfuel Hlen Hmsg Hv Hh. unfold vim_main.
  rewrite (proj2 (Z.eqb_neq _ 0) Hv), (proj2 (Z.eqb_neq _ 0) Hh). wstep1.
  eapply wp_mono; [by apply (wp_overwrite _ _ _ ino d)|]. intros r s' [-> ->]. by wstep.
Qed.

(** Cat with file arguments writes the contents of the files, in order, to
    the console, and changes nothing else. *)
Theorem cat_correct s names ds fuel prog :
  names ≠ [] → fd_room 1 (u_fds s) → u_fds s !! 1%nat = Some (Some OConsole) →
  Forall2 (λ name d, (∃ ino, u_names s !! cstr name = Some ino ∧ u_inodes s !! ino = Some d) ∧
                     (length d < fuel)%nat) names ds →
  wp (cat_main fuel (prog :: names)) (λ _ s', s' = set_out (u_out s ++ concat ds) s) s.
Proof.
  intros Hne Hroom Hc Hall. unfold cat_main. cbn [tail].
  destruct names as [|a0 names0] eqn:E; [done|]. rewrite <- E in *. clear E Hne.
  revert s Hroom Hc Hall. revert ds. induction names as [|a names IH]; intros ds s Hroom Hc Hall.
  { apply Forall2_nil_inv_l in Hall as ->. cbn [each_file concat]. wstep. rewrite app_nil_r. by destruct s. }
  apply Forall2_cons_inv_l in Hall as (d & ds' & [(ino & Hn & Hd) Hf] & Hall & ->). cbn [each_file].
  wstep1. eapply wp_open_old; [exact Hn|exact Hroom|]. cbv zeta. intros f Hlf _.
  rewrite (proj2 (Z.ltb_ge _ _)) by lia. pose proof (lookup_lt_Some _ _ _ Hlf).
  assert (f ≠ 1%nat) by (intros ->; congruence).
  wstep1. eapply wp_mono; [apply (wp_cat _ f ino 0 false d)|]; try (done || lia).
  { by apply list_lookup_insert_eq. }
  { cbn. by rewrite list_lookup_insert_ne. }
  cbv beta. intros r s' [-> ->]. wstep1. eapply wp_uclose.
  { cbn. rewrite list_insert_insert_eq. by apply list_lookup_insert_eq. }
  rewrite drop_0. cbn [concat]. unfold set_fds, st. cbn [u_fds u_names u_inodes u_next u_out u_in].
  rewrite !list_insert_insert_eq, list_insert_id by done.
  eapply wp_mono; [by apply (IH ds')|]. intros _ s' ->. unfold set_out. cbn. by rewrite app_assoc.
Qed.

(** wc prints the number of lines (newline bytes), of words (maximal runs
    of bytes that are not spaces) and of bytes of the file. *)
Theorem wc_correct s f ino w d fuel name :
  u_fds s !! f = Some (Some (OFile ino 0 true w)) → u_inodes s !! ino = Some d →
  u_fds s !! 1%nat = Some (Some OConsole) → (length d < fuel)%nat → Z.of_nat (length d) < 2 ^ 31 →
  wp (wc fuel (Z.of_nat f) name) (λ r s', r = true ∧ u_out s' = u_out s ++ wc_text d name) s.
Proof.
  intros Hf Hd Hc Hfuel Hlen. assert (f ≠ 1%nat) by (intros ->; congruence).
  unfold wc. wstep1. eapply wp_mono; [apply (wp_wc_loop _ f ino 0 w d); try done; lia|].
  cbv beta. intros r s' [-> ->]. rewrite drop_0. set (k := foldl _ _ d).
  destruct (wc_fold (mkCounts 0 0 0 false) d []) as (H1 & H2 & H3); [done|]. fold k in H1, H2, H3.
  cbn in H1, H2, H3. rewrite Z.add_0_r in H3.
  pose proof (words_length [] d) as Hw. rewrite decide_True in Hw by done.
  pose proof (length_filter (λ b, b = NL) d) as Hl.
  wstep1. unfold uprintfw. rewrite wc_printf. wstep1.
  apply wp_console; [cbn; by rewrite list_lookup_insert_ne|]. wstep. split; [done|]. cbn.
  rewrite H1, H2, H3, !s32_small by lia. done.
Qed.

(** ** Examples *)
Definition ex_text : list Z := cs "two words" ++ [NL].
Definition ex_u : usys :=
  mkU {[ cs "a" := 5%nat ]} {[ 5%nat := ex_text ]} 6
    (replicate 3 (Some OConsole) ++ replicate 13 None) [] [].
Lemma ex_room : fd_room 2 (u_fds ex_u).
Proof. apply Nat.leb_le. reflexivity. Qed.

(** truncate -s 2G: the size wraps to a negative number and the file is
    emptied. *)
Lemma truncate_2G cur : new_size (cs "2G") cur = - 2 ^ 31 ∧ resized ex_text (new_size (cs "2G") cur) = [].
Proof. done. Qed.

(** less takes the bytes of the file as a format: a %d in it prints 80. *)
Lemma less_format :
  ∃ s', print_buf [0] (λ _, []) (cs "100%done") ex_u = Ok tt s' ∧ u_out s' = cs "10080one".
Proof. eexists. split; vm_compute; reflexivity. Qed.


(** Witness of vim_correct. *)
Lemma vim_correct_witness :
  wp (vim_main 20 [cs "vim"; cs "a"; cs "one"])
    (λ _ s', s' = set_inodes {[ 5%nat := cs "one" ++ replicate 7 0 ]} ex_u) ex_u.
Proof.
  apply (vim_correct ex_u (cs "a") (cs "one") 5 ex_text 20 (cs "vim"));
    [reflexivity|reflexivity|exact ex_room|apply Nat.leb_le; reflexivity|cbv; discriminate..].
Defined.

(** Witness of cat_correct: cat a a. *)
Lemma cat_correct_witness :
  wp (cat_main 20 [cs "cat"; cs "a"; cs "a"]) (λ _ s', s' = set_out (ex_text ++ ex_text) ex_u) ex_u.
Proof.
  apply (cat_correct ex_u [cs "a"; cs "a"] [ex_text; ex_text] 20 (cs "cat"));
    [discriminate|exact (fd_room_le _ 1 _ ex_room (le_S _ _ (le_n 1)))|reflexivity|].
  repeat constructor; try (exists 5%nat; split; reflexivity); apply Nat.leb_le; reflexivity.
Defined.

(** Witness of wc_correct. *)
Lemma wc_correct_witness :
  wp (wc 20 3 (cs "a")) (λ r s', r = true ∧ u_out s' = cs "1 2 10 a" ++ [NL])
    (set_fds (<[3%nat := Some (OFile 5 0 true false)]> (u_fds ex_u)) ex_u).
Proof.
  apply (wc_correct (set_fds (<[3%nat := Some (OFile 5 0 true false)]> (u_fds ex_u)) ex_u) 3 5 false ex_text 20 (cs "a"));
    [reflexivity|reflexivity|reflexivity|apply Nat.leb_le; reflexivity|reflexivity].
Defined.
