(* ===== verification/Sh.v ===== *)
(** * The shell's parser (sh.c, from gettoken to nulterminate)

    The line is a byte buffer; char pointers into it are indices, and the parse
    functions, which advance *ps, run on the state ps.  A panic of the shell
    (a syntax error: message and exit) is [Panic].  The five kinds of struct cmd
    are the constructors of [cmd], its counted strings pairs of start and end. *)
From stdpp Require Import base list numbers option strings.
From Stdlib Require Import ZArith Lia.
From S2P Require Import Prelude Kstring Layout Ulib Posix.
Open Scope Z_scope.

Definition MAXARGS : nat := 10.
(** argv[i] and eargv[i], or file and efile. *)
Definition token : Type := nat * nat.
(** Commands over a type of strings: tokens when parsed, text when run. *)
Inductive cmd_of (T : Type) :=
| EXEC (argv : list T)
| REDIR (c : cmd_of T) (file : T) (mode fd : Z)
| PIPE (left right : cmd_of T)
| LIST (left right : cmd_of T)
| BACK (c : cmd_of T).
Arguments EXEC {T} argv.
Arguments REDIR {T} c file mode fd.
Arguments PIPE {T} left right.
Arguments LIST {T} left right.
Arguments BACK {T} c.
Abbreviation cmd := (cmd_of token).
Fixpoint cmd_map {T U} (f : T → U) (c : cmd_of T) : cmd_of U :=
  match c with
  | EXEC argv => EXEC (f <$> argv)
  | REDIR c file mode fd => REDIR (cmd_map f c) (f file) mode fd
  | PIPE l r => PIPE (cmd_map f l) (cmd_map f r)
  | LIST l r => LIST (cmd_map f l) (cmd_map f r)
  | BACK c => BACK (cmd_map f c)
  end.
(** The strings a command refers to, in the order nulterminate visits them. *)
Fixpoint cmd_toks {T} (c : cmd_of T) : list T :=
  match c with
  | EXEC argv => argv
  | REDIR c file _ _ => cmd_toks c ++ [file]
  | PIPE l r | LIST l r => cmd_toks l ++ cmd_toks r
  | BACK c => cmd_toks c
  end.

Definition whitespace : list Z := [32; 9; 13; 10; 11].
Definition symbols : list Z := [60; 124; 62; 38; 59; 40; 41].
Definition in_chars (l : list Z) (c : Z) : bool := bool_decide (is_Some (strchr l c)).

Abbreviation redir := (token * Z * Z)%type.
Definition redircmd {T} (c : cmd_of T) (r : T * Z * Z) : cmd_of T := REDIR c r.1.1 r.1.2 r.2.

Section parser.
(** The line and the index of its end. *)
Context (b : list Z) (es : nat).

Definition ch (s : nat) : Z := default 0 (b !! s).

(** while(s < es && p( *s)) s++ *)
Fixpoint skip (n : nat) (p : Z → bool) (s : nat) : nat :=
  match n with
  | O => s
  | S n => if p (ch s) then skip n p (S s) else s
  end.
Definition skip_white (s : nat) : nat := skip (es - s) (in_chars whitespace) s.
Definition skip_word (s : nat) : nat :=
  skip (es - s) (λ c, negb (in_chars whitespace c) && negb (in_chars symbols c)) s.

Definition gettoken : M nat (Z * token) :=
  ps <- gets id ;;
  let q := skip_white ps in
  let c := ch q in
  let '(tok, s) :=
    if c =? 0 then (0, q)
    else if (c =? 124) || (c =? 40) || (c =? 41) || (c =? 59) || (c =? 38) || (c =? 60) then (c, S q)
    else if c =? 62 then (if ch (S q) =? 62 then (43, S (S q)) else (62, S q))
    else (97, skip_word q) in
  modify (λ _, skip_white s) ;;;
  ret (tok, (q, s)).

Definition peek (toks : list Z) : M nat bool :=
  modify skip_white ;;;
  s <- gets id ;;
  ret (negb (ch s =? 0) && in_chars toks (ch s)).

(** The redirections, in order; parseredirs wraps its command in them. *)
Fixpoint redirs_loop (n : nat) : M nat (list redir) :=
  match n with
  | O => undefined
  | S n =>
    more <- peek (cs "<>") ;;
    if negb more then ret []
    else
      t <- gettoken ;;
      f <- gettoken ;;
      if negb (f.1 =? 97) then panic "missing file for redirection"
      else
        let r := if t.1 =? 60 then [(f.2, O_RDONLY, 0)]
                 else if t.1 =? 62 then [(f.2, Z.lor O_WRONLY O_CREATE, 1)]
                 else if t.1 =? 43 then [(f.2, Z.lor O_WRONLY O_CREATE, 1)] else [] in
        rs <- redirs_loop n ;;
        ret (r ++ rs)
  end.
(** A loop that stops at the end of the line runs once per remaining byte, and
    once to see the end. *)
Definition rounds : M nat nat := gets (λ s, S (S es - s)).
Definition parseredirs : M nat (list redir) := n <- rounds ;; redirs_loop n.

(** The argument loop of parseexec: cmd->argv with the redirections met. *)
Fixpoint args_loop (n argc : nat) : M nat (list token * list redir) :=
  match n with
  | O => undefined
  | S n =>
    stop <- peek (cs "|)&;") ;;
    if stop : bool then ret ([], [])
    else
      t <- gettoken ;;
      if t.1 =? 0 then ret ([], [])
      else if negb (t.1 =? 97) then panic "syntax"
      else if (MAXARGS <=? S argc)%nat then panic "too many args"
      else
        rs <- parseredirs ;;
        r <- args_loop n (S argc) ;;
        ret (t.2 :: r.1, rs ++ r.2)
  end.

Fixpoint back_loop (n : nat) (c : cmd) : M nat cmd :=
  match n with
  | O => undefined
  | S n =>
    amp <- peek (cs "&") ;;
    if amp : bool then gettoken ;;; back_loop n (BACK c) else ret c
  end.

Fixpoint parseline (fuel : nat) : M nat cmd :=
  match fuel with
  | O => undefined
  | S fuel =>
    c <- parsepipe fuel ;;
    n <- rounds ;;
    c <- back_loop n c ;;
    semi <- peek (cs ";") ;;
    if semi : bool then gettoken ;;; r <- parseline fuel ;; ret (LIST c r) else ret c
  end
with parsepipe (fuel : nat) : M nat cmd :=
  match fuel with
  | O => undefined
  | S fuel =>
    c <- parseexec fuel ;;
    bar <- peek (cs "|") ;;
    if bar : bool then gettoken ;;; r <- parsepipe fuel ;; ret (PIPE c r) else ret c
  end
with parseexec (fuel : nat) : M nat cmd :=
  match fuel with
  | O => undefined
  | S fuel =>
    paren <- peek (cs "(") ;;
    if paren : bool then parseblock fuel
    else
      rs <- parseredirs ;;
      n <- rounds ;;
      r <- args_loop n 0 ;;
      ret (foldl redircmd (EXEC r.1) (rs ++ r.2))
  end
with parseblock (fuel : nat) : M nat cmd :=
  match fuel with
  | O => undefined
  | S fuel =>
    open <- peek (cs "(") ;;
    if negb open then panic "parseblock"
    else
      gettoken ;;;
      c <- parseline fuel ;;
      close <- peek (cs ")") ;;
      if negb close then panic "syntax - missing )"
      else
        gettoken ;;;
        rs <- parseredirs ;;
        ret (foldl redircmd c rs)
  end.
End parser.

(** *eargv[i] = 0 for every counted string. *)
Definition end_token (b : list Z) (t : token) : list Z := <[t.2 := 0]> b.
Fixpoint nulterminate (c : cmd) (b : list Z) : list Z :=
  match c with
  | EXEC argv => foldl end_token b argv
  | REDIR c file _ _ => end_token (nulterminate c b) file
  | PIPE l r | LIST l r => nulterminate r (nulterminate l b)
  | BACK c => nulterminate c b
  end.

(** parsecmd on the buffer [b]: the command, and the buffer with its strings
    terminated. *)
Definition parsecmd (b : list Z) : res nat (cmd * list Z) :=
  let es := length (cstr b) in
  (c <- parseline b es (4 * S es) ;;
   peek b es [] ;;;
   s <- gets id ;;
   if negb (s =? es)%nat then panic "syntax" else ret (c, nulterminate c b)) 0%nat.

(** ** Termination and well-formed tokens *)
(** [safe m Q s]: [m] returns with [Q], or reports a syntax error. *)
Definition safe {S A} (m : M S A) (Q : A → S → Prop) (s : S) : Prop :=
  match m s with Ok a s' => Q a s' | Panic _ => True | _ => False end.

Section safe_rules.
Context {S : Type}.
Lemma safe_bind {A B} (m : M S A) (k : A → M S B) Q s :
  safe m (λ a s', safe (k a) Q s') s → safe (bind m k) Q s.
Proof. unfold safe, bind. by destruct (m s). Qed.
Lemma safe_mono {A} (m : M S A) (Q Q' : A → S → Prop) s :
  safe m Q s → (∀ a s', Q a s' → Q' a s') → safe m Q' s.
Proof. unfold safe. destruct (m s); auto. Qed.
Lemma safe_ret {A} (a : A) (Q : A → S → Prop) s : Q a s → safe (ret a) Q s.
Proof. done. Qed.
Lemma safe_panic {A} msg (Q : A → S → Prop) s : safe (panic msg) Q s.
Proof. done. Qed.
End safe_rules.

Definition plain (c : Z) : bool := negb (c =? 0) && negb (in_chars whitespace c) && negb (in_chars symbols c).

Section tokens.
Context (b : list Z) (es : nat).
Hypotheses (Hes : ch b es = 0) (Hin : ∀ i, (i < es)%nat → ch b i ≠ 0).

(** A token: a non-empty run of plain bytes, ended by one that is not. *)
Definition tok_ok (t : token) : Prop :=
  (t.1 < t.2 ≤ es)%nat ∧ (∀ i, (t.1 ≤ i < t.2)%nat → plain (ch b i) = true) ∧ plain (ch b t.2) = false.

Lemma skip_spec n p s :
  (s ≤ skip b n p s ≤ s + n)%nat ∧ (∀ i, (s ≤ i < skip b n p s)%nat → p (ch b i) = true) ∧
  (skip b n p s = (s + n)%nat ∨ p (ch b (skip b n p s)) = false).
Proof.
  revert s. induction n as [|n IH]; intros s; cbn [skip].
  { repeat split; [lia..|]. left. lia. }
  destruct (p (ch b s)) eqn:E.
  - destruct (IH (S s)) as (H1 & H2 & H3). split; [lia|]. split.
    + intros i Hi. destruct (decide (i = s)) as [->|]; [done|]. apply H2. lia.
    + destruct H3 as [-> |H3]; [left; lia|by right].
  - repeat split; [lia..|by right].
Qed.

Lemma in_chars_zero l : in_chars l 0 = false.
Proof.
  unfold in_chars. apply bool_decide_eq_false. intros [k Hk]. apply strchr_spec in Hk as [Hk _].
  apply (Forall_lookup_1 _ _ _ _ (cstr_nonzero l)) in Hk. done.
Qed.

Lemma skip_white_spec s : (s ≤ es)%nat →
  (s ≤ skip_white b es s ≤ es)%nat ∧ in_chars whitespace (ch b (skip_white b es s)) = false.
Proof using Hes.
  intros Hs. unfold skip_white. destruct (skip_spec (es - s) (in_chars whitespace) s) as (H1 & _ & H3).
  split; [lia|]. destruct H3 as [-> |H3]; [|done].
  replace (s + (es - s))%nat with es by lia. rewrite Hes. apply in_chars_zero.
Qed.

Lemma skip_word_spec s : (s < es)%nat → plain (ch b s) = true → tok_ok (s, skip_word b es s).
Proof using All.
  intros Hs Hp. unfold skip_word.
  set (p := λ c, negb (in_chars whitespace c) && negb (in_chars symbols c)).
  destruct (skip_spec (es - s) p s) as (H1 & H2 & H3).
  assert (∀ c, plain c = negb (c =? 0) && p c) as Hpl by (intros c; unfold plain, p; by rewrite andb_assoc).
  assert (skip b (es - s) p s ≠ s) as Hne.
  { intros E. destruct H3 as [H3|H3]; [lia|]. rewrite E in H3. rewrite Hpl, H3, andb_false_r in Hp. done. }
  unfold tok_ok. cbn [fst snd]. split; [lia|]. split.
  - intros i Hi. rewrite Hpl, H2 by lia. rewrite (proj2 (Z.eqb_neq _ 0)); [done|]. apply Hin. lia.
  - rewrite Hpl. destruct H3 as [-> | ->]; [|by rewrite andb_false_r].
    replace (s + (es - s))%nat with es by lia. by rewrite Hes.
Qed.

Lemma safe_gettoken s Q :
  (s ≤ es)%nat →
  (∀ tok q e s', (s ≤ q ≤ e)%nat → (e ≤ s' ≤ es)%nat → (tok ≠ 0 → (q < e)%nat) →
     (tok = 97 → tok_ok (q, e)) → (ch b (skip_white b es s) ≠ 0 → tok ≠ 0) → Q (tok, (q, e)) s') →
  safe (gettoken b es) Q s.
Proof using All.
  intros Hs HQ. destruct (skip_white_spec s Hs) as [Hq Hw].
  unfold gettoken, safe, bind, gets, modify, ret. cbv zeta. cbn [id].
  set (q := skip_white b es s) in *.
  assert (ch b q ≠ 0 → (q < es)%nat) as Hlt.
  { intros H. destruct (decide (q = es)) as [E|]; [|lia]. rewrite E in H. done. }
  destruct (Z.eqb_spec (ch b q) 0) as [E0|E0].
  { destruct (skip_white_spec q) as [? _]; [lia|]. apply HQ; lia. }
  specialize (Hlt E0). destruct (_ || _) eqn:E.
  { destruct (skip_white_spec (S q)) as [? _]; [lia|]. apply HQ; lia. }
  destruct (Z.eqb_spec (ch b q) 62) as [E2|E2].
  - destruct (Z.eqb_spec (ch b (S q)) 62) as [E3|E3].
    + assert (S q ≠ es) by (intros E4; rewrite E4 in E3; congruence).
      destruct (skip_white_spec (S (S q))) as [? _]; [lia|]. apply HQ; lia.
    + destruct (skip_white_spec (S q)) as [? _]; [lia|]. apply HQ; lia.
  - assert (plain (ch b q) = true) as Hpl.
    { unfold plain. rewrite (proj2 (Z.eqb_neq _ 0) E0), Hw. cbn [negb andb].
      destruct (in_chars symbols (ch b q)) eqn:E4; [|done]. exfalso.
      unfold in_chars in E4. apply bool_decide_eq_true in E4 as [k Hk]. apply strchr_spec in Hk as [Hk _].
      rewrite !orb_false_iff, !Z.eqb_neq in E. destruct E as [[[[[? ?] ?] ?] ?] ?].
      change (cstr symbols) with symbols in Hk. apply list_elem_of_lookup_2 in Hk. unfold symbols in Hk.
      rewrite !elem_of_cons, elem_of_nil in Hk. destruct_or! Hk; congruence. }
    pose proof (skip_word_spec q Hlt Hpl) as Hok. pose proof (proj1 Hok) as [? ?]. cbn [fst snd] in *.
    destruct (skip_white_spec (skip_word b es q)) as [? _]; [lia|]. apply HQ; try lia. done.
Qed.

Lemma skip_white_stop s : in_chars whitespace (ch b s) = false → skip_white b es s = s.
Proof. intros H. unfold skip_white. destruct (es - s)%nat; cbn [skip]; [done|]. by rewrite H. Qed.

Lemma safe_peek toks s Q :
  (s ≤ es)%nat →
  (∀ r s', (s ≤ s' ≤ es)%nat → (r = true → ch b (skip_white b es s') ≠ 0) → Q r s') → safe (peek b es toks) Q s.
Proof using Hes.
  intros Hs HQ. destruct (skip_white_spec s Hs) as [? Hw].
  unfold peek, safe, bind, modify, gets, ret. apply HQ; [done|]. intros Hr.
  rewrite (skip_white_stop _ Hw). apply andb_true_iff in Hr as [Hr _].
  apply negb_true_iff, Z.eqb_neq in Hr. exact Hr.
Qed.

Lemma safe_rounds s Q : Q (S (S es - s)) s → safe (rounds es) Q s.
Proof. done. Qed.

Definition redir_ok (r : redir) : Prop := tok_ok r.1.1.
Definition cmd_ok (c : cmd) : Prop := Forall tok_ok (cmd_toks c).

Lemma safe_redirs n s :
  (s ≤ es)%nat → (es - s < n)%nat →
  safe (redirs_loop b es n) (λ rs s', (s ≤ s' ≤ es)%nat ∧ Forall redir_ok rs) s.
Proof using All.
  revert s. induction n as [|n IH]; intros s Hs Hn; [lia|]. cbn [redirs_loop].
  apply safe_bind, safe_peek; [done|]. intros [] s1 H1 Hc1; cbn [negb]; [|by apply safe_ret].
  apply safe_bind, safe_gettoken; [lia|]. intros t1 q1 e1 s2 ? ? Ht1 _ Hz1.
  apply safe_bind, safe_gettoken; [lia|]. intros t2 q2 e2 s3 ? ? _ Ht2 _. cbn [fst snd].
  destruct (Z.eqb_spec t2 97) as [E|]; cbn [negb]; [|apply safe_panic].
  specialize (Ht1 (Hz1 (Hc1 eq_refl))). specialize (Ht2 E).
  apply safe_bind. eapply safe_mono; [apply IH; lia|]. intros rs s4 [? Hrs]. apply safe_ret. split; [lia|].
  apply Forall_app. split; [|done].
  assert (∀ m f, Forall redir_ok [((q2, e2), m, f)]) as H1r by (intros; by apply Forall_singleton).
  destruct (t1 =? 60), (t1 =? 62), (t1 =? 43); (apply H1r || apply Forall_nil_2).
Qed.

Lemma safe_parseredirs s :
  (s ≤ es)%nat → safe (parseredirs b es) (λ rs s', (s ≤ s' ≤ es)%nat ∧ Forall redir_ok rs) s.
Proof using All. intros Hs. apply safe_bind, safe_rounds, safe_redirs; lia. Qed.

Lemma safe_args n argc s :
  (s ≤ es)%nat → (es - s < n)%nat →
  safe (args_loop b es n argc) (λ r s', (s ≤ s' ≤ es)%nat ∧ Forall tok_ok r.1 ∧ Forall redir_ok r.2) s.
Proof using All.
  revert s argc. induction n as [|n IH]; intros s argc Hs Hn; [lia|]. cbn [args_loop].
  apply safe_bind, safe_peek; [done|]. intros [] s1 H1 _; [by apply safe_ret|].
  apply safe_bind, safe_gettoken; [lia|]. intros t q e s2 ? ? Ht Ht' _. cbn [fst snd].
  destruct (Z.eqb_spec t 0); [apply safe_ret; repeat split; try constructor; lia|].
  destruct (Z.eqb_spec t 97) as [E|]; cbn [negb]; [|apply safe_panic]. specialize (Ht ltac:(lia)).
  destruct (MAXARGS <=? S argc)%nat; [apply safe_panic|].
  apply safe_bind. eapply safe_mono; [apply safe_parseredirs; lia|]. intros rs s3 [? Hrs].
  apply safe_bind. eapply safe_mono; [apply IH; lia|]. intros [l rs'] s4 (? & ? & ?). apply safe_ret.
  cbn [fst snd] in *. split; [lia|]. split; [constructor; auto|by apply Forall_app].
Qed.

Lemma safe_back n c s :
  (s ≤ es)%nat → (es - s < n)%nat → cmd_ok c →
  safe (back_loop b es n c) (λ c' s', (s ≤ s' ≤ es)%nat ∧ cmd_ok c') s.
Proof using All.
  revert s c. induction n as [|n IH]; intros s c Hs Hn Hc; [lia|]. cbn [back_loop].
  apply safe_bind, safe_peek; [done|]. intros [] s1 H1 Hz; [|by apply safe_ret].
  apply safe_bind, safe_gettoken; [lia|]. intros t q e s2 ? ? Ht _ Hz'.
  specialize (Ht (Hz' (Hz eq_refl))). eapply safe_mono; [apply IH; [lia|lia|done]|]. intros c' s' [? ?]. split; [lia|done].
Qed.

Lemma cmd_ok_redirs c rs : cmd_ok c → Forall redir_ok rs → cmd_ok (foldl redircmd c rs).
Proof.
  intros Hc Hrs. revert c Hc. induction Hrs as [|r rs Hr Hrs IH]; intros c Hc; [done|].
  apply IH. unfold cmd_ok. cbn. apply Forall_app. split; [done|]. by constructor.
Qed.
Lemma cmd_ok_two l r (c : cmd) : cmd_ok l → cmd_ok r → cmd_toks c = cmd_toks l ++ cmd_toks r → cmd_ok c.
Proof. intros Hl Hr Hc. unfold cmd_ok. rewrite Hc. by apply Forall_app. Qed.

(** The four parse functions end within their fuel and stay in the line. *)
Definition parses (fuel k : nat) (m : M nat cmd) : Prop :=
  ∀ s, (s ≤ es)%nat → (4 * (es - s) + k ≤ fuel)%nat → safe m (λ c s', (s ≤ s' ≤ es)%nat ∧ cmd_ok c) s.

Lemma safe_parse fuel :
  parses fuel 4 (parseline b es fuel) ∧ parses fuel 3 (parsepipe b es fuel) ∧
  parses fuel 2 (parseexec b es fuel) ∧
  (∀ s, (s ≤ es)%nat → (4 * (es - s) + 1 ≤ fuel)%nat → ch b (skip_white b es s) ≠ 0 →
     safe (parseblock b es fuel) (λ c s', (s ≤ s' ≤ es)%nat ∧ cmd_ok c) s).
Proof using All.
  induction fuel as [|fuel (IHl & IHp & IHe & IHb)]; [repeat split; intros s; lia|].
  split; [|split; [|split]]; intros s Hs Hf; cbn [parseline parsepipe parseexec parseblock].
  - apply safe_bind. eapply safe_mono; [apply IHp; lia|]. intros c s1 [? Hc].
    apply safe_bind, safe_rounds, safe_bind.
    eapply safe_mono; [apply safe_back; [lia|lia|done]|]. intros c' s2 [? Hc'].
    apply safe_bind, safe_peek; [lia|]. intros [] s3 ? Hz; [|apply safe_ret; split; [lia|done]].
    apply safe_bind, safe_gettoken; [lia|]. intros t q e s4 ? ? Ht _ Hz'. specialize (Ht (Hz' (Hz eq_refl))).
    apply safe_bind. eapply safe_mono; [apply IHl; lia|]. intros r s5 [? Hr]. apply safe_ret.
    split; [lia|]. by apply (cmd_ok_two c' r).
  - apply safe_bind. eapply safe_mono; [apply IHe; lia|]. intros c s1 [? Hc].
    apply safe_bind, safe_peek; [lia|]. intros [] s3 ? Hz; [|apply safe_ret; split; [lia|done]].
    apply safe_bind, safe_gettoken; [lia|]. intros t q e s4 ? ? Ht _ Hz'. specialize (Ht (Hz' (Hz eq_refl))).
    apply safe_bind. eapply safe_mono; [apply IHp; lia|]. intros r s5 [? Hr]. apply safe_ret.
    split; [lia|]. by apply (cmd_ok_two c r).
  - apply safe_bind, safe_peek; [lia|]. intros [] s1 ? Hz.
    { eapply safe_mono; [apply IHb; [lia|lia|by apply Hz]|]. intros c s2 [? ?]. split; [lia|done]. }
    apply safe_bind. eapply safe_mono; [apply safe_parseredirs; lia|]. intros rs s2 [? Hrs].
    apply safe_bind, safe_rounds, safe_bind.
    eapply safe_mono; [apply safe_args; lia|]. intros [l rs'] s3 (? & Hl & Hrs'). apply safe_ret.
    split; [lia|]. apply cmd_ok_redirs; [done|]. by apply Forall_app.
  - intros Hch. apply safe_bind, safe_peek; [lia|]. intros [] s1 ? Hz; cbn [negb]; [|apply safe_panic].
    apply safe_bind, safe_gettoken; [lia|]. intros t q e s2 ? ? Ht _ Hz'. specialize (Ht (Hz' (Hz eq_refl))).
    apply safe_bind. eapply safe_mono; [apply IHl; lia|]. intros c s3 [? Hc].
    apply safe_bind, safe_peek; [lia|]. intros [] s4 ? _; cbn [negb]; [|apply safe_panic].
    apply safe_bind, safe_gettoken; [lia|]. intros t2 q2 e2 s5 ? ? _ _ _.
    apply safe_bind. eapply safe_mono; [apply safe_parseredirs; lia|]. intros rs s6 [? Hrs]. apply safe_ret.
    split; [lia|]. by apply cmd_ok_redirs.
Qed.
End tokens.

(** ** nulterminate *)
Lemma nulterminate_toks c b : nulterminate c b = foldl end_token b (cmd_toks c).
Proof. revert b. induction c; intros b'; cbn; rewrite ?foldl_app, ?IHc, ?IHc1, ?IHc2; done. Qed.

Lemma end_tokens_lookup ts b i :
  foldl end_token b ts !! i = if decide (i ∈ ts.*2) then (λ _, 0) <$> b !! i else b !! i.
Proof.
  revert b. induction ts as [|t ts IH]; intros b; cbn [foldl fmap list_fmap]; [done|].
  rewrite IH. unfold end_token. destruct (decide (i = t.2)) as [->|Hne].
  - rewrite (decide_True (P := t.2 ∈ t.2 :: ts.*2)) by (by constructor).
    destruct (decide (t.2 < length b)%nat).
    + destruct (lookup_lt_is_Some_2 b t.2) as [x Hx]; [done|]. rewrite list_lookup_insert_eq, Hx by done.
      by destruct (decide _).
    + rewrite (list_insert_ge b) by lia. rewrite (lookup_ge_None_2 b) by lia. by destruct (decide _).
  - rewrite list_lookup_insert_ne by done. destruct (decide (i ∈ ts.*2)) as [H|H].
    + rewrite decide_True; [done|by constructor].
    + rewrite decide_False; [done|]. rewrite elem_of_cons. tauto.
Qed.

Lemma end_tokens_text b es ts t :
  Forall (tok_ok b es) ts → t ∈ ts → (es < length b)%nat →
  cstr (drop t.1 (foldl end_token b ts)) = slice b t.1 (t.2 - t.1).
Proof.
  intros Hall Ht Hes. rewrite Forall_forall in Hall. destruct (Hall t Ht) as (Hlt & Hpl & _).
  set (b' := foldl end_token b ts). set (n := (t.2 - t.1)%nat).
  assert (∀ i, (t.1 ≤ i < t.2)%nat → b' !! i = b !! i) as Hsame.
  { intros i Hi. unfold b'. rewrite end_tokens_lookup, decide_False; [done|].
    intros (u & -> & Hu)%list_elem_of_fmap. destruct (Hall u Hu) as (_ & _ & Hf).
    rewrite (Hpl _ Hi) in Hf. done. }
  assert (b' !! t.2 = Some 0) as H0.
  { unfold b'. rewrite end_tokens_lookup, decide_True by (apply list_elem_of_fmap; eauto).
    by destruct (lookup_lt_is_Some_2 b t.2) as [x ->]; [lia|]. }
  assert (slice b' t.1 n = slice b t.1 n) as Hsl.
  { apply list_eq. intros i. destruct (decide (i < n)%nat).
    - rewrite !lookup_slice by done. apply Hsame. lia.
    - unfold slice. by rewrite !lookup_take_ge by lia. }
  rewrite <- (take_drop n (drop t.1 b')), drop_drop. change (take n (drop t.1 b')) with (slice b' t.1 n).
  replace (t.1 + n)%nat with t.2 by lia. rewrite (drop_S _ _ _ H0), Hsl. apply cstr_app_zero.
  apply Forall_lookup_2. intros i x Hx.
  assert (i < n)%nat as Hi by (apply lookup_lt_Some in Hx; unfold slice in Hx; rewrite length_take in Hx; lia).
  rewrite lookup_slice in Hx by done. specialize (Hpl (t.1 + i)%nat ltac:(lia)). unfold ch in Hpl.
  rewrite Hx in Hpl. intros ->. done.
Qed.

(** The strings of a command as C reads them in a buffer. *)
Definition strings (b : list Z) (c : cmd) : cmd_of (list Z) := cmd_map (λ t, cstr (drop t.1 b)) c.
Definition tok_text (b : list Z) (t : token) : list Z := slice b t.1 (t.2 - t.1).

Lemma cmd_map_ext {T U} (f g : T → U) c :
  Forall (λ t, f t = g t) (cmd_toks c) → cmd_map f c = cmd_map g c.
Proof.
  induction c; cbn; rewrite ?Forall_app, ?Forall_singleton; intros H; f_equal; try (destruct H; auto; done); auto.
  apply list_fmap_ext. intros i x Hx. by eapply (Forall_lookup_1 (λ t, f t = g t)).
Qed.

Lemma nulterminate_strings b es c :
  cmd_ok b es c → (es < length b)%nat → strings (nulterminate c b) c = cmd_map (tok_text b) c.
Proof.
  intros Hok Hes. apply cmd_map_ext, Forall_forall. intros t Ht. rewrite nulterminate_toks.
  by apply (end_tokens_text b es).
Qed.

Lemma in_chars_spec l c : in_chars l c = true ↔ c ∈ cstr l.
Proof.
  unfold in_chars. rewrite bool_decide_eq_true. split.
  - intros [k Hk]. apply strchr_spec in Hk as [Hk _]. by apply list_elem_of_lookup_2 in Hk.
  - intros Hc. induction l as [|x l IH]; cbn [cstr strchr] in *; [by apply elem_of_nil in Hc|].
    destruct (Z.eqb_spec x 0); [by apply elem_of_nil in Hc|]. destruct (Z.eqb_spec x c) as [->|]; [by eexists|].
    apply elem_of_cons in Hc as [?|Hc]; [congruence|]. destruct (IH Hc) as [k ->]. by eexists.
Qed.

(** ** Printing *)
(** A surface syntax of every command: parentheses where the level of the
    grammar (0 line, 1 background, 2 pipe, 3 simple command) asks for them. *)
Fixpoint words_text (ws : list (list Z)) : list Z :=
  match ws with
  | [] => []
  | [w] => w
  | w :: ws => w ++ 32 :: words_text ws
  end.
Definition redir_text (r : list Z * Z * Z) : list Z := (if r.2 =? 0 then 60 else 62) :: r.1.1.
Definition paren (p : bool) (t : list Z) : list Z := if p then 40 :: t ++ [41] else t.
Fixpoint print_cmd (lvl : nat) (c : cmd_of (list Z)) : list Z :=
  match c with
  | EXEC ws => words_text ws
  | REDIR c f mode fd => print_cmd 3 c ++ redir_text (f, mode, fd)
  | PIPE l r => paren (2 <? lvl)%nat (print_cmd 3 l ++ 124 :: print_cmd 2 r)
  | BACK c => paren (1 <? lvl)%nat (print_cmd 1 c ++ [38])
  | LIST l r => paren (0 <? lvl)%nat (print_cmd 1 l ++ 59 :: print_cmd 0 r)
  end.

(** The commands the grammar can express. *)
Definition word_ok (w : list Z) : Prop := w ≠ [] ∧ Forall (λ c, plain c = true) w.
Definition mode_ok (mode fd : Z) : Prop :=
  (mode = O_RDONLY ∧ fd = 0) ∨ (mode = Z.lor O_WRONLY O_CREATE ∧ fd = 1).
Fixpoint expressible (c : cmd_of (list Z)) : Prop :=
  match c with
  | EXEC ws => Forall word_ok ws ∧ (length ws < MAXARGS)%nat
  | REDIR c f mode fd => expressible c ∧ word_ok f ∧ mode_ok mode fd
  | PIPE l r | LIST l r => expressible l ∧ expressible r
  | BACK c => expressible c
  end.
