(* ===== verification/ShRound.v ===== *)
(** * The shell's parser reads back what is printed

    Running the parser of Sh.v on the printed form of a command. *)
From stdpp Require Import base list numbers option strings.
From Stdlib Require Import ZArith Lia.
From S2P Require Import Prelude Kstring Layout Ulib Posix Sh.
Open Scope Z_scope.

Lemma plain_spec c : plain c = true ↔ c ≠ 0 ∧ (c ∉ whitespace) ∧ (c ∉ symbols).
Proof.
  unfold plain. rewrite !andb_true_iff, !negb_true_iff, Z.eqb_neq, <- !not_true_iff_false, !in_chars_spec.
  change (cstr whitespace) with whitespace. change (cstr symbols) with symbols. tauto.
Qed.

(** A character class avoids the plain characters. *)
Lemma plain_not_in l c : plain c = true → Forall (λ x, x ∈ symbols) (cstr l) → in_chars l c = false.
Proof.
  intros Hc Hl. apply not_true_iff_false. rewrite in_chars_spec. intros Hin.
  rewrite Forall_forall in Hl. apply plain_spec in Hc as (_ & _ & Hc). auto.
Qed.

(** One unfolding of each parse function. *)
Section unfold.
Context (b : list Z) (es fuel : nat).
Lemma parseline_S :
  parseline b es (S fuel) =
  (c <- parsepipe b es fuel ;; n <- rounds es ;; c <- back_loop b es n c ;; semi <- peek b es (cs ";") ;;
   if semi : bool then gettoken b es ;;; r <- parseline b es fuel ;; ret (LIST c r) else ret c).
Proof. done. Qed.
Lemma parsepipe_S :
  parsepipe b es (S fuel) =
  (c <- parseexec b es fuel ;; bar <- peek b es (cs "|") ;;
   if bar : bool then gettoken b es ;;; r <- parsepipe b es fuel ;; ret (PIPE c r) else ret c).
Proof. done. Qed.
Lemma parseexec_S :
  parseexec b es (S fuel) =
  (p <- peek b es (cs "(") ;;
   if p : bool then parseblock b es fuel
   else rs <- parseredirs b es ;; n <- rounds es ;; r <- args_loop b es n 0 ;;
        ret (foldl redircmd (EXEC r.1) (rs ++ r.2))).
Proof. done. Qed.
Lemma parseblock_S :
  parseblock b es (S fuel) =
  (o <- peek b es (cs "(") ;;
   if negb o then panic "parseblock"
   else gettoken b es ;;; c <- parseline b es fuel ;; cl <- peek b es (cs ")") ;;
        if negb cl then panic "syntax - missing )"
        else gettoken b es ;;; rs <- parseredirs b es ;; ret (foldl redircmd c rs)).
Proof. done. Qed.
End unfold.

Section round.
Context (txt rest : list Z) (Hnz : Forall (λ c, c ≠ 0) txt).
Let b : list Z := txt ++ 0 :: rest.
Let es : nat := length txt.

(** At position [p] the text [r] remains. *)
Definition at_text (p : nat) (r : list Z) : Prop := (p ≤ es)%nat ∧ drop p txt = r.

Lemma at_end p r : at_text p r → es = (p + length r)%nat.
Proof. intros [Hp <-]. rewrite length_drop. unfold es in *. lia. Qed.
Lemma at_app p w r : at_text p (w ++ r) → at_text (p + length w) r.
Proof.
  intros H. pose proof (at_end _ _ H) as He. destruct H as [Hp Hd]. rewrite length_app in He. split; [lia|].
  rewrite <- drop_drop, Hd. by apply drop_app_length'.
Qed.
Lemma at_cons p c r : at_text p (c :: r) → at_text (S p) r.
Proof. intros H. rewrite <- Nat.add_1_r. by apply (at_app p [c] r). Qed.

Lemma ch_at p r : at_text p r → ch b p = deref r.
Proof.
  intros H. pose proof (at_end _ _ H) as He. destruct H as [Hp Hd]. unfold ch, b, es in *.
  destruct r as [|c r]; cbn [length] in He.
  - rewrite lookup_app_r by lia. by replace (p - length txt)%nat with 0%nat by lia.
  - rewrite lookup_app_l by lia. rewrite <- (Nat.add_0_r p), <- lookup_drop, Hd. done.
Qed.

Lemma skip_at f p w r :
  at_text p (w ++ r) → Forall (λ c, f c = true) w → (r = [] ∨ f (deref r) = false) →
  skip b (es - p) f p = (p + length w)%nat.
Proof.
  intros H Hw Hr. assert (es - p = length w + length r)%nat as ->.
  { pose proof (at_end _ _ H) as He. rewrite length_app in He. lia. }
  revert p H. induction Hw as [|c w Hc Hw IH]; intros p H; cbn [app length Nat.add] in *.
  - rewrite Nat.add_0_r. destruct Hr as [-> |Hr]; [done|]. destruct r as [|c r]; [done|]. cbn [length skip].
    rewrite (ch_at _ _ H). cbn [deref head default option_map] in Hr |- *. by rewrite Hr.
  - cbn [skip]. rewrite (ch_at _ _ H). cbn. rewrite Hc. rewrite IH by (by eapply at_cons). lia.
Qed.

Definition solid (r : list Z) : Prop := in_chars whitespace (deref r) = false.

Lemma skip_white_at p r : at_text p r → solid r → skip_white b es p = p.
Proof.
  intros H Hr. unfold skip_white. rewrite (skip_at _ p [] r); [cbn; lia|done|constructor|by right].
Qed.

Lemma peek_at toks p r :
  at_text p r → solid r →
  peek b es toks p = Ok (negb (deref r =? 0) && in_chars toks (deref r)) p.
Proof.
  intros H Hr. unfold peek, bind, modify, gets, ret. rewrite (skip_white_at _ _ H Hr). cbn [id].
  by rewrite (ch_at _ _ H).
Qed.

Lemma gettoken_sym p c r :
  at_text p (c :: r) → c ∈ symbols → (c = 62 → deref r ≠ 62) → solid r →
  gettoken b es p = Ok (c, (p, S p)) (S p).
Proof.
  intros H Hc Hgt Hr. assert (solid (c :: r)) as Hs.
  { unfold solid. cbn. unfold symbols in Hc. rewrite !elem_of_cons, elem_of_nil in Hc. by destruct_or! Hc; subst. }
  unfold gettoken, bind, gets, modify, ret. cbn [id]. cbv zeta. rewrite (skip_white_at _ _ H Hs), (ch_at _ _ H).
  cbn [deref head default option_map]. rewrite (ch_at _ _ (at_cons _ _ _ H)).
  unfold symbols in Hc. rewrite !elem_of_cons, elem_of_nil in Hc.
  destruct_or! Hc; subst c; cbn; try (by rewrite (skip_white_at _ _ (at_cons _ _ _ H) Hr)).
  rewrite (proj2 (Z.eqb_neq (deref r) 62)) by auto. by rewrite (skip_white_at _ _ (at_cons _ _ _ H) Hr).
Qed.

Lemma gettoken_end p : at_text p [] → gettoken b es p = Ok (0, (p, p)) p.
Proof.
  intros H. unfold gettoken, bind, gets, modify, ret. cbn [id]. cbv zeta.
  rewrite (skip_white_at _ _ H eq_refl), (ch_at _ _ H). cbn. by rewrite (skip_white_at _ _ H eq_refl).
Qed.

(** A word, followed by a separator and then by [r]. *)
Lemma gettoken_word p w sep r :
  at_text p (w ++ sep ++ r) → word_ok w → Forall (λ c, in_chars whitespace c = true) sep → solid r →
  plain (deref (sep ++ r)) = false →
  gettoken b es p = Ok (97, (p, p + length w)%nat) (p + length w + length sep)%nat.
Proof.
  intros H [Hne Hw] Hsep Hr Hpl. destruct w as [|c w]; [done|]. set (w' := c :: w) in *.
  assert (Forall (λ c, c ≠ 0) (w' ++ sep ++ r)) as Hnz' by (destruct H as [_ <-]; by apply Forall_drop).
  assert (plain c = true) as Hc by (by apply Forall_cons in Hw as [? _]).
  pose proof Hc as (Hc0 & Hcw & Hcs)%plain_spec.
  assert (in_chars whitespace c = false) as Hs by (apply not_true_iff_false; by rewrite in_chars_spec).
  unfold gettoken, bind, gets, modify, ret. cbn [id]. cbv zeta.
  rewrite (skip_white_at p _ H) by done. rewrite (ch_at _ _ H). change (deref (w' ++ sep ++ r)) with c.
  unfold symbols in Hcs. rewrite !not_elem_of_cons in Hcs. destruct Hcs as (? & ? & ? & ? & ? & ? & ? & _).
  rewrite !(proj2 (Z.eqb_neq c _)) by done. cbn [orb].
  assert (skip_word b es p = p + length w')%nat as ->.
  { unfold skip_word. apply (skip_at _ p w' (sep ++ r)); [done| |].
    - eapply Forall_impl; [exact Hw|]. intros x Hx. cbv beta.
      unfold plain in Hx. by rewrite <- andb_assoc, andb_true_iff in Hx; destruct Hx.
    - destruct (sep ++ r) as [|x l]; [by left|right]. change (deref (x :: l)) with x in *.
      unfold plain in Hpl. apply Forall_app in Hnz' as [_ Hx]. apply Forall_cons in Hx as [Hx _].
      by rewrite (proj2 (Z.eqb_neq x 0) Hx) in Hpl. }
  f_equal. unfold skip_white. apply (skip_at _ _ sep r); [by apply at_app|done|by right].
Qed.

(** What can follow a word, and what can follow a simple command. *)
Definition breaks (r : list Z) : Prop := r = [] ∨ deref r ∈ symbols.
Definition follow (l : list Z) (r : list Z) : Prop := r = [] ∨ deref r ∈ l.
Abbreviation stops := [124; 41; 38; 59].

Lemma breaks_solid r : breaks r → solid r ∧ plain (deref r) = false.
Proof.
  intros [-> |Hr]; [done|]. unfold solid, symbols in *. rewrite !elem_of_cons, elem_of_nil in Hr.
  by destruct_or! Hr; rewrite Hr.
Qed.
Lemma follow_breaks l r : follow l r → l ⊆ symbols → breaks r.
Proof. intros [-> |Hr] Hl; [by left|right]. by apply Hl. Qed.
Lemma follow_mono l l' r : follow l r → l ⊆ l' → follow l' r.
Proof. intros [-> |Hr] Hl; [by left|right]. by apply Hl. Qed.
Lemma stops_symbols : stops ⊆ symbols.
Proof. intros x. unfold symbols. rewrite !elem_of_cons. tauto. Qed.
Lemma word_solid w r : word_ok w → solid (w ++ r) ∧ plain (deref (w ++ r)) = true.
Proof.
  intros [Hne Hw]. destruct w as [|c w]; [done|]. apply Forall_cons in Hw as [Hc _].
  split; [|done]. unfold solid. change (deref ((c :: w) ++ r)) with c. apply plain_spec in Hc as (_ & Hc & _).
  apply not_true_iff_false. by rewrite in_chars_spec.
Qed.

Lemma follow_sym l r : follow l r → forallb (λ x, bool_decide (x ∈ symbols)) l = true → breaks r.
Proof.
  intros Hr Hl. apply (follow_breaks l r Hr). intros x Hx. rewrite forallb_forall in Hl.
  apply (bool_decide_eq_true_1 (x ∈ symbols)), Hl. by apply list_elem_of_In.
Qed.
Lemma follow_not (l toks r : list Z) :
  follow l r → forallb (λ x, negb (bool_decide (x ∈ toks))) (0 :: l) = true → deref r ∉ toks.
Proof.
  intros Hr Hl Hin. rewrite forallb_forall in Hl. assert (In (deref r) (0 :: l)) as H.
  { destruct Hr as [-> |Hr]; [by left|right]. by apply list_elem_of_In. }
  apply Hl, negb_true_iff, bool_decide_eq_false in H. done.
Qed.

Lemma peek_follow toks p r :
  at_text p r → breaks r → peek b es toks p = Ok (bool_decide (deref r ∈ cstr toks)) p.
Proof.
  intros H Hr. rewrite (peek_at _ _ _ H (proj1 (breaks_solid _ Hr))). f_equal.
  apply eq_bool_prop_intro. rewrite !Is_true_true, bool_decide_eq_true, andb_true_iff, in_chars_spec, negb_true_iff.
  rewrite Z.eqb_neq. split; [tauto|]. intros Hin. split; [|done].
  intros E. rewrite E in Hin. apply list_elem_of_lookup_1 in Hin as [i Hi].
  by apply (Forall_lookup_1 _ _ _ _ (cstr_nonzero toks)) in Hi.
Qed.
Lemma peek_word toks p w r :
  at_text p (w ++ r) → word_ok w → Forall (λ x, x ∈ symbols) (cstr toks) → peek b es toks p = Ok false p.
Proof.
  intros H Hw Ht. destruct (word_solid w r Hw) as [Hs Hp]. rewrite (peek_at _ _ _ H Hs).
  by rewrite (plain_not_in _ _ Hp Ht), andb_false_r.
Qed.

Lemma tok_at p w r : at_text p (w ++ r) → tok_text b (p, (p + length w)%nat) = w.
Proof.
  intros H. pose proof (at_end _ _ H) as He. rewrite length_app in He. destruct H as [Hp Hd].
  unfold tok_text, slice, b. cbn [fst snd]. replace (p + length w - p)%nat with (length w) by lia.
  rewrite drop_app_le by (fold es; lia). rewrite Hd, take_app_le by (rewrite length_app; lia).
  by apply take_app_length.
Qed.

(** ** Redirections *)
Definition rmap (r : redir) : list Z * Z * Z := (tok_text b r.1.1, r.1.2, r.2).
Definition redirs_text (rs : list (list Z * Z * Z)) : list Z := concat (redir_text <$> rs).
Definition redirs_ok (rs : list (list Z * Z * Z)) : Prop :=
  Forall (λ r, word_ok r.1.1 ∧ mode_ok r.1.2 r.2) rs.

Lemma redirs_breaks rs r : breaks r → breaks (redirs_text rs ++ r).
Proof.
  destruct rs as [|[[f m] fd] rs]; [done|]. intros _. right. cbn. unfold symbols.
  rewrite !elem_of_cons. destruct (fd =? 0); tauto.
Qed.

Lemma redirs_at rs n p r :
  at_text p (redirs_text rs ++ r) → follow stops r → redirs_ok rs → (length rs < n)%nat →
  ∃ rs' p', redirs_loop b es n p = Ok rs' p' ∧ at_text p' r ∧ rmap <$> rs' = rs.
Proof using Hnz.
  intros H Hr Hok. revert n p H. pose proof (follow_breaks _ _ Hr stops_symbols) as Hbr.
  induction Hok as [|[[f m] fd] rs [Hf Hm] Hok IH]; intros n p H Hn; destruct n as [|n]; try (cbn in Hn; lia).
  { change (redirs_text [] ++ r) with r in H. exists [], p. split; [|done]. cbn [redirs_loop]. unfold bind at 1. rewrite (peek_follow _ _ _ H) by done.
    rewrite bool_decide_eq_false_2; [done|]. by apply (follow_not stops). }
  set (c := if fd =? 0 then 60 else 62).
  change (redirs_text ((f, m, fd) :: rs)) with ((c :: f) ++ redirs_text rs) in H. rewrite <- app_assoc in H.
  cbn [app] in H. set (r1 := redirs_text rs ++ r) in *.
  assert (breaks r1) as Hb1 by (by apply redirs_breaks). destruct (breaks_solid _ Hb1) as [Hs1 Hp1].
  assert (c = 60 ∨ c = 62) as Hc by (unfold c; destruct (fd =? 0); tauto).
  assert (c ∈ symbols) as Hcs by (unfold symbols; rewrite !elem_of_cons; destruct Hc; tauto).
  destruct (word_solid f r1 Hf) as [Hfs Hfp].
  assert (deref (f ++ r1) ≠ 62) as H62 by (intros E; by rewrite E in Hfp).
  destruct (IH n (p + 1 + length f)%nat) as (rs' & p' & Hrun & Hat & Hmap); [|cbn in Hn; lia|].
  { rewrite Nat.add_1_r. apply at_app. by eapply at_cons. }
  exists (((S p, S p + length f)%nat, m, fd) :: rs'), p'. split; [|split; [done|]].
  - cbn [redirs_loop]. unfold bind at 1. rewrite (peek_follow _ _ _ H) by (by right).
    rewrite bool_decide_eq_true_2 by (change (c ∈ [60; 62]); rewrite !elem_of_cons; tauto). cbn [negb].
    unfold bind at 1. rewrite (gettoken_sym p c (f ++ r1)) by done.
    unfold bind at 1. rewrite (gettoken_word (S p) f [] r1); [|by eapply at_cons|done|constructor|done..].
    cbn [fst snd]. cbn [negb Z.eqb Pos.eqb]. unfold bind at 1. cbn [length]. rewrite Nat.add_0_r.
    replace (S p + length f)%nat with (p + 1 + length f)%nat by lia. rewrite Hrun. unfold ret. f_equal.
    cbn [fst snd] in Hm. unfold c. destruct Hm as [[-> ->]|[-> ->]]; done.
  - cbn [fmap list_fmap]. rewrite Hmap. unfold rmap. cbn [fst snd].
    by rewrite (tok_at (S p) f r1) by (by eapply at_cons).
Qed.

Lemma redirs_length rs : (length rs ≤ length (redirs_text rs))%nat.
Proof. induction rs as [|r rs IH]; cbn; [lia|]. rewrite length_app. unfold redirs_text in IH. lia. Qed.
Lemma parseredirs_at rs p r :
  at_text p (redirs_text rs ++ r) → follow stops r → redirs_ok rs →
  ∃ rs' p', parseredirs b es p = Ok rs' p' ∧ at_text p' r ∧ rmap <$> rs' = rs.
Proof using Hnz.
  intros H Hr Hok. apply redirs_at; [done..|]. pose proof (at_end _ _ H) as He. rewrite length_app in He.
  pose proof (redirs_length rs). lia.
Qed.
Lemma parseredirs_word p w r : at_text p (w ++ r) → word_ok w → parseredirs b es p = Ok [] p.
Proof.
  intros H Hw. unfold parseredirs, bind, rounds, gets. cbn [redirs_loop]. unfold bind.
  rewrite (peek_word _ _ _ _ H Hw); [done|]. change (Forall (λ x, x ∈ symbols) [60; 62]).
  repeat constructor; by apply (bool_decide_unpack _).
Qed.

(** ** The arguments *)
Lemma words_head w ws : ∃ r, words_text (w :: ws) = w ++ r.
Proof. destruct ws; cbn [words_text]; [exists []; by rewrite app_nil_r|by eexists]. Qed.
Lemma words_count ws : Forall word_ok ws → (length ws ≤ length (words_text ws))%nat.
Proof.
  induction 1 as [|w ws [Hw _] Hws IH]; [done|].
  assert (length w ≠ 0%nat) by (by destruct w).
  destruct ws; cbn [words_text length] in *; [lia|]. rewrite length_app. cbn [length]. lia.
Qed.
(** The text of a command starting with a word. *)
Lemma words_at ws p r :
  at_text p (words_text ws ++ r) → Forall word_ok ws → ws ≠ [] →
  ∃ w r', word_ok w ∧ at_text p (w ++ r').
Proof.
  intros H Hws Hne. destruct Hws as [|w ws Hw Hws]; [done|]. destruct (words_head w ws) as [r' E].
  exists w, (r' ++ r). split; [done|]. by rewrite E, <- app_assoc in H.
Qed.
Lemma args_stop n argc p r :
  at_text p r → follow stops r → (0 < n)%nat → args_loop b es n argc p = Ok ([], []) p.
Proof using Hnz.
  intros H Hr Hn. destruct n as [|n]; [lia|]. cbn [args_loop]. unfold bind at 1.
  rewrite (peek_follow _ _ _ H) by (by eapply follow_breaks, stops_symbols).
  destruct Hr as [-> |Hr].
  - rewrite bool_decide_eq_false_2 by (by apply (bool_decide_unpack _)).
    unfold bind. by rewrite (gettoken_end _ H).
  - rewrite bool_decide_eq_true_2; [done|]. change (deref r ∈ [124; 41; 38; 59]). done.
Qed.

Lemma args_at ws rs n argc p r :
  at_text p (words_text ws ++ redirs_text rs ++ r) → Forall word_ok ws → redirs_ok rs → follow stops r →
  (argc + length ws < MAXARGS)%nat → (length ws < n)%nat → (ws = [] → rs = []) →
  ∃ l rs' p', args_loop b es n argc p = Ok (l, rs') p' ∧ at_text p' r ∧ tok_text b <$> l = ws ∧ rmap <$> rs' = rs.
Proof using Hnz.
  intros H Hws Hrs Hr. revert n argc p H. induction Hws as [|w ws Hw Hws IH]; intros n argc p H Hargc Hn Hnil.
  { rewrite (Hnil eq_refl) in *. exists [], [], p. split; [|done]. by apply args_stop with (r := r). }
  destruct n as [|n]; [lia|]. cbn [length] in *. cbn [args_loop].
  pose proof (follow_breaks _ _ Hr stops_symbols) as Hbr.
  set (sep := match ws with [] => [] | _ => [32] end).
  assert (words_text (w :: ws) ++ redirs_text rs ++ r = w ++ sep ++ words_text ws ++ redirs_text rs ++ r) as Etxt.
  { unfold sep. destruct ws; cbn [words_text app]; [done|]. by rewrite <- app_assoc. }
  rewrite Etxt in H. unfold bind at 1. rewrite (peek_word _ _ _ _ H Hw).
  2: { change (Forall (λ x, x ∈ symbols) [124; 41; 38; 59]). repeat constructor; by apply (bool_decide_unpack _). }
  set (r1 := words_text ws ++ redirs_text rs ++ r) in *.
  assert (solid r1 ∧ plain (deref (sep ++ r1)) = false) as [Hs1 Hp1].
  { unfold r1, sep. destruct Hws as [|w2 ws Hw2 Hws].
    - by apply breaks_solid, redirs_breaks.
    - split; [|done]. destruct ws; cbn [words_text]; rewrite <- ?app_assoc; by apply word_solid. }
  unfold bind at 1. rewrite (gettoken_word p w sep r1); [|done|done|unfold sep; destruct ws; by repeat constructor|done..].
  cbn [fst snd]. cbn [negb Z.eqb Pos.eqb]. rewrite (proj2 (Nat.leb_gt _ _)) by lia.
  assert (at_text (p + length w + length sep) r1) as H1 by (by do 2 apply at_app).
  assert (tok_text b (p, (p + length w)%nat) = w) as Htok by (by eapply tok_at).
  destruct (decide (ws = [])) as [->|Hne].
  - destruct (parseredirs_at rs (p + length w + length sep) r) as (rs' & p' & Hrun & Hat & Hmap); [done..|].
    exists [(p, (p + length w)%nat)], rs', p'. split; [|split; [done|split; [by rewrite fmap_cons, Htok|done]]].
    unfold bind at 1. rewrite Hrun. unfold bind at 1. rewrite args_stop with (r := r) by (done || lia).
    unfold ret. cbn. by rewrite app_nil_r.
  - destruct (IH n (S argc) (p + length w + length sep)%nat H1) as (l & rs' & p' & Hrun & Hat & Hl & Hmap); [lia|lia|done|].
    exists ((p, (p + length w)%nat) :: l), rs', p'. split; [|split; [done|split; [by rewrite fmap_cons, Htok, Hl|done]]].
    destruct (words_at ws _ _ H1 Hws Hne) as (w' & r' & Hw' & Hat').
    unfold bind at 1. rewrite (parseredirs_word _ _ _ Hat' Hw'). unfold bind. by rewrite Hrun.
Qed.

(** ** The levels of the grammar *)
Abbreviation text c := (cmd_map (tok_text b) c).
(** [reads m p r c]: run at [p], [m] stops where [r] remains, with the command [c]. *)
Definition reads (m : M nat cmd) (p : nat) (r : list Z) (c : cmd_of (list Z)) : Prop :=
  ∃ c' p', m p = Ok c' p' ∧ at_text p' r ∧ text c' = c.

Definition line_ok (c : cmd_of (list Z)) : Prop := ∀ fuel p r,
  at_text p (print_cmd 0 c ++ r) → follow [41] r → (4 * length (print_cmd 0 c) + 4 ≤ fuel)%nat →
  reads (parseline b es fuel) p r c.
Definition back_ok (c : cmd_of (list Z)) : Prop := ∀ fuel k p r,
  at_text p (print_cmd 1 c ++ replicate k 38 ++ r) → follow [41; 59] r →
  (4 * length (print_cmd 1 c) + 3 ≤ fuel)%nat →
  reads (c <- parsepipe b es fuel ;; n <- rounds es ;; back_loop b es n c) p r (Nat.iter k BACK c).
Definition pipe_ok (c : cmd_of (list Z)) : Prop := ∀ fuel p r,
  at_text p (print_cmd 2 c ++ r) → follow [41; 38; 59] r → (4 * length (print_cmd 2 c) + 3 ≤ fuel)%nat →
  reads (parsepipe b es fuel) p r c.
Definition exec_ok (c : cmd_of (list Z)) : Prop := ∀ fuel rs p r,
  at_text p (print_cmd 3 c ++ redirs_text rs ++ r) → follow stops r → redirs_ok rs →
  (4 * length (print_cmd 3 c) + 2 ≤ fuel)%nat →
  reads (parseexec b es fuel) p r (foldl redircmd c rs).

Lemma text_redirs c rs : text (foldl redircmd c rs) = foldl redircmd (text c) (rmap <$> rs).
Proof. revert c. induction rs as [|r rs IH]; intros c; [done|]. cbn [foldl fmap list_fmap]. by rewrite IH. Qed.

Lemma iter_BACK k (c : cmd_of (list Z)) : Nat.iter k BACK (BACK c) = BACK (Nat.iter k BACK c).
Proof. by rewrite <- Nat.iter_succ_r. Qed.

Ltac in_list := apply (bool_decide_unpack _); vm_compute; exact I.

Lemma back_at k n c p r :
  at_text p (replicate k 38 ++ r) → follow [41; 59] r → (k < n)%nat →
  ∃ c' p', back_loop b es n c p = Ok c' p' ∧ at_text p' r ∧ text c' = Nat.iter k BACK (text c).
Proof using Hnz.
  intros H Hr. assert (breaks r) as Hbr by (by apply (follow_sym [41; 59])).
  revert n c p H. induction k as [|k IH]; intros n c p H Hn; (destruct n as [|n]; [lia|]); cbn [back_loop].
  - cbn [replicate app] in H. exists c, p. split; [|done]. unfold bind. rewrite (peek_follow _ _ _ H) by done.
    rewrite bool_decide_eq_false_2; [done|]. by apply (follow_not [41; 59]).
  - cbn [replicate app] in H. destruct (IH n (BACK c) (S p)) as (c' & p' & Hrun & Hat & Htext);
      [by eapply at_cons|lia|]. exists c', p'. split; [|split; [done|by rewrite Htext; apply iter_BACK]].
    unfold bind at 1. rewrite (peek_follow _ _ _ H) by (right; in_list). rewrite bool_decide_eq_true_2 by in_list.
    unfold bind. rewrite (gettoken_sym p 38 (replicate k 38 ++ r)); [done|done|in_list|done|].
    destruct k; cbn [replicate app]; [by apply breaks_solid|done].
Qed.

Lemma parseline_back fuel p :
  parseline b es (S fuel) p =
  match (c <- parsepipe b es fuel ;; n <- rounds es ;; back_loop b es n c) p with
  | Ok c p => (semi <- peek b es (cs ";") ;;
      if semi : bool then gettoken b es ;;; r <- parseline b es fuel ;; ret (LIST c r) else ret c) p
  | Panic msg => Panic msg
  | Blocked s => Blocked s
  | Ub => Ub
  end.
Proof. rewrite parseline_S. unfold bind. by destruct (parsepipe b es fuel p). Qed.

Lemma line_of_back c : back_ok c → print_cmd 0 c = print_cmd 1 c → line_ok c.
Proof using Hnz.
  intros Hb E fuel p r H Hr Hf. rewrite E in *. destruct fuel as [|fuel]; [lia|].
  destruct (Hb fuel 0%nat p r) as (c' & p' & Hrun & Hat & Htext); [done|eapply follow_mono; [done|]|lia|].
  { intros x. rewrite !elem_of_cons. tauto. }
  exists c', p'. split; [|done]. rewrite parseline_back, Hrun. unfold bind. rewrite (peek_follow _ _ _ Hat).
  2: { by apply (follow_sym [41]). }
  rewrite bool_decide_eq_false_2; [done|]. by apply (follow_not [41]).
Qed.

Lemma back_of_pipe c : pipe_ok c → print_cmd 1 c = print_cmd 2 c → back_ok c.
Proof using Hnz.
  intros Hp E fuel k p r H Hr Hf. rewrite E in *.
  assert (follow [41; 38; 59] (replicate k 38 ++ r)) as Hr'.
  { destruct k; [|right; in_list]. destruct Hr as [-> |Hr]; [by left|right].
    cbn [replicate app]. rewrite !elem_of_cons in *. tauto. }
  destruct (Hp fuel p _ H Hr' Hf) as (c1 & p1 & Hrun & Hat & <-).
  destruct (back_at k (S (S es - p1)) c1 p1 r Hat Hr) as (c' & p' & Hrun' & Hat' & Htext).
  { pose proof (at_end _ _ Hat) as He. rewrite length_app, length_replicate in He. lia. }
  exists c', p'. split; [|done]. unfold bind. by rewrite Hrun.
Qed.

Lemma pipe_of_exec c : exec_ok c → print_cmd 2 c = print_cmd 3 c → pipe_ok c.
Proof using Hnz.
  intros He E fuel p r H Hr Hf. rewrite E in *. destruct fuel as [|fuel]; [lia|].
  destruct (He fuel [] p r) as (c' & p' & Hrun & Hat & Htext); [done| |constructor|lia|].
  { eapply follow_mono; [done|]. intros x. rewrite !elem_of_cons. tauto. }
  exists c', p'. split; [|done]. rewrite parsepipe_S. unfold bind. rewrite Hrun, (peek_follow _ _ _ Hat).
  2: { by apply (follow_sym [41; 38; 59]). }
  rewrite bool_decide_eq_false_2; [done|]. by apply (follow_not [41; 38; 59]).
Qed.

Lemma print_solid lvl c x : expressible c → solid x → solid (print_cmd lvl c ++ x).
Proof.
  revert lvl x. induction c as [ws|c IH f m fd|l IHl r IHr|l IHl r IHr|c IH]; intros lvl x; cbn [expressible print_cmd].
  - intros [Hws _] Hx. destruct Hws as [|w [|w2 ws] Hw Hws]; cbn [words_text]; [done|by apply word_solid|].
    rewrite <- app_assoc. by apply word_solid.
  - intros (Hc & _) Hx. rewrite <- app_assoc. apply IH; [done|]. unfold redir_text. cbn. by destruct (fd =? 0).
  - intros (Hl & _) Hx. destruct (2 <? lvl)%nat; [done|]. cbn [paren]. rewrite <- app_assoc. by apply IHl.
  - intros (Hl & _) Hx. destruct (0 <? lvl)%nat; [done|]. cbn [paren]. rewrite <- app_assoc. by apply IHl.
  - intros Hc Hx. destruct (1 <? lvl)%nat; [done|]. cbn [paren]. rewrite <- app_assoc. by apply IH.
Qed.

Lemma exec_of_line c : expressible c → line_ok c → print_cmd 3 c = 40 :: print_cmd 0 c ++ [41] → exec_ok c.
Proof using Hnz.
  intros Hx Hl E fuel rs p r H Hr Hrs Hf. rewrite E in *. destruct fuel as [|[|fuel]]; [cbn in Hf; lia..|].
  cbn [app length] in H, Hf. rewrite <- app_assoc in H. cbn [app] in H. rewrite length_app in Hf. cbn [length] in Hf.
  pose proof (follow_breaks _ _ Hr stops_symbols) as Hbr.
  destruct (Hl fuel (S p) (41 :: redirs_text rs ++ r)) as (c1 & p1 & Hrun & Hat & <-);
    [by eapply at_cons|right; in_list|lia|].
  destruct (parseredirs_at rs (S p1) r) as (rs' & p' & Hrun' & Hat' & <-); [by eapply at_cons|done..|].
  exists (foldl redircmd c1 rs'), p'. split; [|split; [done|apply text_redirs]].
  rewrite parseexec_S. unfold bind at 1. rewrite (peek_follow _ _ _ H) by (right; in_list).
  rewrite bool_decide_eq_true_2 by in_list. rewrite parseblock_S.
  unfold bind at 1. rewrite (peek_follow _ _ _ H) by (right; in_list).
  rewrite bool_decide_eq_true_2 by in_list. cbn [negb].
  unfold bind at 1. rewrite (gettoken_sym p 40 _ H); [|in_list|done|by apply print_solid].
  unfold bind at 1. rewrite Hrun. unfold bind at 1. rewrite (peek_follow _ _ _ Hat) by (right; in_list).
  rewrite bool_decide_eq_true_2 by in_list. cbn [negb].
  unfold bind at 1. rewrite (gettoken_sym p1 41 _ Hat); [|in_list|done|by apply breaks_solid, redirs_breaks].
  unfold bind. by rewrite Hrun'.
Qed.

Lemma exec_words ws : expressible (EXEC ws) → exec_ok (EXEC ws).
Proof using Hnz.
  intros [Hws Hlen] fuel rs p r H Hr Hrs Hf. destruct fuel as [|fuel]; [lia|]. cbn [print_cmd] in *.
  pose proof (follow_breaks _ _ Hr stops_symbols) as Hbr. rewrite parseexec_S.
  assert (peek b es (cs "(") p = Ok false p) as Hpeek.
  { destruct Hws as [|w ws Hw Hws].
    - cbn [words_text app] in H. rewrite (peek_follow _ _ _ H) by (by apply redirs_breaks).
      rewrite bool_decide_eq_false_2; [done|]. destruct rs as [|[[f m] fd] rs]; [by apply (follow_not stops)|].
      cbn. destruct (fd =? 0); in_list.
    - destruct (words_at (w :: ws) _ _ H) as (w' & r' & Hw' & Hat'); [by constructor|done|].
      apply (peek_word _ _ _ _ Hat' Hw'). change (Forall (λ x, x ∈ symbols) [40]). repeat constructor; in_list. }
  destruct (decide (ws = [])) as [->|Hne].
  - destruct (parseredirs_at rs p r) as (rs' & p' & Hrun & Hat & <-); [done..|].
    exists (foldl redircmd (EXEC []) rs'), p'. split; [|split; [done|by rewrite text_redirs]].
    unfold bind. rewrite Hpeek, Hrun. cbn [rounds gets]. rewrite (args_stop _ _ _ r) by (done || lia).
    unfold ret. cbn [fst snd]. by rewrite app_nil_r.
  - destruct (args_at ws rs (S (S es - p)) 0 p r) as (l & rs' & p' & Hrun & Hat & Hl & Hrs'); [done..| |done|].
    { pose proof (at_end _ _ H) as He. rewrite length_app in He. pose proof (words_count ws Hws). lia. }
    exists (foldl redircmd (EXEC l) rs'), p'. split; [|split; [done|by rewrite text_redirs; cbn [cmd_map]; rewrite Hl, Hrs']].
    destruct (words_at ws _ _ H Hws Hne) as (w' & r' & Hw' & Hat').
    unfold bind at 1. rewrite Hpeek. unfold bind at 1. rewrite (parseredirs_word _ _ _ Hat' Hw').
    unfold bind. cbn [rounds gets]. by rewrite Hrun.
Qed.

Lemma pipe_PIPE l r : exec_ok l → pipe_ok r → expressible r → pipe_ok (PIPE l r).
Proof using Hnz.
  intros Hl Hr Hx fuel p x H Hf Hfuel. change (print_cmd 2 (PIPE l r)) with (print_cmd 3 l ++ 124 :: print_cmd 2 r) in *.
  rewrite length_app in Hfuel. cbn [length] in Hfuel. rewrite <- app_assoc in H. cbn [app] in H.
  destruct fuel as [|fuel]; [lia|].
  destruct (Hl fuel [] p (124 :: print_cmd 2 r ++ x)) as (l' & p1 & Hrun & Hat & Hl'); [done|right; in_list|constructor|lia|].
  destruct (Hr fuel (S p1) x) as (r' & p' & Hrun' & Hat' & <-); [by eapply at_cons|done|lia|].
  exists (PIPE l' r'), p'. split; [|split; [done|cbn [cmd_map]; by rewrite Hl']]. rewrite parsepipe_S. unfold bind at 1. rewrite Hrun.
  unfold bind at 1. rewrite (peek_follow _ _ _ Hat) by (right; in_list). rewrite bool_decide_eq_true_2 by in_list.
  unfold bind at 1. rewrite (gettoken_sym p1 124 _ Hat); [|in_list|done|].
  - unfold bind. by rewrite Hrun'.
  - apply print_solid; [done|]. by apply breaks_solid, (follow_sym [41; 38; 59]).
Qed.

Lemma back_BACK c : back_ok c → back_ok (BACK c).
Proof.
  intros Hc fuel k p r H Hr Hf. change (print_cmd 1 (BACK c)) with (print_cmd 1 c ++ [38]) in *.
  rewrite <- app_assoc in H. rewrite length_app in Hf. rewrite iter_BACK.
  apply (Hc fuel (S k)); [done|done|lia].
Qed.

Lemma line_LIST l r : back_ok l → line_ok r → expressible r → line_ok (LIST l r).
Proof using Hnz.
  intros Hl Hr Hx fuel p x H Hf Hfuel. change (print_cmd 0 (LIST l r)) with (print_cmd 1 l ++ 59 :: print_cmd 0 r) in *.
  rewrite length_app in Hfuel. cbn [length] in Hfuel. rewrite <- app_assoc in H. cbn [app] in H.
  destruct fuel as [|fuel]; [lia|].
  destruct (Hl fuel 0%nat p (59 :: print_cmd 0 r ++ x)) as (l' & p1 & Hrun & Hat & Hl'); [done|right; in_list|lia|].
  destruct (Hr fuel (S p1) x) as (r' & p' & Hrun' & Hat' & <-); [by eapply at_cons|done|lia|].
  exists (LIST l' r'), p'. split; [|split; [done|cbn [cmd_map]; by rewrite Hl']]. rewrite parseline_back, Hrun.
  unfold bind at 1. rewrite (peek_follow _ _ _ Hat) by (right; in_list). rewrite bool_decide_eq_true_2 by in_list.
  unfold bind at 1. rewrite (gettoken_sym p1 59 _ Hat); [|in_list|done|].
  - unfold bind. by rewrite Hrun'.
  - apply print_solid; [done|]. by apply breaks_solid, (follow_sym [41]).
Qed.

Lemma exec_REDIR c f m fd : exec_ok c → expressible (REDIR c f m fd) → exec_ok (REDIR c f m fd).
Proof.
  intros Hc (_ & Hf & Hm) fuel rs p r H Hr Hrs Hfuel.
  change (print_cmd 3 (REDIR c f m fd)) with (print_cmd 3 c ++ redir_text (f, m, fd)) in *.
  rewrite length_app in Hfuel. rewrite <- app_assoc in H.
  apply (Hc fuel ((f, m, fd) :: rs)); [|done|by constructor|lia].
  unfold redirs_text in *. cbn [fmap list_fmap concat]. by rewrite <- app_assoc.
Qed.

(** Every level reads back every expressible command. *)
Lemma all_ok c : expressible c → line_ok c ∧ back_ok c ∧ pipe_ok c ∧ exec_ok c.
Proof using Hnz.
  induction c as [ws|c IH f m fd|l IHl r IHr|l IHl r IHr|c IH]; intros Hx.
  - pose proof (exec_words ws Hx) as He. pose proof (pipe_of_exec _ He eq_refl) as Hp.
    pose proof (back_of_pipe _ Hp eq_refl) as Hb. pose proof (line_of_back _ Hb eq_refl). done.
  - destruct (IH (proj1 Hx)) as (_ & _ & _ & He0). pose proof (exec_REDIR _ _ _ _ He0 Hx) as He.
    pose proof (pipe_of_exec _ He eq_refl) as Hp. pose proof (back_of_pipe _ Hp eq_refl) as Hb.
    pose proof (line_of_back _ Hb eq_refl). done.
  - destruct (IHl (proj1 Hx)) as (_ & _ & _ & Hel). destruct (IHr (proj2 Hx)) as (_ & _ & Hpr & _).
    pose proof (pipe_PIPE _ _ Hel Hpr (proj2 Hx)) as Hp. pose proof (back_of_pipe _ Hp eq_refl) as Hb.
    pose proof (line_of_back _ Hb eq_refl) as Hl. pose proof (exec_of_line _ Hx Hl eq_refl). done.
  - destruct (IHl (proj1 Hx)) as (_ & Hbl & _ & _). destruct (IHr (proj2 Hx)) as (Hlr & _ & _ & _).
    pose proof (line_LIST _ _ Hbl Hlr (proj2 Hx)) as Hl. pose proof (exec_of_line _ Hx Hl eq_refl) as He.
    pose proof (pipe_of_exec _ He eq_refl) as Hp. pose proof (back_of_pipe _ Hp eq_refl). done.
  - destruct (IH Hx) as (_ & Hb0 & _ & _). pose proof (back_BACK _ Hb0) as Hb.
    pose proof (line_of_back _ Hb eq_refl) as Hl. pose proof (exec_of_line _ Hx Hl eq_refl) as He.
    pose proof (pipe_of_exec _ He eq_refl). done.
Qed.
End round.

(** ** Properties *)
Lemma cstr_line txt rest : Forall (λ c, c ≠ 0) txt → length (cstr (txt ++ 0 :: rest)) = length txt.
Proof. intros H. by rewrite cstr_app_zero. Qed.

Lemma line_ends b : (length (cstr b) < length b)%nat →
  ch b (length (cstr b)) = 0 ∧ ∀ i, (i < length (cstr b))%nat → ch b i ≠ 0.
Proof.
  induction b as [|c b IH]; cbn [cstr length]; [lia|]. destruct (Z.eqb_spec c 0) as [->|Hc]; cbn [length].
  { intros _. split; [done|lia]. }
  intros Hl. destruct (IH ltac:(lia)) as [H1 H2]. split; [exact H1|].
  intros [|i] Hi; [exact Hc|]. apply H2. lia.
Qed.

Lemma print_nonzero lvl c : expressible c → Forall (λ x, x ≠ 0) (print_cmd lvl c).
Proof.
  assert (∀ w, word_ok w → Forall (λ x, x ≠ 0) w) as Hw.
  { intros w [_ H]. eapply Forall_impl; [exact H|]. by intros x (? & _)%plain_spec. }
  assert (∀ p t, Forall (λ x, x ≠ 0) t → Forall (λ x, x ≠ 0) (paren p t)) as Hp.
  { intros [] t H; [|done]. constructor; [done|]. apply Forall_app. split; [done|]. by constructor. }
  revert lvl. induction c as [ws|c IH f m fd|l IHl r IHr|l IHl r IHr|c IH]; intros lvl; cbn [expressible print_cmd].
  - intros [Hws _]. induction Hws as [|w [|w2 ws] ? Hws IH]; cbn [words_text]; [done|by auto|].
    apply Forall_app. split; [auto|]. by constructor.
  - intros (Hc & Hf & _). apply Forall_app. split; [auto|]. constructor; [|auto]. by destruct (_ =? 0).
  - intros [Hl Hr]. apply Hp, Forall_app. split; [auto|]. constructor; auto.
  - intros [Hl Hr]. apply Hp, Forall_app. split; [auto|]. constructor; auto.
  - intros Hc. apply Hp, Forall_app. split; [auto|]. by constructor.
Qed.

(** C33: the parser ends on every line: parsecmd returns a command or reports a
    syntax error, never runs on or reads outside the line; in a command it
    returns, each argument and file name is a non-empty word of the line, and
    nulterminate has made it a C string of its own. *)
Theorem parsecmd_total b :
  (length (cstr b) < length b)%nat →
  match parsecmd b with
  | Ok (c, b') _ => cmd_ok b (length (cstr b)) c ∧ strings b' c = cmd_map (tok_text b) c
  | Panic _ => True
  | _ => False
  end.
Proof.
  intros Hb. destruct (line_ends b Hb) as [Hes Hin]. unfold parsecmd. set (es := length (cstr b)) in *.
  enough (safe (c <- parseline b es (4 * S es) ;; peek b es [] ;;; s <- gets id ;;
    if negb (s =? es)%nat then panic "syntax" else ret (c, nulterminate c b))
    (λ r _, cmd_ok b es r.1 ∧ strings r.2 r.1 = cmd_map (tok_text b) r.1) 0%nat) as Hsafe.
  { unfold safe in Hsafe. by destruct (bind _ _ _) as [[c b'] s| | |]. }
  apply safe_bind. eapply safe_mono; [apply (safe_parse b es Hes Hin (4 * S es)); lia|].
  intros c s [Hs Hc]. apply safe_bind, safe_peek; [done|lia|]. intros _ s' _ _.
  apply safe_bind. unfold safe at 1, gets. destruct (negb _); [apply safe_panic|].
  apply safe_ret. split; [done|]. by apply (nulterminate_strings b es).
Qed.

(** C9: what is printed is parsed back: on the text of a command (words, < and >
    redirections, pipes, lists, background commands and parentheses, nested in
    any way) parsecmd returns that command. *)
Theorem parsecmd_print c rest :
  expressible c →
  ∃ c' b' s, parsecmd (print_cmd 0 c ++ 0 :: rest) = Ok (c', b') s ∧ strings b' c' = c.
Proof.
  intros Hx. pose proof (print_nonzero 0 c Hx) as Hnz. set (txt := print_cmd 0 c) in *. set (b := txt ++ 0 :: rest).
  assert (length (cstr b) = length txt) as Hes by (by apply cstr_line).
  assert (length (cstr b) < length b)%nat as Hlt by (rewrite Hes; unfold b; rewrite length_app; cbn; lia).
  destruct (line_ends b Hlt) as [H0 Hin]. destruct (all_ok txt rest Hnz c Hx) as (Hl & _ & _ & _).
  destruct (Hl (4 * S (length txt))%nat 0%nat []) as (c' & p' & Hrun & Hat & Htext).
  { split; [lia|]. by rewrite drop_0, app_nil_r. }
  { by left. }
  { fold txt. lia. }
  pose proof (at_end txt p' [] Hat) as Hp. cbn [length] in Hp. rewrite Nat.add_0_r in Hp. subst p'.
  assert (cmd_ok b (length txt) c') as Hok.
  { rewrite Hes in *. destruct (safe_parse b (length txt) H0 Hin (4 * S (length txt))) as [Hs _].
    specialize (Hs 0%nat ltac:(lia) ltac:(lia)). unfold safe in Hs. fold b in Hrun. rewrite Hrun in Hs. apply Hs. }
  exists c', (nulterminate c' b), (length txt). split.
  - unfold parsecmd. rewrite Hes. unfold bind at 1. fold b in Hrun. rewrite Hrun.
    unfold bind. unfold b. rewrite (peek_at txt rest [] (length txt) [] Hat) by done. cbn.
    by rewrite Nat.eqb_refl.
  - rewrite (nulterminate_strings b (length txt)); [done|done|lia].
Qed.

(** ** Examples *)
(** cat < in | (sort; uniq) > out & *)
Definition ex_cmd : cmd_of (list Z) :=
  BACK (PIPE (REDIR (EXEC [cs "cat"]) (cs "in") O_RDONLY 0)
             (REDIR (LIST (EXEC [cs "sort"; cs "-r"]) (EXEC [cs "uniq"])) (cs "out") (Z.lor O_WRONLY O_CREATE) 1)).
Definition ex_cmd_text : list Z := cs "cat<in|(sort -r;uniq)>out&".
Lemma ex_cmd_ok : expressible ex_cmd.
Proof.
  assert (∀ w, w ≠ [] → forallb plain w = true → word_ok w) as Hw.
  { intros w Hne Hf. split; [done|]. apply Forall_forall. intros x Hx. rewrite forallb_forall in Hf.
    by apply Hf, list_elem_of_In. }
  repeat split; try (by apply Hw); try (by left); try (by right); cbn; try (repeat constructor; by apply Hw).
  all: apply Nat.leb_le; reflexivity.
Qed.

(** Witness of parsecmd_total: a line with a redirection and an argument list. *)
Lemma parsecmd_total_witness :
  parsecmd (cs "wc <a" ++ [0]) = Ok (REDIR (EXEC [(0, 2)%nat]) (4, 5)%nat O_RDONLY 0,
    cs "wc" ++ [0] ++ cs "<a" ++ [0]) 5%nat ∧
  match parsecmd (cs "wc <a" ++ [0]) with
  | Ok (c, b') _ => cmd_ok (cs "wc <a" ++ [0]) 5 c ∧ strings b' c = cmd_map (tok_text (cs "wc <a" ++ [0])) c
  | Panic _ => True
  | _ => False
  end.
Proof.
  split; [vm_compute; reflexivity|]. apply (parsecmd_total (cs "wc <a" ++ [0])). apply Nat.leb_le. reflexivity.
Defined.

(** Witness of parsecmd_print. *)
Lemma parsecmd_print_witness :
  print_cmd 0 ex_cmd = ex_cmd_text ∧
  ∃ c' b' s, parsecmd (print_cmd 0 ex_cmd ++ [0]) = Ok (c', b') s ∧ strings b' c' = ex_cmd.
Proof. split; [vm_compute; reflexivity|]. exact (parsecmd_print ex_cmd [] ex_cmd_ok). Defined.
