(* ===== verification/ShRun.v ===== *)
(** * Running commands (sh.c: runcmd, getcmd, main, fork1, panic)

    A shell process is the tree of the system calls it makes, branching on their
    results.  [run] gives it the behaviour of calls that succeed: it computes
    the programs executed and the waits for a child, each with the table of
    descriptors of the process. *)
From stdpp Require Import base list numbers option strings.
From Stdlib Require Import ZArith Lia.
From S2P Require Import Prelude Kstring Layout Ulib Posix Sh.
Open Scope Z_scope.

Inductive prog :=
| PExit
| PExec (argv : list (list Z)) (failed : prog)
| PPrint (fd : Z) (fmt : list Z) (args : list (list Z)) (k : prog)
| PClose (fd : Z) (k : prog)
| POpen (file : list Z) (mode : Z) (k : Z → prog)
| PDup (fd : Z) (k : prog)
| PPipe (k : Z → Z → Z → prog)          (** result, p[0], p[1] *)
| PFork (k : Z → prog)
| PWait (k : prog)
| PChdir (dir : list Z) (k : Z → prog).

(** panic of sh.c: print the message and exit. *)
Definition sh_panic (s : list Z) : prog := PPrint 2 (cs "%s" ++ [NL]) [s] PExit.
Definition fork1 (k : Z → prog) : prog :=
  PFork (λ pid, if pid =? -1 then sh_panic (cs "fork") else k pid).

Fixpoint runcmd (c : cmd_of (list Z)) : prog :=
  match c with
  | EXEC argv =>
    match argv with
    | [] => PExit
    | a :: _ => PExec argv (PPrint 2 (cs "exec %s failed" ++ [NL]) [a] PExit)
    end
  | REDIR c file mode fd =>
    PClose fd (POpen file mode (λ r,
      if r <? 0 then PPrint 2 (cs "open %s failed" ++ [NL]) [file] PExit else runcmd c))
  | LIST l r => fork1 (λ pid, if pid =? 0 then runcmd l else PWait (runcmd r))
  | PIPE l r =>
    PPipe (λ res p0 p1,
      if res <? 0 then sh_panic (cs "pipe")
      else fork1 (λ pid,
        if pid =? 0 then PClose 1 (PDup p1 (PClose p0 (PClose p1 (runcmd l))))
        else fork1 (λ pid,
          if pid =? 0 then PClose 0 (PDup p0 (PClose p0 (PClose p1 (runcmd r))))
          else PClose p0 (PClose p1 (PWait (PWait PExit))))))
  | BACK c => fork1 (λ pid, if pid =? 0 then runcmd c else PExit)
  end.

(** The child of main: parse the line and run it; parsecmd's messages go to
    descriptor 2. *)
Definition run_line (buf : list Z) : prog :=
  match parsecmd buf with
  | Ok (c, b) _ => runcmd (strings b c)
  | Panic msg => sh_panic (cs msg)
  | _ => PExit
  end.

(** buf[strlen(buf)-1] = 0 *)
Definition chop (buf : list Z) : list Z := <[(length (cstr buf) - 1)%nat := 0]> buf.
(** The command loop of main on the input typed: one round per line, so a round
    for each byte and one for the end of the input are enough. *)
Fixpoint sh_loop (fuel : nat) (inp : list Z) : prog :=
  match fuel with
  | O => PExit
  | S fuel =>
    PPrint 2 (cs "$ ") []
      (let '(buf, inp) := ugets 100 inp in
       if deref buf =? 0 then PExit
       else if (deref buf =? 99) && (deref (drop 1 buf) =? 100) && (deref (drop 2 buf) =? 32) then
         let dir := drop 3 (chop buf) in
         PChdir dir (λ r,
           if r <? 0 then PPrint 2 (cs "cannot cd %s" ++ [NL]) [dir] (sh_loop fuel inp) else sh_loop fuel inp)
       else fork1 (λ pid, if pid =? 0 then run_line buf else PWait (sh_loop fuel inp)))
  end.
(** Open the console until descriptors 0, 1 and 2 are in use: four attempts
    reach a descriptor above 2. *)
Fixpoint open_console (n : nat) (k : prog) : prog :=
  match n with
  | O => k
  | S n =>
    POpen (cs "console") O_RDWR (λ fd,
      if fd <? 0 then k else if 3 <=? fd then PClose fd k else open_console n k)
  end.
Definition sh_main (inp : list Z) : prog := open_console 4 (sh_loop (S (length inp)) inp).

(** ** Calls that succeed *)
Inductive obj := OTerm (n : nat) | OFileOf (name : list Z) (mode : Z) | OPipeR (id : nat) | OPipeW (id : nat).
Definition fdtable : Type := list (option obj).
Fixpoint free_slot (l : fdtable) : nat :=
  match l with
  | Some _ :: l => S (free_slot l)
  | _ => 0
  end.

(** The programs executed and the waits, with the descriptors of the process;
    the events of a child come before those of its parent after the fork.  [n]
    numbers the pipes. *)
Inductive event := ERun (argv : list (list Z)) (fds : fdtable) | EWait (fds : fdtable).
Fixpoint run (p : prog) (fds : fdtable) (n : nat) : list event * nat :=
  match p with
  | PExit => ([], n)
  | PExec argv _ => ([ERun argv fds], n)
  | PPrint _ _ _ k => run k fds n
  | PClose fd k => run k (<[Z.to_nat fd := None]> fds) n
  | POpen file mode k =>
    let f := free_slot fds in run (k (Z.of_nat f)) (<[f := Some (OFileOf file mode)]> fds) n
  | PDup fd k => run k (<[free_slot fds := mjoin (fds !! Z.to_nat fd)]> fds) n
  | PPipe k =>
    let f0 := free_slot fds in
    let fds1 := <[f0 := Some (OPipeR n)]> fds in
    let f1 := free_slot fds1 in
    run (k 0 (Z.of_nat f0) (Z.of_nat f1)) (<[f1 := Some (OPipeW n)]> fds1) (S n)
  | PFork k =>
    let '(e1, n1) := run (k 0) fds n in
    let '(e2, n2) := run (k 1) fds n1 in
    (e1 ++ e2, n2)
  | PWait k => let '(e, n1) := run k fds n in (EWait fds :: e, n1)
  | PChdir _ k => run (k 0) fds n
  end.

(** Standard input, output and error, and nothing else of the 16 descriptors. *)
Definition std (i o e : obj) : fdtable := [Some i; Some o; Some e] ++ replicate 13 None.

(** ** What a command means

    The programs with their input and output.  A list waits for its left side
    before the right side runs, a pipeline for both sides at its end, and a
    background command for nothing; a process that waits holds no pipe. *)
Fixpoint meaning (e : obj) (c : cmd_of (list Z)) (i o : obj) (n : nat) : list event * nat :=
  match c with
  | EXEC [] => ([], n)
  | EXEC argv => ([ERun argv (std i o e)], n)
  | REDIR c file mode fd =>
    if fd =? 0 then meaning e c (OFileOf file mode) o n else meaning e c i (OFileOf file mode) n
  | LIST l r =>
    let '(e1, n1) := meaning e l i o n in
    let '(e2, n2) := meaning e r i o n1 in
    (e1 ++ EWait (std i o e) :: e2, n2)
  | PIPE l r =>
    let '(e1, n1) := meaning e l i (OPipeW n) (S n) in
    let '(e2, n2) := meaning e r (OPipeR n) o n1 in
    (e1 ++ e2 ++ [EWait (std i o e); EWait (std i o e)], n2)
  | BACK c => meaning e c i o n
  end.
Fixpoint redir_fds (c : cmd_of (list Z)) : Prop :=
  match c with
  | EXEC _ => True
  | REDIR c _ _ fd => (fd = 0 ∨ fd = 1) ∧ redir_fds c
  | PIPE l r | LIST l r => redir_fds l ∧ redir_fds r
  | BACK c => redir_fds c
  end.

(** C10: runcmd connects the programs as the command says: each program of a
    pipeline, list, redirection or background command is executed, in order,
    with its standard input and output on the pipe, file or terminal the command
    assigns, the error output inherited, and no other descriptor open.  The
    shell waits between the sides of a list, for both sides of a pipeline, and
    not for a background command; while it waits it holds no end of a pipe that
    would hide the end of the data from the reader. *)
Theorem runcmd_correct c i o e n :
  redir_fds c → run (runcmd c) (std i o e) n = meaning e c i o n.
Proof.
  revert i o n. induction c as [argv|c IH f m fd|l IHl r IHr|l IHl r IHr|c IH]; intros i o n; cbn [redir_fds].
  - intros _. by destruct argv.
  - intros [[-> | ->] Hc]; cbn; apply (IH _ _ n Hc).
  - intros [Hl Hr]. cbn [runcmd run fork1 Z.ltb Z.eqb Z.compare meaning].
    match goal with |- context [run (runcmd l) ?F (S n)] => change F with (std i (OPipeW n) e) end.
    rewrite (IHl i (OPipeW n) (S n) Hl). destruct (meaning e l _ _ _) as [e1 n1].
    match goal with |- context [run (runcmd r) ?F n1] => change F with (std (OPipeR n) o e) end.
    by rewrite (IHr (OPipeR n) o n1 Hr); destruct (meaning e r _ _ _) as [e2 n2].
  - intros [Hl Hr]. cbn [runcmd run fork1 Z.ltb Z.eqb Z.compare meaning].
    rewrite (IHl i o n Hl). destruct (meaning e l _ _ _) as [e1 n1].
    by rewrite (IHr i o n1 Hr); destruct (meaning e r _ _ _) as [e2 n2].
  - intros Hc. cbn [runcmd run fork1 Z.ltb Z.eqb Z.compare meaning].
    rewrite (IH i o n Hc). destruct (meaning e c _ _ _) as [e1 n1]. by rewrite app_nil_r.
Qed.

(** Witness of runcmd_correct: a pipe with a redirection. *)
Lemma runcmd_correct_witness :
  run (runcmd (PIPE (EXEC [cs "ls"]) (REDIR (EXEC [cs "wc"]) (cs "n") O_RDWR 1)))
      (std (OTerm 0) (OTerm 1) (OTerm 2)) 7
  = ([ERun [cs "ls"] (std (OTerm 0) (OPipeW 7) (OTerm 2));
      ERun [cs "wc"] (std (OPipeR 7) (OFileOf (cs "n") O_RDWR) (OTerm 2));
      EWait (std (OTerm 0) (OTerm 1) (OTerm 2));
      EWait (std (OTerm 0) (OTerm 1) (OTerm 2))], 8%nat).
Proof.
  apply (runcmd_correct (PIPE (EXEC [cs "ls"]) (REDIR (EXEC [cs "wc"]) (cs "n") O_RDWR 1))).
  repeat split. by right.
Defined.
