(* ===== verification/Vm.v ===== *)
(** * Page tables (vm.c, the paging macros of mmu.h)

    A page directory and the page tables are pages of the memory of Kalloc.v,
    read and written as 32-bit words; a pointer to an entry is its address.  The
    two-level walk, the mapping and unmapping of pages, and the copies between
    kernel buffers and user memory are the code's.  The segment and control
    registers (seginit, switchuvm, switchkvm) are in Segment.v. *)
From stdpp Require Import base list gmap numbers option strings sets.
From Stdlib Require Import ZArith Lia.
From S2P Require Import Prelude Kstring Layout Kalloc.
Open Scope Z_scope.

Definition NPDENTRIES : Z := 1024.
Definition NPTENTRIES : Z := 1024.
Definition PTE_P : Z := 0x001.
Definition PTE_W : Z := 0x002.
Definition PTE_U : Z := 0x004.
Definition PTE_ADDR (pte : Z) : Z := Z.land pte (u32 (Z.lnot 0xFFF)).
Definition PDX (va : Z) : Z := Z.land (Z.shiftr va 22) 0x3FF.
Definition PTX (va : Z) : Z := Z.land (Z.shiftr va 12) 0x3FF.

Section vm.
(** The end of the kernel and the start of its writable data, set by the
    linker. *)
Context (kend kdata : Z).

(** The address of the entry of [va], or 0. *)
Definition walkpgdir (pgdir va : Z) (alloc : bool) : M kmem Z :=
  let pde := pgdir + 4 * PDX va in
  e <- ldw pde ;;
  if has e PTE_P then ret (p2v (PTE_ADDR e) + 4 * PTX va)
  else if negb alloc then ret 0
  else
    pgtab <- kalloc ;;
    if pgtab =? 0 then ret 0
    else
      on_page pgtab (memset 0 0 PGSIZE) ;;;
      stw pde (Z.lor (Z.lor (Z.lor (v2p pgtab) PTE_P) PTE_W) PTE_U) ;;;
      ret (pgtab + 4 * PTX va).

(** The loop of mappages maps [n] pages; false for a return of -1. *)
Fixpoint mappages_loop (n : nat) (pgdir a pa perm : Z) : M kmem bool :=
  match n with
  | O => ret true
  | S n =>
    pte <- walkpgdir pgdir a true ;;
    if pte =? 0 then ret false
    else
      e <- ldw pte ;;
      if has e PTE_P then panic "remap"
      else
        stw pte (Z.lor (Z.lor pa perm) PTE_P) ;;;
        mappages_loop n pgdir (u32 (a + PGSIZE)) (u32 (pa + PGSIZE)) perm
  end.
(** The loop runs until a == last, also past the top of the address space. *)
Definition mappages (pgdir va size pa perm : Z) : M kmem bool :=
  let a := PGROUNDDOWN va in
  let last := PGROUNDDOWN (u32 (va + size - 1)) in
  mappages_loop (S (Z.to_nat (u32 (last - a) / PGSIZE))) pgdir a pa perm.

(** struct kmap: virt, phys_start, phys_end, perm. *)
Definition kmap : list (Z * Z * Z * Z) :=
  [(KERNBASE, 0, EXTMEM, PTE_W);
   (KERNLINK, v2p KERNLINK, v2p kdata, 0);
   (kdata, v2p kdata, PHYSTOP, PTE_W);
   (DEVSPACE, DEVSPACE, 0, PTE_W)].
Fixpoint setup_loop (pgdir : Z) (l : list (Z * Z * Z * Z)) : M kmem bool :=
  match l with
  | [] => ret true
  | (virt, ps, pe, perm) :: l =>
    ok <- mappages pgdir virt (u32 (pe - ps)) ps perm ;;
    if ok : bool then setup_loop pgdir l else ret false
  end.
Definition setupkvm : M kmem Z :=
  pgdir <- kalloc ;;
  if pgdir =? 0 then ret 0
  else
    on_page pgdir (memset 0 0 PGSIZE) ;;;
    if DEVSPACE <? p2v PHYSTOP then panic "PHYSTOP too high"
    else ok <- setup_loop pgdir kmap ;; ret (if ok : bool then pgdir else 0).

(** memmove of the bytes [l] to address [dst] in one page. *)
Definition put_bytes (dst : Z) (l : list Z) : M kmem unit :=
  on_page (page_base dst) (modify (λ pg, splice pg (Z.to_nat (dst mod PGSIZE)) l)).

Definition inituvm (pgdir : Z) (init : list Z) : M kmem unit :=
  if PGSIZE <=? Z.of_nat (length init) then panic "inituvm: more than a page"
  else
    mem <- kalloc ;;
    on_page mem (memset 0 0 PGSIZE) ;;;
    mappages pgdir 0 PGSIZE (v2p mem) (Z.lor PTE_W PTE_U) ;;;
    put_bytes mem init.

(** The loop of deallocuvm from [a] up; every round advances by a page. *)
Fixpoint dealloc_loop (fuel : nat) (pgdir a oldsz : Z) : M kmem unit :=
  match fuel with
  | O => undefined
  | S fuel =>
    if a <? oldsz then
      pte <- walkpgdir pgdir a false ;;
      if pte =? 0 then dealloc_loop fuel pgdir (u32 (a + (NPTENTRIES - 1) * PGSIZE + PGSIZE)) oldsz
      else
        e <- ldw pte ;;
        (if has e PTE_P then
           if PTE_ADDR e =? 0 then panic "kfree"
           else kfree kend (p2v (PTE_ADDR e)) ;;; stw pte 0
         else ret tt) ;;;
        dealloc_loop fuel pgdir (u32 (a + PGSIZE)) oldsz
    else ret tt
  end.
Definition deallocuvm (pgdir oldsz newsz : Z) : M kmem Z :=
  if oldsz <=? newsz then ret oldsz
  else
    let a := PGROUNDUP newsz in
    dealloc_loop (S (Z.to_nat ((oldsz - a) / PGSIZE + 1))) pgdir a oldsz ;;; ret newsz.

Fixpoint alloc_loop (fuel : nat) (pgdir a oldsz newsz : Z) : M kmem Z :=
  match fuel with
  | O => undefined
  | S fuel =>
    if a <? newsz then
      mem <- kalloc ;;
      if mem =? 0 then deallocuvm pgdir newsz oldsz ;;; ret 0
      else
        on_page mem (memset 0 0 PGSIZE) ;;;
        mappages pgdir a PGSIZE (v2p mem) (Z.lor PTE_W PTE_U) ;;;
        alloc_loop fuel pgdir (u32 (a + PGSIZE)) oldsz newsz
    else ret newsz
  end.
Definition allocuvm (pgdir oldsz newsz : Z) : M kmem Z :=
  if KERNBASE <=? newsz then ret 0
  else if newsz <? oldsz then ret oldsz
  else
    let a := PGROUNDUP oldsz in
    alloc_loop (S (Z.to_nat ((newsz - a) / PGSIZE + 1))) pgdir a oldsz newsz.

Definition freevm (pgdir : Z) : M kmem unit :=
  if pgdir =? 0 then panic "freevm: no pgdir"
  else
    deallocuvm pgdir KERNBASE 0 ;;;
    mfor (seqZ 0 NPDENTRIES) (λ i,
      e <- ldw (pgdir + 4 * i) ;;
      if has e PTE_P then kfree kend (p2v (PTE_ADDR e)) else ret tt) ;;;
    kfree kend pgdir.

Definition clearpteu (pgdir uva : Z) : M kmem unit :=
  pte <- walkpgdir pgdir uva false ;;
  if pte =? 0 then panic "clearpteu"
  else e <- ldw pte ;; stw pte (Z.land e (u32 (Z.lnot PTE_U))).

(** memmove of a whole page. *)
Definition copy_page (dst src : Z) : M kmem unit :=
  pg <- gets (λ s, km_pages s !! src) ;;
  pg <- lift_opt pg ;;
  on_page dst (modify (λ _, pg)).

(** The loop of copyuvm; false for the jump to bad. *)
Fixpoint copyuvm_loop (n : nat) (pgdir d i : Z) : M kmem bool :=
  match n with
  | O => ret true
  | S n =>
    pte <- walkpgdir pgdir i false ;;
    if pte =? 0 then panic "copyuvm: pte should exist"
    else
      e <- ldw pte ;;
      if negb (has e PTE_P) then panic "copyuvm: page not present"
      else
        mem <- kalloc ;;
        if mem =? 0 then ret false
        else
          copy_page mem (p2v (PTE_ADDR e)) ;;;
          ok <- mappages d i PGSIZE (v2p mem) (Z.lor PTE_W PTE_U) ;;
          if ok : bool then copyuvm_loop n pgdir d (u32 (i + PGSIZE)) else ret false
  end.
(** One round per page below sz. *)
Definition copyuvm (pgdir sz : Z) : M kmem Z :=
  d <- setupkvm ;;
  if d =? 0 then ret 0
  else
    ok <- copyuvm_loop (Z.to_nat ((sz + PGSIZE - 1) / PGSIZE)) pgdir d 0 ;;
    if ok : bool then ret d else freevm d ;;; ret 0.

(** A null pte is followed: the code does not test it. *)
Definition uva2ka (pgdir uva : Z) : M kmem Z :=
  pte <- walkpgdir pgdir uva false ;;
  e <- ldw pte ;;
  if negb (has e PTE_P) then ret 0
  else if negb (has e PTE_U) then ret 0
  else ret (p2v (PTE_ADDR e)).

(** The loop of copyout: [l] are the bytes left; every round copies one. *)
Fixpoint copyout_loop (fuel : nat) (pgdir va : Z) (l : list Z) : M kmem Z :=
  match l with
  | [] => ret 0
  | _ =>
    match fuel with
    | O => undefined
    | S fuel =>
      let va0 := PGROUNDDOWN va in
      pa0 <- uva2ka pgdir va0 ;;
      if pa0 =? 0 then ret (-1)
      else
        let n := Z.min (PGSIZE - (va - va0)) (Z.of_nat (length l)) in
        put_bytes (pa0 + (va - va0)) (take (Z.to_nat n) l) ;;;
        copyout_loop fuel pgdir (u32 (va0 + PGSIZE)) (drop (Z.to_nat n) l)
    end
  end.
Definition copyout (pgdir va : Z) (p : list Z) : M kmem Z := copyout_loop (S (length p)) pgdir va p.
End vm.
