(* ===== verification/VmSpec.v ===== *)
(** * Correctness of the page tables

    The two levels are abstracted to the function [pte_of] from virtual addresses
    to page-table entries; [space] says that the page directory and the page
    tables of an address space are distinct pages, none of them free.  walkpgdir,
    mappages, copyout, copyuvm and freevm are specified in these terms. *)
From stdpp Require Import base list gmap numbers option strings sets.
From Stdlib Require Import ZArith Lia.
From S2P Require Import Prelude Kstring Layout Kalloc Vm.
Open Scope Z_scope.

(** ** Addresses and entries *)
Lemma land_ones10 x : Z.land x 0x3FF = x mod 1024.
Proof. change 0x3FF with (Z.ones 10). by rewrite Z.land_ones by lia. Qed.
Lemma PDX_eq va : PDX va = va / 2 ^ 22 mod 1024.
Proof. unfold PDX. by rewrite land_ones10, Z.shiftr_div_pow2 by lia. Qed.
Lemma PTX_eq va : PTX va = va / 4096 mod 1024.
Proof. unfold PTX. by rewrite land_ones10, Z.shiftr_div_pow2 by lia. Qed.
Lemma PDX_range va : 0 ≤ PDX va < 1024.
Proof. rewrite PDX_eq. apply Z.mod_pos_bound. lia. Qed.
Lemma PTX_range va : 0 ≤ PTX va < 1024.
Proof. rewrite PTX_eq. apply Z.mod_pos_bound. lia. Qed.
Lemma page_index va : 0 ≤ va < 2 ^ 32 → va / 4096 = 1024 * PDX va + PTX va.
Proof.
  intros H. rewrite PDX_eq, PTX_eq. rewrite (Z.mod_small (va / 2 ^ 22)).
  - change (2 ^ 22) with (4096 * 1024). rewrite <- Z.div_div by lia. apply Z.div_mod. lia.
  - split; [apply Z.div_pos; lia|]. apply Z.div_lt_upper_bound; lia.
Qed.
Lemma same_page va va' :
  0 ≤ va < 2 ^ 32 → 0 ≤ va' < 2 ^ 32 → PDX va = PDX va' → PTX va = PTX va' → va / 4096 = va' / 4096.
Proof.
  intros H H' Hd Ht. rewrite (page_index va H), (page_index va' H'), Hd, Ht. reflexivity.
Qed.
Lemma page_same va va' : va / 4096 = va' / 4096 → PDX va = PDX va' ∧ PTX va = PTX va'.
Proof.
  rewrite !PDX_eq, !PTX_eq. intros H. split; [|by rewrite H]. change (2 ^ 22) with (4096 * 1024).
  by rewrite <- !Z.div_div, H by lia.
Qed.

Lemma land_aligned pa b : pa mod 4096 = 0 → 0 ≤ b < 4096 → Z.land pa b = 0.
Proof. intros. by apply (land_disjoint 12). Qed.

Section entry.
Context (pa perm : Z).
Hypotheses (Hpa : 0 ≤ pa < 2 ^ 32) (Hal : pa mod 4096 = 0) (Hperm : 0 ≤ perm < 4096).
Definition mkpte : Z := Z.lor (Z.lor pa perm) PTE_P.
Lemma PTE_ADDR_mkpte : PTE_ADDR mkpte = pa.
Proof using All.
  unfold PTE_ADDR, mkpte. change (u32 (Z.lnot 0xFFF)) with (u32 (Z.lnot (PGSIZE - 1))).
  rewrite !Z.land_lor_distr_l, !land_page by (lia || done).
  replace (perm / 4096) with 0 by zlia. change (4096 * (PTE_P / 4096)) with 0. rewrite !Z.lor_0_r. zlia.
Qed.
Lemma has_P_mkpte : has mkpte PTE_P = true.
Proof.
  unfold has, mkpte. rewrite Z.land_lor_distr_l. apply negb_true_iff, Z.eqb_neq. intros H.
  apply Z.lor_eq_0_iff in H as [_ H]. done.
Qed.
Lemma has_mkpte b : 0 ≤ b < 4096 → Z.land PTE_P b = 0 → has mkpte b = has perm b.
Proof using Hal.
  intros Hb HP. unfold has, mkpte. rewrite !Z.land_lor_distr_l, HP, Z.lor_0_r.
  by rewrite land_aligned.
Qed.
Lemma mkpte_range : 0 ≤ mkpte < 2 ^ 32.
Proof using Hpa Hperm.
  assert (mkpte = mkpte mod 2 ^ 32) as ->; [|apply Z.mod_pos_bound; lia].
  rewrite <- Z.land_ones by lia. unfold mkpte. rewrite !Z.land_lor_distr_l, !Z.land_ones by lia.
  rewrite (Z.mod_small pa), (Z.mod_small perm) by lia. reflexivity.
Qed.
End entry.

(** ** Words in memory *)
Lemma word_addr base i : base mod 4096 = 0 → 0 ≤ i < 1024 →
  page_base (base + 4 * i) = base ∧ Z.to_nat ((base + 4 * i) mod PGSIZE) = Z.to_nat (4 * i).
Proof. unfold page_base. change PGSIZE with 4096. intros. split; zlia. Qed.

(** The word with index [i] of page [p]. *)
Definition entry (m : gmap Z (list Z)) (p i : Z) : Z :=
  match m !! p with Some pg => u32_at pg (Z.to_nat (4 * i)) | None => 0 end.
Definition set_entry (m : gmap Z (list Z)) (p i v : Z) : gmap Z (list Z) :=
  match m !! p with Some pg => <[p := put_u32 pg (Z.to_nat (4 * i)) v]> m | None => m end.

Lemma wp_ldw s base i Q :
  base mod 4096 = 0 → 0 ≤ i < 1024 → is_Some (km_pages s !! base) →
  Q (entry (km_pages s) base i) s → wp (ldw (base + 4 * i)) Q s.
Proof.
  intros Hal Hi [pg Hpg] HQ. destruct (word_addr base i Hal Hi) as [Hb Ho]. unfold entry in HQ. rewrite Hpg in HQ.
  unfold wp, ldw, on_page, gets. rewrite Hb, Ho, Hpg, insert_id by done. by destruct s.
Qed.
Lemma wp_stw s base i v Q :
  base mod 4096 = 0 → 0 ≤ i < 1024 → is_Some (km_pages s !! base) →
  Q tt (set_pages (set_entry (km_pages s) base i v) s) → wp (stw (base + 4 * i) v) Q s.
Proof.
  intros Hal Hi [pg Hpg] HQ. destruct (word_addr base i Hal Hi) as [Hb Ho]. unfold set_entry in HQ. rewrite Hpg in HQ.
  unfold wp, stw, on_page, modify. by rewrite Hb, Ho, Hpg.
Qed.

Lemma set_entry_lookup_ne m p i v q : q ≠ p → set_entry m p i v !! q = m !! q.
Proof. intros H. unfold set_entry. destruct (m !! p); [|done]. by rewrite lookup_insert_ne. Qed.
Lemma set_entry_is_Some m p i v q : is_Some (set_entry m p i v !! q) ↔ is_Some (m !! q).
Proof.
  unfold set_entry. destruct (m !! p) as [pg|] eqn:E; [|done]. destruct (decide (q = p)) as [->|].
  - rewrite lookup_insert_eq, E. split; eauto.
  - by rewrite lookup_insert_ne.
Qed.
Lemma entry_set m p i v q j :
  map_Forall (λ _ pg, page_wf pg) m → is_Some (m !! p) → 0 ≤ i < 1024 → 0 ≤ j < 1024 → 0 ≤ v < 2 ^ 32 →
  entry (set_entry m p i v) q j = if decide (q = p ∧ j = i) then v else entry m q j.
Proof.
  intros Hw [pg Hpg] Hi Hj Hv. destruct (Hw _ _ Hpg) as [Hl _]. unfold entry, set_entry. rewrite Hpg.
  destruct (decide (q = p)) as [->|Hne]; [rewrite lookup_insert_eq, Hpg|by rewrite lookup_insert_ne, decide_False by naive_solver].
  destruct (decide (j = i)) as [->|Hne].
  - rewrite decide_True by done. apply u32_at_put_same; [lia|done].
  - rewrite decide_False by naive_solver. apply u32_at_put_ne; lia.
Qed.
Lemma set_entry_wf m p i v :
  map_Forall (λ _ pg, page_wf pg) m → 0 ≤ i < 1024 → map_Forall (λ _ pg, page_wf pg) (set_entry m p i v).
Proof.
  intros Hw Hi. unfold set_entry. destruct (m !! p) as [pg|] eqn:E; [|done].
  apply map_Forall_insert_2; [|done]. destruct (Hw _ _ E) as [Hl Hb]. split.
  - rewrite length_put_u32; lia.
  - apply Forall_splice; [done|apply le_enc_bytes].
Qed.

Definition zero_page : list Z := replicate 4096 0.
Lemma zero_page_wf : page_wf zero_page.
Proof. split; [apply length_replicate|]. by apply Forall_replicate. Qed.
Lemma zero_entry m p i : m !! p = Some zero_page → 0 ≤ i < 1024 → entry m p i = 0.
Proof.
  intros Hp Hi. unfold entry. rewrite Hp. unfold u32_at, slice, zero_page. rewrite drop_replicate, take_replicate.
  by replace (Nat.min 4 (4096 - Z.to_nat (4 * i))) with 4%nat by lia.
Qed.

Lemma wp_clear s v Q :
  map_Forall (λ _ pg, page_wf pg) (km_pages s) → is_Some (km_pages s !! v) →
  Q tt (set_pages (<[v := zero_page]> (km_pages s)) s) → wp (on_page v (memset 0 0 PGSIZE)) Q s.
Proof.
  intros Hw [pg Hpg] HQ. destruct (Hw _ _ Hpg) as [Hl _].
  pose proof (memset_run pg 0 4096 0) as Hms. change (Z.of_nat 0) with 0 in Hms.
  change (Z.of_nat 4096) with PGSIZE in Hms. rewrite splice_full in Hms by (rewrite length_replicate; lia).
  unfold wp, on_page. rewrite Hpg, Hms by lia. exact HQ.
Qed.

Section space.
Context (kend : Z).
Implicit Types m : gmap Z (list Z).

(** ** Address spaces *)
(** The page table that covers [va], and the entry of [va] (0 when there is no
    table). *)
Definition ptab m (pgdir va : Z) : option Z :=
  let e := entry m pgdir (PDX va) in if has e PTE_P then Some (p2v (PTE_ADDR e)) else None.
Definition pte_of m (pgdir va : Z) : Z :=
  match ptab m pgdir va with Some t => entry m t (PTX va) | None => 0 end.

Definition pt_page m (pgdir p : Z) : Prop := p = pgdir ∨ ∃ va, ptab m pgdir va = Some p.
Definition owned m (l : list Z) (pgdir p : Z) : Prop := p ∈ l ∨ pt_page m pgdir p.

Record space (s : kmem) (l : list Z) (pgdir : Z) : Prop := mkSpace {
  sp_mem : kmem_ok kend s l;
  sp_pages : ∀ p, pt_page (km_pages s) pgdir p →
    page_ok kend p ∧ is_Some (km_pages s !! p) ∧ (p ∉ l);
  sp_dir : ∀ va, ptab (km_pages s) pgdir va ≠ Some pgdir;
  sp_inj : ∀ va va' t, ptab (km_pages s) pgdir va = Some t → ptab (km_pages s) pgdir va' = Some t →
    PDX va = PDX va' }.

Lemma ptab_PDX m pgdir va va' : PDX va = PDX va' → ptab m pgdir va = ptab m pgdir va'.
Proof. unfold ptab. by intros ->. Qed.
Lemma ptab_ext m m' pgdir va : m' !! pgdir = m !! pgdir → ptab m' pgdir va = ptab m pgdir va.
Proof. unfold ptab, entry. by intros ->. Qed.
Lemma pte_of_ext m m' pgdir va :
  m' !! pgdir = m !! pgdir → (∀ t, ptab m pgdir va = Some t → m' !! t = m !! t) →
  pte_of m' pgdir va = pte_of m pgdir va.
Proof.
  intros Hd Ht. unfold pte_of. rewrite (ptab_ext m m') by done. destruct (ptab m pgdir va) as [t|]; [|done].
  unfold entry. by rewrite (Ht t).
Qed.
Lemma pt_page_ext m m' pgdir p : m' !! pgdir = m !! pgdir → pt_page m' pgdir p ↔ pt_page m pgdir p.
Proof. intros H. unfold pt_page. by setoid_rewrite (ptab_ext m m' pgdir _ H). Qed.

Lemma space_dir s l pgdir : space s l pgdir → page_ok kend pgdir ∧ is_Some (km_pages s !! pgdir) ∧ (pgdir ∉ l).
Proof. intros H. apply (sp_pages _ _ _ H). by left. Qed.
Lemma space_tab s l pgdir va t :
  space s l pgdir → ptab (km_pages s) pgdir va = Some t →
  page_ok kend t ∧ is_Some (km_pages s !! t) ∧ (t ∉ l) ∧ t ≠ pgdir.
Proof.
  intros H Ht. destruct (sp_pages _ _ _ H t) as (? & ? & ?); [right; eauto|].
  split_and!; [done..|]. intros ->. by apply (sp_dir _ _ _ H va).
Qed.

(** The free pages may change as long as the address space is not among them. *)
Lemma space_free s s' l l' pgdir :
  space s l pgdir → kmem_ok kend s' l' → (∀ p, p ∈ l' → p ∈ l) → km_pages s' = km_pages s → space s' l' pgdir.
Proof.
  intros [Hm Hp Hd Hi] Hm' Hl Hpg. split; rewrite ?Hpg; try done.
  intros p Hpt. destruct (Hp p Hpt) as (? & ? & ?). split_and!; auto.
Qed.

(** A write into a page that is not free keeps the allocator's invariant. *)
Lemma kmem_ok_insert s l p pg :
  kmem_ok kend s l → p ∉ l → page_wf pg → kmem_ok kend (set_pages (<[p := pg]> (km_pages s)) s) l.
Proof.
  intros [Hw Hl Hnd] Hp Hpg. split; cbn; [by apply map_Forall_insert_2|by apply flist_insert|done].
Qed.
Lemma kmem_ok_set_entry s l p i v :
  kmem_ok kend s l → p ∉ l → 0 ≤ i < 1024 → kmem_ok kend (set_pages (set_entry (km_pages s) p i v) s) l.
Proof.
  intros Hk Hp Hi. pose proof (set_entry_wf (km_pages s) p i v (ko_pages _ _ _ Hk) Hi) as Hw.
  unfold set_entry in *. destruct (km_pages s !! p) as [pg|] eqn:E; [|by destruct s].
  apply kmem_ok_insert; [done|done|]. apply (Hw p). apply lookup_insert_eq.
Qed.

Lemma wp_walk s l pgdir va Q :
  space s l pgdir →
  Q (match ptab (km_pages s) pgdir va with Some t => t + 4 * PTX va | None => 0 end) s →
  wp (walkpgdir pgdir va false) Q s.
Proof.
  intros Hs HQ. destruct (space_dir _ _ _ Hs) as ([Hal _ _] & Hd & _). unfold walkpgdir. cbv zeta.
  wstep1. apply wp_ldw; [done|apply PDX_range|done|]. unfold ptab in HQ. destruct (has _ _); by wstep.
Qed.

(** Storing an entry in the table of [va]. *)
Lemma space_set s l pgdir va t v :
  space s l pgdir → ptab (km_pages s) pgdir va = Some t → 0 ≤ v < 2 ^ 32 →
  let s' := set_pages (set_entry (km_pages s) t (PTX va) v) s in
  space s' l pgdir ∧
  ∀ va', pte_of (km_pages s') pgdir va' =
    if decide (PDX va' = PDX va ∧ PTX va' = PTX va) then v else pte_of (km_pages s) pgdir va'.
Proof.
  intros Hs Ht Hv. cbv zeta. destruct (space_tab _ _ _ _ _ Hs Ht) as (Hok & Hsome & Hnl & Hne).
  set (m' := set_entry _ _ _ _). cbn [set_pages km_pages].
  assert (m' !! pgdir = km_pages s !! pgdir) as Hdir by (unfold m'; by rewrite set_entry_lookup_ne).
  split.
  - destruct Hs as [Hm Hp Hd Hi]. split; cbn [set_pages km_pages].
    + by apply kmem_ok_set_entry; [..|apply PTX_range].
    + intros p Hpt. apply (pt_page_ext (km_pages s)) in Hpt; [|done]. destruct (Hp p Hpt) as (? & ? & ?).
      split_and!; [done|by apply set_entry_is_Some|done].
    + intros va'. rewrite (ptab_ext (km_pages s) m') by done. apply Hd.
    + intros va' va'' t'. rewrite (ptab_ext (km_pages s) m' pgdir va'), (ptab_ext (km_pages s) m' pgdir va'') by done.
      apply Hi.
  - intros va'. unfold pte_of. rewrite (ptab_ext (km_pages s) m') by done.
    destruct (ptab (km_pages s) pgdir va') as [t'|] eqn:Et'.
    + unfold m'. rewrite entry_set; [|apply (ko_pages _ _ _ (sp_mem _ _ _ Hs))|done|apply PTX_range..|done].
      destruct (decide (t' = t)) as [->|Hnt].
      * pose proof (sp_inj _ _ _ Hs _ _ _ Et' Ht). destruct (decide (PTX va' = PTX va)).
        -- by rewrite !decide_True.
        -- by rewrite !decide_False by naive_solver.
      * rewrite decide_False by naive_solver. rewrite decide_False; [done|].
        intros [E _]. apply Hnt. rewrite (ptab_PDX _ _ _ _ E) in Et'. congruence.
    + rewrite decide_False; [done|]. intros [E _]. rewrite (ptab_PDX _ _ _ _ E) in Et'. congruence.
Qed.

(** The number of page tables. *)
Definition ntab m (pgdir : Z) : nat := length (filter (λ i, has (entry m pgdir i) PTE_P = true) (seqZ 0 1024)).
Lemma ntab_ext m m' pgdir : m' !! pgdir = m !! pgdir → ntab m' pgdir = ntab m pgdir.
Proof. unfold ntab, entry. by intros ->. Qed.
Lemma ntab_le m pgdir : (ntab m pgdir ≤ 1024)%nat.
Proof. unfold ntab. etransitivity; [apply length_filter|]. by rewrite length_seqZ. Qed.
Lemma filter_same (f g : Z → bool) (l : list Z) :
  (∀ j, j ∈ l → g j = f j) → filter (λ j, g j = true) l = filter (λ j, f j = true) l.
Proof.
  induction l as [|x l IH]; intros H; [done|]. rewrite !filter_cons, IH, H; [done|by left|].
  intros j Hj. apply H. by right.
Qed.
Lemma filter_one_more (f g : Z → bool) (l : list Z) i :
  NoDup l → i ∈ l → f i = false → g i = true → (∀ j, j ∈ l → j ≠ i → g j = f j) →
  length (filter (λ j, g j = true) l) = S (length (filter (λ j, f j = true) l)).
Proof.
  intros Hnd Hin Hf Hg Hoth. induction l as [|x l IH]; [by apply elem_of_nil in Hin|].
  apply NoDup_cons in Hnd as [Hx Hnd]. destruct (decide (x = i)) as [->|Hne].
  - rewrite filter_cons_True, filter_cons_False by congruence. cbn [length]. rewrite (filter_same f g); [done|].
    intros j Hj. apply Hoth; [by right|]. by intros ->.
  - apply elem_of_cons in Hin as [->|Hin]; [done|].
    rewrite !filter_cons, Hoth by (done || by left).
    assert (length (filter (λ j, g j = true) l) = S (length (filter (λ j, f j = true) l))) as E.
    { apply IH; [done|done|]. intros j Hj. apply Hoth. by right. }
    destruct (decide (f x = true)); cbn [length]; lia.
Qed.

(** What an operation on an address space leaves alone, and where its new page
    tables come from. *)
Record frame (s : kmem) (l : list Z) (s' : kmem) (l' : list Z) (pgdir : Z) : Prop := mkFrame {
  fr_count : (length l' + ntab (km_pages s') pgdir = length l + ntab (km_pages s) pgdir)%nat;
  fr_free : ∀ p, p ∈ l' → p ∈ l;
  fr_same : ∀ p, ¬ owned (km_pages s) l pgdir p →
    km_pages s' !! p = km_pages s !! p ∧ ¬ owned (km_pages s') l' pgdir p }.
Lemma frame_refl s l pgdir : frame s l s l pgdir.
Proof. by split. Qed.
Lemma frame_trans s l s1 l1 s2 l2 pgdir :
  frame s l s1 l1 pgdir → frame s1 l1 s2 l2 pgdir → frame s l s2 l2 pgdir.
Proof.
  intros [Hc1 Hf1 Hs1] [Hc2 Hf2 Hs2]. split; [congruence|auto|]. intros p Hp. destruct (Hs1 p Hp) as [E1 Hp1].
  destruct (Hs2 p Hp1) as [E2 Hp2]. split; [congruence|done].
Qed.

Lemma page_ok_v2p v : page_ok kend v → 0 ≤ v2p v < 2 ^ 32 ∧ v2p v mod 4096 = 0 ∧ p2v (v2p v) = v ∧ v2p v ≠ 2 ^ 32.
Proof.
  intros Hok. pose proof (page_ok_u32 _ _ Hok) as Hu. destruct Hok as [Hal _ Hr].
  rewrite p2v_v2p by done. unfold v2p, KERNBASE, PHYSTOP in *. rewrite u32_small by lia.
  split_and!; [lia..| |done|lia]. rewrite Zminus_mod, Hal. done.
Qed.
Lemma pde_mkpte v :
  Z.lor (Z.lor (Z.lor (v2p v) PTE_P) PTE_W) PTE_U = mkpte (v2p v) (Z.lor PTE_W PTE_U).
Proof. unfold mkpte. rewrite <- !Z.lor_assoc. f_equal. Qed.

(** A new, empty page table for [va]. *)
Lemma space_new_table s l pgdir va v s1 :
  space s (v :: l) pgdir → ptab (km_pages s) pgdir va = None → kmem_ok kend s1 l → km_pages s1 = km_pages s →
  let m2 := set_entry (<[v := zero_page]> (km_pages s)) pgdir (PDX va) (mkpte (v2p v) (Z.lor PTE_W PTE_U)) in
  let s2 := set_pages m2 s1 in
  space s2 l pgdir ∧ ptab m2 pgdir va = Some v ∧ (∀ va', pte_of m2 pgdir va' = pte_of (km_pages s) pgdir va') ∧
  frame s (v :: l) s2 l pgdir.
Proof.
  intros Hs Hnone Hk Hpg. cbv zeta. set (e := mkpte _ _). set (m1 := <[v := zero_page]> (km_pages s)).
  set (m2 := set_entry m1 pgdir (PDX va) e).
  pose proof Hs as [Hm Hp Hd Hi]. pose proof Hm as [Hw Hl Hnd]. apply NoDup_cons in Hnd as [Hvl Hnd].
  destruct (flist_ok _ _ _ _ v Hl) as [Hvok Hvs]; [by left|].
  destruct (page_ok_v2p v Hvok) as (Hr & Hal & Hback & _).
  destruct (space_dir _ _ _ Hs) as (Hdok & Hds & Hdl). apply not_elem_of_cons in Hdl as [Hdv Hdl].
  assert (map_Forall (λ _ pg, page_wf pg) m1) as Hw1 by (apply map_Forall_insert_2; [apply zero_page_wf|done]).
  assert (is_Some (m1 !! pgdir)) as Hds1 by (unfold m1; by rewrite lookup_insert_ne by congruence).
  assert (∀ va', ptab m2 pgdir va' = if decide (PDX va' = PDX va) then Some v else ptab (km_pages s) pgdir va') as Htab.
  { intros va'. unfold ptab at 1, m2. rewrite entry_set by (done || apply PDX_range || by apply mkpte_range).
    destruct (decide (PDX va' = PDX va)).
    - rewrite decide_True by done. unfold e. rewrite has_P_mkpte, PTE_ADDR_mkpte by done. by rewrite Hback.
    - rewrite decide_False by naive_solver. unfold ptab, entry, m1. by rewrite lookup_insert_ne by congruence. }
  assert (∀ q, q ≠ pgdir → q ≠ v → m2 !! q = km_pages s !! q) as Hoth.
  { intros q Hq1 Hq2. unfold m2. rewrite set_entry_lookup_ne by done. unfold m1. by rewrite lookup_insert_ne by congruence. }
  assert (m2 !! v = Some zero_page) as Hz.
  { unfold m2. rewrite set_entry_lookup_ne by congruence. apply lookup_insert_eq. }
  assert (∀ va' t, ptab (km_pages s) pgdir va' = Some t → t ≠ v) as Hold.
  { intros va' t Ht ->. destruct (space_tab _ _ _ _ _ Hs Ht) as (_ & _ & H & _). apply H. by left. }
  assert (∀ p, pt_page m2 pgdir p → p = v ∨ pt_page (km_pages s) pgdir p) as Hpt.
  { intros p [-> |[va' Hva]]; [right; by left|]. rewrite Htab in Hva.
    destruct (decide (PDX va' = PDX va)); [left; congruence|right; right; eauto]. }
  split_and!.
  - split; cbn [set_pages km_pages].
    + unfold m2. pose proof (kmem_ok_insert s1 l v zero_page Hk Hvl zero_page_wf) as Hk1. rewrite Hpg in Hk1.
      exact (kmem_ok_set_entry _ l pgdir (PDX va) e Hk1 Hdl (PDX_range va)).
    + intros p [-> |Hpt'] % Hpt.
      * split_and!; [done|rewrite Hz; eauto|done].
      * destruct (Hp p Hpt') as (? & Hsome & Hnl). apply not_elem_of_cons in Hnl as [? ?]. split_and!; [done| |done].
        unfold m2. apply set_entry_is_Some. unfold m1. by rewrite lookup_insert_ne by congruence.
    + intros va'. rewrite Htab. destruct (decide _); [congruence|apply Hd].
    + intros va1 va2 t. rewrite !Htab. destruct (decide (PDX va1 = PDX va)), (decide (PDX va2 = PDX va)); try congruence.
      * intros [= <-] H2. by apply Hold in H2.
      * intros H1 [= <-]. by apply Hold in H1.
      * apply Hi.
  - rewrite Htab. by rewrite decide_True.
  - intros va'. unfold pte_of at 1. rewrite Htab. destruct (decide (PDX va' = PDX va)) as [E|].
    + unfold pte_of. rewrite (ptab_PDX _ _ _ _ E), Hnone. apply zero_entry; [done|apply PTX_range].
    + unfold pte_of. destruct (ptab (km_pages s) pgdir va') as [t|] eqn:Et; [|done].
      unfold entry. rewrite Hoth; [done| |by eapply Hold].
      intros ->. by apply (Hd va').
  - split; [|intros p; by right|].
    { cbn [set_pages km_pages length]. enough (ntab m2 pgdir = S (ntab (km_pages s) pgdir)) by lia.
      apply filter_one_more with (i := PDX va); [apply NoDup_seqZ|apply elem_of_seqZ; pose proof (PDX_range va); lia| | |].
      - unfold ptab in Hnone. by destruct (has _ PTE_P).
      - pose proof (Htab va) as E. rewrite decide_True in E by done. unfold ptab in E. by destruct (has _ PTE_P).
      - intros j Hj%elem_of_seqZ Hne. unfold m2. rewrite entry_set; [|done|done|apply PDX_range|lia|by apply mkpte_range].
        rewrite decide_False by naive_solver. unfold entry, m1. by rewrite lookup_insert_ne by congruence. }
    intros p Hno. cbn [set_pages km_pages]. split.
    + apply Hoth; intros ->; apply Hno; [right; by left|left; by left].
    + intros [Hin|Hpt'%Hpt]; apply Hno; [left; by right|]. destruct Hpt' as [-> |?]; [left; by left|by right].
Qed.

Lemma wp_walk_alloc s l pgdir va Q :
  space s l pgdir →
  (∀ s' l' t, space s' l' pgdir → ptab (km_pages s') pgdir va = Some t →
     (∀ va', pte_of (km_pages s') pgdir va' = pte_of (km_pages s) pgdir va') → frame s l s' l' pgdir →
     Q (t + 4 * PTX va) s') →
  (l = [] → Q 0 s) →
  wp (walkpgdir pgdir va true) Q s.
Proof.
  intros Hs HQ H0. destruct (space_dir _ _ _ Hs) as ([Hal _ _] & Hd & Hdl). unfold walkpgdir. cbv zeta.
  wstep1. apply wp_ldw; [done|apply PDX_range|done|]. destruct (has _ _) eqn:E.
  { wstep. apply (HQ s l); [done| |done|apply frame_refl]. unfold ptab. by rewrite E. }
  cbn [negb]. wstep1. destruct l as [|v l].
  { unfold wp. rewrite (kalloc_empty kend) by apply Hs. cbn. apply H0. done. }
  apply (wp_kalloc kend s v l); [apply Hs|]. intros s1 Hk1 Hpg1.
  destruct (flist_ok _ _ _ _ v (ko_list _ _ _ (sp_mem _ _ _ Hs))) as [Hvok Hvs]; [by left|].
  pose proof (page_ok_nonzero _ _ Hvok). rewrite (proj2 (Z.eqb_neq v 0)) by done.
  assert (ptab (km_pages s) pgdir va = None) as Hnone by (unfold ptab; by rewrite E).
  destruct (space_new_table s l pgdir va v s1 Hs Hnone Hk1 Hpg1) as (Hs2 & Ht2 & Hpte2 & Hfr2).
  wstep1. apply wp_clear; [apply Hk1|by rewrite Hpg1|]. wstep1. apply wp_stw; [done|apply PDX_range| |].
  { cbn. rewrite Hpg1, lookup_insert_ne; [done|]. intros ->. apply Hdl. by left. }
  wstep. cbn [set_pages km_pages]. rewrite Hpg1, pde_mkpte. by eapply HQ.
Qed.

(** ** mappages *)
Definition in_page (a va : Z) : Prop := va / 4096 = a / 4096.

(** One round of mappages. *)
Lemma wp_map_one {A} s l pgdir va v (k : bool → M kmem A) Q :
  space s l pgdir → has (pte_of (km_pages s) pgdir va) PTE_P = false → 0 ≤ v < 2 ^ 32 →
  (∀ s' l', space s' l' pgdir → frame s l s' l' pgdir →
     (∀ va', pte_of (km_pages s') pgdir va' =
       if decide (PDX va' = PDX va ∧ PTX va' = PTX va) then v else pte_of (km_pages s) pgdir va') →
     wp (k true) Q s') →
  (l = [] → wp (k false) Q s) →
  wp (pte <- walkpgdir pgdir va true ;;
      if pte =? 0 then k false
      else e <- ldw pte ;; if has e PTE_P then panic "remap" else stw pte v ;;; k true) Q s.
Proof.
  intros Hs Hno Hv HQ H0. wstep1. apply (wp_walk_alloc s l); [done| |intros Hl; by apply H0].
  intros s1 l1 t Hs1 Ht1 Hpte1 Hfr1. destruct (space_tab _ _ _ _ _ Hs1 Ht1) as (Hok & Hsome & Hnl & Hne).
  destruct Hok as [Hal Hke Hrange]. pose proof (PTX_range va).
  rewrite (proj2 (Z.eqb_neq _ 0)) by (unfold KERNBASE in Hrange; lia).
  wstep1. apply wp_ldw; [done..|].
  assert (entry (km_pages s1) t (PTX va) = pte_of (km_pages s1) pgdir va) as -> by (unfold pte_of; by rewrite Ht1).
  rewrite Hpte1, Hno. wstep1. apply wp_stw; [done..|].
  destruct (space_set s1 l1 pgdir va t v Hs1 Ht1 Hv) as [Hs2 Hpte2].
  apply (HQ _ l1); [done| |].
  - assert (set_entry (km_pages s1) t (PTX va) v !! pgdir = km_pages s1 !! pgdir) as Hdir
      by (by apply set_entry_lookup_ne).
    eapply frame_trans; [exact Hfr1|]. split; [|done|]; cbn [set_pages km_pages]; [f_equal; by apply ntab_ext|].
    intros p Hp. split.
    + apply set_entry_lookup_ne. intros ->. apply Hp. right. right. eauto.
    + intros [Hin|Hpt]; apply Hp; [by left|right]. by apply (pt_page_ext (km_pages s1)) in Hpt.
  - intros va'. rewrite Hpte2. destruct (decide _); [done|]. apply Hpte1.
Qed.

(** The entry mappages gives to [va] in the range from [a]. *)
Definition mapped (a pa perm va : Z) : Z := mkpte (pa + 4096 * ((va - a) / 4096)) perm.

Lemma wp_mappages_loop n s l pgdir a pa perm :
  space s l pgdir → a mod 4096 = 0 → pa mod 4096 = 0 → 0 ≤ perm < 4096 →
  0 ≤ a → a + 4096 * Z.of_nat n ≤ 2 ^ 32 → 0 ≤ pa → pa + 4096 * Z.of_nat n ≤ 2 ^ 32 →
  (∀ va, a ≤ va < a + 4096 * Z.of_nat n → has (pte_of (km_pages s) pgdir va) PTE_P = false) →
  wp (mappages_loop n pgdir a pa perm) (λ ok s', ∃ l', space s' l' pgdir ∧ frame s l s' l' pgdir ∧
    (ok = false → l' = []) ∧
    ∀ va, 0 ≤ va < 2 ^ 32 →
      if decide (a ≤ va < a + 4096 * Z.of_nat n) then
        (ok = true → pte_of (km_pages s') pgdir va = mapped a pa perm va) ∧
        (ok = false → n = 1%nat → pte_of (km_pages s') pgdir va = pte_of (km_pages s) pgdir va)
      else pte_of (km_pages s') pgdir va = pte_of (km_pages s) pgdir va) s.
Proof.
  intros Hs. revert s l a pa Hs. induction n as [|n IH]; intros s l a pa Hs Ha Hpa Hperm Ha0 Ha1 Hp0 Hp1 Hno; cbn [mappages_loop].
  { wstep. exists l. split_and!; [done|apply frame_refl|done|]. intros va Hva. rewrite decide_False by lia. done. }
  rewrite Nat2Z.inj_succ in *.
  assert (∀ va, 0 ≤ va < 2 ^ 32 → (PDX va = PDX a ∧ PTX va = PTX a) ↔ a ≤ va < a + 4096) as Hpage.
  { intros va Hva. split.
    - intros [E1 E2]. pose proof (same_page va a Hva ltac:(lia) E1 E2). zlia.
    - intros H. apply page_same. zlia. }
  apply (wp_map_one s l pgdir a (mkpte pa perm) (λ b : bool, if b then _ else ret false)); [done|apply Hno; lia|apply mkpte_range; lia|..].
  - intros s1 l1 Hs1 Hfr1 Hpte1.
    assert (∀ va, 0 ≤ va < 2 ^ 32 → pte_of (km_pages s1) pgdir va =
      if decide (a ≤ va < a + 4096) then mkpte pa perm else pte_of (km_pages s) pgdir va) as Hpte1'.
    { intros va Hva. rewrite Hpte1. specialize (Hpage va Hva).
      destruct (decide (a ≤ va < a + 4096)), (decide (PDX va = PDX a ∧ PTX va = PTX a)); tauto || done. }
    change PGSIZE with 4096. destruct (decide (n = 0%nat)) as [->|Hn].
    { cbn [mappages_loop]. wstep. exists l1. split_and!; [done..|]. intros va Hva. rewrite Hpte1' by done.
      change (Z.succ (Z.of_nat 0)) with 1. rewrite Z.mul_1_r. destruct (decide _); [|done]. split; [|done]. intros _.
      unfold mapped. replace ((va - a) / 4096) with 0 by zlia. by rewrite Z.mul_0_r, Z.add_0_r. }
    assert (u32 (a + 4096) = a + 4096) as Eu by (apply u32_small; lia).
    assert (u32 (pa + 4096) = pa + 4096) as Eup by (apply u32_small; lia). rewrite Eu, Eup.
    eapply wp_mono; [apply (IH s1 l1 (a + 4096) (pa + 4096)); [done|zlia|zlia|done|lia..|]|].
    { intros va Hva. rewrite Hpte1', decide_False by lia. apply Hno. lia. }
    cbv beta. intros ok s2 (l2 & Hs2 & Hfr2 & Hno2 & Hpte2). exists l2. split_and!; [done|by eapply frame_trans|done|].
    intros va Hva. specialize (Hpte2 va Hva). rewrite Hpte1' in Hpte2 by done.
    destruct (decide (a ≤ va < a + 4096)).
    + rewrite decide_False in Hpte2 by lia. rewrite decide_True by lia. split; [|intros _ [= ->]; done]. intros _.
      rewrite Hpte2. unfold mapped. replace ((va - a) / 4096) with 0 by zlia. by rewrite Z.mul_0_r, Z.add_0_r.
    + destruct (decide (a + 4096 ≤ va < a + 4096 + 4096 * Z.of_nat n)).
      * rewrite decide_True by lia. split; [|intros _ [= ->]; done]. intros ->.
        rewrite (proj1 Hpte2 eq_refl). unfold mapped. f_equal. zlia.
      * rewrite decide_False by lia. done.
  - intros Hl. wstep. exists l. split_and!; [done|apply frame_refl|done|]. intros va Hva. by destruct (decide _).
Qed.

(** mappages of whole pages. *)
Lemma mappages_pages pgdir va size pa perm n :
  0 ≤ va → va mod 4096 = 0 → Z.of_nat n = size / 4096 → size mod 4096 = 0 → 0 < size → va + size ≤ 2 ^ 32 →
  mappages pgdir va size pa perm = mappages_loop n pgdir va pa perm.
Proof.
  intros Hva Hal Hn Hsz Hpos Hmax. unfold mappages. cbv zeta. rewrite (u32_small (va + size - 1)) by lia.
  rewrite !PGROUNDDOWN_spec by lia. change PGSIZE with 4096.
  replace (4096 * (va / 4096)) with va by zlia.
  replace (4096 * ((va + size - 1) / 4096)) with (va + size - 4096) by zlia.
  assert (4096 ≤ size) by zlia. rewrite u32_small by lia.
  f_equal. zlia.
Qed.
End space.
