(* ===== verification/VmUser.v ===== *)
(** * User memory: copyout, copyuvm and freevm

    On top of VmSpec.v: the frames behind the user pages of an address space,
    and the bytes a process sees at its addresses. *)
From stdpp Require Import base list gmap numbers option strings sets.
From Stdlib Require Import ZArith Lia.
From S2P Require Import Prelude Kstring Layout Kalloc Vm VmSpec.
Open Scope Z_scope.

Section user.
Context (kend : Z) (Hkend : KERNBASE < kend).
Implicit Types m : gmap Z (list Z).

(** The frame behind [va]. *)
Definition uframe m (pgdir va : Z) : option Z :=
  let e := pte_of m pgdir va in if has e PTE_P then Some (p2v (PTE_ADDR e)) else None.
(** The byte at [va], as the kernel reads it, and as the user can. *)
Definition kbyte m (pgdir va : Z) : option Z :=
  f ← uframe m pgdir va; pg ← m !! f; pg !! Z.to_nat (va mod 4096).
Definition ubyte m (pgdir va : Z) : option Z :=
  if has (pte_of m pgdir va) PTE_U then kbyte m pgdir va else None.

(** The user frames are pages in use, apart from the page tables, one frame for
    each page. *)
Record user (s : kmem) (l : list Z) (pgdir : Z) : Prop := mkUser {
  us_space : space kend s l pgdir;
  us_frame : ∀ va f, 0 ≤ va < KERNBASE → uframe (km_pages s) pgdir va = Some f →
    page_ok kend f ∧ is_Some (km_pages s !! f) ∧ ¬ owned (km_pages s) l pgdir f;
  us_inj : ∀ va va' f, 0 ≤ va < KERNBASE → 0 ≤ va' < KERNBASE → uframe (km_pages s) pgdir va = Some f →
    uframe (km_pages s) pgdir va' = Some f → va / 4096 = va' / 4096 }.

Lemma uframe_ext m m' pgdir va : pte_of m' pgdir va = pte_of m pgdir va → uframe m' pgdir va = uframe m pgdir va.
Proof. unfold uframe. by intros ->. Qed.
Lemma pte_of_page m pgdir va va' : va / 4096 = va' / 4096 → pte_of m pgdir va = pte_of m pgdir va'.
Proof. intros H. apply page_same in H as [E1 E2]. unfold pte_of. by rewrite (ptab_PDX _ _ _ _ E1), E2. Qed.
Lemma uframe_page m pgdir va va' : va / 4096 = va' / 4096 → uframe m pgdir va = uframe m pgdir va'.
Proof. intros H. unfold uframe. by rewrite (pte_of_page _ _ _ _ H). Qed.
Lemma has_ptab m pgdir va : has (pte_of m pgdir va) PTE_P = true → ∃ t, ptab m pgdir va = Some t.
Proof. unfold pte_of. destruct (ptab m pgdir va) as [t|]; [eauto|done]. Qed.

(** Writing a page that is not owned. *)
Lemma space_write s l pgdir f pg :
  space kend s l pgdir → ¬ owned (km_pages s) l pgdir f → page_wf pg →
  let s' := set_pages (<[f := pg]> (km_pages s)) s in
  space kend s' l pgdir ∧ ∀ va, pte_of (km_pages s') pgdir va = pte_of (km_pages s) pgdir va.
Proof.
  intros Hs Hf Hpg. cbv zeta. set (m' := <[f := pg]> (km_pages s)). cbn [set_pages km_pages].
  assert (∀ p, p ≠ f → m' !! p = km_pages s !! p) as Hoth by (intros p Hp; unfold m'; by rewrite lookup_insert_ne).
  assert (m' !! pgdir = km_pages s !! pgdir) as Hdir by (apply Hoth; intros ->; apply Hf; right; by left).
  split.
  - destruct Hs as [Hm Hp Hd Hi]. split; cbn [set_pages km_pages].
    + apply kmem_ok_insert; [done| |done]. intros Hin. apply Hf. by left.
    + intros p Hpt. apply (pt_page_ext (km_pages s) m') in Hpt; [|done]. destruct (Hp p Hpt) as (? & ? & ?).
      split_and!; [done| |done]. rewrite Hoth; [done|]. intros ->. apply Hf. by right.
    + intros va. rewrite (ptab_ext (km_pages s) m') by done. apply Hd.
    + intros va va' t. rewrite (ptab_ext (km_pages s) m' _ va), (ptab_ext (km_pages s) m' _ va') by done. apply Hi.
  - intros va. apply pte_of_ext; [done|]. intros t Ht. apply Hoth. intros ->. apply Hf. right. right. eauto.
Qed.

Lemma user_write s l pgdir va f pg :
  user s l pgdir → 0 ≤ va < KERNBASE → uframe (km_pages s) pgdir va = Some f → page_wf pg →
  let s' := set_pages (<[f := pg]> (km_pages s)) s in
  user s' l pgdir ∧ (∀ va', pte_of (km_pages s') pgdir va' = pte_of (km_pages s) pgdir va') ∧
  ∀ va', 0 ≤ va' < KERNBASE → kbyte (km_pages s') pgdir va' =
    if decide (va' / 4096 = va / 4096) then pg !! Z.to_nat (va' mod 4096) else kbyte (km_pages s) pgdir va'.
Proof.
  intros [Hs Hfr Hi] Hva Hf Hpg. cbv zeta. destruct (Hfr va f Hva Hf) as (Hok & Hsome & Hno).
  destruct (space_write s l pgdir f pg Hs Hno Hpg) as [Hs' Hpte]. cbn [set_pages km_pages] in *.
  set (m' := <[f := pg]> (km_pages s)) in *.
  assert (m' !! pgdir = km_pages s !! pgdir) as Hdir.
  { unfold m'. rewrite lookup_insert_ne; [done|]. intros ->. apply Hno. right. by left. }
  split_and!; [|done|].
  - split; [done| |]; cbn [set_pages km_pages].
    + intros va' f' Hva' Hf'. rewrite (uframe_ext (km_pages s) m') in Hf' by apply Hpte.
      destruct (Hfr va' f' Hva' Hf') as (Hok' & Hsome' & Hno'). split_and!; [done| |].
      * unfold m'. destruct (decide (f' = f)) as [->|]; [rewrite lookup_insert_eq; eauto|by rewrite lookup_insert_ne].
      * intros [Ho|Ho]; apply Hno'; [by left|right]. by apply (pt_page_ext (km_pages s) m') in Ho.
    + intros va1 va2 f'. rewrite (uframe_ext (km_pages s) m' _ va1), (uframe_ext (km_pages s) m' _ va2) by apply Hpte. apply Hi.
  - intros va' Hva'. unfold kbyte. rewrite (uframe_ext (km_pages s) m') by apply Hpte.
    destruct (decide (va' / 4096 = va / 4096)) as [E|Hne].
    + rewrite (uframe_page _ _ _ _ E), Hf. cbn. unfold m'. by rewrite lookup_insert_eq.
    + destruct (uframe (km_pages s) pgdir va') as [f'|] eqn:Ef; [|done]. cbn.
      unfold m'. rewrite lookup_insert_ne; [done|]. intros ->. by apply Hne, (Hi va' va f').
Qed.

Lemma wp_put_bytes s f off l Q :
  f mod 4096 = 0 → 0 ≤ off → off + Z.of_nat (length l) ≤ 4096 → off < 4096 →
  (∀ pg, km_pages s !! f = Some pg → Q tt (set_pages (<[f := splice pg (Z.to_nat off) l]> (km_pages s)) s)) →
  is_Some (km_pages s !! f) → wp (put_bytes (f + off) l) Q s.
Proof.
  intros Hf H0 H1 H2 HQ [pg Hpg]. unfold put_bytes, wp, on_page, modify.
  assert (page_base (f + off) = f) as -> by (unfold page_base; change PGSIZE with 4096; zlia).
  replace ((f + off) mod PGSIZE) with off by (change PGSIZE with 4096; zlia). rewrite Hpg. by apply HQ.
Qed.

Lemma wp_uva2ka s l pgdir va Q :
  space kend s l pgdir → has (pte_of (km_pages s) pgdir va) PTE_P = true →
  Q (if has (pte_of (km_pages s) pgdir va) PTE_U then p2v (PTE_ADDR (pte_of (km_pages s) pgdir va)) else 0) s →
  wp (uva2ka pgdir va) Q s.
Proof.
  intros Hs HP HQ. destruct (has_ptab _ _ _ HP) as [t Ht]. unfold uva2ka. wstep1. apply (wp_walk kend s l); [done|].
  rewrite Ht. destruct (space_tab _ _ _ _ _ _ Hs Ht) as ([Hal _ _] & Hsome & _). wstep1.
  apply wp_ldw; [done|apply PTX_range|done|].
  assert (entry (km_pages s) t (PTX va) = pte_of (km_pages s) pgdir va) as -> by (unfold pte_of; by rewrite Ht).
  rewrite HP. cbn [negb]. destruct (has _ PTE_U); cbn [negb]; by wstep.
Qed.

(** ** copyout *)
(** Bytes [p] written to one page from [va] on. *)
Lemma wp_write_page s l pgdir va p Q :
  user s l pgdir → 0 ≤ va < KERNBASE → va mod 4096 + Z.of_nat (length p) ≤ 4096 → Forall is_byte p →
  has (pte_of (km_pages s) pgdir va) PTE_P = true →
  (∀ s', user s' l pgdir → (∀ va', pte_of (km_pages s') pgdir va' = pte_of (km_pages s) pgdir va') →
    (∀ va', 0 ≤ va' < KERNBASE → kbyte (km_pages s') pgdir va' =
       if decide (va ≤ va' < va + Z.of_nat (length p)) then p !! Z.to_nat (va' - va)
       else kbyte (km_pages s) pgdir va') → Q tt s') →
  wp (put_bytes (p2v (PTE_ADDR (pte_of (km_pages s) pgdir va)) + va mod 4096) p) Q s.
Proof.
  intros Hu Hva Hlen Hb HP HQ. set (f := p2v _).
  assert (uframe (km_pages s) pgdir va = Some f) as Hf by (unfold uframe; by rewrite HP).
  destruct (us_frame _ _ _ Hu va f Hva Hf) as ([Hal _ _] & Hsome & _).
  assert (0 ≤ va mod 4096 < 4096) as Hoff by (apply Z.mod_pos_bound; lia).
  apply wp_put_bytes; [done|lia..| |done]. intros pg Hpg.
  destruct (ko_pages _ _ _ (sp_mem _ _ _ _ (us_space _ _ _ Hu)) _ _ Hpg) as [Hl Hby].
  assert (page_wf (splice pg (Z.to_nat (va mod 4096)) p)) as Hwf.
  { split; [rewrite length_splice; lia|by apply Forall_splice]. }
  destruct (user_write s l pgdir va f _ Hu Hva Hf Hwf) as (Hu' & Hpte & Hby'). apply HQ; [done..|].
  intros va' Hva'. rewrite Hby' by done. destruct (decide (va' / 4096 = va / 4096)) as [E|Hne].
  - assert (va' mod 4096 - va mod 4096 = va' - va) as Ed by zlia.
    assert (0 ≤ va' mod 4096 < 4096) by (apply Z.mod_pos_bound; lia).
    destruct (decide (va ≤ va' < va + Z.of_nat (length p))).
    + rewrite lookup_splice_in by lia. f_equal. lia.
    + rewrite lookup_splice_out by lia. unfold kbyte.
      rewrite (uframe_page _ _ _ _ E), Hf. cbn. by rewrite Hpg.
  - rewrite decide_False; [done|]. intros H. apply Hne. zlia.
Qed.

Lemma wp_copyout_loop fuel s l pgdir va p :
  user s l pgdir → (length p ≤ fuel)%nat → 0 ≤ va → va + Z.of_nat (length p) ≤ KERNBASE → Forall is_byte p →
  (∀ va', va ≤ va' < va + Z.of_nat (length p) →
     has (pte_of (km_pages s) pgdir va') PTE_P = true ∧ has (pte_of (km_pages s) pgdir va') PTE_U = true) →
  wp (copyout_loop fuel pgdir va p) (λ r s', r = 0 ∧ user s' l pgdir ∧
    (∀ va', pte_of (km_pages s') pgdir va' = pte_of (km_pages s) pgdir va') ∧
    ∀ va', 0 ≤ va' < KERNBASE → kbyte (km_pages s') pgdir va' =
      if decide (va ≤ va' < va + Z.of_nat (length p)) then p !! Z.to_nat (va' - va)
      else kbyte (km_pages s) pgdir va') s.
Proof using Hkend.
  revert s va p. induction fuel as [|fuel IH]; intros s va p Hu Hfuel Hva Hmax Hb Hacc.
  { destruct p; [|cbn in Hfuel; lia]. cbn [copyout_loop]. wstep. split_and!; [done..|]. intros va' _.
    by rewrite decide_False by (cbn; lia). }
  destruct p as [|b p'] eqn:Ep.
  { cbn [copyout_loop]. wstep. split_and!; [done..|]. intros va' _. by rewrite decide_False by (cbn; lia). }
  rewrite <- Ep in *. assert (0 < Z.of_nat (length p)) as Hpos by (rewrite Ep; cbn; lia).
  rewrite Ep at 1. cbn [copyout_loop]. rewrite <- Ep. clear Ep b p'. cbv zeta. change PGSIZE with 4096.
  unfold KERNBASE in Hmax. rewrite PGROUNDDOWN_spec by lia. set (va0 := 4096 * (va / 4096)).
  assert (va - va0 = va mod 4096) as Eoff by (unfold va0; zlia). rewrite Eoff.
  destruct (Hacc va ltac:(lia)) as [HP HU].
  assert (pte_of (km_pages s) pgdir va0 = pte_of (km_pages s) pgdir va) as Epte
    by (apply pte_of_page; unfold va0; zlia).
  wstep1. apply (wp_uva2ka s l); [apply Hu|by rewrite Epte|]. rewrite Epte, HU.
  assert (uframe (km_pages s) pgdir va = Some (p2v (PTE_ADDR (pte_of (km_pages s) pgdir va)))) as Hf
    by (unfold uframe; by rewrite HP).
  destruct (us_frame _ _ _ Hu va _ ltac:(unfold KERNBASE; lia) Hf) as (Hok & _ & _).
  rewrite (proj2 (Z.eqb_neq _ 0)) by (by eapply page_ok_nonzero).
  assert (0 ≤ va mod 4096 < 4096) as Hoff by (apply Z.mod_pos_bound; lia).
  set (n := Z.min (4096 - va mod 4096) (Z.of_nat (length p))).
  assert (length (take (Z.to_nat n) p) = Z.to_nat n) as Ltake by (rewrite length_take; lia).
  assert (Z.of_nat (length (drop (Z.to_nat n) p)) = Z.of_nat (length p) - n) as Ldrop by (rewrite length_drop; lia).
  wstep1. apply (wp_write_page s l pgdir va); [done|unfold KERNBASE; lia|lia|by apply Forall_take|done..|].
  intros s1 Hu1 Hpte1 Hby1. rewrite Ltake in Hby1. rewrite u32_small by (unfold va0; zlia).
  eapply wp_mono; [apply (IH s1 (va0 + 4096) (drop (Z.to_nat n) p)); [done| | | |by apply Forall_drop|]|].
  - rewrite length_drop. lia.
  - unfold va0. zlia.
  - unfold KERNBASE. rewrite Ldrop. unfold va0. zlia.
  - intros va' Hva'. rewrite !Hpte1. apply Hacc. lia.
  - cbv beta. intros r s2 (-> & Hu2 & Hpte2 & Hby2). split_and!; [done|done|intros va'; by rewrite Hpte2|].
    intros va' Hva'. rewrite Hby2, Hby1 by done. rewrite Ldrop.
    destruct (decide (va ≤ va' < va + Z.of_nat (length p))).
    + destruct (decide (va' < va + n)).
      * rewrite decide_False by lia. rewrite decide_True by lia. rewrite lookup_take_lt by lia. done.
      * rewrite decide_True by lia. rewrite lookup_drop. f_equal. lia.
    + rewrite decide_False by lia. by rewrite decide_False by lia.
Qed.

(** ** freevm *)
(** Freeing the frame of [a] and clearing its entry. *)
Lemma wp_unmap {A} s l pgdir a t (k : M kmem A) Q :
  user s l pgdir → 0 ≤ a < KERNBASE → ptab (km_pages s) pgdir a = Some t →
  has (pte_of (km_pages s) pgdir a) PTE_P = true →
  (∀ s' f, uframe (km_pages s) pgdir a = Some f → user s' (f :: l) pgdir →
    (∀ va, ptab (km_pages s') pgdir va = ptab (km_pages s) pgdir va) →
    (∀ va, 0 ≤ va < 2 ^ 32 → pte_of (km_pages s') pgdir va =
       if decide (va / 4096 = a / 4096) then 0 else pte_of (km_pages s) pgdir va) →
    (∀ p, p ≠ f → p ≠ t → km_pages s' !! p = km_pages s !! p) → wp k Q s') →
  wp ((kfree kend (p2v (PTE_ADDR (pte_of (km_pages s) pgdir a))) ;;; stw (t + 4 * PTX a) 0) ;;; k) Q s.
Proof.
  intros Hu Ha Ht HP HQ. set (f := p2v _).
  assert (uframe (km_pages s) pgdir a = Some f) as Hf by (unfold uframe; by rewrite HP).
  pose proof Hu as [Hs Hfr Hi]. destruct (Hfr a f Ha Hf) as (Hok & Hsome & Hno).
  destruct (space_tab _ _ _ _ _ _ Hs Ht) as ([Htal _ _] & Htsome & Htl & Htd).
  assert (f ≠ t) as Hft by (intros ->; apply Hno; right; right; eauto).
  assert (f ≠ pgdir) as Hfd by (intros ->; apply Hno; right; by left).
  wstep1. wstep1. apply (wp_kfree kend s f l); [apply Hs|done|intros H; apply Hno; by left|done|].
  intros s1 Hk1 Hdom1 Hoth1.
  assert (∀ p, is_Some (km_pages s1 !! p) ↔ is_Some (km_pages s !! p)) as Hd1.
  { intros p. rewrite <- !elem_of_dom, Hdom1. done. }
  assert (∀ va, ptab (km_pages s1) pgdir va = ptab (km_pages s) pgdir va) as Htab1
    by (intros va; by apply ptab_ext, Hoth1).
  assert (space kend s1 (f :: l) pgdir) as Hs1.
  { split; [done|..].
    - intros p Hpt. assert (pt_page (km_pages s) pgdir p) as Hpt0 by (apply (pt_page_ext (km_pages s) (km_pages s1)) in Hpt; [done|by apply Hoth1]).
      destruct (sp_pages _ _ _ _ Hs p Hpt0) as (? & ? & ?). split_and!; [done|by apply Hd1|].
      apply not_elem_of_cons. split; [|done]. intros ->. apply Hno. by right.
    - intros va. rewrite Htab1. apply (sp_dir _ _ _ _ Hs).
    - intros va va' t'. rewrite !Htab1. apply (sp_inj _ _ _ _ Hs). }
  assert (∀ va, pte_of (km_pages s1) pgdir va = pte_of (km_pages s) pgdir va) as Hpte1.
  { intros va. apply pte_of_ext; [by apply Hoth1|]. intros t' Ht'. apply Hoth1. intros ->. apply Hno. right. right. eauto. }
  apply wp_stw; [done|apply PTX_range|by apply Hd1|].
  destruct (space_set kend s1 (f :: l) pgdir a t 0 Hs1) as [Hs2 Hpte2]; [by rewrite Htab1|lia|].
  set (s2 := set_pages _ s1) in *.
  assert (∀ p, p ≠ t → km_pages s2 !! p = km_pages s1 !! p) as Hoth2 by (intros p Hp; by apply set_entry_lookup_ne).
  assert (∀ va, ptab (km_pages s2) pgdir va = ptab (km_pages s) pgdir va) as Htab2.
  { intros va. rewrite <- Htab1. by apply ptab_ext, Hoth2. }
  assert (∀ va, 0 ≤ va < 2 ^ 32 → pte_of (km_pages s2) pgdir va =
    if decide (va / 4096 = a / 4096) then 0 else pte_of (km_pages s) pgdir va) as Hpte.
  { intros va Hva. rewrite Hpte2, Hpte1. destruct (decide (va / 4096 = a / 4096)) as [E|Hne].
    - rewrite decide_True; [done|by apply page_same].
    - rewrite decide_False; [done|]. intros [E1 E2]. apply Hne, same_page; [done|unfold KERNBASE in Ha; lia|done..]. }
  apply (HQ s2 f); [done| |done..|intros p Hp1 Hp2; rewrite Hoth2, Hoth1; done].
  assert (∀ va f', 0 ≤ va < KERNBASE → uframe (km_pages s2) pgdir va = Some f' →
    va / 4096 ≠ a / 4096 ∧ uframe (km_pages s) pgdir va = Some f') as Hfr2.
  { intros va f' Hva. unfold uframe. rewrite Hpte by (unfold KERNBASE in Hva; lia).
    destruct (decide _); [done|]. done. }
  split; [done|..].
  - intros va f' Hva Hf'. destruct (Hfr2 va f' Hva Hf') as [Hne Hf0]. destruct (Hfr va f' Hva Hf0) as (? & Hsf & Hnf).
    assert (f' ≠ f) as Hff by (intros ->; apply Hne; by apply (Hi va a f)).
    split_and!; [done|apply set_entry_is_Some; by apply Hd1|].
    intros [[-> |Hin]%elem_of_cons|Hpt]; [done|apply Hnf; by left|apply Hnf; right].
    destruct Hpt as [-> |[va' Hva']]; [by left|right]. rewrite Htab2 in Hva'. eauto.
  - intros va va' f' Hva Hva' H1 H2. eapply (Hi va va' f'); [done|done|by apply Hfr2|by apply Hfr2].
Qed.

Lemma wp_dealloc_loop fuel s l pgdir a :
  user s l pgdir → 0 ≤ a ≤ KERNBASE → a mod 4096 = 0 → (a mod 2 ^ 22 = 0 ∨ ∃ t, ptab (km_pages s) pgdir a = Some t) →
  (KERNBASE - a) / 4096 < Z.of_nat fuel →
  wp (dealloc_loop kend fuel pgdir a KERNBASE) (λ _ s', ∃ l', space kend s' l' pgdir ∧
    (∀ va, ptab (km_pages s') pgdir va = ptab (km_pages s) pgdir va) ∧
    (∀ p, p ∈ l' ↔ p ∈ l ∨ ∃ va, a ≤ va < KERNBASE ∧ uframe (km_pages s) pgdir va = Some p) ∧
    (∀ p, (p ∉ l') → ¬ pt_page (km_pages s) pgdir p → km_pages s' !! p = km_pages s !! p)) s.
Proof using Hkend.
  revert s l a. induction fuel as [|fuel IH]; intros s l a Hu Ha Hal Hskip Hfuel; [zlia|].
  cbn [dealloc_loop]. destruct (Z.ltb_spec a KERNBASE) as [Hlt|Hge].
  2: { wstep. exists l. split_and!; [apply Hu|done| |done]. intros p. split; [by left|]. intros [?|(va & ? & _)]; [done|lia]. }
  assert (∀ x, 0 ≤ x ≤ KERNBASE → u32 x = x) as Hsmall by (intros x Hx; apply u32_small; unfold KERNBASE in Hx; lia).
  wstep1. apply (wp_walk kend s l); [apply Hu|].
  destruct (ptab (km_pages s) pgdir a) as [t|] eqn:Ht.
  - destruct (space_tab _ _ _ _ _ _ (us_space _ _ _ Hu) Ht) as (Htok & Htsome & _).
    pose proof (PTX_range a). pose proof (po_range _ _ Htok). pose proof (po_align _ _ Htok).
    rewrite (proj2 (Z.eqb_neq _ 0)) by (unfold KERNBASE in *; lia).
    wstep1. apply wp_ldw; [done..|].
    assert (entry (km_pages s) t (PTX a) = pte_of (km_pages s) pgdir a) as -> by (unfold pte_of; by rewrite Ht).
    change PGSIZE with 4096. rewrite Hsmall by (unfold KERNBASE in *; zlia).
    assert (∀ s1, (∀ va, ptab (km_pages s1) pgdir va = ptab (km_pages s) pgdir va) →
      (a + 4096) mod 2 ^ 22 = 0 ∨ ∃ t, ptab (km_pages s1) pgdir (a + 4096) = Some t) as Hnext.
    { intros s1 Htab. destruct (decide ((a + 4096) mod 2 ^ 22 = 0)) as [|Hn]; [by left|right]. exists t.
      rewrite Htab, <- Ht. apply ptab_PDX. rewrite !PDX_eq. f_equal. zlia. }
    destruct (has (pte_of (km_pages s) pgdir a) PTE_P) eqn:HP.
    + assert (uframe (km_pages s) pgdir a = Some (p2v (PTE_ADDR (pte_of (km_pages s) pgdir a)))) as Hf
        by (unfold uframe; by rewrite HP).
      destruct (us_frame _ _ _ Hu a _ ltac:(lia) Hf) as (Hfok & _ & Hfno).
      rewrite (proj2 (Z.eqb_neq _ 0)).
      2: { intros E. rewrite E in Hfok. pose proof (po_end _ _ Hfok) as He. change (p2v 0) with KERNBASE in He. lia. }
      apply (wp_unmap s l pgdir a t); [done|lia|done|done|].
      intros s1 f Hf1 Hu1 Htab1 Hpte1 Hoth1.
      eapply wp_mono; [apply (IH s1 (f :: l) (a + 4096)); [done|unfold KERNBASE in *; zlia|zlia|by apply Hnext|zlia]|].
      cbv beta. intros _ s2 (l2 & Hs2 & Htab2 & Hl2 & Hoth2). exists l2.
      assert (∀ va, a + 4096 ≤ va < KERNBASE → uframe (km_pages s1) pgdir va = uframe (km_pages s) pgdir va) as Hfr1.
      { intros va Hva. apply uframe_ext. rewrite Hpte1 by (unfold KERNBASE in *; lia). rewrite decide_False; [done|]. zlia. }
      split_and!; [done|intros va; by rewrite Htab2| |].
      * intros p. rewrite Hl2, elem_of_cons. split.
        -- intros [[-> |?]|(va & Hva & Hfp)]; [right; exists a; split; [lia|done]|by left|].
           right. exists va. split; [lia|]. by rewrite <- Hfr1.
        -- intros [?|(va & Hva & Hfp)]; [left; by right|]. destruct (decide (va / 4096 = a / 4096)) as [E|Hne].
           ++ left. left. rewrite (uframe_page _ _ _ _ E) in Hfp. congruence.
           ++ right. exists va. split; [zlia|]. rewrite Hfr1; [done|zlia].
      * intros p Hp Hnpt. rewrite Hoth2; [|done|].
        -- apply Hoth1; [|intros ->; apply Hnpt; right; eauto]. intros ->. apply Hp, Hl2. left. by left.
        -- intros [-> |[va Hva]]; apply Hnpt; [by left|right]. rewrite Htab1 in Hva. eauto.
    + wstep1. wstep1.
      eapply wp_mono; [apply (IH s l (a + 4096)); [done|unfold KERNBASE in *; zlia|zlia|by apply Hnext|zlia]|].
      cbv beta. intros _ s2 (l2 & Hs2 & Htab2 & Hl2 & Hoth2). exists l2. split_and!; [done..| |done].
      intros p. rewrite Hl2. split; (intros [?|(va & Hva & Hfp)]; [by left|right; exists va; split; [|done]]); [lia|].
      destruct (decide (va / 4096 = a / 4096)) as [E|Hne]; [|zlia].
      exfalso. rewrite (uframe_page _ _ _ _ E) in Hfp. unfold uframe in Hfp. by rewrite HP in Hfp.
  - destruct Hskip as [Hskip|[t ?]]; [|congruence]. cbn [Z.eqb]. change ((NPTENTRIES - 1) * PGSIZE) with 4190208.
    change PGSIZE with 4096. replace (a + 4190208 + 4096) with (a + 2 ^ 22) by lia.
    assert (a + 2 ^ 22 ≤ KERNBASE) as Hle by (unfold KERNBASE in *; zlia). rewrite Hsmall by lia.
    eapply wp_mono; [apply (IH s l (a + 2 ^ 22)); [done|lia|zlia|left; zlia|zlia]|].
    cbv beta. intros _ s2 (l2 & Hs2 & Htab2 & Hl2 & Hoth2). exists l2. split_and!; [done..| |done].
    intros p. rewrite Hl2. split; (intros [?|(va & Hva & Hfp)]; [by left|right; exists va; split; [|done]]); [lia|].
    destruct (decide (va < a + 2 ^ 22)); [|lia]. exfalso. unfold uframe, pte_of in Hfp.
    rewrite (ptab_PDX _ _ va a), Ht in Hfp; [done|]. rewrite !PDX_eq. f_equal. zlia.
Qed.

Lemma PDX_index i : 0 ≤ i < 1024 → PDX (i * 2 ^ 22) = i.
Proof. intros H. rewrite PDX_eq, Z.div_mul by lia. apply Z.mod_small. lia. Qed.

(** The loop over the page directory frees the page tables. *)
Lemma wp_free_tables n i s0 l0 pgdir s l :
  space kend s0 l0 pgdir → 0 ≤ i → i + Z.of_nat n = 1024 → kmem_ok kend s l →
  (∀ p, p ∈ l ↔ p ∈ l0 ∨ ∃ va, PDX va < i ∧ ptab (km_pages s0) pgdir va = Some p) →
  dom (km_pages s) = dom (km_pages s0) → (∀ p, p ∉ l → km_pages s !! p = km_pages s0 !! p) →
  wp (mfor (seqZ i (Z.of_nat n)) (λ i,
        e <- ldw (pgdir + 4 * i) ;; if has e PTE_P then kfree kend (p2v (PTE_ADDR e)) else ret tt))
    (λ _ s', ∃ l', kmem_ok kend s' l' ∧
      (∀ p, p ∈ l' ↔ p ∈ l0 ∨ ∃ va, ptab (km_pages s0) pgdir va = Some p) ∧
      dom (km_pages s') = dom (km_pages s0) ∧ ∀ p, p ∉ l' → km_pages s' !! p = km_pages s0 !! p) s.
Proof.
  intros Hs0. destruct (space_dir _ _ _ _ Hs0) as ([Hal _ _] & Hds & Hdl).
  revert i s l. induction n as [|n IH]; intros i s l Hi Hn Hk Hl Hdom Hoth.
  { wstep. exists l. split_and!; [done| |done..]. intros p. rewrite Hl. split; (intros [?|[va Hva]]; [by left|right; exists va]).
    - apply Hva.
    - split; [|done]. pose proof (PDX_range va). lia. }
  rewrite Nat2Z.inj_succ in *. rewrite seqZ_cons by lia. cbn [mfor].
  assert (∀ p, p ∈ l → p ≠ pgdir) as Hnd.
  { intros p [Hin|(va & _ & Hva)]%Hl ->; [done|]. by apply (sp_dir _ _ _ _ Hs0 va). }
  assert (pgdir ∉ l) as Hpl by (intros H; by apply (Hnd pgdir)).
  assert (is_Some (km_pages s !! pgdir)) as Hds' by (by rewrite Hoth).
  wstep1. wstep1. apply wp_ldw; [done|lia|done|]. unfold entry. rewrite Hoth by done.
  change (match km_pages s0 !! pgdir with Some pg => u32_at pg (Z.to_nat (4 * i)) | None => 0 end)
    with (entry (km_pages s0) pgdir i).
  replace (Z.pred (Z.succ (Z.of_nat n))) with (Z.of_nat n) by lia.
  assert (ptab (km_pages s0) pgdir (i * 2 ^ 22) =
    if has (entry (km_pages s0) pgdir i) PTE_P then Some (p2v (PTE_ADDR (entry (km_pages s0) pgdir i))) else None) as Ht.
  { unfold ptab. by rewrite PDX_index by lia. }
  destruct (has _ _) eqn:HP.
  - set (t := p2v _) in *. destruct (space_tab _ _ _ _ _ _ Hs0 Ht) as (Hok & Hsome & Hnl0 & Hne).
    assert (t ∉ l) as Htl.
    { intros [?|(va & Hva & Hva')]%Hl; [done|]. pose proof (sp_inj _ _ _ _ Hs0 _ _ _ Hva' Ht) as E.
      rewrite PDX_index in E by lia. lia. }
    apply (wp_kfree kend s t l); [done|done|done|by rewrite Hoth|]. intros s1 Hk1 Hdom1 Hoth1.
    apply (IH (Z.succ i) s1 (t :: l)); [lia|lia|done| |congruence|].
    + intros p. rewrite elem_of_cons, Hl. split.
      * intros [-> |[?|(va & ? & ?)]]; [right; exists (i * 2 ^ 22); rewrite PDX_index by lia; split; [lia|done]|by left|].
        right. exists va. split; [lia|done].
      * intros [?|(va & Hva & Hva')]; [right; by left|]. destruct (decide (PDX va = i)) as [E|].
        -- left. rewrite (ptab_PDX _ _ va (i * 2 ^ 22)) in Hva' by (by rewrite PDX_index by lia). congruence.
        -- right. right. exists va. split; [lia|done].
    + intros p [Hp1 Hp2]%not_elem_of_cons. rewrite Hoth1 by done. by apply Hoth.
  - wstep1. apply (IH (Z.succ i) s l); [lia|lia|done| |done|done].
    intros p. rewrite Hl. split; (intros [?|(va & Hva & Hva')]; [by left|right; exists va; split; [|done]]); [lia|].
    destruct (decide (PDX va = i)) as [E|]; [|lia]. exfalso.
    rewrite (ptab_PDX _ _ va (i * 2 ^ 22)) in Hva' by (by rewrite PDX_index by lia). congruence.
Qed.

(** All pages of an address space: tables and user frames. *)
Definition space_page m (pgdir p : Z) : Prop :=
  pt_page m pgdir p ∨ ∃ va, 0 ≤ va < KERNBASE ∧ uframe m pgdir va = Some p.

Lemma wp_freevm s l pgdir :
  user s l pgdir →
  wp (freevm kend pgdir) (λ _ s', ∃ l', kmem_ok kend s' l' ∧
    (∀ p, p ∈ l' ↔ p ∈ l ∨ space_page (km_pages s) pgdir p) ∧
    ∀ p, p ∉ l' → km_pages s' !! p = km_pages s !! p) s.
Proof using Hkend.
  intros Hu. destruct (space_dir _ _ _ _ (us_space _ _ _ Hu)) as (Hdok & Hds & Hdl).
  unfold freevm. rewrite (proj2 (Z.eqb_neq _ 0)) by (by eapply page_ok_nonzero).
  wstep1. unfold deallocuvm. change (KERNBASE <=? 0) with false. cbv zeta iota. change (PGROUNDUP 0) with 0.
  assert ((KERNBASE - 0) / 4096 < Z.of_nat (S (Z.to_nat ((KERNBASE - 0) / PGSIZE + 1)))) as Hfuel
    by (change PGSIZE with 4096; unfold KERNBASE; zlia).
  revert Hfuel. generalize (S (Z.to_nat ((KERNBASE - 0) / PGSIZE + 1))) as fuel. intros fuel Hfuel.
  wstep1. eapply wp_mono; [apply (wp_dealloc_loop fuel s l pgdir 0); [done|unfold KERNBASE; lia|done|by left|done]|].
  cbv beta. intros _ s1 (l1 & Hs1 & Htab1 & Hl1 & Hoth1). wstep1.
  destruct (space_dir _ _ _ _ Hs1) as (_ & Hds1 & Hdl1).
  wstep1. change NPDENTRIES with (Z.of_nat 1024).
  eapply wp_mono; [apply (wp_free_tables 1024 0 s1 l1 pgdir s1 l1); [done|lia|done|apply Hs1| |done|done]|].
  { intros p. split; [by left|]. intros [?|(va & Hva & _)]; [done|]. pose proof (PDX_range va). lia. }
  cbv beta. intros _ s2 (l2 & Hk2 & Hl2 & Hdom2 & Hoth2).
  assert (pgdir ∉ l2) as Hdl2.
  { intros [?|[va Hva]]%Hl2; [done|]. by apply (sp_dir _ _ _ _ Hs1 va). }
  apply (wp_kfree kend s2 pgdir l2); [done|done|done|by rewrite Hoth2|]. intros s3 Hk3 _ Hoth3.
  exists (pgdir :: l2). split_and!; [done| |].
  - intros p. rewrite elem_of_cons, Hl2, Hl1. unfold space_page, pt_page. setoid_rewrite Htab1. naive_solver.
  - intros p [Hp1 Hp2]%not_elem_of_cons. rewrite Hoth3, Hoth2 by done. apply Hoth1.
    + intros H. apply Hp2, Hl2. by left.
    + intros [-> |[va Hva]]; [done|]. apply Hp2, Hl2. right. exists va. by rewrite Htab1.
Qed.
End user.
