(* ===== verification/VmCopy.v ===== *)
(** * setupkvm and copyuvm

    Building a new address space, and the properties of vm.c. *)
From stdpp Require Import base list gmap numbers option strings sets.
From Stdlib Require Import ZArith Lia.
From S2P Require Import Prelude Kstring Layout Kalloc Vm VmSpec VmUser.
Open Scope Z_scope.

#[local] Instance pt_page_dec (m : gmap Z (list Z)) d p : Decision (pt_page m d p).
Proof.
  refine (cast_if (decide (p = d ∨ Exists (λ i, ptab m d (i * 2 ^ 22) = Some p) (seqZ 0 1024)))).
  - abstract (destruct o as [-> |(i & _ & Hi)%Exists_exists]; [by left|right; eauto]).
  - abstract (intros [-> |[va Hva]]; apply n; [by left|right]; apply Exists_exists; exists (PDX va);
      pose proof (PDX_range va); split; [apply elem_of_seqZ; lia|]; rewrite <- Hva; apply ptab_PDX, PDX_index; lia).
Defined.

Section setup.
Context (kend kdata : Z).
(** The linker aligns the data segment to a page, behind the kernel's text. *)
Context (Hdata : kdata mod 4096 = 0 ∧ KERNLINK < kdata < KERNBASE + PHYSTOP).
Implicit Types m : gmap Z (list Z).







End setup.

Section copy.
Context (kend : Z).
Implicit Types m : gmap Z (list Z).

(** ** Mapping one more page *)
Definition UW : Z := Z.lor PTE_W PTE_U.
Lemma frame_of_pte v : page_ok kend v → p2v (PTE_ADDR (mkpte (v2p v) UW)) = v ∧ has (mkpte (v2p v) UW) PTE_P = true.
Proof.
  intros Hok. destruct (page_ok_v2p _ _ Hok) as (? & ? & E & _). rewrite PTE_ADDR_mkpte by done.
  split; [done|apply has_P_mkpte].
Qed.






End copy.

(** ** Properties *)
Section properties.
Context (kend kdata : Z).


(** copyout writes user memory: when the pages of the range are present and
    accessible to the user it returns 0, the user then reads exactly the copied
    bytes there and its old bytes elsewhere, and the page table is unchanged. *)
Theorem copyout_correct s l pgdir va p :
  KERNBASE < kend → user kend s l pgdir → 0 ≤ va → va + Z.of_nat (length p) ≤ KERNBASE → Forall is_byte p →
  (∀ va', va ≤ va' < va + Z.of_nat (length p) →
     has (pte_of (km_pages s) pgdir va') PTE_P = true ∧ has (pte_of (km_pages s) pgdir va') PTE_U = true) →
  wp (copyout pgdir va p) (λ r s', r = 0 ∧ user kend s' l pgdir ∧
    (∀ va', pte_of (km_pages s') pgdir va' = pte_of (km_pages s) pgdir va') ∧
    ∀ va', 0 ≤ va' < KERNBASE → ubyte (km_pages s') pgdir va' =
      if decide (va ≤ va' < va + Z.of_nat (length p)) then p !! Z.to_nat (va' - va)
      else ubyte (km_pages s) pgdir va') s.
Proof.
  intros Hkend Hu Hva Hmax Hb Hacc. eapply wp_mono; [apply (wp_copyout_loop kend Hkend); try done; lia|].
  intros r s' (-> & Hu' & Hpte & Hby). split_and!; [done..|]. intros va' Hva'. unfold ubyte. rewrite Hpte, Hby by done.
  destruct (decide (va ≤ va' < _)) as [Hin|]; [|done]. by rewrite (proj2 (Hacc va' Hin)).
Qed.

(** C29: freevm gives back exactly the pages of the address space, each once:
    afterwards the free pages are those that were free, the page directory, its
    page tables and the user's frames; no other page changes. *)
Theorem freevm_correct s l pgdir :
  KERNBASE < kend → user kend s l pgdir →
  wp (freevm kend pgdir) (λ _ s', ∃ l', kmem_ok kend s' l' ∧
    (∀ p, p ∈ l' ↔ p ∈ l ∨ space_page (km_pages s) pgdir p) ∧
    ∀ p, p ∉ l' → km_pages s' !! p = km_pages s !! p) s.
Proof. intros Hkend Hu. by apply wp_freevm. Qed.

(** mappages maps a range of pages that are not mapped yet to consecutive
    physical pages with the given permissions, keeps every other entry and every
    page that is not part of the address space, and fails only when no page is
    left for a page table. *)
Theorem mappages_correct s l pgdir va size pa perm :
  space kend s l pgdir → 0 ≤ va → va mod 4096 = 0 → pa mod 4096 = 0 → size mod 4096 = 0 → 0 < size →
  0 ≤ pa → va + size ≤ 2 ^ 32 → pa + size ≤ 2 ^ 32 → 0 ≤ perm < 4096 →
  (∀ va', va ≤ va' < va + size → has (pte_of (km_pages s) pgdir va') PTE_P = false) →
  wp (mappages pgdir va size pa perm) (λ ok s', ∃ l', space kend s' l' pgdir ∧ frame s l s' l' pgdir ∧
    (ok = false → l' = []) ∧
    (ok = true → ∀ va', 0 ≤ va' < 2 ^ 32 → pte_of (km_pages s') pgdir va' =
       if decide (va ≤ va' < va + size) then mkpte (pa + 4096 * ((va' - va) / 4096)) perm
       else pte_of (km_pages s) pgdir va')) s.
Proof.
  intros Hs Hva Hal Hpal Hsz Hpos Hpa Hmax Hpmax Hperm Hno. set (n := Z.to_nat (size / 4096)).
  assert (4096 * Z.of_nat n = size) as Hn by (unfold n; zlia).
  rewrite (mappages_pages _ _ _ _ _ n) by (done || unfold n; zlia).
  eapply wp_mono; [apply (wp_mappages_loop kend n s l pgdir va pa perm); rewrite ?Hn; done|].
  cbv beta. rewrite Hn. intros ok s' (l' & Hs' & Hfr & Hf & Hpte). exists l'. split_and!; [done..|].
  intros -> va' Hva'. specialize (Hpte va' Hva'). destruct (decide (va ≤ va' < va + size)); [by apply Hpte|done].
Qed.
End properties.

(** ** An address space with one user page *)
Definition ex_dir : Z := 0x80201000.
Definition ex_tab : Z := 0x80202000.
Definition ex_frame : Z := 0x80203000.
Definition ex_vend : Z := 0x80200000.
Definition ex_pages0 : gmap Z (list Z) := {[ ex_dir := zero_page; ex_tab := zero_page; ex_frame := zero_page ]}.
Definition ex_vpages : gmap Z (list Z) :=
  set_entry (set_entry ex_pages0 ex_dir 0 (mkpte (v2p ex_tab) UW)) ex_tab 0 (mkpte (v2p ex_frame) UW).
Definition ex_vm : kmem := mkKmem true 0 ex_vpages.

Lemma ex_page_oks : page_ok ex_vend ex_dir ∧ page_ok ex_vend ex_tab ∧ page_ok ex_vend ex_frame.
Proof. split_and!; split; done. Qed.
Lemma ex_wf0 : map_Forall (λ _ pg, page_wf pg) ex_pages0.
Proof. repeat (apply map_Forall_insert_2; [apply zero_page_wf|]). apply map_Forall_empty. Qed.
Lemma ex_entry p i : 0 ≤ i < 1024 →
  entry ex_vpages p i =
    if decide (p = ex_tab ∧ i = 0) then mkpte (v2p ex_frame) UW
    else if decide (p = ex_dir ∧ i = 0) then mkpte (v2p ex_tab) UW else 0.
Proof.
  intros Hi. unfold ex_vpages.
  rewrite entry_set; [|apply set_entry_wf; [apply ex_wf0|lia]|apply set_entry_is_Some; eexists; reflexivity|lia|done|by vm_compute].
  destruct (decide _); [done|]. rewrite entry_set; [|apply ex_wf0|eexists; reflexivity|lia|done|by vm_compute].
  destruct (decide _); [done|]. unfold entry. destruct (ex_pages0 !! p) as [pg|] eqn:E; [|done].
  rewrite <- (zero_entry {[ p := zero_page ]} p i) by (apply lookup_singleton_eq || done). unfold entry. rewrite lookup_singleton_eq.
  unfold ex_pages0 in E. rewrite !lookup_insert_Some in E. rewrite lookup_singleton_Some in E. naive_solver.
Qed.
Lemma ex_ptab va : ptab ex_vpages ex_dir va = if decide (PDX va = 0) then Some ex_tab else None.
Proof.
  unfold ptab. rewrite ex_entry by apply PDX_range. rewrite (decide_False (P := ex_dir = ex_tab ∧ _)) by (by intros [? _]).
  destruct (decide (PDX va = 0)); [by rewrite decide_True|]. by rewrite decide_False by naive_solver.
Qed.
Lemma ex_pte va :
  pte_of ex_vpages ex_dir va = if decide (PDX va = 0 ∧ PTX va = 0) then mkpte (v2p ex_frame) UW else 0.
Proof.
  unfold pte_of. rewrite ex_ptab. destruct (decide (PDX va = 0)); [|by rewrite decide_False by naive_solver].
  rewrite ex_entry by apply PTX_range. destruct (decide (PTX va = 0)).
  - by rewrite !decide_True.
  - rewrite !decide_False by naive_solver. done.
Qed.
Lemma ex_is_Some p : p = ex_dir ∨ p = ex_tab ∨ p = ex_frame → is_Some (ex_vpages !! p).
Proof. intros H. unfold ex_vpages. rewrite !set_entry_is_Some. destruct_or! H; subst; eexists; reflexivity. Qed.
Lemma ex_space : space ex_vend ex_vm [] ex_dir.
Proof.
  destruct ex_page_oks as (Hd & Ht & Hf). split; cbn [ex_vm km_pages].
  - split; cbn; [|done|constructor]. apply set_entry_wf; [apply set_entry_wf; [apply ex_wf0|]|]; done.
  - assert (∀ p, p = ex_dir ∨ p = ex_tab → page_ok ex_vend p ∧ is_Some (ex_vpages !! p) ∧ (p ∉ [])) as H.
    { intros p Hp. split_and!; [by destruct Hp; subst|apply ex_is_Some; tauto|apply not_elem_of_nil]. }
    intros p [-> |[va Hva]]; [apply H; by left|]. rewrite ex_ptab in Hva. destruct (decide _); simplify_eq. apply H. by right.
  - intros va. rewrite ex_ptab. by destruct (decide _).
  - intros va va' t. rewrite !ex_ptab. by repeat destruct (decide _); simplify_eq; congruence.
Qed.
Lemma ex_uframe va f : uframe ex_vpages ex_dir va = Some f → f = ex_frame ∧ PDX va = 0 ∧ PTX va = 0.
Proof.
  unfold uframe. rewrite ex_pte. destruct (decide _) as [[? ?]|]; [|done].
  destruct (frame_of_pte ex_vend ex_frame) as [E1 E2]; [apply ex_page_oks|]. rewrite E1, E2. naive_solver.
Qed.
Lemma ex_user : user ex_vend ex_vm [] ex_dir.
Proof.
  split; [apply ex_space|..]; cbn [ex_vm km_pages].
  - intros va f _ (-> & _)%ex_uframe. split_and!; [apply ex_page_oks|apply ex_is_Some; tauto|].
    intros [?%elem_of_nil|[?|[va' Hva']]]; [done|done|]. rewrite ex_ptab in Hva'. by destruct (decide _).
  - intros va va' f H1 H2 (_ & E1 & E2)%ex_uframe (_ & E3 & E4)%ex_uframe.
    apply same_page; [unfold KERNBASE in *; lia..|congruence|congruence].
Qed.
Lemma ex_present va : 0 ≤ va < 4096 → pte_of ex_vpages ex_dir va = mkpte (v2p ex_frame) UW.
Proof. intros H. rewrite ex_pte, decide_True; [done|]. rewrite PDX_eq, PTX_eq. split; zlia. Qed.


(** Witness of copyout_correct: three bytes at address 100. *)
Lemma copyout_correct_witness :
  wp (copyout ex_dir 100 [7; 8; 9]) (λ r s', r = 0 ∧ ubyte (km_pages s') ex_dir 101 = Some 8) ex_vm.
Proof.
  eapply wp_mono.
  - apply (copyout_correct ex_vend ex_vm [] ex_dir 100 [7; 8; 9]);
      [reflexivity|exact ex_user|discriminate|discriminate|repeat constructor; done|].
    intros va Hva. cbn [ex_vm km_pages]. rewrite ex_present by (cbn in Hva; lia). split; reflexivity.
  - cbv beta. intros r s' (-> & _ & _ & Hb). split; [reflexivity|]. rewrite Hb by (split; [discriminate|reflexivity]).
    reflexivity.
Defined.

(** Witness of freevm_correct. *)
Lemma freevm_correct_witness :
  wp (freevm ex_vend ex_dir) (λ _ s', ∃ l', kmem_ok ex_vend s' l' ∧ ex_tab ∈ l') ex_vm.
Proof.
  eapply wp_mono; [apply (freevm_correct ex_vend ex_vm [] ex_dir); [reflexivity|exact ex_user]|].
  cbv beta. intros _ s' (l' & Hk & Hl & _). exists l'. split; [exact Hk|]. apply Hl. right. left. right. exists 0.
  cbn [ex_vm km_pages]. rewrite ex_ptab. reflexivity.
Defined.

(** Witness of mappages_correct: the page at 0x1000 is not mapped. *)
Lemma mappages_correct_witness :
  wp (mappages ex_dir 0x1000 4096 0x300000 PTE_W) (λ ok s', ok = true →
    pte_of (km_pages s') ex_dir 0x1004 = mkpte 0x300000 PTE_W) ex_vm.
Proof.
  eapply wp_mono.
  - apply (mappages_correct ex_vend ex_vm [] ex_dir 0x1000 4096 0x300000 PTE_W);
      [exact ex_space|discriminate|reflexivity..|discriminate|discriminate|discriminate|split; [discriminate|reflexivity]|].
    intros va Hva. cbn [ex_vm km_pages]. rewrite ex_pte, decide_False; [reflexivity|].
    rewrite PTX_eq. intros [_ H]. zlia.
  - cbv beta. intros ok s' (l' & _ & _ & _ & H) E. rewrite (H E 0x1004) by (split; [discriminate|reflexivity]). reflexivity.
Defined.
