(* ===== verification/Proc.v ===== *)
(** * Processes (proc.c, proc.h, struct trapframe of x86.h)

    The process table over the files and memory of File.v and Vm.v.  A struct
    proc* is an index into ptable.proc, the current process an argument; a
    process's trap frame, which the code keeps on its kernel stack, is a field.
    Code under ptable.lock runs without interruption.  A process that calls
    sleep() becomes SLEEPING and gives up the processor ([Blocked]); swtch() and
    the processor's registers are not part of the state. *)
From stdpp Require Import base list gmap numbers option strings sets.
From Stdlib Require Import ZArith Lia.
From S2P Require Import Prelude Kstring Layout BlockStore Fs Kalloc Pipe File Vm.
Open Scope Z_scope.

Definition KSTACKSIZE : Z := 4096.

Inductive procstate := UNUSED | EMBRYO | SLEEPING | RUNNABLE | RUNNING | ZOMBIE.
#[export] Instance procstate_eq_dec : EqDecision procstate.
Proof. solve_decision. Defined.

Record trapframe := mkTf {
  tf_edi : Z; tf_esi : Z; tf_ebp : Z; tf_oesp : Z; tf_ebx : Z; tf_edx : Z; tf_ecx : Z; tf_eax : Z;
  tf_gs : Z; tf_fs : Z; tf_es : Z; tf_ds : Z; tf_trapno : Z; tf_err : Z; tf_eip : Z; tf_cs : Z; tf_eflags : Z;
  tf_esp : Z; tf_ss : Z }.
Definition tf0 : trapframe := mkTf 0 0 0 0 0 0 0 0 0 0 0 0 0 0 0 0 0 0 0.
Definition tf_set_eax (v : Z) (t : trapframe) : trapframe :=
  mkTf (tf_edi t) (tf_esi t) (tf_ebp t) (tf_oesp t) (tf_ebx t) (tf_edx t) (tf_ecx t) v (tf_gs t) (tf_fs t)
    (tf_es t) (tf_ds t) (tf_trapno t) (tf_err t) (tf_eip t) (tf_cs t) (tf_eflags t) (tf_esp t) (tf_ss t).
Definition tf_set_start (eip esp : Z) (t : trapframe) : trapframe :=
  mkTf (tf_edi t) (tf_esi t) (tf_ebp t) (tf_oesp t) (tf_ebx t) (tf_edx t) (tf_ecx t) (tf_eax t) (tf_gs t) (tf_fs t)
    (tf_es t) (tf_ds t) (tf_trapno t) (tf_err t) eip (tf_cs t) (tf_eflags t) esp (tf_ss t).

(** A sleep channel: a process, or the address of another kernel object. *)
Inductive schan := ChProc (i : nat) | ChAddr (a : Z).
#[export] Instance schan_eq_dec : EqDecision schan.
Proof. solve_decision. Defined.

(** Where a process continues when it is scheduled. *)
Inductive kcontext := CtxForkret | CtxSched.

Record proc := mkProc {
  p_sz : Z;
  p_pgdir : Z;
  p_kstack : Z;
  p_state : procstate;
  p_pid : Z;
  p_parent : option nat;
  p_tf : trapframe;
  p_context : kcontext;
  p_chan : option schan;
  p_killed : bool;
  p_ofile : list (option nat);
  p_cwd : option nat;
  p_name : list Z }.

Definition proc0 : proc :=
  mkProc 0 0 0 UNUSED 0 None tf0 CtxSched None false (replicate 16 None) None (replicate 16 0).

Definition set_state (v : procstate) (p : proc) : proc :=
  mkProc (p_sz p) (p_pgdir p) (p_kstack p) v (p_pid p) (p_parent p) (p_tf p) (p_context p) (p_chan p) (p_killed p) (p_ofile p) (p_cwd p) (p_name p).
Definition set_pid (v : Z) (p : proc) : proc :=
  mkProc (p_sz p) (p_pgdir p) (p_kstack p) (p_state p) v (p_parent p) (p_tf p) (p_context p) (p_chan p) (p_killed p) (p_ofile p) (p_cwd p) (p_name p).
Definition set_kstack (v : Z) (p : proc) : proc :=
  mkProc (p_sz p) (p_pgdir p) v (p_state p) (p_pid p) (p_parent p) (p_tf p) (p_context p) (p_chan p) (p_killed p) (p_ofile p) (p_cwd p) (p_name p).
Definition set_context (v : kcontext) (p : proc) : proc :=
  mkProc (p_sz p) (p_pgdir p) (p_kstack p) (p_state p) (p_pid p) (p_parent p) (p_tf p) v (p_chan p) (p_killed p) (p_ofile p) (p_cwd p) (p_name p).
Definition set_pgdir (v : Z) (p : proc) : proc :=
  mkProc (p_sz p) v (p_kstack p) (p_state p) (p_pid p) (p_parent p) (p_tf p) (p_context p) (p_chan p) (p_killed p) (p_ofile p) (p_cwd p) (p_name p).
Definition set_sz (v : Z) (p : proc) : proc :=
  mkProc v (p_pgdir p) (p_kstack p) (p_state p) (p_pid p) (p_parent p) (p_tf p) (p_context p) (p_chan p) (p_killed p) (p_ofile p) (p_cwd p) (p_name p).
Definition set_tf (v : trapframe) (p : proc) : proc :=
  mkProc (p_sz p) (p_pgdir p) (p_kstack p) (p_state p) (p_pid p) (p_parent p) v (p_context p) (p_chan p) (p_killed p) (p_ofile p) (p_cwd p) (p_name p).
Definition set_parent (v : option nat) (p : proc) : proc :=
  mkProc (p_sz p) (p_pgdir p) (p_kstack p) (p_state p) (p_pid p) v (p_tf p) (p_context p) (p_chan p) (p_killed p) (p_ofile p) (p_cwd p) (p_name p).
Definition set_chan (v : option schan) (p : proc) : proc :=
  mkProc (p_sz p) (p_pgdir p) (p_kstack p) (p_state p) (p_pid p) (p_parent p) (p_tf p) (p_context p) v (p_killed p) (p_ofile p) (p_cwd p) (p_name p).
Definition set_killed (v : bool) (p : proc) : proc :=
  mkProc (p_sz p) (p_pgdir p) (p_kstack p) (p_state p) (p_pid p) (p_parent p) (p_tf p) (p_context p) (p_chan p) v (p_ofile p) (p_cwd p) (p_name p).
Definition set_ofile (v : list (option nat)) (p : proc) : proc :=
  mkProc (p_sz p) (p_pgdir p) (p_kstack p) (p_state p) (p_pid p) (p_parent p) (p_tf p) (p_context p) (p_chan p) (p_killed p) v (p_cwd p) (p_name p).
Definition set_cwd (v : option nat) (p : proc) : proc :=
  mkProc (p_sz p) (p_pgdir p) (p_kstack p) (p_state p) (p_pid p) (p_parent p) (p_tf p) (p_context p) (p_chan p) (p_killed p) (p_ofile p) v (p_name p).
Definition set_name (v : list Z) (p : proc) : proc :=
  mkProc (p_sz p) (p_pgdir p) (p_kstack p) (p_state p) (p_pid p) (p_parent p) (p_tf p) (p_context p) (p_chan p) (p_killed p) (p_ofile p) (p_cwd p) v.

(** ptable, nextpid, initproc, and the static variable of forkret. *)
Record pstate {BS : BlockStore} := mkP {
  ps_k : kstate BS;
  ps_table : list proc;
  ps_nextpid : Z;
  ps_initproc : option nat;
  ps_first : bool }.
Arguments pstate : clear implicits.
Arguments mkP {BS} ps_k ps_table ps_nextpid ps_initproc ps_first.

(** The first slot that satisfies a test. *)
Fixpoint find_proc (test : proc → bool) (l : list proc) : option nat :=
  match l with
  | [] => None
  | p :: l => if test p then Some 0%nat else S <$> find_proc test l
  end.
Definition in_state (v : procstate) (p : proc) : bool := bool_decide (p_state p = v).
Definition child_of (cur : nat) (p : proc) : bool := bool_decide (p_parent p = Some cur).

Definition wakeup1 (c : schan) (l : list proc) : list proc :=
  (λ p, if bool_decide (p_state p = SLEEPING ∧ p_chan p = Some c) then set_state RUNNABLE p else p) <$> l.

Section proc.
Context {BS : BlockStore} (devsw : devsw_t (fstate BS)) (kend kdata : Z).
Abbreviation PS := (pstate BS).

Definition set_k (k : kstate BS) (s : PS) : PS := mkP k (ps_table s) (ps_nextpid s) (ps_initproc s) (ps_first s).
Definition set_table (l : list proc) (s : PS) : PS := mkP (ps_k s) l (ps_nextpid s) (ps_initproc s) (ps_first s).
Definition set_nextpid (n : Z) (s : PS) : PS := mkP (ps_k s) (ps_table s) n (ps_initproc s) (ps_first s).
Definition set_initproc (i : option nat) (s : PS) : PS := mkP (ps_k s) (ps_table s) (ps_nextpid s) i (ps_first s).
Definition set_first (b : bool) (s : PS) : PS := mkP (ps_k s) (ps_table s) (ps_nextpid s) (ps_initproc s) b.
(** Code of the other modules. *)
Definition kern {A} (m : M (kstate BS) A) : M PS A := zoom ps_k set_k m.
Definition getproc (i : nat) : M PS proc := λ s, lift_opt (ps_table s !! i) s.
Definition modp (i : nat) (f : proc → proc) : M PS unit :=
  _ <- getproc i ;; modify (λ s, set_table (alter f i (ps_table s)) s).

Definition allocproc : M PS (option nat) :=
  l <- gets ps_table ;;
  match find_proc (in_state UNUSED) l with
  | None => ret None
  | Some p =>
    modp p (set_state EMBRYO) ;;;
    pid <- gets ps_nextpid ;;
    modify (set_nextpid (s32 (pid + 1))) ;;;
    modp p (set_pid pid) ;;;
    kstack <- kern (km kalloc) ;;
    modp p (set_kstack kstack) ;;;
    if kstack =? 0 then modp p (set_state UNUSED) ;;; ret None
    else modp p (set_context CtxForkret) ;;; ret (Some p)
  end.

Definition SEG_UCODE : Z := 4.
Definition SEG_UDATA : Z := 5.
Definition DPL_USER : Z := 3.
Definition FL_IF : Z := 0x200.
(** The trap frame of the first process. *)
Definition user_tf : trapframe :=
  let data := Z.lor (Z.shiftl SEG_UDATA 3) DPL_USER in
  mkTf 0 0 0 0 0 0 0 0 0 0 data data 0 0 0 (Z.lor (Z.shiftl SEG_UCODE 3) DPL_USER) FL_IF PGSIZE data.
Definition initcode_name : list Z := [105; 110; 105; 116; 99; 111; 100; 101].
Definition store_name (new : list Z) (p : proc) : proc := set_name (splice (p_name p) 0 (safestrcpy new 16)) p.

Definition userinit (initcode : list Z) : M PS unit :=
  p <- allocproc ;;
  modify (set_initproc p) ;;;
  p <- lift_opt p ;;
  pgdir <- kern (km (setupkvm kdata)) ;;
  modp p (set_pgdir pgdir) ;;;
  if pgdir =? 0 then panic "userinit: out of memory?"
  else
    kern (km (inituvm pgdir initcode)) ;;;
    modp p (set_sz PGSIZE) ;;;
    modp p (set_tf user_tf) ;;;
    modp p (store_name initcode_name) ;;;
    ip <- kern (fs (namei devsw 0 [SLASH])) ;;
    modp p (set_cwd ip) ;;;
    modp p (set_state RUNNABLE).

(** false for a return of -1; switchuvm only loads registers. *)
Definition growproc (cur : nat) (n : Z) : M PS bool :=
  p <- getproc cur ;;
  let sz := p_sz p in
  if 0 <? n then
    r <- kern (km (allocuvm kend (p_pgdir p) sz (u32 (sz + n)))) ;;
    if r =? 0 then ret false else modp cur (set_sz r) ;;; ret true
  else if n <? 0 then
    r <- kern (km (deallocuvm kend (p_pgdir p) sz (u32 (sz + n)))) ;;
    if r =? 0 then ret false else modp cur (set_sz r) ;;; ret true
  else ret true.

Definition dup_files (cur np : nat) : M PS unit :=
  mfor (seq 0 16) (λ i,
    p <- getproc cur ;;
    match mjoin (p_ofile p !! i) with
    | Some f => f' <- kern (filedup f) ;; modp np (λ q, set_ofile (<[i := Some f']> (p_ofile q)) q)
    | None => ret tt
    end).

Definition fork (cur : nat) : M PS Z :=
  np <- allocproc ;;
  match np with
  | None => ret (-1)
  | Some np =>
    p <- getproc cur ;;
    d <- kern (km (copyuvm kend kdata (p_pgdir p) (p_sz p))) ;;
    modp np (set_pgdir d) ;;;
    if d =? 0 then
      q <- getproc np ;;
      kern (km (kfree kend (p_kstack q))) ;;;
      modp np (set_kstack 0) ;;;
      modp np (set_state UNUSED) ;;;
      ret (-1)
    else
      modp np (set_sz (p_sz p)) ;;;
      modp np (set_parent (Some cur)) ;;;
      modp np (set_tf (tf_set_eax 0 (p_tf p))) ;;;
      dup_files cur np ;;;
      cwd <- lift_opt (p_cwd p) ;;
      cwd <- kern (fs (idup cwd)) ;;
      modp np (set_cwd (Some cwd)) ;;;
      q <- getproc np ;;
      modp np (set_state RUNNABLE) ;;;
      modp np (store_name (p_name p)) ;;;
      ret (p_pid q)
  end.

(** exit: first the files, which may sleep, then the process table. *)
Definition exit_files (cur : nat) : M PS unit :=
  init <- gets ps_initproc ;;
  if bool_decide (init = Some cur) then panic "init exiting"
  else
    mfor (seq 0 16) (λ fd,
      p <- getproc cur ;;
      match mjoin (p_ofile p !! fd) with
      | Some f => kern (fileclose kend f) ;;; modp cur (λ q, set_ofile (<[fd := None]> (p_ofile q)) q)
      | None => ret tt
      end) ;;;
    p <- getproc cur ;;
    cwd <- lift_opt (p_cwd p) ;;
    kern (fs (iput cwd)) ;;;
    modp cur (set_cwd None).

(** One round of the loop that passes children to init. *)
Definition reparent_one (cur init : nat) (l : list proc) (i : nat) : list proc :=
  match l !! i with
  | Some p =>
    if child_of cur p then
      let l := alter (set_parent (Some init)) i l in
      if in_state ZOMBIE p then wakeup1 (ChProc init) l else l
    else l
  | None => l
  end.
Definition exit_table (cur init : nat) (l : list proc) : list proc :=
  let l := match l !! cur with
           | Some p => match p_parent p with Some q => wakeup1 (ChProc q) l | None => l end
           | None => l
           end in
  let l := foldl (reparent_one cur init) l (seq 0 (length l)) in
  alter (set_state ZOMBIE) cur l.
Definition exit_zombie (cur : nat) : M PS unit :=
  init <- gets ps_initproc ;;
  init <- lift_opt init ;;
  modify (λ s, set_table (exit_table cur init (ps_table s)) s).
Definition exit (cur : nat) : M PS unit := exit_files cur ;;; exit_zombie cur.

(** What wait does to a zombie it has found. *)
Definition reaped (p : proc) : proc :=
  set_killed false (set_name (<[0%nat := 0]> (p_name p)) (set_parent None (set_pid 0 (set_state UNUSED (set_kstack 0 p))))).

(** One round of the loop of wait: a pid, -1, or None when the process has gone
    to sleep and will try again. *)
Definition sleep (cur : nat) (c : schan) : M PS unit :=
  modp cur (set_chan (Some c)) ;;; modp cur (set_state SLEEPING).
Definition wait_round (cur : nat) : M PS (option Z) :=
  l <- gets ps_table ;;
  match find_proc (λ p, child_of cur p && in_state ZOMBIE p) l with
  | Some i =>
    p <- getproc i ;;
    kern (km (kfree kend (p_kstack p))) ;;;
    kern (km (freevm kend (p_pgdir p))) ;;;
    modp i reaped ;;;
    ret (Some (p_pid p))
  | None =>
    me <- getproc cur ;;
    match find_proc (child_of cur) l with
    | Some _ =>
      if p_killed me then ret (Some (-1)) else sleep cur (ChProc cur) ;;; ret None
    | None => ret (Some (-1))
    end
  end.

(** sched: its checks, then the processor goes to the scheduler. *)
Definition sched_check (holding : bool) (ncli : Z) (st : procstate) (intr : bool) : option string :=
  if negb holding then Some "sched ptable.lock"
  else if negb (ncli =? 1) then Some "sched locks"
  else if bool_decide (st = RUNNING) then Some "sched running"
  else if intr then Some "sched interruptible"
  else None.

Definition yield (cur : nat) : M PS unit := modp cur (set_state RUNNABLE).
(** sleep() returns: tidy up. *)
Definition wakened (cur : nat) : M PS unit := modp cur (set_chan None).
Definition wakeup (c : schan) : M PS unit := modify (λ s, set_table (wakeup1 c (ps_table s)) s).

(** The first scheduling of a process; the first process of all runs initlog. *)
Definition forkret (initlog : M (kstate BS) unit) : M PS unit :=
  first <- gets ps_first ;;
  if first : bool then modify (set_first false) ;;; kern initlog else ret tt.

Definition kill (pid : Z) : M PS Z :=
  l <- gets ps_table ;;
  match find_proc (λ p, p_pid p =? pid) l with
  | Some i =>
    modp i (set_killed true) ;;;
    p <- getproc i ;;
    (if in_state SLEEPING p then modp i (set_state RUNNABLE) else ret tt) ;;;
    ret 0
  | None => ret (-1)
  end.

(** scheduler: the next RUNNABLE process from slot [pos] on starts to run. *)
Definition next_runnable (pos : nat) (l : list proc) : option nat :=
  match find_proc (in_state RUNNABLE) (drop pos l) with
  | Some k => Some (pos + k)%nat
  | None => find_proc (in_state RUNNABLE) l
  end.
Definition schedule (pos : nat) : M PS (option nat) :=
  l <- gets ps_table ;;
  match next_runnable pos l with
  | Some i => modp i (set_state RUNNING) ;;; ret (Some i)
  | None => ret None
  end.
End proc.
