(* ===== verification/ProcSpec.v ===== *)
(** * Correctness of the process table

    Processes on several processors as a step relation over the operations of
    Proc.v, an invariant of all reachable states, and the fairness of the
    scheduler. *)
From stdpp Require Import base list gmap numbers option strings sets.
From Stdlib Require Import ZArith Lia.
From S2P Require Import Prelude Kstring Layout BlockStore Fs Kalloc Pipe File Vm Proc.
Open Scope Z_scope.

(** ** The scheduler *)
Lemma find_proc_Some test l i :
  find_proc test l = Some i ↔
  (∃ p, l !! i = Some p ∧ test p = true) ∧ ∀ j p, (j < i)%nat → l !! j = Some p → test p = false.
Proof.
  revert i. induction l as [|x l IH]; intros i; cbn [find_proc]; [split; [done|by intros [(p & ? & _) _]]|].
  destruct (test x) eqn:E.
  - split.
    + intros [= <-]. split; [by exists x|]. intros j p Hj. lia.
    + intros [(p & Hp & _) Hlt]. destruct i as [|i]; [done|]. exfalso. by rewrite (Hlt 0%nat x) in E by (done || lia).
  - destruct i as [|i].
    + split; [by destruct (find_proc test l)|]. intros [(p & [= <-] & Ht) _]. congruence.
    + transitivity (find_proc test l = Some i); [destruct (find_proc test l); cbn; naive_solver|].
      rewrite IH. split; intros [Hp Hlt]; (split; [done|]).
      * intros [|j] p Hj; [intros [= <-]; done|]. intros Hp'. by apply (Hlt j p); [lia|].
      * intros j p Hj Hp'. by apply (Hlt (S j) p); [lia|].
Qed.
Lemma find_proc_None test l : find_proc test l = None ↔ ∀ j p, l !! j = Some p → test p = false.
Proof.
  induction l as [|x l IH]; cbn [find_proc]; [done|]. destruct (test x) eqn:E.
  - split; [done|]. intros H. by rewrite (H 0%nat x) in E.
  - transitivity (find_proc test l = None); [by destruct (find_proc test l)|]. rewrite IH. split.
    + intros H [|j] p; [intros [= <-]; done|apply H].
    + intros H j. apply (H (S j)).
Qed.

Definition runnable (l : list proc) (i : nat) : Prop := ∃ p, l !! i = Some p ∧ p_state p = RUNNABLE.

(** The slots a processor picks, from position [pos], when the process table is
    that of [ts] at the successive picks. *)
Fixpoint picks (pos : nat) (ts : list (list proc)) : list nat :=
  match ts with
  | [] => []
  | l :: ts => match next_runnable pos l with Some j => j :: picks (S j) ts | None => picks pos ts end
  end.
(** The slots from [pos] on, around the table of length [n], before [i]. *)
Definition turns (n pos i : nat) : nat := if (pos <=? i)%nat then i - pos else n - pos + i.

Lemma next_runnable_turn n pos i l :
  runnable l i → length l = n → (pos ≤ n)%nat →
  ∃ j, next_runnable pos l = Some j ∧ (j < n)%nat ∧ (j = i ∨ (turns n (S j) i < turns n pos i)%nat).
Proof.
  intros (p & Hp & Hst) Hn Hpos. pose proof (lookup_lt_Some _ _ _ Hp) as Hi.
  assert (in_state RUNNABLE p = true) as Ht by (by apply bool_decide_eq_true).
  unfold next_runnable, turns. destruct (find_proc (in_state RUNNABLE) (drop pos l)) as [k|] eqn:E.
  - apply find_proc_Some in E as [(q & Hq & _) Hlt]. rewrite lookup_drop in Hq.
    pose proof (lookup_lt_Some _ _ _ Hq). exists (pos + k)%nat. split_and!; [done|lia|].
    destruct (decide ((pos + k)%nat = i)); [by left|right].
    destruct (Nat.leb_spec pos i), (Nat.leb_spec (S (pos + k)) i); try lia.
    exfalso. rewrite (Hlt (i - pos)%nat p) in Ht; [done|lia|]. rewrite lookup_drop, <- Hp. f_equal. lia.
  - destruct (find_proc (in_state RUNNABLE) l) as [j|] eqn:E'.
    + apply find_proc_Some in E' as [(q & Hq & _) Hlt]. pose proof (lookup_lt_Some _ _ _ Hq).
      exists j. split_and!; [done|lia|]. destruct (decide (j = i)); [by left|right].
      assert (j < i)%nat as Hji.
      { destruct (decide (i < j)%nat) as [Hij|]; [|lia]. by rewrite (Hlt i p Hij Hp) in Ht. }
      assert (i < pos)%nat as Hip.
      { destruct (decide (pos ≤ i)%nat) as [Hpi|]; [|lia]. exfalso.
        rewrite (proj1 (find_proc_None _ _) E (i - pos)%nat p) in Ht; [done|].
        rewrite lookup_drop, <- Hp. f_equal. lia. }
      destruct (Nat.leb_spec pos i), (Nat.leb_spec (S j) i); lia.
    + by rewrite (proj1 (find_proc_None _ _) E' i p Hp) in Ht.
Qed.

Lemma picks_turn n i ts pos :
  Forall (λ l, runnable l i ∧ length l = n) ts → (pos ≤ n)%nat → (turns n pos i < length ts)%nat → i ∈ picks pos ts.
Proof.
  intros Hts. revert pos. induction Hts as [|l ts [Hr Hl] Hts IH]; intros pos Hpos Hlen; [cbn in Hlen; lia|].
  destruct (next_runnable_turn n pos i l Hr Hl Hpos) as (j & Hj & Hjn & Hd). cbn [picks]. rewrite Hj.
  destruct Hd as [-> |Hd]; [by left|right]. apply IH; [lia|]. cbn [length] in Hlen. lia.
Qed.

(** C26: the scheduler starves no process: a process that is RUNNABLE each time a
    processor picks its next process is among its next NPROC picks, whatever the
    other processes do meanwhile. *)
Theorem scheduler_fair pos i ts :
  (pos ≤ Z.to_nat NPROC)%nat → length ts = Z.to_nat NPROC →
  Forall (λ l, runnable l i ∧ length l = Z.to_nat NPROC) ts → i ∈ picks pos ts.
Proof.
  intros Hpos Hlen Hts. apply (picks_turn (Z.to_nat NPROC)); [done|done|]. rewrite Hlen.
  assert (i < Z.to_nat NPROC)%nat as Hi.
  { destruct ts as [|l ts]; [done|]. apply Forall_cons in Hts as [[(p & Hp & _) Hl] _].
    rewrite <- Hl. by eapply lookup_lt_Some. }
  unfold turns. destruct (Nat.leb_spec pos i); lia.
Qed.

Definition ex_table : list proc := <[7%nat := set_state RUNNABLE proc0]> (<[2%nat := set_state RUNNABLE proc0]> (replicate 64 proc0)).
Lemma scheduler_fair_witness : 2%nat ∈ picks 5 (replicate 64 ex_table).
Proof.
  apply (scheduler_fair 5 2 (replicate 64 ex_table)).
  - apply Nat.leb_le. reflexivity.
  - reflexivity.
  - apply Forall_replicate. split; [|reflexivity]. exists (set_state RUNNABLE proc0). split; reflexivity.
Defined.

(** ** Partial correctness

    [pc m Q s]: if [m] returns from [s], [Q] holds then.  The kernel code that
    Proc.v calls may also sleep, and is then covered by [ps_kern] below. *)
Definition pc {S A} (m : M S A) (Q : A → S → Prop) (s : S) : Prop :=
  match m s with Ok a s' => Q a s' | _ => True end.

Section pc_rules.
Context {S : Type}.
Lemma pc_Ok {A} (m : M S A) Q s a s' : pc m Q s → m s = Ok a s' → Q a s'.
Proof. unfold pc. intros H E. by rewrite E in H. Qed.
Lemma pc_bind {A B} (m : M S A) (k : A → M S B) Q s : pc m (λ a s', pc (k a) Q s') s → pc (bind m k) Q s.
Proof. unfold pc, bind. by destruct (m s). Qed.
Lemma pc_ret {A} (a : A) (Q : A → S → Prop) s : Q a s → pc (ret a) Q s.
Proof. done. Qed.
Lemma pc_gets {A} (f : S → A) (Q : A → S → Prop) s : Q (f s) s → pc (gets f) Q s.
Proof. done. Qed.
Lemma pc_modify (f : S → S) (Q : unit → S → Prop) s : Q tt (f s) → pc (modify f) Q s.
Proof. done. Qed.
Lemma pc_lift {A} (o : option A) (Q : A → S → Prop) s : (∀ a, o = Some a → Q a s) → pc (lift_opt o) Q s.
Proof. destruct o; cbn; [by intros H; apply H|done]. Qed.
Lemma pc_mono {A} (m : M S A) (Q Q' : A → S → Prop) s : pc m Q s → (∀ a s', Q a s' → Q' a s') → pc m Q' s.
Proof. unfold pc. destruct (m s); auto. Qed.
Lemma pc_mfor {A} (l : list A) (body : A → M S unit) (I : S → Prop) s :
  (∀ x s, I s → pc (body x) (λ _, I) s) → I s → pc (mfor l body) (λ _, I) s.
Proof.
  intros Hb. revert s. induction l as [|x l IH]; intros s Hs; [done|].
  cbn [mfor]. apply pc_bind. eapply pc_mono; [by apply Hb|]. intros ? s'. apply IH.
Qed.
End pc_rules.

(** ** The operations on the process table

    What the properties below depend on in a slot of the table. *)
Record slot := mkSlot { sl_state : procstate; sl_pid : Z; sl_parent : option nat; sl_chan : option schan }.
Definition slot_of (p : proc) : slot := mkSlot (p_state p) (p_pid p) (p_parent p) (p_chan p).

(** *** exit: the parent is woken, and init when it inherits a zombie *)
Definition is_woken (p p' : proc) : Prop :=
  p_state p' = p_state p ∨ p_state p = SLEEPING ∧ p_state p' = RUNNABLE.
Lemma wakeup1_lookup c l k :
  wakeup1 c l !! k =
  (λ p, if bool_decide (p_state p = SLEEPING ∧ p_chan p = Some c) then set_state RUNNABLE p else p) <$> l !! k.
Proof. apply list_lookup_fmap. Qed.
Lemma wakeup1_Some c l k p :
  l !! k = Some p →
  ∃ p', wakeup1 c l !! k = Some p' ∧ p_pid p' = p_pid p ∧ p_parent p' = p_parent p ∧ p_chan p' = p_chan p ∧
    is_woken p p' ∧ (p_state p' = SLEEPING → p_chan p ≠ Some c).
Proof.
  intros Hp. rewrite wakeup1_lookup, Hp. cbn. case_bool_decide as Hb; eexists; split_and!; try done.
  - right. naive_solver.
  - by left.
  - naive_solver.
Qed.
Lemma is_woken_trans p q r : is_woken p q → is_woken q r → is_woken p r.
Proof. unfold is_woken. intuition congruence. Qed.
Lemma is_woken_sleeping p q : is_woken p q → p_state q = SLEEPING → p_state p = SLEEPING.
Proof. unfold is_woken. intuition congruence. Qed.
Lemma is_woken_zombie p q : is_woken p q → p_state q = ZOMBIE ↔ p_state p = ZOMBIE.
Proof. unfold is_woken. intuition congruence. Qed.

(** Slot [k] of the table after [n] rounds of the loop that passes the children
    of [cur] to [init]. *)
Definition passed (cur init n : nat) (l : list proc) (k : nat) (p p' : proc) : Prop :=
  p_pid p' = p_pid p ∧ p_chan p' = p_chan p ∧
  p_parent p' = (if bool_decide ((k < n)%nat ∧ p_parent p = Some cur) then Some init else p_parent p) ∧
  is_woken p p' ∧
  (p_state p' = SLEEPING → p_chan p = Some (ChProc init) →
   ∀ j q, (j < n)%nat → l !! j = Some q → p_parent q = Some cur → p_state q ≠ ZOMBIE).

(** One more round: [p1] is slot [k] before it and [p2] after the new parent is
    stored, which happens for slot [n] only, a child of [cur]. *)
Lemma passed_S cur init n l k p p1 p2 :
  passed cur init n l k p p1 →
  p_pid p2 = p_pid p1 → p_chan p2 = p_chan p1 → is_woken p1 p2 →
  p_parent p2 = (if bool_decide (k = n ∧ p_parent p = Some cur) then Some init else p_parent p1) →
  (p_state p2 = SLEEPING → p_chan p = Some (ChProc init) →
   ∀ q, l !! n = Some q → p_parent q = Some cur → p_state q ≠ ZOMBIE) →
  passed cur init (S n) l k p p2.
Proof.
  intros (Hpid & Hch & Hpar & Hw & Hz) Hpid2 Hch2 Hw2 Hpar2 Hz2.
  split_and!; [congruence..| |by eapply is_woken_trans|].
  - rewrite Hpar2, Hpar. clear. repeat case_bool_decide; try done; exfalso; destruct (lt_eq_lt_dec k n) as [[]|]; naive_solver lia.
  - intros Hs Hc j q Hj Hq. destruct (decide (j = n)) as [-> |]; [by apply Hz2|].
    apply (Hz (is_woken_sleeping _ _ Hw2 Hs) Hc j); [lia|done].
Qed.

Lemma reparent_fold cur init l n k p :
  (n ≤ length l)%nat → l !! k = Some p →
  ∃ p', foldl (reparent_one cur init) l (seq 0 n) !! k = Some p' ∧ passed cur init n l k p p'.
Proof.
  revert k p. induction n as [|n IH]; intros k p Hn Hp.
  { exists p. split; [done|]. split_and!; [done..|by left|lia]. }
  rewrite seq_S, foldl_snoc. cbn [Nat.add]. set (l1 := foldl _ _ _) in *. unfold reparent_one.
  destruct (lookup_lt_is_Some_2 l n) as [r Hr]; [lia|].
  destruct (IH n r) as (r1 & Hr1 & _ & _ & Hparr & Hwr & _); [lia|done|]. rewrite bool_decide_false in Hparr by lia.
  destruct (IH k p) as (p1 & Hp1 & Hps); [lia|done|]. rewrite Hr1. unfold child_of. rewrite Hparr.
  destruct (decide (p_parent r = Some cur)) as [Hc|Hc]; [rewrite bool_decide_true by done|rewrite bool_decide_false by done].
  2: { exists p1. split; [done|]. eapply passed_S; [done..|by left| |naive_solver].
       rewrite bool_decide_false; [done|]. intros [-> ?]. naive_solver. }
  set (l2 := alter _ _ _). set (p2 := if decide (k = n) then set_parent (Some init) p1 else p1).
  assert (l2 !! k = Some p2) as Hl2.
  { subst l2 p2. destruct (decide (k = n)) as [-> |]; [by rewrite list_lookup_alter_eq, Hp1|by rewrite list_lookup_alter_ne]. }
  assert (p_pid p2 = p_pid p1 ∧ p_chan p2 = p_chan p1 ∧ p_state p2 = p_state p1) as (Hi2 & Hc2 & Hs2).
  { subst p2. by destruct (decide (k = n)). }
  assert (p_parent p2 = if bool_decide (k = n ∧ p_parent p = Some cur) then Some init else p_parent p1) as Hpar2.
  { subst p2. destruct (decide (k = n)) as [-> |]; [rewrite bool_decide_true by naive_solver|rewrite bool_decide_false by naive_solver]; done. }
  clearbody p2 l2. destruct (in_state ZOMBIE r1) eqn:Hz.
  - destruct (wakeup1_Some (ChProc init) l2 k p2 Hl2) as (p3 & Hp3 & Hi3 & Hpar3 & Hc3 & Hw3 & Hsl). exists p3. split; [done|].
    destruct Hps as (Hpi & Hpc & Hps). eapply passed_S; [split_and!; apply Hpi || apply Hpc || apply Hps|congruence..| |congruence|].
    + eapply is_woken_trans; [by left|done].
    + intros Hst Hch. exfalso. apply (Hsl Hst). congruence.
  - exists p2. split; [done|]. eapply passed_S; [done..|by left|done|]. intros _ _ q [= <-]%(eq_trans (eq_sym Hr)) _.
    rewrite <- (is_woken_zombie _ _ Hwr). by apply bool_decide_eq_false in Hz.
Qed.

Lemma length_reparent_fold cur init l ks : length (foldl (reparent_one cur init) l ks) = length l.
Proof.
  revert l. induction ks as [|k ks IH]; intros l; [done|]. cbn [foldl]. rewrite IH. unfold reparent_one.
  destruct (l !! k) as [p|]; [|done]. destruct (child_of cur p), (in_state ZOMBIE p); unfold wakeup1;
    by rewrite ?length_fmap, ?length_alter.
Qed.
(** Slot [k] of the table after the process [cur], whose slot was [me], has exited. *)
Definition exited (cur init : nat) (me : proc) (l : list proc) (k : nat) (p p' : proc) : Prop :=
  p_pid p' = p_pid p ∧
  p_parent p' = (if bool_decide (p_parent p = Some cur) then Some init else p_parent p) ∧
  p_chan p' = p_chan p ∧ (k = cur → p_state p' = ZOMBIE) ∧ (k ≠ cur → is_woken p p') ∧
  (p_state p' = SLEEPING → ∀ j, p_chan p = Some (ChProc j) →
   p_parent me ≠ Some j ∧
   (j = init → ∀ i q, l !! i = Some q → p_parent q = Some cur → p_state q ≠ ZOMBIE)).
Definition wake_parent (me : proc) (l : list proc) : list proc :=
  match p_parent me with Some q => wakeup1 (ChProc q) l | None => l end.
Lemma wake_parent_Some me l k p :
  l !! k = Some p →
  ∃ p', wake_parent me l !! k = Some p' ∧ p_pid p' = p_pid p ∧ p_parent p' = p_parent p ∧ p_chan p' = p_chan p ∧
    is_woken p p' ∧ (p_state p' = SLEEPING → ∀ j, p_chan p = Some (ChProc j) → p_parent me ≠ Some j).
Proof.
  intros Hp. unfold wake_parent. destruct (p_parent me) as [q|].
  - destruct (wakeup1_Some (ChProc q) l k p Hp) as (p' & H). exists p'. naive_solver congruence.
  - exists p. split_and!; [done..|by left|done].
Qed.
Lemma exit_table_length cur init l : length (exit_table cur init l) = length l.
Proof.
  unfold exit_table. rewrite length_alter, length_reparent_fold.
  destruct (l !! cur) as [me|]; [|done]. by destruct (p_parent me); unfold wakeup1; rewrite ?length_fmap.
Qed.
Lemma exit_table_Some cur init l me k p :
  l !! cur = Some me → l !! k = Some p →
  ∃ p', exit_table cur init l !! k = Some p' ∧ exited cur init me l k p p'.
Proof.
  intros Hme Hp. unfold exit_table. rewrite Hme. fold (wake_parent me l).
  destruct (wake_parent_Some me l k p Hp) as (p1 & Hp1 & Hi1 & Hpar1 & Hc1 & Hw1 & Hs1).
  destruct (reparent_fold cur init (wake_parent me l) (length (wake_parent me l)) k p1) as (p2 & Hp2 & Hps);
    [done..|].
  destruct Hps as (Hi2 & Hc2 & Hpar2 & Hw2 & Hs2). apply lookup_lt_Some in Hp1 as Hlt.
  replace (bool_decide ((k < _)%nat ∧ p_parent p1 = Some cur)) with (bool_decide (p_parent p = Some cur)) in Hpar2
    by (apply bool_decide_ext; rewrite Hpar1; tauto).
  rewrite Hpar1 in Hpar2.
  exists (if decide (k = cur) then set_state ZOMBIE p2 else p2). split.
  { destruct (decide (k = cur)) as [-> |]; [by rewrite list_lookup_alter_eq, Hp2|by rewrite list_lookup_alter_ne]. }
  unfold exited. destruct (decide (k = cur)) as [-> |Hk]; cbn; (split_and!; [congruence..| | |]); try done.
  - intros _. by eapply is_woken_trans.
  - intros Hst j Hj. split.
    + apply Hs1; [by eapply is_woken_sleeping|done].
    + intros -> i q Hq Hqc. destruct (wake_parent_Some me l i q Hq) as (q1 & Hq1 & _ & Hqp & _ & Hqw & _).
      rewrite <- (is_woken_zombie _ _ Hqw). apply (Hs2 Hst ltac:(congruence) i); [by eapply lookup_lt_Some|done|congruence].
Qed.

Section table.
Context {BS : BlockStore} (devsw : devsw_t (fstate BS)) (kend kdata : Z).
Abbreviation PS := (pstate BS).

Lemma pc_kern {A} (m : M (kstate BS) A) (Q : A → PS → Prop) s : (∀ a k, Q a (set_k k s)) → pc (kern m) Q s.
Proof. unfold pc, kern, zoom. destruct (m (ps_k s)); auto. Qed.
Lemma pc_getproc i (Q : proc → PS → Prop) s : (∀ p, ps_table s !! i = Some p → Q p s) → pc (getproc i) Q s.
Proof. unfold getproc. intros H. by apply pc_lift. Qed.
Lemma pc_modp i f (Q : unit → PS → Prop) s :
  (∀ p, ps_table s !! i = Some p → Q tt (set_table (<[i := f p]> (ps_table s)) s)) → pc (modp i f) Q s.
Proof.
  intros H. apply pc_bind, pc_getproc. intros p Hp. apply pc_modify.
  rewrite (alter_at _ _ _ _ Hp). by apply H.
Qed.

(** [s'] is [s] with slot [i] holding [p], apart from the kernel's other state. *)
Definition put_slot (i : nat) (p : proc) (n : Z) (s s' : PS) : Prop :=
  ps_table s' = <[i := p]> (ps_table s) ∧ ps_nextpid s' = n ∧ ps_initproc s' = ps_initproc s.
Lemma put_slot_k i p n s s' k : put_slot i p n s s' → put_slot i p n s (set_k k s').
Proof. by destruct s'. Qed.
Lemma put_slot_get i p n s s' q r :
  put_slot i p n s s' → ps_table s !! i = Some r → ps_table s' !! i = Some q → q = p.
Proof.
  intros (Ht & _ & _) Hr. rewrite Ht, list_lookup_insert_eq by (by eapply lookup_lt_Some). by intros [= <-].
Qed.
Lemma pc_modp_slot i f p n r s s' (Q : unit → PS → Prop) :
  ps_table s !! i = Some r → put_slot i p n s s' →
  (∀ s'', put_slot i (f p) n s s'' → Q tt s'') → pc (modp i f) Q s'.
Proof.
  intros Hr Hs HQ. apply pc_modp. intros q Hq. apply HQ.
  rewrite (put_slot_get _ _ _ _ _ _ _ Hs Hr Hq). destruct Hs as (Ht & Hn & Hi), s'. cbn in *.
  split_and!; [cbn; by rewrite Ht, list_insert_insert_eq|done..].
Qed.

Lemma pc_allocproc s :
  pc allocproc (λ r s',
    r = None ∧ s' = s ∨
    ∃ i p q, find_proc (in_state UNUSED) (ps_table s) = Some i ∧ ps_table s !! i = Some p ∧
      put_slot i q (s32 (ps_nextpid s + 1)) s s' ∧
      p_pid q = ps_nextpid s ∧ p_parent q = p_parent p ∧ p_killed q = p_killed p ∧
      (r = None ∧ p_state q = UNUSED ∨ r = Some i ∧ p_state q = EMBRYO)) s.
Proof.
  apply pc_bind, pc_gets. destruct (find_proc _ _) as [i|] eqn:E; [|by left].
  destruct (proj1 (find_proc_Some _ _ _) E) as [(p & Hp & Hst) _].
  apply pc_bind, pc_modp. intros ? [= <-]%(eq_trans (eq_sym Hp)). apply pc_bind, pc_gets.
  apply pc_bind, pc_modify. cbn [set_table set_nextpid ps_nextpid].
  set (s1 := set_nextpid _ _).
  assert (put_slot i (set_state EMBRYO p) (s32 (ps_nextpid s + 1)) s s1) as H1 by (by destruct s).
  clearbody s1. apply pc_bind. eapply pc_modp_slot; [done..|]. intros s2 H2.
  apply pc_bind, pc_kern. intros a k. apply pc_bind.
  eapply pc_modp_slot; [done|by apply put_slot_k|]. clear dependent s2 s1. intros s3 H3.
  destruct (a =? 0); apply pc_bind; (eapply pc_modp_slot; [done..|]); intros s4 H4; apply pc_ret; right; naive_solver.
Qed.

Lemma pc_dup_files cur i p q n s s' :
  ps_table s !! i = Some p → put_slot i q n s s' →
  pc (dup_files cur i) (λ _ s', ∃ q', put_slot i q' n s s' ∧ slot_of q' = slot_of q ∧ p_killed q' = p_killed q) s'.
Proof.
  intros Hp Hs. apply pc_mfor; [|by exists q]. intros x s1 (q1 & H1 & Hq1 & Hk1).
  apply pc_bind, pc_getproc. intros c _. destruct (mjoin _) as [f|]; [|apply pc_ret; eauto 10].
  apply pc_bind, pc_kern. intros f' k. eapply pc_modp_slot; [done|by apply put_slot_k|].
  intros s2 H2. eexists. by split_and?.
Qed.

Lemma pc_fork cur s :
  pc (fork kend kdata cur) (λ r s',
    s' = s ∧ r = -1 ∨
    ∃ i p q, find_proc (in_state UNUSED) (ps_table s) = Some i ∧ ps_table s !! i = Some p ∧
      put_slot i q (s32 (ps_nextpid s + 1)) s s' ∧ p_pid q = ps_nextpid s ∧ p_killed q = p_killed p ∧
      (p_state q = UNUSED ∧ p_parent q = p_parent p ∧ r = -1 ∨
       p_state q = RUNNABLE ∧ p_parent q = Some cur ∧ r = ps_nextpid s)) s.
Proof.
  apply pc_bind. eapply pc_mono; [apply pc_allocproc|].
  intros r s1 [[-> ->]|(i & p & q & Hst & Hp & H1 & Hpid & Hpar & Hkl & Hr)]; [by left|].
  destruct Hr as [[-> Hq]|[-> Hq]]; [apply pc_ret; right; naive_solver|].
  apply pc_bind, pc_getproc. intros c _. apply pc_bind, pc_kern. intros d k. apply pc_bind.
  eapply pc_modp_slot; [done|by apply put_slot_k|]. clear dependent s1. intros s2 H2. destruct (d =? 0).
  - apply pc_bind, pc_getproc. intros q' _. apply pc_bind, pc_kern. intros [] k'.
    apply pc_bind. eapply pc_modp_slot; [done|by apply put_slot_k|]. intros s3 H3.
    apply pc_bind. eapply pc_modp_slot; [done..|]. intros s4 H4. apply pc_ret. right. naive_solver.
  - do 3 (apply pc_bind; eapply pc_modp_slot; [done..|]; clear dependent s2; intros s2 H2).
    apply pc_bind. eapply pc_mono; [by eapply pc_dup_files|]. clear dependent s2. intros _ s2 (q' & H2 & [= Hs Hi Hp' Hc] & Hk).
    apply pc_bind, pc_lift. intros cwd _. apply pc_bind, pc_kern. intros cwd' k'.
    apply pc_bind. eapply pc_modp_slot; [done|by apply put_slot_k|]. intros s3 H3.
    apply pc_bind, pc_getproc. intros q'' Hq''. pose proof (put_slot_get _ _ _ _ _ _ _ H3 Hp Hq'') as ->.
    do 2 (apply pc_bind; eapply pc_modp_slot; [exact Hp|exact H3|]; clear dependent s3; intros s3 H3).
    apply pc_ret. right. cbn in Hi, Hp', Hk. exists i, p. eexists. refine (conj Hst (conj Hp (conj H3 _))).
    cbn. split_and!; [congruence..|right]. split_and!; congruence.
Qed.
End table.
