(* ===== verification/ProcInv.v ===== *)
(** * An invariant of the process system

    Several processors run the operations of Proc.v ([pstep]); the invariant of
    the reachable states covers the processors, the process tree, the process
    identifiers and the sleep of wait(). *)
From stdpp Require Import base list gmap numbers option strings sets relations.
From Stdlib Require Import ZArith Lia.
From S2P Require Import Prelude Kstring Layout BlockStore Log LogSpec Commit Crash Fs FsExample Kalloc Pipe File FileSpec Vm Proc ProcSpec.
Open Scope Z_scope.

(** A processor: the process it runs and the scheduler's place in the table. *)
Abbreviation cpu := (option nat * nat)%type.

(** ** The four parts of the invariant *)
Definition alive (p : proc) : Prop := p_state p ≠ UNUSED ∧ p_state p ≠ ZOMBIE.

(** A process is RUNNING exactly when a processor runs it, and then one only. *)
Record cpus_ok (l : list proc) (cpus : list cpu) : Prop := {
  co_running c i pos : cpus !! c = Some (Some i, pos) → ∃ p, l !! i = Some p ∧ p_state p = RUNNING;
  co_cpu i p : l !! i = Some p → p_state p = RUNNING → ∃ c pos, cpus !! c = Some (Some i, pos);
  co_one c c' i pos pos' : cpus !! c = Some (Some i, pos) → cpus !! c' = Some (Some i, pos') → c = c' }.

(** init lives, and so does the parent of every process that has one. *)
Record tree_ok (l : list proc) (init : option nat) : Prop := {
  to_embryo i p : l !! i = Some p → p_state p ≠ EMBRYO;
  to_init : ∃ i p, init = Some i ∧ l !! i = Some p ∧ alive p ∧ p_parent p = None;
  to_self i p : l !! i = Some p → p_parent p ≠ Some i;
  to_parent i p j : l !! i = Some p → p_parent p = Some j →
    p_state p ≠ UNUSED ∧ ∃ q, l !! j = Some q ∧ alive q }.

(** No lost wakeup: a process asleep in wait() has no zombie child. *)
Definition wait_ok (l : list proc) : Prop := ∀ i p j,
  l !! i = Some p → p_state p = SLEEPING → p_chan p = Some (ChProc j) →
  j = i ∧ ∀ k q, l !! k = Some q → p_parent q = Some i → p_state q ≠ ZOMBIE.

(** The identifiers of the processes differ, and nextpid is above them. *)
Record pids_ok (l : list proc) (n : Z) : Prop := {
  po_range i p : l !! i = Some p → p_state p ≠ UNUSED → 0 < p_pid p < n;
  po_next : 0 < n < 2 ^ 31;
  po_distinct i j p q : l !! i = Some p → l !! j = Some q → p_state p ≠ UNUSED → p_state q ≠ UNUSED →
    p_pid p = p_pid q → i = j }.

(** ** One slot changes *)
Section one_slot.
Context (l : list proc) (i : nat) (p q : proc).
Hypothesis Hp : l !! i = Some p.

Lemma at_slot : <[i := q]> l !! i = Some q.
Proof. apply list_lookup_insert_eq. by eapply lookup_lt_Some. Qed.

Lemma cpus_ok_put cpus : cpus_ok l cpus → (p_state p = RUNNING ↔ p_state q = RUNNING) → cpus_ok (<[i := q]> l) cpus.
Proof.
  intros [Hr Hc Ho] Hpq. split; [| |done].
  - intros c k pos (r & Hk & Hst)%Hr. destruct (decide (i = k)) as [<- |]; [|by rewrite list_lookup_insert_ne by done; eauto].
    exists q. split; [apply at_slot|]. apply Hpq. congruence.
  - intros k r [[<- ->]|[_ Hk]]%insert_cases Hst; [|eauto]. apply (Hc i p Hp). by apply Hpq.
Qed.
Lemma cpus_ok_stop cpus c pos :
  cpus_ok l cpus → cpus !! c = Some (Some i, pos) → p_state q ≠ RUNNING →
  cpus_ok (<[i := q]> l) (<[c := (None, pos)]> cpus).
Proof.
  intros [Hr Hc Ho] Hci Hq. split.
  - intros c' k pos' [[_ ?]|[Hne Hc']]%insert_cases; [done|]. destruct (Hr _ _ _ Hc') as (r & Hk & Hst). exists r.
    rewrite list_lookup_insert_ne; [done|]. intros ->. by apply Hne, (Ho c c' k pos pos').
  - intros k r [[_ ->]|[Hne Hk]]%insert_cases Hst; [done|]. destruct (Hc _ _ Hk Hst) as (c' & pos' & Hc').
    exists c', pos'. rewrite list_lookup_insert_ne; [done|]. intros ->. congruence.
  - intros c1 c2 k pos1 pos2 [[_ ?]|[_ H1]]%insert_cases [[_ ?]|[_ H2]]%insert_cases; [done..|by eapply Ho].
Qed.
Lemma cpus_ok_start cpus c pos pos' :
  cpus_ok l cpus → cpus !! c = Some (None, pos) → p_state p ≠ RUNNING → p_state q = RUNNING →
  cpus_ok (<[i := q]> l) (<[c := (Some i, pos')]> cpus).
Proof.
  intros [Hr Hc Ho] Hci Hst Hq.
  assert (∀ c' pos1, cpus !! c' ≠ Some (Some i, pos1)) as Hno.
  { intros c' pos1 (r & Hr' & ?)%Hr. congruence. }
  split.
  - intros c' k pos1 [[_ [= -> ->]]|[_ Hc']]%insert_cases; [exists q; split; [apply at_slot|done]|].
    destruct (Hr _ _ _ Hc') as (r & Hk & Hs). exists r. rewrite list_lookup_insert_ne; [done|]. intros ->. by apply Hno in Hc'.
  - intros k r [[<- ->]|[Hne Hk]]%insert_cases Hs.
    + exists c, pos'. apply list_lookup_insert_eq. by eapply lookup_lt_Some.
    + destruct (Hc _ _ Hk Hs) as (c' & pos1 & Hc'). exists c', pos1. rewrite list_lookup_insert_ne; [done|congruence].
  - intros c1 c2 k pos1 pos2 [[<- [= -> ->]]|[_ H1]]%insert_cases [[<- ?]|[_ H2]]%insert_cases; [done| | |by eapply Ho].
    + by apply Hno in H2.
    + naive_solver.
Qed.

Lemma tree_ok_put init :
  tree_ok l init → (alive p → alive q ∧ p_parent q = p_parent p) → p_state q ≠ EMBRYO →
  (∀ j, p_parent q = Some j → j ≠ i ∧ p_state q ≠ UNUSED ∧ ∃ r, l !! j = Some r ∧ alive r) →
  tree_ok (<[i := q]> l) init.
Proof.
  intros [He Hi Hself Hpar] Ha Hq Hqpar.
  assert (∀ j r, l !! j = Some r → alive r → ∃ r, <[i := q]> l !! j = Some r ∧ alive r) as Hlive.
  { intros j r Hj Hr. destruct (decide (i = j)) as [<- |]; [|rewrite list_lookup_insert_ne by done; eauto].
    exists q. split; [apply at_slot|]. apply Ha. congruence. }
  split.
  - intros k r [[_ ->]|[_ ?]]%insert_cases; [done|eauto].
  - destruct Hi as (j & r & -> & Hj & Hr & Hnone). exists j. destruct (decide (i = j)) as [<- |].
    + assert (r = p) as -> by congruence. destruct (Ha Hr) as [? Hqp]. exists q. rewrite Hqp. by split_and!; [| apply at_slot| |].
    + exists r. by rewrite list_lookup_insert_ne by done.
  - intros k r [[<- ->]|[_ ?]]%insert_cases; [|eauto]. intros Hj. by destruct (Hqpar _ Hj).
  - intros k r j [[_ ->]|[_ Hk]]%insert_cases Hj; [destruct (Hqpar j Hj) as (_ & ? & r' & ? & ?)|destruct (Hpar _ _ _ Hk Hj) as (? & r' & ? & ?)]; eauto.
Qed.

Lemma wait_ok_put :
  wait_ok l → (p_state q = ZOMBIE → p_state p = ZOMBIE ∧ p_parent q = p_parent p) →
  (∀ j, p_state q = SLEEPING → p_chan q = Some (ChProc j) → p_state p = SLEEPING ∧ p_chan p = Some (ChProc j) ∨
     j = i ∧ ∀ k r, l !! k = Some r → p_parent r = Some i → p_state r ≠ ZOMBIE) →
  wait_ok (<[i := q]> l).
Proof.
  intros Hw Hz Hs. assert (∀ m k r, (∀ k r, l !! k = Some r → p_parent r = Some m → p_state r ≠ ZOMBIE) →
    <[i := q]> l !! k = Some r → p_parent r = Some m → p_state r ≠ ZOMBIE) as Hno.
  { intros m k r Hm [[_ ->]|[_ ?]]%insert_cases Hpm; [|eauto]. intros [Hzp Heq]%Hz. eapply Hm; [done|congruence|done]. }
  intros k r j [[<- ->]|[_ Hk]]%insert_cases Hst Hch.
  - destruct (Hs j Hst Hch) as [[Hst' Hch']|[-> Hm]].
    + destruct (Hw _ _ _ Hp Hst' Hch') as [-> Hm]. split; [done|eauto].
    + split; [done|eauto].
  - destruct (Hw _ _ _ Hk Hst Hch) as [-> Hm]. split; [done|eauto].
Qed.

Lemma pids_ok_put n n' :
  pids_ok l n → n ≤ n' < 2 ^ 31 →
  (p_state q ≠ UNUSED → p_state p ≠ UNUSED ∧ p_pid q = p_pid p ∨ p_pid q = n ∧ n < n') →
  pids_ok (<[i := q]> l) n'.
Proof.
  intros [Hr Hn Hd] Hle Hq.
  assert (∀ j r, i ≠ j → l !! j = Some r → p_state r ≠ UNUSED → p_state q ≠ UNUSED → p_pid r ≠ p_pid q) as Hfresh.
  { intros j r Hne Hj Hur Huq Heq. destruct (Hq Huq) as [[Hup Hpid]|[Hpid _]].
    - apply Hne, (Hd i j p r Hp Hj); congruence.
    - specialize (Hr j r Hj Hur). lia. }
  split.
  - intros k r [[_ ->]|[_ Hk]]%insert_cases Hu; [|specialize (Hr _ _ Hk Hu); lia].
    destruct (Hq Hu) as [[Hup ->]|?]; [specialize (Hr _ _ Hp Hup)|]; lia.
  - lia.
  - intros j k r r' [[<- ->]|[Hj1 Hj]]%insert_cases [[<- ->]|[Hk1 Hk]]%insert_cases Hu Hu' Heq; [done| | |by eapply Hd].
    + by destruct (Hfresh k r').
    + by destruct (Hfresh j r).
Qed.
End one_slot.

(** ** wakeup and exit *)
Lemma lookup_inv (f : list proc → list proc) (l : list proc) (R : nat → proc → proc → Prop) k p' :
  length (f l) = length l → (∀ k p, l !! k = Some p → ∃ p', f l !! k = Some p' ∧ R k p p') →
  f l !! k = Some p' → ∃ p, l !! k = Some p ∧ R k p p'.
Proof.
  intros Hlen HR Hp'. destruct (lookup_lt_is_Some_2 l k) as [p Hp]; [rewrite <- Hlen; by eapply lookup_lt_Some|].
  destruct (HR k p Hp) as (p1 & Hp1 & HR1). exists p. split; [done|]. congruence.
Qed.
Lemma is_woken_running p p' : is_woken p p' → p_state p' = RUNNING ↔ p_state p = RUNNING.
Proof. unfold is_woken. intuition congruence. Qed.
Lemma is_woken_alive p p' : is_woken p p' → alive p' ↔ alive p.
Proof. unfold is_woken, alive. intuition congruence. Qed.
Lemma is_woken_unused p p' : is_woken p p' → p_state p' = UNUSED ↔ p_state p = UNUSED.
Proof. unfold is_woken. intuition congruence. Qed.

(** The identifiers survive any change that keeps them and uses no new slot. *)
Lemma pids_ok_keep l l' n :
  pids_ok l n →
  (∀ k p', l' !! k = Some p' → p_state p' ≠ UNUSED →
    ∃ p, l !! k = Some p ∧ p_state p ≠ UNUSED ∧ p_pid p' = p_pid p) →
  pids_ok l' n.
Proof.
  intros [Hr Hn Hd] Hk. split; [|done|].
  - intros k p' Hp' Hu. destruct (Hk k p' Hp' Hu) as (p & ? & ? & ->). eauto.
  - intros i j p' q' Hp' Hq' Hu Hu' Heq.
    destruct (Hk _ _ Hp' Hu) as (p & ? & ? & Hpp), (Hk _ _ Hq' Hu') as (q & ? & ? & Hqq).
    apply (Hd i j p q); congruence.
Qed.

Section wakeup.
Context (c : schan) (l : list proc).
Lemma wakeup1_inv k p' :
  wakeup1 c l !! k = Some p' →
  ∃ p, l !! k = Some p ∧ p_pid p' = p_pid p ∧ p_parent p' = p_parent p ∧ p_chan p' = p_chan p ∧ is_woken p p'.
Proof.
  intros Hp'. apply (lookup_inv (wakeup1 c) l (λ k p p', p_pid p' = p_pid p ∧ p_parent p' = p_parent p ∧ p_chan p' = p_chan p ∧ is_woken p p'));
    [apply length_fmap| |done].
  intros k' p Hp. destruct (wakeup1_Some c l k' p Hp) as (q & ? & ? & ? & ? & ? & _). eauto 10.
Qed.
Lemma cpus_ok_wakeup cpus : cpus_ok l cpus → cpus_ok (wakeup1 c l) cpus.
Proof.
  intros [Hr Hc Ho]. split; [| |done].
  - intros k i pos (p & Hp & Hst)%Hr. destruct (wakeup1_Some c l i p Hp) as (q & ? & _ & _ & _ & Hw & _).
    exists q. by rewrite (is_woken_running _ _ Hw).
  - intros i p' (p & Hp & _ & _ & _ & Hw)%wakeup1_inv. rewrite (is_woken_running _ _ Hw). by apply Hc.
Qed.
Lemma tree_ok_wakeup init : tree_ok l init → tree_ok (wakeup1 c l) init.
Proof.
  intros [He Hi Hself Hpar].
  assert (∀ j r, l !! j = Some r → alive r → ∃ r, wakeup1 c l !! j = Some r ∧ alive r) as Hlive.
  { intros j r Hj Hr. destruct (wakeup1_Some c l j r Hj) as (q & ? & _ & _ & _ & Hw & _).
    exists q. by rewrite (is_woken_alive _ _ Hw). }
  split.
  - intros i p' (p & Hp & _ & _ & _ & Hw)%wakeup1_inv. specialize (He i p Hp). destruct Hw; intuition congruence.
  - destruct Hi as (j & r & -> & Hj & Hr & Hnone). destruct (wakeup1_Some c l j r Hj) as (q & ? & _ & Hqp & _ & Hw & _).
    exists j, q. by rewrite (is_woken_alive _ _ Hw), Hqp.
  - intros i p' (p & Hp & _ & -> & _)%wakeup1_inv. eauto.
  - intros i p' j (p & Hp & _ & Hpp & _ & Hw)%wakeup1_inv. rewrite Hpp, (is_woken_unused _ _ Hw). intros Hj.
    destruct (Hpar _ _ _ Hp Hj) as (? & r & ? & ?). eauto.
Qed.
Lemma wait_ok_wakeup : wait_ok l → wait_ok (wakeup1 c l).
Proof.
  intros Hw i p' j (p & Hp & _ & _ & Hch & Hwk)%wakeup1_inv Hst. rewrite Hch. intros Hj.
  destruct (Hw _ _ _ Hp (is_woken_sleeping _ _ Hwk Hst) Hj) as [-> Hk]. split; [done|].
  intros k q' (q & Hq & _ & -> & _ & Hwq)%wakeup1_inv. rewrite (is_woken_zombie _ _ Hwq). eauto.
Qed.
Lemma pids_ok_wakeup n : pids_ok l n → pids_ok (wakeup1 c l) n.
Proof.
  intros H. eapply pids_ok_keep; [done|]. intros k p' (p & Hp & Hi & _ & _ & Hw)%wakeup1_inv.
  rewrite (is_woken_unused _ _ Hw). eauto.
Qed.
End wakeup.

Section exit_inv.
Context (l : list proc) (cur init : nat) (me : proc).
Hypothesis Hme : l !! cur = Some me.
Hypothesis Hrun : p_state me = RUNNING.
Hypothesis Hinit : init ≠ cur.

Lemma exit_inv k p' :
  exit_table cur init l !! k = Some p' → ∃ p, l !! k = Some p ∧ exited cur init me l k p p'.
Proof.
  apply (lookup_inv (exit_table cur init) l (exited cur init me l)); [apply exit_table_length|].
  intros k' p. by apply exit_table_Some.
Qed.
Lemma cpus_ok_exit cpus c pos :
  cpus_ok l cpus → cpus !! c = Some (Some cur, pos) →
  cpus_ok (exit_table cur init l) (<[c := (None, pos)]> cpus).
Proof.
  intros [Hr Hc Ho] Hcc. split.
  - intros c' k pos' [[_ ?]|[Hne Hc']]%insert_cases; [done|]. destruct (Hr _ _ _ Hc') as (r & Hk & Hst).
    destruct (exit_table_Some cur init l me k r Hme Hk) as (r' & ? & _ & _ & _ & _ & Hw & _). exists r'. split; [done|].
    rewrite is_woken_running; [done|]. apply Hw. intros ->. by apply Hne, (Ho c c' cur pos pos').
  - intros k r (p & Hp & _ & _ & _ & Hz & Hw & _)%exit_inv Hst. destruct (decide (k = cur)) as [-> |Hk].
    { by rewrite Hz in Hst. }
    rewrite (is_woken_running _ _ (Hw Hk)) in Hst. destruct (Hc _ _ Hp Hst) as (c' & pos' & Hc').
    exists c', pos'. rewrite list_lookup_insert_ne; [done|]. intros ->. congruence.
  - intros c1 c2 k pos1 pos2 [[_ ?]|[_ H1]]%insert_cases [[_ ?]|[_ H2]]%insert_cases; [done..|by eapply Ho].
Qed.
Lemma tree_ok_exit : tree_ok l (Some init) → tree_ok (exit_table cur init l) (Some init).
Proof.
  intros [He (j & ri & [= <-] & Hri & Hai & Hni) Hself Hpar].
  assert (∀ j r, j ≠ cur → l !! j = Some r → alive r → ∃ r, exit_table cur init l !! j = Some r ∧ alive r) as Hlive.
  { intros j r Hne Hj Hr. destruct (exit_table_Some cur init l me j r Hme Hj) as (q & ? & _ & _ & _ & _ & Hw & _).
    exists q. rewrite is_woken_alive; [done|auto]. }
  split.
  - intros i p' (p & Hp & _ & _ & _ & Hz & Hw & _)%exit_inv. specialize (He i p Hp).
    destruct (decide (i = cur)) as [-> |Hk]; [by rewrite Hz|]. destruct (Hw Hk); intuition congruence.
  - destruct (exit_table_Some cur init l me init ri Hme Hri) as (q & ? & _ & Hqp & _ & _ & Hw & _). exists init, q.
    rewrite is_woken_alive by auto. rewrite Hqp, Hni. by rewrite bool_decide_false.
  - intros i p' (p & Hp & _ & Hpp & _)%exit_inv. rewrite Hpp. case_bool_decide; [|eauto]. intros [= <-]. congruence.
  - intros i p' j (p & Hp & _ & Hpp & _ & Hz & Hw & _)%exit_inv. rewrite Hpp. intros Hj.
    assert (∃ j', p_parent p = Some j') as [j' Hj']. { case_bool_decide; eauto. }
    destruct (Hpar _ _ _ Hp Hj') as (Hu & r & Hr & Har). split.
    + destruct (decide (i = cur)) as [-> |Hk]; [by rewrite Hz|]. by rewrite is_woken_unused by auto.
    + case_bool_decide as Hc; simplify_eq; eauto. apply (Hlive j r); [congruence|done..].
Qed.
(** The parent was woken for the new zombie, init for the zombies it inherits. *)
Lemma wait_ok_exit : tree_ok l (Some init) → wait_ok l → wait_ok (exit_table cur init l).
Proof.
  intros Htree Hwt i p' j (p & Hp & _ & _ & Hch & Hz & Hw & Hsl)%exit_inv Hst. rewrite Hch. intros Hj.
  assert (i ≠ cur) as Hne by (intros ->; by rewrite Hz in Hst).
  destruct (Hwt _ _ _ Hp (is_woken_sleeping _ _ (Hw Hne) Hst) Hj) as [-> Hk]. split; [done|].
  destruct (Hsl Hst i Hj) as [Hparent Hinh].
  intros k q' (q & Hq & _ & Hqp & _ & Hqz & Hqw & _)%exit_inv. rewrite Hqp. intros Hki.
  destruct (decide (k = cur)) as [-> |Hkc].
  - assert (q = me) as -> by congruence. exfalso. case_bool_decide as Hc; [|done]. by apply (to_self _ _ Htree) in Hc.
  - rewrite (is_woken_zombie _ _ (Hqw Hkc)). case_bool_decide as Hc; [|by eapply Hk]. simplify_eq.
    by apply (Hinh eq_refl k).
Qed.
Lemma pids_ok_exit n : pids_ok l n → pids_ok (exit_table cur init l) n.
Proof.
  intros H. eapply pids_ok_keep; [done|]. intros k p' (p & Hp & Hi & _ & _ & Hz & Hw & _)%exit_inv Hu.
  exists p. split_and!; [done| |done]. destruct (decide (k = cur)) as [-> |Hk].
  - assert (p = me) as -> by congruence. congruence.
  - by rewrite <- (is_woken_unused _ _ (Hw Hk)).
Qed.
End exit_inv.

(** ** The system *)
Section system.
Context {BS : BlockStore} (devsw : devsw_t (fstate BS)) (kend kdata : Z).
Abbreviation PS := (pstate BS).

Record sys := mkSys { y_s : PS; y_cpus : list cpu }.

(** A step: an operation of proc.c by the process a processor runs, its
    scheduler, a wakeup from anywhere (an interrupt handler among others), or
    other kernel code ([ps_kern], [ps_own]: the memory, files, directory, name
    and trap frame of the running process).  nextpid has not yet run through all
    the identifiers at a fork. *)
Inductive pstep (y : sys) : sys → Prop :=
| ps_fork c i pos r s' :
    y_cpus y !! c = Some (Some i, pos) → ps_nextpid (y_s y) + 1 < 2 ^ 31 →
    fork kend kdata i (y_s y) = Ok r s' → pstep y (mkSys s' (y_cpus y))
| ps_exit_files c i pos s' :
    y_cpus y !! c = Some (Some i, pos) → exit_files kend i (y_s y) = Ok tt s' → pstep y (mkSys s' (y_cpus y))
| ps_exit c i pos s' :
    y_cpus y !! c = Some (Some i, pos) → ps_initproc (y_s y) ≠ Some i → exit_zombie i (y_s y) = Ok tt s' →
    pstep y (mkSys s' (<[c := (None, pos)]> (y_cpus y)))
| ps_wait c i pos pid s' :
    y_cpus y !! c = Some (Some i, pos) → wait_round kend i (y_s y) = Ok (Some pid) s' → pstep y (mkSys s' (y_cpus y))
| ps_wait_sleep c i pos s' :
    y_cpus y !! c = Some (Some i, pos) → wait_round kend i (y_s y) = Ok None s' →
    pstep y (mkSys s' (<[c := (None, pos)]> (y_cpus y)))
| ps_sleep c i pos a s' :
    y_cpus y !! c = Some (Some i, pos) → sleep i (ChAddr a) (y_s y) = Ok tt s' →
    pstep y (mkSys s' (<[c := (None, pos)]> (y_cpus y)))
| ps_yield c i pos s' :
    y_cpus y !! c = Some (Some i, pos) → yield i (y_s y) = Ok tt s' →
    pstep y (mkSys s' (<[c := (None, pos)]> (y_cpus y)))
| ps_kill pid r s' : kill pid (y_s y) = Ok r s' → pstep y (mkSys s' (y_cpus y))
| ps_wakeup a s' : wakeup (ChAddr a) (y_s y) = Ok tt s' → pstep y (mkSys s' (y_cpus y))
| ps_schedule c pos j s1 s' :
    y_cpus y !! c = Some (None, pos) → schedule pos (y_s y) = Ok (Some j) s1 → wakened j s1 = Ok tt s' →
    pstep y (mkSys s' (<[c := (Some j, S j)]> (y_cpus y)))
| ps_kern k : pstep y (mkSys (set_k k (y_s y)) (y_cpus y))
| ps_own c i pos p q :
    y_cpus y !! c = Some (Some i, pos) → ps_table (y_s y) !! i = Some p → slot_of q = slot_of p →
    pstep y (mkSys (set_table (<[i := q]> (ps_table (y_s y))) (y_s y)) (y_cpus y)).

Record proc_inv (y : sys) : Prop := {
  pi_cpus : cpus_ok (ps_table (y_s y)) (y_cpus y);
  pi_tree : tree_ok (ps_table (y_s y)) (ps_initproc (y_s y));
  pi_wait : wait_ok (ps_table (y_s y));
  pi_pids : pids_ok (ps_table (y_s y)) (ps_nextpid (y_s y)) }.

(** The state after userinit: one process, the processors idle. *)
Record booted (y : sys) : Prop := {
  bo_table : ∃ p rest, ps_table (y_s y) = p :: rest ∧ p_state p = RUNNABLE ∧ p_parent p = None ∧ p_pid p = 1 ∧
    Forall (λ q, p_state q = UNUSED ∧ p_parent q = None) rest;
  bo_next : ps_nextpid (y_s y) = 2;
  bo_init : ps_initproc (y_s y) = Some 0%nat;
  bo_cpus : Forall (λ c : cpu, c.1 = None) (y_cpus y) }.

(** *** What the operations do to the slots *)
Lemma put_slot_id i p (s : PS) : ps_table s !! i = Some p → put_slot i p (ps_nextpid s) s s.
Proof. intros Hp. split_and!; [by rewrite list_insert_id|done..]. Qed.
Lemma pc_modp_1 i f p (s : PS) : ps_table s !! i = Some p → pc (modp i f) (λ _, put_slot i (f p) (ps_nextpid s) s) s.
Proof. intros Hp. eapply pc_modp_slot; [done|by apply put_slot_id|done]. Qed.

Lemma pc_exit_files cur p s :
  ps_table s !! cur = Some p →
  pc (exit_files kend cur) (λ _ s', ∃ q, put_slot cur q (ps_nextpid s) s s' ∧ slot_of q = slot_of p) s.
Proof.
  intros Hp. apply pc_bind, pc_gets. case_bool_decide; [done|]. apply pc_bind. eapply pc_mono.
  { eapply (pc_mfor _ _ (λ s', ∃ q, put_slot cur q (ps_nextpid s) s s' ∧ slot_of q = slot_of p));
      [|exists p; split; [by apply put_slot_id|done]].
    intros fd s1 (q & H1 & Hq). apply pc_bind, pc_getproc. intros q' _. destruct (mjoin _) as [f|]; [|apply pc_ret; eauto].
    apply pc_bind, pc_kern. intros [] k. eapply pc_modp_slot; [done|by apply put_slot_k|]. intros s2 H2. eexists. by split. }
  cbn beta. intros [] s1 (q & H1 & Hq). apply pc_bind, pc_getproc. intros q' _. apply pc_bind, pc_lift. intros cwd _.
  apply pc_bind, pc_kern. intros [] k. eapply pc_modp_slot; [done|by apply put_slot_k|]. intros s2 H2. eexists. by split.
Qed.
Lemma pc_sleep cur c p s :
  ps_table s !! cur = Some p →
  pc (sleep cur c) (λ _, put_slot cur (set_state SLEEPING (set_chan (Some c) p)) (ps_nextpid s) s) s.
Proof.
  intros Hp. apply pc_bind. eapply pc_mono; [by apply pc_modp_1|]. intros ? s1 H1.
  eapply pc_modp_slot; [exact Hp|exact H1|done].
Qed.
(** A round of wait finds a zombie child and frees its slot, returns -1, or puts
    the process to sleep when it has children and none is a zombie. *)
Lemma pc_wait_round cur p s :
  ps_table s !! cur = Some p →
  pc (wait_round kend cur) (λ r s',
    (∃ i q, ps_table s !! i = Some q ∧ p_parent q = Some cur ∧ p_state q = ZOMBIE ∧
       put_slot i (reaped q) (ps_nextpid s) s s' ∧ r = Some (p_pid q)) ∨
    s' = s ∧ r = Some (-1) ∨
    (∀ k q, ps_table s !! k = Some q → p_parent q = Some cur → p_state q ≠ ZOMBIE) ∧ r = None ∧
      put_slot cur (set_state SLEEPING (set_chan (Some (ChProc cur)) p)) (ps_nextpid s) s s') s.
Proof.
  intros Hp. apply pc_bind, pc_gets. destruct (find_proc _ (ps_table s)) as [i|] eqn:E.
  - apply find_proc_Some in E as [(q & Hq & Ht) _]. apply andb_prop in Ht as [Hc Hz].
    apply bool_decide_eq_true in Hc, Hz. apply pc_bind, pc_getproc. intros ? [= <-]%(eq_trans (eq_sym Hq)).
    apply pc_bind, pc_kern. intros [] k. apply pc_bind, pc_kern. intros [] k'. apply pc_bind.
    eapply pc_modp_slot; [done|by apply put_slot_k, put_slot_k, put_slot_id|]. intros s1 H1. apply pc_ret. left. eauto 10.
  - rewrite find_proc_None in E. apply pc_bind, pc_getproc. intros ? [= <-]%(eq_trans (eq_sym Hp)).
    destruct (find_proc (child_of cur) _); [|apply pc_ret; auto].
    destruct (p_killed p); [apply pc_ret; auto|]. apply pc_bind. eapply pc_mono; [by apply pc_sleep|].
    intros ? s1 H1. apply pc_ret. right; right. split; [|done]. intros k q Hq Hc Hz. specialize (E k q Hq).
    unfold child_of, in_state in E. by rewrite !bool_decide_true in E.
Qed.
Lemma pc_kill pid s :
  pc (kill pid) (λ _ s', s' = s ∨ ∃ i p q, ps_table s !! i = Some p ∧ put_slot i q (ps_nextpid s) s s' ∧
    p_pid q = p_pid p ∧ p_parent q = p_parent p ∧ p_chan q = p_chan p ∧ is_woken p q) s.
Proof.
  apply pc_bind, pc_gets. destruct (find_proc _ _) as [i|] eqn:E; [|by left].
  apply find_proc_Some in E as [(p & Hp & _) _]. apply pc_bind. eapply pc_mono; [by apply pc_modp_1|].
  intros ? s1 H1. apply pc_bind, pc_getproc. intros q Hq. pose proof (put_slot_get _ _ _ _ _ _ _ H1 Hp Hq) as ->.
  apply pc_bind. destruct (in_state SLEEPING _) eqn:Hst.
  - eapply pc_modp_slot; [exact Hp|exact H1|]. intros s2 H2. apply pc_ret. right. exists i, p. eexists.
    refine (conj Hp (conj H2 _)). split_and!; [done..|]. right. by apply bool_decide_eq_true in Hst.
  - apply pc_ret, pc_ret. right. exists i, p. eexists. refine (conj Hp (conj H1 _)). split_and!; [done..|]. by left.
Qed.
Lemma pc_schedule pos j s s1 s' :
  schedule pos s = Ok (Some j) s1 → wakened j s1 = Ok tt s' →
  ∃ p, ps_table s !! j = Some p ∧ p_state p = RUNNABLE ∧
    put_slot j (set_chan None (set_state RUNNING p)) (ps_nextpid s) s s'.
Proof.
  intros H1 H2. assert (pc (schedule pos) (λ r s1, ∀ j, r = Some j → ∃ p, ps_table s !! j = Some p ∧
    p_state p = RUNNABLE ∧ put_slot j (set_state RUNNING p) (ps_nextpid s) s s1) s) as H.
  { apply pc_bind, pc_gets. destruct (next_runnable pos (ps_table s)) as [i|] eqn:E; [|done].
    assert (∃ p, ps_table s !! i = Some p ∧ p_state p = RUNNABLE) as (p & Hp & Hst).
    { unfold next_runnable in E. destruct (find_proc _ (drop pos _)) as [k|] eqn:E'; [injection E as <-; rename E' into E|];
        apply find_proc_Some in E as [(p & Hp & Ht%bool_decide_eq_true) _]; exists p; by rewrite ?lookup_drop in Hp. }
    apply pc_bind. eapply pc_mono; [by apply pc_modp_1|]. intros ? s2 H2'. apply pc_ret. intros ? [= <-]. eauto. }
  destruct (pc_Ok _ _ _ _ _ H H1 j eq_refl) as (p & Hp & Hst & H1'). exists p. split_and?; [done..|].
  apply (λ H, pc_Ok _ (λ _, put_slot j (set_chan None (set_state RUNNING p)) (ps_nextpid s) s) _ _ _ H H2).
  eapply pc_modp_slot; [exact Hp|exact H1'|done].
Qed.

(** userinit makes the first process. *)
Lemma pc_userinit initcode s cpus :
  ps_table s = replicate (Z.to_nat NPROC) proc0 → ps_nextpid s = 1 → Forall (λ c : cpu, c.1 = None) cpus →
  pc (userinit devsw kdata initcode) (λ _ s', booted (mkSys s' cpus)) s.
Proof.
  intros Ht Hn Hc. apply pc_bind. eapply pc_mono; [apply pc_allocproc|].
  intros r s1 [[-> _]|(i & p & q & Hf & Hp & H1 & Hpid & Hpar & _ & Hr)]; [done|].
  assert (i = 0%nat) as -> by (rewrite Ht in Hf; change (Some 0%nat = Some i) in Hf; congruence).
  rewrite Ht in Hp. injection Hp as <-. rewrite Hn in H1, Hpid. change (s32 (1 + 1)) with 2 in H1.
  apply pc_bind, pc_modify, pc_bind, pc_lift. cbn [set_initproc ps_initproc]. intros ? ->.
  destruct Hr as [[? _]|[[= ->] _]]; [done|].
  assert (∀ q' s', put_slot 0 q' 2 (set_initproc (Some 0%nat) s) s' → p_pid q' = 1 → p_parent q' = None →
    p_state q' = RUNNABLE → booted (mkSys s' cpus)) as Hfin.
  { intros q' s' (Ht' & Hn' & Hi') ? ? ?. cbn in Ht'. rewrite Ht in Ht'. split; cbn; [|done..]. rewrite Ht'.
    exists q', (replicate 63 proc0). split_and!; [done..|]. by apply Forall_replicate. }
  assert (ps_table (set_initproc (Some 0%nat) s) !! 0%nat = Some proc0) as Hp by (cbn; by rewrite Ht).
  assert (put_slot 0 q 2 (set_initproc (Some 0%nat) s) (set_initproc (Some 0%nat) s1)) as H2 by (by destruct s, s1, H1 as (? & ? & ?)).
  clear H1. apply pc_bind, pc_kern. intros d k. apply pc_bind. eapply pc_modp_slot; [exact Hp|by apply put_slot_k|].
  clear dependent s1. intros s2 H2. destruct (d =? 0); [done|]. apply pc_bind, pc_kern. intros [] k2.
  apply pc_bind. eapply pc_modp_slot; [exact Hp|by apply put_slot_k|]. clear dependent s2. intros s2 H2.
  do 2 (apply pc_bind; eapply pc_modp_slot; [exact Hp|exact H2|]; clear dependent s2; intros s2 H2).
  apply pc_bind, pc_kern. intros ip k3.
  apply pc_bind. eapply pc_modp_slot; [exact Hp|by apply put_slot_k|]. clear dependent s2. intros s2 H2.
  eapply pc_modp_slot; [exact Hp|exact H2|]. clear dependent s2. intros s2 H2. by eapply Hfin.
Qed.

(** *** Every step keeps the invariant *)
Lemma proc_inv_put y i q n s' cpus :
  put_slot i q n (y_s y) s' → cpus_ok (<[i := q]> (ps_table (y_s y))) cpus →
  tree_ok (<[i := q]> (ps_table (y_s y))) (ps_initproc (y_s y)) → wait_ok (<[i := q]> (ps_table (y_s y))) →
  pids_ok (<[i := q]> (ps_table (y_s y))) n → proc_inv (mkSys s' cpus).
Proof. intros (Ht & Hn & Hi) ? ? ? ?. split; cbn; by rewrite ?Ht, ?Hn, ?Hi. Qed.

Section steps.
Context (y : sys).
Hypothesis Hy : proc_inv y.

Lemma running c i pos :
  y_cpus y !! c = Some (Some i, pos) → ∃ p, ps_table (y_s y) !! i = Some p ∧ p_state p = RUNNING.
Proof. apply (co_running _ _ (pi_cpus _ Hy)). Qed.

(** A change that leaves the slot alone as far as the invariant sees. *)
Lemma inv_same i p q s' :
  ps_table (y_s y) !! i = Some p → put_slot i q (ps_nextpid (y_s y)) (y_s y) s' →
  p_pid q = p_pid p → p_parent q = p_parent p → p_chan q = p_chan p → is_woken p q → proc_inv (mkSys s' (y_cpus y)).
Proof.
  intros Hp Hs Hpid Hpar Hch Hw. destruct Hy as [Hc Htree Hwt Hpids]. pose proof Htree as [He Hi Hse Ht]. pose proof (po_next _ _ Hpids). eapply proc_inv_put; [done|..].
  - apply (cpus_ok_put _ _ p); [done..|]. by rewrite (is_woken_running _ _ Hw).
  - apply (tree_ok_put _ _ p); [done|done|by rewrite (is_woken_alive _ _ Hw)| |].
    + specialize (He _ _ Hp). destruct Hw; intuition congruence.
    + intros j Hj. rewrite Hpar in Hj. destruct (Ht _ _ _ Hp Hj) as (? & ?).
      rewrite (is_woken_unused _ _ Hw). split; [|done]. intros ->. by apply (Hse i p).
  - apply (wait_ok_put _ _ p); [done|done|by rewrite (is_woken_zombie _ _ Hw)|].
    intros j Hst Hj. left. rewrite <- Hch. split; [by eapply is_woken_sleeping|done].
  - apply (pids_ok_put _ _ p _ Hp (ps_nextpid (y_s y))); [done|lia|]. rewrite (is_woken_unused _ _ Hw). auto.
Qed.

Lemma inv_fork c i pos r s' :
  y_cpus y !! c = Some (Some i, pos) → ps_nextpid (y_s y) + 1 < 2 ^ 31 →
  fork kend kdata i (y_s y) = Ok r s' → proc_inv (mkSys s' (y_cpus y)).
Proof.
  intros Hci Hmax Hf. destruct (running _ _ _ Hci) as (me & Hme & Hrun).
  destruct (pc_Ok _ _ _ _ _ (pc_fork kend kdata i (y_s y)) Hf) as [[-> _]|(k & p & q & Hf' & Hp & Hs & Hpid & _ & Hr)]; [by destruct y|].
  assert (p_state p = UNUSED) as Hst.
  { apply find_proc_Some in Hf' as [(p' & Hp' & Hst%bool_decide_eq_true) _]. congruence. }
  destruct Hy as [Hc Ht Hwt Hpids]. pose proof (po_next _ _ Hpids) as Hn. rewrite s32_small in Hs by lia.
  assert (p_parent p = None) as Hpn.
  { destruct (p_parent p) as [j|] eqn:Hj; [|done]. by destruct (to_parent _ _ Ht _ _ _ Hp Hj). }
  eapply proc_inv_put; [done|..].
  - apply (cpus_ok_put _ _ p); [done..|]. intuition congruence.
  - apply (tree_ok_put _ _ p); [done|done|unfold alive; intuition congruence|intuition congruence|].
    intros j Hj. destruct Hr as [(Hq & Hqp & _)|(Hq & Hqp & _)]; [congruence|]. assert (j = i) as -> by congruence.
    split_and!; [congruence..|]. exists me. unfold alive. by rewrite Hrun.
  - apply (wait_ok_put _ _ p); [done|done|intuition congruence|]. intros j Hj. intuition congruence.
  - apply (pids_ok_put _ _ p _ Hp (ps_nextpid (y_s y))); [done|lia|]. intros _. right. lia.
Qed.

(** The running process stops, RUNNABLE or asleep. *)
Lemma inv_stop c i pos p q s' :
  y_cpus y !! c = Some (Some i, pos) → ps_table (y_s y) !! i = Some p →
  put_slot i q (ps_nextpid (y_s y)) (y_s y) s' →
  p_pid q = p_pid p → p_parent q = p_parent p → p_state q = RUNNABLE ∨ p_state q = SLEEPING →
  (∀ j, p_state q = SLEEPING → p_chan q = Some (ChProc j) →
     j = i ∧ ∀ k r, ps_table (y_s y) !! k = Some r → p_parent r = Some i → p_state r ≠ ZOMBIE) →
  proc_inv (mkSys s' (<[c := (None, pos)]> (y_cpus y))).
Proof.
  intros Hci Hp Hs Hpid Hpar Hst Hsl. destruct (running _ _ _ Hci) as (me & Hme & Hrun).
  assert (me = p) as -> by congruence.
  destruct Hy as [Hc Htree Hwt Hpids]. pose proof Htree as [He Hi Hse Ht]. pose proof (po_next _ _ Hpids). eapply proc_inv_put; [done|..].
  - apply (cpus_ok_stop _ _ p); [done..|]. intuition congruence.
  - apply (tree_ok_put _ _ p); [done|done|unfold alive; intuition congruence|intuition congruence|].
    intros j Hj. rewrite Hpar in Hj. destruct (Ht _ _ _ Hp Hj) as (? & ?).
    split_and!; [|intuition congruence|done]. intros ->. by apply (Hse i p).
  - apply (wait_ok_put _ _ p); [done|done|intuition congruence|]. intros j Hq Hj. right. auto.
  - apply (pids_ok_put _ _ p _ Hp (ps_nextpid (y_s y))); [done|lia|]. intros _. left. split; congruence.
Qed.

Lemma inv_wait c i pos r s' :
  y_cpus y !! c = Some (Some i, pos) → wait_round kend i (y_s y) = Ok r s' →
  proc_inv (mkSys s' (match r with Some _ => y_cpus y | None => <[c := (None, pos)]> (y_cpus y) end)).
Proof.
  intros Hci Hw. destruct (running _ _ _ Hci) as (me & Hme & Hrun).
  destruct (pc_Ok _ _ _ _ _ (pc_wait_round i me (y_s y) Hme) Hw) as
    [(k & q & Hq & Hpar & Hz & Hs & ->)|[[-> ->]|(Hno & -> & Hs)]].
  - destruct Hy as [Hc Ht Hwt Hpids]. pose proof (po_next _ _ Hpids). eapply proc_inv_put; [done|..].
    + apply (cpus_ok_put _ _ q); [done..|]. cbn. rewrite Hz. done.
    + apply (tree_ok_put _ _ q); [done|done|unfold alive; intuition congruence|done..].
    + by apply (wait_ok_put _ _ q).
    + apply (pids_ok_put _ _ q _ Hq (ps_nextpid (y_s y))); [done|lia|done].
  - by destruct y.
  - eapply inv_stop; [done..|by right|]. cbn. intros j _ [= ->]. auto.
Qed.
Lemma inv_exit c i pos s' :
  y_cpus y !! c = Some (Some i, pos) → ps_initproc (y_s y) ≠ Some i → exit_zombie i (y_s y) = Ok tt s' →
  proc_inv (mkSys s' (<[c := (None, pos)]> (y_cpus y))).
Proof.
  intros Hci Hni He. destruct (running _ _ _ Hci) as (me & Hme & Hrun). destruct Hy as [Hc Ht Hwt Hpids].
  destruct (to_init _ _ Ht) as (init & _ & Hinit & _). assert (init ≠ i) as Hne by congruence.
  unfold exit_zombie, bind, gets in He. rewrite Hinit in He. cbn in He. injection He as <-.
  rewrite Hinit in Ht. split; cbn; rewrite ?Hinit.
  - by apply (cpus_ok_exit _ _ _ me).
  - by apply (tree_ok_exit _ _ _ me).
  - by apply (wait_ok_exit _ _ _ me).
  - by apply (pids_ok_exit _ _ _ me).
Qed.
Lemma inv_schedule c pos j s1 s' :
  y_cpus y !! c = Some (None, pos) → schedule pos (y_s y) = Ok (Some j) s1 → wakened j s1 = Ok tt s' →
  proc_inv (mkSys s' (<[c := (Some j, S j)]> (y_cpus y))).
Proof.
  intros Hci H1 H2. destruct (pc_schedule _ _ _ _ _ H1 H2) as (p & Hp & Hst & Hs).
  destruct Hy as [Hc Ht Hwt Hpids]. pose proof (po_next _ _ Hpids). eapply proc_inv_put; [done|..].
  - eapply (cpus_ok_start _ _ p); [done..|congruence|done].
  - apply (tree_ok_put _ _ p); [done|done|done|done|]. cbn. intros k Hk.
    destruct (to_parent _ _ Ht _ _ _ Hp Hk) as (? & ?). split_and!; [|done..]. intros ->. by apply (to_self _ _ Ht) in Hk.
  - by apply (wait_ok_put _ _ p).
  - apply (pids_ok_put _ _ p _ Hp (ps_nextpid (y_s y))); [done|lia|]. left. by rewrite Hst.
Qed.
End steps.

Lemma pstep_inv y y' : proc_inv y → pstep y y' → proc_inv y'.
Proof.
  intros Hy Hstep. pose proof (running y Hy) as Hrun. destruct Hstep as
    [c i pos r s' Hc Hn Hs|c i pos s' Hc Hs|c i pos s' Hc Hi Hs|c i pos pid s' Hc Hs|c i pos s' Hc Hs|c i pos a s' Hc Hs
    |c i pos s' Hc Hs|pid r s' Hs|a s' Hs|c pos j s1 s' Hc H1 H2|k|c i pos p q Hc Hp Hq].
  - by eapply inv_fork.
  - destruct (Hrun _ _ _ Hc) as (p & Hp & _). destruct (pc_Ok _ _ _ _ _ (pc_exit_files i p _ Hp) Hs) as (q & H & [= ? ? ? ?]).
    eapply inv_same; [done..|by left].
  - by eapply inv_exit.
  - by apply (inv_wait y Hy c i pos (Some pid)).
  - by apply (inv_wait y Hy c i pos None).
  - destruct (Hrun _ _ _ Hc) as (p & Hp & _). pose proof (pc_Ok _ _ _ _ _ (pc_sleep i (ChAddr a) p _ Hp) Hs) as H.
    by eapply (inv_stop y Hy c i pos p _ _ Hc Hp H); [| |right|].
  - destruct (Hrun _ _ _ Hc) as (p & Hp & _). pose proof (pc_Ok _ _ _ _ _ (pc_modp_1 i (set_state RUNNABLE) p _ Hp) Hs) as H.
    by eapply (inv_stop y Hy c i pos p _ _ Hc Hp H); [| |left|].
  - destruct (pc_Ok _ _ _ _ _ (pc_kill pid _) Hs) as [-> |(i & p & q & ? & ? & ? & ? & ? & ?)]; [by destruct y|by eapply inv_same].
  - injection Hs as <-. destruct Hy. split; cbn;
      [by apply cpus_ok_wakeup|by apply tree_ok_wakeup|by apply wait_ok_wakeup|by apply pids_ok_wakeup].
  - by eapply inv_schedule.
  - by destruct Hy.
  - injection Hq as ? ? ? ?. eapply (inv_same y Hy i p q); [done| |done..|by left]. by split_and!.
Qed.

Lemma booted_inv y : booted y → proc_inv y.
Proof.
  intros [(p & rest & Ht & Hst & Hpar & Hpid & Hrest) Hn Hi Hc].
  assert (∀ i q, ps_table (y_s y) !! i = Some q → i = 0%nat ∧ q = p ∨ p_state q = UNUSED ∧ p_parent q = None) as Hl.
  { rewrite Ht. intros [|i] q; [intros [= <-]; auto|]. intros Hq. right. by eapply Forall_lookup_1 in Hrest. }
  assert (ps_table (y_s y) !! 0%nat = Some p) as H0 by (by rewrite Ht).
  split.
  - split.
    + intros c i pos H. by apply (Forall_lookup_1 _ _ _ _ Hc) in H.
    + intros i q [[-> ->]|[? _]]%Hl; congruence.
    + intros c c' i pos pos' H. by apply (Forall_lookup_1 _ _ _ _ Hc) in H.
  - rewrite Hi. split.
    + intros i q [[-> ->]|[? _]]%Hl; congruence.
    + exists 0%nat, p. unfold alive. by rewrite Hst.
    + intros i q [[-> ->]|[_ ?]]%Hl; congruence.
    + intros i q j [[-> ->]|[_ ?]]%Hl; congruence.
  - intros i q j [[-> ->]|[? _]]%Hl; congruence.
  - rewrite Hn. split.
    + intros i q [[-> ->]|[? _]]%Hl; [lia|congruence].
    + lia.
    + intros i j q r [[-> ->]|[? _]]%Hl [[-> ->]|[? _]]%Hl; congruence.
Qed.

(** C3: in every state the system reaches from the boot, whatever the processors
    run: a process is RUNNING exactly on one processor; the parent of a process
    exists and is no zombie (orphans go to init); the identifiers of the
    processes differ; and no wakeup is lost, a process asleep in wait() has no
    zombie child. *)
Theorem process_invariant y y' : booted y → rtc pstep y y' → proc_inv y'.
Proof. intros Hy%booted_inv. induction 1; eauto using pstep_inv. Qed.
(** C39: kill looks at every slot, also the free ones, whose pid is 0: kill(0)
    succeeds on the free slot that the next fork takes, and the child that fork
    makes there is born killed, since only wait clears the mark. *)
Theorem kill_free_slot (s : PS) cur i p :
  find_proc (λ p, p_pid p =? 0) (ps_table s) = Some i → find_proc (in_state UNUSED) (ps_table s) = Some i →
  ps_table s !! i = Some p →
  wp (kill 0) (λ r s1, r = 0 ∧
    pc (fork kend kdata cur) (λ pid s2, pid ≠ -1 →
      ∃ q, ps_table s2 !! i = Some q ∧ p_pid q = pid ∧ p_parent q = Some cur ∧ p_state q = RUNNABLE ∧
        p_killed q = true) s1) s.
Proof.
  intros H0 Hu Hp. pose proof Hu as [(p' & Hp' & Hst) Hlt]%find_proc_Some. assert (p' = p) as -> by congruence.
  unfold kill. apply wp_bind, wp_gets. rewrite H0.
  assert (wp (modp i (set_killed true)) (λ _ s1, s1 = set_table (<[i := set_killed true p]> (ps_table s)) s) s) as Hm.
  { unfold wp, modp, getproc, bind. rewrite Hp. cbn. by rewrite (alter_at _ _ _ _ Hp). }
  apply wp_bind. eapply wp_mono; [exact Hm|]. intros _ s1 ->. set (s1 := set_table _ s).
  assert (ps_table s1 !! i = Some (set_killed true p)) as Hi.
  { apply list_lookup_insert_eq. by eapply lookup_lt_Some. }
  apply wp_bind. unfold wp at 1. unfold getproc. rewrite Hi. cbn [lift_opt ret].
  apply bool_decide_eq_true in Hst. change (in_state SLEEPING (set_killed true p)) with (in_state SLEEPING p).
  unfold in_state at 1. rewrite Hst. rewrite bool_decide_false by done. apply wp_bind, wp_ret, wp_ret. split; [done|].
  eapply pc_mono; [apply pc_fork|].
  intros r s2 [[_ ->]|(k & q0 & q & Hf & Hq0 & (Ht & _) & Hpid & Hk & Hr)] Hne; [done|].
  assert (k = i) as ->.
  { assert (find_proc (in_state UNUSED) (ps_table s1) = Some i); [|congruence]. apply find_proc_Some. split.
    - exists (set_killed true p). split; [done|]. by apply bool_decide_eq_true.
    - intros j r' Hj. cbn. rewrite list_lookup_insert_ne by lia. by apply Hlt. }
  destruct Hr as [(_ & _ & ->)|(Hq & Hqp & ->)]; [done|]. exists q. rewrite Ht, list_lookup_insert_eq by (by eapply lookup_lt_Some).
  rewrite Hk. assert (q0 = set_killed true p) as -> by congruence. done.
Qed.
End system.

(** ** Examples *)
Definition ex_first : proc := set_state RUNNABLE (set_pid 1 proc0).
Definition ex_ps (b : lstate) : pstate log_store := mkP (ex_kstate b) (ex_first :: replicate 63 proc0) 2 (Some 0%nat) true.
Definition ex_sys (b : lstate) : sys (BS := log_store) := mkSys (ex_ps b) [(None, 0%nat); (None, 0%nat)].

Lemma process_invariant_witness :
  ∃ b y, rtc (pstep ex_kend 0) (ex_sys b) y ∧ y_cpus y = [(None, 0%nat); (None, 1%nat)] ∧ proc_inv y.
Proof.
  destruct ex_idle as (b & _). exists b. eexists. 
  assert (rtc (pstep ex_kend 0) (ex_sys b) (mkSys (set_table (set_killed true ex_first :: replicate 63 proc0) (ex_ps b))
    [(None, 0%nat); (None, 1%nat)])) as Hr.
  { eapply rtc_l; [eapply (ps_schedule _ _ _ 1%nat 0%nat 0%nat); reflexivity|].
    eapply rtc_l; [eapply (ps_kill _ _ _ 1); reflexivity|].
    eapply rtc_l; [eapply (ps_yield _ _ _ 1%nat 0%nat 1%nat); reflexivity|]. apply rtc_refl. }
  split; [exact Hr|]. split; [reflexivity|]. apply (process_invariant ex_kend 0 (ex_sys b)); [|exact Hr].
  split; [|reflexivity..|by repeat constructor].
  exists ex_first, (replicate 63 proc0). split_and!; [reflexivity..|]. by apply Forall_replicate.
Defined.

Lemma kill_free_slot_witness :
  ∃ (b : lstate) s, kill 0 (ex_ps b) = Ok 0 s.
Proof.
  destruct ex_idle as (b & _). exists b.
  destruct (wp_run _ _ _ (kill_free_slot ex_kend 0 (ex_ps b) 0%nat 1%nat proc0 eq_refl eq_refl eq_refl)) as (r & s & Hs & -> & _).
  by exists s.
Defined.
