(* ===== verification/Syscall.v ===== *)
(** * System call arguments (syscall.c)

    The kernel reads and writes the memory of the current process through its
    page table, as the hardware does: [user_addr] is the hardware's walk, whose
    fault inside the kernel ends in trap()'s panic.  A char* argument that
    argstr accepts is the list of the bytes of the string. *)
From stdpp Require Import base list gmap numbers option strings sets.
From Stdlib Require Import ZArith Lia.
From S2P Require Import Prelude Kstring Layout BlockStore Fs Kalloc Pipe File Vm Proc.
Open Scope Z_scope.

(** ** User memory *)
(** The kernel address of the byte at [va].  With CR0_WP set, a write needs
    PTE_W also in the kernel. *)
Definition user_addr (pgdir va : Z) (write : bool) : M kmem Z :=
  pte <- walkpgdir pgdir va false ;;
  if pte =? 0 then panic "trap"
  else
    e <- ldw pte ;;
    if negb (has e PTE_P) || (write && negb (has e PTE_W)) then panic "trap"
    else ret (p2v (PTE_ADDR e) + va mod PGSIZE).
Definition load_user (pgdir va : Z) : M kmem Z :=
  a <- user_addr pgdir va false ;;
  on_page (page_base a) (gets (λ pg, default 0 (pg !! Z.to_nat (a mod PGSIZE)))).
Definition store_user (pgdir va v : Z) : M kmem unit :=
  a <- user_addr pgdir va true ;;
  on_page (page_base a) (modify (λ pg, <[Z.to_nat (a mod PGSIZE) := v]> pg)).
Fixpoint load_bytes (pgdir va : Z) (n : nat) : M kmem (list Z) :=
  match n with
  | O => ret []
  | S n => b <- load_user pgdir va ;; l <- load_bytes pgdir (va + 1) n ;; ret (b :: l)
  end.
Fixpoint store_bytes (pgdir va : Z) (l : list Z) : M kmem unit :=
  match l with
  | [] => ret tt
  | b :: l => store_user pgdir va b ;;; store_bytes pgdir (va + 1) l
  end.

(** for(s = *pp; s < ep; s++) if( *s == 0) return s - *pp; [n] is ep - s. *)
Fixpoint fetchstr_loop (n : nat) (pgdir s : Z) : M kmem (option (list Z)) :=
  match n with
  | O => ret None
  | S n =>
    b <- load_user pgdir s ;;
    if b =? 0 then ret (Some [])
    else r <- fetchstr_loop n pgdir (s + 1) ;; ret (cons b <$> r)
  end.

Section syscall.
Context {BS : BlockStore}.
Abbreviation PS := (pstate BS).
Abbreviation mem m := (kern (km m)).

(** [x <-? m ;; k]: the call returns -1 when [m] fails. *)
Definition or_fail {A} (m : M PS (option A)) (k : A → M PS Z) : M PS Z :=
  x <- m ;; match x with Some a => k a | None => ret (-1) end.

Definition fetchint (cur : nat) (addr : Z) : M PS (option Z) :=
  p <- getproc cur ;;
  if (p_sz p <=? addr) || (p_sz p <? u32 (addr + 4)) then ret None
  else l <- mem (load_bytes (p_pgdir p) addr 4) ;; ret (Some (s32 (u32_at l 0))).

(** The string; its length is what the function returns. *)
Definition fetchstr (cur : nat) (addr : Z) : M PS (option (list Z)) :=
  p <- getproc cur ;;
  if p_sz p <=? addr then ret None
  else mem (fetchstr_loop (Z.to_nat (p_sz p - addr)) (p_pgdir p) addr).

Definition argint (cur : nat) (n : Z) : M PS (option Z) :=
  p <- getproc cur ;; fetchint cur (u32 (tf_esp (p_tf p) + 4 + 4 * n)).

Definition argptr (cur : nat) (n size : Z) : M PS (option Z) :=
  i <- argint cur n ;;
  match i with
  | None => ret None
  | Some i =>
    p <- getproc cur ;;
    if (p_sz p <=? u32 i) || (p_sz p <? u32 (u32 i + size)) then ret None else ret (Some (u32 i))
  end.

Definition argstr (cur : nat) (n : Z) : M PS (option (list Z)) :=
  addr <- argint cur n ;;
  match addr with
  | None => ret None
  | Some addr => fetchstr cur (u32 addr)
  end.
End syscall.
Notation "x <-? m ;; k" := (or_fail m (λ x, k))
  (at level 100, m at next level, right associativity) : kernel_scope.
