(* ===== verification/Exec.v ===== *)
(** * Running a program (exec.c, elf.h, loaduvm of vm.c)

    exec over the file system, the page tables and the process table. *)
From stdpp Require Import base list gmap numbers option strings sets.
From Stdlib Require Import ZArith Lia.
From S2P Require Import Prelude Kstring Layout BlockStore Fs Kalloc Pipe File Vm Proc Syscall.
Open Scope Z_scope.

(** ** elf.h *)
Definition ELF_MAGIC : Z := 0x464C457F.
Definition ELF_PROG_LOAD : Z := 1.
Definition SIZEOF_ELFHDR : Z := 52.
Definition SIZEOF_PROGHDR : Z := 32.
Record elfhdr := mkElf {
  elf_magic : Z; elf_elf : list Z; elf_type : Z; elf_machine : Z; elf_version : Z; elf_entry : Z; elf_phoff : Z;
  elf_shoff : Z; elf_flags : Z; elf_ehsize : Z; elf_phentsize : Z; elf_phnum : Z; elf_shentsize : Z;
  elf_shnum : Z; elf_shstrndx : Z }.
Definition dec_elfhdr (l : list Z) : elfhdr :=
  mkElf (u32_at l 0) (slice l 4 12) (u16_at l 16) (u16_at l 18) (u32_at l 20) (u32_at l 24) (u32_at l 28)
    (u32_at l 32) (u32_at l 36) (u16_at l 40) (u16_at l 42) (u16_at l 44) (u16_at l 46) (u16_at l 48) (u16_at l 50).
Record proghdr := mkPh {
  ph_type : Z; ph_off : Z; ph_vaddr : Z; ph_paddr : Z; ph_filesz : Z; ph_memsz : Z; ph_flags : Z; ph_align : Z }.
Definition dec_proghdr (l : list Z) : proghdr :=
  mkPh (u32_at l 0) (u32_at l 4) (u32_at l 8) (u32_at l 12) (u32_at l 16) (u32_at l 20) (u32_at l 24) (u32_at l 28).

(** ** The argument strings and the words pushed below them *)
Definition push_sp (sp : Z) (s : list Z) : Z := Z.land (u32 (sp - (strlen s + 1))) (u32 (Z.lnot 3)).
(** The loop over argv: sp and the words ustack[3..], or None at the jump to bad. *)
Fixpoint push_strings (pgdir sp argc : Z) (argv : list (list Z)) : M kmem (option (Z * list Z)) :=
  match argv with
  | [] => ret (Some (sp, []))
  | s :: argv =>
    if MAXARG <=? argc then ret None
    else
      let sp := push_sp sp s in
      r <- copyout pgdir sp (take (Z.to_nat (strlen s)) s ++ [0]) ;;
      if r <? 0 then ret None
      else
        rest <- push_strings pgdir sp (argc + 1) argv ;;
        ret (match rest with Some (sp', ws) => Some (sp', sp :: ws) | None => None end)
  end.
Definition words (ws : list Z) : list Z := mjoin (le_enc 4 <$> ws).
(** ustack, and the second copyout; the final sp. *)
Definition push_args (pgdir sp : Z) (argv : list (list Z)) : M kmem (option Z) :=
  r <- push_strings pgdir sp 0 argv ;;
  match r with
  | None => ret None
  | Some (sp, ws) =>
    let argc := Z.of_nat (length ws) in
    let ustack := [0xffffffff; argc; u32 (sp - (argc + 1) * 4)] ++ ws ++ [0] in
    let sp := u32 (sp - (3 + argc + 1) * 4) in
    r <- copyout pgdir sp (words ustack) ;;
    ret (if r <? 0 then None else Some sp)
  end.

(** for(last=s=path; *s; s++) if( *s == '/') last = s+1; *)
Fixpoint last_elem (last s : list Z) : list Z :=
  match s with
  | [] => last
  | c :: s' => if c =? 0 then last else last_elem (if c =? SLASH then s' else last) s'
  end.

Section exec.
Context {BS : BlockStore} (devsw : devsw_t (fstate BS)) (kend kdata : Z).
Abbreviation PS := (pstate BS).
Abbreviation KS := (kstate BS).

(** The loop of loaduvm; every round advances by a page. *)
Fixpoint load_loop (fuel : nat) (pgdir addr : Z) (ip : nat) (offset sz i : Z) : M KS bool :=
  match fuel with
  | O => undefined
  | S fuel =>
    if i <? sz then
      pte <- km (walkpgdir pgdir (u32 (addr + i)) false) ;;
      if pte =? 0 then panic "loaduvm: address should exist"
      else
        e <- km (ldw pte) ;;
        let pa := PTE_ADDR e in
        let n := if sz - i <? PGSIZE then sz - i else PGSIZE in
        r <- fs (readi devsw ip (u32 (offset + i)) n) ;;
        km (put_bytes (p2v pa) r.2) ;;;
        if negb (u32 r.1 =? n) then ret false
        else load_loop fuel pgdir addr ip offset sz (u32 (i + PGSIZE))
    else ret true
  end.
Definition loaduvm (pgdir addr : Z) (ip : nat) (offset sz : Z) : M KS bool :=
  if negb (addr mod PGSIZE =? 0) then panic "loaduvm: addr must be page aligned"
  else load_loop (S (Z.to_nat (sz / PGSIZE + 1))) pgdir addr ip offset sz 0.

(** The loop over the program headers: the size, or None at the jump to bad. *)
Fixpoint load_program (n : nat) (ip : nat) (pgdir off sz : Z) : M KS (option Z) :=
  match n with
  | O => ret (Some sz)
  | S n =>
    r <- fs (readi devsw ip (u32 off) SIZEOF_PROGHDR) ;;
    if negb (r.1 =? SIZEOF_PROGHDR) then ret None
    else
      let ph := dec_proghdr r.2 in
      if negb (ph_type ph =? ELF_PROG_LOAD) then load_program n ip pgdir (s32 (off + SIZEOF_PROGHDR)) sz
      else if ph_memsz ph <? ph_filesz ph then ret None
      else
        sz <- km (allocuvm kend pgdir sz (u32 (ph_vaddr ph + ph_memsz ph))) ;;
        if sz =? 0 then ret None
        else
          ok <- loaduvm pgdir (ph_vaddr ph) ip (ph_off ph) (ph_filesz ph) ;;
          if ok : bool then load_program n ip pgdir (s32 (off + SIZEOF_PROGHDR)) sz else ret None
  end.

Definition exec_bad (pgdir : Z) (ip : option nat) : M PS Z :=
  (if pgdir =? 0 then ret tt else kern (km (freevm kend pgdir))) ;;;
  (match ip with Some ip => kern (fs (iunlockput ip)) | None => ret tt end) ;;;
  ret (-1).

(** The stack pages, the arguments, and the switch to the new image. *)
Definition exec_commit (cur : nat) (path : list Z) (argv : list (list Z)) (pgdir sz entry : Z) : M PS Z :=
  let sz := PGROUNDUP sz in
  sz <- kern (km (allocuvm kend pgdir sz (u32 (sz + 2 * PGSIZE)))) ;;
  if sz =? 0 then exec_bad pgdir None
  else
    kern (km (clearpteu pgdir (u32 (sz - 2 * PGSIZE)))) ;;;
    sp <- kern (km (push_args pgdir sz argv)) ;;
    match sp with
    | None => exec_bad pgdir None
    | Some sp =>
      modp cur (store_name (last_elem path path)) ;;;
      p <- getproc cur ;;
      modp cur (set_pgdir pgdir) ;;;
      modp cur (set_sz sz) ;;;
      modp cur (λ p, set_tf (tf_set_start entry sp (p_tf p)) p) ;;;
      kern (km (freevm kend (p_pgdir p))) ;;;
      ret 0
    end.

(** [junk] is what the variable elf holds before the first readi.  Its test is
    an unsigned comparison: a readi that returns -1 passes it. *)
Definition exec (junk : list Z) (cur : nat) (path : list Z) (argv : list (list Z)) : M PS Z :=
  p <- getproc cur ;;
  cwd <- lift_opt (p_cwd p) ;;
  ip <- kern (fs (namei devsw cwd path)) ;;
  match ip with
  | None => ret (-1)
  | Some ip =>
    kern (fs (ilock ip)) ;;;
    r <- kern (fs (readi devsw ip 0 SIZEOF_ELFHDR)) ;;
    let elf := dec_elfhdr (splice junk 0 r.2) in
    if u32 r.1 <? SIZEOF_ELFHDR then exec_bad 0 (Some ip)
    else if negb (elf_magic elf =? ELF_MAGIC) then exec_bad 0 (Some ip)
    else
      pgdir <- kern (km (setupkvm kdata)) ;;
      if pgdir =? 0 then exec_bad 0 (Some ip)
      else
        sz <- kern (load_program (Z.to_nat (elf_phnum elf)) ip pgdir (s32 (elf_phoff elf)) 0) ;;
        match sz with
        | None => exec_bad pgdir (Some ip)
        | Some sz => kern (fs (iunlockput ip)) ;;; exec_commit cur path argv pgdir sz (elf_entry elf)
        end
  end.
End exec.
