(* ===== verification/Sysfile.v ===== *)
(** * File system calls (sysfile.c)

    The handlers run for the process [cur] over the process table, the open
    files, the file system and user memory.  A handler's result is the value
    that goes to %eax.  The user buffer of sys_write is read before filewrite
    starts, that of sys_read is written after fileread has returned. *)
From stdpp Require Import base list gmap numbers option strings sets.
From Stdlib Require Import ZArith Lia.
From S2P Require Import Prelude Kstring Layout BlockStore Fs Kalloc Pipe File Vm Proc Syscall Exec.
Open Scope Z_scope.

Definition DOT : list Z := [46].
Definition DOTDOT : list Z := [46; 46].
(** An array char name[DIRSIZ] before it is written. *)
Definition name0 : list Z := replicate (Z.to_nat DIRSIZ) 0.

Section sysfile.
Context {BS : BlockStore} (devsw : devsw_t (fstate BS)) (kend kdata : Z).
Abbreviation PS := (pstate BS).
Abbreviation FS := (fstate BS).
Abbreviation mem m := (kern (km m)).
Abbreviation kfs m := (kern (fs m)).

Definition begin_trans_k : M PS unit := kern begin_op.
Definition commit_trans_k : M PS unit := kern end_op.

(** ** Descriptors *)
Definition argfd (cur : nat) (n : Z) : M PS (option (nat * nat)) :=
  fd <- argint cur n ;;
  match fd with
  | None => ret None
  | Some fd =>
    if (fd <? 0) || (NOFILE <=? fd) then ret None
    else
      p <- getproc cur ;;
      match mjoin (p_ofile p !! Z.to_nat fd) with
      | Some f => ret (Some (Z.to_nat fd, f))
      | None => ret None
      end
  end.

(** The first free descriptor. *)
Fixpoint free_fd (l : list (option nat)) : option nat :=
  match l with
  | [] => None
  | None :: _ => Some 0%nat
  | Some _ :: l => S <$> free_fd l
  end.
Definition fdalloc (cur f : nat) : M PS (option nat) :=
  p <- getproc cur ;;
  match free_fd (p_ofile p) with
  | Some fd => modp cur (λ p, set_ofile (<[fd := Some f]> (p_ofile p)) p) ;;; ret (Some fd)
  | None => ret None
  end.
Definition clear_fd (cur fd : nat) : M PS unit := modp cur (λ p, set_ofile (<[fd := None]> (p_ofile p)) p).

Definition sys_dup (cur : nat) : M PS Z :=
  a <-? argfd cur 0 ;;
  fd <-? fdalloc cur a.2 ;;
  kern (filedup a.2) ;;;
  ret (Z.of_nat fd).

Definition sys_read (cur : nat) : M PS Z :=
  a <-? argfd cur 0 ;;
  n <-? argint cur 2 ;;
  p <-? argptr cur 1 n ;;
  me <- getproc cur ;;
  r <- kern (fileread devsw (p_killed me) a.2 n) ;;
  mem (store_bytes (p_pgdir me) p r.2) ;;;
  ret r.1.

Definition sys_write (cur : nat) : M PS Z :=
  a <-? argfd cur 0 ;;
  n <-? argint cur 2 ;;
  p <-? argptr cur 1 n ;;
  me <- getproc cur ;;
  buf <- mem (load_bytes (p_pgdir me) p (Z.to_nat n)) ;;
  kern (filewrite devsw (p_killed me) a.2 buf n).

Definition sys_close (cur : nat) : M PS Z :=
  a <-? argfd cur 0 ;;
  clear_fd cur a.1 ;;;
  kern (fileclose kend a.2) ;;;
  ret 0.

(** struct stat: its fields at their offsets, the padding is not written. *)
Definition SIZEOF_STAT : Z := 20.
Definition store_stat (pgdir p : Z) (st : stat) : M kmem unit :=
  store_bytes pgdir (p + 4) (le_enc 4 (st_dev st)) ;;;
  store_bytes pgdir (p + 8) (le_enc 4 (st_ino st)) ;;;
  store_bytes pgdir p (le_enc 2 (st_type st)) ;;;
  store_bytes pgdir (p + 12) (le_enc 2 (st_nlink st)) ;;;
  store_bytes pgdir (p + 16) (le_enc 4 (st_size st)).
Definition sys_fstat (cur : nat) : M PS Z :=
  a <-? argfd cur 0 ;;
  p <-? argptr cur 1 SIZEOF_STAT ;;
  st <-? kern (filestat a.2) ;;
  me <- getproc cur ;;
  mem (store_stat (p_pgdir me) p st) ;;;
  ret 0.

(** ** Links *)
Definition getcwd (cur : nat) : M PS nat := p <- getproc cur ;; lift_opt (p_cwd p).
Definition namei_k (cur : nat) (path : list Z) : M PS (option nat) := cwd <- getcwd cur ;; kfs (namei devsw cwd path).
Definition nameiparent_k (cur : nat) (path : list Z) : M PS (option nat * list Z) :=
  cwd <- getcwd cur ;; kfs (nameiparent devsw cwd path name0).
Definition add_nlink (d : Z) (ip : nat) : M FS unit := modi ip (λ i, i_set_nlink (s16 (i_nlink i + d)) i) ;;; iupdate ip.

Definition link_bad (ip : nat) : M PS Z :=
  kfs (ilock ip) ;;;
  kfs (add_nlink (-1) ip) ;;;
  kfs (iunlockput ip) ;;;
  commit_trans_k ;;;
  ret (-1).
Definition sys_link (cur : nat) : M PS Z :=
  old <-? argstr cur 0 ;;
  new <-? argstr cur 1 ;;
  ip <-? namei_k cur old ;;
  begin_trans_k ;;;
  kfs (ilock ip) ;;;
  i <- kfs (geti ip) ;;
  if i_type i =? T_DIR then
    kfs (iunlockput ip) ;;; commit_trans_k ;;; ret (-1)
  else
    kfs (add_nlink 1 ip) ;;;
    kfs (iunlock ip) ;;;
    r <- nameiparent_k cur new ;;
    match r.1 with
    | None => link_bad ip
    | Some dp =>
      kfs (ilock dp) ;;;
      d <- kfs (geti dp) ;;
      i <- kfs (geti ip) ;;
      e <- (if negb (i_dev d =? i_dev i) then ret (-1) else kfs (dirlink devsw dp r.2 (i_inum i))) ;;
      if e <? 0 then kfs (iunlockput dp) ;;; link_bad ip
      else
        kfs (iunlockput dp) ;;;
        kfs (iput ip) ;;;
        commit_trans_k ;;;
        ret 0
    end.

(** The loop of isdirempty; the directory's size bounds the rounds. *)
Fixpoint isdirempty_loop (fuel : nat) (dp : nat) (off : Z) : M FS bool :=
  match fuel with
  | O => undefined
  | S fuel =>
    i <- geti dp ;;
    if u32 off <? i_size i then
      r <- readi devsw dp (u32 off) SIZEOF_DIRENT ;;
      if negb (r.1 =? SIZEOF_DIRENT) then panic "isdirempty: readi"
      else if negb (de_inum (dec_dirent r.2) =? 0) then ret false
      else isdirempty_loop fuel dp (off + SIZEOF_DIRENT)
    else ret true
  end.
Definition isdirempty (dp : nat) : M FS bool :=
  i <- geti dp ;;
  isdirempty_loop (S (Z.to_nat (i_size i / SIZEOF_DIRENT + 1))) dp (2 * SIZEOF_DIRENT).

Definition unlink_bad (dp : nat) : M PS Z := kfs (iunlockput dp) ;;; commit_trans_k ;;; ret (-1).
Definition sys_unlink (cur : nat) : M PS Z :=
  path <-? argstr cur 0 ;;
  r <- nameiparent_k cur path ;;
  match r with
  | (None, _) => ret (-1)
  | (Some dp, name) =>
    begin_trans_k ;;;
    kfs (ilock dp) ;;;
    if (namecmp name DOT =? 0) || (namecmp name DOTDOT =? 0) then unlink_bad dp
    else
      r <- kfs (dirlookup devsw dp name) ;;
      match r with
      | None => unlink_bad dp
      | Some (ip, off) =>
        kfs (ilock ip) ;;;
        i <- kfs (geti ip) ;;
        if i_nlink i <? 1 then panic "unlink: nlink < 1"
        else
          full <- (if i_type i =? T_DIR then e <- kfs (isdirempty ip) ;; ret (negb e) else ret false) ;;
          if full : bool then kfs (iunlockput ip) ;;; unlink_bad dp
          else
            n <- kfs (writei devsw dp (replicate 16 0) off SIZEOF_DIRENT) ;;
            if negb (n =? SIZEOF_DIRENT) then panic "unlink: writei"
            else
              (if i_type i =? T_DIR then kfs (add_nlink (-1) dp) else ret tt) ;;;
              kfs (iunlockput dp) ;;;
              kfs (add_nlink (-1) ip) ;;;
              kfs (iunlockput ip) ;;;
              commit_trans_k ;;;
              ret 0
      end
  end.

(** ** New files *)
(** The inode, locked. *)
Definition create (cur : nat) (path : list Z) (type major minor : Z) : M PS (option nat) :=
  r <- nameiparent_k cur path ;;
  match r with
  | (None, _) => ret None
  | (Some dp, name) =>
    kfs (ilock dp) ;;;
    r <- kfs (dirlookup devsw dp name) ;;
    match r with
    | Some (ip, _) =>
      kfs (iunlockput dp) ;;;
      kfs (ilock ip) ;;;
      i <- kfs (geti ip) ;;
      if (type =? T_FILE) && (i_type i =? T_FILE) then ret (Some ip)
      else kfs (iunlockput ip) ;;; ret None
    | None =>
      d <- kfs (geti dp) ;;
      ip <- kfs (ialloc (i_dev d) type) ;;
      kfs (ilock ip) ;;;
      kfs (modi ip (λ i, i_set_nlink 1 (i_set_dev major minor i))) ;;;
      kfs (iupdate ip) ;;;
      i <- kfs (geti ip) ;;
      (if type =? T_DIR then
         kfs (add_nlink 1 dp) ;;;
         e <- kfs (dirlink devsw ip DOT (i_inum i)) ;;
         if e <? 0 then panic "create dots"
         else
           d <- kfs (geti dp) ;;
           e <- kfs (dirlink devsw ip DOTDOT (i_inum d)) ;;
           if e <? 0 then panic "create dots" else ret tt
       else ret tt) ;;;
      e <- kfs (dirlink devsw dp name (i_inum i)) ;;
      if e <? 0 then panic "create: dirlink"
      else kfs (iunlockput dp) ;;; ret (Some ip)
    end
  end.

(** sys_open once the inode is locked. *)
Definition open_inode (cur ip : nat) (omode : Z) : M PS Z :=
  f <- kern filealloc ;;
  match f with
  | None => kfs (iunlockput ip) ;;; ret (-1)
  | Some f =>
    fd <- fdalloc cur f ;;
    match fd with
    | None => kern (fileclose kend f) ;;; kfs (iunlockput ip) ;;; ret (-1)
    | Some fd =>
      kfs (iunlock ip) ;;;
      kern (modf f (fl_inode ip (negb (has omode O_WRONLY)) (has omode O_WRONLY || has omode O_RDWR))) ;;;
      ret (Z.of_nat fd)
    end
  end.
Definition sys_open (cur : nat) : M PS Z :=
  path <-? argstr cur 0 ;;
  omode <-? argint cur 1 ;;
  if has omode O_CREATE then
    begin_trans_k ;;;
    ip <- create cur path T_FILE 0 0 ;;
    commit_trans_k ;;;
    match ip with None => ret (-1) | Some ip => open_inode cur ip omode end
  else
    ip <-? namei_k cur path ;;
    kfs (ilock ip) ;;;
    i <- kfs (geti ip) ;;
    if (i_type i =? T_DIR) && negb (omode =? O_RDONLY) then kfs (iunlockput ip) ;;; ret (-1)
    else open_inode cur ip omode.

(** The end of sys_mkdir and sys_mknod. *)
Definition finish_create (ip : option nat) : M PS Z :=
  match ip with
  | None => commit_trans_k ;;; ret (-1)
  | Some ip => kfs (iunlockput ip) ;;; commit_trans_k ;;; ret 0
  end.
Definition sys_mkdir (cur : nat) : M PS Z :=
  begin_trans_k ;;;
  path <- argstr cur 0 ;;
  ip <- match path with None => ret None | Some path => create cur path T_DIR 0 0 end ;;
  finish_create ip.
Definition sys_mknod (cur : nat) : M PS Z :=
  begin_trans_k ;;;
  path <- argstr cur 0 ;;
  ip <- match path with
        | None => ret None
        | Some path =>
          major <- argint cur 1 ;;
          match major with
          | None => ret None
          | Some major =>
            minor <- argint cur 2 ;;
            match minor with
            | None => ret None
            | Some minor => create cur path T_DEV (s16 major) (s16 minor)
            end
          end
        end ;;
  finish_create ip.

Definition sys_chdir (cur : nat) : M PS Z :=
  path <-? argstr cur 0 ;;
  ip <-? namei_k cur path ;;
  kfs (ilock ip) ;;;
  i <- kfs (geti ip) ;;
  if negb (i_type i =? T_DIR) then kfs (iunlockput ip) ;;; ret (-1)
  else
    kfs (iunlock ip) ;;;
    cwd <- getcwd cur ;;
    kfs (iput cwd) ;;;
    modp cur (set_cwd (Some ip)) ;;;
    ret 0.

(** ** exec and pipe *)
(** The loop that fetches argv; [n] is the number of entries of argv[] left. *)
Fixpoint fetch_args (n : nat) (cur : nat) (uargv : Z) : M PS (option (list (list Z))) :=
  match n with
  | O => ret None
  | S n =>
    uarg <- fetchint cur uargv ;;
    match uarg with
    | None => ret None
    | Some uarg =>
      if uarg =? 0 then ret (Some [])
      else
        s <- fetchstr cur (u32 uarg) ;;
        match s with
        | None => ret None
        | Some s => r <- fetch_args n cur (u32 (uargv + 4)) ;; ret (cons s <$> r)
        end
    end
  end.
Definition sys_exec (junk : list Z) (cur : nat) : M PS Z :=
  path <-? argstr cur 0 ;;
  uargv <-? argint cur 1 ;;
  argv <-? fetch_args (Z.to_nat MAXARG) cur (u32 uargv) ;;
  exec devsw kend kdata junk cur path argv.

Definition pipe_fail (r w : nat) : M PS Z := kern (fileclose kend r) ;;; kern (fileclose kend w) ;;; ret (-1).
Definition sys_pipe (cur : nat) : M PS Z :=
  fd <-? argptr cur 0 8 ;;
  rw <-? kern (pipealloc kend) ;;
  let '(r, w) := rw in
  fd0 <- fdalloc cur r ;;
  match fd0 with
  | None => pipe_fail r w
  | Some fd0 =>
    fd1 <- fdalloc cur w ;;
    match fd1 with
    | None => clear_fd cur fd0 ;;; pipe_fail r w
    | Some fd1 =>
      me <- getproc cur ;;
      mem (store_bytes (p_pgdir me) fd (le_enc 4 (Z.of_nat fd0))) ;;;
      mem (store_bytes (p_pgdir me) (fd + 4) (le_enc 4 (Z.of_nat fd1))) ;;;
      ret 0
    end
  end.
End sysfile.
