(* ===== verification/Trap.v ===== *)
(** * System calls and traps (sysproc.c, syscall() of syscall.c, trap.c, traps.h)

    The state is that of Proc.v with the clock.  A handler that puts the process
    to sleep inside its own loop (wait, sleep) returns [SAgain]: the loop goes
    round again when the process runs again.  exit() does not return ([SGone]).
    The interrupt handlers of the disk, the keyboard and the serial line are
    arguments of trap. *)
From stdpp Require Import base list gmap numbers option strings sets.
From Stdlib Require Import ZArith Lia.
From S2P Require Import Prelude Kstring Layout BlockStore Fs Kalloc Pipe File Vm Proc Syscall Exec Sysfile.
Open Scope Z_scope.

(** ** traps.h and syscall.h *)
Definition T_SYSCALL : Z := 64.
Definition T_IRQ0 : Z := 32.
Definition IRQ_TIMER : Z := 0.
Definition IRQ_KBD : Z := 1.
Definition IRQ_COM1 : Z := 4.
Definition IRQ_IDE : Z := 14.
Definition IRQ_SPURIOUS : Z := 31.
Definition NSYSCALLS : Z := 22.

Inductive sysres := SRet (v : Z) | SAgain | SGone.

Section trap.
Context {BS : BlockStore} (devsw : devsw_t (fstate BS)) (kend kdata : Z).
(** The address of the variable ticks, a sleep channel. *)
Context (ticks_addr : Z).
Abbreviation PS := (pstate BS).

Record tstate := mkT { t_ps : PS; t_ticks : Z }.
Definition set_ps (s : PS) (t : tstate) : tstate := mkT s (t_ticks t).
Definition ps {A} (m : M PS A) : M tstate A := zoom t_ps set_ps m.
Definition sret (m : M PS Z) : M tstate sysres := v <- ps m ;; ret (SRet v).

(** ** sysproc.c *)
Definition sys_fork (cur : nat) : M tstate sysres := sret (fork kend kdata cur).
Definition sys_exit (cur : nat) : M tstate sysres := ps (exit kend cur) ;;; ret SGone.
Definition sys_wait (cur : nat) : M tstate sysres :=
  r <- ps (wait_round kend cur) ;;
  ret (match r with Some pid => SRet pid | None => SAgain end).
Definition sys_kill (cur : nat) : M tstate sysres := sret (pid <-? argint cur 0 ;; kill pid).
Definition sys_getpid (cur : nat) : M tstate sysres := sret (p <- getproc cur ;; ret (p_pid p)).
Definition sys_sbrk (cur : nat) : M tstate sysres :=
  sret (n <-? argint cur 0 ;;
        p <- getproc cur ;;
        ok <- growproc kend cur n ;;
        ret (if ok : bool then s32 (p_sz p) else -1)).
(** One round of the loop of sys_sleep; ticks - ticks0 < n compares unsigned
    numbers. *)
Definition sleep_round (cur : nat) (n ticks0 : Z) : M tstate sysres :=
  ticks <- gets t_ticks ;;
  if u32 (ticks - ticks0) <? u32 n then
    p <- ps (getproc cur) ;;
    if p_killed p then ret (SRet (-1))
    else ps (sleep cur (ChAddr ticks_addr)) ;;; ret SAgain
  else ret (SRet 0).
Definition sys_sleep (cur : nat) : M tstate sysres :=
  n <- ps (argint cur 0) ;;
  match n with
  | None => ret (SRet (-1))
  | Some n => ticks0 <- gets t_ticks ;; sleep_round cur n ticks0
  end.
Definition sys_uptime : M tstate sysres := xticks <- gets t_ticks ;; ret (SRet (s32 xticks)).

(** ** syscall *)
(** syscalls[num]; None for 0, the only entry that is not set. *)
Definition syscalls (junk : list Z) (num : Z) (cur : nat) : option (M tstate sysres) :=
  match num with
  | 1 => Some (sys_fork cur)
  | 2 => Some (sys_exit cur)
  | 3 => Some (sys_wait cur)
  | 4 => Some (sret (sys_pipe kend cur))
  | 5 => Some (sret (sys_read devsw cur))
  | 6 => Some (sys_kill cur)
  | 7 => Some (sret (sys_exec devsw kend kdata junk cur))
  | 8 => Some (sret (sys_fstat cur))
  | 9 => Some (sret (sys_chdir devsw cur))
  | 10 => Some (sret (sys_dup cur))
  | 11 => Some (sys_getpid cur)
  | 12 => Some (sys_sbrk cur)
  | 13 => Some (sys_sleep cur)
  | 14 => Some sys_uptime
  | 15 => Some (sret (sys_open devsw kend cur))
  | 16 => Some (sret (sys_write devsw cur))
  | 17 => Some (sret (sys_mknod devsw cur))
  | 18 => Some (sret (sys_unlink devsw cur))
  | 19 => Some (sret (sys_link devsw cur))
  | 20 => Some (sret (sys_mkdir devsw cur))
  | 21 => Some (sret (sys_close kend cur))
  | _ => None
  end.
Definition set_eax (cur : nat) (v : Z) : M tstate unit := ps (modp cur (λ p, set_tf (tf_set_eax (u32 v) (p_tf p)) p)).
Definition syscall (junk : list Z) (cur : nat) : M tstate sysres :=
  p <- ps (getproc cur) ;;
  let num := s32 (tf_eax (p_tf p)) in
  match (if (0 <? num) && (num <? NSYSCALLS) then syscalls junk num cur else None) with
  | Some h =>
    r <- h ;;
    match r with SRet v => set_eax cur v ;;; ret (SRet v) | _ => ret r end
  | None => set_eax cur (-1) ;;; ret (SRet (-1))
  end.

(** ** trap *)
(** What trap() does to its process: return to it, leave it asleep in a system
    call, give up the processor, or end it. *)
Inductive outcome := TReturn | TAgain | TYield | TGone.

Definition exit_if_killed (cur : nat) (go : M tstate outcome) : M tstate outcome :=
  p <- ps (getproc cur) ;;
  if p_killed p then ps (exit kend cur) ;;; ret TGone else go.
Definition user_mode (tf : trapframe) : bool := Z.land (tf_cs tf) 3 =? DPL_USER.

Section handlers.
Context (ideintr kbdintr uartintr : M tstate unit).

(** The switch on tf->trapno. *)
Definition interrupt (cpuid : Z) (cur : option nat) (tf : trapframe) : M tstate unit :=
  let n := tf_trapno tf in
  if n =? T_IRQ0 + IRQ_TIMER then
    if cpuid =? 0 then
      modify (λ t, mkT (t_ps t) (u32 (t_ticks t + 1))) ;;;
      ps (wakeup (ChAddr ticks_addr))
    else ret tt
  else if n =? T_IRQ0 + IRQ_IDE then ideintr
  else if n =? T_IRQ0 + IRQ_IDE + 1 then ret tt
  else if n =? T_IRQ0 + IRQ_KBD then kbdintr
  else if n =? T_IRQ0 + IRQ_COM1 then uartintr
  else if (n =? T_IRQ0 + 7) || (n =? T_IRQ0 + IRQ_SPURIOUS) then ret tt
  else
    match cur with
    | Some cur =>
      if Z.land (tf_cs tf) 3 =? 0 then panic "trap" else ps (modp cur (set_killed true))
    | None => panic "trap"
    end.

(** The last test, also made when the process runs again after yield(). *)
Definition trap_end (cur : nat) (tf : trapframe) : M tstate outcome :=
  if user_mode tf then exit_if_killed cur (ret TReturn) else ret TReturn.
(** After the switch. *)
Definition trap_tail (cur : nat) (tf : trapframe) : M tstate outcome :=
  let rest :=
    p <- ps (getproc cur) ;;
    if bool_decide (p_state p = RUNNING) && (tf_trapno tf =? T_IRQ0 + IRQ_TIMER)
    then ps (yield cur) ;;; ret TYield
    else trap_end cur tf in
  if user_mode tf then exit_if_killed cur rest else rest.

Definition trap (junk : list Z) (cpuid : Z) (cur : option nat) (tf : trapframe) : M tstate outcome :=
  if tf_trapno tf =? T_SYSCALL then
    cur <- lift_opt cur ;;
    exit_if_killed cur (
      ps (modp cur (set_tf tf)) ;;;
      r <- syscall junk cur ;;
      match r with
      | SRet _ => exit_if_killed cur (ret TReturn)
      | SAgain => ret TAgain
      | SGone => ret TGone
      end)
  else
    interrupt cpuid cur tf ;;;
    match cur with
    | Some cur => trap_tail cur tf
    | None => ret TReturn
    end.
End handlers.
End trap.
