(* ===== verification/TrapSpec.v ===== *)
(** * Properties of traps

    Killed processes end, the clock takes the processor away, and unknown system
    calls fail. *)
From stdpp Require Import base list gmap numbers option strings sets.
From Stdlib Require Import ZArith Lia.
From S2P Require Import Prelude Kstring Layout BlockStore Log LogSpec Commit Crash Fs FsExample Kalloc Pipe File FileSpec.
From S2P Require Import Vm Proc ProcSpec ProcInv Syscall Exec Sysfile Trap.
Open Scope Z_scope.

Section trap.
Context {BS : BlockStore} (devsw : devsw_t (fstate BS)) (kend kdata ticks_addr : Z).
Context (ideintr kbdintr uartintr : M (tstate (BS := BS)) unit).
Abbreviation TS := (tstate (BS := BS)).
Abbreviation trap_ := (trap devsw kend kdata ticks_addr ideintr kbdintr uartintr).
Implicit Types t : TS.




Lemma wp_ps {A} (m : M (pstate BS) A) (Q : A → TS → Prop) t : wp m (λ a s, Q a (set_ps s t)) (t_ps t) → wp (ps m) Q t.
Proof. apply wp_zoom. Qed.
Lemma wp_modp i f p (Q : unit → pstate BS → Prop) s :
  ps_table s !! i = Some p → Q tt (set_table (<[i := f p]> (ps_table s)) s) → wp (modp i f) Q s.
Proof.
  intros Hp HQ. unfold wp, modp, getproc, bind, modify. rewrite Hp. cbn. by rewrite (alter_at _ _ _ _ Hp).
Qed.

(** The clock preempts: a timer interrupt on processor 0 adds one tick, makes
    every process asleep on the clock RUNNABLE, and takes the processor from the
    running process, which becomes RUNNABLE too. *)
Theorem timer_preempts junk cur p tf t :
  ps_table (t_ps t) !! cur = Some p → p_state p = RUNNING → p_killed p = false → tf_trapno tf = T_IRQ0 + IRQ_TIMER →
  wp (trap_ junk 0 (Some cur) tf) (λ r t', r = TYield ∧ t_ticks t' = u32 (t_ticks t + 1) ∧
    ps_table (t_ps t') = <[cur := set_state RUNNABLE p]> (wakeup1 (ChAddr ticks_addr) (ps_table (t_ps t)))) t.
Proof.
  intros Hp Hst Hk Htf. unfold trap. rewrite Htf. change (T_IRQ0 + IRQ_TIMER =? T_SYSCALL) with false. cbv iota.
  wstep1. unfold interrupt. rewrite Htf, Z.eqb_refl. change (0 =? 0) with true. cbv iota zeta. wstep1. wstep1.
  apply wp_ps. unfold wakeup. wstep1. cbn [t_ps set_ps].
  set (l := wakeup1 _ _). set (t1 := set_ps _ _).
  assert (ps_table (t_ps t1) !! cur = Some p) as Hp1.
  { cbn. unfold l. rewrite wakeup1_lookup, Hp. cbn. rewrite bool_decide_false; [done|]. intros [? _]. congruence. }
  assert (∀ Q : outcome → TS → Prop, Q TYield (set_ps (set_table (<[cur := set_state RUNNABLE p]> l) (t_ps t1)) t1) →
    wp (p <- ps (getproc cur) ;;
        if bool_decide (p_state p = RUNNING) && (tf_trapno tf =? T_IRQ0 + IRQ_TIMER)
        then ps (yield cur) ;;; ret TYield else trap_end kend cur tf) Q t1) as Hrest.
  { intros Q HQ. wstep1. apply wp_ps. unfold wp at 1. unfold getproc. rewrite Hp1. cbn [lift_opt ret].
    rewrite bool_decide_true, Htf, Z.eqb_refl by done. cbn [andb]. wstep1. apply wp_ps, (wp_modp _ _ p); [done|]. by wstep. }
  unfold trap_tail. rewrite Htf in Hrest. rewrite Htf. destruct (user_mode tf).
  - unfold exit_if_killed. wstep1. apply wp_ps. unfold wp at 1. unfold getproc. rewrite Hp1. cbn [lift_opt ret]. rewrite Hk.
    change (set_ps (t_ps t1) t1) with t1. by apply Hrest.
  - by apply Hrest.
Qed.

(** A system call number without a handler, any value outside 1..21, returns
    -1 to the process and changes nothing else. *)
Theorem unknown_syscall junk cur p t :
  ps_table (t_ps t) !! cur = Some p → (s32 (tf_eax (p_tf p)) < 1 ∨ 21 < s32 (tf_eax (p_tf p))) →
  syscall devsw kend kdata ticks_addr junk cur t =
    Ok (SRet (-1)) (set_ps (set_table (<[cur := set_tf (tf_set_eax 0xffffffff (p_tf p)) p]> (ps_table (t_ps t))) (t_ps t)) t).
Proof.
  intros Hp Hn. assert (wp (syscall devsw kend kdata ticks_addr junk cur) (λ r t', r = SRet (-1) ∧
    t' = set_ps (set_table (<[cur := set_tf (tf_set_eax 0xffffffff (p_tf p)) p]> (ps_table (t_ps t))) (t_ps t)) t) t) as H.
  2: { destruct (wp_run _ _ _ H) as (r & t' & Hrun & -> & ->). exact Hrun. }
  unfold syscall. wstep1. apply wp_ps. unfold wp at 1. unfold getproc. rewrite Hp. cbn [lift_opt ret]. cbv zeta.
  assert ((0 <? s32 (tf_eax (p_tf p))) && (s32 (tf_eax (p_tf p)) <? NSYSCALLS) = false) as ->.
  { change NSYSCALLS with 22. destruct (Z.ltb_spec 0 (s32 (tf_eax (p_tf p)))), (Z.ltb_spec (s32 (tf_eax (p_tf p))) 22); (done || lia). }
  wstep1. apply wp_ps, (wp_modp _ _ p); [by destruct t|]. wstep1. split; [done|]. by destruct t.
Qed.
End trap.

(** ** Examples: one process, in user mode *)
Definition ex_run : proc := set_state RUNNING ex_first.
Definition ex_tstate (b : lstate) : tstate (BS := log_store) := mkT (mkP (ex_kstate b) [ex_run] 2 (Some 0%nat) false) 7.
Definition ex_tf (trapno eax : Z) : trapframe := mkTf 0 0 0 0 0 0 0 eax 0 0 43 43 trapno 0 0 35 512 4096 43.
Definition no_intr : M (tstate (BS := log_store)) unit := ret tt.
Abbreviation ex_trap := (trap no_dev ex_kend 0 0 no_intr no_intr no_intr []).

Lemma timer_preempts_witness :
  ∃ b, wp (ex_trap 0 (Some 0%nat) (ex_tf 32 0)) (λ r t, r = TYield ∧ t_ticks t = 8) (ex_tstate b).
Proof.
  destruct ex_idle as (b & _). exists b.
  eapply wp_mono; [apply (timer_preempts no_dev ex_kend 0 0 no_intr no_intr no_intr [] 0 ex_run (ex_tf 32 0)); reflexivity|].
  cbv beta. intros r t (-> & -> & _). split; reflexivity.
Defined.
Lemma unknown_syscall_witness :
  ∃ b t, syscall no_dev ex_kend 0 0 [] 0 (ex_tstate b) = Ok (SRet (-1)) t.
Proof.
  destruct ex_idle as (b & _). exists b. eexists.
  apply (unknown_syscall no_dev ex_kend 0 0 [] 0 ex_run (ex_tstate b)); [reflexivity|]. left. reflexivity.
Defined.
