(* ===== verification/SyscallSpec.v ===== *)
(** * System calls on user memory

    What the kernel fetches from a process and stores into it, and the system
    calls read and write from the arguments on the user stack to the file. *)
From stdpp Require Import base list gmap numbers option strings sets.
From Stdlib Require Import ZArith Lia.
From S2P Require Import Prelude Kstring Layout Bio BioSpec BlockStore Log LogSpec Commit Crash.
From S2P Require Import Fs FsTx FsBlocks FsInode FsBmap FsRead FsWrite FsExample.
From S2P Require Import Kalloc Pipe File FileSpec Vm VmSpec VmUser VmCopy Proc Syscall Exec Sysfile.
Open Scope Z_scope.

(** ** User memory as a list of bytes *)
Definition ubytes (m : gmap Z (list Z)) (pgdir va : Z) (n : nat) : list Z :=
  (λ i, default 0 (kbyte m pgdir (va + Z.of_nat i))) <$> seq 0 n.

Lemma length_ubytes m pgdir va n : length (ubytes m pgdir va n) = n.
Proof. unfold ubytes. by rewrite length_fmap, length_seq. Qed.
Lemma lookup_ubytes m pgdir va n i :
  (i < n)%nat → ubytes m pgdir va n !! i = Some (default 0 (kbyte m pgdir (va + Z.of_nat i))).
Proof. intros Hi. unfold ubytes. by rewrite list_lookup_fmap, lookup_seq_lt. Qed.
Lemma ubytes_S m pgdir va n :
  ubytes m pgdir va (S n) = default 0 (kbyte m pgdir va) :: ubytes m pgdir (va + 1) n.
Proof.
  unfold ubytes. cbn [seq fmap list_fmap]. rewrite Z.add_0_r. f_equal. rewrite <- fmap_S_seq, <- list_fmap_compose.
  apply list_fmap_ext. intros i x _. cbn. do 2 f_equal. lia.
Qed.

Section memory.
Context (kend : Z).
Implicit Types s : kmem.

(** The pages of [va, va + n) are present and writable. *)
Definition mapped s (pgdir va n : Z) : Prop := ∀ va', va ≤ va' < va + n →
  has (pte_of (km_pages s) pgdir va') PTE_P = true ∧ has (pte_of (km_pages s) pgdir va') PTE_W = true.

Lemma user_byte s l pgdir va :
  user kend s l pgdir → 0 ≤ va < KERNBASE → has (pte_of (km_pages s) pgdir va) PTE_P = true →
  ∃ f pg b, uframe (km_pages s) pgdir va = Some f ∧ f = p2v (PTE_ADDR (pte_of (km_pages s) pgdir va)) ∧
    f mod 4096 = 0 ∧ km_pages s !! f = Some pg ∧ page_wf pg ∧ pg !! Z.to_nat (va mod 4096) = Some b ∧ is_byte b.
Proof.
  intros Hu Hva HP. set (f := p2v _). assert (uframe (km_pages s) pgdir va = Some f) as Hf by (unfold uframe; by rewrite HP).
  destruct (us_frame _ _ _ _ Hu va f Hva Hf) as ([Hal _ _] & [pg Hpg] & _).
  destruct (ko_pages _ _ _ (sp_mem _ _ _ _ (us_space _ _ _ _ Hu)) _ _ Hpg) as [Hl Hby].
  assert (0 ≤ va mod 4096 < 4096) by (apply Z.mod_pos_bound; lia).
  destruct (lookup_lt_is_Some_2 pg (Z.to_nat (va mod 4096))) as [b Hb]; [lia|].
  exists f, pg, b. split_and!; try done. by eapply (Forall_lookup_1 _ _ _ _ Hby).
Qed.

Lemma wp_user_addr s l pgdir va w Q :
  space kend s l pgdir → has (pte_of (km_pages s) pgdir va) PTE_P = true →
  (w = true → has (pte_of (km_pages s) pgdir va) PTE_W = true) →
  Q (p2v (PTE_ADDR (pte_of (km_pages s) pgdir va)) + va mod 4096) s → wp (user_addr pgdir va w) Q s.
Proof.
  intros Hs HP HW HQ. destruct (has_ptab _ _ _ HP) as [t Ht]. unfold user_addr. wstep1. apply (wp_walk kend s l); [done|].
  rewrite Ht. destruct (space_tab _ _ _ _ _ _ Hs Ht) as ([Hal _ Hr] & Hsome & _).
  pose proof (PTX_range va). rewrite (proj2 (Z.eqb_neq (t + 4 * PTX va) 0)) by (unfold KERNBASE in *; lia).
  wstep1. apply wp_ldw; [done|done|done|].
  assert (entry (km_pages s) t (PTX va) = pte_of (km_pages s) pgdir va) as -> by (unfold pte_of; by rewrite Ht).
  rewrite HP. destruct w; [rewrite HW by done|]; cbn [negb orb andb]; by wstep.
Qed.
Lemma frame_addr f va : f mod 4096 = 0 → page_base (f + va mod 4096) = f ∧ (f + va mod 4096) mod PGSIZE = va mod 4096.
Proof. intros H. unfold page_base. change PGSIZE with 4096. assert (0 ≤ va mod 4096 < 4096) by (apply Z.mod_pos_bound; lia). split; zlia. Qed.

Lemma wp_load_user s l pgdir va Q :
  user kend s l pgdir → 0 ≤ va < KERNBASE → has (pte_of (km_pages s) pgdir va) PTE_P = true →
  Q (default 0 (kbyte (km_pages s) pgdir va)) s → wp (load_user pgdir va) Q s.
Proof.
  intros Hu Hva HP HQ. destruct (user_byte s l pgdir va Hu Hva HP) as (f & pg & b & Hf & -> & Hal & Hpg & _ & Hb & _).
  unfold load_user. wstep1. apply (wp_user_addr s l); [apply Hu|done|done|]. set (f := p2v _) in *.
  destruct (frame_addr f va Hal) as [-> ->]. unfold wp, on_page, gets. rewrite Hpg, insert_id by done.
  unfold kbyte in HQ. rewrite Hf in HQ. cbn in HQ. rewrite Hpg in HQ. cbn in HQ. by destruct s.
Qed.
Lemma wp_load_bytes s l pgdir n va Q :
  user kend s l pgdir → 0 ≤ va → va + Z.of_nat n ≤ KERNBASE → mapped s pgdir va (Z.of_nat n) →
  Q (ubytes (km_pages s) pgdir va n) s → wp (load_bytes pgdir va n) Q s.
Proof.
  intros Hu. revert va Q. induction n as [|n IH]; intros va Q Hva Hmax Hm HQ; [done|]. cbn [load_bytes].
  wstep1. apply (wp_load_user s l); [done|lia|apply Hm; lia|]. wstep1. apply IH; [lia..|intros va' ?; apply Hm; lia|].
  wstep1. by rewrite <- ubytes_S.
Qed.
Lemma wp_store_user s l pgdir va b Q :
  user kend s l pgdir → 0 ≤ va < KERNBASE → mapped s pgdir va 1 → is_byte b →
  (∀ s', user kend s' l pgdir → (∀ va', pte_of (km_pages s') pgdir va' = pte_of (km_pages s) pgdir va') →
     (∀ va', 0 ≤ va' < KERNBASE → kbyte (km_pages s') pgdir va' =
        if decide (va' = va) then Some b else kbyte (km_pages s) pgdir va') → Q tt s') →
  wp (store_user pgdir va b) Q s.
Proof.
  intros Hu Hva Hm Hb HQ. destruct (Hm va ltac:(lia)) as [HP HW].
  destruct (user_byte s l pgdir va Hu Hva HP) as (f & pg & b0 & Hf & -> & Hal & Hpg & [Hl Hby] & Hb0 & _).
  unfold store_user. wstep1. apply (wp_user_addr s l); [apply Hu|done|done|]. set (f := p2v _) in *.
  destruct (frame_addr f va Hal) as [-> ->]. unfold wp, on_page, modify. rewrite Hpg.
  assert (0 ≤ va mod 4096 < 4096) as Hoff by (apply Z.mod_pos_bound; lia).
  destruct (user_write kend s l pgdir va f (<[Z.to_nat (va mod 4096) := b]> pg) Hu Hva Hf) as (Hu' & Hpte & Hk).
  { split; [by rewrite length_insert|by apply Forall_insert]. }
  apply HQ; [done..|]. intros va' Hva'. rewrite Hk by done. destruct (decide (va' / 4096 = va / 4096)) as [E|Hne].
  - destruct (decide (va' = va)) as [-> |Hne]; [apply list_lookup_insert_eq; lia|].
    rewrite list_lookup_insert_ne by zlia. unfold kbyte. rewrite (uframe_page _ _ _ _ E), Hf. cbn. by rewrite Hpg.
  - rewrite decide_False; [done|]. by intros ->.
Qed.
(** The bytes [d] stored from [va] on. *)
Lemma wp_store_bytes d s l pgdir va Q :
  user kend s l pgdir → 0 ≤ va → va + Z.of_nat (length d) ≤ KERNBASE → mapped s pgdir va (Z.of_nat (length d)) →
  Forall is_byte d →
  (∀ s', user kend s' l pgdir → (∀ va', pte_of (km_pages s') pgdir va' = pte_of (km_pages s) pgdir va') →
     (∀ va', 0 ≤ va' < KERNBASE → kbyte (km_pages s') pgdir va' =
        if decide (va ≤ va' < va + Z.of_nat (length d)) then d !! Z.to_nat (va' - va)
        else kbyte (km_pages s) pgdir va') → Q tt s') →
  wp (store_bytes pgdir va d) Q s.
Proof.
  revert s va Q. induction d as [|b d IH]; intros s va Q Hu Hva Hmax Hm Hb HQ; cbn [store_bytes].
  - wstep. apply (HQ s); [done..|]. intros va' _. rewrite decide_False; [done|]. cbn [length]. lia.
  - apply Forall_cons in Hb as [Hb1 Hb]. cbn [length] in *.
    wstep1. apply (wp_store_user s l); [done|lia|intros va' ?; apply Hm; lia|done|]. intros s1 Hu1 Hp1 Hk1.
    apply IH; [done|lia|lia| |done|].
    + intros va' ?. rewrite Hp1. apply Hm. lia.
    + intros s2 Hu2 Hp2 Hk2. apply HQ; [done|by intros va'; rewrite Hp2, Hp1|].
      intros va' Hva'. rewrite Hk2, Hk1 by done. destruct (decide (va' = va)) as [-> |Hne].
      * rewrite decide_False, decide_True by lia. by rewrite Z.sub_diag.
      * destruct (decide (va + 1 ≤ va' < _)); [rewrite decide_True by lia|rewrite decide_False by lia; done].
        replace (Z.to_nat (va' - va)) with (S (Z.to_nat (va' - (va + 1)))) by lia. done.
Qed.

(** The string at the start of the bytes, when it ends there. *)
Definition string_at (l : list Z) : option (list Z) := if decide (0 ∈ l) then Some (cstr l) else None.
Lemma wp_fetchstr_loop s l pgdir n va Q :
  user kend s l pgdir → 0 ≤ va → va + Z.of_nat n ≤ KERNBASE → mapped s pgdir va (Z.of_nat n) →
  Q (string_at (ubytes (km_pages s) pgdir va n)) s → wp (fetchstr_loop n pgdir va) Q s.
Proof.
  intros Hu. revert va Q. induction n as [|n IH]; intros va Q Hva Hmax Hm HQ; [done|]. cbn [fetchstr_loop].
  wstep1. apply (wp_load_user s l); [done|lia|apply Hm; lia|]. rewrite ubytes_S in HQ. set (b := default _ _) in *.
  unfold string_at in HQ. cbn [cstr] in HQ. destruct (Z.eqb_spec b 0) as [E|Hb].
  - wstep1. rewrite decide_True in HQ; [done|]. rewrite E. left.
  - wstep1. apply IH; [lia..|intros va' ?; apply Hm; lia|]. wstep1. unfold string_at.
    destruct (decide (0 ∈ ubytes (km_pages s) pgdir (va + 1) n)) as [Hin|Hout].
    + rewrite decide_True in HQ; [done|]. by right.
    + rewrite decide_False in HQ; [done|]. by intros [|]%elem_of_cons.
Qed.
End memory.


Section args.
Context {BS : BlockStore} (kend : Z).
Abbreviation PS := (pstate BS).
Implicit Types s : PS.

Definition pages s : gmap Z (list Z) := km_pages (k_kmem (ps_k s)).

(** The process [cur] has its memory mapped up to its size. *)
Record uproc s (cur : nat) (p : proc) (l : list Z) : Prop := mkUproc {
  up_proc : ps_table s !! cur = Some p;
  up_user : user kend (k_kmem (ps_k s)) l (p_pgdir p);
  up_size : 0 ≤ p_sz p ≤ KERNBASE;
  up_map : mapped (k_kmem (ps_k s)) (p_pgdir p) 0 (p_sz p) }.

Definition ubuf s (p : proc) (va : Z) (n : nat) : list Z := ubytes (pages s) (p_pgdir p) va n.
(** The int at a user address, and the [k]-th argument of the system call. *)
Definition uint_at s (p : proc) (addr : Z) : option Z :=
  if decide (addr + 4 ≤ p_sz p) then Some (s32 (u32_at (ubuf s p addr 4) 0)) else None.
Definition arg s (p : proc) (k : Z) : option Z := uint_at s p (u32 (tf_esp (p_tf p) + 4 + 4 * k)).

Lemma wp_getproc s cur p (Q : proc → PS → Prop) : ps_table s !! cur = Some p → Q p s → wp (getproc cur) Q s.
Proof. intros Hp HQ. unfold wp, getproc. by rewrite Hp. Qed.
(** Code that only reads memory. *)
Lemma wp_mem_ro {A} (m : M kmem A) s (Q : A → PS → Prop) :
  wp m (λ a t, t = k_kmem (ps_k s) ∧ Q a s) (k_kmem (ps_k s)) → wp (kern (km m)) Q s.
Proof.
  intros H. apply wp_zoom, wp_zoom. eapply wp_mono; [exact H|]. intros a t [-> HQ]. by destruct s as [[] ? ? ? ?].
Qed.

Section process.
Context s (cur : nat) (p : proc) (l : list Z).
Hypothesis Hs : uproc s cur p l.

Lemma map_below va n : 0 ≤ va → va + n ≤ p_sz p → mapped (k_kmem (ps_k s)) (p_pgdir p) va n.
Proof. intros Hva Hn va' Hva'. apply (up_map _ _ _ _ Hs). lia. Qed.

Lemma wp_fetchint addr (Q : option Z → PS → Prop) :
  0 ≤ addr < 2 ^ 32 → Q (uint_at s p addr) s → wp (fetchint cur addr) Q s.
Proof.
  intros Ha HQ. pose proof (up_size _ _ _ _ Hs) as Hsz. unfold KERNBASE in Hsz. unfold fetchint. wstep1.
  eapply wp_getproc; [apply Hs|]. unfold uint_at in HQ. destruct (Z.leb_spec (p_sz p) addr) as [Hge|Hlt]; cbn [orb].
  { rewrite decide_False in HQ by lia. by wstep. }
  rewrite u32_small by lia. destruct (Z.ltb_spec (p_sz p) (addr + 4)) as [Hgt|Hle].
  { rewrite decide_False in HQ by lia. by wstep. }
  rewrite decide_True in HQ by lia. wstep1. apply wp_mem_ro.
  apply (wp_load_bytes kend _ l); [apply Hs|lia|unfold KERNBASE; lia|apply map_below; lia|]. split; [done|]. by wstep.
Qed.
Lemma wp_fetchstr addr (Q : option (list Z) → PS → Prop) :
  0 ≤ addr → Q (string_at (ubuf s p addr (Z.to_nat (p_sz p - addr)))) s → wp (fetchstr cur addr) Q s.
Proof.
  intros Ha HQ. pose proof (up_size _ _ _ _ Hs) as Hsz. unfold fetchstr. wstep1. eapply wp_getproc; [apply Hs|].
  destruct (Z.leb_spec (p_sz p) addr) as [Hge|Hlt].
  { replace (Z.to_nat (p_sz p - addr)) with 0%nat in HQ by lia. by wstep. }
  apply wp_mem_ro, (wp_fetchstr_loop kend _ l); [apply Hs|lia|lia|apply map_below; lia|done].
Qed.
Lemma wp_argint n (Q : option Z → PS → Prop) : Q (arg s p n) s → wp (argint cur n) Q s.
Proof.
  intros HQ. unfold argint. wstep1. eapply wp_getproc; [apply Hs|]. apply wp_fetchint; [apply u32_range|done].
Qed.
Lemma wp_argstr n (Q : option (list Z) → PS → Prop) :
  Q (a ← arg s p n; string_at (ubuf s p (u32 a) (Z.to_nat (p_sz p - u32 a)))) s → wp (argstr cur n) Q s.
Proof.
  intros HQ. unfold argstr. wstep1. apply wp_argint. destruct (arg s p n) as [a|]; [|by wstep].
  apply wp_fetchstr; [apply u32_range|done].
Qed.
(** The pointer that argptr lets through. *)
Definition ptr_arg (n size : Z) : option Z :=
  a ← arg s p n; if decide (u32 a < p_sz p ∧ u32 (u32 a + size) ≤ p_sz p) then Some (u32 a) else None.
Lemma wp_argptr n size (Q : option Z → PS → Prop) : Q (ptr_arg n size) s → wp (argptr cur n size) Q s.
Proof.
  intros HQ. unfold argptr. wstep1. apply wp_argint. unfold ptr_arg in HQ. destruct (arg s p n) as [a|]; [|by wstep].
  wstep1. eapply wp_getproc; [apply Hs|]. cbn [mbind option_bind] in HQ.
  destruct (Z.leb_spec (p_sz p) (u32 a)), (Z.ltb_spec (p_sz p) (u32 (u32 a + size))); cbn [orb];
    destruct (decide _); (lia || by wstep).
Qed.
Lemma ptr_arg_inside n size va :
  0 ≤ size < 2 ^ 31 → ptr_arg n size = Some va → 0 ≤ va ∧ va + size ≤ p_sz p.
Proof.
  intros Hsize. pose proof (up_size _ _ _ _ Hs) as Hsz. unfold KERNBASE in Hsz. unfold ptr_arg.
  destruct (arg s p n) as [a|]; [|done]. cbn. destruct (decide _) as [[H1 H2]|]; [|done]. intros [= <-].
  pose proof (u32_range a). rewrite u32_small in H2 by lia. lia.
Qed.
End process.
End args.

Lemma string_at_spec m pgdir va n str :
  string_at (ubytes m pgdir va n) = Some str →
  (length str < n)%nat ∧ (0 ∉ str) ∧ ubytes m pgdir va (S (length str)) = str ++ [0].
Proof.
  revert va str. induction n as [|n IH]; intros va str; [done|]. rewrite ubytes_S. set (b := default _ _).
  unfold string_at. cbn [cstr]. destruct (Z.eqb_spec b 0) as [E|Hb].
  - rewrite decide_True by (rewrite E; left). intros [= <-]. cbn [length]. rewrite ubytes_S. fold b. rewrite E.
    split_and!; [lia|apply not_elem_of_nil|done].
  - destruct (decide _) as [Hin|]; [|done]. intros [= <-]. apply elem_of_cons in Hin as [|Hin]; [done|].
    destruct (IH (va + 1) (cstr (ubytes m pgdir (va + 1) n))) as (Hlen & Hno & Heq).
    { unfold string_at. by rewrite decide_True. }
    cbn [length]. rewrite ubytes_S, Heq. split_and!; [lia| |done]. by intros [|]%elem_of_cons.
Qed.

Section calls.
Context {BS : BlockStore} (sb : superblock) (devsw : devsw_t (fstate BS)) (kend : Z).
Abbreviation PS := (pstate BS).
Implicit Types s : PS.

(** C28: the arguments of a system call are fetched safely: whatever the process
    has put on its stack, argint, argstr and argptr return without a fault and
    change nothing; argstr gives only a string that ends with its 0 inside the
    process's memory, and argptr with a size that is not negative only a range
    of addresses inside it. *)
Theorem syscall_arguments s cur p l n :
  uproc kend s cur p l →
  wp (argint cur n) (λ r s', s' = s ∧ r = arg s p n) s ∧
  wp (argstr cur n) (λ r s', s' = s ∧ ∀ str, r = Some str →
    ∃ va, 0 ≤ va ∧ va + Z.of_nat (length str) < p_sz p ∧ (0 ∉ str) ∧ ubuf s p va (S (length str)) = str ++ [0]) s ∧
  ∀ size, 0 ≤ size < 2 ^ 31 →
    wp (argptr cur n size) (λ r s', s' = s ∧ ∀ va, r = Some va → 0 ≤ va ∧ va + size ≤ p_sz p) s.
Proof.
  intros Hs. split_and!.
  - by apply (wp_argint kend s cur p l).
  - apply (wp_argstr kend s cur p l); [done|]. split; [done|]. intros str. destruct (arg s p n) as [a|]; [|done]. cbn.
    intros (Hlen & Hno & Heq)%string_at_spec. pose proof (u32_range a). exists (u32 a). split_and!; [lia|lia|done..].
  - intros size Hsize. apply (wp_argptr kend s cur p l); [done|]. split; [done|].
    intros va. by apply (ptr_arg_inside kend s cur p l).
Qed.

(** Argptr does not reject a negative size: the sum wraps around, and every
    pointer into the process's memory that is at least -size passes the test. *)
Theorem argptr_negative_size s cur p l n size a :
  uproc kend s cur p l → arg s p n = Some a → - 2 ^ 31 ≤ size < 0 → - size ≤ u32 a < p_sz p →
  wp (argptr cur n size) (λ r s', s' = s ∧ r = Some (u32 a)) s.
Proof.
  intros Hs Ha Hsize Hr. apply (wp_argptr kend s cur p l); [done|]. split; [done|]. unfold ptr_arg. rewrite Ha. cbn.
  pose proof (up_size _ _ _ _ _ Hs). unfold KERNBASE in *. rewrite (u32_small (u32 a + size)) by lia. by rewrite decide_True by lia.
Qed.

(** The descriptor [fd] in argument 0 of a process stands for the entry [f] of the
    file table, a file open on an inode. *)
Record open_file s (p : proc) (fd f : nat) (v : file) : Prop := mkOpenFile {
  of_arg : arg s p 0 = Some (Z.of_nat fd);
  of_fd : p_ofile p !! fd = Some (Some f);
  of_range : (fd < Z.to_nat NOFILE)%nat;
  of_file : k_ftable (ps_k s) !! f = Some v;
  of_inode : f_type v = FD_INODE }.

Lemma wp_argfd s cur p l fd f v (Q : option (nat * nat) → PS → Prop) :
  uproc kend s cur p l → open_file s p fd f v → Q (Some (fd, f)) s → wp (argfd cur 0) Q s.
Proof.
  intros Hs [Ha Hfd Hr _ _] HQ. unfold argfd. wstep1. apply (wp_argint kend s cur p l); [done|]. rewrite Ha.
  change (Z.to_nat NOFILE) with 16%nat in Hr. change NOFILE with 16.
  rewrite (proj2 (Z.ltb_ge (Z.of_nat fd) 0)), (proj2 (Z.leb_gt 16 (Z.of_nat fd))) by lia. cbn [orb].
  wstep1. eapply wp_getproc; [apply Hs|]. rewrite Nat2Z.id, Hfd. cbn. by wstep.
Qed.
Lemma wp_or_fail {A} (m : M PS (option A)) k (Q : Z → PS → Prop) s :
  wp m (λ r s', match r with Some a => wp (k a) Q s' | None => Q (-1) s' end) s → wp (or_fail m k) Q s.
Proof. intros H. unfold or_fail. wstep1. eapply wp_mono; [exact H|]. intros [a|] s' HQ; [done|by wstep]. Qed.
Lemma wp_kern {A} (m : M (kstate BS) A) (Q : A → PS → Prop) s : wp m (λ a k, Q a (set_k k s)) (ps_k s) → wp (kern m) Q s.
Proof. apply wp_zoom. Qed.

(** The three arguments of read and write: a descriptor, a buffer inside the
    process's memory, its size. *)
Record rw_args s (p : proc) (fd f : nat) (v : file) (buf n : Z) : Prop := mkRwArgs {
  ra_file : open_file s p fd f v;
  ra_count : arg s p 2 = Some n;
  ra_buf : ptr_arg s p 1 n = Some buf }.
Lemma wp_rw_args s cur p l fd f v buf n k (Q : Z → PS → Prop) :
  uproc kend s cur p l → rw_args s p fd f v buf n → wp (k f n buf p) Q s →
  wp (a <-? argfd cur 0 ;; n <-? argint cur 2 ;; p <-? argptr cur 1 n ;; me <- getproc cur ;; k a.2 n p me) Q s.
Proof.
  intros Hs [Hof Hn Hb] HQ. apply wp_or_fail. apply (wp_argfd s cur p l fd f v); [done..|].
  apply wp_or_fail, (wp_argint kend s cur p l); [done|]. rewrite Hn.
  apply wp_or_fail, (wp_argptr kend s cur p l); [done|]. rewrite Hb.
  wstep1. eapply wp_getproc; [apply Hs|]. exact HQ.
Qed.
Lemma fdata_bytes t ip i : idle sb t ip i → Forall is_byte (fdata (vw (f_store t)) i).
Proof.
  intros Hid. destruct (bs_view_wf _ (id_wf _ _ _ _ Hid)) as [Hv _]. apply Forall_fmap, Forall_forall. intros o _. cbn.
  unfold fbyte, vw. destruct (t_view _ !! _) as [d|] eqn:E; [|done]. apply (Forall_lookup_1 _ _ _ _ Hv) in E as [_ Hd].
  destruct (d !! (o mod 512)%nat) as [x|] eqn:Ex; [|done]. by apply (Forall_lookup_1 _ _ _ _ Hd) in Ex.
Qed.

(** The memory of process [p] after [d] was stored at [va]. *)
Definition stored s s' (p : proc) (va : Z) (d : list Z) : Prop :=
  (∀ va', pte_of (pages s') (p_pgdir p) va' = pte_of (pages s) (p_pgdir p) va') ∧
  ∀ va', 0 ≤ va' < KERNBASE → kbyte (pages s') (p_pgdir p) va' =
    if decide (va ≤ va' < va + Z.of_nat (length d)) then d !! Z.to_nat (va' - va)
    else kbyte (pages s) (p_pgdir p) va'.

Lemma wp_sys_read s cur p l fd f v i buf n :
  uproc kend s cur p l → rw_args s p fd f v buf n → f_readable v = true →
  idle sb (k_fs (ps_k s)) (f_ip v) i → i_type i ≠ T_DEV → 0 ≤ f_off v ≤ i_size i → f_off v + u32 n < 2 ^ 32 →
  let m := Z.min (u32 n) (i_size i - f_off v) in
  buf + m ≤ p_sz p →
  wp (sys_read devsw cur) (λ r s',
    r = m ∧ uproc kend s' cur p l ∧ ps_table s' = ps_table s ∧
    stored s s' p buf (slice (fdata (vw (f_store (k_fs (ps_k s)))) i) (Z.to_nat (f_off v)) (Z.to_nat m)) ∧
    k_ftable (ps_k s') = <[f := fl_set_off (f_off v + m) v]> (k_ftable (ps_k s)) ∧
    f_icache (k_fs (ps_k s')) = f_icache (k_fs (ps_k s)) ∧
    same (f_store (k_fs (ps_k s))) (f_store (k_fs (ps_k s')))) s.
Proof.
  intros Hs Hra Hrd Hid Hdev Hoff Hmax m Hfit. pose proof Hs as [Hp Hu Hsz Hmap].
  assert (0 ≤ buf) as Hb0.
  { destruct Hra as [_ _ Hb]. unfold ptr_arg in Hb. destruct (arg s p 1) as [a|]; [|done]. cbn in Hb.
    destruct (decide _); [|done]. injection Hb as <-. apply u32_range. }
  set (d := slice _ _ _). pose proof (u32_range n). assert (0 ≤ m) as Hm by (unfold m; lia).
  assert (Z.of_nat (length d) = m) as Hd.
  { unfold d. rewrite length_slice by (rewrite length_fdata; unfold m; lia). lia. }
  unfold sys_read. apply (wp_rw_args s cur p l fd f v buf n
    (λ f n buf me, r <- kern (fileread devsw (p_killed me) f n) ;; kern (km (store_bytes (p_pgdir me) buf r.2)) ;;; ret r.1));
    [done..|]. wstep1.
  apply wp_kern. eapply wp_mono; [apply (wp_fileread sb devsw (p_killed p) (ps_k s) f v i n); try done; apply Hra|].
  cbv beta. fold m d. intros r k (-> & Hft & Hic & Hst & Hpi & Hkm). cbn [fst snd] in *.
  wstep1. apply wp_kern, wp_zoom. cbn [ps_k set_k]. rewrite Hkm.
  apply (wp_store_bytes kend d _ l); [done|lia|rewrite Hd; lia|rewrite Hd; intros va' ?; apply Hmap; lia| |].
  { by apply Forall_slice, (fdata_bytes _ (f_ip v)). }
  intros t Hu' Hpte Hby. wstep1. cbn [fst]. unfold stored, pages. cbn [ps_k set_k ps_table k_kmem set_km k_ftable k_fs k_pipes].
  split_and!; try done. split; cbn [ps_k set_k ps_table k_kmem set_km]; try done. intros va' Hva'. rewrite Hpte. by apply Hmap.
Qed.

(** C15: the system call read puts the file into the process's memory: from a file
    open for reading it returns the smaller of the count and the bytes left,
    stores exactly those bytes of the file at the user's buffer, leaves the rest
    of the memory, the disk and the process table alone and advances the offset. *)
Theorem sys_read_correct s cur p l fd f v i buf n :
  uproc kend s cur p l → rw_args s p fd f v buf n → f_readable v = true → 0 ≤ n < 2 ^ 31 →
  idle sb (k_fs (ps_k s)) (f_ip v) i → i_type i ≠ T_DEV → 0 ≤ f_off v ≤ i_size i →
  wp (sys_read devsw cur) (λ r s',
    r = Z.min n (i_size i - f_off v) ∧ uproc kend s' cur p l ∧ ps_table s' = ps_table s ∧
    stored s s' p buf (slice (fdata (vw (f_store (k_fs (ps_k s)))) i) (Z.to_nat (f_off v)) (Z.to_nat r)) ∧
    k_ftable (ps_k s') = <[f := fl_set_off (f_off v + r) v]> (k_ftable (ps_k s)) ∧
    f_icache (k_fs (ps_k s')) = f_icache (k_fs (ps_k s)) ∧
    same (f_store (k_fs (ps_k s))) (f_store (k_fs (ps_k s')))) s.
Proof.
  intros Hs Hra Hrd Hn Hid Hdev Hoff. pose proof (fo_size _ _ _ (id_file _ _ _ _ Hid)) as Hsize.
  change (MAXFILE * BSIZE) with 71680 in Hsize.
  destruct (ptr_arg_inside kend s cur p l Hs 1 n buf Hn (ra_buf _ _ _ _ _ _ _ Hra)) as [Hb Hfit].
  pose proof (wp_sys_read s cur p l fd f v i buf n Hs Hra Hrd Hid Hdev Hoff) as H. rewrite u32_small in H by lia.
  eapply wp_mono; [apply H; lia|]. cbv beta. by intros r s' (-> & ?).
Qed.


End calls.

(** ** An example: one page of memory, its first words the arguments *)
Definition ex_stack (n : Z) : list Z := splice zero_page 0 (words [0; 0; 100; n]).
Definition ex_umem (n : Z) : kmem := set_pages (<[ex_frame := ex_stack n]> (km_pages ex_vm)) ex_vm.
Definition ex_uproc : proc := set_ofile (Some 0%nat :: replicate 15 None) (set_pgdir ex_dir (set_sz 4096 (set_state RUNNING proc0))).
Definition ex_upstate (n : Z) (b : lstate) : pstate log_store :=
  mkP (set_km (ex_umem n) (ex_kstate b)) [ex_uproc] 2 (Some 0%nat) false.

Lemma ex_stack_wf n : page_wf (ex_stack n).
Proof.
  split; [done|]. unfold ex_stack, words. apply Forall_splice; [apply zero_page_wf|].
  apply Forall_join. repeat (constructor; [apply le_enc_bytes|]). constructor.
Qed.
Lemma ex_umem_ok n :
  user ex_vend (ex_umem n) [] ex_dir ∧
  (∀ va, pte_of (km_pages (ex_umem n)) ex_dir va = pte_of ex_vpages ex_dir va) ∧
  ∀ va, 0 ≤ va < 4096 → kbyte (km_pages (ex_umem n)) ex_dir va = ex_stack n !! Z.to_nat va.
Proof.
  destruct (user_write ex_vend ex_vm [] ex_dir 0 ex_frame (ex_stack n)) as (Hu & Hp & Hk).
  - apply ex_user.
  - done.
  - unfold uframe. cbn [ex_vm km_pages]. rewrite ex_present by lia. done.
  - apply ex_stack_wf.
  - split_and!; [done..|]. intros va Hva. unfold ex_umem. rewrite Hk by (unfold KERNBASE; lia).
    rewrite decide_True by zlia. f_equal. zlia.
Qed.
Lemma ex_uproc_ok n b : uproc ex_vend (ex_upstate n b) 0 ex_uproc [].
Proof.
  destruct (ex_umem_ok n) as (Hu & Hp & _). split; [done|exact Hu|done|].
  intros va Hva. cbn [ps_k ex_upstate k_kmem set_km p_pgdir ex_uproc set_ofile set_pgdir]. rewrite Hp, ex_present by exact Hva. done.
Qed.
Lemma ex_ubuf n b va m : 0 ≤ va → va + Z.of_nat m ≤ 4096 → ubuf (ex_upstate n b) ex_uproc va m = slice (ex_stack n) (Z.to_nat va) m.
Proof.
  intros Hva Hm. destruct (ex_umem_ok n) as (_ & _ & Hk). destruct (ex_stack_wf n) as [Hl _].
  apply list_eq. intros j. destruct (decide (j < m)%nat) as [Hj|Hj].
  - unfold ubuf. rewrite lookup_ubytes by done. unfold pages. cbn [ps_k ex_upstate k_kmem set_km]. rewrite Hk by lia.
    rewrite lookup_slice by done. destruct (lookup_lt_is_Some_2 (ex_stack n) (Z.to_nat va + j)) as [x Hx]; [lia|].
    rewrite Hx. replace (Z.to_nat (va + Z.of_nat j)) with (Z.to_nat va + j)%nat by lia. by rewrite Hx.
  - rewrite !lookup_ge_None_2; [done| |]; unfold ubuf; rewrite ?length_ubytes; [|lia].
    rewrite length_slice by lia. lia.
Qed.
Lemma ex_arg n b k : 0 ≤ k < 3 → arg (ex_upstate n b) ex_uproc k = Some (s32 (u32_at (slice (ex_stack n) (Z.to_nat (4 + 4 * k)) 4) 0)).
Proof.
  intros Hk. unfold arg, uint_at. cbn [p_tf ex_uproc set_ofile set_pgdir set_sz set_state proc0 tf_esp tf0].
  rewrite u32_small by lia. rewrite decide_True by (cbn; lia). rewrite ex_ubuf by lia. done.
Qed.
Lemma ex_open n b : open_file (ex_upstate n b) ex_uproc 0 0 ex_file.
Proof. split; [by rewrite ex_arg by lia|done|by apply Nat.ltb_lt|done|done]. Qed.
Lemma ex_rw n b : 0 ≤ n < 2000 → rw_args (ex_upstate n b) ex_uproc 0 0 ex_file 100 n.
Proof.
  intros Hn. assert (s32 (u32_at (slice (ex_stack n) 12 4) 0) = n) as En.
  { change (slice (ex_stack n) 12 4) with (le_enc 4 n). unfold u32_at, slice. rewrite drop_0, take_ge by (rewrite length_le_enc; lia).
    rewrite le_dec_enc, Z.mod_small by lia. apply s32_small. lia. }
  split; [apply ex_open| |].
  - rewrite ex_arg by lia. by rewrite <- En at 2.
  - unfold ptr_arg. rewrite ex_arg by lia. change (s32 _) with 100. cbn [mbind option_bind].
    change (u32 100) with 100. rewrite u32_small by lia. cbn. rewrite decide_True; [done|]. lia.
Qed.

Lemma syscall_arguments_witness :
  ∃ b, wp (argint 0 1) (λ r s', s' = ex_upstate 2 b ∧ r = Some 100) (ex_upstate 2 b).
Proof.
  destruct ex_idle as (b & _). exists b.
  destruct (syscall_arguments ex_vend (ex_upstate 2 b) 0 ex_uproc [] 1 (ex_uproc_ok 2 b)) as [H _].
  rewrite ex_arg in H by lia. exact H.
Defined.
Lemma argptr_negative_size_witness :
  ∃ b, wp (argptr 0 1 (-1)) (λ r s', s' = ex_upstate 2 b ∧ r = Some 100) (ex_upstate 2 b).
Proof.
  destruct ex_idle as (b & _). exists b.
  apply (argptr_negative_size ex_vend (ex_upstate 2 b) 0 ex_uproc [] 1 (-1) 100 (ex_uproc_ok 2 b));
    [rewrite ex_arg by lia; reflexivity|lia|split; [discriminate|reflexivity]].
Defined.
Lemma sys_read_correct_witness :
  ∃ b s', sys_read (BS := log_store) no_dev 0 (ex_upstate 10 b) = Ok 0 s'.
Proof.
  destruct ex_idle as (b & Hid & HC & HV). exists b.
  destruct (wp_run _ _ _ (sys_read_correct ex_sb no_dev ex_vend (ex_upstate 10 b) 0 ex_uproc [] 0 0 ex_file ex_ifree 100 10
    (ex_uproc_ok 10 b) (ex_rw 10 b ltac:(lia)) eq_refl ltac:(lia) Hid ltac:(done) ltac:(done))) as (r & s' & Hrun & -> & _).
  exists s'. exact Hrun.
Defined.
