(* ===== verification/ExecSpec.v ===== *)
(** * The initial stack of a program

    What push_args, the part of exec that copies the arguments, leaves in the
    memory of the new program. *)
From stdpp Require Import base list gmap numbers option strings sets.
From Stdlib Require Import ZArith Lia.
From S2P Require Import Prelude Kstring Layout BlockStore Fs Kalloc Pipe File Vm VmSpec VmUser VmCopy Proc Syscall Exec.
From S2P Require Import SyscallSpec.
Open Scope Z_scope.

Lemma align4 x : 0 ≤ x < 2 ^ 32 → Z.land x (u32 (Z.lnot 3)) = x - x mod 4.
Proof.
  intros Hx. change (u32 (Z.lnot 3)) with (Z.ldiff (Z.ones 32) (Z.ones 2)).
  rewrite Z.land_comm. replace (Z.land (Z.ldiff (Z.ones 32) (Z.ones 2)) x) with (Z.ldiff (Z.land x (Z.ones 32)) (Z.ones 2)).
  2: { apply Z.bits_inj'. intros n Hn. rewrite !Z.ldiff_spec, !Z.land_spec, !Z.ldiff_spec. by destruct (Z.testbit x n), (Z.testbit (Z.ones 32) n), (Z.testbit (Z.ones 2) n). }
  rewrite Z.land_ones, Z.mod_small by lia. rewrite Z.ldiff_ones_r by lia. rewrite Z.shiftl_mul_pow2, Z.shiftr_div_pow2 by lia.
  change (2 ^ 2) with 4. zlia.
Qed.
Lemma push_sp_eq sp s : Z.of_nat (length s) + 1 ≤ sp < 2 ^ 32 → Forall (λ c, c ≠ 0) s →
  push_sp sp s = sp - (Z.of_nat (length s) + 1) - (sp - (Z.of_nat (length s) + 1)) mod 4.
Proof.
  intros Hsp Hs. unfold push_sp. rewrite strlen_cstr, cstr_id by done. rewrite u32_small by lia. apply align4. lia.
Qed.

(** The room the strings need at most, with their terminators and padding. *)
Definition room (argv : list (list Z)) : Z := foldr (λ s n, Z.of_nat (length s) + 4 + n) 0 argv.
Definition arg_ok (s : list Z) : Prop := Forall (λ c, is_byte c ∧ c ≠ 0) s.

Section push.
Context (kend : Z) (Hkend : KERNBASE < kend).
Implicit Types s : kmem.

(** The pages of [lo, hi) belong to the user. *)
Definition user_range s (pgdir lo hi : Z) : Prop := ∀ va, lo ≤ va < hi →
  has (pte_of (km_pages s) pgdir va) PTE_P = true ∧ has (pte_of (km_pages s) pgdir va) PTE_U = true.
(** Only the bytes of [lo, hi) changed. *)
Definition only s s' (pgdir lo hi : Z) : Prop :=
  (∀ va, pte_of (km_pages s') pgdir va = pte_of (km_pages s) pgdir va) ∧
  ∀ va, 0 ≤ va < KERNBASE → va < lo ∨ hi ≤ va → kbyte (km_pages s') pgdir va = kbyte (km_pages s) pgdir va.

Lemma only_trans s1 s2 s3 pgdir lo1 hi1 lo2 hi2 lo hi :
  only s1 s2 pgdir lo1 hi1 → only s2 s3 pgdir lo2 hi2 → lo ≤ lo1 → lo ≤ lo2 → hi1 ≤ hi → hi2 ≤ hi →
  only s1 s3 pgdir lo hi.
Proof.
  intros [Hp1 Hb1] [Hp2 Hb2] ? ? ? ?. split; [intros va; by rewrite Hp2|].
  intros va Hva Hout. rewrite Hb2, Hb1; [done|done|lia|done|lia].
Qed.
Lemma only_ubytes s s' pgdir lo hi va n :
  only s s' pgdir lo hi → 0 ≤ va → va + Z.of_nat n ≤ KERNBASE → va + Z.of_nat n ≤ lo ∨ hi ≤ va →
  ubytes (km_pages s') pgdir va n = ubytes (km_pages s) pgdir va n.
Proof.
  intros [_ Hb] Hva Hmax Hout. unfold ubytes. apply list_fmap_ext. intros i x Hx.
  apply lookup_seq in Hx as [-> Hi]. by rewrite Hb by lia.
Qed.
Lemma user_range_only s s' pgdir lo hi lo' hi' :
  user_range s pgdir lo hi → only s s' pgdir lo' hi' → user_range s' pgdir lo hi.
Proof. intros Hr [Hp _] va Hva. rewrite Hp. by apply Hr. Qed.

Lemma wp_copyout s l pgdir va d :
  user kend s l pgdir → 0 ≤ va → va + Z.of_nat (length d) ≤ KERNBASE → Forall is_byte d →
  user_range s pgdir va (va + Z.of_nat (length d)) →
  wp (copyout pgdir va d) (λ r s', r = 0 ∧ user kend s' l pgdir ∧ only s s' pgdir va (va + Z.of_nat (length d)) ∧
    ubytes (km_pages s') pgdir va (length d) = d) s.
Proof.
  intros Hu Hva Hmax Hd Hr. eapply wp_mono; [apply (wp_copyout_loop kend Hkend); try done; lia|].
  intros r s' (-> & Hu' & Hpte & Hby). split_and!; [done|done| |].
  - split; [done|]. intros va' Hva' Hout. rewrite Hby by done. by rewrite decide_False by lia.
  - apply list_eq. intros i. destruct (decide (i < length d)%nat) as [Hi|Hi].
    + rewrite lookup_ubytes by done. rewrite Hby, decide_True by lia.
      replace (Z.to_nat (va + Z.of_nat i - va)) with i by lia. destruct (lookup_lt_is_Some_2 d i Hi) as [x Hx]. by rewrite Hx.
    + rewrite !lookup_ge_None_2; [done|lia|rewrite length_ubytes; lia].
Qed.

(** Every string is at its pointer, between [lo] and [hi]. *)
Definition strings_at s (pgdir lo hi : Z) (argv : list (list Z)) (ptrs : list Z) : Prop :=
  Forall2 (λ str q, lo ≤ q ∧ q + Z.of_nat (length str) + 1 ≤ hi ∧
    ubytes (km_pages s) pgdir q (S (length str)) = str ++ [0]) argv ptrs.

Lemma wp_push_strings argv s l pgdir sp argc base :
  user kend s l pgdir → 0 ≤ base → base + room argv ≤ sp ≤ KERNBASE → sp mod 4 = 0 → user_range s pgdir base sp →
  Forall arg_ok argv → 0 ≤ argc → argc + Z.of_nat (length argv) ≤ MAXARG →
  wp (push_strings pgdir sp argc argv) (λ r s', ∃ sp' ptrs, r = Some (sp', ptrs) ∧ user kend s' l pgdir ∧
    base ≤ sp' ≤ sp ∧ sp - sp' ≤ room argv ∧ sp' mod 4 = 0 ∧ only s s' pgdir sp' sp ∧
    strings_at s' pgdir sp' sp argv ptrs) s.
Proof.
  revert s sp argc. induction argv as [|str argv IH]; intros s sp argc Hu Hb Hsp Hal Hr Hok Hc Hmax; cbn [push_strings].
  { wstep1. exists sp, []. cbn [room foldr] in *. split_and!; try done; [lia..|constructor]. }
  apply Forall_cons in Hok as [Hs Hok]. cbn [room foldr length] in *. fold (room argv) in *. change MAXARG with 32 in *.
  assert (0 ≤ room argv) as Hroom by (clear; induction argv as [|? ? IH]; cbn [room foldr]; [done|fold (room argv); lia]).
  assert (Forall (λ c, c ≠ 0) str) as Hnz by (eapply Forall_impl; [exact Hs|]; naive_solver).
  unfold KERNBASE in *. rewrite (proj2 (Z.leb_gt 32 argc)) by lia. rewrite push_sp_eq by (done || lia).
  rewrite strlen_cstr, cstr_id, Nat2Z.id, firstn_all by done.
  set (sp1 := sp - _ - _). assert (sp - (Z.of_nat (length str) + 4) ≤ sp1 ≤ sp - (Z.of_nat (length str) + 1)) as Hsp1 by (unfold sp1; zlia).
  assert (sp1 mod 4 = 0) as Hal1 by (unfold sp1; zlia).
  assert (length (str ++ [0]) = S (length str)) as Hl by (rewrite length_app; cbn; lia).
  wstep1. eapply wp_mono; [apply (wp_copyout s l); [done|lia|rewrite Hl; unfold KERNBASE; lia| |]|].
  - apply Forall_app. split; [eapply Forall_impl; [exact Hs|]; naive_solver|by repeat constructor].
  - intros va Hva. apply Hr. rewrite Hl in Hva. lia.
  - cbv beta. rewrite Hl. intros r s1 (-> & Hu1 & Ho1 & Hb1). cbn [Z.ltb Z.compare]. wstep1.
    eapply wp_mono; [apply (IH s1 sp1 (argc + 1)); [done|done|lia|done| |done|lia|lia]|].
    + intros va Hva. apply (user_range_only _ _ _ _ _ _ _ Hr Ho1). lia.
    + cbv beta. intros r s2 (sp' & ptrs & -> & Hu2 & Hle & Hrm & Hal2 & Ho2 & Hst). wstep1. exists sp', (sp1 :: ptrs).
      split_and!; [done|done|lia|lia|lia|done| |].
      * eapply only_trans; [exact Ho1|exact Ho2|lia..].
      * constructor.
        -- split_and!; [lia|lia|]. rewrite (only_ubytes s1 s2 pgdir sp' sp1) by (done || unfold KERNBASE; lia). exact Hb1.
        -- eapply Forall2_impl; [exact Hst|]. cbv beta. intros x q (? & ? & ?). split_and!; [done|lia|done].
Qed.
End push.

Lemma length_words ws : length (words ws) = (4 * length ws)%nat.
Proof.
  induction ws as [|w ws IH]; [done|]. change (words (w :: ws)) with (le_enc 4 w ++ words ws).
  rewrite length_app, length_le_enc, IH. cbn [length]. lia.
Qed.
Lemma words_bytes ws : Forall is_byte (words ws).
Proof. unfold words. apply Forall_join, Forall_fmap, Forall_forall. intros w _. apply le_enc_bytes. Qed.

(** C16: exec hands over the arguments: when they fit into the stack page, the new
    program starts with its stack pointer, aligned to 4, at a fake return
    address, argc, a pointer to argv and argv itself, argc pointers and a null;
    each points to its string, unchanged and terminated; and nothing outside
    the used part of the stack page is written. *)
Theorem exec_stack kend s l pgdir sz argv :
  KERNBASE < kend → user kend s l pgdir → 4096 ≤ sz ≤ KERNBASE → sz mod 4 = 0 → user_range s pgdir (sz - 4096) sz →
  Forall arg_ok argv → Z.of_nat (length argv) ≤ MAXARG → room argv + 4 * (Z.of_nat (length argv) + 4) ≤ 4096 →
  wp (push_args pgdir sz argv) (λ r s', ∃ sp ptrs, r = Some sp ∧ user kend s' l pgdir ∧
    sz - 4096 ≤ sp ∧ sp mod 4 = 0 ∧ only s s' pgdir sp sz ∧ strings_at s' pgdir sp sz argv ptrs ∧
    ubytes (km_pages s') pgdir sp (4 * (length argv + 4)) =
      words ([0xffffffff; Z.of_nat (length argv); sp + 12] ++ ptrs ++ [0])) s.
Proof.
  intros Hkend Hu Hsz Hal Hr Hok Hmax Hfit. unfold push_args. wstep1.
  eapply wp_mono; [apply (wp_push_strings kend Hkend argv s l pgdir sz 0 (sz - 4096)); try done; lia|].
  cbv beta. intros r s1 (sp & ptrs & -> & Hu1 & Hsp & Hrm & Hal1 & Ho1 & Hst). cbv zeta. unfold KERNBASE in *.
  pose proof (Forall2_length _ _ _ Hst) as Hlen. rewrite <- Hlen. set (argc := Z.of_nat (length argv)) in *.
  rewrite !u32_small by lia. replace (sp - (argc + 1) * 4) with (sp - (3 + argc + 1) * 4 + 12) by lia.
  set (sp' := sp - (3 + argc + 1) * 4). set (ws := _ ++ _).
  assert (Z.of_nat (length (words ws)) = 4 * (argc + 4)) as Hw.
  { rewrite length_words. unfold ws. rewrite !length_app, <- Hlen. cbn. lia. }
  wstep1. eapply wp_mono; [apply (wp_copyout kend Hkend s1 l); [done|lia|rewrite Hw; unfold KERNBASE; lia|apply words_bytes|]|].
  - intros va Hva. apply (user_range_only _ _ _ _ _ _ _ Hr Ho1). lia.
  - cbv beta. rewrite Hw. intros r s2 (-> & Hu2 & Ho2 & Hb2). cbn [Z.ltb Z.compare]. wstep1. exists sp', ptrs.
    refine (conj eq_refl (conj Hu2 (conj _ (conj _ (conj _ (conj _ _)))))); [lia|unfold sp'; zlia| | |].
    + eapply (only_trans s s1 s2); [exact Ho1|exact Ho2|lia..].
    + eapply Forall2_impl; [exact Hst|]. cbv beta. intros x q (? & ? & Hx). split_and!; [lia|lia|].
      rewrite (only_ubytes s1 s2 pgdir sp' (sp' + 4 * (argc + 4))) by (done || unfold KERNBASE; lia). done.
    + replace (4 * (length argv + 4))%nat with (length (words ws)) by lia. exact Hb2.
Qed.

(** Witness of exec_stack: "ls -a" in the address space of one page. *)
Lemma exec_stack_witness :
  wp (push_args ex_dir 4096 [[108; 115]; [45; 97]]) (λ r s', ∃ sp ptrs, r = Some sp ∧
    strings_at s' ex_dir sp 4096 [[108; 115]; [45; 97]] ptrs) ex_vm.
Proof.
  eapply wp_mono.
  - apply (exec_stack ex_vend ex_vm [] ex_dir 4096 [[108; 115]; [45; 97]]);
      [reflexivity|exact ex_user|split; discriminate|reflexivity| |by repeat constructor|discriminate|discriminate].
    intros va Hva. cbn [ex_vm km_pages]. rewrite ex_present by exact Hva. split; reflexivity.
  - cbv beta. intros r s' (sp & ptrs & -> & _ & _ & _ & _ & Hs & _). exists sp, ptrs. split; [reflexivity|exact Hs].
Defined.
