(* ===== verification/Spinlock.v ===== *)
(** * Spin locks (spinlock.c, spinlock.h)

    The code of acquire and release cut at its atomic accesses (the two xchg's),
    run by any number of processors in any interleaving.  The call stack that
    acquire records in the lock is left out. *)
From stdpp Require Import base list gmap numbers option strings sets relations.
From Stdlib Require Import ZArith Lia.
From S2P Require Import Prelude.
Open Scope Z_scope.

(** ** The code *)
Record spinlock := mkLock { lk_locked : Z; lk_cpu : option nat }.
(** What struct cpu and the processor's flags say about interrupts. *)
Record cpustate := mkCpu { c_ncli : Z; c_intena : bool; c_if : bool }.

Definition initlock : spinlock := mkLock 0 None.
Definition holding (cpu : nat) (lk : spinlock) : bool :=
  negb (lk_locked lk =? 0) && bool_decide (lk_cpu lk = Some cpu).
Definition pushcli : M cpustate unit :=
  modify (λ c, mkCpu (c_ncli c + 1) (if c_ncli c =? 0 then c_if c else c_intena c) false).
Definition popcli : M cpustate unit :=
  c <- gets id ;;
  if c_if c then panic "popcli - interruptible"
  else
    let n := c_ncli c - 1 in
    if n <? 0 then panic "popcli"
    else modify (λ c, mkCpu n (c_intena c) ((n =? 0) && c_intena c)).

(** acquire up to its loop, one round of the loop (true when the lock is won),
    and the end; release up to its xchg, and the rest. *)
Definition acquire_begin (cpu : nat) (lk : spinlock) : M cpustate unit :=
  pushcli ;;; if holding cpu lk then panic "acquire" else ret tt.
Definition acquire_xchg (lk : spinlock) : bool * spinlock := (lk_locked lk =? 0, mkLock 1 (lk_cpu lk)).
Definition acquire_end (cpu : nat) (lk : spinlock) : spinlock := mkLock (lk_locked lk) (Some cpu).
Definition release_begin (cpu : nat) : M spinlock unit :=
  lk <- gets id ;;
  if negb (holding cpu lk) then panic "release" else modify (λ lk, mkLock (lk_locked lk) None).
Definition release_xchg (lk : spinlock) : spinlock := mkLock 0 (lk_cpu lk).

(** ** Processors sharing locks *)
(** Where a processor is in acquire or release. *)
Inductive phase := Idle | Spin (k : nat) | Won (k : nat) | Rel (k : nat).
#[export] Instance phase_eq_dec : EqDecision phase.
Proof. solve_decision. Defined.

(** A processor, the locks between its acquire and its release, the pushcli
    calls made outside locks, and the interrupt flag before the first of all. *)
Record core := mkCore {
  g_cpu : cpustate; g_phase : phase; g_held : gset nat; g_extra : nat; g_if : bool }.
Record smp := mkSmp { m_locks : list spinlock; m_cores : list core }.

Inductive lock_step (s : smp) : smp → Prop :=
| ls_acquire c g k lk cp :
    m_cores s !! c = Some g → g_phase g = Idle → m_locks s !! k = Some lk →
    acquire_begin c lk (g_cpu g) = Ok tt cp →
    lock_step s (mkSmp (m_locks s) (<[c := mkCore cp (Spin k) (g_held g) (g_extra g) (g_if g)]> (m_cores s)))
| ls_xchg c g k lk won lk' :
    m_cores s !! c = Some g → g_phase g = Spin k → m_locks s !! k = Some lk → acquire_xchg lk = (won, lk') →
    lock_step s (mkSmp (<[k := lk']> (m_locks s))
      (<[c := mkCore (g_cpu g) (if won then Won k else Spin k) (g_held g) (g_extra g) (g_if g)]> (m_cores s)))
| ls_acquired c g k lk :
    m_cores s !! c = Some g → g_phase g = Won k → m_locks s !! k = Some lk →
    lock_step s (mkSmp (<[k := acquire_end c lk]> (m_locks s))
      (<[c := mkCore (g_cpu g) Idle ({[k]} ∪ g_held g) (g_extra g) (g_if g)]> (m_cores s)))
| ls_release c g k lk lk' :
    m_cores s !! c = Some g → g_phase g = Idle → m_locks s !! k = Some lk → release_begin c lk = Ok tt lk' →
    lock_step s (mkSmp (<[k := lk']> (m_locks s))
      (<[c := mkCore (g_cpu g) (Rel k) (g_held g) (g_extra g) (g_if g)]> (m_cores s)))
| ls_released c g k lk cp :
    m_cores s !! c = Some g → g_phase g = Rel k → m_locks s !! k = Some lk → popcli (g_cpu g) = Ok tt cp →
    lock_step s (mkSmp (<[k := release_xchg lk]> (m_locks s))
      (<[c := mkCore cp Idle (g_held g ∖ {[k]}) (g_extra g) (g_if g)]> (m_cores s)))
| ls_pushcli c g cp :
    m_cores s !! c = Some g → g_phase g = Idle → pushcli (g_cpu g) = Ok tt cp →
    lock_step s (mkSmp (m_locks s) (<[c := mkCore cp Idle (g_held g) (S (g_extra g)) (g_if g)]> (m_cores s)))
| ls_popcli c g n cp :
    m_cores s !! c = Some g → g_phase g = Idle → g_extra g = S n → popcli (g_cpu g) = Ok tt cp →
    lock_step s (mkSmp (m_locks s) (<[c := mkCore cp Idle (g_held g) n (g_if g)]> (m_cores s)))
| ls_flag c g b :
    m_cores s !! c = Some g → c_ncli (g_cpu g) = 0 →
    lock_step s (mkSmp (m_locks s)
      (<[c := mkCore (mkCpu 0 (c_intena (g_cpu g)) b) (g_phase g) (g_held g) (g_extra g) b]> (m_cores s))).

Definition core0 (b : bool) : core := mkCore (mkCpu 0 false b) Idle ∅ 0 b.
Definition smp0 (n : nat) (flags : list bool) : smp := mkSmp (replicate n initlock) (core0 <$> flags).

(** ** The invariant *)
(** The processor is between the two xchg's of the lock. *)
Definition owns (g : core) (k : nat) : Prop := k ∈ g_held g ∨ g_phase g = Won k.
Definition waits (g : core) : nat := match g_phase g with Spin _ | Won _ => 1 | _ => 0 end.

Record core_ok (g : core) : Prop := {
  ck_count : c_ncli (g_cpu g) = Z.of_nat (g_extra g + size (g_held g) + waits g);
  ck_flag : if decide (c_ncli (g_cpu g) = 0) then c_if (g_cpu g) = g_if g
            else c_if (g_cpu g) = false ∧ c_intena (g_cpu g) = g_if g;
  ck_phase : match g_phase g with
             | Idle => True
             | Spin k | Won k => k ∉ g_held g
             | Rel k => k ∈ g_held g
             end }.
Record lock_ok (cores : list core) (k : nat) (lk : spinlock) : Prop := {
  lo_locked : lk_locked lk ≠ 0 ↔ ∃ c g, cores !! c = Some g ∧ owns g k;
  lo_cpu c : lk_cpu lk = Some c ↔ ∃ g, cores !! c = Some g ∧ k ∈ g_held g ∧ g_phase g ≠ Rel k;
  lo_one c c' g g' : cores !! c = Some g → cores !! c' = Some g' → owns g k → owns g' k → c = c' }.
Record smp_ok (s : smp) : Prop := {
  so_cores c g : m_cores s !! c = Some g → core_ok g;
  so_locks k lk : m_locks s !! k = Some lk → lock_ok (m_cores s) k lk;
  so_held c g k : m_cores s !! c = Some g → owns g k → is_Some (m_locks s !! k) }.

(** The core of processor [c] changes from [g] to [g'], which agree on lock [k]. *)
Lemma lock_ok_core cores k lk c g g' :
  cores !! c = Some g → lock_ok cores k lk → (owns g' k ↔ owns g k) →
  (k ∈ g_held g' ∧ g_phase g' ≠ Rel k ↔ k ∈ g_held g ∧ g_phase g ≠ Rel k) →
  lock_ok (<[c := g']> cores) k lk.
Proof.
  intros Hc [Hl Hcpu Hone] Ho Hh. assert (<[c := g']> cores !! c = Some g') as Hc'.
  { apply list_lookup_insert_eq. by eapply lookup_lt_Some. }
  assert (∀ c1 g1, <[c := g']> cores !! c1 = Some g1 → ∃ g2, cores !! c1 = Some g2 ∧ (owns g1 k ↔ owns g2 k)) as Hback.
  { intros c1 g1 [[<- ->]|[_ H]]%insert_cases; eauto. }
  split.
  - rewrite Hl. split.
    + intros (c1 & g1 & Hc1 & Ho1). destruct (decide (c = c1)) as [<- |Hne].
      * exists c, g'. split; [done|]. apply Ho. congruence.
      * exists c1, g1. by rewrite list_lookup_insert_ne.
    + intros (c1 & g1 & Hc1 & Ho1). destruct (Hback _ _ Hc1) as (g2 & ? & E). apply E in Ho1. eauto.
  - intros c1. rewrite Hcpu. destruct (decide (c = c1)) as [<- |Hne].
    + rewrite Hc, Hc'. naive_solver.
    + by rewrite list_lookup_insert_ne.
  - intros c1 c2 g1 g2 H1 H2 Ho1 Ho2. destruct (Hback _ _ H1) as (h1 & ? & E1), (Hback _ _ H2) as (h2 & ? & E2).
    apply (Hone c1 c2 h1 h2); [done|done|by apply E1|by apply E2].
Qed.

(** A step of processor [c] on lock [k]: what is left to show is about this
    processor and this lock. *)
Lemma smp_ok_step s c g g' k lk' :
  smp_ok s → m_cores s !! c = Some g → core_ok g' →
  (∀ k', k' ≠ k → (owns g' k' ↔ owns g k') ∧
     (k' ∈ g_held g' ∧ g_phase g' ≠ Rel k' ↔ k' ∈ g_held g ∧ g_phase g ≠ Rel k')) →
  (k < length (m_locks s))%nat → lock_ok (<[c := g']> (m_cores s)) k lk' →
  smp_ok (mkSmp (<[k := lk']> (m_locks s)) (<[c := g']> (m_cores s))).
Proof.
  intros [Hcs Hls Hhs] Hc Hg Hoth Hk Hlk. split; cbn.
  - intros c1 g1 [[_ ->]|[_ H]]%insert_cases; eauto.
  - intros k1 lk1 [[<- ->]|[Hne H]]%insert_cases; [done|]. apply (lock_ok_core _ _ _ c g); [done|eauto|..]; apply Hoth; congruence.
  - intros c1 g1 k1 Hc1 Ho1. destruct (decide (k1 = k)) as [-> |Hne].
    { rewrite list_lookup_insert_eq by done. eauto. }
    rewrite list_lookup_insert_ne by done. apply insert_cases in Hc1 as [[<- ->]|[_ Hc1]]; [|eauto].
    apply (Hhs c g); [done|]. by apply Hoth.
Qed.
Lemma lock_insert_id s k lk : m_locks s !! k = Some lk → m_locks s = <[k := lk]> (m_locks s).
Proof. intros H. by rewrite list_insert_id. Qed.

(** A step of processor [c] that touches no lock. *)
Lemma smp_ok_local s c g g' :
  smp_ok s → m_cores s !! c = Some g → core_ok g' → g_held g' = g_held g →
  (∀ k, g_phase g' = Won k ↔ g_phase g = Won k) → (∀ k, g_phase g' = Rel k ↔ g_phase g = Rel k) →
  smp_ok (mkSmp (m_locks s) (<[c := g']> (m_cores s))).
Proof.
  intros [Hcs Hls Hhs] Hc Hg Hh Hw Hr. assert (∀ k, owns g' k ↔ owns g k) as Ho by (intros k; unfold owns; by rewrite Hh, Hw).
  split; cbn.
  - intros c1 g1 [[_ ->]|[_ H]]%insert_cases; eauto.
  - intros k lk H. apply (lock_ok_core _ _ _ c g); [done|eauto|done|]. by rewrite Hh, Hr.
  - intros c1 g1 k [[<- ->]|[_ Hc1]]%insert_cases Ho1; [|eauto]. apply (Hhs c g); [done|]. by apply Ho.
Qed.

(** pushcli and popcli keep the interrupt flag for the last popcli. *)
Lemma pushcli_ok cp b n :
  c_ncli cp = Z.of_nat n → (if decide (c_ncli cp = 0) then c_if cp = b else c_if cp = false ∧ c_intena cp = b) →
  ∃ cp', pushcli cp = Ok tt cp' ∧ c_ncli cp' = Z.of_nat (S n) ∧ c_if cp' = false ∧ c_intena cp' = b.
Proof.
  intros Hn Hf. eexists. split; [done|]. cbn. split_and!; [lia|done|].
  destruct (Z.eqb_spec (c_ncli cp) 0), (decide (c_ncli cp = 0)); naive_solver.
Qed.
Lemma popcli_ok cp b n :
  c_ncli cp = Z.of_nat (S n) → c_if cp = false → c_intena cp = b →
  ∃ cp', popcli cp = Ok tt cp' ∧ c_ncli cp' = Z.of_nat n ∧
    if decide (c_ncli cp' = 0) then c_if cp' = b else c_if cp' = false ∧ c_intena cp' = b.
Proof.
  intros Hn Hf Hi. unfold popcli, bind, gets. cbn. rewrite Hf, (proj2 (Z.ltb_ge (c_ncli cp - 1) 0)) by lia.
  eexists. split; [done|]. cbn. split; [lia|]. rewrite Hi.
  destruct (Z.eqb_spec (c_ncli cp - 1) 0), (decide (c_ncli cp - 1 = 0)); try lia; [by destruct b|done].
Qed.

(** A lock with owner [c], and a free lock. *)
Lemma lock_ok_owned cores k lk c g :
  cores !! c = Some g → owns g k → (∀ c' g', cores !! c' = Some g' → c' ≠ c → ¬ owns g' k) → lk_locked lk ≠ 0 →
  lk_cpu lk = (if decide (k ∈ g_held g ∧ g_phase g ≠ Rel k) then Some c else None) → lock_ok cores k lk.
Proof.
  intros Hc Ho Hoth Hl Hcpu. split.
  - split; [eauto|done].
  - intros c1. rewrite Hcpu. split.
    + destruct (decide _) as [[? ?]|]; [intros [= <-]; eauto|done].
    + intros (g1 & Hc1 & Hin & Hr). destruct (decide (c1 = c)) as [-> |Hne]; [|by destruct (Hoth c1 g1 Hc1 Hne); left].
      rewrite decide_True by naive_solver. done.
  - intros c1 c2 g1 g2 H1 H2 Ho1 Ho2. destruct (decide (c1 = c)) as [-> |Hne]; [|by destruct (Hoth c1 g1 H1 Hne)].
    destruct (decide (c2 = c)) as [-> |Hne]; [done|by destruct (Hoth c2 g2 H2 Hne)].
Qed.
Lemma lock_ok_free cores k lk :
  (∀ c g, cores !! c = Some g → ¬ owns g k) → lk_locked lk = 0 → lk_cpu lk = None → lock_ok cores k lk.
Proof.
  intros Hno Hl Hcpu. split.
  - split; [done|]. intros (c & g & Hc & Ho). by destruct (Hno c g).
  - intros c. rewrite Hcpu. split; [done|]. intros (g & Hc & Hin & _). by destruct (Hno c g Hc); left.
  - intros c c' g g' Hc _ Ho. by destruct (Hno c g).
Qed.
Lemma lock_owner cores k lk c g :
  lock_ok cores k lk → cores !! c = Some g → owns g k →
  lk_locked lk ≠ 0 ∧ (∀ c' g', cores !! c' = Some g' → c' ≠ c → ¬ owns g' k) ∧
  lk_cpu lk = (if decide (k ∈ g_held g ∧ g_phase g ≠ Rel k) then Some c else None).
Proof.
  intros [Hl Hcpu Hone] Hc Ho. split_and!.
  - apply Hl. eauto.
  - intros c' g' Hc' Hne Ho'. by apply Hne, (Hone c' c g' g).
  - destruct (decide _) as [[? ?]|Hn]; [apply Hcpu; eauto|]. destruct (lk_cpu lk) as [c1|] eqn:E; [|done].
    destruct (proj1 (Hcpu c1) eq_refl) as (g1 & Hc1 & Hin & Hr).
    assert (c1 = c) as -> by (apply (Hone c1 c g1 g); [done..|by left|done]). naive_solver.
Qed.
Lemma lock_free cores k lk :
  lock_ok cores k lk → lk_locked lk = 0 → lk_cpu lk = None ∧ ∀ c g, cores !! c = Some g → ¬ owns g k.
Proof.
  intros [Hl Hcpu Hone] H0. assert (∀ c g, cores !! c = Some g → ¬ owns g k) as Hno by (intros c g Hc Ho; apply Hl; eauto).
  split; [|done]. destruct (lk_cpu lk) as [c|] eqn:E; [|done].
  destruct (proj1 (Hcpu c) eq_refl) as (g & Hc & Hin & _). by destruct (Hno c g Hc); left.
Qed.
(** The other processors after processor [c] has changed. *)
Lemma others_insert (cores : list core) c g' k :
  (∀ c' g, cores !! c' = Some g → c' ≠ c → ¬ owns g k) →
  ∀ c1 g1, <[c := g']> cores !! c1 = Some g1 → c1 ≠ c → ¬ owns g1 k.
Proof. intros Hoth c1 g1 [[<- ->]|[_ H]]%insert_cases Hne; [done|eauto]. Qed.

Section steps.
Context (s : smp) (c : nat) (g : core) (k : nat) (lk : spinlock).
Hypothesis Hs : smp_ok s.
Hypothesis Hc : m_cores s !! c = Some g.
Hypothesis Hk : m_locks s !! k = Some lk.

Lemma here g' : <[c := g']> (m_cores s) !! c = Some g'.
Proof. apply list_lookup_insert_eq. by eapply lookup_lt_Some. Qed.
Lemma lock_in_range : (k < length (m_locks s))%nat.
Proof. by eapply lookup_lt_Some. Qed.
Lemma core_ok_here : core_ok g.
Proof. by apply (so_cores _ Hs c). Qed.
Lemma lock_ok_here : lock_ok (m_cores s) k lk.
Proof. by apply (so_locks _ Hs k). Qed.

Lemma step_xchg won lk' :
  g_phase g = Spin k → acquire_xchg lk = (won, lk') →
  smp_ok (mkSmp (<[k := lk']> (m_locks s))
    (<[c := mkCore (g_cpu g) (if won then Won k else Spin k) (g_held g) (g_extra g) (g_if g)]> (m_cores s))).
Proof.
  intros Hph [= <- <-]. pose proof core_ok_here as [Hn Hf Hphase]. pose proof lock_ok_here as Hl.
  rewrite Hph in Hphase. unfold waits in Hn. rewrite Hph in Hn.
  assert (∀ ph, ph = Won k ∨ ph = Spin k → core_ok (mkCore (g_cpu g) ph (g_held g) (g_extra g) (g_if g))) as Hok.
  { intros ph [-> | ->]; by split. }
  destruct (Z.eqb_spec (lk_locked lk) 0) as [H0|H0]; cbv iota.
  - destruct (lock_free _ _ _ Hl H0) as [Hcpu Hno]. eapply smp_ok_step; [done|done|apply Hok; by left| |apply lock_in_range|].
    + intros k' Hne. unfold owns. cbn. rewrite Hph. naive_solver.
    + apply (lock_ok_owned _ _ _ c _ (here _)); cbn; [by right| |done|].
      * apply others_insert. eauto.
      * rewrite decide_False by naive_solver. done.
  - eapply smp_ok_step; [done|done|apply Hok; by right| |apply lock_in_range|].
    + intros k' _. unfold owns. cbn. by rewrite Hph.
    + apply (lock_ok_core _ _ _ c g); [done| | |]; [|unfold owns; cbn; by rewrite Hph..].
      destruct Hl as [Hl1 Hl2 Hl3]. split; cbn; [|done..]. rewrite <- Hl1. done.
Qed.
Lemma step_acquired :
  g_phase g = Won k →
  smp_ok (mkSmp (<[k := acquire_end c lk]> (m_locks s))
    (<[c := mkCore (g_cpu g) Idle ({[k]} ∪ g_held g) (g_extra g) (g_if g)]> (m_cores s))).
Proof.
  intros Hph. pose proof core_ok_here as [Hn Hf Hphase]. rewrite Hph in Hphase. unfold waits in Hn. rewrite Hph in Hn.
  destruct (lock_owner _ _ _ c g lock_ok_here Hc) as (Hl & Hoth & _); [by right|].
  eapply smp_ok_step; [done|done| | |apply lock_in_range|].
  - split; cbn; [|done|done]. rewrite Hn, size_union, size_singleton by set_solver. lia.
  - intros k' Hne. unfold owns. cbn. rewrite Hph. set_solver.
  - apply (lock_ok_owned _ _ _ c _ (here _)); cbn; [left; set_solver|by apply others_insert|done|].
    rewrite decide_True by set_solver. done.
Qed.
Lemma step_release lk' :
  g_phase g = Idle → release_begin c lk = Ok tt lk' →
  smp_ok (mkSmp (<[k := lk']> (m_locks s))
    (<[c := mkCore (g_cpu g) (Rel k) (g_held g) (g_extra g) (g_if g)]> (m_cores s))).
Proof.
  intros Hph Hrel. pose proof core_ok_here as [Hn Hf Hphase]. unfold waits in Hn. rewrite Hph in Hn.
  unfold release_begin, bind, gets in Hrel. destruct (holding c (id lk)) eqn:Hh; [|done]. injection Hrel as <-.
  unfold holding in Hh. apply andb_prop in Hh as [_ Hh%bool_decide_eq_true].
  apply (lo_cpu _ _ _ lock_ok_here) in Hh as (g1 & Hg1 & Hin & _). assert (g1 = g) as -> by congruence.
  destruct (lock_owner _ _ _ c g lock_ok_here Hc) as (Hl & Hoth & _); [by left|].
  eapply smp_ok_step; [done|done|by split| |apply lock_in_range|].
  - intros k' Hne. unfold owns. cbn. rewrite Hph. naive_solver.
  - apply (lock_ok_owned _ _ _ c _ (here _)); cbn; [by left|by apply others_insert|done|].
    rewrite decide_False by naive_solver. done.
Qed.
Lemma step_released cp :
  g_phase g = Rel k → popcli (g_cpu g) = Ok tt cp →
  smp_ok (mkSmp (<[k := release_xchg lk]> (m_locks s))
    (<[c := mkCore cp Idle (g_held g ∖ {[k]}) (g_extra g) (g_if g)]> (m_cores s))).
Proof.
  intros Hph Hpop. pose proof core_ok_here as [Hn Hf Hin]. rewrite Hph in Hin. unfold waits in Hn. rewrite Hph in Hn.
  destruct (lock_owner _ _ _ c g lock_ok_here Hc) as (Hl & Hoth & Hcpu); [by left|].
  rewrite decide_False in Hcpu by naive_solver.
  assert (size (g_held g) = S (size (g_held g ∖ {[k]}))) as Hsz.
  { rewrite (union_difference_L {[k]} (g_held g)) at 1 by set_solver. rewrite size_union, size_singleton by set_solver. lia. }
  rewrite decide_False in Hf by lia. destruct Hf as [Hf Hi].
  destruct (popcli_ok (g_cpu g) (g_if g) (g_extra g + size (g_held g ∖ {[k]}))) as (cp' & Hpop' & Hn' & Hf'); [lia|done..|].
  rewrite Hpop in Hpop'. injection Hpop' as <-.
  eapply smp_ok_step; [done|done| | |apply lock_in_range|].
  - split; cbn; [lia|done|done].
  - intros k' Hne. unfold owns. cbn. rewrite Hph. set_solver.
  - apply lock_ok_free; [|done|done]. intros c1 g1 [[<- ->]|[Hne H]]%insert_cases; [|eauto].
    unfold owns. cbn. set_solver.
Qed.
Lemma step_acquire cp :
  g_phase g = Idle → acquire_begin c lk (g_cpu g) = Ok tt cp →
  smp_ok (mkSmp (m_locks s) (<[c := mkCore cp (Spin k) (g_held g) (g_extra g) (g_if g)]> (m_cores s))).
Proof.
  intros Hph Hacq. pose proof core_ok_here as [Hn Hf _]. unfold waits in Hn. rewrite Hph in Hn.
  destruct (pushcli_ok (g_cpu g) (g_if g) _ Hn Hf) as (cp' & Hpush & Hn' & Hf' & Hi').
  unfold acquire_begin, bind in Hacq. rewrite Hpush in Hacq. destruct (holding c lk) eqn:Hh; [done|]. injection Hacq as <-.
  apply (smp_ok_local s c g); [done|done| |done|by rewrite Hph|by rewrite Hph].
  split; cbn; [lia|rewrite decide_False by lia; done|]. intros Hin.
  destruct (lock_owner _ _ _ c g lock_ok_here Hc) as (Hl & _ & Hcpu); [by left|].
  rewrite decide_True in Hcpu by (by rewrite Hph). unfold holding in Hh. rewrite (proj2 (Z.eqb_neq _ _) Hl), Hcpu in Hh.
  by rewrite bool_decide_true in Hh.
Qed.
End steps.

Lemma lock_step_ok s s' : smp_ok s → lock_step s s' → smp_ok s'.
Proof.
  intros Hs Hstep. destruct Hstep as
    [c g k lk cp Hc Hph Hk Ha|c g k lk won lk' Hc Hph Hk Hx|c g k lk Hc Hph Hk|c g k lk lk' Hc Hph Hk Hr
    |c g k lk cp Hc Hph Hk Hp|c g cp Hc Hph Hp|c g n cp Hc Hph He Hp|c g b Hc Hn].
  - by eapply step_acquire.
  - by eapply step_xchg.
  - by eapply step_acquired.
  - by eapply step_release.
  - by eapply step_released.
  - pose proof (so_cores _ Hs c g Hc) as [Hn Hf _]. unfold waits in Hn. rewrite Hph in Hn.
    destruct (pushcli_ok (g_cpu g) (g_if g) _ Hn Hf) as (cp' & Hpush & Hn' & Hf' & Hi').
    rewrite Hp in Hpush. injection Hpush as <-.
    apply (smp_ok_local s c g); [done|done| |done|by rewrite Hph|by rewrite Hph].
    split; cbn; [lia|rewrite decide_False by lia; done|done].
  - pose proof (so_cores _ Hs c g Hc) as [Hn Hf _]. unfold waits in Hn. rewrite Hph, He in Hn.
    rewrite decide_False in Hf by lia. destruct Hf as [Hf Hi].
    destruct (popcli_ok (g_cpu g) (g_if g) (n + size (g_held g))) as (cp' & Hpop & Hn' & Hf'); [lia|done..|].
    rewrite Hp in Hpop. injection Hpop as <-.
    apply (smp_ok_local s c g); [done|done| |done|by rewrite Hph|by rewrite Hph]. split; cbn; [lia|done|done].
  - pose proof (so_cores _ Hs c g Hc) as [Hn' Hf Hp].
    apply (smp_ok_local s c g); [done|done| |done..]. split; cbn; [|done|done]. unfold waits in *. cbn. lia.
Qed.
Lemma smp0_ok n flags : smp_ok (smp0 n flags).
Proof.
  assert (∀ c g, (core0 <$> flags) !! c = Some g → ∃ b, g = core0 b) as Hc.
  { intros c g. rewrite list_lookup_fmap. destruct (flags !! c); [|done]. intros [= <-]. eauto. }
  assert (∀ b k, ¬ owns (core0 b) k) as Hno by (intros b k [|]; [set_solver|done]).
  split; cbn.
  - intros c g (b & ->)%Hc. by split.
  - intros k lk [-> _]%lookup_replicate. apply lock_ok_free; [|done..]. intros c g (b & ->)%Hc. apply Hno.
  - intros c g k (b & ->)%Hc Ho. by destruct (Hno b k).
Qed.

(** C8: spin locks exclude: however the processors interleave, at most one is
    between acquire and release of a lock; holding() is true exactly for the
    processor that has acquired the lock, so acquire panics exactly when its
    processor holds the lock already and release when it does not; interrupts
    are off as long as a processor holds a lock, and after the last release (and
    the last popcli) they are as they were before; popcli in release never
    panics. *)
Theorem spinlock_correct n flags s :
  rtc lock_step (smp0 n flags) s →
  (∀ k c c' g g', m_cores s !! c = Some g → m_cores s !! c' = Some g' → k ∈ g_held g → k ∈ g_held g' → c = c') ∧
  (∀ k c g lk, m_cores s !! c = Some g → m_locks s !! k = Some lk → g_phase g = Idle →
     (holding c lk = true ↔ k ∈ g_held g)) ∧
  (∀ c g, m_cores s !! c = Some g → g_held g ≠ ∅ → c_if (g_cpu g) = false) ∧
  (∀ c g, m_cores s !! c = Some g → g_phase g = Idle → g_held g = ∅ → g_extra g = 0%nat → c_if (g_cpu g) = g_if g) ∧
  (∀ k c g, m_cores s !! c = Some g → g_phase g = Rel k → ∃ cp, popcli (g_cpu g) = Ok tt cp).
Proof.
  intros Hrun. assert (smp_ok s) as Hs.
  { pose proof (smp0_ok n flags) as H0. induction Hrun; eauto using lock_step_ok. }
  clear Hrun. pose proof (so_cores _ Hs) as Hcores. split_and!.
  - intros k c c' g g' Hc Hc' Hin Hin'. destruct (so_held _ Hs c g k) as [lk Hlk]; [done|by left|].
    eapply (lo_one _ _ _ (so_locks _ Hs k lk Hlk)); [done..|by left|by left].
  - intros k c g lk Hc Hk Hph. pose proof (so_locks _ Hs k lk Hk) as Hl. unfold holding.
    rewrite andb_true_iff, negb_true_iff, Z.eqb_neq, bool_decide_eq_true, (lo_cpu _ _ _ Hl). split.
    + intros (_ & g1 & ? & ? & _). congruence.
    + intros Hin. split; [apply (lo_locked _ _ _ Hl); exists c, g; by split; [|left]|]. exists g. by rewrite Hph.
  - intros c g Hc Hne. destruct (Hcores c g Hc) as [Hn Hf _]. rewrite decide_False in Hf; [apply Hf|].
    intros H0. apply Hne, leibniz_equiv, size_empty_inv. lia.
  - intros c g Hc Hph He Hx. destruct (Hcores c g Hc) as [Hn Hf _]. unfold waits in Hn. rewrite Hph, He, Hx in Hn.
    rewrite decide_True in Hf; [done|]. rewrite Hn, size_empty. done.
  - intros k c g Hc Hph. destruct (Hcores c g Hc) as [Hn Hf Hin]. unfold waits in Hn. rewrite Hph in Hn, Hin.
    assert (size (g_held g) ≠ 0%nat) by (intros H0%size_empty_inv; set_solver).
    rewrite decide_False in Hf by lia. destruct Hf as [Hf Hi].
    destruct (popcli_ok (g_cpu g) (g_if g) (g_extra g + pred (size (g_held g)))) as (cp & ? & _); [lia|done..|eauto].
Qed.

(** Witness: processor 0 has the lock, processor 1 spins. *)
Lemma spinlock_correct_witness :
  ∃ s g, rtc lock_step (smp0 1 [true; false]) s ∧ m_cores s !! 0%nat = Some g ∧ 0%nat ∈ g_held g ∧ c_if (g_cpu g) = false.
Proof.
  eexists _, _. assert (rtc lock_step (smp0 1 [true; false]) (mkSmp [mkLock 1 (Some 0%nat)]
    [mkCore (mkCpu 1 true false) Idle ({[0%nat]} ∪ ∅) 0 true; mkCore (mkCpu 1 false false) (Spin 0) ∅ 0 false])) as Hr.
  { eapply rtc_l; [apply (ls_acquire _ 0 (core0 true) 0 initlock); reflexivity|].
    eapply rtc_l; [eapply (ls_xchg _ 0 _ 0 initlock); reflexivity|].
    eapply rtc_l; [eapply (ls_acquired _ 0 _ 0); reflexivity|].
    eapply rtc_l; [eapply (ls_acquire _ 1 (core0 false) 0); reflexivity|].
    eapply rtc_l; [eapply (ls_xchg _ 1 _ 0); reflexivity|]. apply rtc_refl. }
  split; [exact Hr|]. destruct (spinlock_correct 1 [true; false] _ Hr) as (_ & _ & Hif & _).
  split; [reflexivity|]. split; [set_solver|]. apply (Hif 0%nat); [reflexivity|]. set_solver.
Defined.
