(* ===== verification/Console.v ===== *)
(** * The console (console.c, kbd.c, kbd.h, uart.c; procdump of proc.c)

    The devices are part of the state: the memory and the cursor registers of the
    CGA text screen, the serial port and the keyboard controller with the bytes
    that wait in them.  A loop that never ends (a processor stopped by a panic)
    is the result [Blocked]. *)
From stdpp Require Import base list numbers option strings.
From Stdlib Require Import ZArith Lia.
From S2P Require Import Prelude Kstring Ulib BlockStore Fs Proc.
Open Scope Z_scope.

(** ** The CGA screen *)
Definition CRTPORT : Z := 0x3d4.
Definition BACKSPACE : Z := 0x100.

(** The text memory in cells of 16 bits, and the CRT controller: a register that
    selects one of its registers, of which 14 and 15 hold the cursor. *)
Record cga := mkCga { crt : list Z; cr_index : Z; cr_hi : Z; cr_lo : Z }.

Definition crt_outb (port v : Z) : M cga unit :=
  modify (λ s,
    if port =? CRTPORT then mkCga (crt s) (u8 v) (cr_hi s) (cr_lo s)
    else if cr_index s =? 14 then mkCga (crt s) (cr_index s) (u8 v) (cr_lo s)
    else if cr_index s =? 15 then mkCga (crt s) (cr_index s) (cr_hi s) (u8 v)
    else s).
Definition crt_inb : M cga Z :=
  gets (λ s, if cr_index s =? 14 then cr_hi s else if cr_index s =? 15 then cr_lo s else 0).
(** crt[pos] = v *)
Definition crt_store (pos v : Z) : M cga unit :=
  s <- gets id ;;
  l <- lift_opt (aset (crt s) pos v) ;;
  modify (λ s, mkCga l (cr_index s) (cr_hi s) (cr_lo s)).
(** memmove(crt, crt+80, 2*23*80) and memset(crt+pos, 0, 2*(24*80 - pos)) *)
Definition crt_scroll (pos : Z) : M cga unit :=
  s <- gets id ;;
  if (24 * 80 <=? Z.of_nat (length (crt s))) && (0 <=? pos) && (pos <=? 24 * 80) then
    let l := splice (crt s) 0 (slice (crt s) 80 (23 * 80)) in
    let l := splice l (Z.to_nat pos) (replicate (Z.to_nat (24 * 80 - pos)) 0) in
    modify (λ s, mkCga l (cr_index s) (cr_hi s) (cr_lo s))
  else undefined.

Definition cgaputc (c : Z) : M cga unit :=
  crt_outb CRTPORT 14 ;;;
  h <- crt_inb ;;
  crt_outb CRTPORT 15 ;;;
  l <- crt_inb ;;
  let pos := Z.lor (Z.shiftl h 8) l in
  pos <- (if c =? 10 then ret (pos + (80 - pos mod 80))
          else if c =? BACKSPACE then ret (if 0 <? pos then pos - 1 else pos)
          else crt_store pos (Z.lor (Z.land c 0xff) 0x0700) ;;; ret (pos + 1)) ;;
  pos <- (if 24 <=? pos / 80 then crt_scroll (pos - 80) ;;; ret (pos - 80) else ret pos) ;;
  crt_outb CRTPORT 14 ;;;
  crt_outb (CRTPORT + 1) (Z.shiftr pos 8) ;;;
  crt_outb CRTPORT 15 ;;;
  crt_outb (CRTPORT + 1) pos ;;;
  crt_store pos (Z.lor 32 0x0700).

(** ** The serial port *)
Definition COM1 : Z := 0x3f8.
Section uart.
(** Whether the transmitter is ready at the n-th look at the status register. *)
Context (tx_ready : nat → bool).

(** Whether the port exists, the variable uart, the bytes received and not read,
    the bytes sent, the looks at the status register, and the values written to
    the registers that configure the port. *)
Record uart := mkUart {
  ua_present : bool; ua_uart : bool; ua_rx : list Z; ua_tx : list Z; ua_looks : nat; ua_conf : list (Z * Z) }.

(** inb(COM1+5) and inb(COM1+0) *)
Definition uart_status : M uart Z :=
  u <- gets id ;;
  modify (λ u, mkUart (ua_present u) (ua_uart u) (ua_rx u) (ua_tx u) (S (ua_looks u)) (ua_conf u)) ;;;
  ret (if ua_present u then
         Z.lor (match ua_rx u with [] => 0 | _ => 0x01 end) (if tx_ready (ua_looks u) then 0x20 else 0)
       else 0xFF).
Definition uart_data : M uart Z :=
  u <- gets id ;;
  modify (λ u, mkUart (ua_present u) (ua_uart u) (tail (ua_rx u)) (ua_tx u) (ua_looks u) (ua_conf u)) ;;;
  ret (default 0 (head (ua_rx u))).
(** outb(COM1+0, c), and outb to the port when it is being configured *)
Definition uart_send (c : Z) : M uart unit :=
  modify (λ u, mkUart (ua_present u) (ua_uart u) (ua_rx u) (ua_tx u ++ [u8 c]) (ua_looks u) (ua_conf u)).
Definition uart_set (port v : Z) : M uart unit :=
  modify (λ u, mkUart (ua_present u) (ua_uart u) (ua_rx u) (ua_tx u) (ua_looks u) (ua_conf u ++ [(port, v)])).

(** The loop of uartputc; microdelay() does nothing. *)
Fixpoint uart_wait (n : nat) : M uart unit :=
  match n with
  | O => ret tt
  | S n => v <- uart_status ;; if has v 0x20 then ret tt else uart_wait n
  end.
Definition uartputc (c : Z) : M uart unit :=
  u <- gets ua_uart ;;
  if negb u then ret tt else uart_wait 128 ;;; uart_send c.
Definition uartgetc : M uart Z :=
  u <- gets ua_uart ;;
  if negb u then ret (-1)
  else v <- uart_status ;;
       if negb (has v 0x01) then ret (-1) else uart_data.

Definition uartinit : M uart unit :=
  uart_set (COM1 + 2) 0 ;;;
  uart_set (COM1 + 3) 0x80 ;;;
  uart_set (COM1 + 0) (115200 / 9600) ;;;
  uart_set (COM1 + 1) 0 ;;;
  uart_set (COM1 + 3) 0x03 ;;;
  uart_set (COM1 + 4) 0 ;;;
  uart_set (COM1 + 1) 0x01 ;;;
  v <- uart_status ;;
  if v =? 0xFF then ret tt
  else
    modify (λ u, mkUart (ua_present u) true (ua_rx u) (ua_tx u) (ua_looks u) (ua_conf u)) ;;;
    uart_data ;;;
    mfor (cs "xv6..." ++ [10]) uartputc.
End uart.

(** ** The keyboard *)
Definition KBS_DIB : Z := 1.
Definition SHIFT : Z := Z.shiftl 1 0.
Definition CTL : Z := Z.shiftl 1 1.
Definition ALT : Z := Z.shiftl 1 2.
Definition CAPSLOCK : Z := Z.shiftl 1 3.
Definition NUMLOCK : Z := Z.shiftl 1 4.
Definition SCROLLLOCK : Z := Z.shiftl 1 5.
Definition E0ESC : Z := Z.shiftl 1 6.
Definition KEY_HOME : Z := 0xE0.
Definition KEY_END : Z := 0xE1.
Definition KEY_UP : Z := 0xE2.
Definition KEY_DN : Z := 0xE3.
Definition KEY_LF : Z := 0xE4.
Definition KEY_RT : Z := 0xE5.
Definition KEY_PGUP : Z := 0xE6.
Definition KEY_PGDN : Z := 0xE7.
Definition KEY_INS : Z := 0xE8.
Definition KEY_DEL : Z := 0xE9.
Definition NO : Z := 0.
(** C(x): Control-x *)
Definition C (x : Z) : Z := x - 64.

(** An array of 256 unsigned chars: its first elements, and those given by their
    index. *)
Definition table (first : list Z) (at_ : list (nat * Z)) : list Z :=
  foldr (λ e l, <[e.1 := u8 e.2]> l) ((u8 <$> first) ++ replicate (256 - length first) NO) at_.
Definition shiftcode : list Z :=
  table [] [(0x1D, CTL); (0x2A, SHIFT); (0x36, SHIFT); (0x38, ALT); (0x9D, CTL); (0xB8, ALT)]%nat.
Definition togglecode : list Z :=
  table [] [(0x3A, CAPSLOCK); (0x45, NUMLOCK); (0x46, SCROLLLOCK)]%nat.
Definition keypad : list (nat * Z) :=
  [(0xC8, KEY_UP); (0xD0, KEY_DN); (0xC9, KEY_PGUP); (0xD1, KEY_PGDN); (0xCB, KEY_LF); (0xCD, KEY_RT);
   (0x97, KEY_HOME); (0xCF, KEY_END); (0xD2, KEY_INS); (0xD3, KEY_DEL)]%nat.
Definition normalmap : list Z :=
  table ([NO; 0x1B] ++ cs "1234567890-=" ++ [8; 9] ++
         cs "qwertyuiop[]" ++ [10; NO] ++ cs "asdfghjkl;'`" ++ [NO] ++ cs "\zxcvbnm,./" ++ [NO; 42] ++
         [NO; 32; NO; NO; NO; NO; NO; NO; NO; NO; NO; NO; NO; NO; NO] ++ cs "789-456+1230." ++
         [NO; NO; NO; NO])
        ((0x9C%nat, 10) :: (0xB5%nat, 47) :: keypad).
Definition shiftmap : list Z :=
  table ([NO; 27] ++ cs "!@#$%^&*()_+" ++ [8; 9] ++
         cs "QWERTYUIOP{}" ++ [10; NO] ++ cs "ASDFGHJKL:" ++ [34; 126; NO] ++ cs "|ZXCVBNM<>?" ++ [NO; 42] ++
         [NO; 32; NO; NO; NO; NO; NO; NO; NO; NO; NO; NO; NO; NO; NO] ++ cs "789-456+1230." ++
         [NO; NO; NO; NO])
        ((0x9C%nat, 10) :: (0xB5%nat, 47) :: keypad).
Definition ctlmap : list Z :=
  table (replicate 16 NO ++
         (C <$> cs "QWERTYUIOP") ++ [NO; NO; 13; NO] ++ (C <$> cs "ASDFGHJKL") ++
         [NO; NO; NO; NO] ++ (C <$> cs "\ZXCVBNM") ++ [NO; NO; C 47; NO; NO])
        ((0x9C%nat, 13) :: (0xB5%nat, C 47) :: keypad).

(** The variable shift, and the bytes that wait in the controller. *)
Record kbd := mkKbd { kb_shift : Z; kb_queue : list Z }.
(** inb(KBSTATP), of which only KBS_DIB is used, and inb(KBDATAP) *)
Definition kbd_status : M kbd Z := gets (λ k, match kb_queue k with [] => 0 | _ => KBS_DIB end).
Definition kbd_data : M kbd Z :=
  k <- gets id ;;
  modify (λ k, mkKbd (kb_shift k) (tail (kb_queue k))) ;;;
  ret (default 0 (head (kb_queue k))).
Definition set_shift (v : Z) : M kbd unit := modify (λ k, mkKbd v (kb_queue k)).

(** c += 'A' - 'a' and back, when caps lock is on *)
Definition caps (shift c : Z) : Z :=
  if has shift CAPSLOCK then
    if (97 <=? c) && (c <=? 122) then c + (65 - 97)
    else if (65 <=? c) && (c <=? 90) then c + (97 - 65)
    else c
  else c.
Definition kbdgetc : M kbd Z :=
  st <- kbd_status ;;
  if Z.land st KBS_DIB =? 0 then ret (-1)
  else
    data <- kbd_data ;;
    shift <- gets kb_shift ;;
    if data =? 0xE0 then set_shift (Z.lor shift E0ESC) ;;; ret 0
    else if has data 0x80 then
      let data := if has shift E0ESC then data else Z.land data 0x7F in
      code <- lift_opt (aget shiftcode data) ;;
      set_shift (Z.land shift (Z.lnot (Z.lor code E0ESC))) ;;;
      ret 0
    else
      let '(data, shift) :=
        if has shift E0ESC then (Z.lor data 0x80, Z.land shift (Z.lnot E0ESC)) else (data, shift) in
      code <- lift_opt (aget shiftcode data) ;;
      let shift := Z.lor shift code in
      toggle <- lift_opt (aget togglecode data) ;;
      let shift := Z.lxor shift toggle in
      set_shift shift ;;;
      charcode <- lift_opt (aget [normalmap; shiftmap; ctlmap; ctlmap] (Z.land shift (Z.lor CTL SHIFT))) ;;
      c <- lift_opt (aget charcode data) ;;
      ret (caps shift c).

(** ** The console *)
Definition INPUT_BUF : Z := 128.
Record input := mkInput { in_buf : list Z; in_r : Z; in_w : Z; in_e : Z }.

(** [cn_wakes] counts the calls of wakeup(&input.r). *)
Record console := mkCon {
  cn_panicked : bool;
  cn_locking : bool;
  cn_cga : cga;
  cn_uart : uart;
  cn_kbd : kbd;
  cn_input : input;
  cn_wakes : nat }.
Definition set_cga (v : cga) (s : console) : console :=
  mkCon (cn_panicked s) (cn_locking s) v (cn_uart s) (cn_kbd s) (cn_input s) (cn_wakes s).
Definition set_uart (v : uart) (s : console) : console :=
  mkCon (cn_panicked s) (cn_locking s) (cn_cga s) v (cn_kbd s) (cn_input s) (cn_wakes s).
Definition set_kbd (v : kbd) (s : console) : console :=
  mkCon (cn_panicked s) (cn_locking s) (cn_cga s) (cn_uart s) v (cn_input s) (cn_wakes s).
Definition set_input (v : input) (s : console) : console :=
  mkCon (cn_panicked s) (cn_locking s) (cn_cga s) (cn_uart s) (cn_kbd s) v (cn_wakes s).
Definition on_input (f : input → input) : M console unit := modify (λ s, set_input (f (cn_input s)) s).
Definition set_e (v : Z) (i : input) : input := mkInput (in_buf i) (in_r i) (in_w i) v.
Definition set_w (v : Z) (i : input) : input := mkInput (in_buf i) (in_r i) v (in_e i).
Definition set_r (v : Z) (i : input) : input := mkInput (in_buf i) v (in_w i) (in_e i).
Definition wake_readers : M console unit :=
  modify (λ s, mkCon (cn_panicked s) (cn_locking s) (cn_cga s) (cn_uart s) (cn_kbd s) (cn_input s) (S (cn_wakes s))).

Section console.
Context (tx_ready : nat → bool).
Definition uputc (c : Z) : M console unit := zoom cn_uart set_uart (uartputc tx_ready c).

Definition consputc (c : Z) : M console unit :=
  p <- gets cn_panicked ;;
  if p : bool then sleep_on
  else
    (if c =? BACKSPACE then uputc 8 ;;; uputc 32 ;;; uputc 8 else uputc c) ;;;
    zoom cn_cga set_cga (cgaputc c).

(** *** Printing *)
Definition cdigits : list Z := cs "0123456789abcdef".
(** The do-while loop; 32 rounds are enough for base 2 and more. *)
Fixpoint cprintint_digits (fuel : nat) (x base : Z) : list Z :=
  match fuel with
  | O => []
  | S fuel =>
    default 0 (cdigits !! Z.to_nat (x mod base)) ::
    (if x / base =? 0 then [] else cprintint_digits fuel (x / base) base)
  end.
(** The contents of buf, which has room for 16 characters, and its output. *)
Definition cprintint_buf (xx base : Z) (sgn : bool) : list Z :=
  let neg := sgn && (xx <? 0) in
  let x := if neg then u32 (- xx) else u32 xx in
  cprintint_digits 32 x base ++ (if neg then [45] else []).
Definition cprintint (xx base : Z) (sgn : bool) : M console unit :=
  let buf := cprintint_buf xx base sgn in
  if (length buf <=? 16)%nat then mfor (reverse buf) consputc else undefined.

(** The argument words: a number, or the address of a string (None is 0). *)
Inductive carg := Num (n : Z) | Str (s : option (list Z)).

(** The loop over fmt.  A directive without an argument of its kind is
    undefined. *)
Fixpoint cprintf_loop (fmt : list Z) (ap : list carg) : M console unit :=
  match fmt with
  | [] => ret tt
  | c :: fmt =>
    if c =? 0 then ret tt
    else if negb (c =? 37) then consputc c ;;; cprintf_loop fmt ap
    else
      match fmt with
      | [] => ret tt
      | c :: fmt =>
        if c =? 0 then ret tt
        else if c =? 100 then
          match ap with
          | Num n :: ap => cprintint (s32 n) 10 true ;;; cprintf_loop fmt ap
          | _ => undefined
          end
        else if (c =? 120) || (c =? 112) then
          match ap with
          | Num n :: ap => cprintint (s32 n) 16 false ;;; cprintf_loop fmt ap
          | _ => undefined
          end
        else if c =? 115 then
          match ap with
          | Str s :: ap =>
            mfor (cstr (default (cs "(null)") s)) consputc ;;; cprintf_loop fmt ap
          | _ => undefined
          end
        else if c =? 37 then consputc 37 ;;; cprintf_loop fmt ap
        else consputc 37 ;;; consputc c ;;; cprintf_loop fmt ap
      end
  end.
(** cons.lock is only taken when cons.locking is set; fmt is never null. *)
Definition cprintf (fmt : list Z) (ap : list carg) : M console unit := cprintf_loop fmt ap.

(** panic: [pcs] is what getcallerpcs finds; the processor stops. *)
Definition console_panic (cpu_id : Z) (pcs : list Z) (s : list Z) : M console unit :=
  modify (λ s, mkCon (cn_panicked s) false (cn_cga s) (cn_uart s) (cn_kbd s) (cn_input s) (cn_wakes s)) ;;;
  cprintf (cs "cpu%d: panic: ") [Num cpu_id] ;;;
  cprintf s [] ;;;
  cprintf [10] [] ;;;
  mfor pcs (λ pc, cprintf (cs " %p") [Num pc]) ;;;
  modify (λ s, mkCon true (cn_locking s) (cn_cga s) (cn_uart s) (cn_kbd s) (cn_input s) (cn_wakes s)) ;;;
  sleep_on.

(** procdump of proc.c; [pcs] is what getcallerpcs finds on the kernel stack. *)
Definition state_name (st : procstate) : list Z :=
  match st with
  | UNUSED => cs "unused"
  | EMBRYO => cs "embryo"
  | SLEEPING => cs "sleep "
  | RUNNABLE => cs "runble"
  | RUNNING => cs "run   "
  | ZOMBIE => cs "zombie"
  end.
Fixpoint until_zero (l : list Z) : list Z :=
  match l with
  | [] => []
  | x :: l => if x =? 0 then [] else x :: until_zero l
  end.
Definition procdump (pcs : proc → list Z) (procs : list proc) : M console unit :=
  mfor procs (λ p,
    if decide (p_state p = UNUSED) then ret tt
    else
      cprintf (cs "%d %s %s") [Num (p_pid p); Str (Some (state_name (p_state p))); Str (Some (p_name p))] ;;;
      (if decide (p_state p = SLEEPING)
       then mfor (until_zero (take 10 (pcs p))) (λ pc, cprintf (cs " %p") [Num pc])
       else ret tt) ;;;
      cprintf [10] []).

(** *** Input *)
Context (dump : M console unit).

(** The loop of Control-U: at most INPUT_BUF characters can be killed. *)
Fixpoint kill_line (fuel : nat) : M console unit :=
  match fuel with
  | O => undefined
  | S fuel =>
    i <- gets cn_input ;;
    if in_e i =? in_w i then ret tt
    else
      c <- lift_opt (aget (in_buf i) (u32 (in_e i - 1) mod INPUT_BUF)) ;;
      if c =? 10 then ret tt
      else on_input (set_e (u32 (in_e i - 1))) ;;; consputc BACKSPACE ;;; kill_line fuel
  end.
(** The default case of the switch. *)
Definition insert_char (c : Z) : M console unit :=
  i <- gets cn_input ;;
  if negb (c =? 0) && (u32 (in_e i - in_r i) <? INPUT_BUF) then
    let c := if c =? 13 then 10 else c in
    buf <- lift_opt (aset (in_buf i) (in_e i mod INPUT_BUF) (u8 c)) ;;
    on_input (λ i, mkInput buf (in_r i) (in_w i) (u32 (in_e i + 1))) ;;;
    consputc c ;;;
    i <- gets cn_input ;;
    if (c =? 10) || (c =? C 68) || (in_e i =? u32 (in_r i + INPUT_BUF)) then
      on_input (λ i, set_w (in_e i) i) ;;; wake_readers
    else ret tt
  else ret tt.
Definition console_char (c : Z) : M console unit :=
  if c =? C 80 then dump
  else if c =? C 85 then kill_line 129
  else if (c =? C 72) || (c =? 0x7f) then
    i <- gets cn_input ;;
    if negb (in_e i =? in_w i) then on_input (set_e (u32 (in_e i - 1))) ;;; consputc BACKSPACE else ret tt
  else insert_char c.
Fixpoint consoleintr (fuel : nat) (getc : M console Z) : M console unit :=
  match fuel with
  | O => undefined
  | S fuel => c <- getc ;; if 0 <=? c then console_char c ;;; consoleintr fuel getc else ret tt
  end.
(** Each getc takes a byte from the device, so one round for each byte that
    waits and a last one are enough. *)
Definition kbdintr : M console unit :=
  s <- gets id ;;
  consoleintr (S (length (kb_queue (cn_kbd s)))) (zoom cn_kbd set_kbd kbdgetc).
Definition uartintr : M console unit :=
  s <- gets id ;;
  consoleintr (S (length (ua_rx (cn_uart s)))) (zoom cn_uart set_uart (uartgetc tx_ready)).

(** *** Reading and writing *)
(** A run of consoleread, from its start or from the return of sleep() to its
    next sleep() or its return: the bytes stored at dst, and how it ends.
    [target] is the n of the call, [n] what is left of it. *)
Inductive rd_outcome := RReturn (r : Z) | RSleep (n : nat).
Fixpoint consoleread_loop (killed : bool) (target : Z) (n : nat) : M console (list Z * rd_outcome) :=
  match n with
  | O => ret ([], RReturn target)
  | S n' =>
    i <- gets cn_input ;;
    if in_r i =? in_w i then
      ret ([], if killed then RReturn (-1) else RSleep n)
    else
      c <- lift_opt (aget (in_buf i) (in_r i mod INPUT_BUF)) ;;
      on_input (set_r (u32 (in_r i + 1))) ;;;
      if c =? C 68 then
        (if Z.of_nat n <? target then on_input (λ i, set_r (u32 (in_r i - 1)) i) else ret tt) ;;;
        ret ([], RReturn (target - Z.of_nat n))
      else if c =? 10 then ret ([c], RReturn (target - Z.of_nat n'))
      else
        r <- consoleread_loop killed target n' ;;
        ret (c :: r.1, r.2)
  end.

Context {BS : BlockStore}.
Definition cstate : Type := fstate BS * console.
Definition c_fs {A} (m : M (fstate BS) A) : M cstate A := zoom fst (λ t s, (t, s.2)) m.
Definition c_con {A} (m : M console A) : M cstate A := zoom snd (λ t s, (s.1, t)) m.

(** consoleread: its start, and how it goes on when sleep() returns. *)
Definition consoleread_resume (ip : nat) (killed : bool) (target : Z) (n : nat)
    : M cstate (list Z * rd_outcome) :=
  r <- c_con (consoleread_loop killed target n) ;;
  (match r.2 with RReturn _ => c_fs (ilock ip) | RSleep _ => ret tt end) ;;;
  ret r.
Definition consoleread (ip : nat) (killed : bool) (n : Z) : M cstate (list Z * rd_outcome) :=
  c_fs (iunlock ip) ;;;
  (if 0 <? n then consoleread_resume ip killed n (Z.to_nat n)
   else c_fs (ilock ip) ;;; ret ([], RReturn 0)).
Definition consolewrite (ip : nat) (buf : list Z) (n : Z) : M cstate Z :=
  c_fs (iunlock ip) ;;;
  c_con (mfor (take (Z.to_nat n) buf) (λ b, consputc (Z.land b 0xff))) ;;;
  c_fs (ilock ip) ;;;
  ret n.
End console.
