(* ===== verification/Kbd.v ===== *)
(** * The keyboard decoder (kbdgetc of kbd.c, the tables of kbd.h)

    The modifiers as booleans and the keys by name, in place of the bits of the
    variable shift and the tables of codes: [wp_kbdgetc] shows that kbdgetc
    decodes every scan code this way, without reading outside a table. *)
From stdpp Require Import base list numbers option strings.
From Stdlib Require Import ZArith Lia.
From S2P Require Import Prelude Kstring Console.
Open Scope Z_scope.

Record mods := mkMods {
  m_shift : bool; m_ctl : bool; m_alt : bool; m_caps : bool; m_num : bool; m_scroll : bool; m_e0 : bool }.
Definition mods0 : mods := mkMods false false false false false false false.

Inductive key := KShift | KCtl | KAlt | KCaps | KNum | KScroll | KOther.
(** The key of a code; the codes above 0x80 are those sent after 0xE0. *)
Definition key_of (code : Z) : key :=
  if (code =? 0x2A) || (code =? 0x36) then KShift
  else if (code =? 0x1D) || (code =? 0x9D) then KCtl
  else if (code =? 0x38) || (code =? 0xB8) then KAlt
  else if code =? 0x3A then KCaps
  else if code =? 0x45 then KNum
  else if code =? 0x46 then KScroll
  else KOther.
Definition set_e0 (b : bool) (m : mods) : mods :=
  mkMods (m_shift m) (m_ctl m) (m_alt m) (m_caps m) (m_num m) (m_scroll m) b.
(** A key that is held down, and a key that switches at every press. *)
Definition hold (k : key) (b : bool) (m : mods) : mods :=
  match k with
  | KShift => mkMods b (m_ctl m) (m_alt m) (m_caps m) (m_num m) (m_scroll m) (m_e0 m)
  | KCtl => mkMods (m_shift m) b (m_alt m) (m_caps m) (m_num m) (m_scroll m) (m_e0 m)
  | KAlt => mkMods (m_shift m) (m_ctl m) b (m_caps m) (m_num m) (m_scroll m) (m_e0 m)
  | _ => m
  end.
Definition switch (k : key) (m : mods) : mods :=
  match k with
  | KCaps => mkMods (m_shift m) (m_ctl m) (m_alt m) (negb (m_caps m)) (m_num m) (m_scroll m) (m_e0 m)
  | KNum => mkMods (m_shift m) (m_ctl m) (m_alt m) (m_caps m) (negb (m_num m)) (m_scroll m) (m_e0 m)
  | KScroll => mkMods (m_shift m) (m_ctl m) (m_alt m) (m_caps m) (m_num m) (negb (m_scroll m)) (m_e0 m)
  | _ => m
  end.
Definition swap_case (c : Z) : Z :=
  if (97 <=? c) && (c <=? 122) then c - 32 else if (65 <=? c) && (c <=? 90) then c + 32 else c.
(** The character of a key under the modifiers. *)
Definition char_of (m : mods) (code : Z) : Z :=
  let c := (if m_ctl m then ctlmap else if m_shift m then shiftmap else normalmap) !!! Z.to_nat code in
  if m_caps m then swap_case c else c.

(** One scan code: the character (0 for none) and the modifiers after it. *)
Definition kspec (m : mods) (d : Z) : Z * mods :=
  if d =? 0xE0 then (0, set_e0 true m)
  else if 0x80 <=? d then (0, set_e0 false (hold (key_of (if m_e0 m then d else d - 0x80)) false m))
  else
    let code := if m_e0 m then d + 0x80 else d in
    let m := switch (key_of code) (hold (key_of code) true (set_e0 false m)) in
    (char_of m code, m).
(** A sequence of scan codes. *)
Fixpoint kspecs (m : mods) (l : list Z) : list Z * mods :=
  match l with
  | [] => ([], m)
  | d :: l => let '(c, m1) := kspec m d in let '(cs, m2) := kspecs m1 l in (c :: cs, m2)
  end.

(** The bits of the variable shift. *)
Definition bits (m : mods) : Z :=
  Z.b2z (m_shift m) + 2 * Z.b2z (m_ctl m) + 4 * Z.b2z (m_alt m) + 8 * Z.b2z (m_caps m) +
  16 * Z.b2z (m_num m) + 32 * Z.b2z (m_scroll m) + 64 * Z.b2z (m_e0 m).

(** ** Lemmas *)
Ltac all_mods := intros [[] [] [] [] [] [] []]; reflexivity.

Definition hold_bit (k : key) : Z := match k with KShift => SHIFT | KCtl => CTL | KAlt => ALT | _ => 0 end.
Definition switch_bit (k : key) : Z := match k with KCaps => CAPSLOCK | KNum => NUMLOCK | KScroll => SCROLLLOCK | _ => 0 end.

Lemma bits_e0 m : has (bits m) E0ESC = m_e0 m.
Proof. revert m. all_mods. Qed.
Lemma bits_caps m : has (bits m) CAPSLOCK = m_caps m.
Proof. revert m. all_mods. Qed.
Lemma bits_set_e0 m : Z.lor (bits m) E0ESC = bits (set_e0 true m).
Proof. revert m. all_mods. Qed.
Lemma bits_clear_e0 m : Z.land (bits m) (Z.lnot E0ESC) = bits (set_e0 false m).
Proof. revert m. all_mods. Qed.
Lemma bits_release m k : Z.land (bits m) (Z.lnot (Z.lor (hold_bit k) E0ESC)) = bits (set_e0 false (hold k false m)).
Proof. destruct k; revert m; all_mods. Qed.
Lemma bits_hold m k : Z.lor (bits m) (hold_bit k) = bits (hold k true m).
Proof. destruct k; revert m; all_mods. Qed.
Lemma bits_switch m k : Z.lxor (bits m) (switch_bit k) = bits (switch k m).
Proof. destruct k; revert m; all_mods. Qed.
Lemma bits_map m :
  aget [normalmap; shiftmap; ctlmap; ctlmap] (Z.land (bits m) (Z.lor CTL SHIFT))
  = Some (if m_ctl m then ctlmap else if m_shift m then shiftmap else normalmap).
Proof. 
  assert (Z.land (bits m) (Z.lor CTL SHIFT) = Z.b2z (m_shift m) + 2 * Z.b2z (m_ctl m)) as -> by (revert m; all_mods).
  by destruct (m_shift m), (m_ctl m).
Qed.

(** A decidable property of bytes, checked on all of them. *)
Lemma byte_check (P : Z → Prop) `{!∀ d, Decision (P d)} d :
  forallb (λ d, bool_decide (P d)) (seqZ 0 256) = true → is_u8 d → P d.
Proof.
  intros Hall Hd. unfold is_u8 in Hd. rewrite forallb_forall in Hall.
  apply (bool_decide_eq_true_1 (P d)), Hall, list_elem_of_In, elem_of_seqZ. lia.
Qed.

Lemma shiftcode_key d : is_u8 d → aget shiftcode d = Some (hold_bit (key_of d)).
Proof. by apply (byte_check (λ d, aget shiftcode d = Some (hold_bit (key_of d)))); vm_compute. Qed.
Lemma togglecode_key d : is_u8 d → aget togglecode d = Some (switch_bit (key_of d)).
Proof. by apply (byte_check (λ d, aget togglecode d = Some (switch_bit (key_of d)))); vm_compute. Qed.
(** The bit that tells a release from a press. *)
Lemma release_bit d : is_u8 d → has d 0x80 = (0x80 <=? d).
Proof. by apply (byte_check (λ d, has d 0x80 = (0x80 <=? d))); vm_compute. Qed.
Lemma drop_bit d : is_u8 d → 0x80 ≤ d → Z.land d 0x7F = d - 0x80.
Proof. unfold is_u8. intros. change 0x7F with (Z.ones 7). rewrite Z.land_ones by lia. zlia. Qed.
Lemma add_bit d : 0 ≤ d < 0x80 → Z.lor d 0x80 = d + 0x80.
Proof. intros. rewrite Z.lor_comm, (lor_disjoint 7) by (done || lia). lia. Qed.

Lemma table_length first at_ : (length first ≤ 256)%nat → length (table first at_) = 256%nat.
Proof. intros. unfold table. induction at_ as [|e l IH]; cbn; [len|by rewrite length_insert]. Qed.
Lemma table_bytes first at_ : Forall is_u8 (table first at_).
Proof.
  assert (∀ z, is_u8 (u8 z)) as Hu by apply u8_range. unfold table. induction at_ as [|e l IH]; cbn.
  - rewrite Forall_app, Forall_fmap. split; [by apply Forall_true|]. by apply Forall_replicate.
  - by apply Forall_insert.
Qed.
Definition map_of (m : mods) : list Z := if m_ctl m then ctlmap else if m_shift m then shiftmap else normalmap.
Lemma map_of_lookup m d : is_u8 d → aget (map_of m) d = Some (map_of m !!! Z.to_nat d) ∧ is_u8 (map_of m !!! Z.to_nat d).
Proof.
  unfold is_u8 at 1. intros Hd. rewrite aget_pos by lia.
  assert (length (map_of m) = 256%nat ∧ Forall is_u8 (map_of m)) as [Hl Hb].
  { unfold map_of. destruct (m_ctl m), (m_shift m); split; (reflexivity || apply table_bytes). }
  destruct (lookup_lt_is_Some_2 (map_of m) (Z.to_nat d)) as [x Hx]; [lia|].
  rewrite (list_lookup_total_correct _ _ _ Hx). split; [done|]. by eapply Forall_lookup_1.
Qed.

Lemma caps_swap m c : caps (bits m) c = if m_caps m then swap_case c else c.
Proof. unfold caps, swap_case. rewrite bits_caps. repeat case_match; lia. Qed.
Lemma char_of_byte m d : is_u8 d → is_u8 (char_of m d).
Proof.
  intros Hd. unfold char_of. destruct (map_of_lookup m d Hd) as [_ Hc]. fold (map_of m). cbv zeta.
  revert Hc. generalize (map_of m !!! Z.to_nat d). unfold is_u8, swap_case. intros c Hc.
  repeat case_match; lia.
Qed.

(** kbdgetc when a scan code waits. *)
Lemma wp_kbdgetc m d q :
  is_u8 d →
  wp kbdgetc (λ c k, c = (kspec m d).1 ∧ k = mkKbd (bits (kspec m d).2) q) (mkKbd (bits m) (d :: q)).
Proof.
  intros Hd. pose proof Hd as Hd'. unfold is_u8 in Hd'. unfold kbdgetc, kbd_status, kbd_data, set_shift, kspec.
  wstep. cbn [kb_queue kb_shift tail head default id]. change (Z.land KBS_DIB KBS_DIB =? 0) with false. cbv iota.
  wstep. cbn [kb_queue kb_shift tail head default id].
  destruct (d =? 0xE0); [wstep; by rewrite bits_set_e0|].
  rewrite release_bit, bits_e0 by done. destruct (Z.leb_spec 0x80 d).
  - assert (is_u8 (if m_e0 m then d else d - 0x80)) as Hk by (unfold is_u8; case_match; lia).
    rewrite drop_bit by done. rewrite shiftcode_key by done. wstep. by rewrite bits_release.
  - rewrite add_bit, bits_clear_e0 by lia. set (code := if m_e0 m then d + 0x80 else d).
    assert (is_u8 code) as Hk by (unfold code, is_u8; case_match; lia).
    set (m0 := set_e0 false m).
    assert ((if m_e0 m then (d + 0x80, bits m0) else (d, bits m)) = (code, bits m0)) as ->.
    { unfold code, m0. destruct m as [? ? ? ? ? ? []]; done. }
    rewrite shiftcode_key, togglecode_key by done. wstep.
    rewrite bits_hold, bits_switch, bits_map. set (m1 := switch _ _). fold (map_of m1). wstep.
    rewrite (proj1 (map_of_lookup _ code Hk)). wstep. by rewrite caps_swap.
Qed.
Lemma kbdgetc_nil m : kbdgetc (mkKbd (bits m) []) = Ok (-1) (mkKbd (bits m) []).
Proof. done. Qed.
Lemma kspec_byte m d : is_u8 d → is_u8 (kspec m d).1.
Proof.
  unfold kspec. intros Hd. destruct (d =? _); [done|]. destruct (Z.leb_spec 0x80 d); [done|].
  apply char_of_byte. unfold is_u8 in *. case_match; lia.
Qed.
