(* ===== verification/ConsoleSpec.v ===== *)
(** * The console is a line editor on a scrolling terminal

    The abstract console has no ring buffer and no screen memory: the input is a
    list of bytes that can be read and the line being edited, and the screen is a
    window on a tape of rows that only grows.  This file has the screen and the
    printing; ConsoleLine.v has the input and the theorem on the whole console. *)
From stdpp Require Import base list numbers option strings.
From Stdlib Require Import ZArith Lia.
From S2P Require Import Prelude Kstring Ulib BlockStore Fs Proc Console.
Open Scope Z_scope.

(** ** The terminal *)
Definition upd (f : Z → Z) (p v : Z) : Z → Z := λ i, if i =? p then v else f i.
Definition cell (c : Z) : Z := Z.lor (Z.land c 0xff) 0x0700.

(** The cells of all rows ever shown, the first cell of the window, which has 24
    rows of 80 cells, and the cursor. *)
Record term := mkTerm { t_cell : Z → Z; t_top : Z; t_pos : Z }.
Definition tput (t : term) (c : Z) : term :=
  let p := if c =? 10 then t_pos t + (80 - t_pos t mod 80)
           else if c =? BACKSPACE then (if t_top t <? t_pos t then t_pos t - 1 else t_pos t)
           else t_pos t + 1 in
  let f := if (c =? 10) || (c =? BACKSPACE) then t_cell t else upd (t_cell t) (t_pos t) (cell c) in
  mkTerm (upd f p (cell 32)) (if t_top t + 24 * 80 <=? p then t_top t + 80 else t_top t) p.
Definition tputs (t : term) (l : list Z) : term := foldl tput t l.

Record screen (g : cga) (t : term) : Prop := {
  sc_len : (1920 ≤ length (crt g))%nat;
  sc_row : t_top t mod 80 = 0;
  sc_window : t_top t ≤ t_pos t < t_top t + 1920;
  sc_hi : is_u8 (cr_hi g);
  sc_lo : is_u8 (cr_lo g);
  sc_cursor : cr_hi g * 256 + cr_lo g = t_pos t - t_top t;
  sc_cells i : (i < 1920)%nat → crt g !! i = Some (t_cell t (t_top t + Z.of_nat i));
  sc_below j : t_top t + 1920 ≤ j → t_cell t j = 0 }.

(** The cursor position as cgaputc reads it from the two registers. *)
Lemma cursor_bytes h l : is_u8 l → Z.lor (Z.shiftl h 8) l = h * 256 + l.
Proof.
  intros Hl. rewrite Z.shiftl_mul_pow2 by lia. apply (lor_disjoint 8); [lia| |done].
  apply Z.mod_mul. lia.
Qed.

Lemma wp_outb_index g v Q :
  Q tt (mkCga (crt g) (u8 v) (cr_hi g) (cr_lo g)) → wp (crt_outb CRTPORT v) Q g.
Proof. done. Qed.
Lemma wp_outb_hi l h lo v Q : Q tt (mkCga l 14 (u8 v) lo) → wp (crt_outb (CRTPORT + 1) v) Q (mkCga l 14 h lo).
Proof. done. Qed.
Lemma wp_outb_lo l h lo v Q : Q tt (mkCga l 15 h (u8 v)) → wp (crt_outb (CRTPORT + 1) v) Q (mkCga l 15 h lo).
Proof. done. Qed.
Lemma wp_crt_store g p v Q :
  0 ≤ p < Z.of_nat (length (crt g)) →
  Q tt (mkCga (<[Z.to_nat p := v]> (crt g)) (cr_index g) (cr_hi g) (cr_lo g)) →
  wp (crt_store p v) Q g.
Proof. intros Hp HQ. unfold crt_store, aset. wstep. cbv [id]. rewrite decide_True by lia. by wstep. Qed.

Lemma wp_crt_scroll g p Q :
  (1920 ≤ length (crt g))%nat → 0 ≤ p ≤ 1920 →
  Q tt (mkCga (splice (splice (crt g) 0 (slice (crt g) 80 1840)) (Z.to_nat p) (replicate (Z.to_nat (1920 - p)) 0))
          (cr_index g) (cr_hi g) (cr_lo g)) →
  wp (crt_scroll p) Q g.
Proof.
  intros Hl Hp HQ. unfold crt_scroll. wstep. cbv [id].
  rewrite (proj2 (Z.leb_le (24 * 80) _)), (proj2 (Z.leb_le 0 p)), (proj2 (Z.leb_le p _)) by lia.
  cbn [andb]. wstep. exact HQ.
Qed.

(** What cgaputc does between reading and writing the cursor: the cells and the
    position, relative to the top of the window. *)
Definition moved (c pos : Z) (l : list Z) : list Z * Z :=
  if c =? 10 then (l, pos + (80 - pos mod 80))
  else if c =? BACKSPACE then (l, if 0 <? pos then pos - 1 else pos)
  else (<[Z.to_nat pos := cell c]> l, pos + 1).
Definition scrolled (l : list Z) (pos : Z) : list Z * Z :=
  if 1920 <=? pos then (splice (splice l 0 (slice l 80 1840)) (Z.to_nat (pos - 80)) (replicate (Z.to_nat (2000 - pos)) 0), pos - 80)
  else (l, pos).

Lemma moved_range c pos l : 0 ≤ pos < 1920 → 0 ≤ (moved c pos l).2 ≤ 1920.
Proof. intros Hp. unfold moved. repeat case_match; simpl in *; zlia. Qed.
Lemma moved_length c pos l : length (moved c pos l).1 = length l.
Proof. unfold moved. repeat case_match; simpl; by rewrite ?length_insert. Qed.

Lemma wp_moved g c pos Q :
  0 ≤ pos < Z.of_nat (length (crt g)) →
  Q (moved c pos (crt g)).2 (mkCga (moved c pos (crt g)).1 (cr_index g) (cr_hi g) (cr_lo g)) →
  wp (if c =? 10 then ret (pos + (80 - pos mod 80))
      else if c =? BACKSPACE then ret (if 0 <? pos then pos - 1 else pos)
      else crt_store pos (Z.lor (Z.land c 0xff) 0x0700) ;;; ret (pos + 1)) Q g.
Proof.
  unfold moved. intros Hp HQ. destruct (c =? 10); [by destruct g|]. destruct (c =? BACKSPACE); [by destruct g|].
  wstep1. by apply wp_crt_store.
Qed.
Lemma wp_scrolled g pos Q :
  (1920 ≤ length (crt g))%nat → 0 ≤ pos ≤ 1920 →
  Q (scrolled (crt g) pos).2 (mkCga (scrolled (crt g) pos).1 (cr_index g) (cr_hi g) (cr_lo g)) →
  wp (if 24 <=? pos / 80 then crt_scroll (pos - 80) ;;; ret (pos - 80) else ret pos) Q g.
Proof.
  unfold scrolled. intros Hl Hp HQ. destruct (Z.leb_spec 1920 pos) as [H|H].
  - rewrite (proj2 (Z.leb_le 24 _)) by zlia. wstep1. apply wp_crt_scroll; [done|lia|].
    replace (1920 - (pos - 80)) with (2000 - pos) by lia. exact HQ.
  - rewrite (proj2 (Z.leb_gt 24 _)) by zlia. by destruct g.
Qed.

Lemma scrolled_range l pos : 0 ≤ pos ≤ 1920 → 0 ≤ (scrolled l pos).2 < 1920.
Proof. intros Hp. unfold scrolled. destruct (Z.leb_spec 1920 pos); simpl; lia. Qed.
Lemma scrolled_length l pos :
  (1920 ≤ length l)%nat → 0 ≤ pos ≤ 1920 → length (scrolled l pos).1 = length l.
Proof.
  intros Hl Hp. unfold scrolled. destruct (Z.leb_spec 1920 pos); simpl; [|done].
  assert (length (splice l 0 (slice l 80 1840)) = length l) as Hs by (rewrite length_splice; rewrite ?length_slice; lia).
  rewrite length_splice; rewrite ?length_replicate; lia.
Qed.

(** cgaputc on a cursor inside the 24 rows. *)
Lemma cgaputc_run g c (pos := cr_hi g * 256 + cr_lo g) (r1 := moved c pos (crt g)) (r2 := scrolled r1.1 r1.2) :
  is_u8 (cr_hi g) → is_u8 (cr_lo g) → 0 ≤ pos < 1920 → (1920 ≤ length (crt g))%nat →
  wp (cgaputc c) (λ _ g', g' = mkCga (<[Z.to_nat r2.2 := cell 32]> r2.1) 15 (r2.2 / 256) (r2.2 mod 256)) g.
Proof.
  intros Hh Hlo Hpos Hlen. pose proof (moved_range c pos (crt g) Hpos) as Hr1.
  pose proof (moved_length c pos (crt g)) as Hl1. fold r1 in Hr1, Hl1.
  pose proof (scrolled_range r1.1 r1.2 Hr1) as Hr2.
  pose proof (scrolled_length r1.1 r1.2 ltac:(lia) Hr1) as Hl2. fold r2 in Hr2, Hl2.
  unfold cgaputc. do 2 (wstep1; apply wp_outb_index; wstep1; apply wp_gets; cbn [cr_index cr_hi cr_lo crt]).
  change (u8 14 =? 14) with true. change (u8 15 =? 14) with false. change (u8 15 =? 15) with true.
  rewrite cursor_bytes by done. fold pos. cbv zeta. wstep1. apply wp_moved; cbn [crt]; [lia|]. fold r1.
  wstep1. apply wp_scrolled; cbn [crt cr_index cr_hi cr_lo]; [lia|done|]. fold r2.
  wstep1. apply wp_outb_index. cbn [cr_index cr_hi cr_lo crt]. wstep1. apply wp_outb_hi.
  wstep1. apply wp_outb_index. cbn [cr_index cr_hi cr_lo crt]. wstep1. apply wp_outb_lo.
  apply wp_crt_store; cbn [cr_index cr_hi cr_lo crt]; [lia|].
  f_equal. rewrite Z.shiftr_div_pow2 by lia. apply u8_small. change (2 ^ 8) with 256. zlia.
Qed.

(** The cells after a scroll: the window moved down by a row, the new row empty. *)
Lemma scrolled_lookup l (f : Z → Z) top :
  (1920 ≤ length l)%nat →
  (∀ i, (i < 1920)%nat → l !! i = Some (f (top + Z.of_nat i))) → (∀ j, top + 1920 ≤ j → f j = 0) →
  ∀ i, (i < 1920)%nat → (scrolled l 1920).1 !! i = Some (f (top + 80 + Z.of_nat i)).
Proof.
  intros Hl Hf H0 i Hi. unfold scrolled. change (1920 <=? 1920) with true. cbn [fst].
  change (Z.to_nat (1920 - 80)) with 1840%nat. change (Z.to_nat (2000 - 1920)) with 80%nat.
  assert (length (splice l 0 (slice l 80 1840)) = length l) as Hs by (rewrite length_splice; rewrite ?length_slice; lia).
  destruct (decide (i < 1840)%nat).
  - rewrite lookup_splice_out by (rewrite ?length_replicate; lia).
    rewrite lookup_splice_in by (rewrite ?length_slice; lia).
    rewrite lookup_slice, Hf by lia. do 2 f_equal. lia.
  - rewrite lookup_splice_in by (rewrite ?length_replicate; lia).
    rewrite lookup_replicate_2 by lia. rewrite H0 by lia. done.
Qed.

(** The new position and cells of [tput], before the cursor is drawn. *)
Lemma moved_tput g t c (r := moved c (t_pos t - t_top t) (crt g)) :
  screen g t →
  t_pos (tput t c) = t_top t + r.2 ∧
  ∃ f, (∀ i, t_cell (tput t c) i = upd f (t_pos (tput t c)) (cell 32) i) ∧
       (∀ i, (i < 1920)%nat → r.1 !! i = Some (f (t_top t + Z.of_nat i))) ∧
       (∀ j, t_top t + 1920 ≤ j → f j = 0).
Proof.
  intros [Hl Hrow Hw _ _ _ Hc Hb]. unfold r, moved, tput. cbn [t_cell t_pos].
  destruct (Z.eqb_spec c 10) as [->|Hn].
  - split; [cbn [snd]; zlia|]. by exists (t_cell t).
  - destruct (Z.eqb_spec c BACKSPACE) as [->|Hbs].
    + split; [cbn [snd]; destruct (Z.ltb_spec (t_top t) (t_pos t)), (Z.ltb_spec 0 (t_pos t - t_top t)); lia|].
      by exists (t_cell t).
    + split; [cbn [snd]; lia|]. exists (upd (t_cell t) (t_pos t) (cell c)). cbn [fst orb]. split_and!; [done| |].
      * intros i Hi. unfold upd. destruct (Z.eqb_spec (t_top t + Z.of_nat i) (t_pos t)) as [He|He].
        -- replace (Z.to_nat (t_pos t - t_top t)) with i by lia. apply list_lookup_insert_eq. lia.
        -- rewrite list_lookup_insert_ne by lia. by apply Hc.
      * intros j Hj. unfold upd. rewrite (proj2 (Z.eqb_neq _ _)) by lia. by apply Hb.
Qed.

(** Drawing the cursor. *)
Lemma screen_cursor l f t (pos := t_pos t - t_top t) :
  (1920 ≤ length l)%nat → t_top t mod 80 = 0 → t_top t ≤ t_pos t < t_top t + 1920 →
  (∀ i, (i < 1920)%nat → l !! i = Some (f (t_top t + Z.of_nat i))) → (∀ j, t_top t + 1920 ≤ j → f j = 0) →
  (∀ i, t_cell t i = upd f (t_pos t) (cell 32) i) →
  screen (mkCga (<[Z.to_nat pos := cell 32]> l) 15 (pos / 256) (pos mod 256)) t.
Proof.
  intros Hl Hrow Hw Hc Hb Hf. subst pos.
  split; cbn [crt cr_hi cr_lo]; try done; unfold is_u8; try zlia.
  - by rewrite length_insert.
  - intros i Hi. rewrite Hf. unfold upd. destruct (Z.eqb_spec (t_top t + Z.of_nat i) (t_pos t)).
    + replace (Z.to_nat (t_pos t - t_top t)) with i by lia. apply list_lookup_insert_eq. lia.
    + rewrite list_lookup_insert_ne by lia. by apply Hc.
  - intros j Hj. rewrite Hf. unfold upd. rewrite (proj2 (Z.eqb_neq _ _)) by lia. by apply Hb.
Qed.

(** cgaputc shows on the screen what [tput] puts on the tape. *)
Lemma wp_cgaputc g t c : screen g t → wp (cgaputc c) (λ _ g', screen g' (tput t c)) g.
Proof.
  intros Hs. pose proof Hs as [Hl Hrow Hw Hhi Hlo Hcur _ _].
  destruct (moved_tput g t c Hs) as (Hp & f & Hf & Hc & Hb). set (pos := t_pos t - t_top t) in *.
  pose proof (moved_range c pos (crt g) ltac:(lia)) as Hr. pose proof (moved_length c pos (crt g)) as Hml.
  eapply wp_mono; [apply cgaputc_run; [done..|lia|done]|]. intros [] g' ->. rewrite Hcur. fold pos.
  set (l := (moved c pos (crt g)).1) in *. set (q := (moved c pos (crt g)).2) in *.
  assert (t_top (tput t c) = if 1920 <=? q then t_top t + 80 else t_top t) as Htop.
  { unfold tput in Hp |- *. cbn [t_pos t_top] in *. rewrite Hp.
    destruct (Z.leb_spec 1920 q), (Z.leb_spec (t_top t + 24 * 80) (t_top t + q)); lia. }
  assert (q - (if 1920 <=? q then 80 else 0) = t_pos (tput t c) - t_top (tput t c)) as Hq
    by (rewrite Htop, Hp; destruct (1920 <=? q); lia).
  assert ((scrolled l q).2 = t_pos (tput t c) - t_top (tput t c)) as Hpos
    by (rewrite <- Hq; unfold scrolled; destruct (1920 <=? q); cbn [snd]; lia).
  rewrite Hpos. pose proof (scrolled_range l q Hr). pose proof (scrolled_length l q ltac:(lia) Hr).
  apply screen_cursor with f; [lia|rewrite Htop; destruct (1920 <=? q); zlia|lia| | |done].
  - destruct (Z.leb_spec 1920 q).
    + assert (q = 1920) as -> by lia. rewrite Htop. apply scrolled_lookup; [lia|done..].
    + unfold scrolled. rewrite (proj2 (Z.leb_gt 1920 q)) by lia. by rewrite Htop.
  - intros j Hj. apply Hb. rewrite Htop in Hj. destruct (1920 <=? q); lia.
Qed.

(** ** Output *)
(** The bytes consputc sends to the serial port for a character. *)
Definition serial (c : Z) : list Z := if c =? BACKSPACE then [8; 32; 8] else [u8 c].

Record sent (l : list Z) (u u' : uart) : Prop := {
  sent_present : ua_present u' = ua_present u;
  sent_uart : ua_uart u' = ua_uart u;
  sent_rx : ua_rx u' = ua_rx u;
  sent_tx : ua_tx u' = ua_tx u ++ (if ua_uart u then l else []) }.
Lemma sent_refl u : sent [] u u.
Proof. split; try done. case_match; by rewrite app_nil_r. Qed.
Lemma sent_trans l1 l2 u1 u2 u3 : sent l1 u1 u2 → sent l2 u2 u3 → sent (l1 ++ l2) u1 u3.
Proof.
  intros [Hp1 Hu1 Hr1 Ht1] [Hp2 Hu2 Hr2 Ht2]. split; [congruence..|]. rewrite Ht2, Ht1, Hu1.
  destruct (ua_uart u1); by rewrite <- ?app_assoc, ?app_nil_r.
Qed.

(** From [s] to [s'] the characters [l] were printed and nothing else changed. *)
Record printed (l : list Z) (s s' : console) : Prop := {
  pr_panicked : cn_panicked s' = cn_panicked s;
  pr_kbd : cn_kbd s' = cn_kbd s;
  pr_input : cn_input s' = cn_input s;
  pr_wakes : cn_wakes s' = cn_wakes s;
  pr_uart : sent (l ≫= serial) (cn_uart s) (cn_uart s');
  pr_screen t : screen (cn_cga s) t → screen (cn_cga s') (tputs t l) }.
Definition usable (s : console) : Prop := cn_panicked s = false ∧ ∃ t, screen (cn_cga s) t.

Lemma printed_refl s : printed [] s s.
Proof. split; try done. apply sent_refl. Qed.
Lemma printed_trans l1 l2 s1 s2 s3 : printed l1 s1 s2 → printed l2 s2 s3 → printed (l1 ++ l2) s1 s3.
Proof.
  intros [Hp1 Hk1 Hi1 Hw1 Hu1 Hs1] [Hp2 Hk2 Hi2 Hw2 Hu2 Hs2]. split; [congruence..| |].
  - rewrite bind_app. by eapply sent_trans.
  - intros t Ht. unfold tputs. rewrite foldl_app. by apply Hs2, Hs1.
Qed.
Lemma printed_usable l s s' : printed l s s' → usable s → usable s'.
Proof. intros [Hp _ _ _ _ Hs] [Hu [t Ht]]. split; [by rewrite Hp|]. eauto. Qed.

(** Printing in sequence. *)
Lemma wp_printed_bind {A} (m : M console unit) (k : M console A) l s Q :
  usable s → wp m (λ _ s', printed l s s') s →
  (∀ s', usable s' → printed l s s' → wp k Q s') → wp (m ;;; k) Q s.
Proof. intros Hu Hm Hk. wstep1. eapply wp_mono; [exact Hm|]. intros [] s' Hp. apply Hk; [|done]. by eapply printed_usable. Qed.

Section output.
Context (tx_ready : nat → bool).

Lemma wp_uart_wait n u : wp (uart_wait tx_ready n) (λ _ u', sent [] u u') u.
Proof.
  revert u. induction n as [|n IH]; intros u; cbn [uart_wait]; [apply sent_refl|].
  unfold uart_status. wstep. case_match.
  - wstep. split; try done. cbn [ua_tx]. destruct (ua_uart u); by rewrite app_nil_r.
  - eapply wp_mono; [apply IH|]. intros [] u' [? ? ? Ht]. by split.
Qed.
Lemma wp_uartputc c u : wp (uartputc tx_ready c) (λ _ u', sent [u8 c] u u') u.
Proof.
  unfold uartputc. wstep. destruct (ua_uart u) eqn:Hu; cbn [negb].
  - wstep1. eapply wp_mono; [apply wp_uart_wait|]. intros [] u' [? Hu' ? Ht]. apply wp_modify.
    rewrite Hu, app_nil_r in Ht. split; cbn; [congruence..|]. by rewrite Hu, Ht.
  - wstep. split; try done. by rewrite Hu, app_nil_r.
Qed.

Lemma wp_uputc c s : wp (uputc tx_ready c) (λ _ s', ∃ u, s' = set_uart u s ∧ sent [u8 c] (cn_uart s) u) s.
Proof. unfold uputc. wstep1. eapply wp_mono; [apply wp_uartputc|]. eauto. Qed.

Lemma wp_serial c s :
  wp (if c =? BACKSPACE then uputc tx_ready 8 ;;; uputc tx_ready 32 ;;; uputc tx_ready 8 else uputc tx_ready c)
     (λ _ s', ∃ u, s' = set_uart u s ∧ sent (serial c) (cn_uart s) u) s.
Proof.
  unfold serial. case_match; [|apply wp_uputc].
  wstep1. eapply wp_mono; [apply wp_uputc|]. intros [] ? (u1 & -> & H1).
  wstep1. eapply wp_mono; [apply wp_uputc|]. intros [] ? (u2 & -> & H2).
  eapply wp_mono; [apply wp_uputc|]. intros [] ? (u3 & -> & H3). exists u3. split; [done|].
  exact (sent_trans _ _ _ _ _ (sent_trans _ _ _ _ _ H1 H2) H3).
Qed.

Lemma wp_consputc c s : usable s → wp (consputc tx_ready c) (λ _ s', printed [c] s s') s.
Proof.
  intros [Hp [t Ht]]. unfold consputc. wstep. rewrite Hp.
  wstep1. eapply wp_mono; [apply wp_serial|]. intros [] ? (u & -> & Hu). wstep1.
  assert (∃ g, cgaputc c (cn_cga s) = Ok tt g) as [g Hg].
  { pose proof (wp_cgaputc _ _ c Ht) as H. apply wp_iff in H as ([] & g & H & _). by exists g. }
  unfold wp. cbn [set_uart cn_cga]. rewrite Hg. split; try done.
  - change ([c] ≫= serial) with (serial c ++ []). by rewrite app_nil_r.
  - intros t' Ht'. exact (wp_det _ _ _ _ _ (wp_cgaputc _ _ c Ht') Hg).
Qed.

Lemma wp_puts l s : usable s → wp (mfor l (consputc tx_ready)) (λ _ s', printed l s s') s.
Proof.
  revert s. induction l as [|c l IH]; intros s Hu; cbn [mfor]; [apply printed_refl|].
  eapply wp_printed_bind; [done|by apply wp_consputc|]. intros s1 Hu1 H1.
  eapply wp_mono; [by apply IH|]. intros [] s2 H2. exact (printed_trans [c] l _ _ _ H1 H2).
Qed.

(** *** Formatted output *)
Lemma cprintint_digits_length fuel x base :
  length (cprintint_digits fuel x base) = length (printint_digits fuel x base).
Proof.
  revert x. induction fuel as [|fuel IH]; intros x; [done|]. cbn [cprintint_digits printint_digits length].
  f_equal. destruct (x / base =? 0); [done|apply IH].
Qed.
Lemma cprintint_buf_length xx base sgn : base = 10 ∨ base = 16 → (length (cprintint_buf xx base sgn) ≤ 16)%nat.
Proof.
  intros Hb. unfold cprintint_buf. cbv zeta. rewrite length_app, cprintint_digits_length.
  assert (∀ x, 0 ≤ x < 4294967296 → (length (printint_digits 32 x base) ≤ 10)%nat) as Hl.
  { intros x Hx. apply printint_digits_length; [lia| |lia]. destruct Hb as [-> | ->]; split; try lia.
    all: eapply Z.lt_le_trans; [apply Hx|]; by vm_compute. }
  destruct (sgn && (xx <? 0)); cbn [length].
  - pose proof (Hl _ (u32_range (- xx))). lia.
  - pose proof (Hl _ (u32_range xx)). lia.
Qed.

(** The characters cprintf prints. *)
Fixpoint cformat (fmt : list Z) (ap : list carg) : option (list Z) :=
  match fmt with
  | [] => Some []
  | c :: fmt =>
    if c =? 0 then Some []
    else if negb (c =? 37) then cons c <$> cformat fmt ap
    else
      match fmt with
      | [] => Some []
      | c :: fmt =>
        if c =? 0 then Some []
        else if c =? 100 then
          match ap with
          | Num n :: ap => app (reverse (cprintint_buf (s32 n) 10 true)) <$> cformat fmt ap
          | _ => None
          end
        else if (c =? 120) || (c =? 112) then
          match ap with
          | Num n :: ap => app (reverse (cprintint_buf (s32 n) 16 false)) <$> cformat fmt ap
          | _ => None
          end
        else if c =? 115 then
          match ap with
          | Str s :: ap => app (cstr (default (cs "(null)") s)) <$> cformat fmt ap
          | _ => None
          end
        else if c =? 37 then cons 37 <$> cformat fmt ap
        else app [37; c] <$> cformat fmt ap
      end
  end.

Lemma wp_cprintint xx base sgn s :
  base = 10 ∨ base = 16 → usable s →
  wp (cprintint tx_ready xx base sgn) (λ _ s', printed (reverse (cprintint_buf xx base sgn)) s s') s.
Proof.
  intros Hb Hu. unfold cprintint. cbv zeta.
  rewrite (proj2 (Nat.leb_le _ _) (cprintint_buf_length xx base sgn Hb)). by apply wp_puts.
Qed.

(** A piece is printed, then the rest. *)
Lemma wp_piece (m k : M console unit) l1 l2 s :
  usable s → wp m (λ _ s', printed l1 s s') s →
  (∀ s', usable s' → wp k (λ _ s'', printed l2 s' s'') s') → wp (m ;;; k) (λ _ s', printed (l1 ++ l2) s s') s.
Proof.
  intros Hu Hm Hk. eapply wp_printed_bind; [done..|]. intros s1 Hu1 H1.
  eapply wp_mono; [by apply Hk|]. intros [] s2 H2. by eapply printed_trans.
Qed.
Lemma wp_cprintf fmt ap l s :
  cformat fmt ap = Some l → usable s → wp (cprintf tx_ready fmt ap) (λ _ s', printed l s s') s.
Proof.
  unfold cprintf. remember (length fmt) as n eqn:Hn. assert (length fmt ≤ n)%nat as Hle by lia. clear Hn.
  revert fmt ap l s Hle. induction n as [|n IH]; intros [|c fmt] ap l s Hle; cbn [length] in Hle; try lia;
    try (intros [= <-] Hu; apply printed_refl).
  cbn [cformat cprintf_loop]. destruct (c =? 0); [intros [= <-] _; apply printed_refl|].
  destruct (negb (c =? 37)).
  { intros (l' & Hl & ->)%fmap_Some Hu. apply (wp_piece _ _ [c]); [done|by apply wp_consputc|]. intros s' Hu'. by apply IH; [lia|..]. }
  destruct fmt as [|d fmt]; [intros [= <-] _; apply printed_refl|]. cbn [length] in Hle.
  assert (∀ ap l s, cformat fmt ap = Some l → usable s → wp (cprintf_loop tx_ready fmt ap) (λ _ s', printed l s s') s) as IH'
    by (intros; apply IH; [lia|done..]).
  destruct (d =? 0); [intros [= <-] _; apply printed_refl|].
  destruct (d =? 100).
  { destruct ap as [|[x|] ap]; try done. intros (l' & Hl & ->)%fmap_Some Hu. apply wp_piece; [done|apply wp_cprintint; auto|auto]. }
  destruct (_ || _).
  { destruct ap as [|[x|] ap]; try done. intros (l' & Hl & ->)%fmap_Some Hu. apply wp_piece; [done|apply wp_cprintint; auto|auto]. }
  destruct (d =? 115).
  { destruct ap as [|[|x] ap]; try done. intros (l' & Hl & ->)%fmap_Some Hu. apply wp_piece; [done|by apply wp_puts|auto]. }
  destruct (d =? 37).
  { intros (l' & Hl & ->)%fmap_Some Hu. apply (wp_piece _ _ [37]); [done|by apply wp_consputc|auto]. }
  intros (l' & Hl & ->)%fmap_Some Hu. apply (wp_piece _ _ [37]); [done|by apply wp_consputc|].
  intros s' Hu'. apply (wp_piece _ _ [d]); [done|by apply wp_consputc|auto].
Qed.

(** Printing in a loop. *)
Lemma wp_mfor_printed {A} (f : A → list Z) (body : A → M console unit) l s :
  (∀ a s, usable s → wp (body a) (λ _ s', printed (f a) s s') s) → usable s →
  wp (mfor l body) (λ _ s', printed (l ≫= f) s s') s.
Proof.
  intros Hb. revert s. induction l as [|a l IH]; intros s Hu; cbn [mfor]; [apply printed_refl|].
  rewrite bind_cons. apply wp_piece; auto.
Qed.

(** What procdump prints for a process. *)
Definition proc_line (pcs : proc → list Z) (p : proc) : list Z :=
  if decide (p_state p = UNUSED) then []
  else
    (reverse (cprintint_buf (s32 (p_pid p)) 10 true) ++ [32] ++ cstr (state_name (p_state p)) ++ [32] ++ cstr (p_name p)) ++
    (if decide (p_state p = SLEEPING)
     then until_zero (take 10 (pcs p)) ≫= λ pc, 32 :: reverse (cprintint_buf (s32 pc) 16 false) else []) ++ [10].
Lemma wp_procdump pcs procs s :
  usable s → wp (procdump tx_ready pcs procs) (λ _ s', printed (procs ≫= proc_line pcs) s s') s.
Proof.
  intros Hu. apply wp_mfor_printed; [|done]. clear s Hu. intros p s Hu. unfold proc_line.
  destruct (decide (p_state p = UNUSED)); [apply printed_refl|].
  apply wp_piece; [done|apply wp_cprintf; [|done]|].
  { change (cs "%d %s %s") with [37; 100; 32; 37; 115; 32; 37; 115].
    cbn [cformat Z.eqb Pos.eqb negb orb fmap option_fmap option_map default]. by rewrite app_nil_r. }
  intros s1 Hu1. apply wp_piece; [done| |intros; by apply wp_cprintf].
  destruct (decide (p_state p = SLEEPING)); [|apply printed_refl].
  apply wp_mfor_printed; [|done]. intros pc s2 Hu2. apply wp_cprintf; [|done].
  change (cs " %p") with [32; 37; 112].
  cbn [cformat Z.eqb Pos.eqb negb orb fmap option_fmap option_map]. by rewrite app_nil_r.
Qed.
End output.
