(* ===== verification/ConsoleLine.v ===== *)
(** * The line editor (consoleintr and consoleread of console.c)

    The ring buffer with its three indices holds the bytes a process may read and
    the line that is still edited.  [console_refines] shows that every sequence
    of keyboard and serial interrupts, reads and writes has the effect the
    abstract console gives it, on the input, the screen and the serial line. *)
From stdpp Require Import base list numbers option strings.
From Stdlib Require Import ZArith Lia.
From S2P Require Import Prelude Kstring Ulib BlockStore Fs File FileSpec Proc Console Kbd ConsoleSpec.
Open Scope Z_scope.

(** ** The abstract input *)
Record line := mkLine { l_ready : list Z; l_edit : list Z }.
Definition size (d : line) : nat := (length (l_ready d) + length (l_edit d))%nat.

(** A character typed: the line after it, whether readers are woken, and the
    characters echoed; [dump] is the process listing. *)
Definition key_in (dump : list Z) (c : Z) (d : line) : line * bool * list Z :=
  if c =? C 80 then (d, false, dump)
  else if c =? C 85 then (mkLine (l_ready d) [], false, replicate (length (l_edit d)) BACKSPACE)
  else if (c =? C 72) || (c =? 0x7f) then
    (mkLine (l_ready d) (removelast (l_edit d)), false, match l_edit d with [] => [] | _ => [BACKSPACE] end)
  else if (c =? 0) || (128 <=? size d)%nat then (d, false, [])
  else
    let c := if c =? 13 then 10 else c in
    if (c =? 10) || (c =? C 68) || (S (size d) =? 128)%nat
    then (mkLine (l_ready d ++ l_edit d ++ [c]) [], true, [c])
    else (mkLine (l_ready d) (l_edit d ++ [c]), false, [c]).

(** A read of up to [n] more of [target] bytes: what it gets, how it ends, what
    is left.  A line end ends it; Control-D ends it too, and stays for the next
    read unless this one has read nothing. *)
Fixpoint read_line (killed : bool) (target : Z) (n : nat) (l : list Z) : list Z * rd_outcome * list Z :=
  match n, l with
  | O, _ => ([], RReturn target, l)
  | S _, [] => ([], if killed then RReturn (-1) else RSleep n, [])
  | S n', c :: l' =>
    if c =? C 68 then ([], RReturn (target - Z.of_nat n), if Z.of_nat n <? target then l else l')
    else if c =? 10 then ([c], RReturn (target - Z.of_nat n'), l')
    else let '(r, o, l'') := read_line killed target n' l' in (c :: r, o, l'')
  end.

(** ** The ring buffer *)
Definition slot (r : Z) (k : nat) : nat := Z.to_nat ((r + Z.of_nat k) mod INPUT_BUF).
Record ring (i : input) (d : line) : Prop := {
  rg_len : length (in_buf i) = 128%nat;
  rg_r : is_u32 (in_r i);
  rg_w : in_w i = u32 (in_r i + Z.of_nat (length (l_ready d)));
  rg_e : in_e i = u32 (in_r i + Z.of_nat (size d));
  rg_fit : (size d ≤ 128)%nat;
  rg_slots k c : (l_ready d ++ l_edit d) !! k = Some c → in_buf i !! slot (in_r i) k = Some c }.

Ltac uwrap := unfold u32, is_u32, INPUT_BUF, size in *; cbn [l_ready l_edit length] in *; rewrite ?length_app in *;
  cbn [length] in *.

(** Indices wrap around at 2^32, a multiple of the size of the buffer. *)
Lemma u32_mod128 x : u32 x mod 128 = x mod 128.
Proof. unfold u32. zlia. Qed.
Lemma slot_u32 r k : slot (u32 (r + Z.of_nat k)) 0 = slot r k.
Proof. unfold slot, INPUT_BUF. rewrite Z.add_0_r. by rewrite u32_mod128. Qed.
Lemma slot_inj r j k : (j < 128)%nat → (k < 128)%nat → slot r j = slot r k → j = k.
Proof. unfold slot, INPUT_BUF. intros. zlia. Qed.
Lemma slot_lt r k : (slot r k < 128)%nat.
Proof. unfold slot, INPUT_BUF. zlia. Qed.
Lemma aget_slot (l : list Z) r k i : i mod INPUT_BUF = (r + Z.of_nat k) mod INPUT_BUF → aget l (i mod INPUT_BUF) = l !! slot r k.
Proof. intros ->. rewrite aget_pos; [done|]. unfold INPUT_BUF. zlia. Qed.

Lemma ring_editing i d : ring i d → (in_e i =? in_w i) = bool_decide (l_edit d = []).
Proof.
  intros [_ Hr Hw He Hf _]. rewrite Hw, He. destruct d as [rd [|c ed]]; uwrap.
  - apply Z.eqb_eq. f_equal. lia.
  - apply Z.eqb_neq. zlia.
Qed.
Lemma ring_readable i d : ring i d → (in_r i =? in_w i) = bool_decide (l_ready d = []).
Proof.
  intros [_ Hr Hw He Hf _]. rewrite Hw. destruct d as [[|c rd] ed]; uwrap.
  - apply Z.eqb_eq. rewrite Z.mod_small; lia.
  - apply Z.eqb_neq. zlia.
Qed.
Lemma ring_size i d : ring i d → u32 (in_e i - in_r i) = Z.of_nat (size d).
Proof. intros [_ Hr Hw He Hf _]. rewrite He. uwrap. zlia. Qed.
Lemma ring_full i d : ring i d → (in_e i =? u32 (in_r i + INPUT_BUF)) = (size d =? 128)%nat.
Proof.
  intros [_ Hr Hw He Hf _]. rewrite He. destruct (Nat.eqb_spec (size d) 128) as [->|Hn]; [apply Z.eqb_refl|].
  apply Z.eqb_neq. uwrap. zlia.
Qed.

(** The last character of the line, and taking it back. *)
Lemma ring_last i rd ed c :
  ring i (mkLine rd (ed ++ [c])) →
  aget (in_buf i) (u32 (in_e i - 1) mod INPUT_BUF) = Some c ∧ ring (set_e (u32 (in_e i - 1)) i) (mkLine rd ed).
Proof.
  intros [Hl Hr Hw He Hf Hs]. rewrite He. split.
  - rewrite (aget_slot _ (in_r i) (length rd + length ed)).
    + apply Hs. cbn [l_ready l_edit]. rewrite app_assoc. apply list_lookup_middle. by rewrite length_app.
    + uwrap. rewrite ?length_app. zlia.
  - split; cbn [set_e in_buf in_r in_w in_e]; [done..| | |].
    + uwrap. zlia.
    + uwrap. lia.
    + intros k x Hk. apply Hs. cbn [l_ready l_edit] in *. rewrite app_assoc. by apply lookup_app_l_Some.
Qed.

(** Storing a character. *)
Lemma ring_insert i d c :
  ring i d → (size d < 128)%nat →
  ∃ buf, aset (in_buf i) (in_e i mod INPUT_BUF) c = Some buf ∧
         ring (mkInput buf (in_r i) (in_w i) (u32 (in_e i + 1))) (mkLine (l_ready d) (l_edit d ++ [c])).
Proof.
  intros [Hl Hr Hw He Hf Hs] Hlt. exists (<[slot (in_r i) (size d) := c]> (in_buf i)). split.
  - unfold aset. rewrite decide_True by (rewrite Hl; unfold INPUT_BUF; zlia). do 2 f_equal.
    unfold slot. rewrite He. f_equal. unfold INPUT_BUF. by rewrite u32_mod128.
  - split; cbn [in_buf in_r in_w in_e l_ready]; [by rewrite length_insert|done|done| | |].
    + rewrite He. uwrap. zlia.
    + uwrap. lia.
    + intros k x. cbn [l_edit]. rewrite app_assoc. intros [Hk|[Hk Hx]]%lookup_app_Some.
      * rewrite list_lookup_insert_ne; [by apply Hs|]. apply lookup_lt_Some in Hk. rewrite length_app in Hk.
        intros Hsl. apply slot_inj in Hsl; unfold size in *; lia.
      * apply list_lookup_singleton_Some in Hx as [Hk0 <-]. rewrite length_app in *.
        replace k with (size d) by (unfold size; lia). apply list_lookup_insert_eq. rewrite Hl. apply slot_lt.
Qed.
Lemma ring_commit i d : ring i d → ring (set_w (in_e i) i) (mkLine (l_ready d ++ l_edit d) []).
Proof.
  intros [Hl Hr Hw He Hf Hs]. split; cbn [set_w in_buf in_r in_w in_e l_ready l_edit]; try done.
  - rewrite He. uwrap. done.
  - rewrite He. uwrap. by rewrite Nat.add_0_r.
  - uwrap. lia.
  - intros k c. rewrite app_nil_r. apply Hs.
Qed.

(** Taking the first byte. *)
Lemma ring_take i c rd ed :
  ring i (mkLine (c :: rd) ed) →
  aget (in_buf i) (in_r i mod INPUT_BUF) = Some c ∧ ring (set_r (u32 (in_r i + 1)) i) (mkLine rd ed).
Proof.
  intros [Hl Hr Hw He Hf Hs]. split.
  - rewrite (aget_slot _ (in_r i) 0) by (f_equal; lia). by apply Hs.
  - split; cbn [set_r in_buf in_r in_w in_e]; [done|apply u32_range|..].
    + rewrite Hw. uwrap. zlia.
    + rewrite He. uwrap. zlia.
    + uwrap. lia.
    + intros k x Hk. rewrite <- (Hs (S k) x Hk). f_equal. unfold slot, INPUT_BUF, u32. zlia.
Qed.
Lemma ring_untake i d : ring i d → set_r (u32 (u32 (in_r i + 1) - 1)) (set_r (u32 (in_r i + 1)) i) = i.
Proof. intros [_ Hr _ _ _ _]. destruct i. unfold set_r. cbn in *. f_equal. uwrap. zlia. Qed.

(** ** The abstract console *)
Record acon := mkA {
  a_line : line; a_mods : mods; a_term : term; a_uart : bool; a_tx : list Z; a_wakes : nat }.
Definition aprint (l : list Z) (a : acon) : acon :=
  mkA (a_line a) (a_mods a) (tputs (a_term a) l) (a_uart a)
      (a_tx a ++ (if a_uart a then l ≫= serial else [])) (a_wakes a).
Definition set_line (d : line) (a : acon) : acon :=
  mkA d (a_mods a) (a_term a) (a_uart a) (a_tx a) (a_wakes a).
Definition set_mods (m : mods) (a : acon) : acon :=
  mkA (a_line a) m (a_term a) (a_uart a) (a_tx a) (a_wakes a).
Definition awake (b : bool) (a : acon) : acon :=
  mkA (a_line a) (a_mods a) (a_term a) (a_uart a) (a_tx a) (if b then S (a_wakes a) else a_wakes a).
Definition akey (dump : list Z) (c : Z) (a : acon) : acon :=
  let '(d, b, l) := key_in dump c (a_line a) in awake b (set_line d (aprint l a)).
(** Scan codes from the keyboard. *)
Fixpoint akbd (dump : list Z) (q : list Z) (a : acon) : acon :=
  match q with
  | [] => a
  | d :: q => let '(c, m) := kspec (a_mods a) d in akbd dump q (akey dump c (set_mods m a))
  end.
(** Bytes from the serial line, when there is one. *)
Definition auart (dump : list Z) (q : list Z) (a : acon) : acon :=
  if a_uart a then foldl (λ a c, akey dump c a) a q else a.

(** What happens to the console: scan codes or bytes arrive and the interrupt is
    served, a process starts or goes on to read, a process writes. *)
Inductive cevent :=
| EKbd (q : list Z)
| EUart (q : list Z)
| ERead (killed : bool) (target : Z) (n : nat)
| EWrite (l : list Z).
Definition aevent (dump : list Z) (ev : cevent) (a : acon) : option (list Z * rd_outcome) * acon :=
  match ev with
  | EKbd q => (None, akbd dump q a)
  | EUart q => (None, auart dump q a)
  | ERead killed target n =>
    let '(r, o, l) := read_line killed target n (l_ready (a_line a)) in
    (Some (r, o), set_line (mkLine l (l_edit (a_line a))) a)
  | EWrite l => (None, aprint l a)
  end.
Fixpoint aevents (dump : list Z) (evs : list cevent) (a : acon) : list (option (list Z * rd_outcome)) * acon :=
  match evs with
  | [] => ([], a)
  | ev :: evs => let '(o, a1) := aevent dump ev a in let '(os, a2) := aevents dump evs a1 in (o :: os, a2)
  end.

(** The same events on the code. *)
Section run.
Context (tx_ready : nat → bool) (dump : M console unit).
Definition arrive_kbd (q : list Z) : M console unit :=
  modify (λ s, set_kbd (mkKbd (kb_shift (cn_kbd s)) (kb_queue (cn_kbd s) ++ q)) s).
Definition arrive_uart (q : list Z) : M console unit :=
  modify (λ s, let u := cn_uart s in
               set_uart (mkUart (ua_present u) (ua_uart u) (ua_rx u ++ q) (ua_tx u) (ua_looks u) (ua_conf u)) s).
Definition run_event (ev : cevent) : M console (option (list Z * rd_outcome)) :=
  match ev with
  | EKbd q => arrive_kbd q ;;; kbdintr tx_ready dump ;;; ret None
  | EUart q => arrive_uart q ;;; uartintr tx_ready dump ;;; ret None
  | ERead killed target n => r <- consoleread_loop killed target n ;; ret (Some r)
  | EWrite l => mfor l (λ b, consputc tx_ready (Z.land b 0xff)) ;;; ret None
  end.
Fixpoint run_events (evs : list cevent) : M console (list (option (list Z * rd_outcome))) :=
  match evs with
  | [] => ret []
  | ev :: evs => o <- run_event ev ;; os <- run_events evs ;; ret (o :: os)
  end.
End run.
Definition event_ok (ev : cevent) : Prop :=
  match ev with EKbd q | EUart q | EWrite q => Forall is_u8 q | ERead _ _ _ => True end.

(** The console [s] is in the state [a], with [q] waiting in the keyboard and
    [rx] in the serial port. *)
Record con_ok (q rx : list Z) (s : console) (a : acon) : Prop := {
  co_run : cn_panicked s = false;
  co_ring : ring (cn_input s) (a_line a);
  co_kbd : cn_kbd s = mkKbd (bits (a_mods a)) q;
  co_screen : screen (cn_cga s) (a_term a);
  co_uart : ua_uart (cn_uart s) = a_uart a;
  co_present : a_uart a = true → ua_present (cn_uart s) = true;
  co_rx : a_uart a = true → ua_rx (cn_uart s) = rx;
  co_tx : ua_tx (cn_uart s) = a_tx a;
  co_wakes : cn_wakes s = a_wakes a }.

(** A line being edited has no line end in it. *)
Definition tidy (a : acon) : Prop := Forall (λ c, c ≠ 10) (l_edit (a_line a)).

Lemma co_usable q rx s a : con_ok q rx s a → usable s.
Proof. intros H. split; [apply H|]. eexists. apply H. Qed.
Lemma co_printed q rx s a s' l : con_ok q rx s a → printed l s s' → con_ok q rx s' (aprint l a).
Proof.
  intros [Hp Hr Hk Hs Hu Hpr Hrx Ht Hw] [Hp' Hk' Hi' Hw' [Up Uu Ur Ut] Hs'].
  split; cbn [aprint a_line a_mods a_term a_uart a_tx a_wakes]; try congruence.
  - by apply Hs'.
  - intros H. rewrite Up. by apply Hpr.
  - intros H. rewrite Ur. by apply Hrx.
  - by rewrite Ut, Ht, Hu.
Qed.
Lemma co_input q rx s a i d : con_ok q rx s a → ring i d → con_ok q rx (set_input i s) (set_line d a).
Proof. intros [] ?. by split. Qed.
Lemma aprint_app l1 l2 a : aprint l2 (aprint l1 a) = aprint (l1 ++ l2) a.
Proof.
  unfold aprint, tputs. cbn [a_line a_mods a_term a_uart a_tx a_wakes]. rewrite foldl_app, bind_app.
  destruct (a_uart a); by rewrite <- ?app_assoc, ?app_nil_r.
Qed.
Lemma aprint_nil a : aprint [] a = a.
Proof. destruct a as [? ? ? [] ? ?]; unfold aprint; cbn; by rewrite app_nil_r. Qed.
Lemma set_line_id a : set_line (a_line a) a = a.
Proof. by destruct a. Qed.

Section refine.
Context (tx_ready : nat → bool) (dump : M console unit) (dumped : list Z).
Context (Hdump : ∀ s, usable s → wp dump (λ _ s', printed dumped s s') s).

(** Printing from a good state. *)
Lemma wp_co_put q rx s a c : con_ok q rx s a → wp (consputc tx_ready c) (λ _ s', con_ok q rx s' (aprint [c] a)) s.
Proof.
  intros Ho. eapply wp_mono; [by eapply wp_consputc, co_usable|]. intros [] s' Hp. by eapply co_printed.
Qed.

Lemma wp_kill_line q rx s a fuel rd ed :
  con_ok q rx s a → a_line a = mkLine rd ed → tidy a → (length ed < fuel)%nat →
  wp (kill_line tx_ready fuel)
     (λ _ s', con_ok q rx s' (set_line (mkLine rd []) (aprint (replicate (length ed) BACKSPACE) a))) s.
Proof.
  revert s a ed. induction fuel as [|fuel IH]; intros s a ed Ho Hl Ht Hf; [lia|]. cbn [kill_line]. wstep.
  pose proof (co_ring _ _ _ _ Ho) as Hr. rewrite Hl in Hr. rewrite (ring_editing _ _ Hr). cbn [l_edit].
  destruct ed as [|c ed _] using rev_ind; [rewrite bool_decide_true by done|rewrite bool_decide_false by (by destruct ed)].
  { wstep. cbn [length replicate]. rewrite aprint_nil, <- Hl. by rewrite set_line_id. }
  destruct (ring_last _ _ _ _ Hr) as [Hc Hr']. rewrite Hc. wstep1. apply wp_ret.
  unfold tidy in Ht. rewrite Hl in Ht. cbn [l_edit] in Ht. apply Forall_app in Ht as [Ht Hc10].
  rewrite Forall_singleton in Hc10.
  rewrite (proj2 (Z.eqb_neq c 10) Hc10). unfold on_input. wstep1. apply wp_modify.
  wstep1. eapply wp_mono; [apply wp_co_put, (co_input _ _ _ _ _ _ Ho Hr')|]. intros [] s1 Ho1. rewrite length_app in *.
  eapply wp_mono; [apply (IH s1 _ ed Ho1); [done|done|cbn [length] in Hf; lia]|]. intros [] s2 Ho2. revert Ho2.
  change (aprint ?l2 (aprint ?l1 (set_line ?d ?b))) with (set_line d (aprint l2 (aprint l1 b))).
  rewrite aprint_app. cbn [length]. by rewrite Nat.add_comm.
Qed.
Lemma wp_backspace q rx s a :
  con_ok q rx s a → tidy a →
  wp (i <- gets cn_input ;;
      if negb (in_e i =? in_w i) then on_input (set_e (u32 (in_e i - 1))) ;;; consputc tx_ready BACKSPACE else ret tt)
     (λ _ s', let d := a_line a in
        con_ok q rx s' (set_line (mkLine (l_ready d) (removelast (l_edit d)))
                          (aprint match l_edit d with [] => [] | _ => [BACKSPACE] end a))) s.
Proof.
  intros Ho Ht. wstep. pose proof (co_ring _ _ _ _ Ho) as Hr. rewrite (ring_editing _ _ Hr). cbv zeta.
  destruct (a_line a) as [rd ed] eqn:Hl. cbn [l_ready l_edit] in *.
  destruct ed as [|c ed _] using rev_ind; [rewrite bool_decide_true by done|rewrite bool_decide_false by (by destruct ed)].
  - cbn [negb removelast]. wstep. by rewrite aprint_nil, <- Hl, set_line_id.
  - destruct (ring_last _ _ _ _ Hr) as [_ Hr']. cbn [negb]. unfold on_input. wstep1. apply wp_modify.
    eapply wp_mono; [apply wp_co_put, (co_input _ _ _ _ _ _ Ho Hr')|]. intros [] s1 Ho1.
    rewrite removelast_last. by destruct ed.
Qed.
Lemma wp_insert_char q rx s a c :
  con_ok q rx s a → 0 ≤ c < 256 →
  (c =? C 80) = false → (c =? C 85) = false → (c =? C 72) || (c =? 0x7f) = false →
  wp (insert_char tx_ready c) (λ _ s', con_ok q rx s' (akey dumped c a)) s.
Proof.
  intros Ho Hc H1 H2 H3. unfold insert_char, akey, key_in. rewrite H1, H2, H3. wstep.
  pose proof (co_ring _ _ _ _ Ho) as Hr. rewrite (ring_size _ _ Hr).
  destruct (c =? 0); cbn [negb andb orb]; [wstep; rewrite aprint_nil, set_line_id; by destruct a|].
  destruct (Nat.leb_spec 128 (size (a_line a))) as [Hfull|Hroom].
  { rewrite (proj2 (Z.ltb_ge _ _)) by (unfold INPUT_BUF; lia). wstep. rewrite aprint_nil, set_line_id. by destruct a. }
  rewrite (proj2 (Z.ltb_lt _ _)) by (unfold INPUT_BUF; lia). set (c' := if c =? 13 then 10 else c).
  assert (u8 c' = c') as -> by (apply u8_small; unfold c'; case_match; lia).
  destruct (ring_insert _ _ c' Hr Hroom) as (buf & -> & Hr'). wstep1. apply wp_ret.
  unfold on_input at 1. wstep1. apply wp_modify. wstep1.
  eapply wp_mono; [apply wp_co_put, (co_input _ _ _ _ _ _ Ho Hr')|]. intros [] s1 Ho1. wstep.
  pose proof (co_ring _ _ _ _ Ho1) as Hr1. rewrite (ring_full _ _ Hr1). cbn [aprint set_line a_line] in Hr1 |- *.
  assert (size (mkLine (l_ready (a_line a)) (l_edit (a_line a) ++ [c'])) = S (size (a_line a))) as ->
    by (unfold size; cbn [l_ready l_edit]; rewrite length_app; cbn; lia).
  destruct ((c' =? 10) || _ || _); [|wstep; exact Ho1]. unfold on_input, wake_readers. wstep.
  apply ring_commit in Hr1. cbn [l_ready l_edit] in Hr1. destruct Ho1. by split; cbn in *; try congruence.
Qed.

Lemma tidy_akey c a : tidy a → tidy (akey dumped c a).
Proof.
  unfold tidy, akey, key_in. intros Ht. destruct (a_line a) as [rd ed]. cbn [l_ready l_edit] in *.
  destruct (c =? C 80); [done|]. destruct (c =? C 85); [constructor|].
  destruct (_ || _).
  { destruct ed as [|x ed _] using rev_ind; [constructor|]. apply Forall_app in Ht as [Ht _].
    cbn [awake set_line a_line l_edit]. by rewrite removelast_last. }
  destruct (_ || _); [done|]. set (c' := if c =? 13 then 10 else c). cbv zeta.
  destruct (Z.eqb_spec c' 10); cbn [orb]; [constructor|].
  destruct (_ || _); [constructor|]. apply Forall_app_2; [done|]. by repeat constructor.
Qed.
Lemma wp_console_char q rx s a c :
  con_ok q rx s a → tidy a → is_u8 c →
  wp (console_char tx_ready dump c) (λ _ s', con_ok q rx s' (akey dumped c a)) s.
Proof using Hdump.
  intros Ho Ht Hc. unfold console_char. destruct (c =? C 80) eqn:H1.
  { eapply wp_mono; [by eapply Hdump, co_usable|]. intros [] s' Hp. unfold akey, key_in. rewrite H1.
    exact (co_printed _ _ _ _ _ _ Ho Hp). }
  destruct (c =? C 85) eqn:H2.
  { destruct (a_line a) as [rd ed] eqn:Hl. pose proof (rg_fit _ _ (co_ring _ _ _ _ Ho)) as Hf.
    rewrite Hl in Hf. unfold size in Hf. cbn [l_ready l_edit] in Hf.
    eapply wp_mono; [apply (wp_kill_line q rx s a 129 rd ed); [done..|lia]|]. intros [] s' Ho'.
    unfold akey, key_in. by rewrite H1, H2, Hl. }
  destruct ((c =? C 72) || (c =? 0x7f)) eqn:H3.
  { eapply wp_mono; [by apply wp_backspace|]. intros [] s' Ho'. unfold akey, key_in. by rewrite H1, H2, H3. }
  by apply wp_insert_char.
Qed.

Lemma wp_kbdintr_loop q rx s a :
  con_ok q rx s a → tidy a → Forall is_u8 q →
  wp (consoleintr tx_ready dump (S (length q)) (zoom cn_kbd set_kbd kbdgetc))
     (λ _ s', con_ok [] rx s' (akbd dumped q a) ∧ tidy (akbd dumped q a)) s.
Proof using Hdump.
  intros Ho Ht Hq. revert s a Ho Ht. induction Hq as [|d q Hd Hq IH]; intros s a Ho Ht; cbn [length consoleintr akbd].
  - wstep. rewrite (co_kbd _ _ _ _ Ho). unfold wp. rewrite kbdgetc_nil. split; [|done]. by destruct Ho; split.
  - wstep. rewrite (co_kbd _ _ _ _ Ho). eapply wp_mono; [by apply wp_kbdgetc|]. intros c k [-> ->].
    pose proof (kspec_byte (a_mods a) d Hd) as Hc. destruct (kspec (a_mods a) d) as [c m] eqn:Hk. cbn [fst snd] in *.
    unfold is_u8 in Hc. rewrite (proj2 (Z.leb_le 0 c)) by lia. wstep1.
    eapply wp_mono; [apply (wp_console_char q rx _ (set_mods m a)); [|done|done]|].
    + destruct Ho. by split.
    + intros [] s1 Ho1. apply IH; [done|]. by apply tidy_akey.
Qed.
Lemma wp_uartgetc rx u :
  ua_uart u = true → ua_present u = true → ua_rx u = rx →
  wp (uartgetc tx_ready) (λ c u', c = default (-1) (head rx) ∧ ua_rx u' = tail rx ∧
        ua_uart u' = true ∧ ua_present u' = true ∧ ua_tx u' = ua_tx u) u.
Proof.
  intros Hu Hp <-. unfold uartgetc, uart_status, uart_data. wstep. rewrite Hu. cbn [negb]. wstep.
  cbn [id]. rewrite Hp. destruct (ua_rx u) as [|c rx] eqn:Hr.
  - assert (has (Z.lor 0 (if tx_ready (ua_looks u) then 32 else 0)) 1 = false) as -> by (by destruct (tx_ready _)).
    wstep. by split_and!.
  - assert (has (Z.lor 1 (if tx_ready (ua_looks u) then 32 else 0)) 1 = true) as -> by (by destruct (tx_ready _)).
    wstep. cbn. by rewrite ?Hr.
Qed.
Lemma wp_uartintr_loop rx s a :
  con_ok [] rx s a → tidy a → Forall is_u8 rx → a_uart a = true →
  wp (consoleintr tx_ready dump (S (length rx)) (zoom cn_uart set_uart (uartgetc tx_ready)))
     (λ _ s', con_ok [] [] s' (foldl (λ a c, akey dumped c a) a rx) ∧ tidy (foldl (λ a c, akey dumped c a) a rx)) s.
Proof using Hdump.
  intros Ho Ht Hq. revert s a Ho Ht.
  induction Hq as [|c rx Hc Hq IH]; intros s a Ho Ht Ha; cbn [length consoleintr foldl]; pose proof Ho as [];
    wstep; (eapply wp_mono; [apply wp_uartgetc; [congruence|auto..]|]); intros x u (-> & Hr & Hu & Hp & Htx); cbn [head from_option id tail] in *.
  - wstep. split; [|done]. split; try done; cbn [set_uart cn_uart]; congruence.
  - unfold is_u8 in Hc. rewrite (proj2 (Z.leb_le 0 c)) by lia. wstep1.
    eapply wp_mono; [apply (wp_console_char [] rx _ a); [|done|done]|].
    + split; try done; cbn [set_uart cn_uart]; congruence.
    + intros [] s1 Ho1. apply IH; [done|by apply tidy_akey|].
      unfold akey. by destruct (key_in dumped c (a_line a)) as [[? ?] ?].
Qed.

Lemma wp_read q rx killed target n s a :
  con_ok q rx s a →
  wp (consoleread_loop killed target n)
     (λ r s', r = (read_line killed target n (l_ready (a_line a))).1 ∧
        con_ok q rx s' (set_line (mkLine (read_line killed target n (l_ready (a_line a))).2 (l_edit (a_line a))) a)) s.
Proof.
  revert s a. induction n as [|n IH]; intros s a Ho; cbn [consoleread_loop read_line].
  { wstep. split; [done|]. destruct a as [[] ? ? ? ? ?]. exact Ho. }
  pose proof (co_ring _ _ _ _ Ho) as Hr. wstep. rewrite (ring_readable _ _ Hr).
  destruct (a_line a) as [[|c rd] ed] eqn:Hl; cbn [l_ready l_edit] in *.
  { rewrite bool_decide_true by done. wstep. split; [done|]. cbn [snd]. by rewrite <- Hl, set_line_id. }
  rewrite bool_decide_false by done. destruct (ring_take _ _ _ _ Hr) as [-> Hr']. wstep1. apply wp_ret.
  unfold on_input. wstep1. apply wp_modify. destruct (c =? C 68).
  { wstep1. destruct (_ <? target); wstep; (split; [done|]).
    - pose proof (ring_untake _ _ Hr) as Hu. cbn [set_input cn_input set_r in_r] in *.
      apply (co_input _ _ _ _ _ _ Ho). by rewrite Hu.
    - exact (co_input _ _ _ _ _ _ Ho Hr'). }
  destruct (c =? 10); [wstep; split; [done|]; exact (co_input _ _ _ _ _ _ Ho Hr')|].
  wstep1. eapply wp_mono; [exact (IH _ _ (co_input _ _ _ _ _ _ Ho Hr'))|]. intros r s' [-> Ho']. wstep.
  cbn [set_line a_line l_ready l_edit] in Ho' |- *. by destruct (read_line killed target n rd) as [[r o] l].
Qed.

Lemma wp_write q rx l s a :
  con_ok q rx s a → Forall is_u8 l →
  wp (mfor l (λ b, consputc tx_ready (Z.land b 0xff))) (λ _ s', con_ok q rx s' (aprint l a)) s.
Proof.
  intros Ho Hl. revert s a Ho. induction Hl as [|c l Hc Hl IH]; intros s a Ho; cbn [mfor].
  { wstep. by rewrite aprint_nil. }
  assert (Z.land c 0xff = c) as ->.
  { change 0xff with (Z.ones 8). rewrite Z.land_ones by lia. by apply Z.mod_small. }
  wstep1. eapply wp_mono; [by apply wp_co_put|]. intros [] s1 Ho1.
  eapply wp_mono; [by apply IH|]. intros [] s2. by rewrite aprint_app.
Qed.

Lemma wp_run_event ev s a :
  con_ok [] [] s a → tidy a → event_ok ev →
  wp (run_event tx_ready dump ev)
     (λ o s', o = (aevent dumped ev a).1 ∧ con_ok [] [] s' (aevent dumped ev a).2 ∧ tidy (aevent dumped ev a).2) s.
Proof using Hdump.
  intros Ho Ht Hev. destruct ev as [q|q|killed target n|l]; cbn [run_event aevent event_ok] in *.
  - unfold arrive_kbd, kbdintr. wstep. rewrite (co_kbd _ _ _ _ Ho). cbn [id set_kbd cn_kbd kb_queue kb_shift app].
    eapply wp_mono; [apply (wp_kbdintr_loop q [] _ a); [by destruct Ho; split|done..]|]. intros [] s' [? ?]. by wstep.
  - unfold arrive_uart, uartintr, auart. wstep. cbn [id set_uart cn_uart ua_rx]. destruct (a_uart a) eqn:Ha.
    + rewrite (co_rx _ _ _ _ Ho Ha). cbn [app].
      eapply wp_mono; [apply (wp_uartintr_loop q _ a); [|done..]|].
      * destruct Ho. by split.
      * intros [] s' [? ?]. by wstep.
    + cbn [consoleintr]. unfold uartgetc. wstep. cbn [cn_uart set_uart ua_uart]. rewrite (co_uart _ _ _ _ Ho), Ha. cbn [negb].
      wstep. cbn [snd]. split_and!; [done| |done]. destruct Ho. by split; try done; rewrite Ha.
  - wstep1. eapply wp_mono; [by apply wp_read|]. intros r s' [-> Ho']. wstep.
    destruct (read_line _ _ _ _) as [[r o] l]. by split_and!.
  - wstep1. eapply wp_mono; [by apply wp_write|]. intros [] s' Ho'. wstep. by split_and!.
Qed.
Lemma wp_run_events evs s a :
  con_ok [] [] s a → tidy a → Forall event_ok evs →
  wp (run_events tx_ready dump evs)
     (λ os s', os = (aevents dumped evs a).1 ∧ con_ok [] [] s' (aevents dumped evs a).2) s.
Proof using Hdump.
  intros Ho Ht Hevs. revert s a Ho Ht. induction Hevs as [|ev evs Hev Hevs IH]; intros s a Ho Ht; cbn [run_events aevents].
  { by wstep. }
  wstep1. eapply wp_mono; [by apply wp_run_event|]. intros o s1 (-> & Ho1 & Ht1).
  destruct (aevent dumped ev a) as [o a1]. cbn [fst snd] in *.
  wstep1. eapply wp_mono; [by apply IH|]. intros os s2 [-> Ho2]. wstep.
  by destruct (aevents dumped evs a1) as [os a2].
Qed.
End refine.

(** C18: the console refines a line editor on a scrolling terminal: for every
    sequence of keyboard interrupts with any scan codes, serial interrupts,
    reads (also those that sleep and go on later) and writes, console.c, kbd.c
    and uart.c return what the abstract console returns - each read gets the
    bytes of the lines in the order they were typed and edited, up to a line
    end or Control-D, and sleeps only when no line is complete - and echo the
    same characters to the screen and the serial line; a completed line wakes
    the readers.  No access leaves the ring buffer, the tables or the 24 rows
    of the screen, whatever the indices, which wrap around at 2^32. *)
Theorem console_refines tx_ready pcs procs evs s a (dump := procs ≫= proc_line pcs) :
  con_ok [] [] s a → tidy a → Forall event_ok evs →
  wp (run_events tx_ready (procdump tx_ready pcs procs) evs)
     (λ os s', os = (aevents dump evs a).1 ∧ con_ok [] [] s' (aevents dump evs a).2) s.
Proof. intros. apply wp_run_events; [|done..]. intros. by apply wp_procdump. Qed.

(** ** A line typed and read back *)
(** A character that is no control character of the console. *)
Definition plain (c : Z) : bool :=
  (0 <? c) && (c <? 256) && forallb (λ x, negb (c =? x)) [10; 13; C 80; C 85; C 72; 0x7f; C 68].
Lemma akey_plain dump c a :
  plain c = true → (S (size (a_line a)) < 128)%nat →
  a_line (akey dump c a) = mkLine (l_ready (a_line a)) (l_edit (a_line a) ++ [c]).
Proof.
  intros Hc Hs. unfold plain in Hc. cbn [forallb] in Hc. rewrite !andb_true_iff, !negb_true_iff in Hc.
  destruct Hc as ((Hc0 & Hc1) & H10 & H13 & HP & HU & HH & H7f & HD & _). apply Z.ltb_lt in Hc0.
  unfold akey, key_in. rewrite HP, HU, HH, H7f, H13, H10, HD, (proj2 (Z.eqb_neq c 0)) by lia. cbn [orb].
  by rewrite (proj2 (Nat.leb_gt _ _)), (proj2 (Nat.eqb_neq _ _)) by lia.
Qed.
Lemma akeys_plain dump text a :
  forallb plain text = true → (size (a_line a) + length text < 128)%nat →
  a_line (foldl (λ a c, akey dump c a) a text) = mkLine (l_ready (a_line a)) (l_edit (a_line a) ++ text).
Proof.
  revert a. induction text as [|c text IH]; intros a; cbn [forallb foldl length].
  { intros _ _. rewrite app_nil_r. by destruct (a_line a). }
  rewrite andb_true_iff. intros [Hc Ht] Hs. rewrite IH; [|done|].
  - rewrite akey_plain by (done || lia). cbn [l_ready l_edit]. by rewrite <- app_assoc.
  - rewrite akey_plain by (done || lia). unfold size in *. cbn [l_ready l_edit]. rewrite length_app. cbn. lia.
Qed.
Lemma read_line_plain killed target n text l :
  forallb plain text = true → (length text < n)%nat →
  read_line killed target n (text ++ 10 :: l) = (text ++ [10], RReturn (target - Z.of_nat (n - S (length text))), l).
Proof.
  revert n. induction text as [|c text IH]; intros [|n] Ht Hn; cbn [length] in Hn; try lia; cbn [app read_line].
  - change (10 =? C 68) with false. change (10 =? 10) with true. cbv iota. repeat f_equal. simpl. lia.
  - cbn [forallb] in Ht. apply andb_true_iff in Ht as [Hc Ht]. unfold plain in Hc. cbn [forallb] in Hc.
    rewrite !andb_true_iff, !negb_true_iff in Hc. destruct Hc as (_ & H10 & _ & _ & _ & _ & _ & HD & _).
    rewrite HD, H10, IH by (done || lia). done.
Qed.
(** A line typed at an empty console is what the next read returns. *)
Theorem line_roundtrip dump text a n :
  a_line a = mkLine [] [] → a_uart a = true → forallb plain text = true → (length text < 127)%nat → (length text < n)%nat →
  (aevents dump [EUart (text ++ [13]); ERead false (Z.of_nat n) n] a).1
  = [None; Some (text ++ [10], RReturn (Z.of_nat (S (length text))))].
Proof.
  intros Hl Hu Ht Hlen Hn. cbn [aevents aevent]. unfold auart. rewrite Hu, foldl_app. cbn [foldl].
  set (a1 := foldl _ a text). assert (a_line a1 = mkLine [] text) as Ha1.
  { unfold a1. rewrite akeys_plain; rewrite ?Hl; [done..|]. cbn. lia. }
  assert (a_line (akey dump 13 a1) = mkLine (text ++ [10]) []) as Ha2.
  { unfold akey, key_in. rewrite Ha1. cbn [l_ready l_edit app size length]. unfold size. cbn [l_ready l_edit length].
    change (13 =? C 80) with false. change (13 =? C 85) with false. change ((13 =? C 72) || (13 =? 127)) with false.
    change (13 =? 0) with false. rewrite (proj2 (Nat.leb_gt _ _)) by lia. done. }
  rewrite Ha2. cbn [l_ready]. rewrite (read_line_plain false _ n text []) by done. cbn [fst]. repeat f_equal. lia.
Qed.

(** ** The device functions of the inode layer *)
Section device.
Context {BS : BlockStore} (tx_ready : nat → bool).

(** consolewrite gives up the lock of the inode while it prints, returns n, and
    holds the lock again. *)
Lemma wp_consolewrite (t : fstate BS) s ip i buf n a q rx :
  f_icache t !! ip = Some i → 1 ≤ i_ref i → i_flags i = 3 → con_ok q rx s a → Forall is_u8 buf →
  wp (consolewrite tx_ready ip buf n)
     (λ r s', r = n ∧ s'.1 = t ∧ con_ok q rx s'.2 (aprint (take (Z.to_nat n) buf) a)) (t, s).
Proof.
  intros Hip Hr Hf Ho Hb. unfold consolewrite, c_fs, c_con. do 2 wstep1. apply (wp_iunlock _ ip i); [done..|].
  do 2 wstep1. eapply wp_mono; [apply (wp_write tx_ready q rx _ s a Ho); by apply Forall_take|]. intros [] s' Ho'.
  do 2 wstep1. cbn [fst snd]. apply (wp_ilock_valid _ ip (i_set_flags I_VALID i));
    [cbn [f_icache]; apply list_lookup_insert_eq; by eapply lookup_lt_Some|done..|].
  wstep. split_and!; [done| |done]. cbn [fst f_store f_icache]. rewrite list_insert_insert_eq.
  destruct t as [st ic], i. cbn in *. subst. f_equal. by apply list_insert_id.
Qed.

(** consoleread gives up the lock too; it holds it again when it returns, and not
    while it sleeps. *)
Lemma wp_consoleread (t : fstate BS) s ip i killed n a q rx (r := read_line killed n (Z.to_nat n) (l_ready (a_line a))) :
  f_icache t !! ip = Some i → 1 ≤ i_ref i → i_flags i = 3 → con_ok q rx s a → 0 < n →
  wp (consoleread ip killed n)
     (λ o s', o = r.1 ∧ con_ok q rx s'.2 (set_line (mkLine r.2 (l_edit (a_line a))) a) ∧
        s'.1 = match o.2 with
               | RReturn _ => t
               | RSleep _ => mkF (f_store t) (<[ip := i_set_flags I_VALID i]> (f_icache t))
               end) (t, s).
Proof.
  intros Hip Hr Hf Ho Hn. unfold consoleread, consoleread_resume, c_fs, c_con. do 2 wstep1.
  apply (wp_iunlock _ ip i); [done..|]. rewrite (proj2 (Z.ltb_lt 0 n)) by done. cbn [fst snd].
  do 2 wstep1. eapply wp_mono; [exact (wp_read q rx killed n (Z.to_nat n) s a Ho)|]. intros o s' [-> Ho'].
  fold r in Ho' |- *. wstep1. destruct (r.1.2) as [v|k] eqn:Ho2; [|wstep; by rewrite Ho2].
  wstep1. cbn [fst snd]. apply (wp_ilock_valid _ ip (i_set_flags I_VALID i));
    [cbn [f_icache]; apply list_lookup_insert_eq; by eapply lookup_lt_Some|done..|].
  wstep. rewrite Ho2. split_and!; [done|done|]. cbn [fst f_store f_icache]. rewrite list_insert_insert_eq.
  destruct t as [st ic], i. cbn in *. subst. f_equal. by apply list_insert_id.
Qed.
End device.

(** ** A run: an idle console whose indices are about to wrap around (after boot
    they are 0) *)
Definition console0 : console :=
  mkCon false true (mkCga (replicate 2000 0) 0 0 0) (mkUart true true [] [] 0 []) (mkKbd 0 [])
        (mkInput (replicate 128 0) 4294967295 4294967295 4294967295) 0.
Definition acon0 : acon := mkA (mkLine [] []) mods0 (mkTerm (λ _, 0) 0 0) true [] 0.
Lemma console0_ok : con_ok [] [] console0 acon0.
Proof.
  split; try done.
  - split; try done. cbn. lia.
  - split; try done.
    + cbn [console0 cn_cga crt]. rewrite length_replicate. lia.
    + intros i Hi. cbn [console0 cn_cga crt]. rewrite lookup_replicate_2 by lia. done.
Qed.

(** Witness of console_refines: on the keyboard the keys a, shift-b, backspace,
    c and enter, with indices that wrap around; then a read of up to 10 bytes,
    which gets the line as edited, and another one, which sleeps. *)
Lemma console_refines_witness :
  wp (run_events (λ _, true) (procdump (λ _, true) (λ _, []) [])
        [EKbd [0x1e; 0x9e; 0x2a; 0x30; 0xb0; 0xaa; 0x0e; 0x8e; 0x2e; 0xae; 0x1c]; ERead false 10 10; ERead false 10 10])
     (λ os _, os = [None; Some ([97; 99; 10], RReturn 3); Some ([], RSleep 10)]) console0.
Proof.
  eapply wp_mono; [apply (console_refines (λ _, true) (λ _, []) [] _ console0 acon0 console0_ok)|].
  - constructor.
  - repeat constructor; done.
  - intros os s' [-> _]. vm_compute. reflexivity.
Defined.
