(* ===== verification/Mkfs.v ===== *)
(** * Building the disk image (mkfs.c)

    The state is the image file and the counters of mkfs.c; the files to store
    are given by their names and contents.  A failed assert or system call is
    [Panic].  The host stores integers with the low byte first, as the kernel
    does. *)
From stdpp Require Import base list numbers option strings.
From Stdlib Require Import ZArith Lia.
From S2P Require Import Prelude Kstring Layout.
Open Scope Z_scope.

Definition nblocks : Z := 985.
Definition nlog : Z := LOGSIZE.
Definition ninodes : Z := 200.
Definition img_size : Z := 1024.

(** The image, by blocks, and the counters. *)
Record mkfs := mkMk { mk_img : list block; mk_freeblock : Z; mk_usedblocks : Z; mk_freeinode : Z }.
Definition set_img (v : list block) (s : mkfs) : mkfs :=
  mkMk v (mk_freeblock s) (mk_usedblocks s) (mk_freeinode s).

(** The number whose bytes in memory, from the lowest address on, are those of x. *)
Definition xshort (x : Z) : Z := le_dec (le_enc 2 x).
Definition xint (x : Z) : Z := le_dec (le_enc 4 x).

Definition zeroes : block := replicate 512 0.
(** lseek and write of a block; a block beyond the end extends the file. *)
Definition wsect (sec : Z) (buf : block) : M mkfs unit :=
  modify (λ s, let v := mk_img s in
    set_img (if sec <? Z.of_nat (length v) then <[Z.to_nat sec := buf]> v
             else v ++ replicate (Z.to_nat sec - length v) zeroes ++ [buf]) s).
Definition rsect (sec : Z) : M mkfs block :=
  s <- gets id ;;
  match aget (mk_img s) sec with Some b => ret b | None => panic "read" end.

Definition i2b (inum : Z) : Z := inum / IPB + 2.
Definition winode (inum : Z) (ip : dinode) : M mkfs unit :=
  let bn := i2b inum in
  buf <- rsect bn ;;
  wsect bn (put_dinode buf (Z.to_nat (inum mod IPB)) ip).
Definition rinode (inum : Z) : M mkfs dinode :=
  let bn := i2b inum in
  buf <- rsect bn ;;
  ret (get_dinode buf (Z.to_nat (inum mod IPB))).

Definition mkfs_ialloc (type : Z) : M mkfs Z :=
  s <- gets id ;;
  let inum := mk_freeinode s in
  modify (λ s, mkMk (mk_img s) (mk_freeblock s) (mk_usedblocks s) (u32 (mk_freeinode s + 1))) ;;;
  winode inum (mkDinode (xshort type) 0 0 (xshort 1) (xint 0) (replicate 13 0)) ;;;
  ret inum.

(** freeblock++ and usedblocks++ *)
Definition next_block : M mkfs Z :=
  s <- gets id ;;
  modify (λ s, mkMk (mk_img s) (u32 (mk_freeblock s + 1)) (u32 (mk_usedblocks s + 1)) (mk_freeinode s)) ;;;
  ret (mk_freeblock s).

Definition di_set_addr (k : nat) (a : Z) (d : dinode) : dinode :=
  mkDinode (di_type d) (di_major d) (di_minor d) (di_nlink d) (di_size d) (<[k := a]> (di_addrs d)).
Definition di_set_size (n : Z) (d : dinode) : dinode :=
  mkDinode (di_type d) (di_major d) (di_minor d) (di_nlink d) n (di_addrs d).
Definition di_addr (d : dinode) (k : nat) : Z := default 0 (di_addrs d !! k).

(** The block x that holds block fbn of the file, and the inode with it. *)
Definition iappend_block (din : dinode) (fbn : Z) : M mkfs (Z * dinode) :=
  if fbn <? NDIRECT then
    let k := Z.to_nat fbn in
    din <- (if xint (di_addr din k) =? 0 then b <- next_block ;; ret (di_set_addr k (xint b) din) else ret din) ;;
    ret (xint (di_addr din k), din)
  else
    din <- (if xint (di_addr din 12) =? 0 then b <- next_block ;; ret (di_set_addr 12 (xint b) din) else ret din) ;;
    indirect <- rsect (xint (di_addr din 12)) ;;
    let off := (4 * Z.to_nat (fbn - NDIRECT))%nat in
    indirect <- (if u32_at indirect off =? 0 then
                   b <- next_block ;;
                   let indirect := put_u32 indirect off (xint b) in
                   wsect (xint (di_addr din 12)) indirect ;;;
                   ret indirect
                 else ret indirect) ;;
    ret (xint (u32_at indirect off), din).

(** The loop of iappend; a round stores at least one byte. *)
Fixpoint iappend_loop (fuel : nat) (din : dinode) (off : Z) (p : list Z) (n : Z) : M mkfs (dinode * Z) :=
  match fuel with
  | O => undefined
  | S fuel =>
    if 0 <? n then
      let fbn := off / 512 in
      if negb (fbn <? MAXFILE) then panic "assert"
      else
        r <- iappend_block din fbn ;;
        let '(x, din) := r in
        let n1 := Z.min n ((fbn + 1) * 512 - off) in
        buf <- rsect x ;;
        wsect x (splice buf (Z.to_nat (off - fbn * 512)) (take (Z.to_nat n1) p)) ;;;
        iappend_loop fuel din (u32 (off + n1)) (drop (Z.to_nat n1) p) (n - n1)
    else ret (din, off)
  end.
(** [p] has n bytes. *)
Definition iappend (inum : Z) (p : list Z) (n : Z) : M mkfs unit :=
  din <- rinode inum ;;
  r <- iappend_loop (S (Z.to_nat n)) din (xint (di_size din)) p n ;;
  winode inum (di_set_size (xint r.2) r.1).

(** buf[i/8] = buf[i/8] | (0x1 << (i%8)) for each i < used *)
Definition mark_bit (buf : block) (i : nat) : block :=
  let k := Z.to_nat (Z.of_nat i / 8) in
  <[k := u8 (Z.lor (default 0 (buf !! k)) (Z.shiftl 1 (Z.of_nat i mod 8)))]> buf.
Definition mkfs_balloc (used : Z) : M mkfs unit :=
  if negb (used <? 512 * 8) then panic "assert"
  else wsect (ninodes / IPB + 3) (foldl mark_bit zeroes (seq 0 (Z.to_nat used))).

(** strcpy and strncpy into the name of a cleared struct dirent *)
Definition mk_dirent (inum : Z) (name : list Z) : list Z :=
  enc_dirent (mkDirent (xshort inum) (strncpy name 14)).

(** Reading a file of the host in pieces of 512 bytes. *)
Fixpoint copy_file (fuel : nat) (inum : Z) (data : list Z) : M mkfs unit :=
  match fuel with
  | O => undefined
  | S fuel =>
    let cc := Z.of_nat (length (take 512 data)) in
    if 0 <? cc then iappend inum (take 512 data) cc ;;; copy_file fuel inum (drop 512 data) else ret tt
  end.
(** One file of the command line; None when it cannot be opened.  A leading _ of
    the name is skipped. *)
Definition skip_underscore (name : list Z) : list Z :=
  match name with 95 :: l => l | _ => name end.
Definition store_file (rootino : Z) (f : list Z * option (list Z)) : M mkfs unit :=
  if bool_decide (47 ∈ f.1) then panic "assert"
  else
    match f.2 with
    | None => panic "open"
    | Some data =>
      inum <- mkfs_ialloc T_FILE ;;
      iappend rootino (mk_dirent inum (skip_underscore f.1)) 16 ;;;
      copy_file (S (length data)) inum data
    end.

Definition bitblocks : Z := img_size / (512 * 8) + 1.
Definition usedblocks0 : Z := ninodes / IPB + 3 + bitblocks.
Definition mk_superblock : superblock := mkSb (xint img_size) (xint nblocks) (xint ninodes) (xint nlog).

(** main; the image file starts out empty. *)
Definition mkfs0 : mkfs := mkMk [] 0 0 1.
Definition mkfs_main (files : list (list Z * option (list Z))) : M mkfs unit :=
  modify (λ s, mkMk (mk_img s) usedblocks0 usedblocks0 (mk_freeinode s)) ;;;
  if negb (nblocks + usedblocks0 + nlog =? img_size) then panic "assert"
  else
    mfor (seqZ 0 (nblocks + usedblocks0 + nlog)) (λ i, wsect i zeroes) ;;;
    wsect 1 (splice zeroes 0 (enc_superblock mk_superblock)) ;;;
    rootino <- mkfs_ialloc T_DIR ;;
    if negb (rootino =? ROOTINO) then panic "assert"
    else
      iappend rootino (mk_dirent rootino (cs ".")) 16 ;;;
      iappend rootino (mk_dirent rootino (cs "..")) 16 ;;;
      mfor files (store_file rootino) ;;;
      din <- rinode rootino ;;
      let off := xint (di_size din) in
      let off := u32 ((off / BSIZE + 1) * BSIZE) in
      winode rootino (di_set_size (xint off) din) ;;;
      s <- gets id ;;
      mkfs_balloc (mk_usedblocks s).
