(* ===== verification/MkfsSpec.v ===== *)
(** * The image mkfs builds satisfies the file system's invariant

    mkfs.c writes the bitmap last.  The proofs look at the image as if the bitmap
    of the blocks handed out so far were already there: seen this way, taking the
    next block is balloc, and the lemmas about files of FsInode.v and FsWrite.v
    apply to iappend. *)
From stdpp Require Import base list gmap numbers option strings sets.
From Stdlib Require Import ZArith Lia.
From S2P Require Import Prelude Kstring Layout BlockStore Fs FsTx FsBlocks FsInode FsBmap FsRead FsWrite FsPath Mkfs.
Open Scope Z_scope.

Definition sb0 : superblock := mkSb 1024 985 200 10.
Definition sb_block : block := splice zeroes 0 (enc_superblock mk_superblock).
Definition bitmap (f : Z) : block := foldl mark_bit zeroes (seq 0 (Z.to_nat f)).
(** The home blocks of the image [v], with the bitmap of the blocks below [f]. *)
Definition view (v : list block) (f : Z) : list block := take 1014 (<[28%nat := bitmap f]> v).

(** ** The image with [f] as the next free block *)
Record base (v : list block) (f : Z) : Prop := {
  b_wf : Forall block_wf v;
  b_len : length v = 1024%nat;
  b_sb : v !! 1%nat = Some sb_block;
  b_free : 29 ≤ f ≤ 1014;
  b_zero k : f ≤ Z.of_nat k → (k < 1024)%nat → v !! k = Some zeroes }.

Lemma zeroes_wf : block_wf zeroes.
Proof. split; [done|by apply Forall_replicate]. Qed.
Lemma sb_block_dec : dec_superblock sb_block = sb0.
Proof. reflexivity. Qed.
Lemma xint_id x : is_u32 x → xint x = x.
Proof. apply dec_enc_u32. Qed.

Lemma bitmap_succ f : 0 ≤ f → bitmap (f + 1) = bit_set (bitmap f) f.
Proof.
  intros Hf. unfold bitmap. replace (Z.to_nat (f + 1)) with (Z.to_nat f + 1)%nat by lia.
  rewrite seq_app, foldl_app. cbn [foldl seq]. unfold mark_bit, bit_set, bitbyte, bitmask.
  replace (Z.of_nat (0 + Z.to_nat f)) with f by lia. done.
Qed.
Lemma bitmap_wf f : block_wf (bitmap f).
Proof.
  unfold bitmap. generalize (seq 0 (Z.to_nat f)) as l. intros l.
  pose proof zeroes_wf as H0. revert H0. generalize zeroes.
  induction l as [|k l IH]; intros b Hb; [done|]. cbn [foldl]. apply IH. apply (bit_set_wf b Hb (Z.of_nat k)).
Qed.
Lemma bitmap_used f b : 0 ≤ f ≤ 4096 → 0 ≤ b < 4096 → bit_used (bitmap f) b = (b <? f).
Proof.
  intros Hf Hb. replace f with (Z.of_nat (Z.to_nat f)) by lia. assert (Z.to_nat f ≤ 4096)%nat as Hn by lia.
  revert Hn. generalize (Z.to_nat f). clear f Hf. intros n Hn. induction n as [|n IH].
  - rewrite (proj2 (Z.ltb_ge b _)) by lia. unfold bit_used, bitbyte.
    change (bitmap (Z.of_nat 0)) with (replicate 512 0). rewrite lookup_replicate_2; [done|]. zlia.
  - replace (Z.of_nat (S n)) with (Z.of_nat n + 1) by lia. rewrite bitmap_succ by lia.
    rewrite bit_used_set, IH by (apply bitmap_wf || (unfold bit_ok; change BPB with 4096; lia)).
    destruct (Z.eqb_spec (Z.of_nat n) b), (Z.ltb_spec b (Z.of_nat n)), (Z.ltb_spec b (Z.of_nat n + 1)); done || lia.
Qed.

Section base.
Context (v : list block) (f : Z) (Hb : base v f).

Lemma length_view : length (view v f) = 1014%nat.
Proof. unfold view. rewrite length_take, length_insert, (b_len _ _ Hb). done. Qed.
Lemma view_lookup k : (k < 1014)%nat → k ≠ 28%nat → view v f !! k = v !! k.
Proof. intros. unfold view. rewrite lookup_take_lt by done. by apply list_lookup_insert_ne. Qed.
Lemma view_bitmap : view v f !! 28%nat = Some (bitmap f).
Proof. unfold view. rewrite lookup_take_lt by lia. apply list_lookup_insert_eq. rewrite (b_len _ _ Hb). lia. Qed.
Lemma bblock0 b : 0 ≤ b < 1024 → bblock sb0 b = 28.
Proof. intros. unfold bblock, BBLOCK. change BPB with 4096. change (sb_ninodes sb0 / IPB) with 25. zlia. Qed.
Lemma lo0 : lo sb0 = 29.
Proof. reflexivity. Qed.
Lemma view_used b : 0 ≤ b < 1024 → blk_used (view v f) sb0 b = (b <? f).
Proof.
  intros Hr. unfold blk_used. rewrite bblock0 by done. change (Z.to_nat 28) with 28%nat. rewrite view_bitmap.
  change BPB with 4096. rewrite Z.mod_small by lia. pose proof (b_free _ _ Hb). apply bitmap_used; lia.
Qed.
Lemma view_disk_ok : disk_ok (view v f) sb0.
Proof.
  pose proof (b_free _ _ Hb). split.
  - apply Forall_take, Forall_insert; [apply Hb|apply bitmap_wf].
  - split.
    + exists sb_block. split; [|apply sb_block_dec]. rewrite view_lookup by lia. apply Hb.
    + done.
    + done.
    + intros b Hr. rewrite bblock0, length_view by done. lia.
  - rewrite length_view. cbn. lia.
  - rewrite length_view, lo0. lia.
  - rewrite lo0. intros b Hr. rewrite view_used by lia. apply Z.ltb_lt. lia.
Qed.
Lemma view_next_free : f < 1014 → f ∈ free_set (view v f) sb0.
Proof.
  intros Hf. pose proof (b_free _ _ Hb). apply elem_of_free_set. rewrite lo0, length_view.
  split; [lia|]. rewrite view_used by lia. apply Z.ltb_irrefl.
Qed.
Lemma view_free_set a : a ∈ free_set (view v f) sb0 ↔ f ≤ a < 1014.
Proof.
  pose proof (b_free _ _ Hb). rewrite elem_of_free_set, lo0, length_view. split.
  - intros [Hr Hu]. rewrite view_used in Hu by lia. apply Z.ltb_ge in Hu. lia.
  - intros Hr. split; [lia|]. rewrite view_used by lia. apply Z.ltb_ge. lia.
Qed.
Lemma view_data a : data_block (view v f) sb0 a ↔ 29 ≤ a < f.
Proof.
  pose proof (b_free _ _ Hb). unfold data_block. rewrite lo0, length_view. split.
  - intros [Hr Hu]. rewrite view_used in Hu by lia. apply Z.ltb_lt in Hu. lia.
  - intros Hr. split; [lia|]. rewrite view_used by lia. apply Z.ltb_lt. lia.
Qed.

(** Taking the next block is balloc. *)
Lemma base_next : f < 1014 → base v (f + 1).
Proof. intros Hf. destruct Hb. split; try done; [lia|]. intros k Hk. apply b_zero0. lia. Qed.
Lemma view_next : f < 1014 → view v (f + 1) = alloc_view (view v f) sb0 f.
Proof.
  intros Hf. pose proof (b_free _ _ Hb). unfold alloc_view. rewrite bblock0 by lia. change (Z.to_nat 28) with 28%nat.
  rewrite (alter_at _ _ _ _ view_bitmap). change BPB with 4096. rewrite Z.mod_small, <- bitmap_succ by lia.
  apply list_eq. intros k. destruct (decide (k = Z.to_nat f)) as [->|Hk].
  - rewrite list_lookup_insert_eq by (rewrite length_insert, length_view; lia).
    unfold view. rewrite lookup_take_lt, list_lookup_insert_ne by lia. apply Hb; lia.
  - rewrite list_lookup_insert_ne by done. destruct (decide (k = 28%nat)) as [->|Hk'].
    + rewrite list_lookup_insert_eq by (rewrite length_view; lia).
      unfold view. rewrite lookup_take_lt by lia. apply list_lookup_insert_eq. rewrite (b_len _ _ Hb). lia.
    + rewrite list_lookup_insert_ne by done. unfold view. destruct (decide (k < 1014)%nat).
      * by rewrite !lookup_take_lt, !list_lookup_insert_ne by lia.
      * by rewrite !lookup_take_ge by lia.
Qed.

(** Writing a block in use, other than the superblock and the bitmap. *)
Lemma view_write x d : 0 ≤ x → x ≠ 28 → view (<[Z.to_nat x := d]> v) f = <[Z.to_nat x := d]> (view v f).
Proof.
  intros Hx Hne. unfold view. rewrite list_insert_insert_ne by lia.
  apply list_eq. intros k. destruct (decide (k < 1014)%nat) as [Hk|Hk].
  - rewrite lookup_take_lt by done. destruct (decide (k = Z.to_nat x)) as [->|Hkx].
    + rewrite !list_lookup_insert_eq; [done| |].
      * rewrite length_take, length_insert, (b_len _ _ Hb). lia.
      * rewrite length_insert, (b_len _ _ Hb). lia.
    + by rewrite !(list_lookup_insert_ne _ (Z.to_nat x)), lookup_take_lt by done.
  - rewrite lookup_take_ge by lia. symmetry. apply lookup_ge_None_2.
    rewrite length_insert, length_take. lia.
Qed.
Lemma base_write x d : 2 ≤ x < f → block_wf d → base (<[Z.to_nat x := d]> v) f.
Proof.
  intros Hx Hd. destruct Hb. split; rewrite ?length_insert; try done.
  - by apply Forall_insert.
  - by rewrite list_lookup_insert_ne by lia.
  - intros k Hk Hlt. rewrite list_lookup_insert_ne by lia. by apply b_zero0.
Qed.
End base.

(** ** Files of the image *)
(** The state of mkfs with image [v], next free block [f] and next inode [fi]. *)
Abbreviation st v f fi := (mkMk v f f fi).
(** The blocks iappend takes to store into block [bn] of a file. *)
Definition need (v : list block) (i : inode) (bn : nat) : Z :=
  (if fblk v i bn =? 0 then 1 else 0) + (if (12 <=? bn)%nat && (naddr i 12 =? 0) then 1 else 0).

Lemma wp_next_block v f fi Q :
  base v f → Q f (st v (f + 1) fi) → wp next_block Q (st v f fi).
Proof.
  intros Hb HQ. unfold next_block. wstep. cbn [id mk_img mk_freeblock mk_usedblocks mk_freeinode].
  pose proof (b_free _ _ Hb). by rewrite u32_small by lia.
Qed.
Lemma wp_rsect v f fi x d Q :
  0 ≤ x → v !! Z.to_nat x = Some d → Q d (st v f fi) → wp (rsect x) Q (st v f fi).
Proof. intros Hx Hd HQ. unfold rsect. wstep. cbn [id mk_img]. by rewrite aget_pos, Hd by done. Qed.
Lemma wp_wsect v f fi x d Q :
  0 ≤ x < Z.of_nat (length v) → Q tt (st (<[Z.to_nat x := d]> v) f fi) → wp (wsect x d) Q (st v f fi).
Proof. intros Hx HQ. unfold wsect. wstep. unfold set_img. cbn. by rewrite (proj2 (Z.ltb_lt x _)) by lia. Qed.

Section file.
Context (v : list block) (f : Z) (inum : Z) (din : dinode).
Context (Hb : base v f) (Hf : file_ok (view v f) sb0 (ino inum din)).
Abbreviation i := (ino inum din).

Lemma naddr_range k : (k < 13)%nat → naddr i k = 0 ∨ 29 ≤ naddr i k < f.
Proof.
  intros Hk. destruct (decide (naddr i k = 0)) as [|Hn]; [by left|right].
  apply (view_data v f Hb). destruct (decide (k = 12%nat)) as [->|]; [by apply (fo_ind _ _ _ Hf)|].
  assert (fblk (view v f) i k = naddr i k) as He by (unfold fblk; by rewrite decide_True by lia).
  rewrite <- He in Hn |- *. apply (fo_data _ _ _ Hf); [lia|done].
Qed.
Lemma xint_addr k : (k < 13)%nat → xint (di_addr din k) = naddr i k.
Proof.
  intros Hk. change (di_addr din k) with (naddr i k). apply xint_id. unfold is_u32.
  pose proof (b_free _ _ Hb). destruct (naddr_range k Hk); lia.
Qed.
Lemma addrs_u32 : Forall is_u32 (di_addrs din).
Proof.
  apply Forall_lookup. intros k a Ha. pose proof (fo_addrs _ _ _ Hf) as Hl.
  assert (k < 13)%nat as Hk by (apply lookup_lt_Some in Ha; cbn in Hl; lia).
  assert (naddr i k = a) as <- by (unfold naddr; cbn; by rewrite Ha).
  unfold is_u32. pose proof (b_free _ _ Hb). destruct (naddr_range k Hk); lia.
Qed.
Lemma indirect_block : naddr i 12 ≠ 0 → ∃ d, v !! Z.to_nat (naddr i 12) = Some d ∧ view v f !! Z.to_nat (naddr i 12) = Some d.
Proof.
  intros Hn. destruct (naddr_range 12); [lia|done|]. pose proof (b_free _ _ Hb).
  destruct (lookup_lt_is_Some_2 v (Z.to_nat (naddr i 12))) as [d Hd]; [rewrite (b_len _ _ Hb); lia|].
  exists d. split; [done|]. by rewrite view_lookup by lia.
Qed.
End file.

(** What iappend_block leaves: the file has block [r.1] as its block [bn]. *)
Definition block_got (v : list block) (f fi inum : Z) (din : dinode) (bn : nat) (r : Z * dinode) (s' : mkfs) : Prop :=
  ∃ v' f', s' = st v' f' fi ∧ base v' f' ∧
    grows sb0 (view v f) (ino inum din) (view v' f') (ino inum r.2) bn r.1 ∧
    f' = f + need (view v f) (ino inum din) bn ∧
    ((bn < 12)%nat → naddr (ino inum r.2) 12 = naddr (ino inum din) 12).

Lemma wp_block_direct v f fi inum din bn :
  base v f → file_ok (view v f) sb0 (ino inum din) → (bn < 12)%nat →
  f + need (view v f) (ino inum din) bn ≤ 1014 →
  wp (iappend_block din (Z.of_nat bn)) (block_got v f fi inum din bn) (st v f fi).
Proof.
  intros Hb Hf Hbn Hroom. unfold block_got, iappend_block.
  rewrite (proj2 (Z.ltb_lt _ _)) by (unfold NDIRECT; lia). cbv zeta.
  rewrite Nat2Z.id, (xint_addr v f inum din Hb Hf) by lia. set (i := ino inum din) in *.
  assert (fblk (view v f) i bn = naddr i bn) as He by (unfold fblk; by rewrite decide_True by lia).
  assert (need (view v f) i bn = if naddr i bn =? 0 then 1 else 0) as Hneed.
  { unfold need. rewrite He, (proj2 (Nat.leb_gt 12 bn)) by lia. cbn [andb]. lia. }
  rewrite Hneed in Hroom. destruct (Z.eqb_spec (naddr i bn) 0) as [H0|Hn].
  - wstep. apply wp_next_block; [done|]. wstep.
    assert (is_u32 f) as Hu by (unfold is_u32; pose proof (b_free _ _ Hb); lia).
    pose proof (view_next_free v f Hb ltac:(lia)) as Hfree.
    pose proof (grow_direct _ sb0 (view_disk_ok v f Hb) i Hf f Hfree bn Hbn H0) as G.
    rewrite <- (view_next v f Hb ltac:(lia)) in G. pose proof (fo_addrs _ _ _ Hf) as Hl.
    exists v, (f + 1). rewrite Hneed, (xint_id f Hu). cbn [snd fst].
    assert (di_addr (di_set_addr bn f din) bn = f) as ->.
    { unfold di_addr, di_set_addr. cbn [di_addrs]. rewrite list_lookup_insert_eq; [done|]. cbn in Hl. lia. }
    rewrite xint_id by done. split_and!; [done|apply base_next; [done|lia]|exact G|done|].
    intros _. unfold naddr. cbn. by rewrite list_lookup_insert_ne by lia.
  - wstep. rewrite (xint_addr v f inum din Hb Hf) by lia. fold i. exists v, f. rewrite Hneed. cbn [fst snd].
    split_and!; [done|done| |lia|done]. rewrite <- He in Hn |- *. apply grows_refl; [by apply view_disk_ok|done..].
Qed.

(** The part of iappend_block after the indirect block is there. *)
Lemma wp_block_indirect v f fi inum din bn :
  base v f → file_ok (view v f) sb0 (ino inum din) → (12 ≤ bn < 140)%nat → naddr (ino inum din) 12 ≠ 0 →
  f + need (view v f) (ino inum din) bn ≤ 1014 →
  wp (indirect <- rsect (xint (di_addr din 12)) ;;
      let off := (4 * Z.to_nat (Z.of_nat bn - NDIRECT))%nat in
      indirect <- (if u32_at indirect off =? 0 then
                     b <- next_block ;;
                     let indirect := put_u32 indirect off (xint b) in
                     wsect (xint (di_addr din 12)) indirect ;;;
                     ret indirect
                   else ret indirect) ;;
      ret (xint (u32_at indirect off), din)) (block_got v f fi inum din bn) (st v f fi).
Proof.
  intros Hb Hf Hbn Hn Hroom. unfold block_got. rewrite (xint_addr v f inum din Hb Hf) by lia. set (i := ino inum din) in *.
  destruct (naddr_range v f inum din Hb Hf 12) as [|Hr]; [lia|done|]. fold i in Hr. pose proof (b_free _ _ Hb) as Hfr.
  destruct (indirect_block v f inum din Hb Hf Hn) as (d & Hd & Hdv). fold i in Hd, Hdv.
  assert (block_wf d) as Hdw by (eapply Forall_lookup_1; [apply Hb|done]).
  wstep1. apply (wp_rsect _ _ _ _ d); [lia|done|]. cbv zeta.
  replace (Z.to_nat (Z.of_nat bn - NDIRECT)) with (bn - 12)%nat by (unfold NDIRECT; lia).
  pose proof (fblk_indirect _ i bn d Hn Hdv ltac:(lia)) as He.
  assert (need (view v f) i bn = if u32_at d (4 * (bn - 12)) =? 0 then 1 else 0) as Hneed.
  { unfold need. rewrite He, (proj2 (Z.eqb_neq _ _) Hn), andb_false_r. lia. }
  rewrite Hneed in Hroom. destruct (Z.eqb_spec (u32_at d (4 * (bn - 12))) 0) as [H0|Hne].
  - wstep. apply wp_next_block; [done|]. wstep1. assert (is_u32 f) as Hu by (unfold is_u32; lia).
    rewrite xint_id by done. apply wp_wsect; [rewrite (b_len _ _ Hb); lia|]. wstep.
    rewrite u32_at_put_same, xint_id by (done || (destruct Hdw; lia)).
    pose proof (view_next_free v f Hb ltac:(lia)) as Hfree.
    pose proof (grow_indirect _ sb0 i f bn d (view_disk_ok v f Hb) Hf Hfree Hn Hdv Hbn ltac:(congruence)) as G.
    unfold indirect_view in G. pose proof (base_next v f Hb ltac:(lia)) as Hb1.
    rewrite <- (view_next v f Hb), <- (view_write _ _ Hb1) in G by lia.
    eexists _, (f + 1). rewrite Hneed. split_and!; [done| |exact G|done|lia].
    apply base_write; [done|lia|]. apply put_u32_wf; [lia|done].
  - wstep. exists v, f. rewrite Hneed. cbn [fst snd].
    rewrite xint_id by (by apply u32_at_range). split_and!; [done|done| |lia|lia].
    rewrite <- He in Hne |- *. apply grows_refl; [by apply view_disk_ok|done..].
Qed.

Lemma wp_iappend_block v f fi inum din bn :
  base v f → file_ok (view v f) sb0 (ino inum din) → (bn < 140)%nat →
  f + need (view v f) (ino inum din) bn ≤ 1014 →
  wp (iappend_block din (Z.of_nat bn)) (block_got v f fi inum din bn) (st v f fi).
Proof.
  intros Hb Hf Hbn Hroom. destruct (decide (bn < 12)%nat) as [Hlt|Hge]; [by apply wp_block_direct|].
  unfold iappend_block. rewrite (proj2 (Z.ltb_ge _ _)) by (unfold NDIRECT; lia).
  rewrite (xint_addr v f inum din Hb Hf) by lia. set (i := ino inum din) in *.
  destruct (Z.eqb_spec (naddr i 12) 0) as [H0|Hn].
  2: { wstep1. apply wp_ret. by apply wp_block_indirect; [..|lia| |]. }
  assert (fblk (view v f) i bn = 0) as Hz by (unfold fblk; rewrite decide_False, H0 by lia; done).
  assert (need (view v f) i bn = 2) as Hneed.
  { unfold need. rewrite Hz, H0, (proj2 (Nat.leb_le 12 bn)) by lia. done. }
  rewrite Hneed in Hroom. pose proof (b_free _ _ Hb) as Hfr.
  do 2 wstep1. apply wp_next_block; [done|]. wstep1. rewrite (xint_id f) by (unfold is_u32; lia).
  pose proof (view_next_free v f Hb ltac:(lia)) as Hfree. pose proof (base_next v f Hb ltac:(lia)) as Hb1.
  destruct (add_indirect _ sb0 (view_disk_ok v f Hb) i Hf f Hfree H0) as (Hok1 & Hf1 & Hind & Hblk).
  rewrite <- (view_next v f Hb) in Hok1, Hf1, Hblk by lia.
  change (i_set_addr 12 f i) with (ino inum (di_set_addr 12 f din)) in *.
  assert (need (view v (f + 1)) (ino inum (di_set_addr 12 f din)) bn = 1) as Hneed1.
  { unfold need. rewrite Hblk, Hz, Hind, (proj2 (Z.eqb_neq f 0)), andb_false_r by lia. done. }
  eapply wp_mono; [apply (wp_block_indirect v (f + 1) fi inum); [done|done|lia|rewrite Hind; lia|rewrite Hneed1; lia]|].
  intros r s' (v' & f' & -> & Hb' & G & Hf' & _). unfold block_got. fold i. rewrite Hneed. rewrite Hneed1 in Hf'.
  exists v', f'. split_and!; [done|done| |lia|lia].
  rewrite <- (gr_blk _ _ _ _ _ _ _ G) in G |- *.
  by eapply (grows_after_indirect sb0 (view v f) i _ _ _ _ bn f (view_disk_ok v f Hb) Hf Hfree H0 ltac:(lia)
    (view_next v f Hb ltac:(lia)) eq_refl).
Qed.

(** ** Appending to a file *)
(** A file of [n] bytes has just the blocks it needs. *)
Definition exact (v : list block) (i : inode) (n : nat) : Prop :=
  (∀ bn, (bn < 140)%nat → fblk v i bn ≠ 0 ↔ (512 * bn < n)%nat) ∧ (naddr i 12 ≠ 0 ↔ 6144 < Z.of_nat n).
(** The bytes after the end of the file, in its last block, are 0. *)
Definition ztail (v : list block) (i : inode) (n : nat) : Prop :=
  ∀ o, (n ≤ o)%nat → (o / 512 < 140)%nat → fblk v i (o / 512) ≠ 0 → fbyte v i o = 0.
(** The number of blocks of a file, the indirect block included. *)
Definition blocks_of (n : nat) : Z :=
  (Z.of_nat n + 511) / 512 + (if 6144 <? Z.of_nat n then 1 else 0).

Lemma div512 n : (n = 512 * (n / 512) + n mod 512 ∧ n mod 512 < 512)%nat.
Proof. split; [apply Nat.div_mod_eq|apply Nat.mod_upper_bound; lia]. Qed.
Lemma exact_need v i off m :
  exact v i off → (off / 512 < 140)%nat → (0 < m)%nat → (off mod 512 + m ≤ 512)%nat →
  need v i (off / 512) = blocks_of (off + m) - blocks_of off.
Proof.
  intros [Hb Hi] Hlt Hm Hle. specialize (Hb _ Hlt). destruct (div512 off) as [Hq Hr].
  set (q := (off / 512)%nat) in *. unfold need, blocks_of.
  assert ((Z.of_nat (off + m) + 511) / 512 = Z.of_nat q + 1) as -> by zlia.
  destruct (Z.eqb_spec (fblk v i q) 0) as [H0|H0].
  - assert (off = 512 * q)%nat as Ho by lia.
    assert ((Z.of_nat off + 511) / 512 = Z.of_nat q) as -> by zlia.
    destruct (Z.eqb_spec (naddr i 12) 0), (Nat.leb_spec 12 q), (Z.ltb_spec 6144 (Z.of_nat (off + m))), (Z.ltb_spec 6144 (Z.of_nat off));
      cbn [andb]; try lia.
  - assert ((Z.of_nat off + 511) / 512 = Z.of_nat q + 1) as -> by zlia.
    destruct (Z.eqb_spec (naddr i 12) 0), (Nat.leb_spec 12 q), (Z.ltb_spec 6144 (Z.of_nat (off + m))), (Z.ltb_spec 6144 (Z.of_nat off));
      cbn [andb]; try lia.
Qed.
Lemma exact_step sb v i v1 i1 off m a :
  exact v i off → grows sb v i v1 i1 (off / 512) a → (off / 512 < 140)%nat → (0 < m)%nat → (off mod 512 + m ≤ 512)%nat →
  ((off / 512 < 12)%nat → naddr i1 12 = naddr i 12) → exact v1 i1 (off + m).
Proof.
  intros [Hb Hi] G Hlt Hm Hle Hn. destruct (div512 off) as [Hq Hr].
  pose proof (gr_blk _ _ _ _ _ _ _ G) as Ha. pose proof (gr_pos _ _ _ _ _ _ _ G) as Hp.
  pose proof (gr_others _ _ _ _ _ _ _ G) as Ho. set (q := (off / 512)%nat) in *. split.
  - intros bn Hbn. destruct (decide (bn = q)) as [->|Hne]; [rewrite Ha; lia|].
    rewrite Ho, Hb by done. lia.
  - destruct (decide (q < 12)%nat) as [H12|H12]; [rewrite Hn by done; lia|].
    split; [lia|]. intros _ H0. apply Hp. rewrite <- Ha. unfold fblk. rewrite decide_False by lia.
    by rewrite H0.
Qed.

Lemma ztail_step sb v i v1 i1 cur m a d new :
  disk_ok v1 sb → exact v i cur → ztail v i cur → grows sb v i v1 i1 (cur / 512) a → (cur / 512 < 140)%nat →
  (0 < m)%nat → (cur mod 512 + m ≤ 512)%nat → length new = m → v1 !! Z.to_nat a = Some d → length d = 512%nat →
  ztail (<[Z.to_nat a := splice d (cur mod 512) new]> v1) i1 (cur + m).
Proof.
  intros Hok He Hz G Hlt Hm Hle Hnew Hd Hdl o Ho Hob. pose proof (grows_data _ _ _ _ _ _ _ G Hlt) as Hda.
  pose proof (gr_blk _ _ _ _ _ _ _ G) as Ha. pose proof (gr_pos _ _ _ _ _ _ _ G) as Hp.
  assert (a ≠ naddr i1 12) as Hne.
  { rewrite <- Ha. apply (fo_ind_ne _ _ _ (gr_file _ _ _ _ _ _ _ G)); [done|]. by rewrite Ha. }
  unfold fbyte. rewrite (fblk_data v1 sb Hok i1 (gr_file _ _ _ _ _ _ _ G) a _ Hda Hne). intros Hn.
  destruct (div512 cur) as [Hq Hr]. destruct (div512 o) as [Hoq Hor].
  destruct (decide (o / 512 = cur / 512)%nat) as [Heq|Hneq].
  - rewrite Heq, Ha, list_lookup_insert_eq by (by eapply lookup_lt_Some).
    rewrite lookup_splice_out by (rewrite ?Hnew; lia).
    destruct (decide (fblk v i (cur / 512) = 0)) as [H0|H0].
    + destruct (gr_new _ _ _ _ _ _ _ G H0) as [Hzero _]. assert (d = replicate 512 0) as -> by congruence.
      rewrite lookup_replicate_2 by lia. done.
    + destruct (gr_old _ _ _ _ _ _ _ G H0) as [-> ->].
      specialize (Hz o ltac:(lia) Hob). unfold fbyte in Hz. rewrite Heq, Ha, Hd in Hz. by apply Hz.
  - exfalso. rewrite (gr_others _ _ _ _ _ _ _ G) in Hn by done. apply He in Hn; [|done]. lia.
Qed.

(** One round of the loop, after the block has been found. *)
Lemma append_store v f inum i0 v0 din1 off tot m src a vv i :
  let cur := (off + tot)%nat in
  base v f → written sb0 v0 i0 vv i off tot src → grows sb0 vv i (view v f) (ino inum din1) (cur / 512) a →
  (0 < m)%nat → (cur mod 512 + m ≤ 512)%nat → (cur / 512 < 140)%nat → (tot + m ≤ length src)%nat → Forall is_byte src →
  ∃ d, 29 ≤ a < f ∧ v !! Z.to_nat a = Some d ∧
    let v' := <[Z.to_nat a := splice d (cur mod 512) (slice src tot m)]> v in
    base v' f ∧ written sb0 v0 i0 (view v' f) (ino inum din1) off (tot + m) src ∧
    (∀ n, exact (view v f) (ino inum din1) n → exact (view v' f) (ino inum din1) n) ∧
    (exact vv i cur → ztail vv i cur → ztail (view v' f) (ino inum din1) (cur + m)).
Proof.
  cbv zeta. intros Hb W G Hm Hle Hlt Hs Hby. pose proof (b_free _ _ Hb) as Hfr.
  destruct (ws_data sb0 vv i off tot (view v f) (ino inum din1) a G Hlt) as [Hda Hdn].
  pose proof (proj1 (view_data v f Hb a) Hda) as Har.
  destruct (lookup_lt_is_Some_2 v (Z.to_nat a)) as [d Hd]; [rewrite (b_len _ _ Hb); lia|].
  assert (view v f !! Z.to_nat a = Some d) as Hdv by (by rewrite view_lookup by lia).
  assert (block_wf d) as Hdw by (eapply Forall_lookup_1; [apply Hb|done]).
  pose proof (ws_nd_wf off tot m src Hm Hle Hlt Hs Hby d Hdw) as Hnw.
  exists d. split_and!; [lia|lia|done|by apply base_write; [|lia|]| | |].
  - rewrite (view_write v f Hb) by lia. by apply (ws_written sb0 v0 i0 vv i off tot m src W).
  - intros n [He Hi]. split; [|done]. intros bn Hbn. rewrite (view_write v f Hb) by lia.
    rewrite (fblk_data _ sb0 (view_disk_ok v f Hb)); [by apply He|apply G|done|done].
  - intros He Hz. rewrite (view_write v f Hb) by lia.
    eapply (ztail_step sb0); [by apply view_disk_ok|done..|by apply length_slice|done|apply Hdw].
Qed.

(** What iappend's loop leaves: [n] bytes of [src] stored at the end of the file. *)
Definition appended (v0 : list block) (i0 : inode) (off : nat) (src : list Z) (f fi inum : Z) (tot : nat)
    (r : dinode * Z) (s' : mkfs) : Prop :=
  ∃ v' f', s' = st v' f' fi ∧ base v' f' ∧ r.2 = Z.of_nat (off + length src) ∧
    written sb0 v0 i0 (view v' f') (ino inum r.1) off (length src) src ∧
    exact (view v' f') (ino inum r.1) (off + length src) ∧
    ztail (view v' f') (ino inum r.1) (off + length src) ∧
    f' = f + blocks_of (off + length src) - blocks_of (off + tot).

Lemma blocks_of_mono a b : (a ≤ b)%nat → blocks_of a ≤ blocks_of b.
Proof.
  intros H. unfold blocks_of. destruct (Z.ltb_spec 6144 (Z.of_nat a)), (Z.ltb_spec 6144 (Z.of_nat b)); zlia.
Qed.

Lemma wp_iappend_loop fuel v f fi inum v0 i0 din off tot src :
  base v f → written sb0 v0 i0 (view v f) (ino inum din) off tot src →
  exact (view v f) (ino inum din) (off + tot) → ztail (view v f) (ino inum din) (off + tot) → (tot ≤ length src)%nat → Forall is_byte src →
  Z.of_nat (off + length src) ≤ 71680 → (length src - tot < fuel)%nat →
  f + blocks_of (off + length src) - blocks_of (off + tot) ≤ 1014 →
  wp (iappend_loop fuel din (Z.of_nat (off + tot)) (drop tot src) (Z.of_nat (length src - tot)))
     (appended v0 i0 off src f fi inum tot) (st v f fi).
Proof.
  revert v f din tot. induction fuel as [|fuel IH]; intros v f din tot Hb W He Hz Ht Hby Hmax Hfuel Hroom; [lia|].
  cbn [iappend_loop]. destruct (Z.ltb_spec 0 (Z.of_nat (length src - tot))) as [Hpos|Hdone].
  2: { assert (tot = length src) as -> by lia. wstep. exists v, f. by split_and!; [..|lia]. }
  set (cur := (off + tot)%nat) in *. destruct (div512 cur) as [Hq Hr].
  assert (Z.of_nat cur / 512 = Z.of_nat (cur / 512)) as Hdiv by (by rewrite Nat2Z.inj_div). rewrite Hdiv.
  assert (cur / 512 < 140)%nat as Hlt by (apply Nat.Div0.div_lt_upper_bound; lia).
  change MAXFILE with 140. rewrite (proj2 (Z.ltb_lt _ 140)) by lia. cbn [negb].
  set (m := Nat.min (length src - tot) (512 - cur mod 512)).
  assert (0 < m ∧ cur mod 512 + m ≤ 512 ∧ tot + m ≤ length src)%nat as (Hm & Hle & Hms) by (unfold m; lia).
  assert (Z.min (Z.of_nat (length src - tot)) ((Z.of_nat (cur / 512) + 1) * 512 - Z.of_nat cur) = Z.of_nat m) as -> by lia.
  pose proof (exact_need _ _ _ m He Hlt Hm Hle) as Hneed.
  pose proof (blocks_of_mono (cur + m) (off + length src) ltac:(lia)) as Hmono.
  wstep1. eapply wp_mono; [apply wp_iappend_block; [done|apply W|done|lia]|].
  intros [x din1] s1 (v1 & f1 & -> & Hb1 & G & Hf1 & Hn12). cbn [fst snd] in *.
  destruct (append_store v1 f1 inum i0 v0 din1 off tot m src x _ _ Hb1 W G Hm Hle Hlt Hms Hby)
    as (d & Hxr & Hd & Hb2 & W2 & He2 & Hz2). pose proof (b_free _ _ Hb1).
  wstep1. apply (wp_rsect _ _ _ _ d); [lia|done|]. wstep1.
  apply wp_wsect; [rewrite (b_len _ _ Hb1); lia|].
  replace (Z.to_nat (Z.of_nat cur - Z.of_nat (cur / 512) * 512)) with (cur mod 512)%nat by lia.
  rewrite Nat2Z.id. fold (slice src tot m).
  rewrite u32_small, drop_drop by lia. replace (Z.of_nat cur + Z.of_nat m) with (Z.of_nat (off + (tot + m))) by lia.
  replace (Z.of_nat (length src - tot) - Z.of_nat m) with (Z.of_nat (length src - (tot + m))) by lia.
  replace (cur + m)%nat with (off + (tot + m))%nat in * by lia.
  eapply wp_mono; [apply (IH _ f1 din1 (tot + m)%nat Hb2 W2); [| |lia|done|done|lia|lia]|].
  - apply He2. replace (off + (tot + m))%nat with (cur + m)%nat by lia. by eapply exact_step.
  - replace (off + (tot + m))%nat with (cur + m)%nat by lia. by apply Hz2.
  - intros r s' (v' & f' & -> & Hb' & Hr2 & W' & He' & Hz' & Hf'). exists v', f'. split_and!; try done. fold cur. lia.
Qed.
