(* ===== verification/MkfsFiles.v ===== *)
(** * The files of the image (mkfs.c: ialloc, iappend, main)

    The image as a list of files, each with its type and contents; iappend
    extends one and leaves the others alone.  [mkfs_correct] states what main
    builds in the terms of the kernel's file system. *)
From stdpp Require Import base list gmap numbers option strings sets.
From Stdlib Require Import ZArith Lia.
From S2P Require Import Prelude Kstring Layout Bio BioSpec BlockStore Log LogSpec Commit.
From S2P Require Import Fs FsTx FsBlocks FsInode FsBmap FsRead FsWrite FsTheorems FsPath Mkfs MkfsSpec.
Open Scope Z_scope.

Definition free_dinode : dinode := mkDinode 0 0 0 0 0 (replicate 13 0).

(** Dinode [k] of the image is a file of type [t] with contents [data]. *)
Record inode_ok (v : list block) (f k t : Z) (data : list Z) : Prop := {
  io_fields : ∃ addrs, dnode v k = mkDinode t 0 0 1 (Z.of_nat (length data)) addrs;
  io_file : file_ok (view v f) sb0 (ino k (dnode v k));
  io_data : fdata (view v f) (ino k (dnode v k)) = data;
  io_exact : exact (view v f) (ino k (dnode v k)) (length data);
  io_tail : ztail (view v f) (ino k (dnode v k)) (length data) }.

Definition total (fl : list (Z * list Z)) : Z := foldr (λ x n, blocks_of (length x.2) + n) 29 fl.

(** The image holds the files [fl], numbered from 1 on. *)
Record mk_ok (v : list block) (f : Z) (fl : list (Z * list Z)) : Prop := {
  mo_base : base v f;
  mo_count : (length fl < 200)%nat;
  mo_blocks : f = total fl;
  mo_files n t data : fl !! n = Some (t, data) → inode_ok v f (Z.of_nat (S n)) t data;
  mo_rest k : Z.of_nat (length fl) < k < 200 → dnode v k = free_dinode;
  mo_disj n m a : (n < length fl)%nat → (m < length fl)%nat →
    owned (view v f) (ino (Z.of_nat (S n)) (dnode v (Z.of_nat (S n)))) a →
    owned (view v f) (ino (Z.of_nat (S m)) (dnode v (Z.of_nat (S m)))) a → n = m }.

(** ** Arithmetic of the block count *)
Lemma blocks_of_0 : blocks_of 0 = 0.
Proof. reflexivity. Qed.
Lemma blocks_of_nonneg n : 0 ≤ blocks_of n.
Proof. rewrite <- blocks_of_0. apply blocks_of_mono. lia. Qed.
Lemma total_app fl fl' : total (fl ++ fl') = total fl + total fl' - 29.
Proof. induction fl as [|x fl IH]; [change (total []) with 29; cbn [app]; lia|]. cbn [app]. unfold total in *. cbn [foldr]. lia. Qed.
Lemma total_insert fl n x y :
  fl !! n = Some x → total (<[n := y]> fl) = total fl - blocks_of (length x.2) + blocks_of (length y.2).
Proof.
  revert n. induction fl as [|z fl IH]; intros [|n] Hn; try done.
  - injection Hn as ->. unfold total. cbn [insert list_insert foldr]. lia.
  - specialize (IH n Hn). change (<[S n := y]> (z :: fl)) with (z :: <[n := y]> fl).
    unfold total in *. cbn [foldr]. lia.
Qed.
Lemma total_ge fl : 29 ≤ total fl.
Proof. unfold total. induction fl as [|x fl IH]; cbn [foldr]; [lia|]. pose proof (blocks_of_nonneg (length x.2)). lia. Qed.

(** ** Inode blocks *)
Lemma i2b_range k : 0 ≤ k < 200 → 2 ≤ i2b k < 28.
Proof. intros. unfold i2b. change IPB with 8. zlia. Qed.
Lemma i2b_plain k : 0 ≤ k < 200 → plain sb0 (i2b k) ∧ i2b k < lo sb0.
Proof.
  intros Hk. pose proof (i2b_range k Hk). rewrite lo0. split; [|lia]. split; [lia|].
  intros b Hb. change (sb_size sb0) with 1024 in Hb. rewrite bblock0 by lia. lia.
Qed.
Lemma ipb_lt k : 0 ≤ k → (Z.to_nat (k mod IPB) < 8)%nat.
Proof. intros. change IPB with 8. zlia. Qed.
Lemma iblock_lookup v f k : base v f → 0 ≤ k < 200 →
  v !! Z.to_nat (i2b k) = Some (v !!! Z.to_nat (i2b k)) ∧ block_wf (v !!! Z.to_nat (i2b k)).
Proof.
  intros Hb Hk. pose proof (i2b_range k Hk).
  destruct (lookup_lt_is_Some_2 v (Z.to_nat (i2b k))) as [d Hd]; [rewrite (b_len _ _ Hb); lia|].
  rewrite (list_lookup_total_correct _ _ _ Hd). split; [done|]. eapply Forall_lookup_1; [apply Hb|done].
Qed.

Lemma wp_rinode v f fi k Q :
  base v f → 0 ≤ k < 200 → Q (dnode v k) (st v f fi) → wp (rinode k) Q (st v f fi).
Proof.
  intros Hb Hk HQ. pose proof (i2b_range k Hk). destruct (iblock_lookup v f k Hb Hk) as [Hd _].
  unfold rinode. cbv zeta. wstep1. eapply wp_rsect; [lia|exact Hd|]. by wstep.
Qed.
(** The image after winode. *)
Definition put_inode (v : list block) (k : Z) (d : dinode) : list block :=
  <[Z.to_nat (i2b k) := put_dinode (v !!! Z.to_nat (i2b k)) (Z.to_nat (k mod IPB)) d]> v.
Lemma wp_winode v f fi k d Q :
  base v f → 0 ≤ k < 200 → Q tt (st (put_inode v k d) f fi) → wp (winode k d) Q (st v f fi).
Proof.
  intros Hb Hk HQ. pose proof (i2b_range k Hk). destruct (iblock_lookup v f k Hb Hk) as [Hd _].
  unfold winode. cbv zeta. wstep1. eapply wp_rsect; [lia|exact Hd|].
  apply wp_wsect; [rewrite (b_len _ _ Hb); lia|done].
Qed.

Section put.
Context (v : list block) (f k : Z) (d : dinode).
Context (Hb : base v f) (Hk : 0 ≤ k < 200) (Hd : dinode_wf d).

Lemma put_base : base (put_inode v k d) f.
Proof.
  pose proof (i2b_range k Hk). pose proof (b_free _ _ Hb). apply base_write; [done|lia|].
  apply put_dinode_wf; [by eapply iblock_lookup|apply ipb_lt; lia|apply Hd].
Qed.
Lemma put_view : view (put_inode v k d) f
  = <[Z.to_nat (i2b k) := put_dinode (v !!! Z.to_nat (i2b k)) (Z.to_nat (k mod IPB)) d]> (view v f).
Proof. pose proof (i2b_range k Hk). apply view_write; [done|lia|lia]. Qed.
Lemma dnode_put j : 0 ≤ j < 200 → dnode (put_inode v k d) j = if decide (j = k) then d else dnode v j.
Proof.
  intros Hj. pose proof (i2b_range k Hk). pose proof (i2b_range j Hj).
  destruct (iblock_lookup v f k Hb Hk) as [Hl [Hlen _]]. pose proof (b_len _ _ Hb) as Hvl.
  unfold dnode, put_inode. change IBLOCK with i2b. destruct (decide (i2b j = i2b k)) as [He|He].
  - rewrite He, list_lookup_total_insert_eq by lia. destruct (decide (j = k)) as [->|Hne].
    + apply get_put_dinode; [done|apply ipb_lt; lia|done].
    + apply get_put_dinode_ne; [done|apply ipb_lt; lia|apply ipb_lt; lia| |apply Hd].
      unfold i2b in He. change IPB with 8 in *. zlia.
  - rewrite list_lookup_total_insert_ne by lia. rewrite decide_False by congruence. done.
Qed.
(** Nothing changes for the contents of a file. *)
Lemma put_file i : file_ok (view v f) sb0 i → file_ok (view (put_inode v k d) f) sb0 i.
Proof. intros Hf. rewrite put_view. destruct (i2b_plain k Hk). apply file_ok_meta; [by apply view_disk_ok|done..]. Qed.
Lemma put_fblk i bn : file_ok (view v f) sb0 i → fblk (view (put_inode v k d) f) i bn = fblk (view v f) i bn.
Proof. intros Hf. rewrite put_view. destruct (i2b_plain k Hk). by apply (fblk_meta _ sb0). Qed.
Lemma put_fdata i : file_ok (view v f) sb0 i → fdata (view (put_inode v k d) f) i = fdata (view v f) i.
Proof. intros Hf. rewrite put_view. destruct (i2b_plain k Hk). by apply (fdata_meta _ sb0). Qed.
Lemma put_exact i n : file_ok (view v f) sb0 i → exact (view v f) i n → exact (view (put_inode v k d) f) i n.
Proof. intros Hf [H1 H2]. split; [|done]. intros bn Hbn. rewrite put_fblk by done. by apply H1. Qed.
Lemma put_ztail i n : file_ok (view v f) sb0 i → ztail (view v f) i n → ztail (view (put_inode v k d) f) i n.
Proof.
  intros Hf H o Ho Hlt. rewrite put_fblk by done. intros Hn. rewrite put_view. destruct (i2b_plain k Hk).
  rewrite (fbyte_meta _ sb0) by done. by apply H.
Qed.
Lemma put_owned i a : file_ok (view v f) sb0 i → owned (view (put_inode v k d) f) i a ↔ owned (view v f) i a.
Proof.
  intros Hf. unfold owned. split; (intros [?|(bn & ? & Hn & ->)]; [by left|right; exists bn]);
    rewrite put_fblk in * by done; done.
Qed.
End put.

(** ** A file while another one grows *)
Section other.
Context (v v' : list block) (f f' : Z) (i0 i' : inode) (off n : nat) (src : list Z).
Context (Hb : base v f) (Hb' : base v' f') (Hff : f ≤ f') (Hf0 : file_ok (view v f) sb0 i0).
Context (W : written sb0 (view v f) i0 (view v' f') i' off n src).

Lemma owned_range i a : file_ok (view v f) sb0 i → owned (view v f) i a → 29 ≤ a < f.
Proof.
  intros Hf Ho. apply (view_data v f Hb). destruct Ho as [[Hn ->]|(bn & Hbn & Hn & ->)].
  - by apply (fo_ind _ _ _ Hf).
  - by apply (fo_data _ _ _ Hf).
Qed.
(** The blocks that did not change. *)
Lemma append_frame k :
  (k < 1014)%nat → k ≠ 28%nat → Z.of_nat k < f → ¬ owned (view v f) i0 (Z.of_nat k) →
  view v' f' !! k = view v f !! k.
Proof.
  intros Hk H28 Hkf Ho. destruct (wr_frame _ _ _ _ _ _ _ _ W k) as [?|[Hc|[Hc|?]]]; [done|..|done].
  - apply elem_of_bitmaps in Hc as (b & Hr & Hc). change (sb_size sb0) with 1024 in Hr. rewrite bblock0 in Hc by lia. lia.
  - apply (view_free_set v f Hb) in Hc. lia.
Qed.
Lemma append_dnode j : 0 ≤ j < 200 → dnode v' j = dnode v j.
Proof.
  intros Hj. pose proof (i2b_range j Hj). pose proof (b_free _ _ Hb).
  assert (v' !! Z.to_nat (i2b j) = v !! Z.to_nat (i2b j)) as He.
  { rewrite <- (view_lookup v' f'), <- (view_lookup v f) by lia. apply append_frame; [lia..|].
    intros Ho. apply (owned_range _ _ Hf0) in Ho. lia. }
  destruct (iblock_lookup v f j Hb Hj) as [Hd _]. rewrite Hd in He.
  unfold dnode. change IBLOCK with i2b. by rewrite (list_lookup_total_correct _ _ _ He).
Qed.

Context (j t : Z) (data : list Z) (Hj : 0 ≤ j < 200) (Hio : inode_ok v f j t data).
Abbreviation ij := (ino j (dnode v j)).
Context (Hdisj : ∀ a, owned (view v f) ij a → ¬ owned (view v f) i0 a).

Lemma other_block a : owned (view v f) ij a → view v' f' !! Z.to_nat a = view v f !! Z.to_nat a.
Proof.
  intros Ho. pose proof (owned_range _ _ (io_file _ _ _ _ _ Hio) Ho). pose proof (b_free _ _ Hb).
  apply append_frame; [lia|lia|lia|]. rewrite Z2Nat.id by lia. by apply Hdisj.
Qed.
Lemma other_fblk bn : (bn < 140)%nat → fblk (view v' f') ij bn = fblk (view v f) ij bn.
Proof.
  intros Hbn. unfold fblk. destruct (decide _); [done|]. destruct (Z.eqb_spec (naddr ij 12) 0) as [|Hn]; [done|].
  rewrite other_block; [done|]. by left.
Qed.
Lemma other_owned a : owned (view v' f') ij a ↔ owned (view v f) ij a.
Proof.
  unfold owned. split; (intros [?|(bn & Hbn & Hn & ->)]; [by left|right; exists bn]);
    rewrite other_fblk in * by done; done.
Qed.
Lemma other_fbyte o : (o / 512 < 140)%nat → fblk (view v f) ij (o / 512) ≠ 0 → fbyte (view v' f') ij o = fbyte (view v f) ij o.
Proof.
  intros Ho Hn. unfold fbyte. rewrite other_fblk by done. rewrite other_block; [done|]. right. eauto.
Qed.
Lemma other_inode_ok : inode_ok v' f' j t data.
Proof.
  destruct Hio as [Hfi Hf Hd He Ht].
  assert (∀ a, data_block (view v f) sb0 a → data_block (view v' f') sb0 a) as Hmono.
  { intros a. rewrite (view_data v f Hb), (view_data v' f' Hb'). lia. }
  split; rewrite ?(append_dnode j Hj); [done|..].
  - destruct Hf as [? ? HI HD HJ HN HS HF]. split; try done.
    + intros Hn. by apply Hmono, HI.
    + intros bn Hbn. rewrite other_fblk by done. intros. by apply Hmono, HD.
    + intros b1 b2 H1 H2. rewrite !other_fblk by done. by apply HJ.
    + intros bn Hbn. rewrite other_fblk by done. by apply HN.
    + intros bn Hbn. rewrite other_fblk by done. by apply HF.
  - transitivity (fdata (view v f) ij); [|done]. unfold fdata. apply list_fmap_ext. intros k o Hk. apply lookup_seq in Hk as [-> Hk].
    pose proof (fo_size _ _ _ Hf) as Hs. change (MAXFILE * BSIZE) with 71680 in Hs.
    assert ((0 + k) / 512 < 140)%nat by (apply Nat.Div0.div_lt_upper_bound; lia).
    apply other_fbyte; [done|]. apply (fo_full _ _ _ Hf); [done|]. pose proof (Nat.Div0.mul_div_le (0 + k) 512). lia.
  - destruct He as [He1 He2]. split; [|done]. intros bn Hbn. rewrite other_fblk by done. by apply He1.
  - intros o Ho Hlt. rewrite other_fblk by done. intros Hn. rewrite other_fbyte by done. by apply Ht.
Qed.
End other.

(** Writing dinode [k] does not change the other files. *)
Lemma inode_ok_put v f k d j t data :
  base v f → 0 ≤ k < 200 → dinode_wf d → 0 ≤ j < 200 → j ≠ k → inode_ok v f j t data →
  inode_ok (put_inode v k d) f j t data.
Proof.
  intros Hb Hk Hd Hj Hne [Hfi Hf Hda He Ht].
  split; rewrite ?(dnode_put v f k d Hb Hk Hd j Hj), ?decide_False by done.
  - done.
  - by apply put_file.
  - by rewrite put_fdata.
  - by apply put_exact.
  - by apply put_ztail.
Qed.

(** A file with the same fields and more blocks. *)
Lemma set_addrs_fields k d d' : ino k d' = set_addrs (i_addrs (ino k d')) (ino k d) →
  di_type d' = di_type d ∧ di_major d' = di_major d ∧ di_minor d' = di_minor d ∧ di_nlink d' = di_nlink d.
Proof. destruct d, d'. unfold ino, set_addrs. cbn. by intros [= -> -> -> -> _]. Qed.

(** The file that grew, after its dinode has been written. *)
Lemma appended_file v v1 f f1 k t data p din' :
  base v f → base v1 f1 → 0 ≤ k < 200 → inode_ok v f k t data → is_s16 t →
  Z.of_nat (length data + length p) ≤ 71680 →
  written sb0 (view v f) (ino k (dnode v k)) (view v1 f1) (ino k din') (length data) (length p) p →
  exact (view v1 f1) (ino k din') (length data + length p) →
  ztail (view v1 f1) (ino k din') (length data + length p) →
  let d' := di_set_size (Z.of_nat (length data + length p)) din' in
  dinode_wf d' ∧ inode_ok (put_inode v1 k d') f1 k t (data ++ p) ∧
  file_ok (view v1 f1) sb0 (ino k d') ∧
  (∀ a, owned (view v1 f1) (ino k d') a → owned (view v f) (ino k (dnode v k)) a ∨ f ≤ a < f1).
Proof.
  intros Hb Hb1 Hk [(addrs & Hdn) Hf Hda He Hz] Ht Hmax W He1 Hz1 d'. set (i0 := ino k (dnode v k)) in *.
  assert (i_size i0 = Z.of_nat (length data)) as Hsz by (unfold i0; by rewrite Hdn).
  destruct (set_addrs_fields k (dnode v k) din' (wr_fields _ _ _ _ _ _ _ _ W)) as (Hty & Hmj & Hmn & Hnl).
  rewrite Hdn in Hty, Hmj, Hmn, Hnl. cbn in Hty, Hmj, Hmn, Hnl.
  pose proof (written_data sb0 _ _ _ _ _ _ _ W ltac:(lia) ltac:(lia) ltac:(lia)) as Hdata.
  pose proof (written_resize sb0 _ _ _ _ _ _ _ W ltac:(lia) ltac:(lia)) as Hf1.
  rewrite Hsz, Z.max_r in Hdata, Hf1 by lia.
  change (i_set_size (Z.of_nat (length data + length p)) (ino k din')) with (ino k d') in *.
  rewrite Hda, firstn_all2, firstn_all, drop_ge, app_nil_r in Hdata by lia.
  pose proof (addrs_u32 v1 f1 k din' Hb1 (wr_file _ _ _ _ _ _ _ _ W)) as Hau.
  assert (dinode_wf d') as Hwf.
  { unfold dinode_wf, d'. cbn [di_set_size di_type di_major di_minor di_nlink di_size di_addrs].
    rewrite Hty, Hmj, Hmn, Hnl. split_and!; try done; [unfold is_u32; lia|]. apply Hf1. }
  split_and!; [done| |done|].
  - split; rewrite ?(dnode_put v1 f1 k d' Hb1 Hk Hwf k Hk), ?decide_True, ?length_app by done.
    + exists (di_addrs din'). unfold d', di_set_size. by rewrite Hty, Hmj, Hmn, Hnl.
    + by apply put_file.
    + by rewrite put_fdata.
    + by apply put_exact.
    + by apply put_ztail.
  - intros a Ho. assert (∀ x, x ∈ free_set (view v f) sb0 → data_block (view v1 f1) sb0 x → f ≤ x < f1) as Hnew.
    { intros x Hx%(view_free_set v f Hb) Hx1%(view_data v1 f1 Hb1). lia. }
    destruct Ho as [[Hn ->]|(bn & Hbn & Hn & ->)].
    + destruct (wr_ind _ _ _ _ _ _ _ _ W Hn) as [Heq|Hfree].
      * left. left. change (naddr (ino k d') 12) with (naddr (ino k din') 12) in *. split; congruence.
      * right. apply Hnew; [done|]. by apply (fo_ind _ _ _ Hf1).
    + destruct (wr_new _ _ _ _ _ _ _ _ W bn Hbn Hn) as [Hold|Hfree].
      * left. right. exists bn. split_and!; [done|done|]. by apply (wr_keep _ _ _ _ _ _ _ _ W).
      * right. apply Hnew; [done|]. by apply (fo_data _ _ _ Hf1).
Qed.

Lemma mo_index v f fl n x : mk_ok v f fl → fl !! n = Some x → (n < length fl)%nat ∧ 0 ≤ Z.of_nat (S n) < 200.
Proof. intros Hm Hn. apply lookup_lt_Some in Hn. pose proof (mo_count _ _ _ Hm). lia. Qed.

(** The image after iappend to file [n]. *)
Lemma mk_ok_append v v1 f f1 fl n t data p din' :
  mk_ok v f fl → fl !! n = Some (t, data) → is_s16 t → base v1 f1 → Z.of_nat (length data + length p) ≤ 71680 →
  f1 = f + blocks_of (length data + length p) - blocks_of (length data) →
  let k := Z.of_nat (S n) in
  written sb0 (view v f) (ino k (dnode v k)) (view v1 f1) (ino k din') (length data) (length p) p →
  exact (view v1 f1) (ino k din') (length data + length p) →
  ztail (view v1 f1) (ino k din') (length data + length p) →
  mk_ok (put_inode v1 k (di_set_size (Z.of_nat (length data + length p)) din')) f1 (<[n := (t, data ++ p)]> fl).
Proof.
  intros Hm Hn Ht Hb1 Hmax Hf1 k W He Hz. destruct (mo_index _ _ _ _ _ Hm Hn) as [Hlt Hk]. fold k in Hk.
  pose proof (mo_base _ _ _ Hm) as Hb. pose proof (mo_files _ _ _ Hm n t data Hn) as Hio. fold k in Hio.
  destruct (appended_file v v1 f f1 k t data p din' Hb Hb1 Hk Hio Ht Hmax W He Hz) as (Hwf & Hio' & Hfd & Hown).
  set (d' := di_set_size _ din') in *. pose proof (blocks_of_mono (length data) (length data + length p) ltac:(lia)).
  assert (f ≤ f1) as Hff by lia. pose proof (io_file _ _ _ _ _ Hio) as Hf0.
  assert (∀ m, (m < length fl)%nat → m ≠ n → let j := Z.of_nat (S m) in
    inode_ok v f j (fl !!! m).1 (fl !!! m).2 ∧ inode_ok v1 f1 j (fl !!! m).1 (fl !!! m).2 ∧ dnode v1 j = dnode v j ∧
    ∀ a, owned (view v1 f1) (ino j (dnode v j)) a ↔ owned (view v f) (ino j (dnode v j)) a) as Hoth.
  { intros m Hlm Hne j. pose proof (mo_count _ _ _ Hm). destruct (lookup_lt_is_Some_2 fl m Hlm) as [[tm dm] Hlk].
    rewrite (list_lookup_total_correct _ _ _ Hlk). cbn [fst snd]. pose proof (mo_files _ _ _ Hm m tm dm Hlk) as Hj.
    assert (∀ a, owned (view v f) (ino j (dnode v j)) a → ¬ owned (view v f) (ino k (dnode v k)) a) as Hd.
    { intros a Ha Ha'. apply Hne. by apply (mo_disj _ _ _ Hm m n a). }
    split_and!; [done|eapply other_inode_ok; (done || lia)|eapply append_dnode; (done || lia)|].
    intros a. eapply other_owned; (done || lia). }
  assert (∀ m, (m < length fl)%nat → m ≠ n → let j := Z.of_nat (S m) in
    dnode (put_inode v1 k d') j = dnode v j) as Hdn.
  { intros m Hlm Hne j. pose proof (mo_count _ _ _ Hm). rewrite (dnode_put v1 f1 k d' Hb1 Hk Hwf) by lia.
    rewrite decide_False by (unfold k; lia). by apply Hoth. }
  split.
  - by apply put_base.
  - rewrite length_insert. apply Hm.
  - rewrite (total_insert _ _ _ _ Hn). cbn [snd]. rewrite length_app. pose proof (mo_blocks _ _ _ Hm). lia.
  - intros m tm dm Hlk. destruct (decide (m = n)) as [->|Hne].
    + rewrite list_lookup_insert_eq in Hlk by done. by injection Hlk as <- <-.
    + rewrite list_lookup_insert_ne in Hlk by done. pose proof (lookup_lt_Some _ _ _ Hlk). pose proof (mo_count _ _ _ Hm).
      destruct (Hoth m ltac:(done) Hne) as (_ & Hj & _). rewrite (list_lookup_total_correct _ _ _ Hlk) in Hj.
      apply inode_ok_put; try done; unfold k; lia.
  - intros j Hj. rewrite length_insert in Hj. rewrite (dnode_put v1 f1 k d' Hb1 Hk Hwf) by lia.
    rewrite decide_False by (unfold k; lia). erewrite append_dnode; [by apply Hm|done|done|done|lia].
  - rewrite length_insert. intros x y a Hx Hy Hox Hoy.
    assert (∀ m, (m < length fl)%nat → m ≠ n → owned (view (put_inode v1 k d') f1) (ino (Z.of_nat (S m)) (dnode (put_inode v1 k d') (Z.of_nat (S m)))) a →
      owned (view v f) (ino (Z.of_nat (S m)) (dnode v (Z.of_nat (S m)))) a) as Hold.
    { intros m Hlm Hne. rewrite Hdn by done. destruct (Hoth m Hlm Hne) as (_ & Hj & Hd1 & Ho).
      intros Hx1. apply Ho, (put_owned v1 f1 k d'); try done. rewrite <- Hd1. apply Hj. }
    assert (owned (view (put_inode v1 k d') f1) (ino k (dnode (put_inode v1 k d') k)) a →
      owned (view v f) (ino k (dnode v k)) a ∨ f ≤ a < f1) as Hnew.
    { rewrite (dnode_put v1 f1 k d' Hb1 Hk Hwf) by lia. rewrite decide_True by done. rewrite put_owned by done. apply Hown. }
    destruct (decide (x = n)) as [->|Hxn], (decide (y = n)) as [->|Hyn]; [done|..].
    + exfalso. apply Hold in Hoy; [|done..]. destruct (Hoth y Hy Hyn) as (Hj & _).
      destruct (Hnew Hox) as [Ho|Hr]; [apply Hyn; symmetry; by apply (mo_disj _ _ _ Hm n y a)|].
      pose proof (owned_range v f Hb _ a (io_file _ _ _ _ _ Hj) Hoy). lia.
    + exfalso. apply Hold in Hox; [|done..]. destruct (Hoth x Hx Hxn) as (Hj & _).
      destruct (Hnew Hoy) as [Ho|Hr]; [apply Hxn; by apply (mo_disj _ _ _ Hm x n a)|].
      pose proof (owned_range v f Hb _ a (io_file _ _ _ _ _ Hj) Hox). lia.
    + apply Hold in Hox, Hoy; [|done..]. by apply (mo_disj _ _ _ Hm x y a).
Qed.

Lemma wp_iappend v f fi fl n t data p :
  mk_ok v f fl → fl !! n = Some (t, data) → is_s16 t → Forall is_byte p → Z.of_nat (length data + length p) ≤ 71680 →
  f + blocks_of (length data + length p) - blocks_of (length data) ≤ 1014 →
  wp (iappend (Z.of_nat (S n)) p (Z.of_nat (length p)))
     (λ _ s', ∃ v' f', s' = st v' f' fi ∧ mk_ok v' f' (<[n := (t, data ++ p)]> fl)) (st v f fi).
Proof.
  intros Hm Hn Ht Hp Hmax Hroom. destruct (mo_index _ _ _ _ _ Hm Hn) as [Hlt Hk]. set (k := Z.of_nat (S n)) in *.
  pose proof (mo_base _ _ _ Hm) as Hb. pose proof (mo_files _ _ _ Hm n t data Hn) as Hio. fold k in Hio.
  pose proof Hio as [(addrs & Hdn) Hf Hda He Hz].
  unfold iappend. wstep1. apply wp_rinode; [done..|].
  assert (xint (di_size (dnode v k)) = Z.of_nat (length data)) as ->.
  { rewrite Hdn. cbn [di_size]. apply xint_id. unfold is_u32. lia. }
  rewrite Nat2Z.id. wstep1.
  pose proof (wp_iappend_loop (S (length p)) v f fi k (view v f) (ino k (dnode v k)) (dnode v k) (length data) 0 p) as Hloop.
  rewrite Nat.add_0_r, Nat.sub_0_r in Hloop.
  eapply wp_mono; [apply Hloop; [done|by apply written_0; [apply view_disk_ok|]|done|done|lia|done|lia|lia|lia]|].
  intros [din' off'] s1 (v1 & f1 & -> & Hb1 & Hoff & W & He1 & Hz1 & Hf1). cbn [fst snd] in *. subst off'.
  rewrite xint_id by (unfold is_u32; lia). apply wp_winode; [done..|]. eexists _, f1. split; [done|].
  apply (mk_ok_append v v1 f f1); try done. by rewrite Nat.add_0_r in Hf1.
Qed.

(** ** ialloc *)
Definition new_dinode (t : Z) : dinode := mkDinode t 0 0 1 0 (replicate 13 0).
Lemma naddr_new k t n : naddr (ino k (new_dinode t)) n = 0.
Proof. unfold naddr. cbn [ino new_dinode i_addrs di_addrs]. by destruct (replicate 13 0 !! n) as [x|] eqn:H; [apply lookup_replicate in H as [-> _]|]. Qed.
Lemma fblk_new v k t bn : fblk v (ino k (new_dinode t)) bn = 0.
Proof. unfold fblk. rewrite !naddr_new. by destruct (decide _). Qed.
Lemma new_file_ok v k t : file_ok v sb0 (ino k (new_dinode t)).
Proof.
  split; [done|done|by rewrite naddr_new|intros bn _; by rewrite fblk_new|intros b1 b2 _ _; by rewrite fblk_new|
    intros bn _; by rewrite fblk_new|done|intros bn _ Hlt; cbn in Hlt; lia].
Qed.

Lemma mk_ok_new v f fl t :
  mk_ok v f fl → (length fl < 199)%nat → is_s16 t →
  mk_ok (put_inode v (Z.of_nat (S (length fl))) (new_dinode t)) f (fl ++ [(t, [])]).
Proof.
  intros Hm Hlt Ht. pose proof (mo_base _ _ _ Hm) as Hb. set (k := Z.of_nat (S (length fl))).
  assert (0 ≤ k < 200) as Hk by lia. set (d := new_dinode t).
  assert (dinode_wf d) as Hwf by (split_and!; try done; by apply Forall_replicate).
  assert (∀ m, (m < length fl)%nat → dnode (put_inode v k d) (Z.of_nat (S m)) = dnode v (Z.of_nat (S m))) as Hold.
  { intros m Hlm. rewrite (dnode_put v f k d Hb Hk Hwf) by lia. by rewrite decide_False by lia. }
  assert (dnode (put_inode v k d) k = d) as Hnew by (rewrite (dnode_put v f k d Hb Hk Hwf) by done; by rewrite decide_True).
  assert (∀ a, ¬ owned (view (put_inode v k d) f) (ino k d) a) as Hno.
  { unfold d. intros a [[Hn _]|(bn & _ & Hn & _)]; [by rewrite naddr_new in Hn|by rewrite fblk_new in Hn]. }
  split.
  - by apply put_base.
  - rewrite length_app. cbn. lia.
  - rewrite total_app. change (total [(t, [])]) with 29. pose proof (mo_blocks _ _ _ Hm). lia.
  - intros n tn dn [Hl|[Hge Hl]]%lookup_app_Some.
    + pose proof (lookup_lt_Some _ _ _ Hl). apply inode_ok_put; try done; [lia..|]. by apply Hm.
    + apply list_lookup_singleton_Some in Hl as [Hn [= <- <-]]. replace n with (length fl) by lia. fold k.
      split; rewrite ?Hnew; unfold d.
      * by exists (replicate 13 0).
      * apply new_file_ok.
      * done.
      * split; [|by rewrite naddr_new]. intros bn _. rewrite fblk_new. cbn. lia.
      * intros o _ _. by rewrite fblk_new.
  - intros j Hj. rewrite length_app in Hj. cbn in Hj. rewrite (dnode_put v f k d Hb Hk Hwf) by lia.
    rewrite decide_False by lia. apply Hm. lia.
  - rewrite length_app. cbn [length]. intros x y a Hx Hy Hox Hoy.
    assert (∀ m, (m < S (length fl))%nat → owned (view (put_inode v k d) f) (ino (Z.of_nat (S m)) (dnode (put_inode v k d) (Z.of_nat (S m)))) a →
      (m < length fl)%nat ∧ owned (view v f) (ino (Z.of_nat (S m)) (dnode v (Z.of_nat (S m)))) a) as Ho.
    { intros m Hlm Ho. destruct (decide (m = length fl)) as [->|Hne].
      - exfalso. fold k in Ho. rewrite Hnew in Ho. by eapply Hno.
      - split; [lia|]. rewrite Hold in Ho by lia. apply (put_owned v f k d) in Ho; try done.
        destruct (lookup_lt_is_Some_2 fl m) as [[tm dm] Hlk]; [lia|]. by apply (mo_files _ _ _ Hm m tm dm). }
    apply Ho in Hox as [? Hox], Hoy as [? Hoy]; [|lia..]. by apply (mo_disj _ _ _ Hm x y a).
Qed.
Lemma wp_mkfs_ialloc v f fl t :
  mk_ok v f fl → (length fl < 199)%nat → t = T_DIR ∨ t = T_FILE →
  wp (mkfs_ialloc t) (λ inum s', inum = Z.of_nat (S (length fl)) ∧
    ∃ v', s' = st v' f (Z.of_nat (S (S (length fl)))) ∧ mk_ok v' f (fl ++ [(t, [])])) (st v f (Z.of_nat (S (length fl)))).
Proof.
  intros Hm Hlt Ht. unfold mkfs_ialloc. wstep. cbn [id mk_img mk_freeblock mk_usedblocks mk_freeinode].
  rewrite u32_small by lia. replace (Z.of_nat (S (length fl)) + 1) with (Z.of_nat (S (S (length fl)))) by lia.
  apply wp_winode; [apply Hm|lia|]. wstep. split; [done|]. eexists. split; [done|].
  assert (mkDinode (xshort t) 0 0 (xshort 1) (xint 0) (replicate 13 0) = new_dinode t) as ->
    by (by destruct Ht as [-> | ->]).
  apply mk_ok_new; [done|done|]. by destruct Ht as [-> | ->].
Qed.
