(* ===== verification/MkfsMain.v ===== *)
(** * What mkfs writes (main of mkfs.c)

    [mkfs_correct]: the image boots, satisfies the invariant of the kernel's file
    system, and holds the files of the command line. *)
From stdpp Require Import base list gmap numbers option strings sets.
From Stdlib Require Import ZArith Lia.
From S2P Require Import Prelude Kstring Layout Bio BioSpec BlockStore Log LogSpec Commit.
From S2P Require Import Fs FsTx FsBlocks FsInode FsBmap FsRead FsWrite FsTheorems FsPath Mkfs MkfsSpec MkfsFiles.
Open Scope Z_scope.

(** ** The contents of the image *)
Definition entry (n : nat) (f : list Z * option (list Z)) : list Z :=
  mk_dirent (Z.of_nat (S (S n))) (skip_underscore f.1).
Definition root_data (files : list (list Z * option (list Z))) : list Z :=
  mk_dirent 1 (cs ".") ++ mk_dirent 1 (cs "..") ++ concat (imap entry files).
Definition image_files (files : list (list Z * option (list Z))) : list (Z * list Z) :=
  (T_DIR, root_data files) :: fmap (λ f, (T_FILE, default [] f.2)) files.
Definition file_fits (f : list Z * option (list Z)) : Prop :=
  (47 ∉ f.1) ∧ Forall is_byte f.1 ∧ ∃ data, f.2 = Some data ∧ Forall is_byte data ∧ Z.of_nat (length data) ≤ 71680.

Lemma length_mk_dirent k name : length (mk_dirent k name) = 16%nat.
Proof. unfold mk_dirent, enc_dirent. cbn [de_inum de_name]. by rewrite length_app, length_le_enc, length_strncpy. Qed.
Lemma mk_dirent_bytes k name : Forall is_byte name → Forall is_byte (mk_dirent k name).
Proof.
  intros Hn. unfold mk_dirent, enc_dirent. cbn [de_inum de_name]. rewrite Forall_app. split; [apply le_enc_bytes|].
  rewrite strncpy_spec, Forall_app. split; [|by apply Forall_replicate].
  apply Forall_take. clear k. induction Hn as [|c l Hc Hl IH]; cbn [cstr]; [constructor|]. by case_match; constructor.
Qed.
Lemma length_concat_imap {A} (g : nat → A → list Z) k l :
  (∀ n x, length (g n x) = k) → length (concat (imap g l)) = (k * length l)%nat.
Proof.
  revert g. induction l as [|x l IH]; intros g Hg; [cbn; lia|]. rewrite imap_cons. cbn [concat length].
  rewrite length_app, Hg, IH by (intros; apply Hg). lia.
Qed.
Lemma length_root_data files : length (root_data files) = (16 * (2 + length files))%nat.
Proof.
  unfold root_data. rewrite !length_app, !length_mk_dirent.
  rewrite (length_concat_imap _ 16) by (intros; apply length_mk_dirent). lia.
Qed.
Lemma root_data_snoc files f : root_data (files ++ [f]) = root_data files ++ entry (length files) f.
Proof.
  unfold root_data. rewrite imap_app, concat_app. cbn [imap concat]. rewrite Nat.add_0_r, app_nil_r. by rewrite !app_assoc.
Qed.
Lemma image_files_snoc files f data :
  f.2 = Some data →
  image_files (files ++ [f]) = (T_DIR, root_data files ++ entry (length files) f) :: tail (image_files files) ++ [(T_FILE, data)].
Proof. intros Hf. unfold image_files. rewrite root_data_snoc, fmap_app. cbn. by rewrite Hf. Qed.

(** ** Storing a file *)
Lemma wp_copy_file fuel v f fi fl n d0 data :
  mk_ok v f fl → fl !! n = Some (T_FILE, d0) → Forall is_byte data → Z.of_nat (length d0 + length data) ≤ 71680 →
  f + blocks_of (length d0 + length data) - blocks_of (length d0) ≤ 1014 → (length data < fuel)%nat →
  wp (copy_file fuel (Z.of_nat (S n)) data)
     (λ _ s', ∃ v' f', s' = st v' f' fi ∧ mk_ok v' f' (<[n := (T_FILE, d0 ++ data)]> fl)) (st v f fi).
Proof.
  revert v f fl d0 data. induction fuel as [|fuel IH]; intros v f fl d0 data Hm Hn Hby Hmax Hroom Hfuel; [lia|].
  cbn [copy_file]. cbv zeta. destruct data as [|c data].
  { cbn. wstep. exists v, f. split; [done|]. by rewrite app_nil_r, list_insert_id. }
  set (all := c :: data) in *. assert (0 < length (take 512 all))%nat as Hpos by (unfold all; cbn; lia).
  rewrite (proj2 (Z.ltb_lt 0 _)) by lia. pose proof (take_drop 512 all) as Hsplit.
  assert (length all = length (take 512 all) + length (drop 512 all))%nat as Hlen by (rewrite <- length_app; by rewrite Hsplit).
  pose proof (blocks_of_mono (length d0 + length (take 512 all)) (length d0 + length all) ltac:(lia)) as Hmono.
  wstep1. eapply wp_mono; [apply (wp_iappend v f fi fl n T_FILE d0); [done|done|done|by apply Forall_take|lia|lia]|].
  intros [] s1 (v1 & f1 & -> & Hm1). pose proof (mo_blocks _ _ _ Hm1) as Hf1. pose proof (mo_blocks _ _ _ Hm) as Hf.
  rewrite (total_insert _ _ _ _ Hn) in Hf1. cbn [snd] in Hf1. rewrite length_app in Hf1.
  pose proof (lookup_lt_Some _ _ _ Hn) as Hlt.
  eapply wp_mono; [apply (IH v1 f1 _ (d0 ++ take 512 all) (drop 512 all) Hm1); rewrite ?length_app|].
  - by apply list_lookup_insert_eq.
  - by apply Forall_drop.
  - lia.
  - rewrite <- Nat.add_assoc, <- Hlen. lia.
  - lia.
  - intros [] s2 (v2 & f2 & -> & Hm2). exists v2, f2. split; [done|].
    by rewrite list_insert_insert_eq, <- app_assoc, Hsplit in Hm2.
Qed.

Lemma total_cons x fl : total (x :: fl) = blocks_of (length x.2) + total fl.
Proof. done. Qed.
Lemma total_snoc fl x : total (fl ++ [x]) = total fl + blocks_of (length x.2).
Proof. rewrite total_app, total_cons. change (total []) with 29. lia. Qed.

Lemma wp_store_file v f fs x :
  mk_ok v f (image_files fs) → file_fits x → (length fs < 198)%nat → total (image_files (fs ++ [x])) ≤ 1014 →
  wp (store_file 1 x)
     (λ _ s', ∃ v' f', s' = st v' f' (Z.of_nat (S (length (image_files (fs ++ [x]))))) ∧ mk_ok v' f' (image_files (fs ++ [x])))
     (st v f (Z.of_nat (S (length (image_files fs))))).
Proof.
  intros Hm (Hslash & Hname & data & Hd & Hby & Hlen) Hcount Hroom.
  assert (length (image_files fs) = S (length fs)) as Hl by (unfold image_files; cbn; by rewrite length_fmap).
  pose proof (mo_blocks _ _ _ Hm) as Hf. rewrite (image_files_snoc _ _ _ Hd) in Hroom |- *.
  assert (length (entry (length fs) x) = 16%nat) as Hel by apply length_mk_dirent.
  set (e := entry (length fs) x) in *. set (rest := tail (image_files fs)) in *.
  assert (image_files fs = (T_DIR, root_data fs) :: rest) as Hfl by done. rewrite Hfl in *. cbn [length] in Hl.
  rewrite total_cons in Hf. cbn [snd] in Hf.
  rewrite total_cons, total_snoc in Hroom. cbn [snd] in Hroom. rewrite length_app, Hel in Hroom.
  pose proof (length_root_data fs) as Hrl. pose proof (blocks_of_nonneg (length data)).
  unfold store_file. rewrite bool_decide_eq_false_2, Hd by done.
  wstep1. eapply wp_mono; [apply wp_mkfs_ialloc; [done|cbn [length]; lia|by right]|].
  intros inum s1 (-> & v1 & -> & Hm1). cbn [length] in Hm1 |- *. rewrite Hl.
  change (mk_dirent (Z.of_nat (S (S (length fs)))) (skip_underscore x.1)) with e.
  change 1 with (Z.of_nat (S 0)). replace 16 with (Z.of_nat (length e)) by lia.
  assert (Forall is_byte e) as Heb.
  { apply mk_dirent_bytes. unfold skip_underscore. destruct Hname as [|c l Hc Hn]; [constructor|].
    repeat case_match; try done; by constructor. }
  wstep1. eapply wp_mono; [apply (wp_iappend v1 f _ _ 0 T_DIR (root_data fs) e Hm1); [done|done|done|lia|rewrite Hel; lia]|].
  intros [] s2 (v2 & f2 & -> & Hm2). pose proof (mo_blocks _ _ _ Hm2) as Hf2.
  assert (<[0%nat := (T_DIR, root_data fs ++ e)]> (((T_DIR, root_data fs) :: rest) ++ [(T_FILE, [])])
          = ((T_DIR, root_data fs ++ e) :: rest) ++ [(T_FILE, [])]) as Hfl2 by done.
  rewrite Hfl2 in *. rewrite total_snoc, total_cons in Hf2. cbn [snd length] in Hf2. rewrite length_app, Hel, blocks_of_0 in Hf2.
  replace (Z.of_nat (S (S (length fs)))) with (Z.of_nat (S (length ((T_DIR, root_data fs ++ e) :: rest)))) by (cbn [length]; lia).
  eapply wp_mono; [apply (wp_copy_file _ v2 f2 _ _ (length ((T_DIR, root_data fs ++ e) :: rest)) [] data Hm2)|].
  - by rewrite lookup_app_r, Nat.sub_diag by lia.
  - done.
  - cbn [length]. lia.
  - cbn [length]. rewrite Nat.add_0_l, blocks_of_0. lia.
  - lia.
  - intros [] s3 (v3 & f3 & -> & Hm3). exists v3, f3. rewrite length_app. cbn [length].
    split; [do 2 f_equal; lia|].
    rewrite insert_app_r_alt, Nat.sub_diag in Hm3 by lia. exact Hm3.
Qed.

Lemma total_prefix fs1 fs2 : total (image_files fs1) ≤ total (image_files (fs1 ++ fs2)).
Proof.
  unfold image_files. rewrite !total_cons. cbn [snd]. rewrite fmap_app, total_app.
  pose proof (total_ge ((λ f, (T_FILE, default [] f.2)) <$> fs2)).
  pose proof (blocks_of_mono (length (root_data fs1)) (length (root_data (fs1 ++ fs2)))) as Hm.
  rewrite !length_root_data, length_app in *. specialize (Hm ltac:(lia)). lia.
Qed.
Lemma wp_store_files v f fs1 fs2 :
  mk_ok v f (image_files fs1) → Forall file_fits fs2 → (length (fs1 ++ fs2) < 199)%nat →
  total (image_files (fs1 ++ fs2)) ≤ 1014 →
  wp (mfor fs2 (store_file 1))
     (λ _ s', ∃ v' f', s' = st v' f' (Z.of_nat (S (length (image_files (fs1 ++ fs2))))) ∧ mk_ok v' f' (image_files (fs1 ++ fs2)))
     (st v f (Z.of_nat (S (length (image_files fs1))))).
Proof.
  intros Hm Hfit. revert v f fs1 Hm. induction Hfit as [|x fs2 Hx Hfit IH]; intros v f fs1 Hm Hcount Hroom; cbn [mfor].
  { wstep. rewrite app_nil_r. by exists v, f. }
  rewrite length_app in Hcount. cbn [length] in Hcount.
  replace (fs1 ++ x :: fs2) with ((fs1 ++ [x]) ++ fs2) in * by (by rewrite <- app_assoc).
  pose proof (total_prefix (fs1 ++ [x]) fs2) as Hp.
  wstep1. eapply wp_mono; [apply wp_store_file; [done|done|lia|lia]|]. intros [] s1 (v1 & f1 & -> & Hm1).
  apply IH; [done| |done]. rewrite !length_app. cbn. lia.
Qed.

(** ** The size of the root directory is rounded up to whole blocks *)
Definition padded (data : list Z) : list Z := data ++ replicate (512 - length data mod 512) 0.
Lemma length_padded data : length (padded data) = (512 * (length data / 512 + 1))%nat.
Proof. unfold padded. rewrite length_app, length_replicate. destruct (div512 (length data)). lia. Qed.

Section round.
Context (v : list block) (f k t : Z) (data : list Z).
Context (Hb : base v f) (Hk : 0 ≤ k < 200) (Hio : inode_ok v f k t data).
Context (Hmod : (length data mod 512 ≠ 0)%nat) (Hmax : Z.of_nat (length (padded data)) ≤ 71680) (Ht : is_s16 t).
Let d' : dinode := di_set_size (Z.of_nat (length (padded data))) (dnode v k).

Lemma round_file : file_ok (view v f) sb0 (ino k d').
Proof.
  destruct Hio as [_ [HV HA HI HD HJ HN HS HF] _ [He _] _]. split; [exact HV|exact HA|exact HI|exact HD|exact HJ|exact HN|..].
  - cbn [ino i_size d' di_set_size di_size]. change (MAXFILE * BSIZE) with 71680. lia.
  - intros bn Hbn Hlt. cbn [ino i_size d' di_set_size di_size] in Hlt. change (fblk (view v f) (ino k (dnode v k)) bn ≠ 0).
    apply He; [done|]. rewrite length_padded in Hlt. destruct (div512 (length data)). lia.
Qed.
Lemma round_data : fdata (view v f) (ino k d') = padded data.
Proof.
  destruct Hio as [(addrs & Hdn) Hf Hd [He _] Hz].
  assert (i_size (ino k (dnode v k)) = Z.of_nat (length data)) as Hsz by (by rewrite Hdn).
  assert (i_size (ino k d') = Z.of_nat (length (padded data))) as Hsz' by done.
  apply list_eq. intros o. destruct (decide (o < length (padded data))%nat) as [Ho|Ho].
  - rewrite lookup_fdata by (rewrite Hsz'; lia). change (fbyte (view v f) (ino k d') o) with (fbyte (view v f) (ino k (dnode v k)) o).
    unfold padded. destruct (decide (o < length data)%nat) as [Hlt|Hge].
    + rewrite lookup_app_l by done. transitivity (fdata (view v f) (ino k (dnode v k)) !! o); [|by rewrite Hd].
      by rewrite lookup_fdata by (rewrite Hsz; lia).
    + rewrite lookup_app_r by lia. rewrite length_padded in Ho. destruct (div512 (length data)).
      rewrite lookup_replicate_2 by lia. f_equal.
      assert (o / 512 = length data / 512)%nat as Hq by (symmetry; apply (Nat.div_unique _ _ _ (o - 512 * (length data / 512))); lia).
      assert (length data / 512 < 140)%nat as Hlt by (rewrite length_padded in Hmax; lia).
      apply Hz; rewrite ?Hq; [lia|done|]. apply He; [done|lia].
  - rewrite !lookup_ge_None_2; [done|lia|rewrite length_fdata, Hsz'; lia].
Qed.
End round.

(** ** The image *)
Definition built_files (files : list (list Z * option (list Z))) : list (Z * list Z) :=
  (T_DIR, padded (root_data files)) :: fmap (λ f, (T_FILE, default [] f.2)) files.
(** Files are numbered from 1 on. *)
Definition file_at (img : list block) (n : nat) : inode := ino (Z.of_nat (S n)) (dnode img (Z.of_nat (S n))).

Record built (img : list block) (files : list (list Z * option (list Z))) : Prop := {
  bt_log : log_image img 1014 10;
  bt_head : img !! 1014%nat = Some zeroes;
  bt_disk : disk_ok (take 1014 img) sb0;
  bt_files n t data : built_files files !! n = Some (t, data) →
    i_type (file_at img n) = t ∧ i_nlink (file_at img n) = 1 ∧
    file_ok (take 1014 img) sb0 (file_at img n) ∧ fdata (take 1014 img) (file_at img n) = data;
  bt_free k : Z.of_nat (S (length files)) < k < 200 → di_type (dnode img k) = 0;
  bt_disj n m a : (n ≤ length files)%nat → (m ≤ length files)%nat →
    owned (take 1014 img) (file_at img n) a → owned (take 1014 img) (file_at img m) a → n = m;
  bt_used b : 0 ≤ b < 1024 → blk_used (take 1014 img) sb0 b = (b <? total (image_files files)) }.

Lemma wp_zero_blocks k m fi f Q :
  Q tt (st (replicate (k + m) zeroes) f fi) →
  wp (mfor (seqZ (Z.of_nat k) (Z.of_nat m)) (λ i, wsect i zeroes)) Q (st (replicate k zeroes) f fi).
Proof.
  revert k. induction m as [|m IH]; intros k HQ.
  { cbn. wstep. by rewrite Nat.add_0_r in HQ. }
  rewrite seqZ_cons by lia. cbn [mfor]. unfold wsect at 1. wstep. unfold set_img. cbn [mk_img mk_freeblock mk_usedblocks mk_freeinode].
  rewrite length_replicate, (proj2 (Z.ltb_ge _ _)) by lia.
  rewrite Nat2Z.id, Nat.sub_diag. cbn [replicate app]. rewrite <- replicate_S_end.
  replace (Z.succ (Z.of_nat k)) with (Z.of_nat (S k)) by lia. replace (Z.pred (Z.of_nat (S m))) with (Z.of_nat m) by lia.
  apply IH. by rewrite Nat.add_succ_comm.
Qed.
Lemma empty_image : mk_ok (<[1%nat := sb_block]> (replicate 1024 zeroes)) 29 [].
Proof.
  assert (block_wf sb_block) as Hsb.
  { split; [reflexivity|]. apply Forall_splice; [apply zeroes_wf|]. unfold enc_superblock. rewrite !Forall_app.
    split_and!; apply le_enc_bytes. }
  set (v := <[1%nat := sb_block]> (replicate 1024 zeroes)).
  assert (∀ k, (1 < k < 1024)%nat → v !! k = Some zeroes) as Hz.
  { intros k Hk. unfold v. rewrite list_lookup_insert_ne by lia. apply lookup_replicate_2. lia. }
  refine (Build_mk_ok _ _ _ _ _ _ _ _ _).
  - refine (Build_base _ _ _ _ _ _ _).
    + apply Forall_insert; [|done]. apply Forall_replicate, zeroes_wf.
    + unfold v. by rewrite length_insert, length_replicate.
    + unfold v. apply list_lookup_insert_eq. rewrite length_replicate. lia.
    + lia.
    + intros k Hk Hlt. apply Hz. lia.
  - cbn. lia.
  - done.
  - done.
  - intros k Hk. cbn [length] in Hk. pose proof (i2b_range k ltac:(lia)). unfold dnode. change IBLOCK with i2b.
    pose proof (Hz (Z.to_nat (i2b k)) ltac:(lia)) as Hzk. rewrite (list_lookup_total_correct _ _ _ Hzk).
    pose proof (ipb_lt k ltac:(lia)) as Hl. revert Hl. generalize (Z.to_nat (k mod IPB)). intros j Hl. do 8 (destruct j as [|j]; [reflexivity|]). lia.
  - intros n m a Hn. cbn [length] in Hn. lia.
Qed.

(** The image after the root directory has been rounded up and the bitmap written. *)
(** The superblock and the empty log. *)
Lemma image_log v f : base v f → let img := <[28%nat := bitmap f]> v in
  log_image img 1014 10 ∧ img !! 1014%nat = Some zeroes.
Proof.
  intros Hb img. pose proof (b_free _ _ Hb) as Hf. assert (img !! 1014%nat = Some zeroes) as Hhead.
  { unfold img. rewrite list_lookup_insert_ne by lia. apply Hb; lia. }
  assert (length img = 1024%nat) as Hlen by (unfold img; by rewrite length_insert, (b_len _ _ Hb)).
  split; [|done]. split; [| |lia|lia|lia|lia|].
  - apply Forall_insert; [apply Hb|apply bitmap_wf].
  - exists sb_block. unfold img. rewrite list_lookup_insert_ne by lia. split; [apply Hb|done].
  - exists zeroes. split; [done|]. split; [done|]. intros j Hj. change (get_loghead_n zeroes) with 0 in Hj. lia.
Qed.

Lemma built_image v f files :
  mk_ok v f (image_files files) → ((2 + length files) mod 32 ≠ 0)%nat → f ≤ 1014 → (length files < 199)%nat →
  let d' := di_set_size (Z.of_nat (length (padded (root_data files)))) (dnode v 1) in
  built (<[28%nat := bitmap f]> (put_inode v 1 d')) files.
Proof.
  intros Hm Hmod Hfmax Hcount d'. pose proof (mo_base _ _ _ Hm) as Hb. pose proof (length_root_data files) as Hrl.
  pose proof (mo_files _ _ _ Hm 0 T_DIR (root_data files) eq_refl) as Hio. change (Z.of_nat 1) with 1 in Hio.
  assert (length (root_data files) mod 512 ≠ 0)%nat as Hmod'.
  { rewrite Hrl. change 512%nat with (16 * 32)%nat. rewrite Nat.Div0.mul_mod_distr_l.
    set (m := ((2 + length files) mod 32)%nat) in *. lia. }
  pose proof (length_padded (root_data files)) as Hpl. destruct (div512 (length (root_data files))) as [Hq Hr].
  assert (Z.of_nat (length (padded (root_data files))) ≤ 71680) as Hpmax by lia.
  pose proof (round_file v f 1 T_DIR _ Hio Hmod' Hpmax) as Hrf. pose proof (round_data v f 1 T_DIR _ Hio Hmod' Hpmax) as Hrd.
  fold d' in Hrf, Hrd. pose proof Hio as [(addrs & Hdn) _ _ _ _].
  assert (dinode_wf d') as Hwf.
  { unfold d'. rewrite Hdn. pose proof (addrs_u32 v f 1 _ Hb (io_file _ _ _ _ _ Hio)) as Hau.
    pose proof (fo_addrs _ _ _ (io_file _ _ _ _ _ Hio)) as Hal. rewrite Hdn in Hau, Hal.
    unfold dinode_wf. cbn [di_set_size di_type di_major di_minor di_nlink di_size di_addrs].
    split_and!; [done..|unfold is_u32; lia|done|done]. }
  set (v' := put_inode v 1 d'). assert (base v' f) as Hb' by (by apply put_base). set (img := <[28%nat := bitmap f]> v').
  assert (take 1014 img = view v' f) as Hview by done.
  assert (∀ k, 0 ≤ k < 200 → dnode img k = if decide (k = 1) then d' else dnode v k) as Hdnode.
  { intros k Hk. pose proof (i2b_range k Hk). rewrite <- (dnode_put v f 1 d' Hb) by done. unfold dnode, img. change IBLOCK with i2b.
    by rewrite list_lookup_total_insert_ne by lia. }
  assert (length (image_files files) = S (length files)) as Hlf by (unfold image_files; cbn; by rewrite length_fmap).
  assert (∀ n, (n ≤ length files)%nat → file_ok (view v f) sb0 (file_at img n) ∧
     ∀ a, owned (view v f) (file_at img n) a → owned (view v f) (ino (Z.of_nat (S n)) (dnode v (Z.of_nat (S n)))) a) as Hfiles.
  { intros n Hn. unfold file_at. rewrite Hdnode by lia. destruct (decide (Z.of_nat (S n) = 1)) as [He|He].
    - rewrite He. by split.
    - destruct (lookup_lt_is_Some_2 (image_files files) n) as [[t data] Hl]; [lia|].
      split; [by apply (mo_files _ _ _ Hm n t data)|done]. }
  split; rewrite ?Hview.
  - by apply image_log.
  - by apply image_log.
  - by apply view_disk_ok.
  - intros n t data Hn. assert (n ≤ length files)%nat as Hle.
    { apply lookup_lt_Some in Hn. unfold built_files in Hn. cbn in Hn. rewrite length_fmap in Hn. lia. }
    destruct (Hfiles n Hle) as [Hf _]. unfold file_at in *. rewrite Hdnode in * by lia.
    unfold v'. rewrite put_fdata by done. destruct n as [|n].
    + injection Hn as <- <-. change (Z.of_nat 1) with 1 in *. cbn [decide] in *. rewrite decide_True in * by done.
      split_and!; [by unfold d'; rewrite Hdn..|by apply put_file|done].
    + rewrite decide_False in * by lia. destruct (mo_files _ _ _ Hm (S n) t data Hn) as [(ad & Hd) ? ? ? ?].
      split_and!; [by rewrite Hd..|by apply put_file|done].
  - intros k Hk. rewrite Hdnode, decide_False by lia. rewrite (mo_rest _ _ _ Hm) by lia. done.
  - intros n m a Hn Hml Hon Hom. destruct (Hfiles n Hn) as [Hf1 Ho1], (Hfiles m Hml) as [Hf2 Ho2].
    apply (put_owned v f 1 d') in Hon; [|done..]. apply (put_owned v f 1 d') in Hom; [|done..].
    apply (mo_disj _ _ _ Hm n m a); [lia..|by apply Ho1|by apply Ho2].
  - intros b Hr'. rewrite view_used by done. by rewrite (mo_blocks _ _ _ Hm).
Qed.

Lemma wp_mkfs_main files :
  Forall file_fits files → (length files < 199)%nat → ((2 + length files) mod 32 ≠ 0)%nat →
  total (image_files files) ≤ 1014 →
  wp (mkfs_main files) (λ _ s', built (mk_img s') files) mkfs0.
Proof.
  intros Hfit Hcount Hmod Hroom. unfold mkfs_main. wstep. cbn [mk_img mk_freeblock mk_usedblocks mk_freeinode mkfs0].
  change (nblocks + usedblocks0 + nlog =? img_size) with true. cbn [negb]. change usedblocks0 with 29.
  change (nblocks + 29 + nlog) with (Z.of_nat 1024). wstep1. apply (wp_zero_blocks 0 1024). change (0 + 1024)%nat with 1024%nat.
  wstep1. apply wp_wsect; [rewrite length_replicate; lia|]. change (Z.to_nat 1) with 1%nat. fold sb_block.
  pose proof empty_image as Hm0. set (v0 := <[1%nat := sb_block]> (replicate 1024 zeroes)) in *.
  wstep1. eapply wp_mono; [apply (wp_mkfs_ialloc v0 29 [] T_DIR Hm0); [cbn; lia|by left]|].
  intros inum s1 (-> & v1 & -> & Hm1). change (Z.of_nat (S (length [])) =? ROOTINO) with true. cbn [negb].
  assert (∀ l, In l [cs "."; cs ".."] → Forall is_byte (mk_dirent 1 l)) as Hbytes.
  { intros l Hl. apply mk_dirent_bytes. destruct Hl as [<-|[<-|[]]]; by repeat constructor. }
  change (Z.of_nat (S (length []))) with (Z.of_nat (S 0)). change (Z.of_nat 1) with 1 at 2 4.
  wstep1. eapply wp_mono; [apply (wp_iappend v1 29 _ _ 0 T_DIR [] (mk_dirent 1 (cs ".")) Hm1); rewrite ?length_mk_dirent|];
    [done|done|by apply Hbytes; left|done|done|].
  intros [] s2 (v2 & f2 & -> & Hm2). pose proof (mo_blocks _ _ _ Hm2) as Hf2. change (total _) with 30 in Hf2. subst f2.
  wstep1. eapply wp_mono; [apply (wp_iappend v2 30 _ _ 0 T_DIR (mk_dirent 1 (cs ".")) (mk_dirent 1 (cs "..")) Hm2); rewrite ?length_mk_dirent|];
    [done|done|by apply Hbytes; right; left|done|done|].
  intros [] s3 (v3 & f3 & -> & Hm3).
  assert (mk_ok v3 f3 (image_files [])) as Hm3' by exact Hm3.
  wstep1. eapply wp_mono; [apply (wp_store_files v3 f3 [] files Hm3' Hfit Hcount Hroom)|].
  intros [] s4 (v4 & f4 & -> & Hm4). cbn [app] in Hm4. pose proof (mo_blocks _ _ _ Hm4) as Hf4.
  pose proof (mo_files _ _ _ Hm4 0 T_DIR (root_data files) eq_refl) as [(addrs & Hdn) _ _ _ _].
  wstep1. apply wp_rinode; [apply Hm4|lia|]. cbv zeta. change (Z.of_nat 1) with 1 in *.
  pose proof (length_root_data files) as Hrl. pose proof (length_padded (root_data files)) as Hpl.
  destruct (div512 (length (root_data files))) as [Hq _].
  assert (xint (di_size (dnode v4 1)) = Z.of_nat (length (root_data files))) as Hsz.
  { rewrite Hdn. cbn [di_size]. apply xint_id. unfold is_u32. lia. }
  change ROOTINO with 1 in *. rewrite Hsz. change BSIZE with 512.
  assert ((Z.of_nat (length (root_data files)) / 512 + 1) * 512 = Z.of_nat (length (padded (root_data files)))) as ->.
  { rewrite Hpl, Nat2Z.inj_mul, Nat2Z.inj_add, Nat2Z.inj_div. lia. }
  rewrite u32_small, xint_id by (unfold is_u32; lia).
  wstep1. apply wp_winode; [apply Hm4|lia|]. wstep1. apply wp_gets. cbn [id mk_usedblocks].
  unfold mkfs_balloc. rewrite (proj2 (Z.ltb_lt _ _)) by lia. cbn [negb].
  change (ninodes / IPB + 3) with 28. fold (bitmap f4). apply wp_wsect.
  - unfold put_inode. rewrite length_insert, (b_len _ _ (mo_base _ _ _ Hm4)). lia.
  - apply built_image; [done|done|lia|done].
Qed.

(** C13: mkfs builds a file system the kernel accepts.  When the files fit - names
    without '/', at most 140 blocks each, at most 198 files, all blocks below the
    log, and the directory not an exact number of blocks - mkfs finishes without a
    failed assertion, and the image has the superblock and the empty log that
    boot expects, satisfies the file system's invariant, holds each file with its
    contents and the root directory with the names in order, marks exactly the
    blocks handed out as used, shares no block between files, and leaves the other
    inodes free. *)
Theorem mkfs_correct files :
  Forall file_fits files → (length files < 199)%nat → ((2 + length files) mod 32 ≠ 0)%nat →
  total (image_files files) ≤ 1014 →
  wp (mkfs_main files) (λ _ s', built (mk_img s') files) mkfs0.
Proof. exact (wp_mkfs_main files). Qed.

(** One file on the command line. *)
Definition hello_files : list (list Z * option (list Z)) := [(cs "_cat", Some (cs "hello"))].
Lemma hello_fits : Forall file_fits hello_files ∧ (length hello_files < 199)%nat ∧
  ((2 + length hello_files) mod 32 ≠ 0)%nat ∧ total (image_files hello_files) ≤ 1014.
Proof.
  split_and!; [|cbn; lia|done|vm_compute; congruence].
  repeat constructor; cbn; try lia; [by apply (bool_decide_unpack _)|]. exists (cs "hello"). split; [done|].
  split; [repeat constructor; cbn; lia|done].
Qed.

Lemma mkfs_correct_witness :
  ∃ s, mkfs_main hello_files mkfs0 = Ok tt s ∧ fdata (take 1014 (mk_img s)) (file_at (mk_img s) 1) = cs "hello".
Proof.
  destruct hello_fits as (H1 & H2 & H3 & H4).
  destruct (wp_run _ _ _ (mkfs_correct hello_files H1 H2 H3 H4)) as ([] & s & Hr & Hb). exists s. split; [exact Hr|].
  exact (proj2 (proj2 (proj2 (bt_files _ _ Hb 1 T_FILE (cs "hello") eq_refl)))).
Defined.
