(* ===== verification/MkfsBoot.v ===== *)
(** * From mkfs to a booted kernel

    The image of mkfs is a consistent file system; after boot, the kernel finds
    each file of the command line under its name and reads its contents. *)
From stdpp Require Import base list gmap numbers option strings sets.
From Stdlib Require Import ZArith Lia.
From S2P Require Import Prelude Kstring Layout Bio BioSpec BlockStore Log LogSpec Commit.
From S2P Require Import Fs FsTx FsBlocks FsInode FsBmap FsRead FsWrite FsExample FsTheorems FsDir FsPath.
From S2P Require Import Mkfs MkfsSpec MkfsFiles MkfsMain.
Open Scope Z_scope.

(** What the open and read of a file do with its inode: look it up and lock it,
    then read the first [n] bytes. *)
Definition read_path {BS : BlockStore} (devsw : devsw_t (fstate BS)) (cwd : nat) (path : list Z) (n : Z)
  : M (fstate BS) (option (Z * list Z)) :=
  ip <- namei devsw cwd path ;;
  match ip with
  | None => ret None
  | Some ip => ilock ip ;;; r <- readi devsw ip 0 n ;; ret (Some r)
  end.

(** ** The root directory *)
Definition root_entries (files : list (list Z * option (list Z))) : list dirent :=
  mkDirent 1 (strncpy (cs ".") 14) :: mkDirent 1 (strncpy (cs "..") 14) ::
  imap (λ n f, mkDirent (Z.of_nat (S (S n))) (strncpy (skip_underscore f.1) 14)) files.

Lemma entries_concat l z :
  Forall (λ de, is_u16 (de_inum de) ∧ length (de_name de) = 14%nat) l → Forall (eq 0) z →
  ∃ m, entries (concat (enc_dirent <$> l) ++ z) = l ++ replicate m (dec_dirent (replicate 16 0)).
Proof.
  intros Hl Hz. exists (length z / 16)%nat. induction Hl as [|de l [Hu Hn] Hl IH].
  - cbn [fmap list_fmap concat app]. apply list_eq. intros k.
    destruct (decide (k < length z / 16)%nat) as [Hk|Hk].
    + rewrite lookup_entries, lookup_replicate_2 by done. unfold dir_entry. do 2 f_equal.
      assert (16 * k + 16 ≤ length z)%nat as Hle.
      { pose proof (Nat.Div0.mul_div_le (length z) 16). lia. }
      apply list_eq_Forall2, Forall2_same_length_lookup. unfold slice. split.
      { rewrite length_take, length_drop, length_replicate. lia. }
      intros i x y Hx Hy. apply lookup_replicate in Hy as [-> _]. apply lookup_take_Some in Hx as [Hx _].
      rewrite lookup_drop in Hx. symmetry. exact (Forall_lookup_1 _ _ _ _ Hz Hx).
    + rewrite !lookup_ge_None_2; [done|rewrite length_replicate; lia|rewrite length_entries; lia].
  - cbn [fmap list_fmap concat]. pose proof (length_enc_dirent de Hn) as He.
    set (r := concat (enc_dirent <$> l) ++ z) in *. rewrite <- app_assoc. fold r. cbn [app]. rewrite <- IH.
    assert (length (enc_dirent de ++ r) = (1 * 16 + length r)%nat) as Hlen by (rewrite length_app; lia).
    unfold entries. rewrite Hlen, Nat.div_add_l by done. cbn [Nat.add seq]. rewrite fmap_cons. f_equal.
    + unfold dir_entry, slice. change (16 * 0)%nat with 0%nat. rewrite drop_0, take_app_length' by done.
      by apply dec_enc_dirent.
    + rewrite <- fmap_S_seq, <- list_fmap_compose. apply list_fmap_ext. intros i k _. unfold dir_entry, slice, compose.
      replace (16 * S k)%nat with (length (enc_dirent de) + 16 * k)%nat by lia. by rewrite drop_app_add.
Qed.

Lemma root_data_entries files : (length files < 199)%nat →
  root_data files = concat (enc_dirent <$> root_entries files).
Proof.
  intros Hn. unfold root_data, root_entries. rewrite !fmap_cons, fmap_imap. cbn [concat]. do 3 f_equal.
  apply imap_ext. intros i f Hi. apply lookup_lt_Some in Hi. unfold entry, mk_dirent, compose. do 2 f_equal.
  unfold xshort. rewrite le_dec_enc. apply Z.mod_small. cbn. lia.
Qed.

(** ** The image as a file system *)
Section image.
Context (img : list block) (files : list (list Z * option (list Z))).
Context (Hbt : built img files) (Hcount : (length files < 199)%nat).
Abbreviation v := (take 1014 img).

Lemma dnode_home k : 0 ≤ k < 200 → dnode v k = dnode img k.
Proof.
  intros Hk. pose proof (i2b_range k Hk) as Hr. unfold dnode. change IBLOCK with i2b.
  by rewrite !list_lookup_total_alt, lookup_take_lt by lia.
Qed.
Lemma built_file n : (n ≤ length files)%nat → ∃ t data,
  built_files files !! n = Some (t, data) ∧ (t = if decide (n = 0%nat) then T_DIR else T_FILE) ∧
  di_type (dnode v (Z.of_nat (S n))) = t ∧ di_nlink (dnode v (Z.of_nat (S n))) = 1 ∧
  file_ok v sb0 (inode_at v (Z.of_nat (S n))) ∧ fdata v (inode_at v (Z.of_nat (S n))) = data.
Proof.
  intros Hn. destruct (lookup_lt_is_Some_2 (built_files files) n) as [[t data] Hl].
  { unfold built_files. cbn [length]. rewrite length_fmap. lia. }
  exists t, data. split; [done|]. split.
  - destruct n as [|n]; [by injection Hl as <- _|]. apply list_lookup_fmap_Some in Hl as (f & [= -> _] & _). done.
  - unfold inode_at. rewrite dnode_home by lia. by apply (bt_files _ _ Hbt).
Qed.
Lemma in_use_range k : in_use v sb0 k ↔ 1 ≤ k ≤ Z.of_nat (S (length files)).
Proof.
  split.
  - intros [Hk Ht]. change (sb_ninodes sb0) with 200 in Hk. split; [lia|].
    destruct (Z.le_gt_cases k (Z.of_nat (S (length files)))) as [|Hgt]; [done|]. destruct Ht.
    rewrite dnode_home by lia. apply (bt_free _ _ Hbt). lia.
  - intros Hk. split; [change (sb_ninodes sb0) with 200; lia|].
    destruct (built_file (Z.to_nat (k - 1))) as (t & d & _ & Hv & Ht & _); [lia|].
    replace (Z.of_nat (S (Z.to_nat (k - 1)))) with k in Ht by lia. rewrite Ht, Hv. by case_decide.
Qed.

Lemma root_dir : ∃ m, dir_at v 1 = root_entries files ++ replicate m (dec_dirent (replicate 16 0)).
Proof.
  destruct (built_file 0) as (t & d & Hl & _ & _ & _ & _ & Hd); [lia|]. injection Hl as _ <-.
  unfold dir_at. change (Z.of_nat 1) with 1 in Hd. rewrite Hd. unfold padded. rewrite root_data_entries by done.
  apply entries_concat; [|by apply Forall_replicate]. unfold root_entries. rewrite !Forall_cons.
  split_and!; [done..|]. apply Forall_lookup. intros i de Hi. apply list_lookup_imap_Some in Hi as (f & Hf & ->).
  apply lookup_lt_Some in Hf. cbn [de_inum de_name]. split; [unfold is_u16; lia|apply length_strncpy].
Qed.

Lemma built_fs_ok : fs_ok v sb0.
Proof.
  assert (∀ k, in_use v sb0 k → ∃ n, k = Z.of_nat (S n) ∧ (n ≤ length files)%nat) as Hnum.
  { intros k Hk%in_use_range. exists (Z.to_nat (k - 1)). lia. }
  assert (∀ k, in_use v sb0 k → di_type (dnode v k) = T_DIR → k = 1) as Hdir.
  { intros k Hk Ht. destruct (Hnum k Hk) as (n & -> & Hn). destruct (built_file n Hn) as (t & d & _ & Hv & Ht' & _).
    rewrite Ht', Hv in Ht. by case_decide; [subst n|]. }
  split.
  - apply Hbt.
  - intros k Hk. change (sb_ninodes sb0) with 200 in Hk. pose proof (i2b_range k ltac:(lia)).
    change (IBLOCK k) with (i2b k). pose proof (lm_size _ _ _ (bt_log _ _ Hbt)).
    apply lookup_lt_is_Some. rewrite length_take. lia.
  - apply in_use_range. change ROOTINO with 1. lia.
  - intros k Hk. destruct (Hnum k Hk) as (n & -> & Hn). destruct (built_file n Hn) as (t & d & _ & _ & _ & Hl & Hf & _).
    split; [done|]. by rewrite Hl.
  - intros k Hk Ht. rewrite (Hdir k Hk Ht). destruct (built_file 0) as (t & d & Hl & _ & _ & _ & Hf & Hd); [lia|].
    injection Hl as _ <-. pose proof (length_fdata v (inode_at v 1)) as Hlen. change (Z.of_nat 1) with 1 in *.
    rewrite Hd, length_padded in Hlen. change (i_size (inode_at v 1)) with (di_size (dnode v 1)) in Hlen.
    pose proof (fo_size _ _ _ Hf) as Hs. change (i_size (inode_at v 1)) with (di_size (dnode v 1)) in Hs.
    exists (32 * (length (root_data files) / 512 + 1))%nat. lia.
  - intros k de Hk Ht Hin Hne. rewrite (Hdir k Hk Ht) in Hin. destruct root_dir as [m Hm]. rewrite Hm in Hin.
    apply in_use_range. apply elem_of_app in Hin as [Hin|Hin].
    + apply list_elem_of_lookup in Hin as [[|[|i]] Hi]; [injection Hi as <-; cbn; lia..|].
      apply list_lookup_imap_Some in Hi as (f & Hf & ->). apply lookup_lt_Some in Hf. cbn [de_inum]. lia.
    + apply elem_of_replicate in Hin as [-> _]. done.
Qed.
End image.

(** ** Reading a file after boot *)
(** Names agree as directory entries: up to DIRSIZ characters. *)
Definition same_name (a b : list Z) : Prop := take 14 (cstr a) = take 14 (cstr b).

(** File [n] of the command line is the first one with the name [e]. *)
Record named (files : list (list Z * option (list Z))) (n : nat) (e data : list Z) : Prop := {
  nd_file : ∃ nm, files !! n = Some (nm, Some data) ∧ e = skip_underscore nm;
  nd_name : e ≠ [] ∧ Forall (λ c, c ≠ 0) e;
  nd_dot : ¬ same_name e (cs ".") ∧ ¬ same_name e (cs "..");
  nd_first m f : (m < n)%nat → files !! m = Some f → ¬ same_name e (skip_underscore f.1) }.

Lemma names_strncpy e i x : i ≠ 0 → names e (mkDirent i (strncpy x 14)) ↔ same_name e x.
Proof.
  intros Hi. unfold names, same_name. cbn [de_inum de_name]. rewrite namecmp_zero.
  pose proof (namecmp_strncpy x) as Hx. rewrite namecmp_zero in Hx. rewrite <- Hx. naive_solver.
Qed.

Lemma components_single e : e ≠ [] → Forall (λ c, c ≠ 0 ∧ c ≠ SLASH) e → components (SLASH :: e) = [e].
Proof.
  intros Hne He. rewrite components_slash. unfold components. assert (words e = (e, [])) as ->.
  { clear Hne. induction He as [|c e [H0 H1] He IH]; [done|]. cbn [words].
    by rewrite (proj2 (Z.eqb_neq c 0)), (proj2 (Z.eqb_neq c SLASH)), IH by done. }
  cbn [fst snd]. by destruct e.
Qed.

Lemma find_file img files n e data :
  built img files → (length files < 199)%nat → named files n e data →
  list_find (names e) (dir_at (take 1014 img) 1)
  = Some (S (S n), mkDirent (Z.of_nat (S (S n))) (strncpy e 14)).
Proof.
  intros Hbt Hc [(nm & Hnm & He) _ [Hd1 Hd2] Hfirst]. destruct (root_dir img files Hbt Hc) as [m ->].
  assert (root_entries files !! S (S n) = Some (mkDirent (Z.of_nat (S (S n))) (strncpy e 14))) as Hl.
  { apply list_lookup_imap_Some. exists (nm, Some data). by rewrite He. }
  apply list_find_app_Some. left. apply list_find_Some. split_and!; [done|by apply names_strncpy|].
  intros [|[|j]] de Hj Hlt.
  - replace de with (mkDirent 1 (strncpy (cs ".") 14)) by (by injection Hj). by rewrite names_strncpy.
  - replace de with (mkDirent 1 (strncpy (cs "..") 14)) by (by injection Hj). by rewrite names_strncpy.
  - apply list_lookup_imap_Some in Hj as (f & Hf & ->). rewrite names_strncpy by lia. apply (Hfirst j); [lia|done].
Qed.

Lemma wp_boot img files Q :
  built img files →
  (∀ b, store_ok (take 1014 img) b → Q tt b) →
  wp (io binit ;;; initlog) Q (mkL (bio0 img) log0).
Proof.
  intros Hbt HQ. pose proof (bt_log _ _ Hbt) as Hlog. apply wp_bind, wp_io. eapply wp_mono; [apply binit_spec, Hlog|].
  intros [] b (Hb & Hh & Hd & _ & Hk & Hp). eapply wp_mono; [by apply wp_initlog|].
  intros [] s (Hinv & _ & Habs & _). apply HQ.
  assert (recovered 1014 img = take 1014 img) as Hrec.
  { unfold recovered, disk_log. by rewrite (bt_head _ _ Hbt). }
  rewrite Hrec in Habs. split.
  - exact Hinv.
  - unfold vw. cbn [bs_abs log_store]. by rewrite Habs.
  - unfold hd. cbn [bs_abs log_store]. by rewrite Habs.
  - unfold psecs. cbn [bs_abs log_store]. rewrite Habs. cbn. rewrite size_empty, NBUF_eq. lia.
Qed.

Lemma two_free_icache0 : two_free icache0.
Proof. by exists 0%nat, 1%nat, inode0, inode0. Qed.
Lemma icache0_ok {BS : BlockStore} sb v : Forall (entry_ok sb v false) icache0.
Proof. apply Forall_replicate. split; [done|]. by intros. Qed.

(** Reading the file that [path] leads to, all of its bytes. *)
Lemma wp_read_path {BS : BlockStore} sb (devsw : devsw_t (fstate BS)) v s cwd path n m :
  fs_ok v sb → store_ok v (f_store s) → Forall (entry_ok sb v false) (f_icache s) → two_free (f_icache s) →
  starts_at (f_icache s) cwd path n → resolve v false n (components path) = Some m →
  di_type (dnode v m) ≠ T_DEV →
  let data := fdata v (inode_at v m) in
  wp (read_path devsw cwd path (Z.of_nat (length data)))
    (λ r _, r = Some (Z.of_nat (length data), data)) s.
Proof.
  intros Hfs Hst Hc Hfree Hstart Hres Ht data. unfold read_path, namei. wstep1. wstep1.
  eapply (wp_namex sb devsw v Hfs); [done..|]. intros r b1 c1 S1 Hw. unfold walked in Hw. rewrite Hres in Hw.
  destruct Hw as (ip & Hr & Hls & Hu & _). wstep1. rewrite Hr. wstep1.
  pose proof (store_ok_same _ _ _ Hst S1) as Hst1.
  eapply (wp_ilock_leased sb v Hfs); [done|done|left|]. intros b2 c2 S2 Hls2.
  destruct (leased_locked _ _ _ _ _ _ m Hls2) as (x & Hx & Hip); [left|].
  pose proof (store_ok_same _ _ _ Hst1 S2) as Hst2.
  pose proof (locked_ro sb v Hfs (mkF b2 c2) ip m x Hst2 Hip Hu) as Hro.
  destruct (fk_file _ _ Hfs m Hu) as [Hf _]. pose proof (fo_size _ _ _ Hf) as Hs.
  change (MAXFILE * BSIZE) with 71680 in Hs. pose proof (length_fdata v (inode_at v m)) as Hlen. fold data in Hlen.
  change (i_size (inode_at v m)) with (di_size (dnode v m)) in *.
  wstep1. eapply (wp_readi sb devsw _ ip (locked_inode v m x)); [done|done| |lia|lia|].
  { change (i_size (locked_inode v m x)) with (di_size (dnode v m)). lia. }
  intros b3 _. cbv zeta. wstep1. cbn [f_store]. rewrite (so_view _ _ Hst2).
  change (i_size (locked_inode v m x)) with (di_size (dnode v m)).
  change (fdata v (locked_inode v m x)) with data. rewrite Z.min_l by lia. do 2 f_equal.
  unfold slice. rewrite drop_0. apply take_ge. lia.
Qed.

(** C4: from the host to a running kernel.  For every file that fits, mkfs builds
    an image on which the kernel boots; looking the file up by its name (the first
    one of the command line with that name, a leading underscore dropped) and
    reading it gives back exactly its bytes. *)
Theorem mkfs_boot_read devsw cwd files n e data :
  Forall file_fits files → (length files < 199)%nat → ((2 + length files) mod 32 ≠ 0)%nat →
  total (image_files files) ≤ 1014 → named files n e data →
  wp (mkfs_main files) (λ _ m,
    wp (io binit ;;; initlog) (λ _ b,
      wp (read_path devsw cwd (SLASH :: e) (Z.of_nat (length data)))
        (λ r _, r = Some (Z.of_nat (length data), data)) (mkF b icache0))
      (mkL (bio0 (mk_img m)) log0)) mkfs0.
Proof.
  intros Hfit Hcount Hmod Htot Hnd. eapply wp_mono; [by apply wp_mkfs_main|]. intros [] m Hbt. cbv beta in Hbt.
  eapply wp_boot; [done|]. intros b Hst. pose proof (built_fs_ok _ _ Hbt Hcount) as Hfs.
  pose proof Hnd as [(nm & Hnm & He) [Hne Hnz] _ _]. pose proof (lookup_lt_Some _ _ _ Hnm) as Hlt.
  destruct (built_file _ _ Hbt Hcount (S n)) as (t & d & Hl & Ht & Hty & _ & _ & Hd); [lia|].
  assert (d = data) as ->.
  { apply list_lookup_fmap_Some in Hl as (f & [= _ ->] & Hf). by rewrite Hnm in Hf; injection Hf as <-. }
  assert (Forall (λ c, c ≠ 0 ∧ c ≠ SLASH) e) as Hes.
  { apply Forall_and. split; [done|]. apply Forall_forall. intros c Hc ->.
    destruct (Forall_lookup_1 _ _ _ _ Hfit Hnm) as [Hs _]. cbn in Hs. destruct Hs. rewrite He in Hc.
    unfold skip_underscore in Hc. repeat case_match; subst; try done; by right. }
  rewrite <- Hd. eapply (wp_read_path sb0 _ _ _ _ _ ROOTINO); [done|done|apply icache0_ok|apply two_free_icache0|done| |].
  - rewrite components_single by done. cbn [resolve]. change ROOTINO with (Z.of_nat 1).
    destruct (built_file _ _ Hbt Hcount 0) as (t0 & d0 & _ & Ht0 & Hty0 & _); [lia|]. rewrite Hty0, Ht0.
    cbn [negb Z.eqb]. change (Z.of_nat 1) with 1. rewrite (find_file _ _ n e data) by done. done.
  - rewrite Hty, Ht. done.
Qed.

Lemma hello_named : named hello_files 0 (cs "cat") (cs "hello").
Proof.
  split.
  - by exists (cs "_cat").
  - split; [done|]. repeat constructor; done.
  - split; intros H; vm_compute in H; congruence.
  - intros m f Hm. lia.
Qed.

Lemma mkfs_boot_read_witness :
  ∃ m b s, mkfs_main hello_files mkfs0 = Ok tt m ∧ (io binit ;;; initlog) (mkL (bio0 (mk_img m)) log0) = Ok tt b ∧
    read_path no_dev 0 (SLASH :: cs "cat") (Z.of_nat (length (cs "hello"))) (mkF b icache0)
    = Ok (Some (Z.of_nat (length (cs "hello")), cs "hello")) s.
Proof.
  destruct hello_fits as (H1 & H2 & H3 & H4).
  destruct (wp_run _ _ _ (mkfs_boot_read no_dev 0 hello_files 0 (cs "cat") (cs "hello") H1 H2 H3 H4 hello_named))
    as ([] & m & Hm & Hw).
  destruct (wp_run _ _ _ Hw) as ([] & b & Hb & Hw'). destruct (wp_run _ _ _ Hw') as (r & s & Hs & Hr).
  exists m, b, s. split; [exact Hm|]. split; [exact Hb|]. rewrite Hr in Hs. exact Hs.
Defined.

Lemma namex_correct_witness :
  ∃ m b r s, mkfs_main hello_files mkfs0 = Ok tt m ∧ (io binit ;;; initlog) (mkL (bio0 (mk_img m)) log0) = Ok tt b ∧
    namex no_dev 0 (cs "/cat/x") true (replicate 14 0) (mkF b icache0) = Ok (None, r) s.
Proof.
  destruct hello_fits as (H1 & H2 & H3 & H4).
  destruct (wp_run _ _ _ (wp_mkfs_main hello_files H1 H2 H3 H4)) as ([] & m & Hm & Hbt). cbv beta in Hbt.
  destruct (wp_run _ _ _ (wp_boot (mk_img m) hello_files (λ _ b, store_ok (take 1014 (mk_img m)) b) Hbt (λ b H, H)))
    as ([] & b & Hb & Hst).
  pose proof (built_fs_ok _ _ Hbt H2) as Hfs.
  assert (resolve (take 1014 (mk_img m)) true 1 (components (cs "/cat/x")) = None) as Hres.
  { change (components (cs "/cat/x")) with [cs "cat"; cs "x"].
    destruct (built_file _ _ Hbt H2 0) as (t0 & d0 & _ & Ht0 & Hty0 & _); [cbn; lia|].
    destruct (built_file _ _ Hbt H2 1) as (t1 & d1 & _ & Ht1 & Hty1 & _); [cbn; lia|].
    change (Z.of_nat 1) with 1 in Hty0. rewrite Ht0 in Hty0. rewrite Ht1 in Hty1.
    rewrite (resolve_step _ true 1 _ _ Hty0) by done. rewrite (find_file _ _ 0 _ _ Hbt H2 hello_named).
    cbn [mbind option_bind snd de_inum]. apply resolve_file. rewrite Hty1. discriminate. }
  destruct (wp_run _ _ _ (namex_correct sb0 no_dev (take 1014 (mk_img m)) Hfs (@mkF log_store b icache0) 0 (cs "/cat/x") true
    (replicate 14 0) 1 Hst (icache0_ok _ _) two_free_icache0 eq_refl eq_refl)) as ([o r] & s & Hr & _ & Hpost).
  rewrite Hres in Hpost. cbn [fst] in Hpost. exists m, b, r, s. split; [exact Hm|]. split; [exact Hb|].
  rewrite <- (proj1 Hpost). exact Hr.
Defined.
