(* ===== verification/Umalloc.v ===== *)
(** * The user-level allocator (umalloc.c)

    The free list is circular and kept in the headers of the free blocks, as in
    the code: a header is two 32-bit words, the address of the next free block
    and the size in headers, and the list starts at the static variable base.
    Memory is a map from word addresses to words; what has not been written since
    the kernel handed it out is 0, and an access outside base and the heap is
    undefined.  [grant] is whether the kernel has memory for a larger process. *)
From stdpp Require Import base list gmap numbers option strings.
From Stdlib Require Import ZArith Lia.
From S2P Require Import Prelude Kalloc.
Open Scope Z_scope.

(** freep, the memory, and the size of the process. *)
Record heap := mkHeap { h_mem : gmap Z Z; h_freep : Z; h_brk : Z }.
Definition set_freep (p : Z) (s : heap) : heap := mkHeap (h_mem s) p (h_brk s).

Section umalloc.
(** &base, and the size of the process when it starts, where the heap begins. *)
Context (base start : Z) (grant : Z → Z → bool).

Definition mapped (s : heap) (a : Z) : bool :=
  ((base <=? a) && (a <? base + 8)) || ((start <=? a) && (a + 4 <=? h_brk s)).
Definition ld (a : Z) : M heap Z := λ s,
  if mapped s a then Ok (default 0 (h_mem s !! a)) s else Ub.
Definition st (a v : Z) : M heap unit := λ s,
  if mapped s a then Ok tt (mkHeap (<[a := u32 v]> (h_mem s)) (h_freep s) (h_brk s)) else Ub.

(** union header: p->s.ptr, p->s.size and p + n *)
Definition get_ptr (p : Z) : M heap Z := ld p.
Definition get_size (p : Z) : M heap Z := ld (u32 (p + 4)).
Definition set_ptr (p v : Z) : M heap unit := st p v.
Definition set_size (p v : Z) : M heap unit := st (u32 (p + 4)) v.
Definition hdr_add (p n : Z) : Z := u32 (p + 8 * n).

(** The system call sbrk: the old size, or -1 as an address. *)
Definition NOMEM : Z := u32 (-1).
Definition sbrk (n : Z) : M heap Z :=
  s <- gets id ;;
  let sz := h_brk s in
  let n := s32 n in
  if 0 <? n then
    if (sz + n <? KERNBASE) && grant sz n then
      modify (λ s, mkHeap (h_mem s) (h_freep s) (sz + n)) ;;; ret sz
    else ret NOMEM
  else if n <? 0 then
    let newsz := if sz <=? u32 (sz + n) then sz else u32 (sz + n) in
    if newsz =? 0 then ret NOMEM
    else
      modify (λ s, mkHeap (filter (λ e, e.1 < PGROUNDUP newsz) (h_mem s)) (h_freep s) newsz) ;;; ret sz
  else ret sz.

(** The loop of free: the free block after which bp belongs. *)
Fixpoint free_loop (fuel : nat) (bp p : Z) : M heap Z :=
  match fuel with
  | O => undefined
  | S fuel =>
    q <- get_ptr p ;;
    if (p <? bp) && (bp <? q) then ret p
    else if (q <=? p) && ((p <? bp) || (bp <? q)) then ret p
    else free_loop fuel bp q
  end.
(** No more free blocks than headers fit into the heap, and base. *)
Definition list_fuel (s : heap) : nat := S (Z.to_nat ((h_brk s - start) / 8)).

Definition free (ap : Z) : M heap unit :=
  let bp := hdr_add ap (-1) in
  s <- gets id ;;
  p <- free_loop (S (list_fuel s)) bp (h_freep s) ;;
  n <- get_size bp ;;
  q <- get_ptr p ;;
  (if hdr_add bp n =? q then
     m <- get_size q ;;
     set_size bp (n + m) ;;;
     q <- get_ptr p ;;
     r <- get_ptr q ;;
     set_ptr bp r
   else set_ptr bp q) ;;;
  n <- get_size p ;;
  (if hdr_add p n =? bp then
     m <- get_size bp ;;
     set_size p (n + m) ;;;
     r <- get_ptr bp ;;
     set_ptr p r
   else set_ptr p bp) ;;;
  modify (set_freep p).

Definition morecore (nu : Z) : M heap Z :=
  let nu := if nu <? 4096 then 4096 else nu in
  p <- sbrk (nu * 8) ;;
  if p =? NOMEM then ret 0
  else
    set_size p nu ;;;
    free (hdr_add p 1) ;;;
    s <- gets id ;;
    ret (h_freep s).

(** The loop of malloc; prevp is the block before p. *)
Fixpoint malloc_loop (fuel : nat) (nunits prevp p : Z) : M heap Z :=
  match fuel with
  | O => undefined
  | S fuel =>
    n <- get_size p ;;
    if nunits <=? n then
      p <- (if n =? nunits then
              q <- get_ptr p ;;
              set_ptr prevp q ;;;
              ret p
            else
              set_size p (n - nunits) ;;;
              n <- get_size p ;;
              let p := hdr_add p n in
              set_size p nunits ;;;
              ret p) ;;
      modify (set_freep prevp) ;;;
      ret (hdr_add p 1)
    else
      s <- gets id ;;
      if p =? h_freep s then
        p <- morecore nunits ;;
        if p =? 0 then ret 0
        else q <- get_ptr p ;; malloc_loop fuel nunits p q
      else q <- get_ptr p ;; malloc_loop fuel nunits p q
  end.

Definition malloc (nbytes : Z) : M heap Z :=
  let nunits := u32 (u32 (nbytes + 8 - 1) / 8 + 1) in
  s <- gets id ;;
  (if h_freep s =? 0 then
     set_ptr base base ;;; modify (set_freep base) ;;; set_size base 0
   else ret tt) ;;;
  s <- gets id ;;
  let prevp := h_freep s in
  p <- get_ptr prevp ;;
  malloc_loop (2 * list_fuel s + 4) nunits prevp p.
End umalloc.
