(* ===== verification/UmallocSpec.v ===== *)
(** * malloc and free keep the heap (umalloc.c)

    The heap is a partition of the memory from the first sbrk on into free
    blocks, linked in the order of their addresses with no two adjacent, and live
    blocks.  malloc moves memory to the live blocks, free back; neither touches
    the contents of any other live block. *)
From stdpp Require Import base list gmap numbers option strings sets sorting.
From Stdlib Require Import ZArith Lia.
From S2P Require Import Prelude Kalloc Umalloc.
Open Scope Z_scope.

(** ** The free list in memory *)
Definition word (m : gmap Z Z) (a : Z) : Z := default 0 (m !! a).
(** A free block: its address and its size in headers. *)
Abbreviation fblock := (Z * Z)%type.
Definition hd_addr (l : list fblock) (e : Z) : Z := match l with [] => e | x :: _ => x.1 end.
(** The blocks [l], linked in this order, the last one to [e]. *)
Fixpoint chain (m : gmap Z Z) (l : list fblock) (e : Z) : Prop :=
  match l with
  | [] => True
  | x :: l => word m x.1 = hd_addr l e ∧ word m (x.1 + 4) = x.2 ∧ chain m l e
  end.
(** Memory lies between two free blocks: they are in order and not adjacent. *)
Definition gap (x y : fblock) : Prop := x.1 + 8 * x.2 < y.1.
(** The bytes of the free blocks. *)
Definition covers (l : list fblock) (a : Z) : Prop := ∃ x, x ∈ l ∧ x.1 ≤ a < x.1 + 8 * x.2.

(** ** Live blocks: the address malloc returned, with the words stored there *)
Definition live_end (p : Z) (ws : list Z) : Z := p + 4 * Z.of_nat (length ws).
Definition is_live (U : gmap Z (list Z)) (a : Z) : Prop :=
  ∃ p ws, U !! p = Some ws ∧ p - 8 ≤ a < live_end p ws.

Section heap.
Context (base start : Z) (grant : Z → Z → bool).
Context (Hbase : 0 < base) (Hstart : base + 8 ≤ start < KERNBASE).

Definition free_ok (brk : Z) (x : fblock) : Prop :=
  x = (base, 0) ∨ (1 ≤ x.2 ∧ start ≤ x.1 ∧ (x.1 - start) mod 8 = 0 ∧ x.1 + 8 * x.2 ≤ brk).

Record live_ok (m : gmap Z Z) (brk p : Z) (ws : list Z) : Prop := {
  lo_range : start + 8 ≤ p ∧ live_end p ws ≤ brk;
  lo_align : (p - start) mod 8 = 0;
  lo_size : 8 * (word m (p - 4) - 1) = 4 * Z.of_nat (length ws);
  lo_data i w : ws !! i = Some w → word m (p + 4 * Z.of_nat i) = w }.

Record hinv (s : heap) (F : list fblock) (U : gmap Z (list Z)) : Prop := {
  hi_head : head F = Some (base, 0);
  hi_chain : chain (h_mem s) F base;
  hi_sorted : StronglySorted gap F;
  hi_free : Forall (free_ok (h_brk s)) F;
  hi_live p ws : U !! p = Some ws → live_ok (h_mem s) (h_brk s) p ws;
  hi_apart p ws p' ws' : U !! p = Some ws → U !! p' = Some ws' → p ≠ p' →
    live_end p ws ≤ p' - 8 ∨ live_end p' ws' ≤ p - 8;
  hi_part a : start ≤ a < h_brk s → (covers F a ↔ ¬ is_live U a);
  hi_freep : h_freep s ∈ F.*1;
  hi_brk : start ≤ h_brk s < KERNBASE;
  hi_align : (h_brk s - start) mod 8 = 0 }.

(** ** Memory *)
Lemma word_insert m a v b : word (<[a := v]> m) b = if decide (b = a) then v else word m b.
Proof.
  unfold word. destruct (decide (b = a)) as [->|Hne]; [by rewrite lookup_insert_eq|by rewrite lookup_insert_ne].
Qed.
Lemma wp_ld s a Q : mapped base start s a = true → Q (word (h_mem s) a) s → wp (ld base start a) Q s.
Proof. intros Hm HQ. unfold wp, ld. by rewrite Hm. Qed.
Lemma wp_st s a v Q : mapped base start s a = true → is_u32 v →
  Q tt (mkHeap (<[a := v]> (h_mem s)) (h_freep s) (h_brk s)) → wp (st base start a v) Q s.
Proof. intros Hm Hv HQ. unfold wp, st. rewrite Hm. unfold is_u32 in Hv. by rewrite u32_small by lia. Qed.

Lemma chain_app m l1 l2 e : chain m (l1 ++ l2) e ↔ chain m l1 (hd_addr l2 e) ∧ chain m l2 e.
Proof.
  induction l1 as [|x l1 IH]; cbn [app chain]; [naive_solver|]. rewrite IH.
  assert (hd_addr (l1 ++ l2) e = hd_addr l1 (hd_addr l2 e)) as -> by (by destruct l1). naive_solver.
Qed.
Lemma chain_frame m m' l e :
  (∀ x, x ∈ l → word m' x.1 = word m x.1 ∧ word m' (x.1 + 4) = word m (x.1 + 4)) →
  chain m l e → chain m' l e.
Proof.
  induction l as [|x l IH]; [done|]. intros Hw (H1 & H2 & H3). destruct (Hw x) as [E1 E2]; [left|].
  cbn [chain]. rewrite E1, E2. split_and!; [done..|]. apply IH; [|done]. intros y Hy. apply Hw. by right.
Qed.

Lemma covers_cons x l a : covers (x :: l) a ↔ x.1 ≤ a < x.1 + 8 * x.2 ∨ covers l a.
Proof.
  unfold covers. split.
  - intros (y & [->|Hy]%elem_of_cons & Ha); [by left|right; by exists y].
  - intros [Ha|(y & Hy & Ha)]; [exists x; split; [left|done]|exists y; split; [by right|done]].
Qed.
Lemma covers_app l1 l2 a : covers (l1 ++ l2) a ↔ covers l1 a ∨ covers l2 a.
Proof.
  induction l1 as [|x l1 IH]; cbn [app]; [|rewrite !covers_cons, IH; tauto].
  split; [by right|intros [(x & Hx & _)|]; [by apply elem_of_nil in Hx|done]].
Qed.

(** ** Facts about a heap *)
Section facts.
Context (s : heap) (F : list fblock) (U : gmap Z (list Z)) (Hinv : hinv s F U).

Lemma free_block x : x ∈ F → free_ok (h_brk s) x.
Proof. intros Hx. by apply (proj1 (Forall_forall _ _) (hi_free _ _ _ Hinv)). Qed.
Lemma header_range x : x ∈ F →
  base ≤ x.1 ∧ 0 ≤ x.2 ∧ x.1 + 8 ≤ KERNBASE ∧ x.1 + 8 * x.2 ≤ KERNBASE ∧ (x = (base, 0) ∨ start ≤ x.1).
Proof.
  intros Hx. pose proof (hi_brk _ _ _ Hinv) as Hb. pose proof Hstart as Hs.
  destruct (free_block x Hx) as [->|(? & ? & _ & ?)]; cbn; [split_and!; lia || by left|split_and!; lia || by right; lia].
Qed.
Lemma header_mapped x : x ∈ F → mapped base start s x.1 = true ∧ mapped base start s (u32 (x.1 + 4)) = true.
Proof.
  intros Hx. pose proof (header_range x Hx) as (H0 & _ & Hk & _). rewrite u32_small by (unfold KERNBASE in Hk; lia).
  destruct (free_block x Hx) as [->|(? & ? & _ & ?)]; unfold mapped; cbn [fst];
    split; apply orb_true_iff; [left|left|right|right]; apply andb_true_iff; split; lia.
Qed.
(** Free and live blocks share no byte. *)
Lemma block_sep x p ws : x ∈ F → U !! p = Some ws →
  (x.1 + 8 ≤ p - 8 ∧ x.1 + 8 * x.2 ≤ p - 8) ∨ live_end p ws ≤ x.1.
Proof.
  intros Hx Hp. destruct (hi_live _ _ _ Hinv p ws Hp) as [[Hr1 Hr2] _ _ _].
  destruct (free_block x Hx) as [->|(Hn & Hs & _ & He)]; [left; cbn; lia|].
  assert (∀ a, x.1 ≤ a < x.1 + 8 * x.2 → ¬ (p - 8 ≤ a < live_end p ws)) as Hd.
  { intros a Ha Hl. apply (proj1 (hi_part _ _ _ Hinv a ltac:(lia))); [by exists x|by exists p, ws]. }
  pose proof (Hd (x.1)). pose proof (Hd (p - 8)). unfold live_end in *. lia.
Qed.
Lemma chain_get x C D : F = C ++ x :: D → word (h_mem s) x.1 = hd_addr D base ∧ word (h_mem s) (x.1 + 4) = x.2.
Proof. intros HF. pose proof (hi_chain _ _ _ Hinv) as Hc. rewrite HF, chain_app in Hc. cbn [chain] in Hc. tauto. Qed.

Lemma wp_get_size x C D Q : F = C ++ x :: D → Q x.2 s → wp (get_size base start x.1) Q s.
Proof.
  intros HF HQ. assert (x ∈ F) as Hx by (rewrite HF; set_solver). destruct (header_mapped x Hx) as [_ Hm].
  apply wp_ld; [done|]. pose proof (header_range x Hx) as (? & _ & Hk & _).
  rewrite u32_small by (unfold KERNBASE in Hk; lia). by rewrite (proj2 (chain_get x C D HF)).
Qed.
Lemma wp_get_ptr x C D Q : F = C ++ x :: D → Q (hd_addr D base) s → wp (get_ptr base start x.1) Q s.
Proof.
  intros HF HQ. assert (x ∈ F) as Hx by (rewrite HF; set_solver). destruct (header_mapped x Hx) as [Hm _].
  apply wp_ld; [done|]. by rewrite (proj1 (chain_get x C D HF)).
Qed.

(** The free blocks are few enough for the fuel. *)
Lemma free_count : (length F ≤ list_fuel start s)%nat.
Proof.
  pose proof (hi_free _ _ _ Hinv) as Hf. pose proof (hi_sorted _ _ _ Hinv) as Hs. pose proof (hi_brk _ _ _ Hinv) as Hb.
  pose proof (hi_head _ _ _ Hinv) as Hh. destruct F as [|x l]; [done|]. injection Hh as ->.
  apply StronglySorted_inv in Hs as [Hs Hx]. apply Forall_cons in Hf as [_ Hf].
  assert (∀ lo, start ≤ lo ≤ h_brk s → Forall (λ y, lo ≤ y.1) l → 8 * Z.of_nat (length l) ≤ h_brk s - lo) as Hlen.
  { clear Hx Hinv. induction l as [|y l IH]; intros lo Hlo Hall; [cbn; lia|].
    apply Forall_cons in Hf as [Hy Hf]. apply Forall_cons in Hall as [Hlo' _]. apply StronglySorted_inv in Hs as [Hs Hgap].
    destruct Hy as [->|(H1 & H2 & _ & H3)]; [cbn in *; lia|].
    specialize (IH Hs Hf (y.1 + 8 * y.2) ltac:(lia)). cbn [length].
    assert (Forall (λ z, y.1 + 8 * y.2 ≤ z.1) l) as Hall by (eapply Forall_impl; [exact Hgap|unfold gap; intros; lia]).
    specialize (IH Hall). lia. }
  specialize (Hlen start). unfold list_fuel. cbn [length].
  assert (Forall (λ y, start ≤ y.1) l) as Hall.
  { apply Forall_forall. intros y Hy. pose proof (proj1 (Forall_forall _ _) Hx y Hy) as Hg. unfold gap in Hg. cbn in Hg.
    destruct (proj1 (Forall_forall _ _) Hf y Hy) as [->|]; [cbn in Hg; lia|lia]. }
  specialize (Hlen ltac:(lia) Hall). zlia.
Qed.
End facts.

(** ** The place of a block in the free list *)
Record place (F : list fblock) (bp : Z) (A : list fblock) (x : fblock) (B : list fblock) : Prop := {
  pl_eq : F = A ++ x :: B;
  pl_below : Forall (λ y, y.1 < bp) (A ++ [x]);
  pl_above : Forall (λ y, bp < y.1) B }.

Lemma place_exists F bp :
  StronglySorted gap F → Forall (λ y, 0 ≤ y.2 ∧ y.1 ≠ bp) F → (∃ y, head F = Some y ∧ y.1 < bp) →
  ∃ A x B, place F bp A x B.
Proof.
  induction F as [|y F IH]; [by intros _ _ (y & ? & _)|].
  intros [Hs Hy]%StronglySorted_inv [[Hn _] Hf]%Forall_cons (y' & [= <-] & Hlt).
  destruct F as [|z F].
  { exists [], y, []. split; [done|by constructor|constructor]. }
  destruct (decide (z.1 < bp)) as [Hz|Hz].
  - destruct (IH Hs Hf) as (A & x & B & [-> Hb Ha]); [by exists z|].
    exists (y :: A), x, B. split; [done|by constructor|done].
  - exists [], y, (z :: F). split; [done|by constructor|]. pose proof Hf as [[Hzn Hzb] Hf']%Forall_cons.
    constructor; [lia|]. apply StronglySorted_inv in Hs as [_ Hz']. apply Forall_forall. intros w Hw.
    pose proof (proj1 (Forall_forall _ _) Hz' w Hw) as Hg. unfold gap in Hg. lia.
Qed.

Lemma sorted_after F A x B : StronglySorted gap F → F = A ++ x :: B → Forall (gap x) B.
Proof. intros Hs ->. apply StronglySorted_app_1_r in Hs. by apply StronglySorted_inv in Hs as [_ ?]. Qed.

Section search.
Context (s : heap) (F : list fblock) (U : gmap Z (list Z)) (Hinv : hinv s F U).
Context (bp : Z) (A : list fblock) (x : fblock) (B : list fblock) (Hpl : place F bp A x B).

(** From a block before the place, or from the place itself. *)
Lemma free_loop_front A1 A2 fuel Q :
  A ++ [x] = A1 ++ A2 → A2 ≠ [] → (length A2 ≤ fuel)%nat → Q x.1 s →
  wp (free_loop base start fuel bp (hd_addr A2 base)) Q s.
Proof.
  destruct Hpl as [HF Hb Ha]. pose proof (hi_sorted _ _ _ Hinv) as Hs.
  revert A1 fuel. induction A2 as [|c A2 IH]; intros A1 fuel HA Hne Hfuel HQ; [done|].
  destruct fuel as [|fuel]; [cbn in Hfuel; lia|]. cbn [free_loop hd_addr].
  assert (c ∈ A ++ [x]) as Hc by (rewrite HA; set_solver). pose proof (proj1 (Forall_forall _ _) Hb c Hc) as Hcb. cbn in Hcb.
  destruct A2 as [|c' A2].
  - destruct (app_inj_tail _ _ _ _ HA) as [_ <-].
    wstep1. eapply (wp_get_ptr s F U Hinv x A B); [done|].
    destruct B as [|y B']; cbn [hd_addr].
    + rewrite (proj2 (Z.ltb_lt x.1 bp)) by done.
      assert (base ≤ x.1) as Hbx by (apply (header_range s F U Hinv); rewrite HF; set_solver).
      rewrite (proj2 (Z.ltb_ge bp base)) by lia. cbn [andb]. rewrite (proj2 (Z.leb_le _ _)) by done. cbn. by wstep.
    + apply Forall_cons in Ha as [Hy _]. rewrite (proj2 (Z.ltb_lt x.1 bp)), (proj2 (Z.ltb_lt bp y.1)) by done.
      cbn. by wstep.
  - assert (F = A1 ++ c :: (c' :: A2) ++ B) as HF'.
    { rewrite HF. change (x :: B) with ([x] ++ B). rewrite app_assoc, HA, <- app_assoc. done. }
    wstep1. eapply (wp_get_ptr s F U Hinv c A1 _); [done|]. cbn [hd_addr app].
    assert (c' ∈ A ++ [x]) as Hc' by (rewrite HA; set_solver). pose proof (proj1 (Forall_forall _ _) Hb c' Hc') as Hcb'. cbn in Hcb'.
    assert (c.1 < c'.1) as Hcc.
    { pose proof (sorted_after _ _ _ _ Hs HF') as Hg. apply Forall_cons in Hg as [Hg _]. unfold gap in Hg.
      pose proof (header_range s F U Hinv c) as Hr. rewrite HF' in Hr. specialize (Hr ltac:(set_solver)). lia. }
    rewrite (proj2 (Z.ltb_ge bp c'.1)), (proj2 (Z.leb_gt c'.1 c.1)), andb_false_r by lia. cbn [andb].
    apply (IH (A1 ++ [c])); [by rewrite <- app_assoc|done|cbn in *; lia|done].
Qed.

(** From a block behind the place: around the end of the list. *)
Lemma free_loop_back B1 B2 fuel Q :
  B = B1 ++ B2 → B2 ≠ [] → (length B2 + length (A ++ [x]) ≤ fuel)%nat → Q x.1 s →
  wp (free_loop base start fuel bp (hd_addr B2 base)) Q s.
Proof.
  pose proof Hpl as [HF Hb Ha]. pose proof (hi_sorted _ _ _ Hinv) as Hs.
  revert B1 fuel. induction B2 as [|c B2 IH]; intros B1 fuel HB Hne Hfuel HQ; [done|].
  destruct fuel as [|fuel]; [cbn in Hfuel; lia|]. cbn [free_loop hd_addr].
  assert (c ∈ B) as Hc by (rewrite HB; set_solver). pose proof (proj1 (Forall_forall _ _) Ha c Hc) as Hcb. cbn in Hcb.
  assert (F = (A ++ x :: B1) ++ c :: B2) as HF' by (rewrite HF, HB, <- app_assoc; done).
  pose proof (header_range s F U Hinv c) as Hr. rewrite HF in Hr at 1. specialize (Hr ltac:(set_solver)).
  wstep1. eapply (wp_get_ptr s F U Hinv c _ B2); [done|].
  rewrite (proj2 (Z.ltb_ge c.1 bp)) by lia. cbn [andb orb].
  destruct B2 as [|c' B2]; cbn [hd_addr].
  - assert (base < bp) as Hbp.
    { assert (x ∈ A ++ [x]) as Hx by set_solver. pose proof (proj1 (Forall_forall _ _) Hb x Hx) as Hxb. cbn in Hxb.
      pose proof (header_range s F U Hinv x) as Hrx. rewrite HF in Hrx at 1. specialize (Hrx ltac:(set_solver)). lia. }
    rewrite (proj2 (Z.ltb_ge bp base)), andb_false_r by lia.
    assert (hd_addr (A ++ [x]) base = base) as Hhd.
    { pose proof (hi_head _ _ _ Hinv) as Hh. rewrite HF in Hh. destruct A; cbn in *; by simplify_eq. }
    cut (wp (free_loop base start fuel bp (hd_addr (A ++ [x]) base)) Q s); [by rewrite Hhd|].
    apply (free_loop_front []); [done|by destruct A|cbn in *; lia|done].
  - pose proof (sorted_after _ _ _ _ Hs HF') as Hg. apply Forall_cons in Hg as [Hg _]. unfold gap in Hg.
    rewrite (proj2 (Z.leb_gt c'.1 c.1)) by lia. cbn [andb].
    apply (IH (B1 ++ [c])); [by rewrite <- app_assoc|done|cbn in *; lia|done].
Qed.

Lemma wp_free_loop fuel p Q :
  p ∈ F.*1 → (length F ≤ fuel)%nat → Q x.1 s → wp (free_loop base start fuel bp p) Q s.
Proof.
  intros (c & -> & Hc)%list_elem_of_fmap Hfuel HQ. pose proof (pl_eq _ _ _ _ _ Hpl) as HF.
  assert (length F = length (A ++ [x]) + length B)%nat as HFl by (rewrite HF, !length_app; cbn; lia).
  assert (c ∈ A ++ [x] ∨ c ∈ B) as [Hin|Hin] by (rewrite HF in Hc; set_solver).
  - apply list_elem_of_split in Hin as (A1 & A2 & HA). change c.1 with (hd_addr (c :: A2) base).
    apply (free_loop_front A1); [done|done| |done]. rewrite HA, length_app in HFl. lia.
  - apply list_elem_of_split in Hin as (B1 & B2 & HB). change c.1 with (hd_addr (c :: B2) base).
    apply (free_loop_back B1); [done|done| |done]. rewrite HB, (length_app B1) in HFl. lia.
Qed.
End search.

(** ** free *)
(** The block [bp] of [n] headers joined with the free block right behind it,
    then with the one right before it. *)
Definition joined_up (bp n : Z) (B : list fblock) (n1 : Z) (B1 : list fblock) : Prop :=
  (B1 = B ∧ n1 = n ∧ bp + 8 * n ≠ hd_addr B base) ∨ (∃ k, B = (bp + 8 * n, k) :: B1 ∧ n1 = n + k).
Definition joined_down (A : list fblock) (x : fblock) (bp n1 : Z) (B1 N : list fblock) : Prop :=
  (x.1 + 8 * x.2 = bp ∧ N = A ++ (x.1, x.2 + n1) :: B1) ∨ (x.1 + 8 * x.2 ≠ bp ∧ N = A ++ x :: (bp, n1) :: B1).

Section freeing.
Context (s : heap) (F : list fblock) (U : gmap Z (list Z)) (Hinv : hinv s F U).
Context (ap : Z) (ws : list Z) (Hap : U !! ap = Some ws).
Context (A : list fblock) (x : fblock) (B : list fblock) (Hpl : place F (ap - 8) A x B).
Let bp : Z := ap - 8.
Let n : Z := word (h_mem s) (ap - 4).

Lemma freed_range : start ≤ bp ∧ bp + 8 * n = live_end ap ws ∧ bp + 8 * n ≤ h_brk s ∧ 1 ≤ n ∧
  (bp - start) mod 8 = 0 ∧ h_brk s < 2147483648.
Proof.
  destruct (hi_live _ _ _ Hinv ap ws Hap) as [[H1 H2] H3 H4 _]. fold n in H4. unfold bp, live_end in *.
  pose proof (hi_brk _ _ _ Hinv) as Hb. unfold KERNBASE in Hb.
  split_and!; try lia. replace (ap - 8 - start) with (ap - start - 8) by lia. zlia.
Qed.
Lemma below_bp y : y ∈ A ++ [x] → y ∈ F ∧ y.1 + 8 ≤ bp ∧ y.1 + 8 * y.2 ≤ bp.
Proof.
  intros Hy. destruct Hpl as [HF Hb _]. assert (y ∈ F) as HyF by (rewrite HF; set_solver).
  pose proof (proj1 (Forall_forall _ _) Hb y Hy) as Hlt. cbn in Hlt. pose proof freed_range as Hr.
  destruct (block_sep _ _ _ Hinv y ap ws HyF Hap) as [?|?]; unfold bp in *; [done|lia].
Qed.
Lemma above_bp y : y ∈ B → y ∈ F ∧ bp + 8 * n ≤ y.1 ∧ 1 ≤ y.2 ∧ y.1 + 8 * y.2 ≤ h_brk s.
Proof.
  intros Hy. destruct Hpl as [HF _ Ha]. assert (y ∈ F) as HyF by (rewrite HF; set_solver).
  pose proof (proj1 (Forall_forall _ _) Ha y Hy) as Hlt. cbn in Hlt. pose proof freed_range as Hr. pose proof Hstart as Hs.
  split; [done|]. destruct (block_sep _ _ _ Hinv y ap ws HyF Hap) as [[? ?]|?]; [unfold bp in *; lia|].
  destruct (free_block _ _ _ Hinv y HyF) as [->|?]; [unfold bp in *; cbn in *; lia|lia].
Qed.
Lemma bp_mapped : mapped base start s bp = true ∧ mapped base start s (bp + 4) = true.
Proof.
  pose proof freed_range. unfold mapped. split; apply orb_true_iff; right; apply andb_true_iff; split; lia.
Qed.

(** The state after the first half. *)
Record half (s1 : heap) (n1 : Z) (B1 : list fblock) : Prop := {
  hf_join : joined_up bp n B n1 B1;
  hf_size : 1 ≤ n1 ∧ bp + 8 * n1 ≤ h_brk s;
  hf_ptr : word (h_mem s1) bp = hd_addr B1 base;
  hf_n : word (h_mem s1) (bp + 4) = n1;
  hf_rest a : a ≠ bp → a ≠ bp + 4 → word (h_mem s1) a = word (h_mem s) a;
  hf_freep : h_freep s1 = h_freep s;
  hf_brk : h_brk s1 = h_brk s }.

Lemma wp_join_up Q :
  (∀ s1 n1 B1, half s1 n1 B1 → Q tt s1) →
  wp (if hdr_add bp n =? hd_addr B base then
        m <- get_size base start (hd_addr B base) ;;
        set_size base start bp (n + m) ;;;
        q <- get_ptr base start x.1 ;;
        r <- get_ptr base start q ;;
        set_ptr base start bp r
      else set_ptr base start bp (hd_addr B base)) Q s.
Proof.
  intros HQ. pose proof freed_range as (H1 & H2 & H3 & H4 & _ & H5). destruct bp_mapped as [Hm1 Hm2].
  pose proof above_bp as Hab.
  pose proof (pl_eq _ _ _ _ _ Hpl) as HF. pose proof (below_bp x ltac:(set_solver)) as (Hx & Hx1 & _).
  pose proof (header_range _ _ _ Hinv x Hx) as (Hxb & _). pose proof Hstart as Hs.
  unfold hdr_add. rewrite u32_small by lia.
  destruct (Z.eqb_spec (bp + 8 * n) (hd_addr B base)) as [He|He].
  - assert (∃ k B1, B = (bp + 8 * n, k) :: B1) as (k & B1 & EB).
    { destruct B as [|y B1]; cbn [hd_addr] in He; [lia|]. exists y.2, B1. by rewrite He, <- surjective_pairing. }
    destruct (Hab (bp + 8 * n, k)) as (Hq & _ & Hk & Hke); [rewrite EB; left|]. cbn [fst snd] in Hk, Hke.
    assert (F = (A ++ [x]) ++ (bp + 8 * n, k) :: B1) as HF' by (rewrite HF, EB, <- app_assoc; done).
    destruct (chain_get _ _ _ Hinv _ _ _ HF) as [Hxp _]. rewrite EB in Hxp |- *. destruct (chain_get _ _ _ Hinv _ _ _ HF') as [Hqp Hqn].
    destruct (header_mapped _ _ _ Hinv _ Hx) as [Hmx _]. destruct (header_mapped _ _ _ Hinv _ Hq) as [Hmq _].
    cbn [hd_addr fst snd] in *.
    wstep1. apply (wp_get_size _ _ _ Hinv (bp + 8 * n, k) _ _ _ HF'). cbn [snd]. wstep1. unfold set_size.
    rewrite u32_small by lia. apply wp_st; [done|unfold is_u32; lia|]. wstep1. apply wp_ld; [exact Hmx|]. cbn [h_mem].
    rewrite word_insert, decide_False by lia. rewrite Hxp. wstep1. apply wp_ld; [exact Hmq|]. cbn [h_mem].
    rewrite word_insert, decide_False by lia. rewrite Hqp.
    assert (0 ≤ hd_addr B1 base < KERNBASE) as Hr.
    { destruct B1 as [|y B2]; cbn [hd_addr]; [lia|]. pose proof (header_range _ _ _ Hinv y) as Hy.
      rewrite HF' in Hy at 1. specialize (Hy ltac:(set_solver)). lia. }
    unfold KERNBASE in *. apply wp_st; [exact Hm1|unfold is_u32; lia|]. apply (HQ _ (n + k) B1).
    split; cbn [h_mem h_freep h_brk]; [right; by exists k|lia| | | |done|done].
    + by rewrite word_insert, decide_True.
    + by rewrite word_insert, decide_False, word_insert, decide_True by lia.
    + intros a Ha1 Ha2. by rewrite word_insert, decide_False, word_insert, decide_False.
  - assert (0 ≤ hd_addr B base < KERNBASE) as Hr.
    { destruct B as [|y B2]; cbn [hd_addr]; [lia|]. destruct (Hab y) as (Hy & _); [left|].
      pose proof (header_range _ _ _ Hinv y Hy). lia. }
    unfold KERNBASE in *. apply wp_st; [exact Hm1|unfold is_u32; lia|]. apply (HQ _ n B).
    split; cbn [h_mem h_freep h_brk]; [by left|lia| | | |done|done].
    + by rewrite word_insert, decide_True.
    + rewrite word_insert, decide_False by lia. unfold bp, n. f_equal. lia.
    + intros a Ha1 Ha2. by rewrite word_insert, decide_False.
Qed.

(** The memory after free: the new list, and nothing else changed. *)
Record freed (s2 : heap) (n1 : Z) (B1 N : list fblock) : Prop := {
  fd_up : joined_up bp n B n1 B1;
  fd_down : joined_down A x bp n1 B1 N;
  fd_size : 1 ≤ n1 ∧ bp + 8 * n1 ≤ h_brk s;
  fd_chain : chain (h_mem s2) N base;
  fd_rest a : a ≠ bp → a ≠ bp + 4 → a ≠ x.1 → a ≠ x.1 + 4 → word (h_mem s2) a = word (h_mem s) a;
  fd_freep : h_freep s2 = x.1;
  fd_brk : h_brk s2 = h_brk s }.

Lemma tail_in n1 B1 y : joined_up bp n B n1 B1 → y ∈ B1 → y ∈ B.
Proof. intros [(-> & _)|(k & -> & _)] Hy; [done|by right]. Qed.

(** The links outside the two blocks that change. *)
Lemma half_chain s1 n1 B1 m :
  half s1 n1 B1 →
  (∀ a, a ≠ bp → a ≠ bp + 4 → a ≠ x.1 → a ≠ x.1 + 4 → word m a = word (h_mem s) a) →
  chain m A x.1 ∧ chain m B1 base.
Proof.
  intros Hh Hm. pose proof (pl_eq _ _ _ _ _ Hpl) as HF. pose proof (hi_chain _ _ _ Hinv) as Hc.
  pose proof freed_range as (H1 & _ & _ & H4 & _). pose proof (hi_sorted _ _ _ Hinv) as Hs.
  rewrite HF, chain_app in Hc. destruct Hc as [HcA (_ & _ & HcB)]. split.
  - eapply chain_frame, HcA. intros y Hy. pose proof (below_bp y ltac:(set_solver)) as (HyF & Hy1 & _).
    assert (gap y x) as Hg.
    { apply list_elem_of_split in Hy as (A1 & A2 & HA). apply (proj1 (Forall_forall _ _) (sorted_after F A1 y (A2 ++ x :: B) Hs
        ltac:(rewrite HF, HA, <- app_assoc; done))). set_solver. }
    unfold gap in Hg. pose proof (header_range _ _ _ Hinv y HyF) as (Hyb & Hy0 & _ & _ & Hy3).
    pose proof (free_block _ _ _ Hinv y HyF) as Hyf. assert (y.1 + 8 ≤ x.1) as Hyx.
    { destruct Hyf as [->|?]; [|lia]. cbn in *. pose proof (header_range _ _ _ Hinv x ltac:(rewrite HF; set_solver)) as (_ & _ & _ & _ & [->|?]); cbn in *; lia. }
    split; apply Hm; lia.
  - assert (chain (h_mem s) B1 base) as HcB1.
    { destruct (hf_join _ _ _ Hh) as [(-> & _)|(k & -> & _)]; [done|]. by destruct HcB as (_ & _ & ?). }
    eapply chain_frame, HcB1. intros y Hy. destruct (above_bp y) as (_ & Hy1 & _); [by eapply tail_in; [apply Hh|]|].
    pose proof (below_bp x ltac:(set_solver)) as (_ & Hx1 & _). split; apply Hm; lia.
Qed.

Lemma wp_join_down s1 n1 B1 Q :
  half s1 n1 B1 → (∀ s2 N, freed s2 n1 B1 N → Q tt s2) →
  wp (k <- get_size base start x.1 ;;
      (if hdr_add x.1 k =? bp then
         m <- get_size base start bp ;;
         set_size base start x.1 (k + m) ;;;
         r <- get_ptr base start bp ;;
         set_ptr base start x.1 r
       else set_ptr base start x.1 bp) ;;;
      modify (set_freep x.1)) Q s1.
Proof.
  intros Hh HQ. pose proof Hh as [Hup [Hn1 Hn2] Hptr Hn Hrest Hfr Hbrk].
  pose proof freed_range as (H1 & H2 & H3 & H4 & _ & H5). pose proof (pl_eq _ _ _ _ _ Hpl) as HF.
  pose proof (below_bp x ltac:(set_solver)) as (Hx & Hx1 & Hx2). pose proof Hstart as Hs.
  pose proof (header_range _ _ _ Hinv x Hx) as (Hxb & Hx0 & _). destruct (header_mapped _ _ _ Hinv x Hx) as [Hm1 Hm2].
  destruct bp_mapped as [Hm3 Hm4]. destruct (chain_get _ _ _ Hinv _ _ _ HF) as [_ Hxn].
  assert (∀ a, mapped base start s1 a = mapped base start s a) as Hmap by (intros; unfold mapped; by rewrite Hbrk).
  wstep1. unfold get_size, set_size. rewrite !u32_small by lia. rewrite u32_small in Hm2 by lia.
  apply wp_ld; [by rewrite Hmap|]. rewrite Hrest, Hxn by lia. unfold hdr_add. rewrite u32_small by lia.
  wstep1. destruct (Z.eqb_spec (x.1 + 8 * x.2) bp) as [He|He].
  - wstep1. apply wp_ld; [by rewrite Hmap|]. rewrite Hn. wstep1. apply wp_st; [by rewrite Hmap|unfold is_u32; lia|].
    wstep1. apply wp_ld; [exact (eq_trans (Hmap bp) Hm3)|]. cbn [h_mem]. rewrite word_insert, decide_False, Hptr by lia.
    assert (0 ≤ hd_addr B1 base < 2 ^ 32) as Hr.
    { destruct B1 as [|y B2] eqn:EB; cbn [hd_addr]; [lia|]. destruct (above_bp y) as (_ & Hy1 & Hy2 & Hy3); [eapply tail_in; [exact Hup|left]|]. lia. }
    apply wp_st; [exact (eq_trans (Hmap _) Hm1)|exact Hr|]. cbn [h_mem h_freep h_brk]. wstep1.
    apply (HQ _ (A ++ (x.1, x.2 + n1) :: B1)).
    assert (∀ a, a ≠ bp → a ≠ bp + 4 → a ≠ x.1 → a ≠ x.1 + 4 →
      word (<[x.1 := hd_addr B1 base]> (<[x.1 + 4 := x.2 + n1]> (h_mem s1))) a = word (h_mem s) a) as Hw.
    { intros a ? ? ? ?. rewrite word_insert, decide_False, word_insert, decide_False by done. by apply Hrest. }
    destruct (half_chain s1 n1 B1 _ Hh Hw) as [HcA HcB].
    split; cbn [set_freep h_mem h_freep h_brk]; [done|by left|done| |exact Hw|done|done].
    apply chain_app. split; [done|]. cbn [chain fst snd].
    rewrite word_insert, decide_True, word_insert, decide_False, word_insert, decide_True by lia. done.
  - apply wp_st; [by rewrite Hmap|unfold is_u32; lia|]. cbn [h_mem h_freep h_brk]. wstep1.
    apply (HQ _ (A ++ x :: (bp, n1) :: B1)).
    assert (∀ a, a ≠ bp → a ≠ bp + 4 → a ≠ x.1 → a ≠ x.1 + 4 → word (<[x.1 := bp]> (h_mem s1)) a = word (h_mem s) a) as Hw.
    { intros a ? ? ? ?. rewrite word_insert, decide_False by done. by apply Hrest. }
    destruct (half_chain s1 n1 B1 _ Hh Hw) as [HcA HcB].
    split; cbn [set_freep h_mem h_freep h_brk]; [done|by right|done| |exact Hw|done|done].
    apply chain_app. split; [done|]. cbn [chain fst snd hd_addr].
    rewrite word_insert, decide_True by done. rewrite !word_insert, !decide_False by lia. by rewrite Hrest by lia.
Qed.

(** ** The list after free *)
Lemma up_gap n1 B1 : joined_up bp n B n1 B1 → StronglySorted gap B1 ∧ Forall (gap (bp, n1)) B1.
Proof.
  intros Hup. pose proof (hi_sorted _ _ _ Hinv) as Hs. pose proof (pl_eq _ _ _ _ _ Hpl) as HF.
  rewrite HF in Hs. apply StronglySorted_app_1_r, StronglySorted_inv in Hs as [Hs _].
  pose proof above_bp as Hab. destruct Hup as [(-> & -> & Hne)|(k & HB & ->)].
  - split; [done|]. destruct B as [|y B']; [constructor|]. cbn [hd_addr] in Hne.
    apply StronglySorted_inv in Hs as [_ Hy]. destruct (Hab y) as (_ & Hy1 & Hy2 & _); [left|].
    constructor; [unfold gap; cbn; lia|]. eapply Forall_impl; [exact Hy|]. unfold gap. cbn. intros. lia.
  - rewrite HB in Hs. apply StronglySorted_inv in Hs as [Hs Hy]. split; [done|].
    eapply Forall_impl; [exact Hy|]. unfold gap. cbn. intros. lia.
Qed.
Lemma up_covers n1 B1 a : joined_up bp n B n1 B1 →
  covers ((bp, n1) :: B1) a ↔ bp ≤ a < bp + 8 * n ∨ covers B a.
Proof.
  pose proof freed_range as (_ & _ & _ & H4 & _). intros [(-> & -> & _)|(k & HB & ->)].
  - by rewrite covers_cons.
  - assert (1 ≤ k) as Hk by (apply (above_bp (bp + 8 * n, k)); rewrite HB; left).
    rewrite HB, !covers_cons. cbn [fst snd]. intuition lia.
Qed.

Section after.
Context (s2 : heap) (n1 : Z) (B1 N : list fblock) (Hfd : freed s2 n1 B1 N).

Lemma after_sorted : StronglySorted gap N.
Proof.
  destruct (up_gap n1 B1 (fd_up _ _ _ _ Hfd)) as [HsB HgB]. pose proof (hi_sorted _ _ _ Hinv) as Hs.
  pose proof (pl_eq _ _ _ _ _ Hpl) as HF. pose proof (below_bp x ltac:(set_solver)) as (_ & Hx1 & Hx2).
  rewrite HF in Hs. apply StronglySorted_app in Hs as (Hcross & HsA & Hsx). apply StronglySorted_inv in Hsx as [_ Hgx].
  assert (∀ z, z ∈ B1 → z ∈ B) as Hsub by (intros z; apply (tail_in n1), Hfd).
  assert (Forall (gap x) B1) as HgxB.
  { apply Forall_forall. intros z Hz. apply (proj1 (Forall_forall _ _) Hgx), Hsub, Hz. }
  destruct (fd_down _ _ _ _ Hfd) as [[He ->]|[He ->]]; apply StronglySorted_app.
  - split_and!; [|done|].
    + intros y z Hy [->|Hz]%elem_of_cons; [exact (Hcross y x Hy ltac:(left))|apply Hcross; [done|right; by apply Hsub]].
    + constructor; [done|]. eapply Forall_impl; [exact HgB|]. unfold gap. cbn. intros. lia.
  - split_and!; [|done|].
    + intros y z Hy [->|[->|Hz]%elem_of_cons]%elem_of_cons; [apply Hcross; [done|left]| |apply Hcross; [done|right; by apply Hsub]].
      pose proof (Hcross y x Hy ltac:(left)) as Hg. unfold gap in *. cbn. lia.
    + constructor; [by constructor|]. constructor; [unfold gap; cbn; lia|done].
Qed.
Lemma after_covers a : covers N a ↔ covers F a ∨ bp ≤ a < bp + 8 * n.
Proof.
  pose proof (up_covers n1 B1 a (fd_up _ _ _ _ Hfd)) as Hup. rewrite (pl_eq _ _ _ _ _ Hpl).
  pose proof (below_bp x ltac:(set_solver)) as (Hx & Hx1 & Hx2). pose proof (fd_size _ _ _ _ Hfd) as [Hn1 _].
  pose proof (header_range _ _ _ Hinv x Hx) as (_ & Hx0 & _).
  destruct (fd_down _ _ _ _ Hfd) as [[He ->]|[He ->]]; rewrite !covers_app, !covers_cons in *; cbn [fst snd] in *.
  - assert (x.1 ≤ a < x.1 + 8 * (x.2 + n1) ↔ x.1 ≤ a < x.1 + 8 * x.2 ∨ bp ≤ a < bp + 8 * n1) as -> by lia. tauto.
  - tauto.
Qed.
Lemma after_ok : head N = Some (base, 0) ∧ Forall (free_ok (h_brk s)) N ∧ x.1 ∈ N.*1 ∧
  (∃ y, y ∈ N ∧ n ≤ y.2) ∧ (length N ≤ S (length F))%nat.
Proof.
  pose proof (pl_eq _ _ _ _ _ Hpl) as HF. pose proof (hi_head _ _ _ Hinv) as Hh. pose proof (hi_free _ _ _ Hinv) as Hf.
  pose proof (below_bp x ltac:(set_solver)) as (Hx & Hx1 & Hx2). pose proof freed_range as (H1 & H2 & H3 & H4 & H5 & _).
  pose proof (fd_size _ _ _ _ Hfd) as [Hn1 Hn2]. pose proof (header_range _ _ _ Hinv x Hx) as (_ & Hx0 & _).
  assert (n ≤ n1 ∧ (length B1 ≤ length B)%nat ∧ Forall (free_ok (h_brk s)) B1) as (Hnn & Hlen & HfB).
  { rewrite HF in Hf. apply Forall_app in Hf as [_ [_ Hf]%Forall_cons].
    destruct (fd_up _ _ _ _ Hfd) as [(-> & -> & _)|(k & HB & ->)]; [by auto with lia|].
    assert (1 ≤ k) as Hk by (apply (above_bp (bp + 8 * n, k)); rewrite HB; left).
    rewrite HB in Hf |- *. apply Forall_cons in Hf as [_ Hf]. cbn [length]. split_and!; [lia..|done]. }
  assert (length F = length A + S (length B))%nat as HFl by (rewrite HF, length_app; done).
  rewrite HF in Hh, Hf. apply Forall_app in Hf as [HfA [Hfx _]%Forall_cons].
  assert (free_ok (h_brk s) (bp, n1)) as Hbp by (right; cbn; split_and!; lia || done).
  destruct (fd_down _ _ _ _ Hfd) as [[He ->]|[He ->]]; rewrite !fmap_app, !fmap_cons, !length_app; cbn [fst snd length].
  - assert (x ≠ (base, 0)) as Hxn by (intros Hx'; rewrite Hx' in He; cbn in He; pose proof Hstart; lia).
    split_and!; [| |set_solver|exists (x.1, x.2 + n1); split; [set_solver|cbn; lia]|lia].
    + destruct A; [|done]. cbn in Hh. by simplify_eq.
    + apply Forall_app. split; [done|]. constructor; [|done]. right. destruct Hfx as [|(? & ? & ? & ?)]; [done|]. cbn. split_and!; lia || done.
  - split_and!; [by destruct A| |set_solver|exists (bp, n1); split; [set_solver|cbn; lia]|lia].
    apply Forall_app. split; [done|]. constructor; [done|]. by constructor.
Qed.
End after.

Lemma live_delete a : is_live (delete ap U) a ↔ is_live U a ∧ ¬ (bp ≤ a < bp + 8 * n).
Proof.
  pose proof freed_range as (_ & H2 & _). split.
  - intros (p & ws' & [Hne Hp]%lookup_delete_Some & Ha). split; [by exists p, ws'|].
    destruct (hi_apart _ _ _ Hinv _ _ _ _ Hap Hp Hne); unfold bp in *; lia.
  - intros [(p & ws' & Hp & Ha) Hn]. exists p, ws'. split; [|done]. apply lookup_delete_Some. split; [|done].
    intros <-. rewrite Hap in Hp. injection Hp as <-. unfold bp in *. lia.
Qed.

Lemma hinv_freed s2 n1 B1 N : freed s2 n1 B1 N → hinv s2 N (delete ap U).
Proof.
  intros Hfd. pose proof (after_ok _ _ _ _ Hfd) as (Hh & Hf & Hx & _ & _).
  pose proof freed_range as (H1 & H2 & H3 & H4 & H5 & _). destruct (below_bp x ltac:(set_solver)) as (HxF & Hx1 & _).
  pose proof (fd_brk _ _ _ _ Hfd) as Hb.
  split; rewrite ?Hb, ?(fd_freep _ _ _ _ Hfd); [done|apply Hfd|by apply (after_sorted _ _ _ _ Hfd)|done| | | |done|apply Hinv..].
  - intros p ws' [Hne Hp]%lookup_delete_Some. destruct (hi_live _ _ _ Hinv p ws' Hp) as [Hr Ha Hs Hd].
    assert (∀ a, p - 4 ≤ a < live_end p ws' → word (h_mem s2) a = word (h_mem s) a) as Hw.
    { intros a Ha'. pose proof (hi_apart _ _ _ Hinv _ _ _ _ Hap Hp Hne) as Hsep.
      pose proof (block_sep _ _ _ Hinv x p ws' HxF Hp) as Hsx. unfold bp in *.
      apply (fd_rest _ _ _ _ Hfd); unfold bp; lia. }
    split; [done|done| |].
    + rewrite Hw; [done|]. unfold live_end. lia.
    + intros i w Hi. rewrite Hw; [by apply Hd|]. apply lookup_lt_Some in Hi. unfold live_end. lia.
  - intros p ws' p' ws'' [_ Hp]%lookup_delete_Some [_ Hp']%lookup_delete_Some. by apply (hi_apart _ _ _ Hinv).
  - intros a Ha. rewrite (after_covers _ _ _ _ Hfd), live_delete, (hi_part _ _ _ Hinv a Ha).
    assert (Decision (is_live U a)) as Hdec.
    { unfold Decision. destruct (decide (map_Exists (λ p ws, p - 8 ≤ a < live_end p ws) U)) as [He|He].
      - left. destruct He as (p & ws' & ? & ?). by exists p, ws'.
      - right. intros (p & ws' & ? & ?). apply He. by exists p, ws'. }
    destruct (decide (is_live U a)); tauto || (split; [tauto|]; intros; destruct (decide (bp ≤ a < bp + 8 * n)); tauto).
Qed.
End freeing.

Lemma wp_free s F U ap ws Q :
  hinv s F U → U !! ap = Some ws →
  (∀ s' F', hinv s' F' (delete ap U) → h_brk s' = h_brk s → (length F' ≤ S (length F))%nat →
    (∃ y, y ∈ F' ∧ word (h_mem s) (ap - 4) ≤ y.2) → Q tt s') →
  wp (free base start ap) Q s.
Proof.
  intros Hinv Hap HQ. pose proof (freed_range _ _ _ Hinv ap ws Hap) as (H1 & H2 & H3 & H4 & H5 & H6).
  destruct (place_exists F (ap - 8)) as (A & x & B & Hpl).
  - apply Hinv.
  - apply Forall_forall. intros y Hy. split; [by apply (header_range _ _ _ Hinv)|].
    destruct (block_sep _ _ _ Hinv y ap ws Hy Hap) as [?|?]; lia.
  - exists (base, 0). split; [apply Hinv|]. cbn. pose proof Hstart. lia.
  - unfold free. assert (hdr_add ap (-1) = ap - 8) as ->.
    { unfold hdr_add. rewrite u32_small; lia. }
    wstep1. wstep1. wstep1. eapply (wp_free_loop _ _ _ Hinv _ _ _ _ Hpl); [apply Hinv| |].
    { cbn [id]. pose proof (free_count _ _ _ Hinv). lia. }
    wstep1. unfold get_size at 1. rewrite u32_small by lia. apply wp_ld.
    { destruct (bp_mapped _ _ _ Hinv ap ws Hap) as [_ Hm]. exact Hm. }
    wstep1. eapply (wp_get_ptr _ _ _ Hinv x); [apply Hpl|].
    replace (ap - 8 + 4) with (ap - 4) by lia.
    wstep1. eapply (wp_join_up _ _ _ Hinv ap ws Hap _ _ _ Hpl). intros s1 n1 B1 Hh.
    eapply (wp_join_down _ _ _ Hinv ap ws Hap _ _ _ Hpl); [exact Hh|]. intros s2 N Hfd.
    destruct (after_ok _ _ _ Hinv ap ws Hap _ _ _ Hpl _ _ _ _ Hfd) as (_ & _ & _ & Hbig & Hlen).
    apply (HQ s2 N); [by eapply hinv_freed|by apply Hfd|done|done].
Qed.

(** ** morecore *)
Definition words_at (m : gmap Z Z) (p k : Z) : list Z := (λ i : nat, word m (p + 4 * Z.of_nat i)) <$> seq 0 (Z.to_nat k).
Lemma length_words_at m p k : 0 ≤ k → Z.of_nat (length (words_at m p k)) = k.
Proof. intros. unfold words_at. rewrite length_fmap, length_seq. lia. Qed.
Lemma words_at_lookup m p k i w : words_at m p k !! i = Some w → word m (p + 4 * Z.of_nat i) = w.
Proof.
  intros Hi. unfold words_at in Hi. apply list_lookup_fmap_Some in Hi as (j & -> & Hj).
  by apply lookup_seq in Hj as [-> _].
Qed.

(** A new live block in memory that no live block has; [m'] differs from the
    memory only there, or in headers of free blocks. *)
Lemma live_add U p ws a : U !! p = None → is_live (<[p := ws]> U) a ↔ is_live U a ∨ p - 8 ≤ a < live_end p ws.
Proof.
  intros Hp. split.
  - intros (q & ws' & [[<- <-]|[Hne Hq]]%lookup_insert_Some & Ha); [by right|left; by exists q, ws'].
  - intros [(q & ws' & Hq & Ha)|Ha].
    + exists q, ws'. split; [|done]. rewrite lookup_insert_ne; [done|]. intros <-. by rewrite Hp in Hq.
    + exists p, ws. by rewrite lookup_insert_eq.
Qed.

Lemma hinv_grow s F U k :
  hinv s F U → 1 ≤ k → h_brk s + 8 * k < KERNBASE →
  let p := h_brk s in
  let m := <[p + 4 := k]> (h_mem s) in
  U !! (p + 8) = None ∧
  hinv (mkHeap m (h_freep s) (p + 8 * k)) F (<[p + 8 := words_at m (p + 8) (2 * (k - 1))]> U).
Proof.
  intros Hinv Hk Hmax p m. pose proof Hinv as [Hh Hc Hs Hf Hl Ha Hp Hfr Hb Hal]. fold p in Hb, Hf, Hl, Hp, Hal.
  set (ws := words_at m (p + 8) (2 * (k - 1))).
  assert (live_end (p + 8) ws = p + 8 * k) as Hend.
  { unfold live_end, ws. rewrite length_words_at by lia. lia. }
  assert (∀ q wq, U !! q = Some wq → live_end q wq ≤ p) as Hle by (intros q wq Hq; apply (Hl q wq Hq)).
  assert (U !! (p + 8) = None) as Hnone.
  { destruct (U !! (p + 8)) as [wq|] eqn:E; [|done]. apply Hle in E. unfold live_end in E. lia. }
  assert (∀ a, a < p → word m a = word (h_mem s) a) as Hw.
  { intros a Hlt. unfold m. by rewrite word_insert, decide_False by lia. }
  split; [done|]. split; cbn [h_mem h_freep h_brk]; [done| |done| | | | |done|lia|].
  - eapply chain_frame, Hc. intros x Hx. pose proof Hstart. 
    destruct (free_block _ _ _ Hinv x Hx) as [->|?]; cbn; split; apply Hw; lia.
  - eapply Forall_impl; [exact Hf|]. intros x [->|?]; [by left|right; lia].
  - intros q wq [[<- <-]|[Hne Hq]]%lookup_insert_Some.
    + split; [lia|replace (p + 8 - start) with (p - start + 1 * 8) by lia; by rewrite Z.mod_add| |].
      * replace (p + 8 - 4) with (p + 4) by lia. unfold m at 1. rewrite word_insert, decide_True by done.
        unfold ws. rewrite length_words_at by lia. lia.
      * intros i w Hi. by apply words_at_lookup in Hi.
    + pose proof (Hle q wq Hq) as Hq'. destruct (Hl q wq Hq) as [Hr Hal' Hsz Hd]. unfold live_end in Hq'.
      split; [lia|done|rewrite Hw by lia; done|]. intros i w Hi. rewrite Hw; [by apply Hd|]. apply lookup_lt_Some in Hi. lia.
  - intros q wq q' wq' [[<- <-]|[Hne Hq]]%lookup_insert_Some [[<- <-]|[Hne' Hq']]%lookup_insert_Some Hqq; [done| | |by apply Ha].
    + right. apply Hle in Hq'. lia.
    + left. apply Hle in Hq. lia.
  - intros a Hr. rewrite live_add by done. destruct (decide (a < p)) as [Hlt|Hge].
    + rewrite Hp by lia. intuition lia.
    + split; [|intros Hn; destruct Hn; right; lia]. intros (x & Hx & Hxa).
      destruct (free_block _ _ _ Hinv x Hx) as [->|?]; cbn in *; pose proof Hstart; lia.
  - replace (p + 8 * k - start) with (p - start + k * 8) by lia. by rewrite Z.mod_add.
Qed.

(** The kernel grows the process by [k] headers. *)
Definition grants (s : heap) (k : Z) : bool := (h_brk s + 8 * k <? KERNBASE) && grant (h_brk s) (8 * k).
Definition core_units (nu : Z) : Z := Z.max 4096 nu.

Lemma wp_morecore s F U nu Q :
  hinv s F U → 1 ≤ nu < 2 ^ 28 →
  (if grants s (core_units nu) then
     ∀ s' F', hinv s' F' U → h_brk s' = h_brk s + 8 * core_units nu → (length F' ≤ S (length F))%nat →
       (∃ y, y ∈ F' ∧ nu ≤ y.2) → Q (h_freep s') s'
   else Q 0 s) →
  wp (morecore base start grant nu) Q s.
Proof.
  intros Hinv Hnu HQ. unfold morecore. assert ((if nu <? 4096 then 4096 else nu) = core_units nu) as ->.
  { unfold core_units. destruct (Z.ltb_spec nu 4096); lia. }
  set (k := core_units nu) in *. assert (4096 ≤ k < 2 ^ 28 ∧ nu ≤ k) as [Hk Hnk] by (unfold k, core_units; lia).
  pose proof (hi_brk _ _ _ Hinv) as Hb. pose proof Hstart as Hst. unfold KERNBASE in Hb. unfold sbrk.
  wstep1. wstep1. wstep1. cbn [id]. cbv zeta. rewrite s32_small by lia. rewrite (proj2 (Z.ltb_lt 0 _)) by lia.
  unfold grants in HQ. rewrite (Z.mul_comm k 8) in *. destruct ((h_brk s + 8 * k <? KERNBASE) && grant (h_brk s) (8 * k)) eqn:Hg.
  - apply andb_true_iff in Hg as [Hmax%Z.ltb_lt _]. wstep1. wstep1. wstep1.
    assert ((h_brk s =? NOMEM) = false) as -> by (apply Z.eqb_neq; unfold NOMEM, u32; change (-1 mod 2 ^ 32) with 4294967295; lia).
    unfold KERNBASE in Hmax. wstep1. unfold set_size. rewrite u32_small by lia. apply wp_st; cbn [h_mem h_freep h_brk].
    { unfold mapped. cbn [h_brk]. apply orb_true_iff. right. apply andb_true_iff. split; lia. }
    { unfold is_u32. lia. }
    destruct (hinv_grow s F U k Hinv ltac:(lia)) as [Hnone Hinv']; [unfold KERNBASE; lia|]. cbv zeta in Hinv'.
    assert (hdr_add (h_brk s) 1 = h_brk s + 8) as -> by (unfold hdr_add; rewrite u32_small; lia).
    wstep1. eapply wp_free; [exact Hinv'|by rewrite lookup_insert_eq|].
    intros s' F' Hi Hbrk Hlen (y & Hy & Hyn). wstep. cbn [h_brk h_mem] in *. cbn [id]. apply (HQ s' F'); [|done|done|].
    + by rewrite delete_insert_id in Hi.
    + exists y. split; [done|]. replace (h_brk s + 8 - 4) with (h_brk s + 4) in Hyn by lia.
      rewrite word_insert, decide_True in Hyn by done. lia.
  - wstep1. cbn [NOMEM]. rewrite Z.eqb_refl. by wstep.
Qed.

(** ** malloc *)
(** The block [b] of [nu] headers leaves the free list, which is then [N]. *)
Record taken (s : heap) (F : list fblock) (nu b : Z) (m' : gmap Z Z) (f : Z) (N : list fblock) : Prop := {
  tk_chain : chain m' N base;
  tk_sorted : StronglySorted gap N;
  tk_free : Forall (free_ok (h_brk s)) N;
  tk_head : head N = Some (base, 0);
  tk_freep : f ∈ N.*1;
  tk_block : start ≤ b ∧ b + 8 * nu ≤ h_brk s ∧ (b - start) mod 8 = 0;
  tk_size : word m' (b + 4) = nu;
  tk_covers a : covers F a ↔ covers N a ∨ b ≤ a < b + 8 * nu;
  tk_apart a : b ≤ a < b + 8 * nu → ¬ covers N a;
  tk_rest a : ¬ (∃ x, x ∈ F ∧ x.1 ≤ a < x.1 + 8) → ¬ covers F a → word m' a = word (h_mem s) a }.

Lemma hinv_taken s F U nu b m' f N :
  hinv s F U → 1 ≤ nu → taken s F nu b m' f N →
  U !! (b + 8) = None ∧ hinv (mkHeap m' f (h_brk s)) N (<[b + 8 := words_at m' (b + 8) (2 * (nu - 1))]> U).
Proof.
  intros Hinv Hnu Htk. pose proof Htk as [Hc Hs Hf Hh Hfr (Hb1 & Hb2 & Hb3) Hsz Hcov Hap Hrest].
  set (ws := words_at m' (b + 8) (2 * (nu - 1))).
  assert (live_end (b + 8) ws = b + 8 * nu) as Hend by (unfold live_end, ws; rewrite length_words_at by lia; lia).
  assert (∀ q wq a, U !! q = Some wq → q - 8 ≤ a < live_end q wq → ¬ (b ≤ a < b + 8 * nu)) as Hsep.
  { intros q wq a Hq Ha Hba. destruct (hi_live _ _ _ Hinv q wq Hq) as [Hr _ _ _].
    apply (proj1 (hi_part _ _ _ Hinv a ltac:(lia))); [apply Hcov; by right|by exists q, wq]. }
  assert (∀ q wq, U !! q = Some wq → live_end q wq ≤ b ∨ b + 8 * nu ≤ q - 8) as Hsep'.
  { intros q wq Hq. pose proof (Hsep q wq (q - 8) Hq) as H1. pose proof (Hsep q wq b Hq) as H2. unfold live_end in *. lia. }
  assert (U !! (b + 8) = None) as Hnone.
  { destruct (U !! (b + 8)) as [wq|] eqn:E; [|done]. destruct (Hsep' _ _ E); unfold live_end in *; lia. }
  split; [done|]. split; cbn [h_mem h_freep h_brk]; [done..| | | |done|apply Hinv|apply Hinv].
  - intros q wq [[<- <-]|[Hne Hq]]%lookup_insert_Some.
    + split; [lia|replace (b + 8 - start) with (b - start + 1 * 8) by lia; by rewrite Z.mod_add| |].
      * replace (b + 8 - 4) with (b + 4) by lia. rewrite Hsz. unfold ws. rewrite length_words_at by lia. lia.
      * intros i w Hi. by apply words_at_lookup in Hi.
    + destruct (hi_live _ _ _ Hinv q wq Hq) as [Hr Hal Hqs Hd].
      assert (∀ a, q - 4 ≤ a < live_end q wq → word m' a = word (h_mem s) a) as Hw.
      { intros a Ha. apply Hrest.
        - intros (x & Hx & Hxa). destruct (block_sep _ _ _ Hinv x q wq Hx Hq); lia.
        - intros Hca. apply (proj1 (hi_part _ _ _ Hinv a ltac:(lia)) Hca). exists q, wq. split; [done|lia]. }
      split; [done|done|rewrite Hw; [done|unfold live_end; lia]|].
      intros i w Hi. rewrite Hw; [by apply Hd|]. apply lookup_lt_Some in Hi. unfold live_end. lia.
  - intros q wq q' wq' [[<- <-]|[Hne Hq]]%lookup_insert_Some [[<- <-]|[Hne' Hq']]%lookup_insert_Some Hqq; [done| | |by apply Hinv].
    + pose proof (Hsep' _ _ Hq'). lia.
    + pose proof (Hsep' _ _ Hq). lia.
  - intros a Ha. rewrite live_add by done. pose proof (hi_part _ _ _ Hinv a Ha) as Hp. pose proof (Hcov a). pose proof (Hap a).
    rewrite Hend. replace (b + 8 - 8) with b by lia. tauto.
Qed.

Lemma covers_apart s F U C y D a :
  hinv s F U → F = C ++ y :: D → y.1 ≤ a < y.1 + 8 * y.2 → ¬ covers (C ++ D) a.
Proof.
  intros Hinv HF Ha (x & Hx & Hxa). pose proof (hi_sorted _ _ _ Hinv) as Hs. rewrite HF in Hs.
  apply elem_of_app in Hx as [Hx|Hx].
  - pose proof (StronglySorted_app_1_elem_of _ _ _ x y Hs Hx ltac:(left)) as Hg. unfold gap in Hg. lia.
  - pose proof (sorted_after F C y D ltac:(by rewrite HF) HF) as Hg. pose proof (proj1 (Forall_forall _ _) Hg x Hx) as Hgx.
    unfold gap in Hgx. lia.
Qed.

Section take.
Context (s : heap) (F : list fblock) (U : gmap Z (list Z)) (Hinv : hinv s F U).
Context (T : list fblock) (z y : fblock) (D : list fblock) (HF : F = T ++ z :: y :: D).
Context (nu : Z) (Hnu : 1 ≤ nu ≤ y.2).

Lemma take_facts :
  F = (T ++ [z]) ++ y :: D ∧ z ∈ F ∧ y ∈ F ∧ start ≤ y.1 ∧ (y.1 - start) mod 8 = 0 ∧ y.1 + 8 * y.2 ≤ h_brk s ∧
  z.1 + 8 ≤ y.1 ∧ base ≤ z.1 ∧ h_brk s < 2147483648 ∧ StronglySorted gap (T ++ [z]) ∧ StronglySorted gap D ∧
  (∀ a b, a ∈ T ++ [z] → b ∈ D → gap a b) ∧ (∀ a, a ∈ T ++ [z] → gap a y) ∧ Forall (gap y) D.
Proof.
  assert (F = (T ++ [z]) ++ y :: D) as HF' by (rewrite HF, <- app_assoc; done).
  pose proof (hi_sorted _ _ _ Hinv) as Hs. rewrite HF' in Hs. apply StronglySorted_app in Hs as (Hcross & HsT & HsD).
  apply StronglySorted_inv in HsD as [HsD HgD].
  assert (z ∈ F ∧ y ∈ F) as [Hz Hy] by (rewrite HF; set_solver).
  pose proof (Hcross z y ltac:(set_solver) ltac:(left)) as Hzy. unfold gap in Hzy. pose proof Hstart as Hs.
  destruct (header_range _ _ _ Hinv z Hz) as (? & ? & _). pose proof (hi_brk _ _ _ Hinv) as Hb. unfold KERNBASE in Hb.
  destruct (free_block _ _ _ Hinv y Hy) as [->|(? & ? & ? & ?)]; [cbn in Hnu; lia|].
  split_and!; try done; try lia.
  - destruct (free_block _ _ _ Hinv z Hz) as [->|?]; cbn in *; lia.
  - intros a b Ha Hb'. apply Hcross; [done|by right].
  - intros a Ha. apply Hcross; [done|left].
Qed.

(** The whole block is taken out of the list. *)
Lemma take_all : y.2 = nu → taken s F nu y.1 (<[z.1 := hd_addr D base]> (h_mem s)) z.1 (T ++ z :: D).
Proof.
  intros He. destruct take_facts as (HF' & Hz & Hy & H1 & H2 & H3 & H4 & H5 & H6 & HsT & HsD & Hcr & Hgy & HgD).
  assert (T ++ z :: D = (T ++ [z]) ++ D) as HN by (by rewrite <- app_assoc).
  pose proof (hi_chain _ _ _ Hinv) as Hc. pose proof (hi_free _ _ _ Hinv) as Hf. pose proof (hi_head _ _ _ Hinv) as Hh.
  rewrite HF in Hc, Hf, Hh. rewrite chain_app in Hc. destruct Hc as (HcT & _ & Hzn & _ & Hyn & HcD). cbn [hd_addr] in HcT.
  rewrite !Forall_app, !Forall_cons in Hf. destruct Hf as (HfT & Hfz & _ & HfD).
  split.
  - apply chain_app. cbn [chain hd_addr]. rewrite word_insert, decide_True by done.
    rewrite word_insert, decide_False by lia. split_and!; [|done|done|].
    + eapply chain_frame, HcT. intros x Hx. pose proof (hi_sorted _ _ _ Hinv) as Hs. rewrite HF in Hs.
      pose proof (StronglySorted_app_1_elem_of _ _ _ x z Hs Hx ltac:(left)) as Hg. unfold gap in Hg.
      pose proof (free_block _ _ _ Hinv x ltac:(rewrite HF; set_solver)) as Hxf. pose proof Hstart.
      assert (x.1 + 8 ≤ z.1).
      { destruct Hxf as [->|?]; [|lia]. cbn in *. destruct (free_block _ _ _ Hinv z Hz) as [->|?]; cbn in *; lia. }
      rewrite !word_insert, !decide_False by lia. done.
    + eapply chain_frame, HcD. intros x Hx. pose proof (proj1 (Forall_forall _ _) HgD x Hx) as Hg. unfold gap in Hg.
      rewrite !word_insert, !decide_False by lia. done.
  - rewrite HN. by apply StronglySorted_app.
  - rewrite Forall_app, Forall_cons. done.
  - by destruct T.
  - rewrite fmap_app, fmap_cons. set_solver.
  - rewrite <- He. done.
  - rewrite word_insert, decide_False by lia. by rewrite Hyn.
  - intros a. rewrite HN, HF', !(covers_app (T ++ [z])), (covers_cons y), <- He. tauto.
  - intros a Ha. rewrite HN. by eapply covers_apart; [exact Hinv|exact HF'|rewrite He].
  - intros a Hno _. rewrite word_insert, decide_False; [done|]. intros ->. apply Hno. exists z. split; [done|lia].
Qed.

(** The tail of the block is taken. *)
Lemma take_tail : nu < y.2 → taken s F nu (y.1 + 8 * (y.2 - nu))
  (<[y.1 + 8 * (y.2 - nu) + 4 := nu]> (<[y.1 + 4 := y.2 - nu]> (h_mem s))) z.1 (T ++ z :: (y.1, y.2 - nu) :: D).
Proof.
  intros Hlt. destruct take_facts as (HF' & Hz & Hy & H1 & H2 & H3 & H4 & H5 & H6 & HsT & HsD & Hcr & Hgy & HgD).
  set (b := y.1 + 8 * (y.2 - nu)).
  assert (T ++ z :: (y.1, y.2 - nu) :: D = (T ++ [z]) ++ (y.1, y.2 - nu) :: D) as HN by (by rewrite <- app_assoc).
  pose proof (hi_chain _ _ _ Hinv) as Hc. pose proof (hi_free _ _ _ Hinv) as Hf. pose proof (hi_head _ _ _ Hinv) as Hh.
  rewrite HF' in Hc, Hf. rewrite HF in Hh. rewrite chain_app in Hc. destruct Hc as (HcT & Hyp & Hyn & HcD). cbn [hd_addr] in HcT.
  rewrite Forall_app, Forall_cons in Hf. destruct Hf as (HfT & Hfy & HfD).
  assert (y.1 + 8 ≤ b ∧ b + 8 * nu ≤ h_brk s) as [Hb1 Hb2] by (unfold b; lia).
  split.
  - rewrite HN. apply chain_app. cbn [chain hd_addr fst snd].
    rewrite !word_insert. rewrite (decide_False (P := y.1 = b + 4)), (decide_False (P := y.1 = y.1 + 4)),
      (decide_False (P := y.1 + 4 = b + 4)), decide_True by lia. split_and!; [|done|done|].
    + eapply chain_frame, HcT. intros x Hx. pose proof (Hgy x Hx) as Hg. unfold gap in Hg.
      pose proof (free_block _ _ _ Hinv x ltac:(rewrite HF'; set_solver)) as Hxf. pose proof Hstart.
      assert (x.1 + 8 ≤ y.1) by (destruct Hxf as [->|?]; cbn in *; lia).
      rewrite !word_insert, !decide_False by lia. done.
    + eapply chain_frame, HcD. intros x Hx. pose proof (proj1 (Forall_forall _ _) HgD x Hx) as Hg. unfold gap in Hg.
      rewrite !word_insert, !decide_False by lia. done.
  - rewrite HN. apply StronglySorted_app. split_and!; [|done|].
    + intros c d Hc Hd. apply elem_of_cons in Hd as [->|Hd]; [exact (Hgy c Hc)|by apply Hcr].
    + constructor; [done|]. eapply Forall_impl; [exact HgD|]. unfold gap. cbn. intros. lia.
  - rewrite HN, Forall_app, Forall_cons. split_and!; [done| |done]. right. cbn. split_and!; lia || done.
  - by destruct T.
  - rewrite fmap_app, !fmap_cons. set_solver.
  - split_and!; [unfold b; lia|done|]. replace (b - start) with (y.1 - start + (y.2 - nu) * 8) by (unfold b; lia). by rewrite Z.mod_add.
  - by rewrite word_insert, decide_True.
  - intros a. rewrite HN, HF', !(covers_app (T ++ [z])), (covers_cons y), (covers_cons (y.1, _)). cbn [fst snd].
    assert (y.1 ≤ a < y.1 + 8 * y.2 ↔ y.1 ≤ a < y.1 + 8 * (y.2 - nu) ∨ b ≤ a < b + 8 * nu) as -> by (unfold b; lia). tauto.
  - intros a Ha. rewrite HN, (covers_app (T ++ [z])), (covers_cons (y.1, _)). cbn [fst snd].
    pose proof (covers_apart _ _ _ _ _ _ a Hinv HF') as Hca. rewrite (covers_app (T ++ [z])) in Hca. specialize (Hca ltac:(unfold b in Ha; lia)).
    unfold b in Ha. intuition lia.
  - intros a Hno Hnc. rewrite !word_insert, !decide_False; [done|intros ->; apply Hno; exists y; split; [done|lia]|].
    intros ->. apply Hnc. exists y. split; [done|unfold b; lia].
Qed.
End take.

(** What a successful malloc of [nu] headers does: the block [p] is new. *)
Definition allocated (U : gmap Z (list Z)) (nu : Z) (p : Z) (s' : heap) : Prop :=
  ∃ F' ws, U !! p = None ∧ 4 * Z.of_nat (length ws) = 8 * (nu - 1) ∧ hinv s' F' (<[p := ws]> U).

Lemma wp_take s F U T z y D nu Q :
  hinv s F U → F = T ++ z :: y :: D → 1 ≤ nu ≤ y.2 →
  (∀ p s', allocated U nu p s' → h_brk s' = h_brk s → Q p s') →
  wp (p <- (if y.2 =? nu then
              q <- get_ptr base start y.1 ;;
              set_ptr base start z.1 q ;;;
              ret y.1
            else
              set_size base start y.1 (y.2 - nu) ;;;
              n <- get_size base start y.1 ;;
              let p := hdr_add y.1 n in
              set_size base start p nu ;;;
              ret p) ;;
      modify (set_freep z.1) ;;;
      ret (hdr_add p 1)) Q s.
Proof.
  intros Hinv HF Hnu HQ.
  destruct (take_facts _ _ _ Hinv _ _ _ _ HF _ Hnu) as (HF' & Hz & Hy & H1 & _ & H3 & H4 & H5 & H6 & _).
  destruct (header_mapped _ _ _ Hinv z Hz) as [Hmz _]. pose proof Hstart as Hst.
  assert (∀ b m' N, taken s F nu b m' z.1 N → Q (hdr_add b 1) (mkHeap m' z.1 (h_brk s))) as Hgo.
  { intros b m' N Htk. pose proof (tk_block _ _ _ _ _ _ _ Htk) as (Hb1 & Hb2 & _).
    destruct (hinv_taken s F U nu b m' z.1 N Hinv ltac:(lia) Htk) as [Hnone Hinv'].
    assert (hdr_add b 1 = b + 8) as -> by (unfold hdr_add; rewrite u32_small; lia).
    apply HQ; [|done]. exists N, (words_at m' (b + 8) (2 * (nu - 1))). split_and!; [done| |exact Hinv'].
    rewrite length_words_at; lia. }
  destruct (Z.eqb_spec y.2 nu) as [He|He].
  - wstep1. wstep1. eapply (wp_get_ptr _ _ _ Hinv y); [exact HF'|]. wstep1.
    assert (0 ≤ hd_addr D base < 2 ^ 32) as Hr.
    { destruct D as [|d D']; cbn [hd_addr]; [lia|].
      destruct (header_range _ _ _ Hinv d) as (? & ? & ? & _); [rewrite HF; set_solver|]. unfold KERNBASE in *. lia. }
    apply wp_st; [exact Hmz|exact Hr|]. wstep. unfold set_freep. cbn [h_mem h_freep h_brk].
    eapply Hgo, take_all; done.
  - assert (mapped base start s (y.1 + 4) = true ∧ mapped base start s (y.1 + 8 * (y.2 - nu) + 4) = true) as [Hm1 Hm2].
    { unfold mapped. split; apply orb_true_iff; right; apply andb_true_iff; split; lia. }
    wstep1. wstep1. unfold set_size, get_size. rewrite (u32_small (y.1 + 4)) by lia.
    apply wp_st; [exact Hm1|unfold is_u32; lia|]. wstep1. apply wp_ld; [exact Hm1|]. cbn [h_mem h_freep h_brk].
    rewrite word_insert, decide_True by done. wstep1. unfold hdr_add at 1. rewrite (u32_small (y.1 + _)) by lia.
    rewrite u32_small by lia. apply wp_st; [exact Hm2|unfold is_u32; lia|]. wstep. unfold set_freep. cbn [h_mem h_freep h_brk].
    assert (hdr_add y.1 (y.2 - nu) = y.1 + 8 * (y.2 - nu)) as -> by (unfold hdr_add; rewrite u32_small; lia).
    eapply Hgo, take_tail; try done. lia.
Qed.

(** The blocks malloc visits: [z] is the one before. *)
Fixpoint trail (F : list fblock) (z : fblock) (R : list fblock) : Prop :=
  match R with
  | [] => True
  | y :: R => (y = (base, 0) ∧ (∃ T, F = T ++ [z]) ∨ ∃ T S, F = T ++ z :: y :: S) ∧ trail F y R
  end.
Lemma trail_seg F T z R S : F = T ++ z :: R ++ S → trail F z R.
Proof.
  revert T z. induction R as [|y R IH]; intros T z HF; [done|]. split; [right; by exists T, (R ++ S)|].
  apply (IH (T ++ [z])). by rewrite <- app_assoc.
Qed.
Lemma trail_app F z R y R' : trail F z (R ++ [y]) → trail F y R' → trail F z (R ++ y :: R').
Proof. revert z. induction R as [|x R IH]; intros z; cbn [app trail]; [tauto|]. intros [? ?] ?. split; [done|]. by apply IH. Qed.

(** Once around the list, from the block after [f] to [f] itself. *)
Lemma trail_round F C f D : head F = Some (base, 0) → F = C ++ f :: D → trail F f (D ++ C ++ [f]).
Proof.
  intros Hh HF. assert (∀ z T, F = T ++ [z] → trail F z (C ++ [f])) as Hwrap.
  { intros z T HT. destruct C as [|c C]; cbn [app trail].
    - rewrite HF in Hh. cbn in Hh. injection Hh as ->. split; [left; eauto|done].
    - rewrite HF in Hh. cbn in Hh. injection Hh as ->. split; [left; eauto|].
      apply (trail_seg F [] (base, 0) (C ++ [f]) D). rewrite HF. cbn. by rewrite <- app_assoc. }
  destruct D as [|d D] using rev_ind; [cbn; by eapply Hwrap|clear IHD].
  rewrite <- app_assoc. cbn [app]. apply trail_app.
  - apply (trail_seg F C f _ []). by rewrite app_nil_r.
  - apply (Hwrap _ (C ++ f :: D)). rewrite HF, <- app_assoc. done.
Qed.

Section loop.
Context (s : heap) (F : list fblock) (U : gmap Z (list Z)) (Hinv : hinv s F U).
Context (nu : Z) (Hnu : 1 ≤ nu) (f : fblock) (Hf : h_freep s = f.1).

Lemma trail_in z y R : trail F z (y :: R) → ∃ C D, F = C ++ y :: D.
Proof.
  intros [[[-> _]|(T & S & HF)] _].
  - pose proof (hi_head _ _ _ Hinv) as Hh. destruct F as [|x D]; [done|]. injection Hh as ->. by exists [], D.
  - exists (T ++ [z]), S. by rewrite HF, <- app_assoc.
Qed.
Lemma wp_trail_ptr z y R Q : trail F z (y :: R) → Q y.1 s → wp (get_ptr base start z.1) Q s.
Proof. intros [[[-> (T & HF)]|(T & S & HF)] _] HQ; eapply (wp_get_ptr _ _ _ Hinv z); try exact HF; done. Qed.

(** A block that is large enough comes up. *)
Lemma loop_find R0 fuel z Q :
  trail F z (R0 ++ [f]) → Forall (λ y, y.1 ≠ f.1) R0 → Exists (λ y, nu ≤ y.2) (R0 ++ [f]) →
  (length (R0 ++ [f]) ≤ fuel)%nat →
  (∀ p s', allocated U nu p s' → h_brk s' = h_brk s → Q p s') →
  wp (malloc_loop base start grant fuel nu z.1 (hd_addr (R0 ++ [f]) base)) Q s.
Proof.
  intros Htr Hne Hex Hfuel HQ. revert z fuel Htr Hfuel Hne Hex. induction R0 as [|y R0 IH]; intros z fuel Htr Hfuel Hne Hex;
    (destruct fuel as [|fuel]; [cbn in Hfuel; lia|]); cbn [app hd_addr malloc_loop] in *;
    pose proof Htr as Htr0; destruct Htr as [Hstep Htr]; destruct (trail_in _ _ _ Htr0) as (C & D & HF); wstep1;
    (eapply (wp_get_size _ _ _ Hinv); [exact HF|]).
  - apply Exists_cons in Hex as [Hfit|Hex]; [|by apply Exists_nil in Hex]. rewrite (proj2 (Z.leb_le _ _) Hfit).
    destruct Hstep as [[-> _]|(T & S & HT)]; [cbn in Hfit; lia|]. by eapply wp_take.
  - apply Forall_cons in Hne as [Hy Hne]. destruct (Z.leb_spec nu y.2) as [Hfit|Hsmall].
    { destruct Hstep as [[-> _]|(T & S & HT)]; [cbn in Hfit; lia|]. by eapply wp_take. }
    apply Exists_cons in Hex as [?|Hex]; [lia|]. wstep1. wstep1. cbn [id]. rewrite Hf, (proj2 (Z.eqb_neq _ _) Hy).
    wstep1. destruct (R0 ++ [f]) as [|y' R] eqn:ER; [by destruct R0|]. eapply wp_trail_ptr; [exact Htr|].
    apply (IH y fuel); [done|cbn in *; lia|done|done].
Qed.

(** No block is large enough: after one round, morecore. *)
Lemma loop_none R0 fuel z Q :
  trail F z (R0 ++ [f]) → Forall (λ y, y.1 ≠ f.1) R0 → Forall (λ y, y.2 < nu) (R0 ++ [f]) →
  wp (p <- morecore base start grant nu ;;
      if p =? 0 then ret 0 else q <- get_ptr base start p ;; malloc_loop base start grant fuel nu p q) Q s →
  wp (malloc_loop base start grant (length (R0 ++ [f]) + fuel) nu z.1 (hd_addr (R0 ++ [f]) base)) Q s.
Proof.
  intros Htr Hne Hsm HQ. revert z Htr Hne Hsm. induction R0 as [|y R0 IH]; intros z Htr Hne Hsm;
    cbn [app hd_addr malloc_loop length Nat.add] in *; pose proof Htr as Htr0; destruct Htr as [Hstep Htr];
    destruct (trail_in _ _ _ Htr0) as (C & D & HF); wstep1; (eapply (wp_get_size _ _ _ Hinv); [exact HF|]);
    apply Forall_cons in Hsm as [Hy Hsm]; rewrite (proj2 (Z.leb_gt _ _) Hy); wstep1; wstep1; cbn [id]; rewrite Hf.
  - by rewrite Z.eqb_refl.
  - apply Forall_cons in Hne as [Hyf Hne]. rewrite (proj2 (Z.eqb_neq _ _) Hyf). wstep1.
    destruct (R0 ++ [f]) as [|y' R] eqn:ER; [by destruct R0|]. eapply wp_trail_ptr; [exact Htr|]. by apply (IH y).
Qed.
End loop.

(** The blocks other than [f] have other addresses. *)
Lemma round_ne s F U C f D : hinv s F U → F = C ++ f :: D → Forall (λ y, y.1 ≠ f.1) (D ++ C).
Proof.
  intros Hinv HF. pose proof (hi_sorted _ _ _ Hinv) as Hs. apply Forall_app. split; apply Forall_forall; intros y Hy.
  - pose proof (proj1 (Forall_forall _ _) (sorted_after _ _ _ _ Hs HF) y Hy) as Hg. unfold gap in Hg.
    destruct (header_range _ _ _ Hinv f) as (_ & ? & _); [rewrite HF; set_solver|]. lia.
  - rewrite HF in Hs. pose proof (StronglySorted_app_1_elem_of _ _ _ y f Hs Hy ltac:(left)) as Hg. unfold gap in Hg.
    destruct (header_range _ _ _ Hinv y) as (_ & ? & _); [rewrite HF; set_solver|]. lia.
Qed.

Definition units (nbytes : Z) : Z := (nbytes + 7) / 8 + 1.

Lemma wp_malloc_round s F U nu fuel Q :
  hinv s F U → 1 ≤ nu < 2 ^ 28 → (2 * length F + 1 ≤ fuel)%nat →
  (∀ p s', allocated U nu p s' → Q p s') →
  (grants s (core_units nu) = false → Q 0 s) →
  wp (q <- get_ptr base start (h_freep s) ;; malloc_loop base start grant fuel nu (h_freep s) q) Q s.
Proof.
  intros Hinv Hnu Hfuel HQ HQ0. pose proof (hi_freep _ _ _ Hinv) as (f & Hf & Hin)%list_elem_of_fmap.
  apply list_elem_of_split in Hin as (C & D & HF). pose proof (hi_head _ _ _ Hinv) as Hh.
  pose proof (trail_round F C f D Hh HF) as Htr. rewrite app_assoc in Htr. pose proof (round_ne _ _ _ _ _ _ Hinv HF) as Hne.
  assert (length ((D ++ C) ++ [f]) = length F) as Hlen by (rewrite HF, !length_app; cbn; lia).
  rewrite Hf. wstep1. destruct ((D ++ C) ++ [f]) as [|y R] eqn:ER; [by destruct (D ++ C)|].
  eapply (wp_trail_ptr _ _ _ Hinv); [exact Htr|]. change y.1 with (hd_addr (y :: R) base). rewrite <- ER in *. clear ER.
  destruct (decide (Exists (λ y, nu ≤ y.2) ((D ++ C) ++ [f]))) as [Hex|Hex].
  { eapply (loop_find _ _ _ Hinv); [lia|done|done|done|done|lia|]. intros. by apply HQ. }
  replace fuel with (length ((D ++ C) ++ [f]) + (fuel - length F))%nat by lia.
  eapply (loop_none _ _ _ Hinv); [done|done|done| |].
  { apply not_Exists_Forall in Hex; [|apply _]. eapply Forall_impl; [exact Hex|]. cbn. intros. lia. }
  wstep1. eapply wp_morecore; [exact Hinv|done|]. destruct (grants s (core_units nu)); [|by wstep; apply HQ0].
  intros s' F' Hinv' _ Hlen' (z & Hz & Hzn). pose proof (hi_freep _ _ _ Hinv') as (f' & Hf' & Hin)%list_elem_of_fmap.
  pose proof (header_range _ _ _ Hinv' f' Hin) as (Hfb & _).
  apply list_elem_of_split in Hin as (C' & D' & HF'). pose proof (hi_head _ _ _ Hinv') as Hh'.
  pose proof (trail_round F' C' f' D' Hh' HF') as Htr'. rewrite app_assoc in Htr'.
  pose proof (round_ne _ _ _ _ _ _ Hinv' HF') as Hne'.
  assert (length ((D' ++ C') ++ [f']) = length F') as Hl' by (rewrite HF', !length_app; cbn; lia).
  rewrite Hf', (proj2 (Z.eqb_neq f'.1 0)) by lia. wstep1.
  destruct ((D' ++ C') ++ [f']) as [|y' R'] eqn:ER; [by destruct (D' ++ C')|].
  eapply (wp_trail_ptr _ _ _ Hinv'); [exact Htr'|]. change y'.1 with (hd_addr (y' :: R') base). rewrite <- ER in *. clear ER.
  eapply (loop_find _ _ _ Hinv'); [lia|done|done|done| |lia|].
  - apply Exists_exists. exists z. split; [|done]. rewrite HF' in Hz. set_solver.
  - intros. by apply HQ.
Qed.

(** ** The heap as its client sees it *)
(** Before the first malloc, or a heap as above. *)
Definition hrel (s : heap) (U : gmap Z (list Z)) : Prop :=
  (h_freep s = 0 ∧ U = ∅ ∧ h_brk s = start) ∨ ∃ F, hinv s F U.

Lemma hinv_first m : word m base = base → word m (base + 4) = 0 → hinv (mkHeap m base start) [(base, 0)] ∅.
Proof.
  intros H1 H2. split; cbn [h_mem h_freep h_brk]; try done.
  - by repeat constructor.
  - constructor; [by left|constructor].
  - intros a Ha. lia.
  - set_solver.
  - lia.
  - by rewrite Z.sub_diag.
Qed.

Lemma wp_malloc s U nbytes Q :
  hrel s U → 0 ≤ nbytes < 2 ^ 30 →
  (∀ p s', allocated U (units nbytes) p s' → Q p s') →
  (∀ s', hrel s' U → grants s (core_units (units nbytes)) = false → Q 0 s') →
  wp (malloc base start grant nbytes) Q s.
Proof.
  intros Hrel Hn HQ HQ0. unfold malloc.
  assert (u32 (u32 (nbytes + 8 - 1) / 8 + 1) = units nbytes) as ->.
  { replace (nbytes + 8 - 1) with (nbytes + 7) by lia. rewrite (u32_small (nbytes + 7)) by lia.
    apply u32_small. unfold units. zlia. }
  assert (1 ≤ units nbytes < 2 ^ 28) as Hu by (unfold units; zlia). pose proof Hstart as Hst. unfold KERNBASE in Hst.
  wstep1. wstep1. cbn [id]. cbv zeta. wstep1. destruct Hrel as [(Hf & -> & Hb)|(F & Hinv)].
  - rewrite Hf. cbn [Z.eqb]. wstep1.
    assert (mapped base start s base = true ∧ mapped base start s (base + 4) = true) as [Hm1 Hm2].
    { unfold mapped. split; apply orb_true_iff; left; apply andb_true_iff; split; lia. }
    apply wp_st; [exact Hm1|unfold is_u32; lia|]. wstep1. wstep1. unfold set_size. rewrite u32_small by lia.
    apply wp_st; [exact Hm2|unfold is_u32; lia|]. wstep1. wstep1. cbn [id set_freep h_mem h_freep h_brk]. rewrite Hb.
    set (m := <[base + 4 := 0]> _). set (s1 := mkHeap m base start).
    assert (hinv s1 [(base, 0)] ∅) as Hinv.
    { apply hinv_first; unfold m; [by rewrite word_insert, decide_False, word_insert, decide_True by lia|by rewrite word_insert, decide_True]. }
    apply (wp_malloc_round s1 [(base, 0)] ∅); [done|done| |done|].
    + unfold list_fuel. cbn [length]. lia.
    + intros Hg. apply HQ0; [by right; exists [(base, 0)]|]. unfold grants in *. by rewrite Hb.
  - assert (h_freep s ≠ 0) as Hne.
    { pose proof (hi_freep _ _ _ Hinv) as (f & -> & Hin)%list_elem_of_fmap. pose proof (header_range _ _ _ Hinv f Hin). lia. }
    rewrite (proj2 (Z.eqb_neq _ _) Hne). wstep1. wstep1. wstep1. cbn [id].
    eapply wp_malloc_round; [exact Hinv|done| |done|].
    + pose proof (free_count _ _ _ Hinv). lia.
    + intros Hg. apply HQ0; [right; by exists F|done].
Qed.

(** The operations of a client: malloc, free, and a store into a block. *)
Inductive hop :=
| OMalloc (nbytes : Z)
| OFree (p : Z)
| OStore (p : Z) (i : nat) (v : Z).
Definition run_hop (op : hop) : M heap Z :=
  match op with
  | OMalloc n => malloc base start grant n
  | OFree p => free base start p ;;; ret 0
  | OStore p i v => st base start (p + 4 * Z.of_nat i) v ;;; ret 0
  end.
(** The client frees and stores into live blocks only. *)
Definition legal (U : gmap Z (list Z)) (op : hop) : Prop :=
  match op with
  | OMalloc n => 0 ≤ n < 2 ^ 30
  | OFree p => is_Some (U !! p)
  | OStore p i v => (∃ ws, U !! p = Some ws ∧ (i < length ws)%nat) ∧ is_u32 v
  end.
(** The live blocks and their contents after an operation that returned [r]. *)
Definition hop_spec (s : heap) (U : gmap Z (list Z)) (op : hop) (r : Z) (U' : gmap Z (list Z)) : Prop :=
  match op with
  | OMalloc n =>
    (r = 0 ∧ U' = U ∧ grants s (core_units (units n)) = false) ∨
    (∃ ws, U !! r = None ∧ r ≠ 0 ∧ (r - start) mod 8 = 0 ∧ n ≤ 4 * Z.of_nat (length ws) < n + 8 ∧ U' = <[r := ws]> U)
  | OFree p => U' = delete p U
  | OStore p i v => U' = alter (λ ws, <[i := v]> ws) p U
  end.

Lemma wp_heap_store s F U p i v ws Q :
  hinv s F U → U !! p = Some ws → (i < length ws)%nat → is_u32 v →
  (∀ s', hinv s' F (<[p := <[i := v]> ws]> U) → Q tt s') →
  wp (st base start (p + 4 * Z.of_nat i) v) Q s.
Proof.
  intros Hinv Hp Hi Hv HQ. destruct (hi_live _ _ _ Hinv p ws Hp) as [[Hr1 Hr2] Hal Hsz Hd]. unfold live_end in Hr2.
  apply wp_st; [unfold mapped; apply orb_true_iff; right; apply andb_true_iff; split; lia|done|]. apply HQ.
  assert (∀ q wq, <[p := <[i := v]> ws]> U !! q = Some wq → ∃ wq', U !! q = Some wq' ∧ length wq = length wq') as Hold.
  { intros q wq [[<- <-]|[Hne Hq]]%lookup_insert_Some; [exists ws; by rewrite length_insert|by exists wq]. }
  assert (∀ a, is_live (<[p := <[i := v]> ws]> U) a ↔ is_live U a) as Hlive.
  { intros a. split.
    - intros (q & wq & Hq & Ha). destruct (Hold q wq Hq) as (wq' & Hq' & Hl). exists q, wq'. unfold live_end in *. by rewrite <- Hl.
    - intros (q & wq & Hq & Ha). destruct (decide (q = p)) as [->|Hne].
      + exists p, (<[i := v]> ws). rewrite lookup_insert_eq. split; [done|]. rewrite Hp in Hq. injection Hq as <-.
        unfold live_end in *. by rewrite length_insert.
      + exists q, wq. by rewrite lookup_insert_ne. }
  assert (∀ x, x ∈ F → word (<[p + 4 * Z.of_nat i := v]> (h_mem s)) x.1 = word (h_mem s) x.1 ∧
    word (<[p + 4 * Z.of_nat i := v]> (h_mem s)) (x.1 + 4) = word (h_mem s) (x.1 + 4)) as Hw.
  { intros x Hx. destruct (block_sep _ _ _ Hinv x p ws Hx Hp); unfold live_end in *; rewrite !word_insert, !decide_False by lia; done. }
  split; cbn [h_mem h_freep h_brk]; try apply Hinv.
  - eapply chain_frame, Hinv. exact Hw.
  - intros q wq [[<- <-]|[Hne Hq]]%lookup_insert_Some.
    + split; unfold live_end; rewrite ?length_insert; [lia|done|rewrite word_insert, decide_False by lia; done|].
      intros j w Hj. rewrite word_insert. destruct (decide (j = i)) as [->|Hji].
      * rewrite list_lookup_insert_eq in Hj by done. injection Hj as <-. by rewrite decide_True.
      * rewrite list_lookup_insert_ne in Hj by done. rewrite decide_False by lia. by apply Hd.
    + destruct (hi_live _ _ _ Hinv q wq Hq) as [Hqr Hqa Hqs Hqd]. pose proof (hi_apart _ _ _ Hinv _ _ _ _ Hp Hq Hne) as Hsep.
      unfold live_end in *. split; [done|done|rewrite word_insert, decide_False by lia; done|].
      intros j w Hj. pose proof (lookup_lt_Some _ _ _ Hj). rewrite word_insert, decide_False by lia. by apply Hqd.
  - intros q wq q' wq' (w1 & Hq & Hl)%Hold (w2 & Hq' & Hl')%Hold Hne. unfold live_end. rewrite Hl, Hl'.
    by apply (hi_apart _ _ _ Hinv).
  - intros a Ha. rewrite Hlive. by apply Hinv.
Qed.

(** C19: the allocator.  For a client that frees and writes only blocks it has,
    malloc, free and writes never go wrong and keep the heap: its memory is
    exactly the free blocks, linked in order with no two adjacent, and the live
    blocks, which are disjoint and hold what the client stored in them.  malloc
    returns an aligned new block of the requested size, rounded up to 8 bytes, or
    0, the latter only when the kernel refuses to grow the process; free removes
    the block and changes no other. *)
Theorem heap_refines s U op :
  hrel s U → legal U op →
  wp (run_hop op) (λ r s', ∃ U', hop_spec s U op r U' ∧ hrel s' U') s.
Proof.
  intros Hrel Hlegal. destruct op as [n|p|p i v]; cbn [run_hop legal hop_spec] in *.
  - eapply wp_malloc; [done|done| |].
    + intros p s' (F' & ws & Hp & Hlen & Hinv). exists (<[p := ws]> U). split; [|right; by exists F'].
      right. exists ws. destruct (hi_live _ _ _ Hinv p ws) as [[Hr _] Hal _ _]; [by rewrite lookup_insert_eq|].
      unfold units in Hlen. split_and!; [done|lia|done|zlia|zlia|done].
    + intros s' Hrel' Hg. exists U. split; [by left|done].
  - destruct Hrel as [(_ & -> & _)|(F & Hinv)]; [by destruct Hlegal|]. destruct Hlegal as [ws Hp].
    wstep1. eapply wp_free; [done|done|]. intros s' F' Hinv' _ _ _. wstep1. exists (delete p U). split; [done|right; by exists F'].
  - destruct Hlegal as [(ws & Hp & Hi) Hv]. destruct Hrel as [(_ & -> & _)|(F & Hinv)]; [done|].
    wstep1. eapply wp_heap_store; [done..|]. intros s' Hinv'. wstep1. exists (<[p := <[i := v]> ws]> U).
    split; [|right; by exists F]. apply map_eq. intros q. destruct (decide (q = p)) as [->|Hne].
    + by rewrite lookup_insert_eq, lookup_alter_eq, Hp.
    + by rewrite lookup_insert_ne, lookup_alter_ne.
Qed.
End heap.

(** A process whose memory ends at 0x4000 before its first malloc. *)
Definition heap0 : heap := mkHeap ∅ 0 0x4000.
Lemma heap0_rel : hrel 0x1000 0x4000 heap0 ∅.
Proof. by left. Qed.

Lemma heap_refines_witness :
  ∃ r s' U', run_hop 0x1000 0x4000 (λ _ _, true) (OMalloc 100) heap0 = Ok r s' ∧ r ≠ 0 ∧
    hrel 0x1000 0x4000 s' U' ∧ is_Some (U' !! r).
Proof.
  destruct (wp_run _ _ _ (heap_refines 0x1000 0x4000 (λ _ _, true) ltac:(lia) ltac:(unfold KERNBASE; lia) heap0 ∅ (OMalloc 100)
    heap0_rel ltac:(cbn; lia))) as (r & s' & Hr & U' & Hspec & Hrel).
  exists r, s', U'. split; [exact Hr|]. destruct Hspec as [(_ & _ & Hg)|(ws & _ & Hne & _ & _ & ->)].
  - discriminate Hg.
  - split; [exact Hne|]. split; [exact Hrel|]. rewrite lookup_insert_eq. by exists ws.
Defined.

(** The number of headers is computed modulo 2^32: a request for the last sizes
    below 2^32 is answered with a block of no bytes. *)
Theorem malloc_wraps :
  ∃ s', malloc 0x1000 0x4000 (λ _ _, true) (2 ^ 32 - 1) heap0 = Ok 0xC000 s' ∧ h_brk s' = 0xC000.
Proof. eexists. split; vm_compute; reflexivity. Qed.
