(* ===== verification/Ide.v ===== *)
(** * The disk driver (ide.c)

    The buffers wait in a queue linked through their qnext fields; the first one
    is the request the drive works on.  The spin lock idelock makes each function
    atomic; iderw is cut where it sleeps.  The drive is an interface: its ports,
    and what the ATA standard says of a transfer of one sector. *)
From stdpp Require Import base list gmap numbers option strings.
From Stdlib Require Import ZArith Lia.
From S2P Require Import Prelude Layout Bio.
Open Scope Z_scope.

Abbreviation IDE_BSY := (0x80).
Abbreviation IDE_DRDY := (0x40).
Abbreviation IDE_DF := (0x20).
Abbreviation IDE_ERR := (0x01).
Abbreviation IDE_CMD_READ := (0x20).
Abbreviation IDE_CMD_WRITE := (0x30).

(** ** The drive *)
(** The command in progress: a read whose data has not been taken, a write whose
    data has not been given, for a drive and a sector. *)
Inductive command :=
| CNone
| CRead (drive sec : Z)
| CWrite (drive sec : Z).

(** The drive and the sector that the registers 0x1f3 to 0x1f6 select. *)
Definition reg_drive (r : Z → Z) : Z := Z.land (Z.shiftr (r 0x1f6) 4) 1.
Definition reg_sector (r : Z → Z) : Z :=
  r 0x1f3 + 2 ^ 8 * r 0x1f4 + 2 ^ 16 * r 0x1f5 + 2 ^ 24 * Z.land (r 0x1f6) 0x0f.
Definition ready (status : Z) : bool := Z.land status (Z.lor IDE_BSY IDE_DRDY) =? IDE_DRDY.
Definition plain_port (p : Z) : bool := ((0x1f2 <=? p) && (p <=? 0x1f6)) || (p =? 0x3f6).

Class IdeDevice := {
  dev : Type;
  dev_outb : Z → Z → dev → dev;
  dev_status : dev → Z * dev;               (** inb(0x1f7) *)
  dev_outsl : list Z → dev → dev;           (** outsl(0x1f0, ...) *)
  dev_insl : dev → list Z * dev;            (** insl(0x1f0, ...) *)
  (** What is in the drive: the registers, the command, and the sectors. *)
  dev_reg : dev → Z → Z;
  dev_cmd : dev → command;
  dev_disk : dev → Z → list block;
  (** The number of looks at the status register until the drive is ready. *)
  dev_delay : dev → nat;

  dev_outb_reg d p v : plain_port p = true → is_u8 v →
    let d' := dev_outb p v d in
    (∀ q, dev_reg d' q = if decide (q = p) then v else dev_reg d q) ∧
    dev_cmd d' = dev_cmd d ∧ dev_disk d' = dev_disk d;
  dev_outb_read d : dev_cmd d = CNone → dev_reg d 0x1f2 = 1 →
    let d' := dev_outb 0x1f7 IDE_CMD_READ d in
    dev_cmd d' = CRead (reg_drive (dev_reg d)) (reg_sector (dev_reg d)) ∧ dev_disk d' = dev_disk d;
  dev_outb_write d : dev_cmd d = CNone → dev_reg d 0x1f2 = 1 →
    let d' := dev_outb 0x1f7 IDE_CMD_WRITE d in
    dev_cmd d' = CWrite (reg_drive (dev_reg d)) (reg_sector (dev_reg d)) ∧ dev_disk d' = dev_disk d;
  dev_outsl_ok d data k sec : dev_cmd d = CWrite k sec → length data = 512%nat →
    let d' := dev_outsl data d in
    dev_cmd d' = CNone ∧
    ∀ k', dev_disk d' k' = if decide (k' = k) then <[Z.to_nat sec := data]> (dev_disk d k) else dev_disk d k';
  dev_insl_ok d k sec data : dev_cmd d = CRead k sec → dev_disk d k !! Z.to_nat sec = Some data →
    (dev_insl d).1 = data ∧ dev_cmd (dev_insl d).2 = CNone ∧ dev_disk (dev_insl d).2 = dev_disk d;
  dev_status_keeps d : dev_reg (dev_status d).2 = dev_reg d ∧ dev_cmd (dev_status d).2 = dev_cmd d ∧
    dev_disk (dev_status d).2 = dev_disk d;
  dev_status_ready d : if ready (dev_status d).1 then True
                       else (dev_delay (dev_status d).2 < dev_delay d)%nat;
}.

(** struct buf of buf.h as the driver uses it *)
Record ibuf := mkIb { ib_flags : Z; ib_dev : Z; ib_sector : Z; ib_data : list Z; ib_qnext : option nat }.
Definition ib_set_flags (f : Z) (b : ibuf) : ibuf := mkIb f (ib_dev b) (ib_sector b) (ib_data b) (ib_qnext b).
Definition ib_set_data (d : list Z) (b : ibuf) : ibuf := mkIb (ib_flags b) (ib_dev b) (ib_sector b) d (ib_qnext b).
Definition ib_set_qnext (q : option nat) (b : ibuf) : ibuf := mkIb (ib_flags b) (ib_dev b) (ib_sector b) (ib_data b) q.

Section driver.
Context {D : IdeDevice}.

(** idequeue, havedisk1, the buffers, the drive, and the buffers woken up. *)
Record ide := mkIde {
  id_queue : option nat; id_havedisk1 : bool; id_bufs : list ibuf; id_dev : dev; id_woken : list nat }.
Definition on_dev {A} (f : dev → A * dev) : M ide A := λ s,
  let r := f (id_dev s) in Ok r.1 (mkIde (id_queue s) (id_havedisk1 s) (id_bufs s) r.2 (id_woken s)).
Definition outb (p v : Z) : M ide unit := on_dev (λ d, (tt, dev_outb p v d)).
Definition get_buf (b : nat) : M ide ibuf := λ s, lift_opt (id_bufs s !! b) s.
Definition mod_buf (b : nat) (f : ibuf → ibuf) : M ide unit :=
  _ <- get_buf b ;;
  modify (λ s, mkIde (id_queue s) (id_havedisk1 s) (alter f b (id_bufs s)) (id_dev s) (id_woken s)).
Definition set_queue (q : option nat) : M ide unit :=
  modify (λ s, mkIde q (id_havedisk1 s) (id_bufs s) (id_dev s) (id_woken s)).

Fixpoint idewait_loop (fuel : nat) (checkerr : bool) : M ide Z :=
  match fuel with
  | O => undefined
  | S fuel =>
    r <- on_dev dev_status ;;
    if negb (Z.land r (Z.lor IDE_BSY IDE_DRDY) =? IDE_DRDY) then idewait_loop fuel checkerr
    else if checkerr && has r (Z.lor IDE_DF IDE_ERR) then ret (-1)
    else ret 0
  end.
Definition idewait (checkerr : bool) : M ide Z :=
  s <- gets id ;;
  idewait_loop (S (dev_delay (id_dev s))) checkerr.

(** for(i=0; i<1000; i++) if(inb(0x1f7) != 0){ havedisk1 = 1; break; } *)
Fixpoint ideinit_loop (n : nat) : M ide unit :=
  match n with
  | O => ret tt
  | S n =>
    r <- on_dev dev_status ;;
    if negb (r =? 0) then modify (λ s, mkIde (id_queue s) true (id_bufs s) (id_dev s) (id_woken s))
    else ideinit_loop n
  end.
Definition ideinit : M ide unit :=
  idewait false ;;;
  outb 0x1f6 (Z.lor 0xe0 (Z.shiftl 1 4)) ;;;
  ideinit_loop 1000 ;;;
  outb 0x1f6 (Z.lor 0xe0 (Z.shiftl 0 4)).

Definition idestart (b : nat) : M ide unit :=
  x <- get_buf b ;;
  idewait false ;;;
  outb 0x3f6 0 ;;;
  outb 0x1f2 1 ;;;
  outb 0x1f3 (Z.land (ib_sector x) 0xff) ;;;
  outb 0x1f4 (Z.land (Z.shiftr (ib_sector x) 8) 0xff) ;;;
  outb 0x1f5 (Z.land (Z.shiftr (ib_sector x) 16) 0xff) ;;;
  outb 0x1f6 (Z.lor (Z.lor 0xe0 (Z.shiftl (Z.land (ib_dev x) 1) 4)) (Z.land (Z.shiftr (ib_sector x) 24) 0x0f)) ;;;
  if has (ib_flags x) B_DIRTY then
    outb 0x1f7 IDE_CMD_WRITE ;;;
    on_dev (λ d, (tt, dev_outsl (ib_data x) d))
  else outb 0x1f7 IDE_CMD_READ.

Definition ideintr : M ide unit :=
  s <- gets id ;;
  match id_queue s with
  | None => ret tt
  | Some b =>
    x <- get_buf b ;;
    set_queue (ib_qnext x) ;;;
    (if negb (has (ib_flags x) B_DIRTY) then
       r <- idewait true ;;
       if 0 <=? r then d <- on_dev dev_insl ;; mod_buf b (ib_set_data d) else ret tt
     else ret tt) ;;;
    mod_buf b (λ x, ib_set_flags (Z.lor (ib_flags x) B_VALID) x) ;;;
    mod_buf b (λ x, ib_set_flags (Z.land (ib_flags x) (Z.lnot B_DIRTY)) x) ;;;
    modify (λ s, mkIde (id_queue s) (id_havedisk1 s) (id_bufs s) (id_dev s) (id_woken s ++ [b])) ;;;
    s <- gets id ;;
    match id_queue s with
    | None => ret tt
    | Some q => idestart q
    end
  end.

(** for(pp=&idequeue; *pp; pp=&( *pp)->qnext); *pp = b; from the queue entry q on *)
Fixpoint append_loop (fuel : nat) (q b : nat) : M ide unit :=
  match fuel with
  | O => undefined
  | S fuel =>
    x <- get_buf q ;;
    match ib_qnext x with
    | None => mod_buf q (ib_set_qnext (Some b))
    | Some q => append_loop fuel q b
    end
  end.

(** iderw up to the loop in which it sleeps *)
Definition iderw_begin (b : nat) : M ide unit :=
  x <- get_buf b ;;
  s <- gets id ;;
  if negb (has (ib_flags x) B_BUSY) then panic "iderw: buf not busy"
  else if Z.land (ib_flags x) (Z.lor B_VALID B_DIRTY) =? B_VALID then panic "iderw: nothing to do"
  else if negb (ib_dev x =? 0) && negb (id_havedisk1 s) then panic "iderw: ide disk 1 not present"
  else
    mod_buf b (ib_set_qnext None) ;;;
    (match id_queue s with
     | None => set_queue (Some b)
     | Some q => append_loop (length (id_bufs s)) q b
     end) ;;;
    s <- gets id ;;
    if bool_decide (id_queue s = Some b) then idestart b else ret tt.
(** the loop; a process that sleeps runs it again when it is woken up *)
Definition iderw_wait (b : nat) : M ide unit :=
  x <- get_buf b ;;
  if negb (Z.land (ib_flags x) (Z.lor B_VALID B_DIRTY) =? B_VALID) then sleep_on else ret tt.
End driver.
