(* ===== verification/IdeSpec.v ===== *)
(** * The disk driver serves its requests in order (ide.c)

    An abstract disk with a queue of requests: an interrupt serves the first one
    at once, as the memory disk does.  The driver implements it on every drive
    that satisfies the interface. *)
From stdpp Require Import base list gmap numbers option strings.
From Stdlib Require Import ZArith Lia.
From S2P Require Import Prelude Layout Bio BioSpec Ide.
Open Scope Z_scope.

(** ** The abstract disk *)
Record abuf := mkAb { ab_flags : Z; ab_dev : Z; ab_sector : Z; ab_data : list Z }.
Definition strip (x : ibuf) : abuf := mkAb (ib_flags x) (ib_dev x) (ib_sector x) (ib_data x).
Definition drive (x : abuf) : Z := Z.land (ab_dev x) 1.
Definition dirty (x : abuf) : bool := has (ab_flags x) B_DIRTY.

(** The disk and the buffer when a request has been served. *)
Definition serve_disk (x : abuf) (A : Z → list block) (k : Z) : list block :=
  if dirty x then if decide (k = drive x) then <[Z.to_nat (ab_sector x) := ab_data x]> (A k) else A k
  else A k.
Definition serve_buf (x : abuf) (A : Z → list block) : abuf :=
  mkAb (Z.land (Z.lor (ab_flags x) B_VALID) (Z.lnot B_DIRTY)) (ab_dev x) (ab_sector x)
    (if dirty x then ab_data x else default (ab_data x) (A (drive x) !! Z.to_nat (ab_sector x))).

Record adisk := mkAd { ad_disk : Z → list block; ad_queue : list nat; ad_bufs : list abuf }.
Inductive ievent := IRequest (b : nat) | IInterrupt.

(** A buffer that may be given to iderw. *)
Record requestable (havedisk1 : bool) (A : Z → list block) (x : abuf) : Prop := {
  rq_busy : has (ab_flags x) B_BUSY = true;
  rq_work : Z.land (ab_flags x) (Z.lor B_VALID B_DIRTY) ≠ B_VALID;
  rq_dev : ab_dev x = 0 ∨ havedisk1 = true;
  rq_sector : 0 ≤ ab_sector x < 2 ^ 28;
  rq_range : (Z.to_nat (ab_sector x) < length (A (drive x)))%nat;
  rq_data : length (ab_data x) = 512%nat }.

(** One event on the abstract disk; a buffer waits in the queue at most once. *)
Inductive astep (havedisk1 : bool) : ievent → adisk → adisk → Prop :=
| astep_request b x A l bs :
    bs !! b = Some x → b ∉ l → requestable havedisk1 A x →
    astep havedisk1 (IRequest b) (mkAd A l bs) (mkAd A (l ++ [b]) bs)
| astep_spurious A bs :
    astep havedisk1 IInterrupt (mkAd A [] bs) (mkAd A [] bs)
| astep_serve b x A l bs :
    bs !! b = Some x →
    astep havedisk1 IInterrupt (mkAd A (b :: l) bs) (mkAd (serve_disk x A) l (<[b := serve_buf x A]> bs)).

(** ** Registers *)
Lemma drive_head u w : u = 0 ∨ u = 1 → 0 ≤ w < 16 → Z.lor (Z.lor 0xe0 (Z.shiftl u 4)) w = 0xe0 + 16 * u + w.
Proof.
  intros Hu Hw. rewrite (lor_disjoint 4) by (lia || by destruct Hu as [->| ->]).
  by destruct Hu as [->| ->].
Qed.
Lemma sector_bytes sec : 0 ≤ sec < 2 ^ 28 →
  Z.land sec 0xff + 2 ^ 8 * Z.land (Z.shiftr sec 8) 0xff + 2 ^ 16 * Z.land (Z.shiftr sec 16) 0xff
  + 2 ^ 24 * Z.land (Z.shiftr sec 24) 0x0f = sec.
Proof.
  intros H. change 0xff with (Z.ones 8). change 0x0f with (Z.ones 4).
  rewrite !Z.land_ones, !Z.shiftr_div_pow2 by lia. zlia.
Qed.
Lemma land_1 z : Z.land z 1 = 0 ∨ Z.land z 1 = 1.
Proof. rewrite (Z.land_ones z 1 ltac:(lia) : Z.land z 1 = z mod 2). zlia. Qed.
Lemma land_byte z n : 0 ≤ n ≤ 8 → is_u8 (Z.land z (Z.ones n)).
Proof.
  intros Hn. rewrite Z.land_ones by lia. unfold is_u8. pose proof (Z.mod_pos_bound z (2 ^ n)).
  pose proof (Z.pow_le_mono_r 2 n 8). lia.
Qed.

(** Choosing a sector: the writes to the registers 0x1f2 to 0x1f6. *)
Section select.
Context {D : IdeDevice}.
Definition select_sector (v3 v4 v5 v6 : Z) (d : dev) : dev :=
  dev_outb 0x1f6 v6 (dev_outb 0x1f5 v5 (dev_outb 0x1f4 v4 (dev_outb 0x1f3 v3 (dev_outb 0x1f2 1 d)))).
Lemma select_sector_spec v3 v4 v5 v6 d : is_u8 v3 → is_u8 v4 → is_u8 v5 → is_u8 v6 →
  let d' := select_sector v3 v4 v5 v6 d in
  dev_cmd d' = dev_cmd d ∧ dev_disk d' = dev_disk d ∧ dev_reg d' 0x1f2 = 1 ∧
  reg_drive (dev_reg d') = Z.land (Z.shiftr v6 4) 1 ∧
  reg_sector (dev_reg d') = v3 + 2 ^ 8 * v4 + 2 ^ 16 * v5 + 2 ^ 24 * Z.land v6 0x0f.
Proof.
  intros U3 U4 U5 U6. unfold select_sector.
  set (d2 := dev_outb 0x1f2 1 d). destruct (dev_outb_reg d 0x1f2 1 eq_refl ltac:(done)) as (R2 & C2 & D2). fold d2 in R2, C2, D2.
  set (d3 := dev_outb 0x1f3 v3 d2). destruct (dev_outb_reg d2 0x1f3 v3 eq_refl U3) as (R3 & C3 & D3). fold d3 in R3, C3, D3.
  set (d4 := dev_outb 0x1f4 v4 d3). destruct (dev_outb_reg d3 0x1f4 v4 eq_refl U4) as (R4 & C4 & D4). fold d4 in R4, C4, D4.
  set (d5 := dev_outb 0x1f5 v5 d4). destruct (dev_outb_reg d4 0x1f5 v5 eq_refl U5) as (R5 & C5 & D5). fold d5 in R5, C5, D5.
  set (d6 := dev_outb 0x1f6 v6 d5). destruct (dev_outb_reg d5 0x1f6 v6 eq_refl U6) as (R6 & C6 & D6). fold d6 in R6, C6, D6.
  cbv zeta. split_and!; [congruence|congruence|by rewrite R6, R5, R4, R3, R2| |].
  - unfold reg_drive. by rewrite R6.
  - unfold reg_sector. by rewrite !R6, !R5, !R4, !R3.
Qed.
End select.

Section driver.
Context {D : IdeDevice} (havedisk1 : bool).
(** The drive reports no error. *)
Context (no_error : ∀ d, ready (dev_status d).1 = true → has (dev_status d).1 (Z.lor IDE_DF IDE_ERR) = false).

Definition with_dev (d : dev) (s : ide) : ide := mkIde (id_queue s) (id_havedisk1 s) (id_bufs s) d (id_woken s).
(** The drive after a look at its status. *)
Definition same_dev (d d' : dev) : Prop := dev_reg d' = dev_reg d ∧ dev_cmd d' = dev_cmd d ∧ dev_disk d' = dev_disk d.

Lemma wp_idewait c s Q : (∀ d', same_dev (id_dev s) d' → Q 0 (with_dev d' s)) → wp (idewait c) Q s.
Proof.
  intros HQ. unfold idewait. wstep1. wstep1. cbn [id].
  assert (∀ fuel s', s' = with_dev (id_dev s') s → same_dev (id_dev s) (id_dev s') →
    (dev_delay (id_dev s') < fuel)%nat → wp (idewait_loop fuel c) Q s') as Hloop.
  { induction fuel as [|fuel IH]; intros s' Hs' Hd Hfuel; [lia|]. cbn [idewait_loop].
    unfold wp, bind, on_dev. cbv zeta. fold (@wp ide Z).
    pose proof (dev_status_keeps (id_dev s')) as (K1 & K2 & K3). pose proof (dev_status_ready (id_dev s')) as Hr.
    pose proof (no_error (id_dev s')) as Hne.
    set (r := dev_status (id_dev s')) in *. set (s1 := mkIde _ _ _ r.2 _).
    assert (s1 = with_dev r.2 s) as Hs1 by (unfold s1; rewrite Hs'; done).
    assert (same_dev (id_dev s) r.2) as Hd1 by (destruct Hd as (? & ? & ?); split_and!; congruence).
    unfold ready in Hr. destruct (Z.land r.1 (Z.lor IDE_BSY IDE_DRDY) =? IDE_DRDY) eqn:E; cbn [negb].
    - rewrite (Hne E), andb_false_r. rewrite Hs1. by apply HQ.
    - apply (IH s1); [done|done|]. cbn. lia. }
  apply Hloop; [by destruct s|done|lia].
Qed.

Lemma wp_outb p v s Q : Q tt (with_dev (dev_outb p v (id_dev s)) s) → wp (outb p v) Q s.
Proof. done. Qed.
Lemma wp_get_buf b x s Q : id_bufs s !! b = Some x → Q x s → wp (get_buf b) Q s.
Proof. intros Hb HQ. unfold wp, get_buf. by rewrite Hb. Qed.
Lemma wp_mod_buf b x f s Q : id_bufs s !! b = Some x →
  Q tt (mkIde (id_queue s) (id_havedisk1 s) (<[b := f x]> (id_bufs s)) (id_dev s) (id_woken s)) → wp (mod_buf b f) Q s.
Proof.
  intros Hb HQ. unfold mod_buf. wstep1. eapply wp_get_buf; [done|]. wstep1.
  by rewrite (alter_at _ _ _ _ Hb).
Qed.

(** The value of register 0x1f6. *)
Definition drive_reg (x : abuf) : Z :=
  Z.lor (Z.lor 0xe0 (Z.shiftl (drive x) 4)) (Z.land (Z.shiftr (ab_sector x) 24) 0x0f).
Lemma drive_reg_spec x :
  is_u8 (drive_reg x) ∧ Z.land (Z.shiftr (drive_reg x) 4) 1 = drive x ∧
  Z.land (drive_reg x) 0x0f = Z.land (Z.shiftr (ab_sector x) 24) 0x0f.
Proof.
  unfold drive_reg. set (w := Z.land (Z.shiftr (ab_sector x) 24) 0x0f). pose proof (land_1 (ab_dev x)) as Hu. fold (drive x) in Hu.
  assert (0 ≤ w < 16) as Hw.
  { unfold w. change 0x0f with (Z.ones 4). rewrite Z.land_ones by lia. apply Z.mod_pos_bound. lia. }
  rewrite drive_head by done. split; [unfold is_u8; lia|].
  rewrite (Z.land_ones _ 1 ltac:(lia) : Z.land (Z.shiftr _ 4) 1 = Z.shiftr (0xe0 + 16 * drive x + w) 4 mod 2).
  rewrite (Z.land_ones _ 4 ltac:(lia) : Z.land _ 0x0f = (0xe0 + 16 * drive x + w) mod 16), Z.shiftr_div_pow2 by lia.
  change (2 ^ 4) with 16. split; zlia.
Qed.

(** The drive once the request [x] has been started. *)
Definition started (x : abuf) (A : Z → list block) (d : dev) : Prop :=
  (∀ k, dev_disk d k = serve_disk x A k) ∧
  dev_cmd d = if dirty x then CNone else CRead (drive x) (ab_sector x).

Lemma wp_idestart b x A s Q :
  id_bufs s !! b = Some x → dev_cmd (id_dev s) = CNone → (∀ k, dev_disk (id_dev s) k = A k) →
  0 ≤ ib_sector x < 2 ^ 28 → length (ib_data x) = 512%nat →
  (∀ d, started (strip x) A d → Q tt (with_dev d s)) → wp (idestart b) Q s.
Proof.
  intros Hb Hc HA Hsec Hlen HQ. unfold idestart. wstep1. eapply wp_get_buf; [done|]. wstep1. apply wp_idewait.
  intros d0 (R0 & C0 & D0). rewrite Hc in C0.
  set (v3 := Z.land (ib_sector x) 0xff). set (v4 := Z.land (Z.shiftr (ib_sector x) 8) 0xff).
  set (v5 := Z.land (Z.shiftr (ib_sector x) 16) 0xff). fold (drive (strip x)). change (ib_dev x) with (ab_dev (strip x)).
  fold (drive (strip x)). change (ib_sector x) with (ab_sector (strip x)) in *. fold (drive_reg (strip x)).
  destruct (drive_reg_spec (strip x)) as (U6 & Hdrive & Hlow).
  assert (is_u8 v3 ∧ is_u8 v4 ∧ is_u8 v5) as (U3 & U4 & U5) by (unfold v3, v4, v5; split_and!; by apply (land_byte _ 8)).
  do 6 (wstep1; apply wp_outb). cbn [id_dev with_dev].
  set (d1 := dev_outb 0x3f6 0 d0). destruct (dev_outb_reg d0 0x3f6 0 eq_refl ltac:(done)) as (_ & C1 & D1). fold d1 in C1, D1.
  destruct (select_sector_spec v3 v4 v5 (drive_reg (strip x)) d1 U3 U4 U5 U6) as (C6 & D6 & H1 & Hdr & Hse).
  fold (select_sector v3 v4 v5 (drive_reg (strip x)) d1). set (d6 := select_sector _ _ _ _ d1) in *.
  rewrite Hdrive in Hdr. rewrite Hlow in Hse. unfold v3, v4, v5 in Hse. rewrite sector_bytes in Hse by done.
  assert (dev_cmd d6 = CNone) as Hcmd by congruence.
  assert (∀ k, dev_disk d6 k = A k) as HA6 by (intros k; rewrite <- HA; congruence).
  change (has (ib_flags x) B_DIRTY) with (dirty (strip x)). destruct (dirty (strip x)) eqn:Edirty.
  - wstep1. apply wp_outb. cbn [id_dev with_dev]. destruct (dev_outb_write d6 Hcmd H1) as [C7 D7]. rewrite Hdr, Hse in C7.
    destruct (dev_outsl_ok _ (ib_data x) _ _ C7 Hlen) as [C8 D8]. apply HQ. split; [|by rewrite Edirty].
    intros k. rewrite D8, D7. unfold serve_disk. rewrite Edirty. case_decide as Hk; [subst k|]; by rewrite HA6.
  - apply wp_outb. destruct (dev_outb_read d6 Hcmd H1) as [C7 D7]. rewrite Hdr, Hse in C7. apply HQ.
    split; [|by rewrite Edirty]. intros k. cbn [id_dev with_dev]. rewrite D7. unfold serve_disk. by rewrite Edirty.
Qed.

(** ** The queue in the buffers *)
Fixpoint qlink (bs : list ibuf) (q : option nat) (l : list nat) : Prop :=
  match l with
  | [] => q = None
  | b :: l => q = Some b ∧ ∃ x, bs !! b = Some x ∧ qlink bs (ib_qnext x) l
  end.
Lemma qlink_frame bs b x q l : b ∉ l → qlink bs q l → qlink (<[b := x]> bs) q l.
Proof.
  revert q. induction l as [|c l IH]; intros q Hb; [done|]. intros [-> (y & Hy & Hl)]. apply not_elem_of_cons in Hb as [Hne Hb].
  split; [done|]. exists y. rewrite list_lookup_insert_ne by done. split; [done|]. by apply IH.
Qed.
Lemma qlink_lt bs q l : qlink bs q l → Forall (λ b, (b < length bs)%nat) l.
Proof.
  revert q. induction l as [|c l IH]; intros q; [constructor|]. intros [_ (y & Hy & Hl)].
  constructor; [by eapply lookup_lt_Some|by eapply IH].
Qed.
Lemma queue_length bs q l : NoDup l → qlink bs q l → (length l ≤ length bs)%nat.
Proof.
  intros Hnd Hl%qlink_lt. rewrite <- (length_seq (length bs) 0). apply NoDup_incl_length; [by apply NoDup_ListNoDup|].
  intros b Hb. apply list_elem_of_In in Hb. apply in_seq. pose proof (proj1 (Forall_forall _ _) Hl b Hb). cbn in *. lia.
Qed.

Lemma wp_append_loop fuel s c l b Q :
  qlink (id_bufs s) (Some c) (c :: l) → NoDup (c :: l) → b ∉ c :: l →
  (∃ x, id_bufs s !! b = Some x ∧ ib_qnext x = None) → (length (c :: l) ≤ fuel)%nat →
  (∀ bs, qlink bs (Some c) (c :: l ++ [b]) → strip <$> bs = strip <$> id_bufs s →
    (∀ k, k ∉ c :: l → bs !! k = id_bufs s !! k) →
    Q tt (mkIde (id_queue s) (id_havedisk1 s) bs (id_dev s) (id_woken s))) →
  wp (append_loop fuel c b) Q s.
Proof.
  revert c l Q. induction fuel as [|fuel IH]; intros c l Q Hl Hnd Hb Hx Hfuel HQ; [cbn in Hfuel; lia|].
  destruct Hl as [_ (y & Hy & Hl)]. cbn [append_loop]. wstep1. eapply wp_get_buf; [done|].
  apply NoDup_cons in Hnd as [Hc Hnd]. apply not_elem_of_cons in Hb as [Hbc Hb].
  assert (∀ f, (∀ z, strip (f z) = strip z) → strip <$> <[c := f y]> (id_bufs s) = strip <$> id_bufs s) as Hstrip.
  { intros f Hf. rewrite list_fmap_insert, Hf. apply list_insert_id. by rewrite list_lookup_fmap, Hy. }
  destruct l as [|c' l].
  - cbn in Hl. rewrite Hl. eapply wp_mod_buf; [done|]. apply HQ; [|by apply Hstrip|].
    2: { intros k Hk. apply not_elem_of_cons in Hk as [Hk _]. by rewrite list_lookup_insert_ne. }
    split; [done|]. exists (ib_set_qnext (Some b) y). rewrite list_lookup_insert_eq by (by eapply lookup_lt_Some).
    split; [done|]. split; [done|]. destruct Hx as (x & Hx & Hn). exists x. by rewrite list_lookup_insert_ne.
  - pose proof Hl as [Hq Hl']. rewrite Hq. apply (IH c' l); [by rewrite Hq in Hl|done|done|done|cbn in *; lia|].
    intros bs Hbs Hs Hk. apply HQ; [|done|].
    + split; [done|]. exists y. rewrite (Hk c Hc), Hq. split; [done|exact Hbs].
    + intros k Hn. apply Hk. by apply not_elem_of_cons in Hn as [_ ?].
Qed.

(** ** The driver and the abstract disk *)
Record rel (s : ide) (a : adisk) : Prop := {
  re_have : id_havedisk1 s = havedisk1;
  re_bufs : strip <$> id_bufs s = ad_bufs a;
  re_queue : qlink (id_bufs s) (id_queue s) (ad_queue a);
  re_nodup : NoDup (ad_queue a);
  re_req b : b ∈ ad_queue a → ∃ x, ad_bufs a !! b = Some x ∧ requestable havedisk1 (ad_disk a) x;
  re_dev : match ad_queue a with
           | [] => dev_cmd (id_dev s) = CNone ∧ ∀ k, dev_disk (id_dev s) k = ad_disk a k
           | b :: _ => ∃ x, ad_bufs a !! b = Some x ∧ started x (ad_disk a) (id_dev s)
           end }.

Lemma serve_length x A k : length (serve_disk x A k) = length (A k).
Proof. unfold serve_disk. destruct (dirty x); [|done]. case_decide; [by rewrite length_insert|done]. Qed.
Lemma requestable_serve x y A : requestable havedisk1 A y → requestable havedisk1 (serve_disk x A) y.
Proof. intros [? ? ? ? ? ?]. split; try done. by rewrite serve_length. Qed.

Lemma wp_request s A l bs b x Q :
  rel s (mkAd A l bs) → bs !! b = Some x → b ∉ l → requestable havedisk1 A x →
  (∀ s', rel s' (mkAd A (l ++ [b]) bs) → id_woken s' = id_woken s → Q tt s') →
  wp (iderw_begin b) Q s.
Proof.
  intros [Hh Hbs Hq Hnd Hreq Hdev] Hb Hbl Hrq HQ. cbn [ad_bufs ad_queue ad_disk] in *. pose proof Hrq as [R1 R2 R3 R4 R5 R6].
  assert (∃ y, id_bufs s !! b = Some y ∧ strip y = x) as (y & Hy & <-).
  { rewrite <- Hbs, list_lookup_fmap in Hb. destruct (id_bufs s !! b) as [y|]; [|done]. exists y. by injection Hb. }
  unfold iderw_begin. wstep1. eapply wp_get_buf; [done|]. wstep1. wstep1. cbn [id].
  cbn [strip ab_flags ab_dev ab_sector ab_data] in *. rewrite R1, (proj2 (Z.eqb_neq _ _) R2), Hh. cbn [negb].
  assert (negb (ib_dev y =? 0) && negb havedisk1 = false) as ->.
  { destruct R3 as [->| ->]; [done|]. by rewrite andb_false_r. }
  wstep1. eapply wp_mod_buf; [done|]. set (y' := ib_set_qnext None y). set (bs1 := <[b := y']> (id_bufs s)).
  assert (bs1 !! b = Some y') as Hy' by (apply list_lookup_insert_eq; by eapply lookup_lt_Some).
  assert (strip <$> bs1 = bs) as Hbs1.
  { unfold bs1. rewrite list_fmap_insert, <- Hbs. apply list_insert_id. by rewrite list_lookup_fmap, Hy. }
  pose proof (qlink_frame _ b y' _ _ Hbl Hq) as Hq1. fold bs1 in Hq1.
  assert (NoDup (l ++ [b])) as Hnd' by (apply NoDup_app; split_and!; [done|set_solver|apply NoDup_singleton]).
  assert (∀ c, c ∈ l ++ [b] → ∃ x, bs !! c = Some x ∧ requestable havedisk1 A x) as Hreq'.
  { intros c [Hc|Hc%list_elem_of_singleton]%elem_of_app; [by apply Hreq|subst c; by exists (strip y)]. }
  cbn [id_queue id_bufs id_havedisk1 id_dev id_woken]. destruct l as [|c l].
  - cbn in Hq. rewrite Hq. wstep1. unfold set_queue. wstep1. wstep1. wstep1. cbn [id id_queue]. rewrite bool_decide_true by done.
    destruct Hdev as [Hc Hd]. eapply (wp_idestart b y' A); [exact Hy'|done|done|done|done|].
    intros d Hst. apply HQ; [|done]. split; cbn; try done.
    + split; [done|]. by exists y'.
    + exists (strip y). done.
  - pose proof Hq as [Hq0 _]. rewrite Hq0 in *. wstep1. eapply wp_append_loop; cbn [id_queue id_bufs id_havedisk1 id_dev id_woken].
    + exact Hq1.
    + done.
    + done.
    + by exists y'.
    + pose proof (queue_length _ _ _ Hnd Hq). by unfold bs1; rewrite ?length_insert.
    + intros bs2 Hq2 Hs2 _. wstep1. wstep1. cbn [id id_queue]. rewrite bool_decide_false.
      2: { intros [= ->]. apply Hbl. left. }
      wstep1. apply HQ; [|done]. split; cbn; try done. by rewrite Hs2.
Qed.

(** The transfer of the data, when the request is served. *)
Lemma wp_transfer s b y A Q :
  id_bufs s !! b = Some y → requestable havedisk1 A (strip y) → started (strip y) A (id_dev s) →
  (∀ d bs, dev_cmd d = CNone → (∀ k, dev_disk d k = serve_disk (strip y) A k) →
    bs = <[b := ib_set_data (ab_data (serve_buf (strip y) A)) y]> (id_bufs s) →
    Q tt (mkIde (id_queue s) (id_havedisk1 s) bs d (id_woken s))) →
  wp (if negb (has (ib_flags y) B_DIRTY) then
        r <- idewait true ;;
        if 0 <=? r then d <- on_dev dev_insl ;; mod_buf b (ib_set_data d) else ret tt
      else ret tt) Q s.
Proof.
  intros Hy Hrq [Hd Hc] HQ. unfold serve_buf in HQ. cbn [ab_data] in HQ.
  change (has (ib_flags y) B_DIRTY) with (dirty (strip y)). destruct (dirty (strip y)) eqn:E; cbn [negb].
  - wstep1. destruct s as [q h bs d w]. apply HQ; [done|done|]. cbn in *. symmetry. apply list_insert_id.
    rewrite Hy. by destruct y.
  - wstep1. apply wp_idewait. intros d0 (_ & C0 & D0). cbn [Z.leb Z.compare]. wstep1.
    destruct (lookup_lt_is_Some_2 (A (drive (strip y))) (Z.to_nat (ab_sector (strip y)))) as [data Hdata]; [apply Hrq|].
    rewrite Hdata in HQ. cbn [default from_option id] in HQ.
    destruct (dev_insl_ok d0 (drive (strip y)) (ab_sector (strip y)) data) as (I1 & I2 & I3).
    { by rewrite C0. }
    { rewrite D0, Hd. unfold serve_disk. by rewrite E. }
    unfold on_dev, wp at 1. cbv zeta. cbn [id_dev with_dev id_queue id_havedisk1 id_bufs id_woken]. rewrite I1.
    eapply wp_mod_buf; [exact Hy|]. apply HQ; [done| |done]. intros k. cbn [id_dev]. by rewrite I3, D0.
Qed.

Lemma wp_interrupt s A b l bs x Q :
  rel s (mkAd A (b :: l) bs) → bs !! b = Some x →
  (∀ s', rel s' (mkAd (serve_disk x A) l (<[b := serve_buf x A]> bs)) → id_woken s' = id_woken s ++ [b] → Q tt s') →
  wp ideintr Q s.
Proof.
  intros [Hh Hbs Hq Hnd Hreq (x' & Hx' & Hst)] Hx HQ. cbn [ad_bufs ad_queue ad_disk] in *.
  assert (x' = x) as -> by congruence. subst bs.
  destruct Hq as [Hq0 (y & Hy & Hl)]. apply NoDup_cons in Hnd as [Hbl Hnd].
  assert (strip y = x) as <-. { rewrite list_lookup_fmap, Hy in Hx. by injection Hx. }
  assert (requestable havedisk1 A (strip y)) as Hrq.
  { destruct (Hreq b) as (z & Hz & Hrz); [left|]. rewrite Hx in Hz. by injection Hz as <-. }
  unfold ideintr, set_queue. wstep1. wstep1. cbn [id]. rewrite Hq0. wstep1. eapply wp_get_buf; [done|]. wstep1. wstep1. wstep1.
  eapply (wp_transfer _ b y A); [exact Hy|done|exact Hst|]. intros d bs1 Hc Hd ->.
  cbn [id_queue id_havedisk1 id_bufs id_dev id_woken]. pose proof (lookup_lt_Some _ _ _ Hy) as Hlt.
  wstep1. eapply wp_mod_buf; [by apply list_lookup_insert_eq|]. wstep1.
  cbn [id_queue id_havedisk1 id_bufs id_dev id_woken]. rewrite list_insert_insert_eq.
  eapply wp_mod_buf; [by apply list_lookup_insert_eq|]. wstep1. wstep1. wstep1. wstep1.
  cbn [id id_queue id_havedisk1 id_bufs id_dev id_woken]. rewrite list_insert_insert_eq.
  set (y2 := ib_set_flags _ _). set (bs2 := <[b := y2]> (id_bufs s)).
  assert (strip y2 = serve_buf (strip y) A) as Hs2 by done.
  assert (strip <$> bs2 = <[b := serve_buf (strip y) A]> (strip <$> id_bufs s)) as Hstrip.
  { unfold bs2. by rewrite list_fmap_insert, Hs2. }
  pose proof (qlink_frame _ b y2 _ _ Hbl Hl) as Hl2. fold bs2 in Hl2.
  assert (∀ c, c ∈ l → ∃ z, <[b := serve_buf (strip y) A]> (strip <$> id_bufs s) !! c = Some z ∧
    requestable havedisk1 (serve_disk (strip y) A) z) as Hreq2.
  { intros c Hcl. destruct (Hreq c) as (z & Hz & Hrz); [by right|]. exists z.
    rewrite list_lookup_insert_ne by (intros ->; done). split; [done|]. by apply requestable_serve. }
  destruct l as [|c l].
  - cbn in Hl2. rewrite Hl2. wstep1. apply HQ; [|done]. split; cbn; done.
  - pose proof Hl2 as [Hn (z & Hz & _)]. rewrite Hn. destruct (Hreq2 c) as (z' & Hz' & Hrz); [left|].
    assert (z' = strip z) as ->. { rewrite <- Hstrip, list_lookup_fmap, Hz in Hz'. by injection Hz'. }
    eapply (wp_idestart c z (serve_disk (strip y) A)); [exact Hz|exact Hc|exact Hd|apply Hrz|apply Hrz|].
    intros d' Hst'. apply HQ; [|done]. split; cbn; try done.
    + by rewrite Hn in Hl2.
    + exists (strip z). done.
Qed.

(** ** Runs *)
Definition run_ievent (ev : ievent) : M ide unit :=
  match ev with IRequest b => iderw_begin b | IInterrupt => ideintr end.
(** The buffer an event serves. *)
Definition served (ev : ievent) (a : adisk) : list nat :=
  match ev with IRequest _ => [] | IInterrupt => match ad_queue a with [] => [] | b :: _ => [b] end end.
Inductive asteps : list ievent → adisk → list nat → adisk → Prop :=
| asteps_nil a : asteps [] a [] a
| asteps_cons ev evs a1 a2 l a3 :
    astep havedisk1 ev a1 a2 → asteps evs a2 l a3 → asteps (ev :: evs) a1 (served ev a1 ++ l) a3.

Lemma wp_ievent ev s a a' :
  rel s a → astep havedisk1 ev a a' →
  wp (run_ievent ev) (λ _ s', rel s' a' ∧ id_woken s' = id_woken s ++ served ev a) s.
Proof.
  intros Hrel Hst. destruct Hst as [b x A l bs Hx Hb Hrq|A bs|b x A l bs Hx]; cbn [run_ievent served ad_queue].
  - eapply wp_request; [done..|]. intros s' Hrel' ->. by rewrite app_nil_r.
  - unfold ideintr. wstep1. wstep1. cbn [id]. rewrite (re_queue _ _ Hrel : id_queue s = None). wstep1.
    by rewrite app_nil_r.
  - eapply wp_interrupt; [done..|]. by intros s' Hrel' ->.
Qed.

(** Whether a process that waits for a buffer goes on. *)
Lemma wait_result s a b x : rel s a → ad_bufs a !! b = Some x →
  iderw_wait b s = if Z.land (ab_flags x) (Z.lor B_VALID B_DIRTY) =? B_VALID then Ok tt s else Blocked s.
Proof.
  intros Hrel Hx. rewrite <- (re_bufs _ _ Hrel), list_lookup_fmap in Hx.
  destruct (id_bufs s !! b) as [y|] eqn:Hy; [|done]. injection Hx as <-.
  unfold iderw_wait, bind, get_buf. rewrite Hy. cbn [lift_opt ret]. cbn [strip ab_flags].
  by destruct (Z.land (ib_flags y) (Z.lor B_VALID B_DIRTY) =? B_VALID).
Qed.

(** C20: the disk driver.  On a drive that follows the ATA protocol without
    errors, any sequence of requests and interrupts is that of the abstract disk:
    the requests are served one at a time in the order in which they were made,
    each write reaching the disk and each read taking the sector as it is then;
    the processes are woken in that order, and one that waits for a buffer goes on
    exactly when its request has been served.  An interrupt with an empty queue
    does nothing. *)
Theorem ide_refines evs s a l a' :
  rel s a → asteps evs a l a' →
  wp (mfor evs run_ievent) (λ _ s', rel s' a' ∧ id_woken s' = id_woken s ++ l ∧
    ∀ b x, ad_bufs a' !! b = Some x →
      iderw_wait b s' = if Z.land (ab_flags x) (Z.lor B_VALID B_DIRTY) =? B_VALID then Ok tt s' else Blocked s') s.
Proof.
  intros Hrel Hst. revert s Hrel. induction Hst as [a|ev evs a1 a2 l a3 H1 H2 IH]; intros s Hrel; cbn [mfor].
  - wstep1. rewrite app_nil_r. split_and!; [done|done|]. intros. by eapply wait_result.
  - wstep1. eapply wp_mono; [by eapply wp_ievent|]. intros [] s1 [Hrel1 Hw1]. eapply wp_mono; [by apply IH|].
    intros [] s2 (Hrel2 & Hw2 & Hwait). split_and!; [done| |done]. by rewrite Hw2, Hw1, <- app_assoc.
Qed.


End driver.

(** ** A drive *)
(** A drive that is always ready and knows the registers it was given. *)
Record tiny := mkTiny { ty_reg : Z → Z; ty_cmd : command; ty_disk : Z → list block }.
Definition ty_outb (p v : Z) (d : tiny) : tiny :=
  if plain_port p then mkTiny (λ q, if decide (q = p) then v else ty_reg d q) (ty_cmd d) (ty_disk d)
  else if v =? IDE_CMD_READ then mkTiny (ty_reg d) (CRead (reg_drive (ty_reg d)) (reg_sector (ty_reg d))) (ty_disk d)
  else mkTiny (ty_reg d) (CWrite (reg_drive (ty_reg d)) (reg_sector (ty_reg d))) (ty_disk d).
Definition ty_outsl (data : list Z) (d : tiny) : tiny :=
  match ty_cmd d with
  | CWrite k sec => mkTiny (ty_reg d) CNone
      (λ k', if decide (k' = k) then <[Z.to_nat sec := data]> (ty_disk d k) else ty_disk d k')
  | _ => d
  end.
Definition ty_insl (d : tiny) : list Z * tiny :=
  match ty_cmd d with
  | CRead k sec => (default [] (ty_disk d k !! Z.to_nat sec), mkTiny (ty_reg d) CNone (ty_disk d))
  | _ => ([], d)
  end.
#[export] Program Instance tiny_drive : IdeDevice := {|
  dev := tiny; dev_outb := ty_outb; dev_status := λ d, (IDE_DRDY, d); dev_outsl := ty_outsl; dev_insl := ty_insl;
  dev_reg := ty_reg; dev_cmd := ty_cmd; dev_disk := ty_disk; dev_delay := λ _, 0%nat |}.
Next Obligation. intros d p v Hp Hv. unfold ty_outb. by rewrite Hp. Qed.
Next Obligation. done. Qed.
Next Obligation. done. Qed.
Next Obligation. intros d data k sec Hc Hl. unfold ty_outsl. by rewrite Hc. Qed.
Next Obligation. intros d k sec data Hc Hd. unfold ty_insl. by rewrite Hc, Hd. Qed.
Next Obligation. done. Qed.
Next Obligation. done. Qed.

Definition sector_of (v : Z) : block := replicate 512 v.
Definition tiny_abuf : abuf := mkAb (Z.lor B_BUSY B_DIRTY) 1 0 (sector_of 7).
Definition tiny_adisk : adisk := mkAd (λ _, [sector_of 0]) [] [tiny_abuf].
Definition tiny_ide : ide := mkIde None true [mkIb (Z.lor B_BUSY B_DIRTY) 1 0 (sector_of 7) None]
  (mkTiny (λ _, 0) CNone (λ _, [sector_of 0])) [].
Lemma tiny_requestable : requestable true (λ _, [sector_of 0]) tiny_abuf.
Proof. split; try done; [by right|cbn; lia]. Qed.
Lemma tiny_rel : rel true tiny_ide tiny_adisk.
Proof. split; try done; [constructor|]. intros b Hb. by apply elem_of_nil in Hb. Qed.

Lemma ide_refines_witness :
  ∃ s', mfor [IRequest 0; IInterrupt] run_ievent tiny_ide = Ok tt s' ∧ id_woken s' = [0%nat] ∧ iderw_wait 0 s' = Ok tt s'.
Proof.
  assert (asteps true [IRequest 0; IInterrupt] tiny_adisk [0%nat]
    (mkAd (serve_disk tiny_abuf (λ _, [sector_of 0])) [] [serve_buf tiny_abuf (λ _, [sector_of 0])])) as Hst.
  { change [0%nat] with (served (IRequest 0) tiny_adisk ++ [0%nat]).
    eapply asteps_cons; [apply (astep_request true 0 tiny_abuf); [done|by apply not_elem_of_nil|apply tiny_requestable]|].
    change [0%nat] with (served IInterrupt (mkAd (λ _, [sector_of 0]) [0%nat] [tiny_abuf]) ++ []).
    eapply asteps_cons; [by apply astep_serve|constructor]. }
  destruct (wp_run _ _ _ (@ide_refines tiny_drive true (λ d _, eq_refl) _ _ _ _ _ tiny_rel Hst)) as ([] & s' & Hr & Hrel & Hw & Hwait).
  exists s'. split; [exact Hr|]. split; [exact Hw|]. exact (Hwait 0%nat _ eq_refl).
Defined.

