(* ===== verification/Pmem.v ===== *)
(** * Physical memory as a function from addresses to bytes

    What the boot code and the configuration tables are written in terms of:
    bytes and little-endian numbers at an address, and stores of a run of bytes at
    32-bit addresses. *)
From stdpp Require Import base list numbers option.
From Stdlib Require Import ZArith Lia.
From S2P Require Import Prelude Layout.
Open Scope Z_scope.

Definition bytes_at (mem : Z → Z) (a : Z) (n : nat) : list Z := (λ i : nat, mem (a + Z.of_nat i)) <$> seq 0 n.
Definition mem_u16 (mem : Z → Z) (a : Z) : Z := le_dec (bytes_at mem a 2).
Definition mem_u32 (mem : Z → Z) (a : Z) : Z := le_dec (bytes_at mem a 4).

(** The bytes [bs] at address [p]. *)
Definition holds (mem : Z → Z) (p : Z) (bs : list Z) : Prop :=
  ∀ i b, bs !! i = Some b → mem (p + Z.of_nat i) = b.

(** insl and rep stosb: the address register counts modulo 2^32. *)
Definition store_bytes (a : Z) (bs : list Z) (mem : Z → Z) : Z → Z :=
  λ x, default (mem x) (bs !! Z.to_nat (u32 (x - a))).
Definition fill_bytes (a c n : Z) (mem : Z → Z) : Z → Z :=
  λ x, if u32 (x - a) <? n then u8 c else mem x.

Section pmem.
Context (mem : Z → Z).

Lemma length_bytes_at a n : length (bytes_at mem a n) = n.
Proof. unfold bytes_at. by rewrite length_fmap, length_seq. Qed.
Lemma lookup_bytes_at a n i : (i < n)%nat → bytes_at mem a n !! i = Some (mem (a + Z.of_nat i)).
Proof. intros Hi. unfold bytes_at. by rewrite list_lookup_fmap, lookup_seq_lt by done. Qed.

Lemma holds_bytes p bs : bytes_at mem p (length bs) = bs ↔ holds mem p bs.
Proof.
  split.
  - intros H i b Hi. pose proof (lookup_lt_Some _ _ _ Hi) as Hlt. rewrite <- H in Hi.
    rewrite lookup_bytes_at in Hi by done. by injection Hi.
  - intros H. apply list_eq_same_length with (length bs); [done|apply length_bytes_at|].
    intros i x y Hi Hx Hy. rewrite lookup_bytes_at in Hx by done. injection Hx as <-. by apply H.
Qed.
Lemma holds_app p b1 b2 : holds mem p (b1 ++ b2) ↔ holds mem p b1 ∧ holds mem (p + Z.of_nat (length b1)) b2.
Proof.
  unfold holds. split.
  - intros H. split.
    + intros i b Hi. apply H. by rewrite lookup_app_l by (by eapply lookup_lt_Some).
    + intros i b Hi. replace (p + Z.of_nat (length b1) + Z.of_nat i) with (p + Z.of_nat (length b1 + i)) by lia.
      apply H. rewrite lookup_app_r by lia. by replace (length b1 + i - length b1)%nat with i by lia.
  - intros [H1 H2] i b Hi. destruct (decide (i < length b1)%nat) as [Hlt|Hge].
    + apply H1. by rewrite lookup_app_l in Hi.
    + rewrite lookup_app_r in Hi by lia. apply H2 in Hi. rewrite <- Hi. f_equal. lia.
Qed.

Lemma store_bytes_in a bs x : 0 ≤ x - a < Z.of_nat (length bs) → Z.of_nat (length bs) ≤ 2 ^ 32 →
  store_bytes a bs mem x = bs !!! Z.to_nat (x - a).
Proof.
  intros Hx Hl. unfold store_bytes. rewrite u32_small by lia.
  rewrite (list_lookup_lookup_total_lt bs (Z.to_nat (x - a))) by lia. done.
Qed.
Lemma store_bytes_out a bs x : is_u32 a → is_u32 x → a + Z.of_nat (length bs) ≤ 2 ^ 32 →
  ¬ (a ≤ x < a + Z.of_nat (length bs)) → store_bytes a bs mem x = mem x.
Proof.
  unfold is_u32. intros Ha Hx Hl Hn. unfold store_bytes, u32. rewrite lookup_ge_None_2; [done|].
  destruct (decide (x < a)).
  - replace ((x - a) mod 2 ^ 32) with (x - a + 2 ^ 32); [lia|]. apply Z.mod_unique with (-1); lia.
  - rewrite Z.mod_small by lia. lia.
Qed.
Lemma fill_bytes_in a c n x : 0 ≤ x - a < n → n ≤ 2 ^ 32 → fill_bytes a c n mem x = u8 c.
Proof. intros Hx Hl. unfold fill_bytes. rewrite u32_small by lia. by rewrite (proj2 (Z.ltb_lt _ _)) by lia. Qed.
Lemma fill_bytes_out a c n x : is_u32 a → is_u32 x → a + n ≤ 2 ^ 32 → ¬ (a ≤ x < a + n) → fill_bytes a c n mem x = mem x.
Proof.
  unfold is_u32. intros Ha Hx Hl Hn. unfold fill_bytes, u32. destruct (decide (x < a)).
  - replace ((x - a) mod 2 ^ 32) with (x - a + 2 ^ 32); [|apply Z.mod_unique with (-1); lia].
    by rewrite (proj2 (Z.ltb_ge _ _)) by lia.
  - rewrite Z.mod_small by lia. by rewrite (proj2 (Z.ltb_ge _ _)) by lia.
Qed.
End pmem.
