(* ===== verification/Mp.v ===== *)
(** * Finding the processors (mp.c, mp.h)

    The BIOS leaves a configuration table in memory; mpinit walks through it.
    Memory is a function from physical addresses to bytes.  The for loop over the
    table has no increment of its own, so it is given fuel, and [Blocked] is a
    loop that is still running when the fuel is used up. *)
From stdpp Require Import base list numbers option strings.
From Stdlib Require Import ZArith Lia.
From S2P Require Import Prelude Kstring Layout Pmem Kalloc.
Open Scope Z_scope.

Definition NCPU : nat := 8.
Definition MPPROC : Z := 0x00.
Definition MPBUS : Z := 0x01.
Definition MPIOAPIC : Z := 0x02.
Definition MPIOINTR : Z := 0x03.
Definition MPLINTR : Z := 0x04.
Definition MPBOOT : Z := 0x02.
(** sizeof of struct mp, struct mpconf, struct mpproc and struct mpioapic *)
Definition SIZEOF_MP : Z := 16.
Definition SIZEOF_MPCONF : Z := 44.
Definition SIZEOF_MPPROC : Z := 20.
Definition SIZEOF_MPIOAPIC : Z := 8.

(** cpus[].id, the index of bcpu, ismp, ncpu, ioapicid, lapic, and the ports
    written. *)
Record mps := mkMps {
  mp_ids : list Z; mp_bcpu : Z; mp_ismp : bool; mp_ncpu : Z; mp_ioapicid : Z; mp_lapic : Z; mp_ports : list (Z * Z) }.
Definition mps0 : mps := mkMps (replicate NCPU 0) 0 false 0 0 0 [].

(** bcpu - cpus *)
Definition mpbcpu : M mps Z := gets mp_bcpu.

Section mp.
(** Physical memory, and what inb(0x23) reads. *)
Context (mem : Z → Z) (imcr : Z).

Definition mp_sum (addr : Z) (len : nat) : Z := u8 (foldl Z.add 0 (bytes_at mem addr len)).

(** The structure found, if any. *)
Fixpoint mpsearch1_loop (fuel : nat) (p e : Z) : option Z :=
  match fuel with
  | O => None
  | S fuel =>
    if p <? e then
      if (memcmp (bytes_at mem p 4) (cs "_MP_") 4 =? 0) && (mp_sum p (Z.to_nat SIZEOF_MP) =? 0) then Some p
      else mpsearch1_loop fuel (p + SIZEOF_MP) e
    else None
  end.
Definition mpsearch1 (a len : Z) : option Z := mpsearch1_loop (Z.to_nat len) a (a + len).

Definition mpsearch : option Z :=
  let bda := 0x400 in
  let p := Z.shiftl (Z.lor (Z.shiftl (mem (bda + 0x0F)) 8) (mem (bda + 0x0E))) 4 in
  if negb (p =? 0) then
    match mpsearch1 p 1024 with
    | Some mp => Some mp
    | None => mpsearch1 0xF0000 0x10000
    end
  else
    let p := Z.lor (Z.shiftl (mem (bda + 0x14)) 8) (mem (bda + 0x13)) * 1024 in
    match mpsearch1 (u32 (p - 1024)) 1024 with
    | Some mp => Some mp
    | None => mpsearch1 0xF0000 0x10000
    end.

(** The addresses of struct mp and struct mpconf. *)
Definition mpconfig : option (Z * Z) :=
  match mpsearch with
  | None => None
  | Some mp =>
    let conf := mem_u32 mem (mp + 4) in
    if conf =? 0 then None
    else if negb (memcmp (bytes_at mem conf 4) (cs "PCMP") 4 =? 0) then None
    else if negb (mem (conf + 6) =? 1) && negb (mem (conf + 6) =? 4) then None
    else if negb (mp_sum conf (Z.to_nat (mem_u16 mem (conf + 4))) =? 0) then None
    else Some (mp, conf)
  end.

Definition not_mp (s : mps) : mps :=
  mkMps (mp_ids s) (mp_bcpu s) false (mp_ncpu s) (mp_ioapicid s) (mp_lapic s) (mp_ports s).
(** case MPPROC *)
Definition mpinit_proc (p : Z) : M mps unit :=
  s <- gets id ;;
  (if negb (mp_ncpu s =? mem (p + 1)) then modify not_mp else ret tt) ;;;
  (if has (mem (p + 3)) MPBOOT then
     modify (λ s, mkMps (mp_ids s) (mp_ncpu s) (mp_ismp s) (mp_ncpu s) (mp_ioapicid s) (mp_lapic s) (mp_ports s))
   else ret tt) ;;;
  s <- gets id ;;
  ids <- lift_opt (aset (mp_ids s) (mp_ncpu s) (u8 (mp_ncpu s))) ;;
  modify (λ s, mkMps ids (mp_bcpu s) (mp_ismp s) (mp_ncpu s + 1) (mp_ioapicid s) (mp_lapic s) (mp_ports s)).

Fixpoint mpinit_loop (fuel : nat) (p e : Z) : M mps unit :=
  match fuel with
  | O => sleep_on
  | S fuel =>
    if p <? e then
      let t := mem p in
      if t =? MPPROC then mpinit_proc p ;;; mpinit_loop fuel (p + SIZEOF_MPPROC) e
      else if t =? MPIOAPIC then
        modify (λ s, mkMps (mp_ids s) (mp_bcpu s) (mp_ismp s) (mp_ncpu s) (mem (p + 1)) (mp_lapic s) (mp_ports s)) ;;;
        mpinit_loop fuel (p + SIZEOF_MPIOAPIC) e
      else if (t =? MPBUS) || (t =? MPIOINTR) || (t =? MPLINTR) then mpinit_loop fuel (p + 8) e
      else modify not_mp ;;; mpinit_loop fuel p e
    else ret tt
  end.

Definition mpinit (fuel : nat) : M mps unit :=
  modify (λ s, mkMps (mp_ids s) 0 (mp_ismp s) (mp_ncpu s) (mp_ioapicid s) (mp_lapic s) (mp_ports s)) ;;;
  match mpconfig with
  | None => ret tt
  | Some (mp, conf) =>
    modify (λ s, mkMps (mp_ids s) (mp_bcpu s) true (mp_ncpu s) (mp_ioapicid s) (mem_u32 mem (conf + 36)) (mp_ports s)) ;;;
    mpinit_loop fuel (conf + SIZEOF_MPCONF) (conf + mem_u16 mem (conf + 4)) ;;;
    s <- gets id ;;
    if negb (mp_ismp s) then
      modify (λ s, mkMps (mp_ids s) (mp_bcpu s) (mp_ismp s) 1 0 0 (mp_ports s))
    else if negb (mem (mp + 12) =? 0) then
      modify (λ s, mkMps (mp_ids s) (mp_bcpu s) (mp_ismp s) (mp_ncpu s) (mp_ioapicid s) (mp_lapic s)
                     (mp_ports s ++ [(0x22, 0x70); (0x23, Z.lor imcr 1)]))
    else ret tt
  end.
End mp.
