(* ===== verification/MpSpec.v ===== *)
(** * mpinit reads the configuration table (mp.c)

    The table as a list of typed entries; mpinit finds the processors and the I/O
    interrupt controller it lists.  An entry of another type makes it loop, and a
    table with more than NCPU processors makes it write outside cpus[]. *)
From stdpp Require Import base list numbers option strings.
From Stdlib Require Import ZArith Lia.
From S2P Require Import Prelude Kstring Layout Kalloc Pmem Mp.
Open Scope Z_scope.

(** ** Entries *)
Inductive mpentry :=
| EProc (apicid version flags : Z) (rest : list Z)
| EIoapic (apicno : Z) (rest : list Z)
| EOther (type : Z) (rest : list Z).
Definition enc_entry (e : mpentry) : list Z :=
  match e with
  | EProc a v f r => MPPROC :: a :: v :: f :: r
  | EIoapic a r => MPIOAPIC :: a :: r
  | EOther t r => t :: r
  end.
Definition entry_wf (e : mpentry) : Prop :=
  match e with
  | EProc _ _ _ r => length r = 16%nat
  | EIoapic _ r => length r = 6%nat
  | EOther t r => (t = MPBUS ∨ t = MPIOINTR ∨ t = MPLINTR) ∧ length r = 7%nat
  end.
Definition table (l : list mpentry) : list Z := concat (enc_entry <$> l).

(** What the entries say: the processors with their flags, the controllers. *)
Definition procs (l : list mpentry) : list (Z * Z) :=
  omap (λ e, match e with EProc a _ f _ => Some (a, f) | _ => None end) l.
Definition ioapics (l : list mpentry) : list Z :=
  omap (λ e, match e with EIoapic a _ => Some a | _ => None end) l.
(** The last processor marked as the one that boots, or the first. *)
Definition boot_proc (ps : list (Z * Z)) : Z :=
  default 0 (last (fst <$> filter (λ x, has x.2 MPBOOT = true) (imap (λ i x, (Z.of_nat i, x.2)) ps))).
(** The processors are numbered in order. *)
Definition in_order (ps : list (Z * Z)) : bool := bool_decide (ps.*1 = seqZ 0 (Z.of_nat (length ps))).

Section walk.
Context (mem : Z → Z) (imcr : Z).

(** The state after an entry. *)
Definition entry_step (s : mps) (e : mpentry) : mps :=
  match e with
  | EProc a _ f _ =>
    let n := mp_ncpu s in
    mkMps (<[Z.to_nat n := u8 n]> (mp_ids s)) (if has f MPBOOT then n else mp_bcpu s)
      (mp_ismp s && (n =? a)) (n + 1) (mp_ioapicid s) (mp_lapic s) (mp_ports s)
  | EIoapic a _ => mkMps (mp_ids s) (mp_bcpu s) (mp_ismp s) (mp_ncpu s) a (mp_lapic s) (mp_ports s)
  | EOther _ _ => s
  end.

Lemma wp_mpinit_proc p a v f r s Q :
  holds mem p (enc_entry (EProc a v f r)) → 0 ≤ mp_ncpu s < Z.of_nat (length (mp_ids s)) →
  Q tt (entry_step s (EProc a v f r)) → wp (mpinit_proc mem p) Q s.
Proof.
  intros Hm Hn HQ. unfold mpinit_proc.
  rewrite (Hm 1%nat a eq_refl : mem (p + 1) = a), (Hm 3%nat f eq_refl : mem (p + 3) = f).
  wstep1. wstep1. cbn [id]. destruct s as [ids bc im n io la po]. cbn [mp_ncpu mp_ids] in *.
  assert (aset ids n (u8 n) = Some (<[Z.to_nat n := u8 n]> ids)) as Has by (unfold aset; by rewrite decide_True by lia).
  wstep1. destruct (Z.eqb_spec n a) as [He|He]; cbn [negb];
    wstep1; wstep1; destruct (has f MPBOOT) eqn:Eb; wstep; unfold not_mp; cbn [id mp_ids mp_ncpu mp_bcpu mp_ismp mp_ioapicid mp_lapic mp_ports];
    rewrite Has; wstep; unfold entry_step in HQ; cbn [mp_ids mp_ncpu mp_bcpu mp_ismp mp_ioapicid mp_lapic mp_ports] in HQ;
    rewrite Eb in HQ; (rewrite (proj2 (Z.eqb_eq n a) He), andb_true_r in HQ || rewrite (proj2 (Z.eqb_neq n a) He), andb_false_r in HQ); exact HQ.
Qed.

Definition nprocs (l : list mpentry) : Z := Z.of_nat (length (procs l)).
Lemma length_table_cons e l : Z.of_nat (length (table (e :: l))) = Z.of_nat (length (enc_entry e)) + Z.of_nat (length (table l)).
Proof. unfold table. cbn [fmap list_fmap concat]. rewrite length_app. lia. Qed.

Lemma nprocs_cons e l : nprocs (e :: l) = (match e with EProc _ _ _ _ => 1 | _ => 0 end) + nprocs l.
Proof. unfold nprocs, procs. destruct e; cbn [omap list_omap length]; lia. Qed.

(** The loop over well-formed entries. *)
Lemma mpinit_walk l fuel p e s :
  Forall entry_wf l → holds mem p (table l) → p + Z.of_nat (length (table l)) ≤ e →
  0 ≤ mp_ncpu s → mp_ncpu s + nprocs l ≤ Z.of_nat (length (mp_ids s)) →
  mpinit_loop mem (length l + fuel) p e s
  = mpinit_loop mem fuel (p + Z.of_nat (length (table l))) e (foldl entry_step s l).
Proof.
  revert p s. induction l as [|en l IH]; intros p s Hwf Hm He H0 Hn; [cbn; by rewrite Z.add_0_r|].
  apply Forall_cons in Hwf as [Hw Hwf]. rewrite length_table_cons in He |- *.
  unfold table in Hm. cbn [fmap list_fmap concat] in Hm. apply holds_app in Hm as [Hm1 Hm2]. fold (table l) in Hm2.
  assert (0 < Z.of_nat (length (enc_entry en))) as Hpos by (destruct en; cbn; lia).
  replace (p + (Z.of_nat (length (enc_entry en)) + Z.of_nat (length (table l))))
    with (p + Z.of_nat (length (enc_entry en)) + Z.of_nat (length (table l))) by lia.
  assert (mp_ncpu (entry_step s en) + nprocs l ≤ Z.of_nat (length (mp_ids (entry_step s en))) ∧ 0 ≤ mp_ncpu (entry_step s en)) as [Hn' H0'].
  { rewrite nprocs_cons in Hn. destruct en; cbn [entry_step mp_ncpu mp_ids]; rewrite ?length_insert; lia. }
  cbn [length Nat.add mpinit_loop foldl]. rewrite (proj2 (Z.ltb_lt p e)) by lia.
  rewrite <- (IH (p + Z.of_nat (length (enc_entry en))) (entry_step s en)) by (done || lia).
  assert (mem p = default 0 (head (enc_entry en))) as ->.
  { destruct en; cbn; rewrite <- (Z.add_0_r p); exact (Hm1 0%nat _ eq_refl). }
  destruct en as [a v f r|a r|t r]; cbn [enc_entry head default from_option id].
  - cbn [Z.eqb MPPROC]. assert (0 ≤ mp_ncpu s < Z.of_nat (length (mp_ids s))) as Hlt.
    { rewrite nprocs_cons in Hn. unfold nprocs in Hn. lia. }
    destruct (wp_run _ _ _ (wp_mpinit_proc p a v f r s (λ _ s', s' = entry_step s (EProc a v f r)) Hm1 Hlt eq_refl)) as ([] & s' & Hr & ->).
    rewrite (bind_Ok _ _ _ _ _ Hr). do 2 f_equal. cbn in Hw. cbn [enc_entry length]. rewrite Hw. done.
  - cbn [Z.eqb MPPROC MPIOAPIC Pos.eqb]. rewrite (Hm1 1%nat a eq_refl : mem (p + 1) = a). unfold bind at 1, modify.
    f_equal. cbn in Hw. cbn [enc_entry length]. rewrite Hw. done.
  - cbn in Hw. destruct Hw as [Ht Hr]. cbn [entry_step].
    replace (t =? MPPROC) with false by (destruct Ht as [->|[->| ->]]; done).
    replace (t =? MPIOAPIC) with false by (destruct Ht as [->|[->| ->]]; done).
    replace ((t =? MPBUS) || (t =? MPIOINTR) || (t =? MPLINTR)) with true by (destruct Ht as [->|[->| ->]]; done).
    do 2 f_equal. cbn [enc_entry length]. rewrite Hr. done.
Qed.
End walk.

(** ** What the entries amount to *)
Lemma seqZ_snoc n : 0 ≤ n → seqZ 0 (n + 1) = seqZ 0 n ++ [n].
Proof. intros Hn. rewrite seqZ_app by lia. done. Qed.
Lemma boot_proc_snoc ps a f :
  boot_proc (ps ++ [(a, f)]) = if has f MPBOOT then Z.of_nat (length ps) else boot_proc ps.
Proof.
  unfold boot_proc. rewrite imap_app, filter_app, fmap_app. cbn [imap]. rewrite filter_cons, filter_nil.
  cbn [snd]. destruct (has f MPBOOT); [rewrite decide_True by done|rewrite decide_False by done].
  - cbn [fmap list_fmap fst]. rewrite last_snoc. cbn. unfold compose. cbn. lia.
  - cbn [fmap list_fmap]. by rewrite app_nil_r.
Qed.
Lemma in_order_snoc ps a f : in_order (ps ++ [(a, f)]) = in_order ps && (Z.of_nat (length ps) =? a).
Proof.
  unfold in_order. rewrite fmap_app, length_app. cbn [fmap list_fmap fst length].
  replace (Z.of_nat (length ps + 1)) with (Z.of_nat (length ps) + 1) by lia. rewrite seqZ_snoc by lia.
  apply Bool.eq_iff_eq_true. rewrite andb_true_iff, !bool_decide_eq_true, Z.eqb_eq. split.
  - intros H. apply app_inj_tail in H as [-> ->]. done.
  - by intros [-> ->].
Qed.
Lemma ids_snoc n : (n < 8)%nat →
  <[Z.to_nat (Z.of_nat n) := u8 (Z.of_nat n)]> (seqZ 0 (Z.of_nat n) ++ replicate (8 - n) 0)
  = seqZ 0 (Z.of_nat n + 1) ++ replicate (8 - S n) 0.
Proof.
  intros Hn. rewrite u8_small by lia. rewrite seqZ_snoc, <- app_assoc by lia.
  replace (Z.to_nat (Z.of_nat n)) with (length (seqZ 0 (Z.of_nat n)) + 0)%nat by (rewrite length_seqZ; lia).
  rewrite insert_app_r. f_equal. replace (8 - n)%nat with (S (8 - S n)) by lia. done.
Qed.

(** The state after all entries, with the local controller at [la]. *)
Definition found (l : list mpentry) (la : Z) : mps :=
  mkMps (seqZ 0 (nprocs l) ++ replicate (8 - length (procs l)) 0) (boot_proc (procs l)) (in_order (procs l))
    (nprocs l) (default 0 (last (ioapics l))) la [].
Lemma run_entries l la : nprocs l ≤ 8 → foldl entry_step (found [] la) l = found l la.
Proof.
  induction l as [|e l IH] using rev_ind; intros Hn; [done|]. rewrite foldl_app. cbn [foldl].
  unfold found, nprocs, procs, ioapics in *. rewrite !omap_app in *. rewrite length_app in Hn |- *. rewrite IH by lia.
  destruct e as [a v f r|a r|t r]; cbn [omap list_omap length] in *; rewrite ?app_nil_r, ?Nat.add_0_r; [| |done].
  - unfold entry_step. cbn [mp_ncpu mp_ids mp_bcpu mp_ismp mp_ioapicid mp_lapic mp_ports].
    rewrite boot_proc_snoc, in_order_snoc, ids_snoc by lia.
    replace (Z.of_nat (length (omap _ l) + 1)) with (Z.of_nat (length (omap (λ e, match e with EProc a _ f _ => Some (a, f) | _ => None end) l)) + 1) by lia.
    rewrite Nat.add_1_r. done.
  - unfold entry_step. cbn [mp_ncpu mp_ids mp_bcpu mp_ismp mp_ioapicid mp_lapic mp_ports]. by rewrite last_snoc.
Qed.

(** A configuration table in memory, found by mpconfig. *)
Record mp_table (mem : Z → Z) (mp conf : Z) (l : list mpentry) (more : Z) : Prop := {
  tb_config : mpconfig mem = Some (mp, conf);
  tb_wf : Forall entry_wf l;
  tb_mem : holds mem (conf + SIZEOF_MPCONF) (table l);
  tb_len : mem_u16 mem (conf + 4) = SIZEOF_MPCONF + Z.of_nat (length (table l)) + more }.

(** C25: the processors.  On a configuration table with at most NCPU processors,
    mpinit finishes after as many rounds as the table has entries.  If the
    processors are numbered in order it has recorded them all, the one that boots,
    and the last I/O controller and the local one of the table; otherwise it falls
    back to one processor without them. *)
Theorem mpinit_correct mem imcr mp conf l fuel :
  mp_table mem mp conf l 0 → nprocs l ≤ Z.of_nat NCPU → (length l < fuel)%nat →
  wp (mpinit mem imcr fuel) (λ _ s,
    if in_order (procs l) then
      mp_ismp s = true ∧ mp_ncpu s = nprocs l ∧ mp_ids s = seqZ 0 (nprocs l) ++ replicate (NCPU - length (procs l)) 0 ∧
      mp_bcpu s = boot_proc (procs l) ∧ mp_ioapicid s = default 0 (last (ioapics l)) ∧ mp_lapic s = mem_u32 mem (conf + 36)
    else mp_ismp s = false ∧ mp_ncpu s = 1 ∧ mp_lapic s = 0 ∧ mp_ioapicid s = 0) mps0.
Proof.
  intros [Hc Hwf Hm Hlen] Hn Hfuel. unfold mpinit. wstep1. wstep1. rewrite Hc. wstep1. wstep1. wstep1.
  cbn [mps0 mp_ids mp_bcpu mp_ismp mp_ncpu mp_ioapicid mp_lapic mp_ports].
  change (mkMps (replicate NCPU 0) 0 true 0 0 (mem_u32 mem (conf + 36)) []) with (found [] (mem_u32 mem (conf + 36))).
  apply wp_iff. exists tt, (found l (mem_u32 mem (conf + 36))). split.
  { rewrite <- (run_entries l _ Hn). replace fuel with (length l + S (fuel - length l - 1))%nat by lia.
    rewrite (mpinit_walk mem l) by (done || lia || (cbn; unfold NCPU in Hn; lia)). cbn [mpinit_loop].
    by rewrite (proj2 (Z.ltb_ge _ _)) by lia. }
  wstep1. wstep1. cbn [id]. unfold found at 1. cbn [mp_ismp]. destruct (in_order (procs l)) eqn:E; cbn [negb].
  - destruct (negb (mem (mp + 12) =? 0)); wstep; unfold found; rewrite E; done.
  - wstep. unfold found. rewrite E. done.
Qed.

(** ** Tables mpinit does not get through *)
Lemma table_app l1 l2 : table (l1 ++ l2) = table l1 ++ table l2.
Proof. unfold table. by rewrite fmap_app, concat_app. Qed.
Lemma nprocs_app l1 l2 : nprocs (l1 ++ l2) = nprocs l1 + nprocs l2.
Proof. unfold nprocs, procs. rewrite omap_app, length_app. lia. Qed.
Lemma nprocs_nonneg l : 0 ≤ nprocs l.
Proof. unfold nprocs. lia. Qed.
Lemma found_ok l la n : nprocs l ≤ n → n ≤ Z.of_nat NCPU →
  0 ≤ mp_ncpu (found [] la) ∧ mp_ncpu (found [] la) + nprocs l ≤ Z.of_nat (length (mp_ids (found [] la))).
Proof.
  intros H1 H2. change (mp_ncpu (found [] la)) with 0. change (length (mp_ids (found [] la))) with NCPU. lia.
Qed.

(** The loop stays at an entry of an unknown type. *)
Lemma mpinit_loop_stuck mem fuel p e s : p < e → MPLINTR < mem p → ∃ s', mpinit_loop mem fuel p e s = Blocked s'.
Proof.
  intros Hp Ht. revert s. induction fuel as [|fuel IH]; intros s; [by eexists|]. cbn [mpinit_loop].
  unfold MPLINTR in Ht. rewrite (proj2 (Z.ltb_lt p e)) by lia. unfold MPPROC, MPIOAPIC, MPBUS, MPIOINTR, MPLINTR.
  rewrite !(proj2 (Z.eqb_neq (mem p) _)) by lia. cbn [orb]. unfold bind at 1, modify. apply IH.
Qed.
Lemma mpinit_loop_unknown mem l fuel p e s :
  Forall entry_wf l → holds mem p (table l) → p + Z.of_nat (length (table l)) < e →
  0 ≤ mp_ncpu s → mp_ncpu s + nprocs l ≤ Z.of_nat (length (mp_ids s)) →
  MPLINTR < mem (p + Z.of_nat (length (table l))) → ∃ s', mpinit_loop mem fuel p e s = Blocked s'.
Proof.
  intros Hwf Hm He H0 Hn Ht. destruct (decide (length l ≤ fuel)%nat) as [Hle|Hgt].
  - replace fuel with (length l + (fuel - length l))%nat by lia.
    rewrite (mpinit_walk mem l) by (done || lia). by apply mpinit_loop_stuck.
  - rewrite <- (take_drop fuel l) in Hwf, Hm, He, Hn. rewrite table_app in Hm, He. rewrite nprocs_app in Hn.
    apply Forall_app in Hwf as [Hwf _]. apply holds_app in Hm as [Hm _]. rewrite length_app in He.
    pose proof (nprocs_nonneg (drop fuel l)). pose proof (mpinit_walk mem (take fuel l) 0 p e s Hwf Hm) as Hw.
    rewrite length_take, Nat.min_l, Nat.add_0_r in Hw by lia. rewrite Hw by lia. by eexists.
Qed.

(** an entry of an unknown type in the table keeps mpinit in its loop for ever:
    after any number of rounds it is still running. *)
Theorem mpinit_unknown mem imcr mp conf l more fuel :
  mp_table mem mp conf l more → nprocs l ≤ Z.of_nat NCPU → 0 < more →
  MPLINTR < mem (conf + SIZEOF_MPCONF + Z.of_nat (length (table l))) →
  ∃ s, mpinit mem imcr fuel mps0 = Blocked s.
Proof.
  intros [Hc Hwf Hm Hlen] Hn Hmore Ht. unfold mpinit. rewrite Hc.
  destruct (found_ok l (mem_u32 mem (conf + 36)) _ Hn ltac:(lia)) as [H1 H2].
  destruct (mpinit_loop_unknown mem l fuel (conf + SIZEOF_MPCONF) (conf + mem_u16 mem (conf + 4))
    (found [] (mem_u32 mem (conf + 36))) Hwf Hm ltac:(lia) H1 H2 Ht) as [s' Hs].
  exists s'. rewrite (bind_Ok _ _ _ _ _ (eq_refl : modify _ _ = Ok tt _)), (bind_Ok _ _ _ _ _ (eq_refl : modify _ _ = Ok tt _)).
  unfold bind at 1. unfold mps0. cbn [mp_ids mp_bcpu mp_ismp mp_ncpu mp_ioapicid mp_lapic mp_ports].
  change (mkMps (replicate NCPU 0) 0 true 0 0 (mem_u32 mem (conf + 36)) []) with (found [] (mem_u32 mem (conf + 36))).
  by rewrite Hs.
Qed.

Lemma too_many k l : 0 ≤ k < nprocs l → ∃ l1 a v f r l2, l = l1 ++ EProc a v f r :: l2 ∧ nprocs l1 = k.
Proof.
  revert k. induction l as [|e l IH]; intros k Hk; [unfold nprocs in Hk; cbn in Hk; lia|].
  rewrite nprocs_cons in Hk. destruct e as [a v f r|a r|t r].
  1: destruct (decide (k = 0)) as [->|Hne]; [by exists [], a, v, f, r, l|].
  1: destruct (IH (k - 1) ltac:(lia)) as (l1 & a' & v' & f' & r' & l2 & -> & Hl1); exists (EProc a v f r :: l1).
  2: destruct (IH k ltac:(lia)) as (l1 & a' & v' & f' & r' & l2 & -> & Hl1); exists (EIoapic a r :: l1).
  3: destruct (IH k ltac:(lia)) as (l1 & a' & v' & f' & r' & l2 & -> & Hl1); exists (EOther t r :: l1).
  all: exists a', v', f', r', l2; split; [done|]; rewrite nprocs_cons; lia.
Qed.

(** C36: a table with more processors than NCPU makes mpinit write past the end of
    cpus[]: there is no check of ncpu against the array. *)
Theorem mpinit_overflow mem imcr mp conf l fuel :
  mp_table mem mp conf l 0 → Z.of_nat NCPU < nprocs l → (length l < fuel)%nat →
  mpinit mem imcr fuel mps0 = Ub.
Proof.
  intros [Hc Hwf Hm Hlen] Hn Hfuel. unfold mpinit. rewrite Hc.
  destruct (too_many (Z.of_nat NCPU) l ltac:(unfold NCPU in *; lia)) as (l1 & a & v & f & r & l2 & -> & Hl1).
  apply Forall_app in Hwf as [Hwf _]. rewrite table_app in Hm, Hlen. rewrite length_app in Hlen, Hfuel.
  apply holds_app in Hm as [Hm1 Hm2]. pose proof (length_table_cons (EProc a v f r) l2) as Hlt. cbn [enc_entry length] in Hlt, Hfuel.
  pose proof (Hm2 0%nat MPPROC eq_refl) as Hty. rewrite Z.add_0_r in Hty.
  destruct (found_ok l1 (mem_u32 mem (conf + 36)) _ (Z.eq_le_incl _ _ Hl1) ltac:(lia)) as [H1 H2].
  unfold bind at 1, modify at 1. cbn [mps0 mp_ids mp_bcpu mp_ismp mp_ncpu mp_ioapicid mp_lapic mp_ports].
  unfold bind at 1, modify at 1. cbn [mp_ids mp_bcpu mp_ismp mp_ncpu mp_ioapicid mp_lapic mp_ports].
  change (mkMps (replicate NCPU 0) 0 true 0 0 (mem_u32 mem (conf + 36)) []) with (found [] (mem_u32 mem (conf + 36))).
  unfold bind at 1. replace fuel with (length l1 + S (fuel - length l1 - 1))%nat by lia.
  rewrite (mpinit_walk mem l1) by (done || lia). rewrite run_entries by (unfold NCPU in Hl1; lia).
  cbn [mpinit_loop]. rewrite (proj2 (Z.ltb_lt _ _)), Hty by lia. cbn [Z.eqb MPPROC].
  assert (mpinit_proc mem (conf + SIZEOF_MPCONF + Z.of_nat (length (table l1))) (found l1 (mem_u32 mem (conf + 36))) = Ub) as Hub.
  { unfold mpinit_proc, found. unfold bind, gets, modify, lift_opt, ret. cbn [id mp_ncpu]. rewrite Hl1.
    destruct (negb _); destruct (has _ _); cbn [id mp_ncpu mp_ids not_mp]; unfold aset; rewrite decide_False; try done;
      rewrite length_app, length_replicate, length_seqZ; unfold nprocs, NCPU in *; lia. }
  unfold bind at 1. by rewrite Hub.
Qed.

(** ** Example tables: struct mp at 0x800, struct mpconf at 0x900 *)
Definition with_sum (i : nat) (bs : list Z) : list Z := <[i := u8 (- foldl Z.add 0 bs)]> bs.
Definition ex_mp : list Z := with_sum 10 [95; 77; 80; 95; 0x00; 0x09; 0; 0; 1; 4; 0; 0; 0; 0; 0; 0].
Definition ex_conf (body : list Z) : list Z :=
  with_sum 7 ([80; 67; 77; 80; 44 + Z.of_nat (length body); 0; 1; 0] ++ replicate 28 0 ++ [0; 0; 0xE0; 0xFE; 0; 0; 0; 0] ++ body).
Definition ex_mem (body : list Z) (a : Z) : Z :=
  if a =? 0x40E then 0x80 else if a <? 0x800 then 0 else
  default 0 ((ex_mp ++ replicate 240 0 ++ ex_conf body) !! Z.to_nat (a - 0x800)).
Definition ex_entries : list mpentry :=
  [EProc 0 20 3 (replicate 16 0); EProc 1 20 1 (replicate 16 0); EOther MPBUS (replicate 7 0); EIoapic 2 (replicate 6 0)].
Definition ex_many : list mpentry := (λ i : nat, EProc (Z.of_nat i) 20 1 (replicate 16 0)) <$> seq 0 9.

Ltac ex_table := constructor; [by vm_compute|repeat constructor; naive_solver|apply holds_bytes; by vm_compute|by vm_compute].
Lemma ex_entries_table : mp_table (ex_mem (table ex_entries)) 0x800 0x900 ex_entries 0.
Proof. ex_table. Qed.
Lemma ex_unknown_table : mp_table (ex_mem (table ex_entries ++ [5])) 0x800 0x900 ex_entries 1.
Proof. ex_table. Qed.
Lemma ex_many_table : mp_table (ex_mem (table ex_many)) 0x800 0x900 ex_many 0.
Proof. ex_table. Qed.

(** Two processors, the first boots, controller 2. *)
Lemma mpinit_correct_witness :
  in_order (procs ex_entries) = true ∧
  wp (mpinit (ex_mem (table ex_entries)) 0 5) (λ _ s,
    if in_order (procs ex_entries) then
      mp_ismp s = true ∧ mp_ncpu s = nprocs ex_entries ∧
      mp_ids s = seqZ 0 (nprocs ex_entries) ++ replicate (NCPU - length (procs ex_entries)) 0 ∧
      mp_bcpu s = boot_proc (procs ex_entries) ∧ mp_ioapicid s = default 0 (last (ioapics ex_entries)) ∧
      mp_lapic s = mem_u32 (ex_mem (table ex_entries)) (0x900 + 36)
    else mp_ismp s = false ∧ mp_ncpu s = 1 ∧ mp_lapic s = 0 ∧ mp_ioapicid s = 0) mps0.
Proof. split; [done|]. apply (mpinit_correct _ 0 0x800 0x900 ex_entries 5 ex_entries_table); vm_compute; [done|lia]. Defined.

Lemma mpinit_unknown_witness : ∃ s, mpinit (ex_mem (table ex_entries ++ [5])) 0 1000 mps0 = Blocked s.
Proof. apply (mpinit_unknown _ 0 0x800 0x900 ex_entries 1 1000 ex_unknown_table); by vm_compute. Defined.

Lemma mpinit_overflow_witness : mpinit (ex_mem (table ex_many)) 0 10 mps0 = Ub.
Proof. apply (mpinit_overflow _ 0 0x800 0x900 ex_many 10 ex_many_table); vm_compute; [done|lia]. Defined.
