(* ===== verification/Boot.v ===== *)
(** * The boot loader (bootmain.c)

    bootmain reads the kernel, an ELF file that starts at sector 1 of the disk,
    into physical memory and jumps to its entry point.  The disk is the interface
    of Ide.v; a wait that goes on for ever is [Blocked]. *)
From stdpp Require Import base list numbers option strings.
From Stdlib Require Import ZArith Lia.
From S2P Require Import Prelude Layout Pmem Bio Ide IdeSpec Exec.
Open Scope Z_scope.

Definition SECTSIZE : Z := 512.
(** where bootmain puts the ELF header *)
Definition SCRATCH : Z := 0x10000.

Section boot.
Context {D : IdeDevice}.

Record boot := mkBoot { bt_mem : Z → Z; bt_dev : dev }.
Definition boot_dev {A} (f : dev → A * dev) : M boot A := λ s,
  let r := f (bt_dev s) in Ok r.1 (mkBoot (bt_mem s) r.2).
Definition boot_outb (p v : Z) : M boot unit := boot_dev (λ d, (tt, dev_outb p (u8 v) d)).
Definition boot_mem (f : (Z → Z) → Z → Z) : M boot unit := modify (λ s, mkBoot (f (bt_mem s)) (bt_dev s)).

Fixpoint waitdisk_loop (fuel : nat) : M boot unit :=
  match fuel with
  | O => sleep_on
  | S fuel =>
    r <- boot_dev dev_status ;;
    if negb (Z.land r 0xC0 =? 0x40) then waitdisk_loop fuel else ret tt
  end.
Definition waitdisk : M boot unit :=
  s <- gets id ;;
  waitdisk_loop (S (dev_delay (bt_dev s))).

Definition readsect (dst offset : Z) : M boot unit :=
  waitdisk ;;;
  boot_outb 0x1F2 1 ;;;
  boot_outb 0x1F3 offset ;;;
  boot_outb 0x1F4 (Z.shiftr offset 8) ;;;
  boot_outb 0x1F5 (Z.shiftr offset 16) ;;;
  boot_outb 0x1F6 (Z.lor (Z.shiftr offset 24) 0xE0) ;;;
  boot_outb 0x1F7 0x20 ;;;
  waitdisk ;;;
  data <- boot_dev dev_insl ;;
  boot_mem (store_bytes dst data).

Fixpoint readseg_loop (fuel : nat) (pa epa offset : Z) : M boot unit :=
  match fuel with
  | O => sleep_on
  | S fuel =>
    if pa <? epa then
      readsect pa offset ;;;
      readseg_loop fuel (u32 (pa + SECTSIZE)) epa (u32 (offset + 1))
    else ret tt
  end.
Definition readseg (pa count offset : Z) : M boot unit :=
  let epa := u32 (pa + count) in
  let pa := u32 (pa - offset mod SECTSIZE) in
  let offset := offset / SECTSIZE + 1 in
  readseg_loop (S (Z.to_nat ((epa - pa) / SECTSIZE + 1))) pa epa offset.

(** elf-> and ph->, read from memory *)
Definition boot_elf (s : boot) : elfhdr := dec_elfhdr (bytes_at (bt_mem s) SCRATCH (Z.to_nat SIZEOF_ELFHDR)).
Definition boot_ph (ph : Z) (s : boot) : proghdr := dec_proghdr (bytes_at (bt_mem s) ph (Z.to_nat SIZEOF_PROGHDR)).

Definition load_seg (ph : Z) : M boot unit :=
  h <- gets (boot_ph ph) ;;
  let pa := ph_paddr h in
  readseg pa (ph_filesz h) (ph_off h) ;;;
  h <- gets (boot_ph ph) ;;
  if ph_filesz h <? ph_memsz h then
    boot_mem (fill_bytes (u32 (pa + ph_filesz h)) 0 (ph_memsz h - ph_filesz h))
  else ret tt.
Fixpoint boot_loop (fuel : nat) (ph eph : Z) : M boot unit :=
  match fuel with
  | O => sleep_on
  | S fuel =>
    if ph <? eph then load_seg ph ;;; boot_loop fuel (u32 (ph + SIZEOF_PROGHDR)) eph else ret tt
  end.

(** The entry point that is called, or None when bootmain returns. *)
Definition bootmain : M boot (option Z) :=
  readseg SCRATCH 4096 0 ;;;
  elf <- gets boot_elf ;;
  if negb (elf_magic elf =? ELF_MAGIC) then ret None
  else
    let ph := u32 (SCRATCH + elf_phoff elf) in
    let eph := u32 (ph + SIZEOF_PROGHDR * elf_phnum elf) in
    boot_loop (S (Z.to_nat (elf_phnum elf))) ph eph ;;;
    elf <- gets boot_elf ;;
    ret (Some (elf_entry elf)).

(** ** The disk with the kernel on it *)
Record kernel_disk (kern : list Z) (d : dev) : Prop := {
  kd_idle : dev_cmd d = CNone;
  kd_blocks : Forall (λ b, length b = 512%nat) (dev_disk d 0);
  kd_kern : concat (drop 1 (dev_disk d 0)) = kern;
  kd_size : Z.of_nat (length (dev_disk d 0)) ≤ 2 ^ 28 }.

Lemma concat_block (l : list block) i : Forall (λ b, length b = 512%nat) l → (512 * S i ≤ length (concat l))%nat →
  l !! i = Some (slice (concat l) (512 * i) 512).
Proof.
  revert i. induction l as [|b l IH]; intros i Hl Hlen; [cbn in Hlen; lia|].
  apply Forall_cons in Hl as [Hb Hl]. cbn [concat] in *. rewrite length_app, Hb in Hlen. destruct i as [|i].
  - cbn. unfold slice. rewrite drop_0, take_app_le, take_ge by lia. done.
  - change ((b :: l) !! S i) with (l !! i). rewrite (IH i Hl) by lia. unfold slice.
    rewrite drop_app_ge by lia. do 2 f_equal. f_equal. lia.
Qed.
Lemma kern_sector kern d k : kernel_disk kern d → 0 ≤ k → 512 * (k + 1) ≤ Z.of_nat (length kern) →
  k + 1 < 2 ^ 28 ∧ dev_disk d 0 !! Z.to_nat (k + 1) = Some (slice kern (Z.to_nat (512 * k)) 512).
Proof.
  intros [_ Hb <- Hs] Hk Hlen. pose proof (concat_block (drop 1 (dev_disk d 0)) (Z.to_nat k)) as H.
  assert (Forall (λ b, length b = 512%nat) (drop 1 (dev_disk d 0))) as Hb' by (by apply Forall_drop).
  specialize (H Hb' ltac:(lia)). rewrite lookup_drop in H. replace (1 + Z.to_nat k)%nat with (Z.to_nat (k + 1)) in H by lia.
  split; [apply lookup_lt_Some in H; lia|]. rewrite H. f_equal. f_equal. lia.
Qed.
Lemma length_concat_blocks (l : list block) : Forall (λ b, length b = 512%nat) l → length (concat l) = (512 * length l)%nat.
Proof. induction 1 as [|b l Hb _ IH]; [done|]. cbn [concat length]. rewrite length_app, Hb, IH. lia. Qed.
Lemma kern_mult kern d : kernel_disk kern d → Z.of_nat (length kern) mod 512 = 0.
Proof.
  intros [_ Hb <- _]. rewrite length_concat_blocks by (by apply Forall_drop). zlia.
Qed.

(** ** Reading *)
Lemma wp_boot_outb p v s Q : Q tt (mkBoot (bt_mem s) (dev_outb p (u8 v) (bt_dev s))) → wp (boot_outb p v) Q s.
Proof. done. Qed.
Lemma wp_waitdisk s Q : (∀ d', same_dev (bt_dev s) d' → Q tt (mkBoot (bt_mem s) d')) → wp waitdisk Q s.
Proof.
  intros HQ. unfold waitdisk. wstep1. wstep1. cbn [id].
  assert (∀ fuel d, same_dev (bt_dev s) d → (dev_delay d < fuel)%nat → wp (waitdisk_loop fuel) Q (mkBoot (bt_mem s) d)) as Hloop.
  { induction fuel as [|fuel IH]; intros d Hd Hfuel; [lia|]. cbn [waitdisk_loop]. unfold wp, bind, boot_dev. cbv zeta. fold (@wp boot unit).
    cbn [bt_dev bt_mem]. pose proof (dev_status_keeps d) as (K1 & K2 & K3). pose proof (dev_status_ready d) as Hr.
    set (r := dev_status d) in *.
    assert (same_dev (bt_dev s) r.2) as Hd1 by (destruct Hd as (? & ? & ?); split_and!; congruence).
    unfold ready in Hr. change (Z.lor IDE_BSY IDE_DRDY) with 0xC0 in Hr. change IDE_DRDY with 0x40 in Hr.
    destruct (Z.land r.1 0xC0 =? 0x40); cbn [negb]; [by apply HQ|]. apply IH; [done|lia]. }
  destruct s as [mem d]. apply Hloop; [done|cbn; lia].
Qed.

Lemma boot_drive off : 0 ≤ off < 2 ^ 28 →
  let v := u8 (Z.lor (Z.shiftr off 24) 0xE0) in
  is_u8 v ∧ Z.land (Z.shiftr v 4) 1 = 0 ∧ Z.land v 0x0f = Z.land (Z.shiftr off 24) 0x0f.
Proof.
  intros Ho. assert (0 ≤ Z.shiftr off 24 < 16) as Hw by (rewrite Z.shiftr_div_pow2 by lia; zlia).
  set (w := Z.shiftr off 24) in *. rewrite Z.lor_comm, (lor_disjoint 4) by (done || lia). rewrite u8_small by lia. cbv zeta.
  split; [unfold is_u8; lia|].
  rewrite (Z.land_ones _ 1 ltac:(lia) : Z.land (Z.shiftr _ 4) 1 = Z.shiftr (0xE0 + w) 4 mod 2), Z.shiftr_div_pow2 by lia.
  rewrite (Z.land_ones _ 4 ltac:(lia) : Z.land (0xE0 + w) 0x0f = (0xE0 + w) mod 16).
  rewrite (Z.land_ones _ 4 ltac:(lia) : Z.land w 0x0f = w mod 16). change (2 ^ 4) with 16. split; zlia.
Qed.

Lemma wp_readsect kern dst k s Q : kernel_disk kern (bt_dev s) → 0 ≤ k → 512 * (k + 1) ≤ Z.of_nat (length kern) →
  (∀ d', kernel_disk kern d' → Q tt (mkBoot (store_bytes dst (slice kern (Z.to_nat (512 * k)) 512) (bt_mem s)) d')) →
  wp (readsect dst (k + 1)) Q s.
Proof.
  intros HK Hk Hlen HQ. destruct (kern_sector kern _ k HK Hk Hlen) as [Hk28 Hsec]. unfold readsect.
  wstep1. apply wp_waitdisk. intros d0 (R0 & C0 & D0). do 6 (wstep1; apply wp_boot_outb). cbn [bt_dev bt_mem].
  rewrite (u8_small 1), (u8_small 0x20) by lia. set (v := u8 (Z.lor (Z.shiftr (k + 1) 24) 0xE0)).
  destruct (boot_drive (k + 1) ltac:(lia)) as (U6 & Hdr & Hlow). fold v in U6, Hdr, Hlow.
  assert (∀ z, is_u8 (u8 z) ∧ u8 z = Z.land z 0xff) as Hu8.
  { intros z. unfold u8, is_u8. change 0xff with (Z.ones 8). rewrite Z.land_ones by lia. split; [|done]. zlia. }
  destruct (select_sector_spec (u8 (k + 1)) (u8 (Z.shiftr (k + 1) 8)) (u8 (Z.shiftr (k + 1) 16)) v d0
    (proj1 (Hu8 _)) (proj1 (Hu8 _)) (proj1 (Hu8 _)) U6) as (C1 & D1 & H1 & Hdr1 & Hse1).
  fold (select_sector (u8 (k + 1)) (u8 (Z.shiftr (k + 1) 8)) (u8 (Z.shiftr (k + 1) 16)) v d0).
  set (d1 := select_sector _ _ _ v d0) in *. rewrite !(proj2 (Hu8 _)), Hlow, sector_bytes in Hse1 by lia. rewrite Hdr in Hdr1.
  destruct (dev_outb_read d1) as [C2 D2]; [by rewrite C1, C0; apply HK|exact H1|]. rewrite Hdr1, Hse1 in C2.
  change 0x20 with IDE_CMD_READ. wstep1. apply wp_waitdisk. cbn [bt_dev bt_mem]. intros d3 (R3 & C3 & D3). rewrite C2 in C3.
  assert (dev_disk d3 = dev_disk (bt_dev s)) as Hdisk by congruence.
  destruct (dev_insl_ok d3 0 (k + 1) (slice kern (Z.to_nat (512 * k)) 512) C3) as (Hdata & C4 & D4); [by rewrite Hdisk|].
  wstep1. unfold wp, boot_dev. cbv zeta. fold (@wp boot unit). cbn [bt_dev bt_mem]. rewrite Hdata. apply HQ.
  cbn [bt_dev]. destruct HK. split; [done|rewrite D4, Hdisk; done..].
Qed.

(** Memory after [n] sectors of the kernel from byte [src] have been put at [lo]. *)
Definition loaded (kern : list Z) (src lo n : Z) (mem mem' : Z → Z) : Prop :=
  ∀ x, is_u32 x → mem' x = if decide (lo ≤ x < lo + 512 * n) then kern !!! Z.to_nat (src + (x - lo)) else mem x.

Lemma wp_readseg_loop kern (n : nat) fuel pa epa k s Q :
  kernel_disk kern (bt_dev s) → 0 ≤ pa → 0 ≤ k → pa + 512 * Z.of_nat n < 2 ^ 32 → (n < fuel)%nat →
  512 * (Z.of_nat n - 1) < epa - pa ≤ 512 * Z.of_nat n →
  (0 < Z.of_nat n → 512 * (k + Z.of_nat n) ≤ Z.of_nat (length kern)) →
  (∀ d' mem', kernel_disk kern d' → loaded kern (512 * k) pa (Z.of_nat n) (bt_mem s) mem' → Q tt (mkBoot mem' d')) →
  wp (readseg_loop fuel pa epa (k + 1)) Q s.
Proof.
  revert fuel pa k s. induction n as [|n IH]; intros fuel pa k s HK Hpa Hk Htop Hfuel Hn Hlen HQ;
    (destruct fuel as [|fuel]; [lia|]); cbn [readseg_loop].
  - rewrite (proj2 (Z.ltb_ge pa epa)) by lia. wstep1. destruct s as [mem d]. apply HQ; [exact HK|].
    intros x Hx. by rewrite decide_False by lia.
  - rewrite (proj2 (Z.ltb_lt pa epa)) by lia. specialize (Hlen ltac:(lia)). wstep1.
    apply (wp_readsect kern); [done|done|lia|]. intros d1 HK1. unfold SECTSIZE.
    assert (length (slice kern (Z.to_nat (512 * k)) 512) = 512%nat) as Hsl by (unfold slice; rewrite length_take, length_drop; lia).
    assert (Z.of_nat (length kern) ≤ 512 * 2 ^ 28) as Hbig.
    { destruct HK as [_ Hb <- Hs]. rewrite (length_concat_blocks _) by (by apply Forall_drop). rewrite length_drop. lia. }
    rewrite (u32_small (pa + 512)), (u32_small (k + 1 + 1)) by lia.
    apply (IH fuel (pa + 512) (k + 1)); [exact HK1|lia|lia|lia|lia|lia|intros; lia|].
    intros d' mem' HK' Hl. apply HQ; [done|]. cbn [bt_mem] in Hl. intros x Hx. rewrite Hl by done.
    destruct (decide (pa + 512 ≤ x < pa + 512 + 512 * Z.of_nat n)) as [Hin|Hout].
    + rewrite decide_True by lia. f_equal. lia.
    + destruct (decide (pa ≤ x < pa + 512)) as [Hin2|Hout2].
      * rewrite decide_True, store_bytes_in by (rewrite ?Hsl; lia). unfold slice.
        rewrite lookup_total_take_lt, lookup_total_drop by lia. f_equal. lia.
      * rewrite decide_False by lia. apply store_bytes_out; [unfold is_u32; lia|done|rewrite Hsl; lia|rewrite Hsl; lia].
Qed.

Lemma wp_readseg kern pa count off s Q :
  let n := (off mod 512 + count + 511) / 512 in
  kernel_disk kern (bt_dev s) → 0 ≤ count → is_u32 off → 0 ≤ pa - off mod 512 → pa + count + 512 ≤ 2 ^ 32 →
  (0 < n → off + count ≤ Z.of_nat (length kern)) →
  (∀ d' mem', kernel_disk kern d' → loaded kern (512 * (off / 512)) (pa - off mod 512) n (bt_mem s) mem' → Q tt (mkBoot mem' d')) →
  wp (readseg pa count off) Q s.
Proof.
  intros n HK Hc Ho Hpa Htop Hlen HQ. unfold is_u32 in Ho. pose proof (kern_mult _ _ HK) as Hm. unfold readseg, SECTSIZE.
  assert (512 * n < off mod 512 + count + 512 ∧ off mod 512 + count ≤ 512 * n) as Hn by (unfold n; zlia).
  pose proof (Z.mod_pos_bound off 512 ltac:(lia)) as Hr. pose proof (Z.div_mod off 512 ltac:(lia)) as Hdm.
  rewrite (u32_small (pa + count)), (u32_small (pa - off mod 512)) by lia.
  assert (0 ≤ off / 512 ∧ n ≤ (pa + count - (pa - off mod 512)) / 512 + 1) as [Hk Hfuel] by (unfold n; zlia).
  apply (wp_readseg_loop kern (Z.to_nat n)); rewrite ?Z2Nat.id by lia; [done|lia|done|lia|lia|lia| |exact HQ].
  intros H0. specialize (Hlen H0). zlia.
Qed.

(** ** Segments *)
Definition seg_bytes (kern : list Z) (h : proghdr) : list Z :=
  slice kern (Z.to_nat (ph_off h)) (Z.to_nat (ph_filesz h)) ++ replicate (Z.to_nat (ph_memsz h - ph_filesz h)) 0.
(** The segment, with the part of its first sector that comes before it, lies above [floor]. *)
Record seg_ok (kern : list Z) (floor : Z) (h : proghdr) : Prop := {
  sg_floor : floor ≤ ph_paddr h - ph_off h mod 512;
  sg_sizes : ph_filesz h ≤ ph_memsz h;
  sg_file : ph_off h + ph_filesz h ≤ Z.of_nat (length kern);
  sg_top : ph_paddr h + ph_memsz h + 512 ≤ 2 ^ 32 }.
Definition seg_empty (h : proghdr) : Prop :=
  ph_filesz h = 0 ∧ ph_memsz h = 0 ∧ ph_off h mod 512 = 0 ∧ ph_paddr h + 512 ≤ 2 ^ 32.
(** Segments in increasing order. *)
Fixpoint segs_ok (kern : list Z) (floor : Z) (hs : list proghdr) : Prop :=
  match hs with
  | [] => True
  | h :: hs => seg_empty h ∧ segs_ok kern floor hs ∨ seg_ok kern floor h ∧ segs_ok kern (ph_paddr h + ph_memsz h) hs
  end.
Definition ph_wf (h : proghdr) : Prop :=
  is_u32 (ph_off h) ∧ is_u32 (ph_paddr h) ∧ is_u32 (ph_filesz h) ∧ is_u32 (ph_memsz h).
Definition same_below (floor : Z) (mem mem' : Z → Z) : Prop := ∀ x, 0 ≤ x < floor → mem' x = mem x.

(** The header [h] is in the scratch page. *)
Definition header_at (mem : Z → Z) (ph : Z) (h : proghdr) : Prop :=
  ∀ mem' d, same_below (SCRATCH + 4096) mem mem' → boot_ph ph (mkBoot mem' d) = h.

Lemma wp_load_seg kern floor ph h s Q :
  kernel_disk kern (bt_dev s) → header_at (bt_mem s) ph h → ph_wf h → SCRATCH + 4096 ≤ floor →
  seg_ok kern floor h →
  (∀ d' mem', kernel_disk kern d' → same_below floor (bt_mem s) mem' → holds mem' (ph_paddr h) (seg_bytes kern h) →
    Q tt (mkBoot mem' d')) → wp (load_seg ph) Q s.
Proof.
  intros HK Hh (W1 & W2 & W3 & W4) Hfl [S1 S2 S3 S4] HQ. unfold is_u32, SCRATCH in *. pose proof (Z.mod_pos_bound (ph_off h) 512 ltac:(lia)) as Hr.
  pose proof (Z.div_mod (ph_off h) 512 ltac:(lia)) as Hdm.
  unfold load_seg. wstep1. wstep1. destruct s as [mem d]. cbn [bt_mem bt_dev] in *. rewrite (Hh mem d) by done. wstep1.
  apply (wp_readseg kern); [done|lia|unfold is_u32; lia|lia|lia|lia|]. intros d1 mem1 HK1 Hl. cbn [bt_mem] in Hl. wstep1. wstep1.
  set (n := (ph_off h mod 512 + ph_filesz h + 511) / 512) in Hl.
  assert (512 * n < ph_off h mod 512 + ph_filesz h + 512 ∧ ph_off h mod 512 + ph_filesz h ≤ 512 * n) as Hn by (unfold n; zlia).
  assert (same_below floor mem mem1) as Hb1.
  { intros x Hx. rewrite Hl by (unfold is_u32; lia). by rewrite decide_False by lia. }
  rewrite (Hh mem1 d1) by (intros x Hx; unfold SCRATCH in Hx; apply Hb1; lia). rewrite (u32_small (ph_paddr h + ph_filesz h)) by lia.
  assert (∀ i, 0 ≤ i < ph_filesz h → mem1 (ph_paddr h + i) = kern !!! Z.to_nat (ph_off h + i)) as Hfile.
  { intros i Hi. rewrite Hl by (unfold is_u32; lia). rewrite decide_True by lia. f_equal. lia. }
  assert (length (slice kern (Z.to_nat (ph_off h)) (Z.to_nat (ph_filesz h))) = Z.to_nat (ph_filesz h)) as Hsl.
  { unfold slice. rewrite length_take, length_drop. lia. }
  assert (∀ mem', (∀ i, 0 ≤ i < ph_filesz h → mem' (ph_paddr h + i) = mem1 (ph_paddr h + i)) →
    holds mem' (ph_paddr h + ph_filesz h) (replicate (Z.to_nat (ph_memsz h - ph_filesz h)) 0) →
    holds mem' (ph_paddr h) (seg_bytes kern h)) as Hseg.
  { intros mem' Hsame Hz. unfold seg_bytes. apply holds_app. rewrite Hsl, Z2Nat.id by lia. split; [|done].
    intros i b Hi. pose proof (lookup_lt_Some _ _ _ Hi) as Hlt. rewrite Hsl in Hlt. rewrite Hsame, Hfile by lia.
    unfold slice in Hi. rewrite lookup_take_lt, lookup_drop in Hi by lia. apply list_lookup_total_correct.
    rewrite <- Hi. f_equal. lia. }
  destruct (Z.ltb_spec (ph_filesz h) (ph_memsz h)) as [Hlt|Hge].
  - unfold boot_mem. wstep1. cbn [bt_mem bt_dev]. apply HQ; [done| |].
    + intros x Hx. rewrite fill_bytes_out by (unfold is_u32; lia). by apply Hb1.
    + apply Hseg.
      * intros i Hi. by rewrite fill_bytes_out by (unfold is_u32; lia).
      * intros i b Hi. apply lookup_replicate in Hi as [-> Hi]. by rewrite fill_bytes_in by lia.
  - wstep1. apply HQ; [done|done|]. apply Hseg; [done|]. intros i b Hi. apply lookup_replicate in Hi as [_ Hi]. lia.
Qed.

Lemma wp_load_empty kern ph h s Q :
  kernel_disk kern (bt_dev s) → header_at (bt_mem s) ph h → ph_wf h → seg_empty h →
  (∀ d' mem', kernel_disk kern d' → same_below (2 ^ 32) (bt_mem s) mem' → Q tt (mkBoot mem' d')) → wp (load_seg ph) Q s.
Proof.
  intros HK Hh (W1 & W2 & W3 & W4) (E1 & E2 & E3 & E4) HQ. unfold is_u32 in *. unfold load_seg. wstep1. wstep1.
  destruct s as [mem d]. cbn [bt_mem bt_dev] in *. rewrite (Hh mem d) by done. wstep1.
  apply (wp_readseg kern); rewrite ?E1, ?E3; [done|lia|done|lia|lia|intros H; by cbn in H|].
  intros d1 mem1 HK1 Hl. cbn [bt_mem] in Hl. assert (same_below (2 ^ 32) mem mem1) as Hb.
  { intros x Hx. rewrite Hl by done. rewrite decide_False; [done|]. change ((0 + 0 + 511) / 512) with 0. lia. }
  wstep1. wstep1. rewrite (Hh mem1 d1) by (intros x Hx; unfold SCRATCH in Hx; apply Hb; lia).
  rewrite E1, E2. change (0 <? 0) with false. cbv iota. wstep1. by apply HQ.
Qed.

(** The program headers of the kernel, and the first page of the file in memory. *)
Definition phdr (kern : list Z) (phoff : Z) (i : nat) : proghdr :=
  dec_proghdr (slice kern (Z.to_nat phoff + 32 * i) 32).
Definition scratch (kern : list Z) (mem : Z → Z) : Prop := holds mem SCRATCH (take 4096 kern).
Lemma scratch_same kern mem mem' : scratch kern mem → same_below (SCRATCH + 4096) mem mem' → scratch kern mem'.
Proof.
  intros Hs Hb i b Hi. pose proof (lookup_lt_Some _ _ _ Hi) as Hlt. rewrite length_take in Hlt.
  rewrite Hb by (unfold SCRATCH; lia). by apply Hs.
Qed.
Lemma scratch_bytes kern mem o n : scratch kern mem → (o + n ≤ 4096)%nat → (4096 ≤ length kern)%nat →
  bytes_at mem (SCRATCH + Z.of_nat o) n = slice kern o n.
Proof.
  intros Hs Ho Hl. assert (length (slice kern o n) = n) as Hsl by (unfold slice; rewrite length_take, length_drop; lia).
  rewrite <- Hsl at 1. apply holds_bytes. intros i b Hi. pose proof (lookup_lt_Some _ _ _ Hi) as Hlt. rewrite Hsl in Hlt.
  rewrite <- Z.add_assoc, <- Nat2Z.inj_add. apply Hs. unfold slice in Hi.
  rewrite lookup_take_lt, lookup_drop in Hi by lia. by rewrite lookup_take_lt by lia.
Qed.
Lemma scratch_header kern mem phoff i : scratch kern mem → 0 ≤ phoff → (4096 ≤ length kern)%nat →
  phoff + 32 * Z.of_nat (S i) ≤ 4096 → header_at mem (SCRATCH + phoff + 32 * Z.of_nat i) (phdr kern phoff i).
Proof.
  intros Hs Hp Hl Hi mem' d Hb. unfold boot_ph, phdr. f_equal. cbn [bt_mem].
  replace (SCRATCH + phoff + 32 * Z.of_nat i) with (SCRATCH + Z.of_nat (Z.to_nat phoff + 32 * i)) by lia.
  apply scratch_bytes; [by eapply scratch_same|change (Z.to_nat SIZEOF_PROGHDR) with 32%nat; lia|done].
Qed.

Lemma le_dec_bound4 l : Forall is_byte (take 4 l) → 0 ≤ le_dec (take 4 l) < 2 ^ 32.
Proof.
  intros Hl. pose proof (le_dec_bound _ Hl). rewrite length_take in *.
  pose proof (Z.pow_le_mono_r 256 (Z.of_nat (4 `min` length l)) 4). lia.
Qed.
Lemma phdr_wf kern phoff i : Forall is_byte kern → (Z.to_nat phoff + 32 * i + 32 ≤ length kern)%nat → ph_wf (phdr kern phoff i).
Proof.
  intros Hb Hl. unfold ph_wf, phdr, dec_proghdr, is_u32. cbn [ph_off ph_paddr ph_filesz ph_memsz].
  assert (∀ o, 0 ≤ u32_at (slice kern (Z.to_nat phoff + 32 * i) 32) o < 2 ^ 32) as Hu; [|auto].
  intros o. apply le_dec_bound4. unfold slice. by apply Forall_take, Forall_drop, Forall_take, Forall_drop.
Qed.

Lemma wp_load_loop kern phoff m i fuel floor s Q :
  kernel_disk kern (bt_dev s) → Forall is_byte kern → (4096 ≤ length kern)%nat → scratch kern (bt_mem s) →
  SCRATCH + 4096 ≤ floor ≤ 2 ^ 32 → 0 ≤ phoff → phoff + 32 * Z.of_nat (i + m) ≤ 4096 → (m < fuel)%nat →
  segs_ok kern floor (phdr kern phoff <$> seq i m) →
  (∀ d' mem', kernel_disk kern d' → same_below floor (bt_mem s) mem' →
    Forall (λ h, holds mem' (ph_paddr h) (seg_bytes kern h)) (phdr kern phoff <$> seq i m) → Q tt (mkBoot mem' d')) →
  wp (boot_loop fuel (SCRATCH + phoff + 32 * Z.of_nat i) (SCRATCH + phoff + 32 * Z.of_nat (i + m))) Q s.
Proof.
  revert i fuel floor s. induction m as [|m IH]; intros i fuel floor s HK Hb Hl Hs Hfl Hp Hpm Hfuel Hsegs HQ;
    (destruct fuel as [|fuel]; [lia|]); cbn [boot_loop].
  - rewrite (proj2 (Z.ltb_ge _ _)) by lia. wstep1. destruct s. by apply HQ.
  - rewrite (proj2 (Z.ltb_lt _ _)) by lia. wstep1. cbn [seq fmap list_fmap segs_ok] in Hsegs, HQ. set (h := phdr kern phoff i) in *.
    assert (header_at (bt_mem s) (SCRATCH + phoff + 32 * Z.of_nat i) h) as Hh by (apply scratch_header; done || lia).
    assert (ph_wf h) as Hw by (apply phdr_wf; done || lia).
    unfold SIZEOF_PROGHDR. rewrite (u32_small (SCRATCH + phoff + 32 * Z.of_nat i + 32)) by (unfold SCRATCH; lia).
    replace (SCRATCH + phoff + 32 * Z.of_nat i + 32) with (SCRATCH + phoff + 32 * Z.of_nat (S i)) by lia.
    replace (i + S m)%nat with (S i + m)%nat in * by lia. destruct Hsegs as [[He Hr]|[Ho Hr]].
    + apply (wp_load_empty kern _ h); [done..|]. intros d1 mem1 HK1 Hb1.
      assert (seg_bytes kern h = []) as Hnil by (destruct He as (E1 & E2 & _); unfold seg_bytes; by rewrite E1, E2).
      eapply (IH (S i) fuel floor); [done|done|done| |done|done|lia|lia|exact Hr|].
      { eapply scratch_same; [exact Hs|]. intros x Hx. apply Hb1. lia. }
      intros d' mem' HK' Hb' Hall. apply HQ; [done| |constructor; [by rewrite Hnil|done]].
      intros x Hx. cbn [bt_mem] in Hb'. rewrite Hb' by lia. apply Hb1. lia.
    + apply (wp_load_seg kern floor _ h); [done|done|done|lia|done|]. intros d1 mem1 HK1 Hb1 Hseg. pose proof Ho as [O1 O2 O3 O4].
      pose proof (Z.mod_pos_bound (ph_off h) 512 ltac:(lia)). unfold ph_wf, is_u32 in Hw.
      eapply (IH (S i) fuel (ph_paddr h + ph_memsz h)); [done|done|done| |lia|done|lia|lia|exact Hr|].
      { eapply scratch_same; [exact Hs|]. intros x Hx. apply Hb1. lia. }
      intros d' mem' HK' Hb' Hall. apply HQ; [done| |constructor; [|done]].
      * intros x Hx. cbn [bt_mem] in Hb'. rewrite Hb' by lia. by apply Hb1.
      * intros k b Hk. pose proof (lookup_lt_Some _ _ _ Hk) as Hlt. cbn [bt_mem] in Hb'.
        unfold seg_bytes in Hlt. rewrite length_app, length_replicate in Hlt. unfold slice in Hlt. rewrite length_take, length_drop in Hlt.
        rewrite Hb' by lia. by apply Hseg.
Qed.

Lemma elf_nonneg l n : Forall is_byte l → let elf := dec_elfhdr (slice l 0 n) in 0 ≤ elf_phoff elf ∧ 0 ≤ elf_phnum elf.
Proof.
  intros Hl. assert (∀ o k, 0 ≤ le_dec (slice (slice l 0 n) o k)) as Hd; [|split; apply Hd].
  intros o k. apply le_dec_bound. by apply Forall_slice, Forall_slice.
Qed.
Definition phdrs (kern : list Z) : list proghdr :=
  let elf := dec_elfhdr (slice kern 0 52) in phdr kern (elf_phoff elf) <$> seq 0 (Z.to_nat (elf_phnum elf)).

(** C22: the boot loader.  If the disk holds, from sector 1 on, a file whose program
    headers are in its first page and whose segments come in increasing order of
    addresses, above the scratch page, then bootmain jumps to the entry point of the
    file with every segment in memory: its bytes of the file followed by zeros, also
    where the sectors read for one segment ran over into another.  Memory below the
    scratch page, where the boot loader itself is, keeps its contents.  If the file
    is not an ELF file, bootmain returns. *)
Theorem bootmain_correct kern mem d :
  kernel_disk kern d → Forall is_byte kern → (4096 ≤ length kern)%nat →
  let elf := dec_elfhdr (slice kern 0 52) in
  (elf_magic elf = ELF_MAGIC →
    elf_phoff elf + 32 * elf_phnum elf ≤ 4096 ∧ segs_ok kern (SCRATCH + 4096) (phdrs kern)) →
  wp bootmain (λ r s,
    same_below SCRATCH mem (bt_mem s) ∧
    if elf_magic elf =? ELF_MAGIC then
      r = Some (elf_entry elf) ∧ Forall (λ h, holds (bt_mem s) (ph_paddr h) (seg_bytes kern h)) (phdrs kern)
    else r = None) (mkBoot mem d).
Proof.
  intros HK Hb Hl elf Hsegs. unfold bootmain. wstep1.
  apply (wp_readseg kern); [done|lia|done|done|done|intros _; lia|].
  intros d1 mem1 HK1 Hld. cbn [bt_mem] in Hld. change (loaded kern 0 SCRATCH 8 mem mem1) in Hld.
  assert (same_below SCRATCH mem mem1) as Hlow.
  { intros x Hx. unfold SCRATCH in *. rewrite Hld by (unfold is_u32; lia). by rewrite decide_False by lia. }
  assert (scratch kern mem1) as Hs.
  { intros i b Hi. pose proof (lookup_lt_Some _ _ _ Hi) as Hlt. rewrite length_take in Hlt. unfold SCRATCH in *.
    rewrite Hld by (unfold is_u32; lia). rewrite decide_True by lia. apply list_lookup_total_correct.
    rewrite lookup_take_lt in Hi by lia. rewrite <- Hi. f_equal. lia. }
  assert (∀ mem' d', scratch kern mem' → boot_elf (mkBoot mem' d') = elf) as Helf.
  { intros mem' d' Hs'. unfold boot_elf, elf. f_equal. cbn [bt_mem]. rewrite <- (Z.add_0_r SCRATCH).
    apply (scratch_bytes kern mem' 0 52); [done|lia|done]. }
  wstep1. wstep1. rewrite (Helf mem1 d1 Hs). destruct (Z.eqb_spec (elf_magic elf) ELF_MAGIC) as [Hmag|Hmag]; cbn [negb]; [|by wstep1].
  destruct (Hsegs Hmag) as [Hph Hsg]. unfold phdrs in *. fold elf in Hsg |- *.
  assert (0 ≤ elf_phoff elf ∧ 0 ≤ elf_phnum elf) as [H0 H1] by (by apply elf_nonneg).
  unfold SIZEOF_PROGHDR. rewrite (u32_small (SCRATCH + elf_phoff elf)) by (unfold SCRATCH; lia).
  rewrite (u32_small (SCRATCH + elf_phoff elf + 32 * elf_phnum elf)) by (unfold SCRATCH; lia). wstep1.
  pose proof (wp_load_loop kern (elf_phoff elf) (Z.to_nat (elf_phnum elf)) 0 (S (Z.to_nat (elf_phnum elf))) (SCRATCH + 4096) (mkBoot mem1 d1)) as Hloop.
  cbn [Nat.add] in Hloop. rewrite Z.mul_0_r, Z.add_0_r, Z2Nat.id in Hloop by lia.
  apply Hloop; [done..|unfold SCRATCH; lia|done|lia|lia|done|]. intros d' mem' HK' Hb' Hall. cbn [bt_mem] in Hb'. wstep.
  rewrite Helf by (by eapply scratch_same). cbn [bt_mem]. split; [|done].
  intros x Hx. rewrite Hb' by (unfold SCRATCH in *; lia). by apply Hlow.
Qed.
End boot.

(** ** A small kernel: one segment of 4 bytes of the file and 4 zeros, and an empty one *)
Definition ex_header : list Z :=
  [0x7f; 69; 76; 70] ++ replicate 12 0 ++ [2; 0; 3; 0; 1; 0; 0; 0; 0x0c; 0; 0x10; 0; 52; 0; 0; 0] ++ replicate 8 0 ++
  [52; 0; 32; 0; 2; 0; 0; 0; 0; 0; 0; 0] ++
  [1; 0; 0; 0; 116; 0; 0; 0; 0x74; 0; 0x10; 0x80; 0x74; 0; 0x10; 0; 4; 0; 0; 0; 8; 0; 0; 0] ++ replicate 8 0 ++
  replicate 32 0 ++ [1; 2; 3; 4].
Definition ex_blocks : list block := (ex_header ++ replicate 392 0xff) :: replicate 7 (replicate 512 0xff).
Definition ex_drive : @dev tiny_drive := mkTiny (λ _, 0) CNone (λ _, replicate 512 0 :: ex_blocks).
Definition ex_kern : list Z := concat ex_blocks.
Lemma ex_kernel_disk : kernel_disk ex_kern ex_drive.
Proof. split; [done| |done|done]. repeat constructor. Qed.
Lemma ex_kern_bytes : Forall is_byte ex_kern.
Proof.
  unfold ex_kern. apply Forall_concat. constructor; [|by repeat (constructor; [apply Forall_replicate; unfold is_byte; lia|])].
  apply Forall_app. split; [|apply Forall_replicate; unfold is_byte; lia]. repeat (constructor; [unfold is_byte; lia|]). constructor.
Qed.
Lemma ex_segs : segs_ok ex_kern (SCRATCH + 4096) (phdrs ex_kern).
Proof.
  assert (phdrs ex_kern = [mkPh 1 116 0x80100074 0x100074 4 8 0 0; mkPh 0 0 0 0 0 0 0 0]) as -> by reflexivity.
  assert (Z.of_nat (length ex_kern) = 4096) as Hl by reflexivity.
  right. split; [split; rewrite ?Hl; by vm_compute|]. left. split; [|done]. split_and!; done.
Qed.

Lemma bootmain_correct_witness :
  ∃ s, bootmain (mkBoot (λ _, 0) ex_drive) = Ok (Some 0x10000c) s ∧ holds (bt_mem s) 0x100074 [1; 2; 3; 4; 0; 0; 0; 0].
Proof.
  destruct (wp_run _ _ _ (bootmain_correct ex_kern (λ _, 0) ex_drive ex_kernel_disk ex_kern_bytes
    (proj1 (Nat.leb_le 4096 (length ex_kern)) eq_refl) (λ _, conj (proj1 (Z.leb_le (52 + 32 * 2) 4096) eq_refl) ex_segs)))
    as (r & s & Hr & _ & He & Hall).
  exists s. rewrite Hr, He. split; [done|]. exact (Forall_inv Hall).
Defined.
