(* ===== verification/Intr.v ===== *)
(** * The interrupt controllers (picirq.c, ioapic.c, timer.c)

    The two 8259A controllers of a machine with one processor and the I/O APIC of
    a multiprocessor.  Each chip is an interface: its ports, what can be seen of
    its state, and what the data sheet says of a write.  [main_irqs] is the part of
    main.c that sets them up and the lines that the drivers enable. *)
From stdpp Require Import base list numbers option strings.
From Stdlib Require Import ZArith Lia.
From S2P Require Import Prelude Trap.
Open Scope Z_scope.

(** ** The 8259A *)
(** The initialisation word that the data port takes next. *)
Inductive icw := Ready | Icw2 | Icw3 | Icw4.
(** The vector of line 0, the cascade word, the mode word, the mask, special mask mode. *)
Record picview := mkPv { pv_icw : icw; pv_base : Z; pv_cascade : Z; pv_mode : Z; pv_mask : Z; pv_smm : bool }.
Class PicDevice := {
  pic : Type;
  pic_cmd : Z → pic → pic;                 (** outb to the first port *)
  pic_data : Z → pic → pic;                (** outb to the second port *)
  pic_view : pic → picview;
  (** ICW1 for a cascade and with ICW4 starts the initialisation and clears the mask. *)
  pic_icw1 p v : Z.land v 0x13 = 0x11 →
    pv_icw (pic_view (pic_cmd v p)) = Icw2 ∧ pv_mask (pic_view (pic_cmd v p)) = 0;
  pic_icw2 p v w : pic_view p = w → pv_icw w = Icw2 → is_u8 v →
    pic_view (pic_data v p) = mkPv Icw3 (Z.land v 0xF8) (pv_cascade w) (pv_mode w) (pv_mask w) (pv_smm w);
  pic_icw3 p v w : pic_view p = w → pv_icw w = Icw3 → is_u8 v →
    pic_view (pic_data v p) = mkPv Icw4 (pv_base w) v (pv_mode w) (pv_mask w) (pv_smm w);
  pic_icw4 p v w : pic_view p = w → pv_icw w = Icw4 → is_u8 v →
    pic_view (pic_data v p) = mkPv Ready (pv_base w) (pv_cascade w) v (pv_mask w) (pv_smm w);
  pic_ocw1 p v w : pic_view p = w → pv_icw w = Ready → is_u8 v →
    pic_view (pic_data v p) = mkPv Ready (pv_base w) (pv_cascade w) (pv_mode w) v (pv_smm w);
  (** OCW3: bits 6 and 5 set or clear the special mask mode. *)
  pic_ocw3 p v w : pic_view p = w → pv_icw w = Ready → is_u8 v → Z.land v 0x98 = 0x08 →
    pic_view (pic_cmd v p) = mkPv Ready (pv_base w) (pv_cascade w) (pv_mode w) (pv_mask w)
      (if Z.testbit v 6 then Z.testbit v 5 else pv_smm w);
}.

(** ** The I/O APIC *)
Class IoapicDevice := {
  ioa : Type;
  ioa_select : Z → ioa → ioa;              (** ioapic->reg = ... *)
  ioa_get : ioa → Z;                       (** ... = ioapic->data *)
  ioa_put : Z → ioa → ioa;                 (** ioapic->data = ... *)
  ioa_sel : ioa → Z;
  ioa_reg : ioa → Z → Z;
  ioa_select_ok d r : is_u8 r → ioa_sel (ioa_select r d) = r ∧ ioa_reg (ioa_select r d) = ioa_reg d;
  ioa_get_ok d : ioa_get d = ioa_reg d (ioa_sel d);
  (** A register of the redirection table takes every bit but the delivery status
      and the remote IRR, bits 12 and 14. *)
  ioa_put_ok d v : 0x10 ≤ ioa_sel d → is_u32 v →
    ioa_sel (ioa_put v d) = ioa_sel d ∧
    (∀ r, r ≠ ioa_sel d → ioa_reg (ioa_put v d) r = ioa_reg d r) ∧
    (∀ n, 0 ≤ n < 32 → n ≠ 12 → n ≠ 14 → Z.testbit (ioa_reg (ioa_put v d) (ioa_sel d)) n = Z.testbit v n);
}.

Abbreviation IO_PIC1 := (0x20).
Abbreviation IO_PIC2 := (0xA0).
Definition IRQ_SLAVE : Z := 2.
Abbreviation REG_ID := (0x00).
Definition REG_VER : Z := 0x01.
Definition REG_TABLE : Z := 0x10.
Definition INT_DISABLED : Z := 0x00010000.
Abbreviation IO_TIMER1 := (0x040).
Abbreviation TIMER_FREQ := (1193182).
Definition TIMER_DIV (x : Z) : Z := (TIMER_FREQ + x / 2) / x.
Abbreviation TIMER_MODE := (IO_TIMER1 + 3).
Abbreviation TIMER_SEL0 := (0x00).
Abbreviation TIMER_RATEGEN := (0x04).
Abbreviation TIMER_16BIT := (0x30).

Section intr.
Context {P : PicDevice} {I : IoapicDevice}.

(** irqmask, the chips, ismp, and what was written to the ports of the timer. *)
Record intr := mkIntr { in_irqmask : Z; in_pic1 : pic; in_pic2 : pic; in_ioapic : ioa; in_ismp : bool; in_timer : list (Z * Z) }.
Definition irqmask0 : Z := Z.land 0xFFFF (Z.lnot (Z.shiftl 1 IRQ_SLAVE)).

Definition iout (port v : Z) : M intr unit := modify (λ s,
  let v := u8 v in
  if port =? IO_PIC1 then mkIntr (in_irqmask s) (pic_cmd v (in_pic1 s)) (in_pic2 s) (in_ioapic s) (in_ismp s) (in_timer s)
  else if port =? IO_PIC1 + 1 then mkIntr (in_irqmask s) (pic_data v (in_pic1 s)) (in_pic2 s) (in_ioapic s) (in_ismp s) (in_timer s)
  else if port =? IO_PIC2 then mkIntr (in_irqmask s) (in_pic1 s) (pic_cmd v (in_pic2 s)) (in_ioapic s) (in_ismp s) (in_timer s)
  else if port =? IO_PIC2 + 1 then mkIntr (in_irqmask s) (in_pic1 s) (pic_data v (in_pic2 s)) (in_ioapic s) (in_ismp s) (in_timer s)
  else mkIntr (in_irqmask s) (in_pic1 s) (in_pic2 s) (in_ioapic s) (in_ismp s) (in_timer s ++ [(port, v)])).

(** ** picirq.c *)
Definition picsetmask (mask : Z) : M intr unit :=
  modify (λ s, mkIntr mask (in_pic1 s) (in_pic2 s) (in_ioapic s) (in_ismp s) (in_timer s)) ;;;
  iout (IO_PIC1 + 1) mask ;;;
  iout (IO_PIC2 + 1) (Z.shiftr mask 8).
Definition picenable (irq : Z) : M intr unit :=
  s <- gets id ;;
  picsetmask (u16 (Z.land (in_irqmask s) (Z.lnot (Z.shiftl 1 irq)))).
Definition picinit : M intr unit :=
  iout (IO_PIC1 + 1) 0xFF ;;;
  iout (IO_PIC2 + 1) 0xFF ;;;
  iout IO_PIC1 0x11 ;;;
  iout (IO_PIC1 + 1) T_IRQ0 ;;;
  iout (IO_PIC1 + 1) (Z.shiftl 1 IRQ_SLAVE) ;;;
  iout (IO_PIC1 + 1) 0x3 ;;;
  iout IO_PIC2 0x11 ;;;
  iout (IO_PIC2 + 1) (T_IRQ0 + 8) ;;;
  iout (IO_PIC2 + 1) IRQ_SLAVE ;;;
  iout (IO_PIC2 + 1) 0x3 ;;;
  iout IO_PIC1 0x68 ;;;
  iout IO_PIC1 0x0a ;;;
  iout IO_PIC2 0x68 ;;;
  iout IO_PIC2 0x0a ;;;
  s <- gets id ;;
  if negb (in_irqmask s =? 0xFFFF) then picsetmask (in_irqmask s) else ret tt.

(** ** ioapic.c *)
Definition on_ioapic (f : ioa → ioa) : M intr unit :=
  modify (λ s, mkIntr (in_irqmask s) (in_pic1 s) (in_pic2 s) (f (in_ioapic s)) (in_ismp s) (in_timer s)).
Definition ioapicread (reg : Z) : M intr Z :=
  on_ioapic (ioa_select reg) ;;;
  gets (λ s, ioa_get (in_ioapic s)).
Definition ioapicwrite (reg data : Z) : M intr unit :=
  on_ioapic (ioa_select reg) ;;;
  on_ioapic (ioa_put data).
Fixpoint ioapicinit_loop (n : nat) (i : Z) : M intr unit :=
  match n with
  | O => ret tt
  | S n =>
    ioapicwrite (REG_TABLE + 2 * i) (Z.lor INT_DISABLED (T_IRQ0 + i)) ;;;
    ioapicwrite (REG_TABLE + 2 * i + 1) 0 ;;;
    ioapicinit_loop n (i + 1)
  end.
(** Only a message depends on the id that is read. *)
Definition ioapicinit : M intr unit :=
  s <- gets id ;;
  if negb (in_ismp s) then ret tt
  else
    v <- ioapicread REG_VER ;;
    let maxintr := Z.land (Z.shiftr v 16) 0xFF in
    _ <- ioapicread REG_ID ;;
    ioapicinit_loop (Z.to_nat (maxintr + 1)) 0.
Definition ioapicenable (irq cpunum : Z) : M intr unit :=
  s <- gets id ;;
  if negb (in_ismp s) then ret tt
  else
    ioapicwrite (REG_TABLE + 2 * irq) (T_IRQ0 + irq) ;;;
    ioapicwrite (REG_TABLE + 2 * irq + 1) (u32 (Z.shiftl cpunum 24)).

(** ** timer.c *)
Definition timerinit : M intr unit :=
  iout TIMER_MODE (Z.lor (Z.lor TIMER_SEL0 TIMER_RATEGEN) TIMER_16BIT) ;;;
  iout IO_TIMER1 (TIMER_DIV 100 mod 256) ;;;
  iout IO_TIMER1 (TIMER_DIV 100 / 256) ;;;
  picenable IRQ_TIMER.

(** ** main.c: the controllers, and the lines that consoleinit, uartinit (if there
    is a serial port) and ideinit enable *)
Definition enable_line (x : Z * Z) : M intr unit := picenable x.1 ;;; ioapicenable x.1 x.2.
Definition main_irqs (serial : bool) (ncpu : Z) : M intr unit :=
  picinit ;;;
  ioapicinit ;;;
  enable_line (IRQ_KBD, 0) ;;;
  (if serial then enable_line (IRQ_COM1, 0) else ret tt) ;;;
  enable_line (IRQ_IDE, ncpu - 1) ;;;
  s <- gets id ;;
  if negb (in_ismp s) then timerinit else ret tt.
End intr.
