(* ===== verification/IntrSpec.v ===== *)
(** * Which interrupts are delivered (picirq.c, ioapic.c, main.c)

    A line is delivered when its controller is initialised and does not mask it.
    After the controllers and the drivers have been initialised, exactly the lines
    of the drivers are delivered, line i as trap T_IRQ0 + i. *)
From stdpp Require Import base list gmap numbers option strings.
From Stdlib Require Import ZArith Lia.
From S2P Require Import Prelude Trap Intr.
Open Scope Z_scope.

(** ** Bits *)
Lemma testbit_high v k n : 0 ≤ v < 2 ^ k → k ≤ n → Z.testbit v n = false.
Proof.
  intros Hv Hn. destruct (decide (v = 0)) as [->|]; [apply Z.testbit_0_l|].
  apply Z.bits_above_log2; [lia|]. apply Z.log2_lt_pow2; [lia|]. pose proof (Z.pow_le_mono_r 2 k n). lia.
Qed.
Lemma testbit_low8 v n : 0 ≤ n → Z.testbit (u8 v) n = bool_decide (n < 8) && Z.testbit v n.
Proof.
  intros Hn. unfold u8. rewrite <- Z.land_ones, Z.land_spec by lia. rewrite Z.testbit_ones by lia.
  rewrite andb_comm. f_equal. case_bool_decide; lia.
Qed.

(** ** What a controller does with a line *)
Definition pic_line (w : picview) (k : Z) : option Z :=
  match pv_icw w with
  | Ready => if Z.testbit (pv_mask w) k then None else Some (pv_base w + k)
  | _ => None
  end.
(** The lines 8 to 15 reach the processor through the line of the master that the slave is on. *)
Definition pic_pair_line (m sl : picview) (i : Z) : option Z :=
  if i <? 8 then pic_line m i
  else if (pv_cascade m =? Z.shiftl 1 (pv_cascade sl)) && bool_decide (is_Some (pic_line m (pv_cascade sl)))
  then pic_line sl (i - 8) else None.

Inductive ioline := LMasked | LFixed (vector cpu : Z) | LOther.
Definition io_line (reg : Z → Z) (i : Z) : ioline :=
  let low := reg (0x10 + 2 * i) in
  if Z.testbit low 16 then LMasked
  else if Z.land low 0xAF00 =? 0 then LFixed (Z.land low 0xFF) (Z.land (Z.shiftr (reg (0x10 + 2 * i + 1)) 24) 0xFF)
  else LOther.

(** Every bit of a redirection register that is not read-only. *)
Definition same_bits (x v : Z) : Prop := ∀ n, 0 ≤ n < 32 → n ≠ 12 → n ≠ 14 → Z.testbit x n = Z.testbit v n.
Lemma io_line_masked reg i v : same_bits (reg (0x10 + 2 * i)) (Z.lor INT_DISABLED v) → io_line reg i = LMasked.
Proof. intros H. unfold io_line. rewrite H by lia. rewrite Z.lor_spec. done. Qed.
Lemma io_line_fixed reg i v c : 0 ≤ v < 256 → 0 ≤ c < 256 →
  same_bits (reg (0x10 + 2 * i)) v → same_bits (reg (0x10 + 2 * i + 1)) (u32 (Z.shiftl c 24)) →
  io_line reg i = LFixed v c.
Proof.
  intros Hv Hc Hl Hh. unfold io_line. set (low := reg (0x10 + 2 * i)) in *. set (high := reg (0x10 + 2 * i + 1)) in *.
  rewrite Hl, (testbit_high v 8) by lia. assert (Z.land low 0xAF00 = 0) as ->.
  { apply Z.bits_inj'. intros n Hn. rewrite Z.land_spec, Z.testbit_0_l.
    destruct (decide (n < 32)); [|rewrite (testbit_high 0xAF00 16) by lia; apply andb_false_r].
    destruct (decide (n = 12 ∨ n = 14)) as [[->| ->]|]; [apply andb_false_r..|]. rewrite Hl by lia.
    destruct (decide (n < 8)); [|by rewrite (testbit_high v 8) by lia].
    assert (n = 0 ∨ n = 1 ∨ n = 2 ∨ n = 3 ∨ n = 4 ∨ n = 5 ∨ n = 6 ∨ n = 7) as Hcase by lia.
    destruct_or! Hcase; subst n; apply andb_false_r. }
  rewrite Z.eqb_refl. f_equal; apply Z.bits_inj'; intros n Hn; change 0xFF with (Z.ones 8);
    rewrite Z.land_spec, Z.testbit_ones by lia; (destruct (decide (n < 8)) as [Hlt|Hge];
    [replace ((0 <=? n) && (n <? 8)) with true by lia; rewrite andb_true_r
    |replace ((0 <=? n) && (n <? 8)) with false by lia; rewrite andb_false_r; symmetry; apply (testbit_high _ 8); lia]).
  - apply Hl; lia.
  - rewrite Z.shiftr_spec, Hh by lia. rewrite u32_small by (rewrite Z.shiftl_mul_pow2 by lia; lia).
    rewrite Z.shiftl_spec by lia. f_equal. lia.
Qed.

(** ** The 8259As *)
Section intr_spec.
Context {P : PicDevice} {I : IoapicDevice}.

(** Both chips initialised, with [mask]. *)
Record pics (mask : Z) (s : intr) : Prop := {
  pi_mask : in_irqmask s = mask;
  pi_master : pic_view (in_pic1 s) = mkPv Ready T_IRQ0 (Z.shiftl 1 IRQ_SLAVE) 3 (u8 mask) true;
  pi_slave : pic_view (in_pic2 s) = mkPv Ready (T_IRQ0 + 8) IRQ_SLAVE 3 (u8 (Z.shiftr mask 8)) true }.
(** The lines other than [l] and the slave's are masked. *)
Definition mask_of (mask : Z) (l : list Z) : Prop :=
  is_u16 mask ∧ ∀ i, 0 ≤ i < 16 → Z.testbit mask i = bool_decide (i ≠ IRQ_SLAVE ∧ i ∉ l).

Lemma pics_lines mask l s i : pics mask s → mask_of mask l → 0 ≤ i < 16 → i ≠ IRQ_SLAVE →
  pic_pair_line (pic_view (in_pic1 s)) (pic_view (in_pic2 s)) i = if decide (i ∈ l) then Some (T_IRQ0 + i) else None.
Proof.
  intros [_ H1 H2] [Hm Hl] Hi Hne. rewrite H1, H2. unfold pic_pair_line, pic_line. cbn [pv_icw pv_mask pv_base pv_cascade].
  assert (∀ k, 0 ≤ k < 16 → k ≠ IRQ_SLAVE → Z.testbit mask k = bool_decide (k ∉ l)) as Hk.
  { intros k Hk Hn. rewrite Hl by done. apply bool_decide_ext. tauto. }
  rewrite !testbit_low8, (Hl IRQ_SLAVE), Z.eqb_refl by (unfold IRQ_SLAVE in *; lia).
  destruct (Z.ltb_spec i 8) as [Hlt|Hge].
  - rewrite (bool_decide_true (i < 8)), Hk by done. cbn [andb]. do 2 case_bool_decide || case_decide; try done; tauto.
  - rewrite (bool_decide_false (IRQ_SLAVE ≠ IRQ_SLAVE ∧ _)) by tauto. rewrite andb_false_r.
    rewrite bool_decide_true by (by eexists). cbn [andb].
    rewrite testbit_low8, (bool_decide_true (i - 8 < 8)), Z.shiftr_spec by lia. cbn [andb].
    replace (i - 8 + 8) with i by lia. rewrite Hk by done. case_bool_decide; case_decide; try done; [f_equal; lia].
Qed.

Lemma mask_of_enable mask l irq : mask_of mask l → 0 ≤ irq < 16 →
  mask_of (u16 (Z.land mask (Z.lnot (Z.shiftl 1 irq)))) (l ++ [irq]).
Proof.
  intros [Hm Hl] Hi. split; [unfold is_u16, u16; zlia|]. intros i Hi16. unfold u16.
  rewrite Z.mod_pow2_bits_low, Z.land_spec, Z.lnot_spec, Hl, Z.shiftl_1_l, Z.pow2_bits_eqb by lia.
  rewrite (bool_decide_ext (i ≠ IRQ_SLAVE ∧ i ∉ l ++ [irq]) ((i ≠ IRQ_SLAVE ∧ i ∉ l) ∧ irq ≠ i)).
  - rewrite (bool_decide_and (i ≠ IRQ_SLAVE ∧ i ∉ l) (irq ≠ i)). f_equal. symmetry. destruct (Z.eqb_spec irq i); [by apply bool_decide_false; intros []|by apply bool_decide_true].
  - rewrite elem_of_app, list_elem_of_singleton. naive_solver.
Qed.

Lemma wp_cmd1 v s Q :
  Q tt (mkIntr (in_irqmask s) (pic_cmd (u8 v) (in_pic1 s)) (in_pic2 s) (in_ioapic s) (in_ismp s) (in_timer s)) → wp (iout IO_PIC1 v) Q s.
Proof. done. Qed.
Lemma wp_data1 v s Q :
  Q tt (mkIntr (in_irqmask s) (pic_data (u8 v) (in_pic1 s)) (in_pic2 s) (in_ioapic s) (in_ismp s) (in_timer s)) → wp (iout (IO_PIC1 + 1) v) Q s.
Proof. done. Qed.
Lemma wp_cmd2 v s Q :
  Q tt (mkIntr (in_irqmask s) (in_pic1 s) (pic_cmd (u8 v) (in_pic2 s)) (in_ioapic s) (in_ismp s) (in_timer s)) → wp (iout IO_PIC2 v) Q s.
Proof. done. Qed.
Lemma wp_data2 v s Q :
  Q tt (mkIntr (in_irqmask s) (in_pic1 s) (pic_data (u8 v) (in_pic2 s)) (in_ioapic s) (in_ismp s) (in_timer s)) → wp (iout (IO_PIC2 + 1) v) Q s.
Proof. done. Qed.
Ltac iout_step :=
  lazymatch goal with
  | |- wp (iout IO_PIC1 _) _ _ => apply wp_cmd1
  | |- wp (iout (IO_PIC1 + 1) _) _ _ => apply wp_data1
  | |- wp (iout IO_PIC2 _) _ _ => apply wp_cmd2
  | |- wp (iout (IO_PIC2 + 1) _) _ _ => apply wp_data2
  end; cbn [in_irqmask in_pic1 in_pic2 in_ioapic in_ismp in_timer].

(** What the 8259A code leaves alone. *)
Definition same_io (s s' : intr) : Prop := in_ioapic s' = in_ioapic s ∧ in_ismp s' = in_ismp s.

Lemma wp_picsetmask m1 m2 mask' s Q :
  pic_view (in_pic1 s) = mkPv Ready T_IRQ0 (Z.shiftl 1 IRQ_SLAVE) 3 m1 true →
  pic_view (in_pic2 s) = mkPv Ready (T_IRQ0 + 8) IRQ_SLAVE 3 m2 true → is_u16 mask' →
  (∀ s', pics mask' s' → same_io s s' → in_timer s' = in_timer s → Q tt s') → wp (picsetmask mask') Q s.
Proof.
  intros H1 H2 Hm HQ. unfold picsetmask. wstep1. wstep1. cbn [in_pic1 in_pic2 in_ioapic in_ismp in_timer].
  wstep1. iout_step. iout_step.
  apply HQ; [|done|done]. assert (∀ v, is_u8 (u8 v)) as Hu by (intros v; unfold is_u8, u8; zlia).
  split; cbn [in_irqmask in_pic1 in_pic2]; [done|erewrite pic_ocw1; [|exact H1|done|done]; done|erewrite pic_ocw1; [|exact H2|done|done]; done].
Qed.
Lemma wp_picenable mask l irq s Q : pics mask s → mask_of mask l → 0 ≤ irq < 16 →
  (∀ mask' s', pics mask' s' → mask_of mask' (l ++ [irq]) → same_io s s' → in_timer s' = in_timer s → Q tt s') →
  wp (picenable irq) Q s.
Proof.
  intros Hp Hm Hi HQ. unfold picenable. wstep1. wstep1. cbn [id]. rewrite (pi_mask _ _ Hp).
  pose proof (mask_of_enable mask l irq Hm Hi) as Hm'. eapply wp_picsetmask; [apply Hp|apply Hp|apply Hm'|]. intros. by eapply HQ.
Qed.
Lemma chip_init p v c : is_u8 v → is_u8 c →
  pic_view (pic_cmd 0x0a (pic_cmd 0x68 (pic_data 3 (pic_data c (pic_data v (pic_cmd 0x11 p))))))
  = mkPv Ready (Z.land v 0xF8) c 3 0 true.
Proof.
  intros Hv Hc. destruct (pic_icw1 p 0x11 eq_refl) as [H1 H2].
  pose proof (pic_icw2 _ v _ eq_refl H1 Hv) as H3. rewrite H2 in H3.
  pose proof (pic_icw3 _ c _ H3 eq_refl Hc) as H4. pose proof (pic_icw4 _ 3 _ H4 eq_refl ltac:(done)) as H5.
  pose proof (pic_ocw3 _ 0x68 _ H5 eq_refl ltac:(done) eq_refl) as H6. exact (pic_ocw3 _ 0x0a _ H6 eq_refl ltac:(done) eq_refl).
Qed.
Lemma wp_picinit s Q : in_irqmask s = irqmask0 →
  (∀ s', pics irqmask0 s' → same_io s s' → in_timer s' = in_timer s → Q tt s') → wp picinit Q s.
Proof.
  intros Hm HQ. destruct s as [mask p1 p2 io mp ti]. cbn in Hm. subst mask. unfold picinit.
  do 14 (wstep1; iout_step). wstep1. wstep1. cbn [id in_irqmask].
  eapply wp_picsetmask; cbn [in_pic1 in_pic2]; [by apply (chip_init _ T_IRQ0 4)|by apply (chip_init _ (T_IRQ0 + 8) IRQ_SLAVE)|done|].
  exact HQ.
Qed.
Lemma mask_of_init : mask_of irqmask0 [].
Proof.
  split; [done|]. intros i Hi. assert (∃ k, (k < 16)%nat ∧ i = Z.of_nat k) as (k & Hk & ->) by (exists (Z.to_nat i); lia).
  do 16 (destruct k as [|k]; [done|]). lia.
Qed.

(** ** The I/O APIC *)
Definition same_pic (s s' : intr) : Prop :=
  in_irqmask s' = in_irqmask s ∧ in_pic1 s' = in_pic1 s ∧ in_pic2 s' = in_pic2 s ∧ in_ismp s' = in_ismp s ∧ in_timer s' = in_timer s.

Lemma wp_ioapicread reg s Q : is_u8 reg →
  (∀ s', same_pic s s' → ioa_reg (in_ioapic s') = ioa_reg (in_ioapic s) → Q (ioa_reg (in_ioapic s) reg) s') → wp (ioapicread reg) Q s.
Proof.
  intros Hr HQ. unfold ioapicread, on_ioapic. wstep. cbn [in_ioapic]. destruct (ioa_select_ok (in_ioapic s) reg Hr) as [H1 H2].
  rewrite ioa_get_ok, H1, H2. by apply HQ.
Qed.
Lemma wp_ioapicwrite reg v s Q : is_u8 reg → 0x10 ≤ reg → is_u32 v →
  (∀ s', same_pic s s' → (∀ r, r ≠ reg → ioa_reg (in_ioapic s') r = ioa_reg (in_ioapic s) r) →
    same_bits (ioa_reg (in_ioapic s') reg) v → Q tt s') → wp (ioapicwrite reg v) Q s.
Proof.
  intros Hr Ht Hv HQ. unfold ioapicwrite, on_ioapic. wstep. cbn [in_ioapic]. destruct (ioa_select_ok (in_ioapic s) reg Hr) as [H1 H2].
  destruct (ioa_put_ok (ioa_select reg (in_ioapic s)) v ltac:(lia) Hv) as (P1 & P2 & P3). rewrite H1 in *.
  apply HQ; [done| |exact P3]. intros r Hne. cbn [in_ioapic]. by rewrite P2, H2.
Qed.

Lemma wp_then_ret (m1 m2 : M intr unit) Q s : wp (m1 ;;; m2 ;;; ret tt) Q s → wp (m1 ;;; m2) Q s.
Proof. unfold wp, bind, ret. destruct (m1 s) as [u1 s1| | |]; try done. by destruct (m2 s1) as [[] s2| | |]. Qed.
(** A pair of registers of the table. *)
Lemma wp_entry irq v h s Q (k : M intr unit) : 0 ≤ irq ≤ 119 → is_u32 v → is_u32 h →
  (∀ s', same_pic s s' → (∀ i, i ≠ irq → io_line (ioa_reg (in_ioapic s')) i = io_line (ioa_reg (in_ioapic s)) i) →
    (∀ r, r < REG_TABLE → ioa_reg (in_ioapic s') r = ioa_reg (in_ioapic s) r) →
    same_bits (ioa_reg (in_ioapic s') (0x10 + 2 * irq)) v → same_bits (ioa_reg (in_ioapic s') (0x10 + 2 * irq + 1)) h → wp k Q s') →
  wp (ioapicwrite (REG_TABLE + 2 * irq) v ;;; ioapicwrite (REG_TABLE + 2 * irq + 1) h ;;; k) Q s.
Proof.
  intros Hi Hv Hh HQ. unfold REG_TABLE in *. wstep1. apply wp_ioapicwrite; [unfold is_u8; lia|lia|done|]. intros s1 K1 F1 B1.
  wstep1. apply wp_ioapicwrite; [unfold is_u8; lia|lia|done|]. intros s2 K2 F2 B2. apply HQ; [| | | |done].
  - destruct K1 as (? & ? & ? & ? & ?), K2 as (? & ? & ? & ? & ?). split_and!; congruence.
  - intros i Hne. unfold io_line. by rewrite !F2, !F1 by lia.
  - intros r Hr. by rewrite F2, F1 by lia.
  - by rewrite F2 by lia.
Qed.

(** The lines [0..maxintr] that [m] gives a processor are delivered to it; the others are masked. *)
Definition routes (maxintr : Z) (m : gmap Z Z) (reg : Z → Z) : Prop :=
  ∀ i, 0 ≤ i ≤ maxintr → io_line reg i = match m !! i with Some c => LFixed (T_IRQ0 + i) c | None => LMasked end.

Lemma wp_ioapicinit_loop n i s Q : 0 ≤ i → i + Z.of_nat n ≤ 120 →
  (∀ s', same_pic s s' → (∀ j, j < i → io_line (ioa_reg (in_ioapic s')) j = io_line (ioa_reg (in_ioapic s)) j) →
    (∀ j, i ≤ j < i + Z.of_nat n → io_line (ioa_reg (in_ioapic s')) j = LMasked) → Q tt s') →
  wp (ioapicinit_loop n i) Q s.
Proof.
  revert i s. induction n as [|n IH]; intros i s Hi Hn HQ; cbn [ioapicinit_loop]; [wstep1; apply HQ; [done|done|lia]|].
  unfold T_IRQ0. apply wp_entry; [lia| |done|].
  { unfold is_u32, INT_DISABLED. rewrite (lor_disjoint 16) by (done || lia). lia. }
  intros s1 K1 F1 _ B1 _. apply IH; [lia|lia|]. intros s2 K2 F2 M2. apply HQ.
  - destruct K1 as (? & ? & ? & ? & ?), K2 as (? & ? & ? & ? & ?). split_and!; congruence.
  - intros j Hj. by rewrite F2, F1 by lia.
  - intros j Hj. destruct (decide (j = i)) as [->|]; [|apply M2; lia]. rewrite F2 by lia. by eapply io_line_masked.
Qed.

(** The number of the last entry of the table, from the version register. *)
Definition max_entry (reg : Z → Z) : Z := Z.land (Z.shiftr (reg REG_VER) 16) 0xFF.
Lemma max_entry_nonneg reg : 0 ≤ max_entry reg.
Proof. apply Z.land_nonneg. lia. Qed.

Lemma wp_ioapicinit s Q : max_entry (ioa_reg (in_ioapic s)) < 120 →
  (∀ s', same_pic s s' → (if in_ismp s then routes (max_entry (ioa_reg (in_ioapic s))) ∅ (ioa_reg (in_ioapic s'))
                          else in_ioapic s' = in_ioapic s) → Q tt s') → wp ioapicinit Q s.
Proof.
  intros Hmax HQ. unfold ioapicinit. wstep1. wstep1. cbn [id]. destruct (in_ismp s) eqn:E; cbn [negb]; [|wstep1; by apply HQ].
  wstep1. apply wp_ioapicread; [done|]. intros s1 K1 R1. wstep1. apply wp_ioapicread; [done|]. intros s2 K2 R2.
  fold (max_entry (ioa_reg (in_ioapic s))). pose proof (max_entry_nonneg (ioa_reg (in_ioapic s))).
  apply wp_ioapicinit_loop; [lia|lia|]. intros s3 K3 _ M3. apply HQ.
  - destruct K1 as (? & ? & ? & ? & ?), K2 as (? & ? & ? & ? & ?), K3 as (? & ? & ? & ? & ?). split_and!; congruence.
  - intros i Hi. rewrite lookup_empty. apply M3. lia.
Qed.
Lemma wp_ioapicenable maxintr m irq c s Q : 0 ≤ irq ≤ maxintr → maxintr < 120 → 0 ≤ c < 256 →
  (if in_ismp s then routes maxintr m (ioa_reg (in_ioapic s)) else True) →
  (∀ s', same_pic s s' → (if in_ismp s then routes maxintr (<[irq := c]> m) (ioa_reg (in_ioapic s'))
                          else in_ioapic s' = in_ioapic s) → Q tt s') → wp (ioapicenable irq c) Q s.
Proof.
  intros Hi Hmax Hc Hr HQ. unfold ioapicenable. wstep1. wstep1. cbn [id]. destruct (in_ismp s) eqn:E; cbn [negb]; [|wstep1; by apply HQ].
  assert (is_u32 (u32 (Z.shiftl c 24))) as Hu by (unfold is_u32, u32; zlia).
  apply wp_then_ret.
  apply wp_entry; [lia|unfold is_u32, T_IRQ0; lia|done|]. intros s1 K1 F1 _ B1 B2. wstep1. apply HQ; [done|].
  intros i Hi'. destruct (decide (i = irq)) as [->|Hne].
  - rewrite lookup_insert_eq. apply io_line_fixed; [unfold T_IRQ0; lia|done|done|done].
  - rewrite lookup_insert_ne, F1 by done. by apply Hr.
Qed.

(** ** The set-up in main *)
Record lines_on (maxintr : Z) (s0 : intr) (l : list Z) (m : gmap Z Z) (s : intr) : Prop := {
  lo_pics : ∃ mask, pics mask s ∧ mask_of mask l;
  lo_mp : in_ismp s = in_ismp s0;
  lo_io : if in_ismp s0 then routes maxintr m (ioa_reg (in_ioapic s)) else in_ioapic s = in_ioapic s0;
  lo_timer : in_timer s = in_timer s0 }.

Lemma wp_enable_line maxintr s0 l m irq c s Q :
  lines_on maxintr s0 l m s → 0 ≤ irq < 16 → irq ≤ maxintr < 120 → 0 ≤ c < 256 →
  (∀ s', lines_on maxintr s0 (l ++ [irq]) (<[irq := c]> m) s' → Q tt s') → wp (enable_line (irq, c)) Q s.
Proof.
  intros [(mask & Hp & Hm) Hmp Hio Ht] Hi Hmax Hc HQ. unfold enable_line. cbn [fst snd]. wstep1.
  eapply wp_picenable; [done..|]. intros mask1 s1 Hp1 Hm1 [Io1 Mp1] T1.
  apply (wp_ioapicenable maxintr m); [lia|lia|done|rewrite Mp1, Hmp, Io1; by destruct (in_ismp s0)|].
  intros s2 (K1 & K2 & K3 & K4 & K5) R2. apply HQ. split; [|congruence| |congruence].
  - exists mask1. split; [|done]. destruct Hp1 as [A1 A2 A3]. split; congruence.
  - rewrite Mp1, Hmp in R2. destruct (in_ismp s0); [done|congruence].
Qed.
Lemma wp_main_init maxintr s (k : M intr unit) Q : in_irqmask s = irqmask0 → max_entry (ioa_reg (in_ioapic s)) = maxintr → maxintr < 120 →
  (∀ s', lines_on maxintr s [] ∅ s' → wp k Q s') → wp (picinit ;;; ioapicinit ;;; k) Q s.
Proof.
  intros Hm <- Hmax HQ. wstep1. apply wp_picinit; [done|]. intros s1 Hp1 [Io1 Mp1] T1. wstep1. apply wp_ioapicinit; [by rewrite Io1|].
  intros s2 (K1 & K2 & K3 & K4 & K5) R2. rewrite Mp1, Io1 in R2. apply HQ. split; [|congruence|done|congruence].
  exists irqmask0. split; [|apply mask_of_init]. destruct Hp1 as [A1 A2 A3]. split; congruence.
Qed.

Lemma wp_timer maxintr s0 l m s Q : lines_on maxintr s0 l m s →
  (∀ s', (∃ mask, pics mask s' ∧ mask_of mask (l ++ if in_ismp s0 then [] else [IRQ_TIMER])) →
    (in_ismp s0 = true → routes maxintr m (ioa_reg (in_ioapic s'))) → Q tt s') →
  wp (s <- gets id ;; if negb (in_ismp s) then timerinit else ret tt) Q s.
Proof.
  intros [(mask & Hp & Hmk) Hmp Hio _] HQ'. wstep1. wstep1. cbn [id]. rewrite Hmp. destruct (in_ismp s0); cbn [negb].
  - wstep1. apply HQ'; [exists mask; by rewrite app_nil_r|done].
  - unfold timerinit. do 3 (wstep1; unfold iout; wstep1; cbn [in_irqmask in_pic1 in_pic2 in_ioapic in_ismp in_timer]).
    eapply (wp_picenable mask l); [|done|done|]; [by destruct Hp; split|].
    intros mask1 s1 Hp1 Hm1 _ _. apply HQ'; [by exists mask1|done].
Qed.
Lemma if_same {A} (X : Prop) `{Decision X} (b : bool) (x y : A) : (X ↔ b = true) → (if decide X then x else y) = if b then x else y.
Proof. intros H1. case_decide; destruct b; try done; [by apply H1 in H0|]. exfalso. by apply H0, H1. Qed.

(** The lines of the drivers, and the processor that serves each. *)
Definition driver_line (serial : bool) (i : Z) : bool := (i =? IRQ_KBD) || serial && (i =? IRQ_COM1) || (i =? IRQ_IDE).
Definition driver_cpu (ncpu i : Z) : Z := if i =? IRQ_IDE then ncpu - 1 else 0.

(** C24: interrupts.  After main has initialised the controllers and the drivers,
    a line of the 8259As interrupts the processor, as trap T_IRQ0 + line, exactly
    when it is the keyboard's, the disk's, that of a serial port that is there, or
    (with one processor) the timer's; and on a multiprocessor the I/O APIC delivers
    the drivers' lines, as the same traps, the disk's to the last processor and the
    others to the first, and masks every other line. *)
Theorem interrupts_routed serial ncpu s :
  in_irqmask s = irqmask0 → 1 ≤ ncpu ≤ 256 → IRQ_IDE ≤ max_entry (ioa_reg (in_ioapic s)) < 120 →
  wp (main_irqs serial ncpu) (λ _ s',
    (∀ i, 0 ≤ i < 16 → i ≠ IRQ_SLAVE →
      pic_pair_line (pic_view (in_pic1 s')) (pic_view (in_pic2 s')) i
      = if driver_line serial i || negb (in_ismp s) && (i =? IRQ_TIMER) then Some (T_IRQ0 + i) else None) ∧
    (in_ismp s = true → ∀ i, 0 ≤ i ≤ max_entry (ioa_reg (in_ioapic s)) →
      io_line (ioa_reg (in_ioapic s')) i
      = if driver_line serial i then LFixed (T_IRQ0 + i) (driver_cpu ncpu i) else LMasked)) s.
Proof.
  intros Hm Hn Hmax. set (maxintr := max_entry (ioa_reg (in_ioapic s))) in *. unfold IRQ_IDE in Hmax.
  unfold main_irqs. apply (wp_main_init maxintr); [done|done|lia|]. intros s1 L1. wstep1.
  eapply wp_enable_line; [exact L1|done|unfold IRQ_KBD; lia|done|]. intros s2 L2. wstep1.
  set (m3 := if serial then <[IRQ_COM1 := 0]> (<[IRQ_KBD := 0]> ∅) else <[IRQ_KBD := 0]> (∅ : gmap Z Z)).
  set (l3 := [IRQ_KBD] ++ if serial then [IRQ_COM1] else []).
  assert (wp (if serial then enable_line (IRQ_COM1, 0) else ret tt) (λ _ s', lines_on maxintr s l3 m3 s') s2) as H3.
  { unfold l3, m3. destruct serial; [|wstep1; exact L2]. eapply wp_enable_line; [exact L2|done|unfold IRQ_COM1; lia|done|done]. }
  eapply wp_mono; [exact H3|]. intros [] s3 L3. wstep1.
  eapply wp_enable_line; [exact L3|done|unfold IRQ_IDE; lia|lia|]. intros s4 L4.
  eapply wp_timer; [exact L4|]. intros s5 (mask & Hp & Hmk) Hr. split.
  - intros i Hi Hne. rewrite (pics_lines _ _ _ _ Hp Hmk) by done. apply if_same.
    unfold l3, driver_line. rewrite !elem_of_app, !orb_true_iff, !andb_true_iff, !Z.eqb_eq.
    destruct serial, (in_ismp s); set_unfold; naive_solver.
  - intros Hmp i Hi. rewrite (Hr Hmp) by done. unfold m3, driver_line, driver_cpu.
    destruct (Z.eqb_spec i IRQ_IDE) as [->|N1]; [by rewrite lookup_insert_eq, orb_true_r|]. rewrite lookup_insert_ne by done.
    destruct serial; [destruct (Z.eqb_spec i IRQ_COM1) as [->|N2]; [by rewrite lookup_insert_eq|rewrite lookup_insert_ne by done]|];
      (destruct (Z.eqb_spec i IRQ_KBD) as [->|N3]; [by rewrite lookup_insert_eq|by rewrite lookup_insert_ne by done]).
Qed.
End intr_spec.

(** ** Chips that satisfy the interfaces *)
Definition tiny_cmd (v : Z) (w : picview) : picview :=
  if Z.land v 0x13 =? 0x11 then mkPv Icw2 (pv_base w) (pv_cascade w) (pv_mode w) 0 (pv_smm w)
  else mkPv (pv_icw w) (pv_base w) (pv_cascade w) (pv_mode w) (pv_mask w) (if Z.testbit v 6 then Z.testbit v 5 else pv_smm w).
Definition tiny_data (v : Z) (w : picview) : picview :=
  match pv_icw w with
  | Icw2 => mkPv Icw3 (Z.land v 0xF8) (pv_cascade w) (pv_mode w) (pv_mask w) (pv_smm w)
  | Icw3 => mkPv Icw4 (pv_base w) v (pv_mode w) (pv_mask w) (pv_smm w)
  | Icw4 => mkPv Ready (pv_base w) (pv_cascade w) v (pv_mask w) (pv_smm w)
  | Ready => mkPv Ready (pv_base w) (pv_cascade w) (pv_mode w) v (pv_smm w)
  end.
#[export] Program Instance tiny_pic : PicDevice := {| pic := picview; pic_cmd := tiny_cmd; pic_data := tiny_data; pic_view := id |}.
Next Obligation. intros p v H. unfold tiny_cmd. by rewrite H. Qed.
Next Obligation. intros p v w <- H _. unfold tiny_data, id in *. by rewrite H. Qed.
Next Obligation. intros p v w <- H _. unfold tiny_data, id in *. by rewrite H. Qed.
Next Obligation. intros p v w <- H _. unfold tiny_data, id in *. by rewrite H. Qed.
Next Obligation. intros p v w <- H _. unfold tiny_data, id in *. by rewrite H. Qed.
Next Obligation.
  intros p v w <- H _ Hv. unfold tiny_cmd, id in *. rewrite H. destruct (Z.eqb_spec (Z.land v 0x13) 0x11) as [E|]; [|done].
  exfalso. assert (Z.testbit (Z.land v 0x98) 4 = Z.testbit (Z.land v 0x13) 4) as Hb by (by rewrite !Z.land_spec).
  by rewrite Hv, E in Hb.
Qed.

Record tinyio := mkTio { tio_sel : Z; tio_reg : Z → Z }.
#[export] Program Instance tiny_ioapic : IoapicDevice := {|
  ioa := tinyio; ioa_select := λ r d, mkTio r (tio_reg d); ioa_get := λ d, tio_reg d (tio_sel d);
  ioa_put := λ v d, mkTio (tio_sel d) (λ r, if decide (r = tio_sel d) then v else tio_reg d r);
  ioa_sel := tio_sel; ioa_reg := tio_reg |}.
Next Obligation. done. Qed.
Next Obligation. done. Qed.
Next Obligation. intros d v _ _. cbn. split_and!; [done| |]; intros; by case_decide. Qed.

(** A multiprocessor with 24 entries in the table. *)
Definition ex_intr : intr :=
  let p := mkPv Icw3 0 0 0 0 false in
  mkIntr irqmask0 p p (mkTio 0 (λ r, if decide (r = REG_VER) then 0x00170011 else 0)) true [].
Lemma interrupts_routed_witness :
  ∃ s, main_irqs true 2 ex_intr = Ok tt s ∧ io_line (tio_reg (in_ioapic s)) IRQ_IDE = LFixed (T_IRQ0 + IRQ_IDE) 1 ∧
       io_line (tio_reg (in_ioapic s)) IRQ_TIMER = LMasked.
Proof.
  destruct (wp_run _ _ _ (interrupts_routed true 2 ex_intr eq_refl ltac:(lia) ltac:(by vm_compute))) as ([] & s & Hs & _ & Hio).
  exists s. split; [exact Hs|]. split; [exact (Hio eq_refl IRQ_IDE ltac:(by vm_compute))|exact (Hio eq_refl IRQ_TIMER ltac:(by vm_compute))].
Defined.
