(* ===== verification/Segment.v ===== *)
(** * Segments, interrupt gates and the task state (mmu.h, seginit and switchuvm of
    vm.c, tvinit and idtinit of trap.c)

    The descriptors are records with the fields of the C structures; the registers
    hold addresses, and the per-processor variables cpu and proc are reached through
    the gs segment, as in the code. *)
From stdpp Require Import base list numbers option strings.
From Stdlib Require Import ZArith Lia.
From S2P Require Import Prelude Layout Kalloc Trap Proc.
Open Scope Z_scope.

Definition NSEGS : nat := 7.
Definition SEG_KCODE : nat := 1.
Definition SEG_KDATA : nat := 2.
Definition SEG_KCPU : nat := 3.
Definition SEG_UCODE : nat := 4.
Definition SEG_UDATA : nat := 5.
Definition SEG_TSS : nat := 6.
Definition STA_X : Z := 0x8.
Definition STA_W : Z := 0x2.
Definition STA_R : Z := 0x2.
Definition STS_T32A : Z := 0x9.
Definition STS_T32B : Z := 0xB.
Definition STS_IG32 : Z := 0xE.
Definition STS_TG32 : Z := 0xF.
(** A selector: n << 3. *)
Definition sel (n : nat) : Z := Z.shiftl (Z.of_nat n) 3.

Record segdesc := mkSeg {
  lim_15_0 : Z; base_15_0 : Z; base_23_16 : Z; sd_type : Z; sd_s : Z; sd_dpl : Z; sd_p : Z;
  lim_19_16 : Z; sd_avl : Z; sd_rsv1 : Z; sd_db : Z; sd_g : Z; base_31_24 : Z }.
Definition seg_null : segdesc := mkSeg 0 0 0 0 0 0 0 0 0 0 0 0 0.
Definition SEG (type base lim dpl : Z) : segdesc :=
  mkSeg (Z.land (Z.shiftr lim 12) 0xffff) (Z.land base 0xffff) (Z.land (Z.shiftr base 16) 0xff) type 1 dpl 1
    (Z.shiftr lim 28) 0 0 1 1 (Z.shiftr base 24).
Definition SEG16 (type base lim dpl : Z) : segdesc :=
  mkSeg (Z.land lim 0xffff) (Z.land base 0xffff) (Z.land (Z.shiftr base 16) 0xff) type 1 dpl 1
    (Z.shiftr lim 16) 0 0 1 0 (Z.shiftr base 24).
Definition set_s (v : Z) (d : segdesc) : segdesc :=
  mkSeg (lim_15_0 d) (base_15_0 d) (base_23_16 d) (sd_type d) v (sd_dpl d) (sd_p d) (lim_19_16 d) (sd_avl d) (sd_rsv1 d)
    (sd_db d) (sd_g d) (base_31_24 d).

Record gatedesc := mkGate {
  off_15_0 : Z; gd_cs : Z; gd_args : Z; gd_rsv1 : Z; gd_type : Z; gd_s : Z; gd_dpl : Z; gd_p : Z; off_31_16 : Z }.
Definition SETGATE (istrap : bool) (cs off d : Z) : gatedesc :=
  mkGate (Z.land off 0xffff) cs 0 0 (if istrap then STS_TG32 else STS_IG32) 0 d 1 (Z.shiftr off 16).

Record taskstate := mkTs {
  ts_link : Z; ts_esp0 : Z; ts_ss0 : Z; ts_esp1 : Z; ts_ss1 : Z; ts_esp2 : Z; ts_ss2 : Z; ts_cr3 : Z; ts_eip : Z; ts_eflags : Z;
  ts_eax : Z; ts_ecx : Z; ts_edx : Z; ts_ebx : Z; ts_esp : Z; ts_ebp : Z; ts_esi : Z; ts_edi : Z; ts_es : Z; ts_cs : Z; ts_ss : Z;
  ts_ds : Z; ts_fs : Z; ts_gs : Z; ts_ldt : Z; ts_t : Z; ts_iomb : Z }.
Definition ts_zero : taskstate := mkTs 0 0 0 0 0 0 0 0 0 0 0 0 0 0 0 0 0 0 0 0 0 0 0 0 0 0 0.
(** ts.ss0 and ts.esp0 *)
Definition set_stack0 (ss0 esp0 : Z) (t : taskstate) : taskstate :=
  mkTs (ts_link t) esp0 ss0 (ts_esp1 t) (ts_ss1 t) (ts_esp2 t) (ts_ss2 t) (ts_cr3 t) (ts_eip t) (ts_eflags t) (ts_eax t)
    (ts_ecx t) (ts_edx t) (ts_ebx t) (ts_esp t) (ts_ebp t) (ts_esi t) (ts_edi t) (ts_es t) (ts_cs t) (ts_ss t) (ts_ds t)
    (ts_fs t) (ts_gs t) (ts_ldt t) (ts_t t) (ts_iomb t).
Definition SIZEOF_TS : Z := 104.
(** The bytes of the structure; a selector is followed by two bytes of padding. *)
Definition ts_bytes (t : taskstate) : list Z :=
  concat (le_enc 4 <$> [ts_link t; ts_esp0 t; ts_ss0 t; ts_esp1 t; ts_ss1 t; ts_esp2 t; ts_ss2 t; ts_cr3 t; ts_eip t; ts_eflags t;
    ts_eax t; ts_ecx t; ts_edx t; ts_ebx t; ts_esp t; ts_ebp t; ts_esi t; ts_edi t; ts_es t; ts_cs t; ts_ss t; ts_ds t; ts_fs t;
    ts_gs t; ts_ldt t]) ++ le_enc 2 (ts_t t) ++ le_enc 2 (ts_iomb t).

(** struct cpu: the parts that matter here, and their offsets in it *)
Record cpu := mkCpu { cp_ts : taskstate; cp_gdt : list segdesc; cp_cpu : Z; cp_proc : Z }.
Definition SIZEOF_CPU : Z := 188.
Definition CPU_TS : Z := 8.
Definition CPU_GDT : Z := 112.
Definition CPU_CPU : Z := 180.
Definition CPU_PROC : Z := 184.

Section segment.
(** The addresses of cpus[] and idt[], and vectors[]. *)
Context (cpus idt : Z) (vectors : list Z).

(** The registers of a processor, cpus[] and idt[]. *)
Record seg := mkSg { sg_gdtr : Z; sg_gs : Z; sg_tr : Z; sg_cr3 : Z; sg_idtr : Z; sg_cpus : list cpu; sg_idt : list gatedesc }.
Definition cpu_addr (c : nat) : Z := cpus + SIZEOF_CPU * Z.of_nat c.
(** The processor structure with a field at an address. *)
Definition cpu_with (off a : Z) (s : seg) : option nat :=
  let d := a - cpus - off in
  if (0 <=? d) && (d mod SIZEOF_CPU =? 0) && (d / SIZEOF_CPU <? Z.of_nat (length (sg_cpus s)))
  then Some (Z.to_nat (d / SIZEOF_CPU)) else None.
Definition set_cpus (l : list cpu) (s : seg) : seg := mkSg (sg_gdtr s) (sg_gs s) (sg_tr s) (sg_cr3 s) (sg_idtr s) l (sg_idt s).
Definition get_cpu (c : nat) : M seg cpu := λ s, lift_opt (sg_cpus s !! c) s.
Definition put_cpu (c : nat) (x : cpu) : M seg unit := modify (λ s, set_cpus (<[c := x]> (sg_cpus s)) s).
Definition put_seg (c n : nat) (d : segdesc) : M seg unit :=
  x <- get_cpu c ;;
  put_cpu c (mkCpu (cp_ts x) (<[n := d]> (cp_gdt x)) (cp_cpu x) (cp_proc x)).

(** The linear address of a segment: the descriptor in the table that gdtr points to. *)
Definition seg_base (d : segdesc) : Z := base_15_0 d + 2 ^ 16 * base_23_16 d + 2 ^ 24 * base_31_24 d.
Definition descriptor (selector : Z) (s : seg) : option segdesc :=
  c ← cpu_with CPU_GDT (sg_gdtr s) s; x ← sg_cpus s !! c; cp_gdt x !! Z.to_nat (selector / 8).
(** cpu and proc: the words at gs:0 and gs:4 *)
Definition set_cpu_var (v : Z) : M seg unit :=
  s <- gets id ;;
  d <- lift_opt (descriptor (sg_gs s) s) ;;
  c <- lift_opt (cpu_with CPU_CPU (u32 (seg_base d)) s) ;;
  x <- get_cpu c ;;
  put_cpu c (mkCpu (cp_ts x) (cp_gdt x) v (cp_proc x)).
Definition set_proc_var (v : Z) : M seg unit :=
  s <- gets id ;;
  d <- lift_opt (descriptor (sg_gs s) s) ;;
  c <- lift_opt (cpu_with CPU_PROC (u32 (seg_base d + 4)) s) ;;
  x <- get_cpu c ;;
  put_cpu c (mkCpu (cp_ts x) (cp_gdt x) (cp_cpu x) v).
Definition get_cpu_var : M seg nat :=
  s <- gets id ;;
  d <- lift_opt (descriptor (sg_gs s) s) ;;
  c <- lift_opt (cpu_with CPU_CPU (u32 (seg_base d)) s) ;;
  x <- get_cpu c ;;
  lift_opt (cpu_with 0 (cp_cpu x) s).

(** [c] is cpunum(). *)
Definition seginit (c : nat) : M seg unit :=
  put_seg c SEG_KCODE (SEG (Z.lor STA_X STA_R) 0 0xffffffff 0) ;;;
  put_seg c SEG_KDATA (SEG STA_W 0 0xffffffff 0) ;;;
  put_seg c SEG_UCODE (SEG (Z.lor STA_X STA_R) 0 0xffffffff DPL_USER) ;;;
  put_seg c SEG_UDATA (SEG STA_W 0 0xffffffff DPL_USER) ;;;
  put_seg c SEG_KCPU (SEG STA_W (cpu_addr c + CPU_CPU) 8 0) ;;;
  modify (λ s, mkSg (cpu_addr c + CPU_GDT) (sel SEG_KCPU) (sg_tr s) (sg_cr3 s) (sg_idtr s) (sg_cpus s) (sg_idt s)) ;;;
  set_cpu_var (cpu_addr c) ;;;
  set_proc_var 0.

(** ltr also marks the segment busy. *)
Definition set_type (v : Z) (d : segdesc) : segdesc :=
  mkSeg (lim_15_0 d) (base_15_0 d) (base_23_16 d) v (sd_s d) (sd_dpl d) (sd_p d) (lim_19_16 d) (sd_avl d) (sd_rsv1 d)
    (sd_db d) (sd_g d) (base_31_24 d).
Definition ltr (selector : Z) : M seg unit :=
  s <- gets id ;;
  d <- lift_opt (descriptor selector s) ;;
  c <- lift_opt (cpu_with CPU_GDT (sg_gdtr s) s) ;;
  put_seg c (Z.to_nat (selector / 8)) (set_type (Z.lor (sd_type d) 2) d) ;;;
  modify (λ s, mkSg (sg_gdtr s) (sg_gs s) selector (sg_cr3 s) (sg_idtr s) (sg_cpus s) (sg_idt s)).

(** [kstack] is proc->kstack, [pgdir] is p->pgdir. *)
Definition switchuvm (kstack pgdir : Z) : M seg unit :=
  c <- get_cpu_var ;;
  put_seg c SEG_TSS (SEG16 STS_T32A (cpu_addr c + CPU_TS) (SIZEOF_TS - 1) 0) ;;;
  x <- get_cpu c ;;
  d <- lift_opt (cp_gdt x !! SEG_TSS) ;;
  put_seg c SEG_TSS (set_s 0 d) ;;;
  x <- get_cpu c ;;
  put_cpu c (mkCpu (set_stack0 (sel SEG_KDATA) (u32 (kstack + KSTACKSIZE)) (cp_ts x)) (cp_gdt x) (cp_cpu x) (cp_proc x)) ;;;
  ltr (sel SEG_TSS) ;;;
  if pgdir =? 0 then panic "switchuvm: no pgdir"
  else modify (λ s, mkSg (sg_gdtr s) (sg_gs s) (sg_tr s) (v2p pgdir) (sg_idtr s) (sg_cpus s) (sg_idt s)).
Definition switchkvm (kpgdir : Z) : M seg unit :=
  modify (λ s, mkSg (sg_gdtr s) (sg_gs s) (sg_tr s) (v2p kpgdir) (sg_idtr s) (sg_cpus s) (sg_idt s)).

(** for(i = 0; i < 256; i++) SETGATE(...); one more for the system call *)
Definition put_gate (i : nat) (g : gatedesc) : M seg unit :=
  modify (λ s, mkSg (sg_gdtr s) (sg_gs s) (sg_tr s) (sg_cr3 s) (sg_idtr s) (sg_cpus s) (<[i := g]> (sg_idt s))).
Definition tvinit : M seg unit :=
  mfor (seq 0 256) (λ i,
    v <- lift_opt (vectors !! i) ;;
    put_gate i (SETGATE false (sel SEG_KCODE) v 0)) ;;;
  v <- lift_opt (vectors !! Z.to_nat T_SYSCALL) ;;
  put_gate (Z.to_nat T_SYSCALL) (SETGATE true (sel SEG_KCODE) v DPL_USER).
Definition idtinit : M seg unit :=
  modify (λ s, mkSg (sg_gdtr s) (sg_gs s) (sg_tr s) (sg_cr3 s) idt (sg_cpus s) (sg_idt s)).
End segment.
