(* ===== verification/SegmentSpec.v ===== *)
(** * What user code can do with segments, gates and ports

    How the processor uses the tables, after the manual: an interrupt or an int
    instruction in user mode goes through a gate to a segment and a stack; an input
    or output instruction in user mode is checked against the bit map in the task
    state.  After the set-up, user code can enter the kernel at the system call
    gate only; but the bit map leaves it most of the ports. *)
From stdpp Require Import base list numbers option strings.
From Stdlib Require Import ZArith Lia.
From S2P Require Import Prelude Layout Kalloc Trap Proc Segment.
Open Scope Z_scope.

(** ** The processor *)
Record entry := mkEntry { en_eip : Z; en_cs : Z; en_esp : Z; en_ss : Z; en_keep_if : bool }.
Definition seg_limit (d : segdesc) : Z :=
  let l := lim_15_0 d + 2 ^ 16 * lim_19_16 d in if sd_g d =? 1 then 2 ^ 12 * l + 4095 else l.

Section processor.
Context (cpus idt : Z).
Abbreviation descriptor := (descriptor cpus).
Abbreviation cpu_with := (cpu_with cpus).

(** The task state that the task register selects. *)
Definition task (s : seg) : option (segdesc * taskstate) :=
  d ← descriptor (sg_tr s) s; c ← cpu_with CPU_TS (seg_base d) s; x ← sg_cpus s !! c;
  if (sd_s d =? 0) && (sd_type d =? STS_T32B) && (sd_p d =? 1) then Some (d, cp_ts x) else None.
(** Vector [n] in user mode, by an int instruction or not: where the kernel is entered. *)
Definition int_entry (software : bool) (n : nat) (s : seg) : option entry :=
  g ← sg_idt s !! n; d ← descriptor (gd_cs g) s; t ← task s;
  if (sg_idtr s =? idt) && (gd_p g =? 1) && (gd_s g =? 0) && ((gd_type g =? STS_IG32) || (gd_type g =? STS_TG32))
     && (negb software || (DPL_USER <=? gd_dpl g)) && (sd_p d =? 1) && (sd_s d =? 1) && has (sd_type d) STA_X && (sd_dpl d =? 0)
  then Some (mkEntry (seg_base d + off_15_0 g + 2 ^ 16 * off_31_16 g) (gd_cs g) (ts_esp0 t.2) (ts_ss0 t.2) (gd_type g =? STS_TG32))
  else None.
(** A segment that user code can load into a segment register. *)
Definition user_segment (k : nat) (s : seg) : bool :=
  match descriptor (sel k) s with
  | Some d => (sd_p d =? 1) && (sd_s d =? 1) && (sd_dpl d =? DPL_USER)
  | None => false
  end.
(** A port that user code can read and write, with I/O privilege level 0. *)
Definition user_port (p : Z) (s : seg) : bool :=
  match task s with
  | Some (d, t) =>
    let a := ts_iomb t + p / 8 in
    (a + 1 <=? seg_limit d) && match ts_bytes t !! Z.to_nat a with Some b => negb (Z.testbit b (p mod 8)) | None => false end
  | None => false
  end.
End processor.

(** ** Descriptors *)
Lemma seg_base_SEG type base lim dpl : is_u32 base → seg_base (SEG type base lim dpl) = base.
Proof.
  unfold is_u32, seg_base, SEG. intros Hb. cbn [base_15_0 base_23_16 base_31_24].
  change 0xffff with (Z.ones 16). change 0xff with (Z.ones 8). rewrite !Z.land_ones, !Z.shiftr_div_pow2 by lia. zlia.
Qed.
Lemma seg_base_SEG16 type base lim dpl : is_u32 base → seg_base (SEG16 type base lim dpl) = base.
Proof. exact (seg_base_SEG type base lim dpl). Qed.
Lemma gate_offset tr cs off d : is_u32 off → off_15_0 (SETGATE tr cs off d) + 2 ^ 16 * off_31_16 (SETGATE tr cs off d) = off.
Proof.
  unfold is_u32. intros Ho. cbn [SETGATE off_15_0 off_31_16].
  change 0xffff with (Z.ones 16). rewrite Z.land_ones, Z.shiftr_div_pow2 by lia. zlia.
Qed.

(** ** The set-up *)
Section setup.
Context (cpus idt : Z) (vectors : list Z) (c : nat).

Lemma cpu_with_addr off s : (c < length (sg_cpus s))%nat → cpu_with cpus off (cpu_addr cpus c + off) s = Some c.
Proof.
  intros Hc. unfold cpu_with, cpu_addr, SIZEOF_CPU. replace (cpus + 188 * Z.of_nat c + off - cpus - off) with (Z.of_nat c * 188) by lia.
  rewrite Z.mod_mul, Z.div_mul, Nat2Z.id by lia. by rewrite (proj2 (Z.leb_le _ _)), (proj2 (Z.ltb_lt _ _)) by lia.
Qed.
Lemma wp_get_cpu x s Q : sg_cpus s !! c = Some x → Q x s → wp (get_cpu c) Q s.
Proof. intros Hx HQ. unfold wp, get_cpu. by rewrite Hx. Qed.
(** States where processor [c] is [x]. *)
Lemma wp_put_seg n d x gdtr gs tr cr3 idtr l it Q : (c < length l)%nat →
  Q tt (mkSg gdtr gs tr cr3 idtr (<[c := mkCpu (cp_ts x) (<[n := d]> (cp_gdt x)) (cp_cpu x) (cp_proc x)]> l) it) →
  wp (put_seg c n d) Q (mkSg gdtr gs tr cr3 idtr (<[c := x]> l) it).
Proof.
  intros Hc HQ. unfold put_seg. wstep1. eapply wp_get_cpu; [by apply list_lookup_insert_eq|]. unfold put_cpu. wstep1.
  unfold set_cpus. cbn [sg_gdtr sg_gs sg_tr sg_cr3 sg_idtr sg_cpus sg_idt]. by rewrite list_insert_insert_eq.
Qed.
Lemma descriptor_at gs tr cr3 idtr l it x selector : (c < length l)%nat →
  descriptor cpus selector (mkSg (cpu_addr cpus c + CPU_GDT) gs tr cr3 idtr (<[c := x]> l) it) = cp_gdt x !! Z.to_nat (selector / 8).
Proof.
  intros Hc. unfold descriptor. cbn [sg_gdtr sg_cpus]. rewrite cpu_with_addr by (cbn; by rewrite length_insert). cbn [mbind option_bind].
  by rewrite list_lookup_insert_eq.
Qed.

(** The processor [c] and the table after seginit. *)
Definition gdt_init : list segdesc :=
  [seg_null; SEG (Z.lor STA_X STA_R) 0 0xffffffff 0; SEG STA_W 0 0xffffffff 0; SEG STA_W (cpu_addr cpus c + CPU_CPU) 8 0;
   SEG (Z.lor STA_X STA_R) 0 0xffffffff DPL_USER; SEG STA_W 0 0xffffffff DPL_USER; seg_null].
Context (c_addr : 0 ≤ cpus) (c_top : cpu_addr cpus c + SIZEOF_CPU ≤ 2 ^ 32).

Lemma kcpu_base : seg_base (SEG STA_W (cpu_addr cpus c + CPU_CPU) 8 0) = cpu_addr cpus c + CPU_CPU ∧
  u32 (cpu_addr cpus c + CPU_CPU) = cpu_addr cpus c + CPU_CPU ∧ u32 (cpu_addr cpus c + CPU_CPU + 4) = cpu_addr cpus c + CPU_PROC.
Proof.
  unfold cpu_addr, CPU_CPU, CPU_PROC, SIZEOF_CPU in *. split_and!; [apply seg_base_SEG; unfold is_u32; lia|apply u32_small; lia|].
  rewrite u32_small by lia. lia.
Qed.
Lemma wp_set_cpu_var v x tr cr3 idtr l it Q : (c < length l)%nat → cp_gdt x !! SEG_KCPU = gdt_init !! SEG_KCPU →
  Q tt (mkSg (cpu_addr cpus c + CPU_GDT) (sel SEG_KCPU) tr cr3 idtr (<[c := mkCpu (cp_ts x) (cp_gdt x) v (cp_proc x)]> l) it) →
  wp (set_cpu_var cpus v) Q (mkSg (cpu_addr cpus c + CPU_GDT) (sel SEG_KCPU) tr cr3 idtr (<[c := x]> l) it).
Proof.
  intros Hc Hg HQ. destruct kcpu_base as (B1 & B2 & B3). unfold set_cpu_var. wstep1. wstep1. cbn [id]. wstep1.
  rewrite descriptor_at by done. change (Z.to_nat (sg_gs _ / 8)) with SEG_KCPU. rewrite Hg. cbn [gdt_init lookup list_lookup SEG_KCPU]. wstep1.
  wstep1. rewrite B1, B2, cpu_with_addr by (cbn; by rewrite length_insert). wstep1. wstep1.
  eapply wp_get_cpu; [by apply list_lookup_insert_eq|]. unfold put_cpu. wstep1.
  unfold set_cpus. cbn [sg_gdtr sg_gs sg_tr sg_cr3 sg_idtr sg_cpus sg_idt]. by rewrite list_insert_insert_eq.
Qed.
Lemma wp_set_proc_var v x tr cr3 idtr l it Q : (c < length l)%nat → cp_gdt x !! SEG_KCPU = gdt_init !! SEG_KCPU →
  Q tt (mkSg (cpu_addr cpus c + CPU_GDT) (sel SEG_KCPU) tr cr3 idtr (<[c := mkCpu (cp_ts x) (cp_gdt x) (cp_cpu x) v]> l) it) →
  wp (set_proc_var cpus v) Q (mkSg (cpu_addr cpus c + CPU_GDT) (sel SEG_KCPU) tr cr3 idtr (<[c := x]> l) it).
Proof.
  intros Hc Hg HQ. destruct kcpu_base as (B1 & B2 & B3). unfold set_proc_var. wstep1. wstep1. cbn [id]. wstep1.
  rewrite descriptor_at by done. change (Z.to_nat (sg_gs _ / 8)) with SEG_KCPU. rewrite Hg. cbn [gdt_init lookup list_lookup SEG_KCPU]. wstep1.
  wstep1. rewrite B1, B3, cpu_with_addr by (cbn; by rewrite length_insert). wstep1. wstep1.
  eapply wp_get_cpu; [by apply list_lookup_insert_eq|]. unfold put_cpu. wstep1.
  unfold set_cpus. cbn [sg_gdtr sg_gs sg_tr sg_cr3 sg_idtr sg_cpus sg_idt]. by rewrite list_insert_insert_eq.
Qed.
Lemma wp_get_cpu_var x tr cr3 idtr l it Q : (c < length l)%nat → cp_gdt x !! SEG_KCPU = gdt_init !! SEG_KCPU → cp_cpu x = cpu_addr cpus c →
  Q c (mkSg (cpu_addr cpus c + CPU_GDT) (sel SEG_KCPU) tr cr3 idtr (<[c := x]> l) it) →
  wp (get_cpu_var cpus) Q (mkSg (cpu_addr cpus c + CPU_GDT) (sel SEG_KCPU) tr cr3 idtr (<[c := x]> l) it).
Proof.
  intros Hc Hg Hx HQ. destruct kcpu_base as (B1 & B2 & B3). unfold get_cpu_var. wstep1. wstep1. cbn [id]. wstep1.
  rewrite descriptor_at by done. change (Z.to_nat (sg_gs _ / 8)) with SEG_KCPU. rewrite Hg. cbn [gdt_init lookup list_lookup SEG_KCPU]. wstep1.
  wstep1. rewrite B1, B2, cpu_with_addr by (cbn; by rewrite length_insert). wstep1. wstep1.
  eapply wp_get_cpu; [by apply list_lookup_insert_eq|]. rewrite Hx, <- (Z.add_0_r (cpu_addr cpus c)) at 1.
  rewrite cpu_with_addr by (cbn; by rewrite length_insert). by wstep1.
Qed.

Lemma wp_seginit x s Q : sg_cpus s !! c = Some x → cp_gdt x = replicate NSEGS seg_null →
  Q tt (mkSg (cpu_addr cpus c + CPU_GDT) (sel SEG_KCPU) (sg_tr s) (sg_cr3 s) (sg_idtr s)
     (<[c := mkCpu (cp_ts x) gdt_init (cpu_addr cpus c) 0]> (sg_cpus s)) (sg_idt s)) →
  wp (seginit cpus c) Q s.
Proof.
  intros Hx Hg HQ. pose proof (lookup_lt_Some _ _ _ Hx) as Hlt. destruct s as [gdtr gs tr cr3 idtr l it]. cbn [sg_cpus] in *.
  destruct x as [ts gdt cv pv]. cbn in Hg. subst gdt. unfold seginit. rewrite <- (list_insert_id _ _ _ Hx).
  do 5 (wstep1; apply wp_put_seg; [done|]; cbn [cp_ts cp_gdt cp_cpu cp_proc]).
  wstep1. wstep1. cbn [sg_gdtr sg_gs sg_tr sg_cr3 sg_idtr sg_cpus sg_idt]. cbn [insert list_insert SEG_KCODE SEG_KDATA SEG_KCPU SEG_UCODE SEG_UDATA].
  fold gdt_init. wstep1. apply wp_set_cpu_var; [done|done|]. by apply wp_set_proc_var.
Qed.

(** The gates after [k] rounds of the loop of tvinit. *)
Definition gate_of (n : nat) (v : Z) : gatedesc :=
  if decide (n = Z.to_nat T_SYSCALL) then SETGATE true (sel SEG_KCODE) v DPL_USER else SETGATE false (sel SEG_KCODE) v 0.
Lemma wp_tvinit s Q : length vectors = 256%nat → length (sg_idt s) = 256%nat →
  (∀ it, length it = 256%nat → (∀ n v, vectors !! n = Some v → it !! n = Some (gate_of n v)) →
    Q tt (mkSg (sg_gdtr s) (sg_gs s) (sg_tr s) (sg_cr3 s) (sg_idtr s) (sg_cpus s) it)) → wp (tvinit vectors) Q s.
Proof.
  intros Hv Hi HQ. unfold tvinit. wstep1.
  apply (wp_mfor (λ k s', ∃ it, s' = mkSg (sg_gdtr s) (sg_gs s) (sg_tr s) (sg_cr3 s) (sg_idtr s) (sg_cpus s) it ∧ length it = 256%nat ∧
    ∀ n v, (n < k)%nat → vectors !! n = Some v → it !! n = Some (SETGATE false (sel SEG_KCODE) v 0))).
  - exists (sg_idt s). split_and!; [by destruct s|done|lia].
  - intros k s' Hk (it & -> & Hl & Hit). destruct (lookup_lt_is_Some_2 vectors k ltac:(lia)) as [v Hkv]. wstep1. rewrite Hkv. wstep1.
    unfold put_gate. wstep1. eexists. split; [done|]. cbn [sg_idt]. split; [by rewrite length_insert|]. intros n v' Hn Hv'.
    destruct (decide (n = k)) as [->|Hne]; [|rewrite list_lookup_insert_ne by done; apply Hit; [lia|done]].
    rewrite list_lookup_insert_eq by lia. congruence.
  - intros s' (it & -> & Hl & Hit). destruct (lookup_lt_is_Some_2 vectors (Z.to_nat T_SYSCALL) ltac:(change (Z.to_nat T_SYSCALL) with 64%nat; lia)) as [v Hkv].
    wstep1. rewrite Hkv. wstep1. unfold put_gate. wstep1. apply HQ; [by rewrite length_insert|]. intros n v' Hv'. cbn [sg_idt]. unfold gate_of.
    case_decide as Hn; [subst n; rewrite list_lookup_insert_eq by (change (Z.to_nat T_SYSCALL) with 64%nat; lia); congruence|].
    rewrite list_lookup_insert_ne by done. apply Hit; [|done]. apply lookup_lt_Some in Hv'. lia.
Qed.

(** The table of processor [c] and its task state after switchuvm. *)
Definition gdt_user : list segdesc :=
  <[SEG_TSS := set_type STS_T32B (set_s 0 (SEG16 STS_T32A (cpu_addr cpus c + CPU_TS) (SIZEOF_TS - 1) 0))]> gdt_init.
Lemma wp_switchuvm kstack pgdir x cr3 tr idtr l it Q : (c < length l)%nat → cp_gdt x = gdt_init → cp_cpu x = cpu_addr cpus c → pgdir ≠ 0 →
  Q tt (mkSg (cpu_addr cpus c + CPU_GDT) (sel SEG_KCPU) (sel SEG_TSS) (v2p pgdir) idtr
     (<[c := mkCpu (set_stack0 (sel SEG_KDATA) (u32 (kstack + KSTACKSIZE)) (cp_ts x)) gdt_user (cp_cpu x) (cp_proc x)]> l) it) →
  wp (switchuvm cpus kstack pgdir) Q (mkSg (cpu_addr cpus c + CPU_GDT) (sel SEG_KCPU) tr cr3 idtr (<[c := x]> l) it).
Proof.
  intros Hc Hg Hx Hp HQ. destruct x as [ts gdt cv pv]. cbn in Hg, Hx. subst gdt cv. unfold switchuvm. wstep1.
  apply wp_get_cpu_var; [done..|]. wstep1. apply wp_put_seg; [done|]. cbn [cp_ts cp_gdt cp_cpu cp_proc].
  wstep1. eapply wp_get_cpu; [by apply list_lookup_insert_eq|]. cbn [cp_gdt]. wstep1. rewrite list_lookup_insert_eq by (apply Nat.ltb_lt; reflexivity). wstep1.
  wstep1. apply wp_put_seg; [done|]. cbn [cp_ts cp_gdt cp_cpu cp_proc]. rewrite list_insert_insert_eq.
  wstep1. eapply wp_get_cpu; [by apply list_lookup_insert_eq|]. cbn [cp_ts cp_gdt cp_cpu cp_proc]. wstep1. unfold put_cpu. wstep1.
  unfold set_cpus. cbn [sg_gdtr sg_gs sg_tr sg_cr3 sg_idtr sg_cpus sg_idt]. rewrite list_insert_insert_eq. wstep1.
  unfold ltr. wstep1. wstep1. cbn [id]. wstep1. rewrite descriptor_at by done. cbn [cp_gdt]. change (Z.to_nat (sel SEG_TSS / 8)) with SEG_TSS.
  rewrite list_lookup_insert_eq by (apply Nat.ltb_lt; reflexivity). wstep1. wstep1. rewrite cpu_with_addr by (cbn; by rewrite length_insert). wstep1.
  wstep1. apply wp_put_seg; [done|]. cbn [cp_ts cp_gdt cp_cpu cp_proc]. rewrite list_insert_insert_eq. wstep1.
  rewrite (proj2 (Z.eqb_neq pgdir 0)) by done. wstep1. exact HQ.
Qed.
End setup.

(** The set-up of processor [c] and the switch to a process. *)
Definition enter_user (cpus idt : Z) (vectors : list Z) (c : nat) (kstack pgdir : Z) : M seg unit :=
  seginit cpus c ;;;
  tvinit vectors ;;;
  idtinit idt ;;;
  switchuvm cpus kstack pgdir.

(** The tables before they are set up. *)
Record seg_fresh (cpus : Z) (c : nat) (s : seg) : Prop := {
  sf_addr : 0 ≤ cpus;
  sf_top : cpu_addr cpus c + SIZEOF_CPU ≤ 2 ^ 32;
  sf_cpu : sg_cpus s !! c = Some (mkCpu ts_zero (replicate NSEGS seg_null) 0 0);
  sf_idt : length (sg_idt s) = 256%nat }.

(** The state in which user code runs. *)
Definition user_state (cpus idt : Z) (vectors : list Z) (c : nat) (kstack pgdir : Z) (s : seg) : Prop :=
  ∃ idtr l it, idtr = idt ∧ (c < length l)%nat ∧ length it = 256%nat ∧
    (∀ n v, vectors !! n = Some v → it !! n = Some (gate_of n v)) ∧
    s = mkSg (cpu_addr cpus c + CPU_GDT) (sel SEG_KCPU) (sel SEG_TSS) (v2p pgdir) idtr
      (<[c := mkCpu (set_stack0 (sel SEG_KDATA) (u32 (kstack + KSTACKSIZE)) ts_zero) (gdt_user cpus c) (cpu_addr cpus c) 0]> l) it.
Lemma wp_enter_user cpus idt vectors c kstack pgdir s : seg_fresh cpus c s → length vectors = 256%nat → pgdir ≠ 0 →
  wp (enter_user cpus idt vectors c kstack pgdir) (λ _ s', user_state cpus idt vectors c kstack pgdir s') s.
Proof.
  intros [F1 F2 F3 F4] Hv Hp. pose proof (lookup_lt_Some _ _ _ F3) as Hlt. unfold enter_user. wstep1.
  eapply wp_seginit; [done|done|exact F3|done|]. cbn [cp_ts]. wstep1. apply wp_tvinit; [done|done|]. intros it Hit Hg.
  cbn [sg_gdtr sg_gs sg_tr sg_cr3 sg_idtr sg_cpus]. wstep1. unfold idtinit. wstep1. cbn [sg_gdtr sg_gs sg_tr sg_cr3 sg_idtr sg_cpus sg_idt].
  apply wp_switchuvm; [done..|]. cbn [cp_ts cp_cpu cp_proc]. by eexists _, _, _.
Qed.

Section user.
Context (cpus idt : Z) (vectors : list Z) (c : nat) (kstack pgdir : Z) (s : seg).
Context (c_addr : 0 ≤ cpus) (c_top : cpu_addr cpus c + SIZEOF_CPU ≤ 2 ^ 32).
Context (Hs : user_state cpus idt vectors c kstack pgdir s).

Lemma user_task : task cpus s = Some (set_type STS_T32B (set_s 0 (SEG16 STS_T32A (cpu_addr cpus c + CPU_TS) (SIZEOF_TS - 1) 0)),
  set_stack0 (sel SEG_KDATA) (u32 (kstack + KSTACKSIZE)) ts_zero).
Proof.
  destruct Hs as (idtr & l & it & -> & Hl & Hit & Hg & ->). unfold task. rewrite descriptor_at by done. cbn [cp_gdt sg_tr].
  change (Z.to_nat (sel SEG_TSS / 8)) with SEG_TSS. unfold gdt_user. rewrite list_lookup_insert_eq by (apply Nat.ltb_lt; reflexivity).
  cbn [mbind option_bind].
  change (seg_base (set_type _ (set_s 0 ?d))) with (seg_base d). rewrite seg_base_SEG16 by (unfold is_u32, cpu_addr, CPU_TS, SIZEOF_CPU in *; lia).
  rewrite cpu_with_addr by (cbn; by rewrite length_insert). cbn [mbind option_bind sg_cpus]. by rewrite list_lookup_insert_eq.
Qed.
Lemma user_descriptor k : descriptor cpus (sel k) s = gdt_user cpus c !! k.
Proof.
  destruct Hs as (idtr & l & it & -> & Hl & Hit & Hg & ->). rewrite descriptor_at by done. cbn [cp_gdt]. f_equal.
  unfold sel. rewrite Z.shiftl_mul_pow2 by lia. change (2 ^ 3) with 8. rewrite Z.div_mul by lia. lia.
Qed.
Definition gate_trap (n : nat) : bool := bool_decide (Z.of_nat n = T_SYSCALL).
Lemma int_entry_user software n v : vectors !! n = Some v → is_u32 v →
  int_entry cpus idt software n s = if negb software || gate_trap n then
    Some (mkEntry v (sel SEG_KCODE) (u32 (kstack + KSTACKSIZE)) (sel SEG_KDATA) (gate_trap n)) else None.
Proof.
  intros Hn Hv. unfold int_entry. rewrite user_task.
  assert (sg_idt s !! n = Some (gate_of n v) ∧ sg_idtr s = idt) as [-> ->].
  { destruct Hs as (idtr & l & it & -> & Hl & Hit & Hg & ->). split; [by apply Hg|done]. }
  assert (gate_of n v = SETGATE (gate_trap n) (sel SEG_KCODE) v (if gate_trap n then DPL_USER else 0)) as ->.
  { unfold gate_of, gate_trap. case_decide as Hd; case_bool_decide as Hb; try done; unfold T_SYSCALL in *; lia. }
  cbn [mbind option_bind gd_cs SETGATE]. rewrite user_descriptor. change (gdt_user cpus c !! SEG_KCODE) with (gdt_init cpus c !! SEG_KCODE).
  cbn [gdt_init lookup list_lookup SEG_KCODE mbind option_bind gd_p gd_s gd_type gd_dpl].
  rewrite Z.eqb_refl. change (seg_base _) with 0. rewrite Z.add_0_l.
  pose proof (gate_offset (gate_trap n) (sel SEG_KCODE) v (if gate_trap n then DPL_USER else 0) Hv) as Ho.
  rewrite Ho. by destruct software, (gate_trap n).
Qed.
End user.

(** C23: protection.  Once the tables are set up and a process is chosen, user code
    can load the user segments only; an int instruction enters the kernel for the
    system call and for no other vector; an interrupt or exception, whatever its
    vector, enters at the vector's code, in the kernel's code segment, on the
    process's kernel stack, and with interrupts off except for the system call. *)
Theorem user_entry cpus idt vectors c kstack pgdir s :
  seg_fresh cpus c s → length vectors = 256%nat → Forall is_u32 vectors → pgdir ≠ 0 →
  wp (enter_user cpus idt vectors c kstack pgdir) (λ _ s',
    sg_cr3 s' = v2p pgdir ∧
    (∀ k, (k < NSEGS)%nat → user_segment cpus k s' = bool_decide (k = SEG_UCODE ∨ k = SEG_UDATA)) ∧
    (∀ n v, vectors !! n = Some v →
      let e := mkEntry v (sel SEG_KCODE) (u32 (kstack + KSTACKSIZE)) (sel SEG_KDATA) (bool_decide (Z.of_nat n = T_SYSCALL)) in
      int_entry cpus idt false n s' = Some e ∧
      int_entry cpus idt true n s' = if decide (Z.of_nat n = T_SYSCALL) then Some e else None)) s.
Proof.
  intros Hf Hv Hu Hp. eapply wp_mono; [by apply wp_enter_user|]. intros [] s' Hs. destruct Hf as [F1 F2 _ _].
  pose proof (user_task _ _ _ _ _ _ _ F1 F2 Hs) as Ht. pose proof (user_descriptor _ _ _ _ _ _ _ Hs) as Hd.
  split; [by destruct Hs as (? & ? & ? & -> & _ & _ & _ & ->)|]. split.
  - intros k Hk. unfold user_segment. rewrite Hd. unfold NSEGS in Hk. do 7 (destruct k as [|k]; [done|]). lia.
  - intros n v Hn. assert (is_u32 v) as Hv32 by (by eapply Forall_lookup_1).
    rewrite !(int_entry_user _ _ _ _ _ _ _ F1 F2 Hs _ n v Hn Hv32). unfold gate_trap. split; [done|].
    case_bool_decide as Hb; [by rewrite decide_True by done|by rewrite decide_False by done].
Qed.

(** C37: the ports.  The I/O map base of the task state is never set: it stays 0, so
    that the processor takes the task state itself as the map of permitted ports.
    User code can therefore use every port from 96 to 815, in
    particular those of the disk, 0x1f0 to 0x1f7. *)
Theorem user_ports cpus idt vectors c kstack pgdir s :
  seg_fresh cpus c s → length vectors = 256%nat → pgdir ≠ 0 →
  wp (enter_user cpus idt vectors c kstack pgdir) (λ _ s', ∀ p, 96 ≤ p < 816 → user_port cpus p s' = true) s.
Proof.
  intros Hf Hv Hp. eapply wp_mono; [by apply wp_enter_user|]. intros [] s' Hs p Hr. destruct Hf as [F1 F2 _ _].
  unfold user_port. rewrite (user_task _ _ _ _ _ _ _ F1 F2 Hs).
  change (seg_limit _) with 103. cbn [set_stack0 ts_iomb ts_zero]. rewrite Z.add_0_l.
  assert (12 ≤ p / 8 < 102) as Hq by zlia. rewrite (proj2 (Z.leb_le _ _)) by lia. cbn [andb].
  assert (ts_bytes (set_stack0 (sel SEG_KDATA) (u32 (kstack + KSTACKSIZE)) ts_zero) !! Z.to_nat (p / 8) = Some 0) as ->; [|by rewrite Z.testbit_0_l].
  replace (Z.to_nat (p / 8)) with (12 + Z.to_nat (p / 8 - 12))%nat by lia.
  change (ts_bytes _ !! (12 + Z.to_nat (p / 8 - 12))%nat) with (replicate 92 0 !! Z.to_nat (p / 8 - 12)).
  apply lookup_replicate_2. lia.
Qed.

(** ** An example: one processor *)
Definition ex_vectors : list Z := replicate 256 0x80105a00.
Definition ex_seg : seg :=
  mkSg 0 0 0 0 0 [mkCpu ts_zero (replicate NSEGS seg_null) 0 0] (replicate 256 (mkGate 0 0 0 0 0 0 0 0 0)).
Lemma ex_seg_fresh : seg_fresh 0x80112780 0 ex_seg.
Proof. split; [done|by vm_compute|done|apply length_replicate]. Qed.
Lemma ex_vectors_ok : length ex_vectors = 256%nat ∧ Forall is_u32 ex_vectors.
Proof. split; [apply length_replicate|by apply Forall_replicate]. Qed.

Lemma user_entry_witness :
  ∃ s, enter_user 0x80112780 0x801148e0 ex_vectors 0 0x8dfff000 0x8dffe000 ex_seg = Ok tt s ∧
    int_entry 0x80112780 0x801148e0 true 64 s = Some (mkEntry 0x80105a00 8 0x8e000000 16 true) ∧
    int_entry 0x80112780 0x801148e0 true 32 s = None.
Proof.
  destruct ex_vectors_ok as [V1 V2].
  destruct (wp_run _ _ _ (user_entry 0x80112780 0x801148e0 ex_vectors 0 0x8dfff000 0x8dffe000 ex_seg ex_seg_fresh V1 V2 ltac:(done)))
    as ([] & s & Hs & _ & _ & He).
  exists s. split; [exact Hs|]. split; [exact (proj2 (He 64%nat _ eq_refl))|exact (proj2 (He 32%nat _ eq_refl))].
Defined.
Lemma user_ports_witness :
  ∃ s, enter_user 0x80112780 0x801148e0 ex_vectors 0 0x8dfff000 0x8dffe000 ex_seg = Ok tt s ∧ user_port 0x80112780 0x1f7 s = true.
Proof.
  destruct (wp_run _ _ _ (user_ports 0x80112780 0x801148e0 ex_vectors 0 0x8dfff000 0x8dffe000 ex_seg ex_seg_fresh (proj1 ex_vectors_ok) ltac:(done)))
    as ([] & s & Hs & He).
  exists s. split; [exact Hs|]. apply He. lia.
Defined.
