(* ===== verification/Lapic.v ===== *)
(** * The local interrupt controller of a processor (lapic.c)

    The registers are an interface: writes to the configuration registers are
    kept, a write to the low word of the interrupt command register sends an
    interprocessor interrupt to the processor in the high word.  [lapic] may be
    null, on a machine without one. *)
From stdpp Require Import base list numbers option strings sets.
From Stdlib Require Import ZArith Lia.
From S2P Require Import Prelude Trap.
Open Scope Z_scope.

Abbreviation LAPIC_ID := (0x0020 / 4).
Abbreviation VER := (0x0030 / 4).
Abbreviation TPR := (0x0080 / 4).
Abbreviation EOI := (0x00B0 / 4).
Abbreviation SVR := (0x00F0 / 4).
Abbreviation ENABLE := (0x00000100).
Abbreviation ESR := (0x0280 / 4).
Abbreviation ICRLO := (0x0300 / 4).
Abbreviation INIT := (0x00000500).
Abbreviation STARTUP := (0x00000600).
Abbreviation DELIVS := (0x00001000).
Abbreviation ASSERT := (0x00004000).
Abbreviation LEVEL := (0x00008000).
Abbreviation BCAST := (0x00080000).
Abbreviation ICRHI := (0x0310 / 4).
Abbreviation TIMER := (0x0320 / 4).
Abbreviation X1 := (0x0000000B).
Abbreviation PERIODIC := (0x00020000).
Abbreviation PCINT := (0x0340 / 4).
Abbreviation LINT0 := (0x0350 / 4).
Abbreviation LINT1 := (0x0360 / 4).
Abbreviation ERROR := (0x0370 / 4).
Abbreviation MASKED := (0x00010000).
Abbreviation TICR := (0x0380 / 4).
Abbreviation TDCR := (0x03E0 / 4).
Definition IRQ_ERROR : Z := 19.
Abbreviation IO_RTC := (0x70).

(** The registers that only configure the controller. *)
Definition config_regs : list Z := [TPR; SVR; ICRHI; TIMER; PCINT; LINT0; LINT1; ERROR; TICR; TDCR].
Class LapicDevice := {
  la : Type;
  la_write : Z → Z → la → la;
  la_read : Z → la → Z * la;
  la_id : la → Z;                          (** the number of the processor *)
  la_reg : la → Z → Z;                     (** the configuration registers *)
  la_ipis : la → list (Z * Z);             (** the interprocessor interrupts sent: destination, command *)
  la_delay : la → nat;                     (** looks at ICRLO until the interrupt is delivered *)
  la_write_reg d r v : r ∈ config_regs →
    (∀ q, la_reg (la_write r v d) q = if decide (q = r) then v else la_reg d q) ∧
    la_ipis (la_write r v d) = la_ipis d ∧ la_id (la_write r v d) = la_id d;
  la_write_other d r v : r = ESR ∨ r = EOI →
    la_reg (la_write r v d) = la_reg d ∧ la_ipis (la_write r v d) = la_ipis d ∧ la_id (la_write r v d) = la_id d;
  la_write_icr d v :
    la_reg (la_write ICRLO v d) = la_reg d ∧ la_id (la_write ICRLO v d) = la_id d ∧
    la_ipis (la_write ICRLO v d) = la_ipis d ++ [(Z.shiftr (la_reg d ICRHI) 24, v)];
  la_read_keeps d r :
    la_reg (la_read r d).2 = la_reg d ∧ la_ipis (la_read r d).2 = la_ipis d ∧ la_id (la_read r d).2 = la_id d;
  la_read_id d : Z.shiftr (la_read LAPIC_ID d).1 24 = la_id d;
  la_read_icr d : if has (la_read ICRLO d).1 DELIVS then (la_delay (la_read ICRLO d).2 < la_delay d)%nat else True;
}.

Ltac by_dec := apply (bool_decide_unpack _); exact I.

Section lapic.
Context {L : LapicDevice}.

Definition la_get (r : Z) : M la Z := λ d, let x := la_read r d in Ok x.1 x.2.
Definition lapicw (index value : Z) : M la unit :=
  modify (la_write index value) ;;;
  _ <- la_get LAPIC_ID ;;
  ret tt.
Fixpoint delivs_loop (fuel : nat) : M la unit :=
  match fuel with
  | O => sleep_on
  | S fuel => v <- la_get ICRLO ;; if has v DELIVS then delivs_loop fuel else ret tt
  end.
(** [lapic] is whether the pointer is not null. *)
Definition lapicinit (lapic : bool) : M la unit :=
  if negb lapic then ret tt
  else
    lapicw SVR (Z.lor ENABLE (T_IRQ0 + IRQ_SPURIOUS)) ;;;
    lapicw TDCR X1 ;;;
    lapicw TIMER (Z.lor PERIODIC (T_IRQ0 + IRQ_TIMER)) ;;;
    lapicw TICR 10000000 ;;;
    lapicw LINT0 MASKED ;;;
    lapicw LINT1 MASKED ;;;
    v <- la_get VER ;;
    (if 4 <=? Z.land (Z.shiftr v 16) 0xFF then lapicw PCINT MASKED else ret tt) ;;;
    lapicw ERROR (T_IRQ0 + IRQ_ERROR) ;;;
    lapicw ESR 0 ;;;
    lapicw ESR 0 ;;;
    lapicw EOI 0 ;;;
    lapicw ICRHI 0 ;;;
    lapicw ICRLO (Z.lor (Z.lor BCAST INIT) LEVEL) ;;;
    d <- gets id ;;
    delivs_loop (S (la_delay d)) ;;;
    lapicw TPR 0.
(** The warning about interrupts being on is only a message. *)
Definition cpunum (lapic : bool) : M la Z :=
  if lapic then v <- la_get LAPIC_ID ;; ret (Z.shiftr v 24) else ret 0.
Definition lapiceoi (lapic : bool) : M la unit :=
  if lapic then lapicw EOI 0 else ret tt.

(** The interprocessor interrupts of lapicstartap; the rest of it is in Smp.v.
    microdelay does nothing. *)
Fixpoint startap_loop (n : nat) (apicid addr : Z) : M la unit :=
  match n with
  | O => ret tt
  | S n =>
    lapicw ICRHI (u32 (Z.shiftl apicid 24)) ;;;
    lapicw ICRLO (Z.lor STARTUP (Z.shiftr addr 12)) ;;;
    startap_loop n apicid addr
  end.
Definition startap_ipis (apicid addr : Z) : M la unit :=
  lapicw ICRHI (u32 (Z.shiftl apicid 24)) ;;;
  lapicw ICRLO (Z.lor (Z.lor INIT LEVEL) ASSERT) ;;;
  lapicw ICRLO (Z.lor INIT LEVEL) ;;;
  startap_loop 2 apicid addr.

(** ** What they do *)
Lemma wp_la_get r d Q : (∀ d', la_reg d' = la_reg d → la_ipis d' = la_ipis d → la_id d' = la_id d →
  d' = (la_read r d).2 → Q (la_read r d).1 d') → wp (la_get r) Q d.
Proof. intros HQ. destruct (la_read_keeps d r) as (H1 & H2 & H3). by apply (HQ (la_read r d).2). Qed.

Lemma wp_lapicw_reg r v d Q : r ∈ config_regs →
  (∀ d', (∀ q, la_reg d' q = if decide (q = r) then v else la_reg d q) → la_ipis d' = la_ipis d → la_id d' = la_id d → Q tt d') →
  wp (lapicw r v) Q d.
Proof.
  intros Hr HQ. destruct (la_write_reg d r v Hr) as (W1 & W2 & W3). unfold lapicw. wstep1. wstep1. wstep1.
  apply wp_la_get. intros d' R1 R2 R3 _. wstep1. apply HQ; [intros q; by rewrite R1, W1|congruence|congruence].
Qed.
Lemma wp_lapicw_other r v d Q : r = ESR ∨ r = EOI →
  (∀ d', la_reg d' = la_reg d → la_ipis d' = la_ipis d → la_id d' = la_id d → Q tt d') → wp (lapicw r v) Q d.
Proof.
  intros Hr HQ. destruct (la_write_other d r v Hr) as (W1 & W2 & W3). unfold lapicw. wstep1. wstep1. wstep1.
  apply wp_la_get. intros d' R1 R2 R3 _. wstep1. apply HQ; congruence.
Qed.
Lemma wp_lapicw_icr v d Q :
  (∀ d', la_reg d' = la_reg d → la_ipis d' = la_ipis d ++ [(Z.shiftr (la_reg d ICRHI) 24, v)] → la_id d' = la_id d → Q tt d') →
  wp (lapicw ICRLO v) Q d.
Proof.
  intros HQ. destruct (la_write_icr d v) as (W1 & W2 & W3). unfold lapicw. wstep1. wstep1. wstep1.
  apply wp_la_get. intros d' R1 R2 R3 _. wstep1. apply HQ; congruence.
Qed.

(** The interrupts that start the processor [apicid] at [addr], in order. *)
Definition start_sequence (apicid addr : Z) : list (Z * Z) :=
  [(apicid, Z.lor (Z.lor INIT LEVEL) ASSERT); (apicid, Z.lor INIT LEVEL);
   (apicid, Z.lor STARTUP (Z.shiftr addr 12)); (apicid, Z.lor STARTUP (Z.shiftr addr 12))].
Lemma wp_startap apicid addr d Q : 0 ≤ apicid < 256 →
  (∀ d', la_ipis d' = la_ipis d ++ start_sequence apicid addr → la_id d' = la_id d → Q tt d') →
  wp (startap_ipis apicid addr) Q d.
Proof.
  intros Ha HQ. assert (Z.shiftr (u32 (Z.shiftl apicid 24)) 24 = apicid) as Hs.
  { rewrite u32_small by (rewrite Z.shiftl_mul_pow2 by lia; lia). rewrite Z.shiftl_mul_pow2, Z.shiftr_div_pow2 by lia.
    apply Z.div_mul. lia. }
  assert (ICRHI ∈ config_regs) as Hin by by_dec.
  unfold startap_ipis, startap_loop. wstep1. apply wp_lapicw_reg; [done|]. intros d1 R1 I1 D1. specialize (R1 ICRHI).
  rewrite decide_True in R1 by done.
  wstep1. apply wp_lapicw_icr. intros d2 R2 I2 D2. wstep1. apply wp_lapicw_icr. intros d3 R3 I3 D3.
  wstep1. apply wp_lapicw_reg; [done|]. intros d4 R4 I4 D4. specialize (R4 ICRHI). rewrite decide_True in R4 by done.
  wstep1. apply wp_lapicw_icr. intros d5 R5 I5 D5. wstep1. apply wp_lapicw_reg; [done|]. intros d6 R6 I6 D6.
  specialize (R6 ICRHI). rewrite decide_True in R6 by done. wstep1. apply wp_lapicw_icr. intros d7 R7 I7 D7. wstep1.
  apply HQ; [|congruence].
  rewrite I7, I6, I5, I4, I3, I2, I1, R6, R4, R2, R1, Hs, <- !app_assoc. done.
Qed.

Lemma wp_delivs fuel d Q : (la_delay d < fuel)%nat →
  (∀ d', la_reg d' = la_reg d → la_ipis d' = la_ipis d → la_id d' = la_id d → Q tt d') → wp (delivs_loop fuel) Q d.
Proof.
  revert d. induction fuel as [|fuel IH]; intros d Hf HQ; [lia|]. cbn [delivs_loop]. wstep1. apply wp_la_get.
  intros d' R1 R2 R3 ->. pose proof (la_read_icr d) as Hd. destruct (has (la_read ICRLO d).1 DELIVS).
  - apply IH; [lia|]. intros d' S1 S2 S3. apply HQ; congruence.
  - wstep1. by apply HQ.
Qed.

(** The registers after lapicinit: enabled, the timer interrupts periodically as
    IRQ_TIMER, the two lines of the processor are masked, no priority is blocked. *)
Definition lapic_ready (d : la) : Prop :=
  la_reg d SVR = Z.lor ENABLE (T_IRQ0 + IRQ_SPURIOUS) ∧ la_reg d TDCR = X1 ∧
  la_reg d TIMER = Z.lor PERIODIC (T_IRQ0 + IRQ_TIMER) ∧ la_reg d TICR = 10000000 ∧
  la_reg d LINT0 = MASKED ∧ la_reg d LINT1 = MASKED ∧ la_reg d ERROR = T_IRQ0 + IRQ_ERROR ∧ la_reg d TPR = 0.
Lemma wp_lapicinit d Q :
  (∀ d', lapic_ready d' → la_ipis d' = la_ipis d ++ [(0, Z.lor (Z.lor BCAST INIT) LEVEL)] → la_id d' = la_id d → Q tt d') →
  wp (lapicinit true) Q d.
Proof.
  intros HQ. unfold lapicinit. cbn [negb].
  wstep1. apply wp_lapicw_reg; [by_dec|]. intros d1 R1 I1 D1. wstep1. apply wp_lapicw_reg; [by_dec|]. intros d2 R2 I2 D2.
  wstep1. apply wp_lapicw_reg; [by_dec|]. intros d3 R3 I3 D3. wstep1. apply wp_lapicw_reg; [by_dec|]. intros d4 R4 I4 D4.
  wstep1. apply wp_lapicw_reg; [by_dec|]. intros d5 R5 I5 D5. wstep1. apply wp_lapicw_reg; [by_dec|]. intros d6 R6 I6 D6.
  wstep1. apply wp_la_get. intros d7 R7 I7 D7 _. wstep1.
  assert (wp (if 4 <=? Z.land (Z.shiftr (la_read VER d6).1 16) 0xFF then lapicw PCINT MASKED else ret tt)
    (λ _ d', (∀ q, q ≠ PCINT → la_reg d' q = la_reg d7 q) ∧ la_ipis d' = la_ipis d7 ∧ la_id d' = la_id d7) d7) as H8.
  { destruct (4 <=? _); [|by wstep1]. apply wp_lapicw_reg; [by_dec|]. intros d' R I D. split_and!; [|done|done].
    intros q Hq. by rewrite R, decide_False. }
  eapply wp_mono; [exact H8|]. intros [] d8 (R8 & I8 & D8).
  wstep1. apply wp_lapicw_reg; [by_dec|]. intros d9 R9 I9 D9. 
  wstep1. apply wp_lapicw_other; [by left|]. intros da Ra Ia Da. wstep1. apply wp_lapicw_other; [by left|]. intros db Rb Ib Db.
  wstep1. apply wp_lapicw_other; [by right|]. intros d10 R10 I10 D10. wstep1. apply wp_lapicw_reg; [by_dec|]. intros d11 R11 I11 D11.
  wstep1. apply wp_lapicw_icr. intros d12 R12 I12 D12. wstep1. wstep1. cbn [id]. wstep1. apply wp_delivs; [lia|].
  intros d13 R13 I13 D13. apply wp_lapicw_reg; [by_dec|]. intros d14 R14 I14 D14. apply HQ; [|rewrite I14, I13, I12, R11|congruence].
  - assert (∀ q, q ≠ TPR → q ≠ ICRHI → q ≠ PCINT → la_reg d14 q = if decide (q = ERROR) then T_IRQ0 + IRQ_ERROR else la_reg d6 q) as Hq.
    { intros q N1 N2 N3. rewrite R14, decide_False, R13, R12, R11, decide_False by done. rewrite R10, Rb, Ra, R9. case_decide; [done|]. by rewrite R8, R7 by done. }
    assert (∀ q v, bool_decide (q ≠ TPR ∧ q ≠ ICRHI ∧ q ≠ PCINT ∧ q ≠ ERROR) = true → la_reg d6 q = v → la_reg d14 q = v) as Hv.
    { intros q v (N1 & N2 & N3 & N4)%bool_decide_eq_true Hv. by rewrite Hq, decide_False. }
    split_and!; [apply Hv; [reflexivity|]..|rewrite Hq by by_dec; reflexivity|rewrite R14; reflexivity];
      rewrite R6, R5, R4, R3, R2, R1; reflexivity.
  - rewrite decide_True by done. f_equal. congruence.
Qed.
End lapic.
