(* ===== verification/Smp.v ===== *)
(** * Starting the other processors (startothers, mpenter and mpmain of main.c,
    lapicstartap of lapic.c, entryother.S)

    The boot processor hands each of the others a stack through the words before
    the code at 0x7000, wakes it with interprocessor interrupts and waits until it
    says that it is up.  The processors run as interleaved steps. *)
From stdpp Require Import base list numbers option strings sets.
From Stdlib Require Import ZArith Lia.
From S2P Require Import Prelude Layout Kalloc Trap Proc Lapic.
Open Scope Z_scope.

(** The address that the code of entryother.S is copied to. *)
Definition AP_CODE : Z := 0x7000.

Section smp.
Context {L : LapicDevice}.
(** The addresses of mpenter and entrypgdir, the bytes of entryother.S, and cpus[].id
    with ncpu entries in use. *)
Context (mpenter entrypgdir : Z) (entryother : list Z) (ids : list Z) (ncpu : nat).

(** Kernel memory, the local controller of the boot processor, the code at 0x7000
    and the words at code-4, code-8 and code-12, the warm reset vector, the ports of the clock, and
    cpus[].started. *)
Record smp := mkSmp {
  sm_mem : kmem; sm_lapic : la; sm_code : list Z; sm_stack : Z; sm_enter : Z; sm_pgdir : Z;
  sm_wrv : Z * Z; sm_rtc : list (Z * Z); sm_started : list bool }.
Definition set_mem (m : kmem) (s : smp) : smp :=
  mkSmp m (sm_lapic s) (sm_code s) (sm_stack s) (sm_enter s) (sm_pgdir s) (sm_wrv s) (sm_rtc s) (sm_started s).
Definition set_lapic (d : la) (s : smp) : smp :=
  mkSmp (sm_mem s) d (sm_code s) (sm_stack s) (sm_enter s) (sm_pgdir s) (sm_wrv s) (sm_rtc s) (sm_started s).
Definition set_words (st en pg : Z) (s : smp) : smp :=
  mkSmp (sm_mem s) (sm_lapic s) (sm_code s) st en pg (sm_wrv s) (sm_rtc s) (sm_started s).
Definition set_started (l : list bool) (s : smp) : smp :=
  mkSmp (sm_mem s) (sm_lapic s) (sm_code s) (sm_stack s) (sm_enter s) (sm_pgdir s) (sm_wrv s) (sm_rtc s) l.

Definition set_code (l : list Z) (s : smp) : smp :=
  mkSmp (sm_mem s) (sm_lapic s) l (sm_stack s) (sm_enter s) (sm_pgdir s) (sm_wrv s) (sm_rtc s) (sm_started s).

Definition lapicstartap (apicid addr : Z) : M smp unit :=
  modify (λ s, mkSmp (sm_mem s) (sm_lapic s) (sm_code s) (sm_stack s) (sm_enter s) (sm_pgdir s)
    (0, u16 (Z.shiftr addr 4)) (sm_rtc s ++ [(IO_RTC, 0xF); (IO_RTC + 1, 0x0A)]) (sm_started s)) ;;;
  zoom sm_lapic set_lapic (startap_ipis apicid addr).

(** The body of the loop of startothers before the wait. *)
Definition start_cpu (c : nat) : M smp unit :=
  stack <- zoom sm_mem set_mem kalloc ;;
  modify (set_words (u32 (stack + KSTACKSIZE)) mpenter (v2p entrypgdir)) ;;;
  id <- lift_opt (ids !! c) ;;
  lapicstartap (u8 id) AP_CODE.

(** Where the boot processor is in startothers: before the memmove, at the test of
    the loop, waiting for a processor, or after the loop. *)
Inductive bootpc := BBegin | BFor (c : nat) | BWait (c : nat) | BDone.
(** Another processor: halted, at the start of the code of entryother.S, with cr3
    loaded, with its stack, in mpenter, and with started set. *)
Inductive ap := AHalted | AStart | APaging (cr3 : Z) | AStack (cr3 esp : Z) | AEnter (cr3 esp eip : Z) | AUp (cr3 esp eip : Z).

Record machine := mkMach { mc_s : smp; mc_boot : bootpc; mc_aps : list ap }.

(** The processor [i] has been told to start at [v * 4096]: an INIT and then a
    STARTUP with vector [v] are among the interrupts sent to it. *)
Definition told (i v : Z) (ipis : list (Z * Z)) : Prop :=
  ∃ x1 x2 x3, ipis = x1 ++ [(i, Z.lor (Z.lor INIT LEVEL) ASSERT)] ++ x2 ++ [(i, Z.lor STARTUP v)] ++ x3.

Inductive step : machine → machine → Prop :=
| step_copy s aps : step (mkMach s BBegin aps) (mkMach (set_code entryother s) (BFor 0) aps)
(** c == cpus+cpunum() *)
| step_self s c aps : (c < ncpu)%nat → Z.of_nat c = la_id (sm_lapic s) →
    step (mkMach s (BFor c) aps) (mkMach s (BFor (S c)) aps)
| step_start s s' c aps : (c < ncpu)%nat → Z.of_nat c ≠ la_id (sm_lapic s) → start_cpu c s = Ok tt s' →
    step (mkMach s (BFor c) aps) (mkMach s' (BWait c) aps)
(** while(c->started == 0) *)
| step_up s c aps : sm_started s !! c = Some true →
    step (mkMach s (BWait c) aps) (mkMach s (BFor (S c)) aps)
| step_end s c aps : (ncpu ≤ c)%nat → step (mkMach s (BFor c) aps) (mkMach s BDone aps)
(** entryother.S *)
| step_sipi s b aps i : aps !! i = Some AHalted → sm_code s = entryother →
    told (Z.of_nat i) (Z.shiftr AP_CODE 12) (la_ipis (sm_lapic s)) →
    step (mkMach s b aps) (mkMach s b (<[i := AStart]> aps))
| step_cr3 s b aps i : aps !! i = Some AStart →
    step (mkMach s b aps) (mkMach s b (<[i := APaging (sm_pgdir s)]> aps))
| step_esp s b aps i cr3 : aps !! i = Some (APaging cr3) →
    step (mkMach s b aps) (mkMach s b (<[i := AStack cr3 (sm_stack s)]> aps))
| step_call s b aps i cr3 esp : aps !! i = Some (AStack cr3 esp) →
    step (mkMach s b aps) (mkMach s b (<[i := AEnter cr3 esp (sm_enter s)]> aps))
(** mpenter and mpmain: xchg(&cpu->started, 1) *)
| step_started s b aps i cr3 esp eip : aps !! i = Some (AEnter cr3 esp eip) →
    step (mkMach s b aps) (mkMach (set_started (<[i := true]> (sm_started s)) s) b (<[i := AUp cr3 esp eip]> aps)).
End smp.
