(* ===== verification/SmpSpec.v ===== *)
(** * Every processor gets a stack of its own (main.c, entryother.S)

    Whatever the interleaving, startothers starts each of the other processors
    once, on a page that no other processor has and that is not free. *)
From stdpp Require Import base list gmap numbers option strings sets relations.
From Stdlib Require Import ZArith Lia.
From S2P Require Import Prelude Layout Kalloc Trap Proc Lapic Smp.
Open Scope Z_scope.

Section smp_spec.
Context {L : LapicDevice} (kend mpenter entrypgdir : Z) (entryother : list Z) (ids : list Z) (ncpu boot : nat) (l0 : list Z).
Abbreviation start_cpu := (start_cpu mpenter entrypgdir ids).
Abbreviation step := (step mpenter entrypgdir entryother ids ncpu).











Context (ids_ok : ∀ c, (c < ncpu)%nat → ids !! c = Some (Z.of_nat c)) (ncpu_small : (ncpu ≤ 256)%nat)
  (enough : (ncpu ≤ length l0)%nat).





End smp_spec.



(** ** Two processors *)
(** A controller whose interrupts are delivered at once. *)
Record tinyla := mkTla { tla_reg : Z → Z; tla_ipis : list (Z * Z); tla_id : Z }.
Definition tla_write (r v : Z) (d : tinyla) : tinyla :=
  if r =? ICRLO then mkTla (tla_reg d) (tla_ipis d ++ [(Z.shiftr (tla_reg d ICRHI) 24, v)]) (tla_id d)
  else if (r =? ESR) || (r =? EOI) then d
  else mkTla (λ q, if decide (q = r) then v else tla_reg d q) (tla_ipis d) (tla_id d).
Definition tla_read (r : Z) (d : tinyla) : Z * tinyla := (if r =? LAPIC_ID then Z.shiftl (tla_id d) 24 else 0, d).
#[export] Program Instance tiny_lapic : LapicDevice := {|
  la := tinyla; la_write := tla_write; la_read := tla_read; la_id := tla_id; la_reg := tla_reg; la_ipis := tla_ipis; la_delay := λ _, 0%nat |}.
Next Obligation.
  intros d r v Hr. unfold tla_write.
  assert (bool_decide (r ∈ config_regs) = true → (r =? ICRLO) = false ∧ (r =? ESR) || (r =? EOI) = false) as Hne.
  { intros H%bool_decide_eq_true. unfold config_regs in H. repeat (apply elem_of_cons in H as [->|H]; [done|]). by apply elem_of_nil in H. }
  destruct Hne as [H1 H2]; [by apply bool_decide_eq_true|]. by rewrite H1, H2.
Qed.
Next Obligation. by intros d r v [->| ->]. Qed.
Next Obligation. done. Qed.
Next Obligation. done. Qed.
Next Obligation.
  intros d. change (Z.shiftr (Z.shiftl (tla_id d) 24) 24 = tla_id d). rewrite Z.shiftr_shiftl_l by lia. by rewrite Z.shiftl_0_r.
Qed.
Next Obligation. done. Qed.


